(* ===== verification/_CoqProject ===== *)
-Q . S2P
Prelude.v
RustStr.v
Errors.v
Frame.v
Retry.v
Config.v
Models.v
Regions.v
AssetInfo.v
Paths.v
Fs.v
BundleDiff.v
HipCodec.v
HipSession.v
Storage.v
AssetTasks.v
Scheduler.v
Watermark.v
Uploader.v
PollFilter.v
WorkDir.v
Poller.v
Service.v
PayloadBundle.v
FfiTypes.v
ExportPaths.v
ExportPayload.v
ObjectExport.v
WorkerProtocol.v
ExportRefinement.v
WorkerPool.v
ExportTasks.v
UsmInputs.v
CpuLimits.v
AcbStreaming.v
Media.v
MediaPostProcess.v
ConfigEnv.v
ConfigLoad.v
AssetFetch.v
PostProcess.v
BundleWork.v
GitSync.v
NativeLibrary.v
ExportRun.v
Ffmpeg.v
FfmpegEffects.v
FfmpegOutput.v
FfmpegFrames.v
Telemetry.v
Logging.v
CpuThrottle.v
WorkerProcess.v
Progress.v
HipConnect.v
Metrics.v
RgbaImages.v
RemoteRecord.v
Execution.v
