(* ===== verification/Prelude.v ===== *)
(** * Haruki Sekai Asset Updater: verification library

    ** The program

    The service watches the asset servers of the game's regions.  For every
    enabled region a loop ([src/service/poller.rs]) polls the current version; a
    version that is not the region's watermark ([src/service/watermark.rs]) leads
    to an attempt: the bundle index is fetched and compared with the last
    snapshot ([src/core/bundle_diff.rs], layer 1), the gateway is asked which
    bundles it already has (HIP CHECK, layer 2), the remaining ones are downloaded
    and exported ([src/core/asset_execution.rs], [src/core/export_pipeline]: the
    objects of a bundle are read through AssetStudio, in the process or in pooled
    worker processes of [crates/assetstudio-ffi], and written as files, then audio
    and video are converted, [src/core/media.rs]), and their artefacts are streamed
    to the gateway in batches, each ended by a COMMIT, over the HIP/1 protocol
    ([src/core/hip]).  A snapshot remembers what the gateway has, the watermark
    that a version is done.  Exports can also be copied to object stores
    ([src/core/storage.rs]).

    ** The files of this library

    - [Prelude]: results with the [?] operator, machine integers, byte strings,
      list lemmas, the tactics and hint databases.
    - [RustStr]: the [str] functions the sources call; [Paths]: [std::path];
      [Fs]: files, and atomic replacement as a step relation for crash safety.
    - [Errors], [Models], [Config], [Regions], [AssetInfo]: the data types of
      [core/errors.rs], [models.rs], [config.rs], [regions.rs] and
      [asset_execution.rs], with the computations on them.
    - [Frame]: [core/hip/frame.rs] (module [Hip]) and the worker frames of
      [crates/assetstudio-ffi/src/frame.rs] (module [Worker]), at byte level.
    - [HipCodec], [HipSession]: the messages and the client session of
      [core/hip/client.rs]: requests, reader, writer, dispatch and handshake are
      functions on the shared session state, their interleavings a step relation.
    - [Retry]: [core/retry.rs] and [core/cleanup.rs].
    - [BundleDiff]: the diff and the snapshot file.
    - [Storage]: provider resolution, object keys and [upload_to_all_storages].
    - [AssetTasks]: planning of download tasks, deobfuscation, raw bundle paths,
      the memory limiter and the download record.
    - [Scheduler]: the loop of [execute_with_filter] over concurrent downloads and
      post-processing.
    - [Watermark]: the watermark store.
    - [Uploader]: [run_uploader] and everything it calls.
    - [PollFilter]: the pre-download filter and [build_next_snapshot].
    - [WorkDir]: the code that deletes local directories.
    - [Poller]: attempts, retries, one poll, and all region loops together.
    - [Service]: the HTTP endpoints ([service/http.rs]) and the execution plans of
      [core/pipeline.rs].
    - [PayloadBundle]: the container format of [export_pipeline/implementation/payload.rs]
      in its two layouts, and raw RGBA images.
    - [FfiTypes]: requests, responses and errors of [crates/assetstudio-ffi/src/types.rs] and
      the classification of asset types in [implementation/assetstudio.rs].
    - [ExportPaths]: the output paths of [implementation/paths.rs].
    - [ExportPayload]: path claims and the writing of objects, images, playables and
      the manifest ([implementation/payload.rs]).
    - [ObjectExport]: the export of the objects of a bundle against any caller (the
      class [Caller] is the trait [AssetStudioObjectExportCaller]).
    - [WorkerProtocol]: one call over the pipes, [PooledWorker::call] on one side and
      [run_server] of [bin/assetstudio_ffi_worker.rs] on the other;
      [ExportRefinement]: the export through a leased worker against the export with the library.
    - [WorkerPool]: [worker_pool.rs], leases as a step relation.
    - [ExportTasks], [UsmInputs]: the thread pool and the USM segments of
      [implementation/tasks.rs]; [CpuLimits]: [implementation/limits.rs] and the encode
      slots.
    - [AcbStreaming], [Media], [MediaPostProcess]: the ACB pipeline, [core/media.rs], and
      tracks and videos of [implementation/media_postprocess.rs] with what they use
      of [core/codec.rs].
    - [ConfigEnv], [ConfigLoad]: loading the configuration ([core/config.rs]): references to
      and overrides by environment variables on the YAML tree, the named variables,
      validation, and the choice of the file.
    - [AssetFetch]: the requests of [core/asset_execution.rs]: cookies, versions, URLs,
      retries and the bundle index.
    - [PostProcess]: directory walks ([implementation/tasks.rs]), image conversion
      ([implementation/images.rs]) and [post_process_exported_files].
    - [BundleWork]: the work on one bundle (download, copies, temporary file, export,
      post-processing), the prefetch and the export of 3D models.
    - [GitSync]: [core/git_sync.rs], with the git program as an interface.
    - [NativeLibrary]: [crates/assetstudio-ffi/src/native.rs], with memory behind pointers; it
      provides the interface [Library] of [WorkerProtocol].
    - [ExportRun]: the first part of [implementation/assetstudio.rs]: options, leases, both
      modes of an export and the second attempt after a crash.
    - [Ffmpeg]: [core/media/ffi.rs], the conversions over the FFmpeg library as an interface, in
      a monad of effects with every failure; [FfmpegEffects], [FfmpegOutput], [FfmpegFrames]: the
      logics for it, what is written and released, and what reaches the encoders.
    - [Telemetry], [Logging]: [service/memory_telemetry.rs] and [service/logging.rs];
      [Progress]: the progress reports of [service/poller.rs]; [Metrics]: the figures that an
      export records ([phase_ms]).
    - [CpuThrottle]: the throttle of [implementation/limits.rs], with 64-bit floating point.
    - [WorkerProcess]: the worker process around the loop of [WorkerProtocol]: exit codes,
      standard output during a call, trace files.
    - [HipConnect]: the settings of a session and the channel it runs over.
    - [RgbaImages]: the image writers of [implementation/images.rs] down to the samples.
    - [RemoteRecord]: the download record in an object store.
    - [Execution]: [execute_with_filter] from the record to the summary, around the loop of
      [Scheduler], composed with the next plan and with the progress reports.

    ** How the code is rendered

    A function is a function of the same name; a [Result] is [result]; state that
    the code mutates is passed and returned as a record; concurrent tasks are step
    relations over their shared state.  A [HashMap] is a [gmap], with traversal
    orders as lists where they can be observed.  Integers are [Z] with wrapping,
    truncation and saturation written out.  What the code does not define is a
    parameter: serializers ([SnapshotCodec], [WatermarkCodec], [RecordCodec],
    [MsgPack]) with their round trips as laws, the gateway ([HipGateway]) without
    any law, [canonicalize] ([Resolver]) with its documented promise, object
    stores ([RemoteStore]), the native library ([Library]), JSON ([WorkerJson]) and
    temporary files ([TempFiles]) of the worker protocol, image and media encoders
    ([ExportEnv], [MediaEnv] with [MediaLaws]: a conversion touches nothing but its
    target), regular expressions and clocks.  Failures of the operating system are
    arguments of the operations they can strike.  Texts of error messages are
    abbreviated to their constant part; a path or number a message quotes is left
    out where nothing depends on it.  Each file with an interface ends with a
    module [Concrete...] that instantiates it and evaluates the definitions.

    ** What the theorems show

    - Nothing is lost ([Uploader]): a local artefact disappears only after its
      upload and the commit of its bundle were acknowledged; the snapshot gains
      only committed bundles; on success everything received was committed, once
      and in order; the traffic obeys the gateway's session rules and the
      region-wide totals are reported once.
    - Progress across polls ([Poller], [PollFilter]): the watermark file moves only
      on completion; what a completed poll leaves is exactly what needed work and
      was neither uploaded nor skipped; retries are bounded; at most the
      configured number of regions execute, and the health map tells the truth; a
      trigger ([Service]) wakes exactly its region.
      Two theorems record what the code does against its comments: a completed
      attempt hides failed downloads from the next poll, and a failed upload
      forgets the batches that were committed.
    - Deletion is confined ([WorkDir]).
    - The executor ([Scheduler], [AssetTasks], [Execution]): limits, absence of deadlock,
      termination, completeness and the record; exactly the right bundles are
      planned; the next execution plans exactly what this one did not complete;
      raw bundles stay in their directory; the memory guard.
    - The protocol ([HipSession], [Frame]): replies reach their request, nobody is
      left waiting, permits are conserved, content is delivered, commits are
      exclusive, frames round-trip and nothing else is accepted.
    - Files ([BundleDiff], [Watermark], [Storage]): the diff is exact, snapshots
      survive crashes, watermarks survive failed writes, objects are stored before
      local copies go.

    - The export ([ObjectExport], [ExportRefinement]): a context that was opened is closed
      whatever fails, every selected object is read once, in batches that isolate
      images, and the summary accounts for all of them; a pooled worker gives the
      same files, summary and requests as the library, as long as messages fit the
      frame limits.
    - Exported files ([ExportPaths], [ExportPayload], [PayloadBundle]): paths stay below the
      export directory, claims return and never hand out a path twice, existing files
      are not overwritten, the queue of images accounts for its bytes; bundles are
      parsed exactly, their entries stay in their directory, and both ways of
      copying an image agree.
    - Workers and threads ([WorkerPool], [ExportTasks], [AcbStreaming], [CpuLimits]): leases respect
      the semaphore and the pool drains; every task and every track is processed
      once, the first error is reported, and the pipeline ends as long as one
      decoding thread survives; the limiters never exceed their bounds.
    - Media ([MediaPostProcess], [UsmInputs]): a track yields exactly the files its formats
      ask for; a video's source is removed only after everything made from it, and
      merging segments keeps their data whatever fails.

    - Configuration ([ConfigEnv], [ConfigLoad]): a configuration that was loaded is valid, and
      validation accepts exactly the stated ranges; references are replaced exactly
      once, an override sets exactly its path, and each variable exactly its field.
    - Fetching ([AssetFetch]): which requests are sent, with which cookie, and how many; the
      previewed URLs are those that are fetched.
    - One bundle ([BundleWork], [PostProcess], [ExportRun]): temporary files are removed whatever
      happens, the prefetch accounts for every task, the uploaded files are exactly
      those below the export path; leases and permits are given back, and both
      modes export the same.
    - Chart hashes ([GitSync]): the git commands of a run, credentials that survive the URL,
      and that a failed push is not repeated.
    - The native library ([NativeLibrary]): the ABI check is exact, every buffer is released
      once, payloads survive their bundle, and which reads of an answer stay inside
      its memory.
    - Media libraries ([Ffmpeg], [FfmpegOutput], [FfmpegFrames]): input from memory refines a
      cursor; a conversion that succeeds wrote header, packets and trailer of its output;
      it releases what it allocated; it comes back, and feeds every decoded frame to the
      encoder of its stream.
    - The process around it ([CpuThrottle], [Telemetry], [Logging], [Progress], [Metrics],
      [WorkerProcess]): the throttle admits a thread only below its target and always in an
      idle process; a memory sample is exactly the process tree; colours change nothing
      but colours; the last progress report is of the current five percent; figures do
      not depend on the order of a map; the descriptors of a worker survive a call.
    - Channels and images ([HipConnect], [RgbaImages], [RemoteRecord]): with TLS the token is
      sent only over a channel with the configured certificates; raw images are written
      as if they had been decoded; a remote record is read back.

    Examples next to these theorems evaluate what the code does against its
    intention: [v1_layouts_overlap], [object_path_escapes], [pool_outgrows_concurrency],
    [merge_overwrites_input], [merge_truncates_itself], [encode_slot_lost],
    [sender_hangs], [outputs_collide], [temp_input_leaks], [temp_file_escapes],
    [truncated_bundle_kept], [negative_status_is_zero], [retry_duplicates], [reexport_renames],
    [memory_input_loses_context], [path_is_filled_in].

    ** Bounds

    [Prelude.chunks] recurses on the length of the list; [Retry.retry_loop] and
    [Poller.retry_attempts] on the number of attempts allowed;
    [WorkDir.prune_loop] on the number of components of the resolved path;
    [ExportPayload.claim_loop] on one more than the number of paths that exist or are
    claimed; [ExportPaths.strip_clones] on the length of the name;
    [CpuLimits.tree_loop] on the number of rows and pids that can be pushed;
    [ConfigEnv.expand_loop] and [ConfigEnv.split_path] on the length of the text;
    [PostProcess.walk] on one more than the depth of the tree; [Telemetry.descend] and
    [CpuThrottle.percent_loop] on two more than the number of processes.  The
    theorems show that none of them runs out.  [ObjectExport.list_pages] follows the
    pages a library answers with, forever if they never end, so its fuel is a
    parameter; one more than a bound on the offsets is enough when they advance.

    The loops of [Ffmpeg] have fuel as a parameter, because FFmpeg decides how often they
    turn; [FfmpegFrames.conversion_feeds_encoders] shows that some amount is enough and that
    more changes nothing.

    ** What is not modelled

    The libraries the sources only call: TLS and HTTP clients, decryption, FFmpeg, the CRI
    decoders, image encoders, serializers.  Start-up and signals ([src/main.rs]), panic hooks,
    the trace files of the client side of the worker pool, and log lines other than those
    named above.  Timings and figures ([phase_ms]) are modelled by themselves in [Metrics] and
    not threaded through the operations that record them.  The prefetch is modelled in the
    order in which its tasks are listed, while the code runs several at once; the
    process-wide lock of the native library is not modelled.  [ExportEnv.encode_image] stays an
    interface in [ExportPayload]; [RgbaImages] gives the writers behind it. *)

From Stdlib Require Export ZArith Lia.
From Stdlib Require Import Init.Byte Strings.Byte.
From stdpp Require Export base gmap strings list sorting.

(** ** Results

    Rust's [Result<T, E>], with the [?] operator as a bind. *)

Inductive result (A E : Type) : Type :=
| Ok (a : A)
| Err (e : E).
Arguments Ok {A E} a.
Arguments Err {A E} e.

Declare Scope rust_scope.
Delimit Scope rust_scope with rust.

Definition result_bind {A B E} (r : result A E) (k : A -> result B E) : result B E :=
  match r with
  | Ok a => k a
  | Err e => Err e
  end.

Definition result_map_err {A E F} (f : E -> F) (r : result A E) : result A F :=
  match r with
  | Ok a => Ok a
  | Err e => Err (f e)
  end.

Definition is_ok {A E} (r : result A E) : bool :=
  match r with Ok _ => true | Err _ => false end.

Notation "'let?' x := r 'in' k" := (result_bind r (fun x => k))
  (at level 10, x pattern, r at level 100, k at level 200) : rust_scope.

Lemma result_bind_Ok {A B E} (r : result A E) (k : A -> result B E) b :
  result_bind r k = Ok b <-> exists a, r = Ok a /\ k a = Ok b.
Proof. destruct r; simpl; naive_solver. Qed.

(** [ok_or]: the conversion of an option used all over the sources. *)
Definition ok_or {A E} (o : option A) (e : E) : result A E :=
  match o with Some a => Ok a | None => Err e end.

#[export] Instance result_eq_dec {A E} `{EqDecision A, EqDecision E} : EqDecision (result A E).
Proof. solve_decision. Defined.

(** [iter().map(f).collect::<Result<Vec<_>, _>>()]: the first error wins. *)
Fixpoint collect_results {A B E} (f : A -> result B E) (l : list A) : result (list B) E :=
  match l with
  | [] => Ok []
  | x :: l' =>
      match f x with
      | Err e => Err e
      | Ok y =>
          match collect_results f l' with
          | Err e => Err e
          | Ok ys => Ok (y :: ys)
          end
      end
  end.

(** ** Machine integers

    An unsigned integer of width [w] is a [Z] in [0, 2^w).  Wrapping is written
    out where the code wraps, saturation where the code saturates. *)

Definition u_max (w : Z) : Z := 2 ^ w - 1.
Definition u32_max : Z := u_max 32.
Definition u64_max : Z := u_max 64.
(** The service is built for 64-bit targets. *)
Definition usize_max : Z := u64_max.

Definition in_width (w z : Z) : Prop := (0 <= z < 2 ^ w)%Z.

(** [x as uN] for a non-negative [x]: truncation. *)
Definition truncate (w z : Z) : Z := (z mod 2 ^ w)%Z.

Definition wrapping_add (w a b : Z) : Z := truncate w (a + b).
Definition saturating_add (w a b : Z) : Z := Z.min (a + b) (u_max w).
Definition saturating_sub (a b : Z) : Z := Z.max (a - b) 0.
Definition saturating_mul (w a b : Z) : Z := Z.min (a * b) (u_max w).

(** [1u64.checked_shl(n)]: [None] from 64 on. *)
Definition checked_shl_one_u64 (n : Z) : option Z :=
  if (n <? 64)%Z then Some (Z.shiftl 1 n) else None.

(** [a.div_ceil(b)] on unsigned integers. *)
Definition div_ceil (a b : Z) : Z := ((a + b - 1) / b)%Z.

Lemma truncate_small w z : in_width w z -> truncate w z = z.
Proof. unfold in_width, truncate. intros. by apply Z.mod_small. Qed.

Lemma truncate_range w z : (0 <= w)%Z -> in_width w (truncate w z).
Proof. unfold in_width, truncate. intros. apply Z.mod_pos_bound. by apply Z.pow_pos_nonneg. Qed.

Lemma div_ceil_spec a b k : (0 < b -> 0 <= a -> div_ceil a b <= k <-> a <= k * b)%Z.
Proof.
  unfold div_ceil. intros Hb Ha. split; intros H.
  - pose proof (Z.mul_div_le (a + b - 1) b Hb).
    pose proof (Z.mod_pos_bound (a + b - 1) b Hb).
    pose proof (Z.div_mod (a + b - 1) b ltac:(lia)). nia.
  - apply Z.lt_succ_r. apply Z.div_lt_upper_bound; lia.
Qed.

(** ** Bytes *)

Abbreviation byte := Byte.byte.
Abbreviation bytes := (list Byte.byte).

Definition byte_to_Z (b : byte) : Z := Z.of_N (Byte.to_N b).

(** [z as u8]. *)
Definition byte_of_Z (z : Z) : byte :=
  match Byte.of_N (Z.to_N (z mod 256)) with
  | Some b => b
  | None => x00
  end.

#[export] Instance byte_eq_dec : EqDecision byte.
Proof. intros a b. destruct (Byte.byte_eq_dec a b); [by left | by right]. Defined.

Lemma byte_to_Z_range b : (0 <= byte_to_Z b < 256)%Z.
Proof.
  unfold byte_to_Z. pose proof (Byte.to_N_bounded b). lia.
Qed.

Lemma byte_to_of_Z z : byte_to_Z (byte_of_Z z) = (z mod 256)%Z.
Proof.
  unfold byte_to_Z, byte_of_Z.
  pose proof (Z.mod_pos_bound z 256 ltac:(lia)).
  destruct (Byte.of_N (Z.to_N (z mod 256))) eqn:E.
  - apply Byte.to_of_N in E. rewrite E. by rewrite Z2N.id by lia.
  - apply Byte.of_N_None_iff in E. lia.
Qed.

Lemma byte_of_to_Z b : byte_of_Z (byte_to_Z b) = b.
Proof.
  unfold byte_to_Z, byte_of_Z.
  pose proof (Byte.to_N_bounded b).
  rewrite Z.mod_small by lia. rewrite N2Z.id. by rewrite Byte.of_to_N.
Qed.

Lemma byte_to_Z_inj a b : byte_to_Z a = byte_to_Z b -> a = b.
Proof. intros E. by rewrite <- (byte_of_to_Z a), <- (byte_of_to_Z b), E. Qed.

(** [to_le_bytes] of an [n]-byte integer and [from_le_bytes]; the big-endian
    versions are their reversals. *)
Fixpoint to_le_bytes (n : nat) (z : Z) : bytes :=
  match n with
  | O => []
  | S n' => byte_of_Z z :: to_le_bytes n' (z / 256)
  end.

Fixpoint from_le_bytes (bs : bytes) : Z :=
  match bs with
  | [] => 0
  | b :: bs' => (byte_to_Z b + 256 * from_le_bytes bs')%Z
  end.

Definition to_be_bytes (n : nat) (z : Z) : bytes := reverse (to_le_bytes n z).
Definition from_be_bytes (bs : bytes) : Z := from_le_bytes (reverse bs).

Lemma length_to_le_bytes n z : length (to_le_bytes n z) = n.
Proof. revert z. induction n; simpl; auto. Qed.

Lemma length_to_be_bytes n z : length (to_be_bytes n z) = n.
Proof. unfold to_be_bytes. by rewrite length_reverse, length_to_le_bytes. Qed.

Lemma from_to_le_bytes n z :
  from_le_bytes (to_le_bytes n z) = (z mod 256 ^ Z.of_nat n)%Z.
Proof.
  revert z. induction n as [|n IH]; intros z.
  - cbn [to_le_bytes from_le_bytes]. by rewrite Z.mod_1_r.
  - cbn [to_le_bytes from_le_bytes]. rewrite IH, byte_to_of_Z.
    rewrite Nat2Z.inj_succ, Z.pow_succ_r by lia.
    rewrite Z.rem_mul_r by lia. lia.
Qed.

Lemma from_le_bytes_range bs : (0 <= from_le_bytes bs < 256 ^ Z.of_nat (length bs))%Z.
Proof.
  induction bs as [|b bs IH]; cbn [from_le_bytes length]; [lia|].
  rewrite Nat2Z.inj_succ, Z.pow_succ_r by lia.
  pose proof (byte_to_Z_range b). lia.
Qed.

Lemma to_from_le_bytes bs : to_le_bytes (length bs) (from_le_bytes bs) = bs.
Proof.
  induction bs as [|b bs IH]; cbn [from_le_bytes to_le_bytes length]; [done|].
  pose proof (byte_to_Z_range b). f_equal.
  - apply byte_to_Z_inj. rewrite byte_to_of_Z.
    rewrite (Z.mul_comm 256), Z.mod_add by lia. by apply Z.mod_small.
  - rewrite (Z.mul_comm 256), Z.div_add by lia.
    rewrite Z.div_small by lia. by rewrite Z.add_0_l.
Qed.

Lemma from_to_be_bytes n z :
  from_be_bytes (to_be_bytes n z) = (z mod 256 ^ Z.of_nat n)%Z.
Proof. unfold from_be_bytes, to_be_bytes. by rewrite reverse_involutive, from_to_le_bytes. Qed.

(** One byte per bit: a concrete injection of the positives, used to exhibit
    serializations that satisfy the laws the models assume of libraries. *)
Fixpoint pos_bytes (p : positive) : bytes :=
  match p with
  | xH => []
  | xO p' => x00 :: pos_bytes p'
  | xI p' => x01 :: pos_bytes p'
  end.
Fixpoint bytes_pos (bs : bytes) : positive :=
  match bs with
  | [] => xH
  | x00 :: bs' => xO (bytes_pos bs')
  | _ :: bs' => xI (bytes_pos bs')
  end.

Lemma bytes_pos_bytes p : bytes_pos (pos_bytes p) = p.
Proof. induction p as [p IH|p IH|]; simpl; by rewrite ?IH. Qed.

(** ** Reading from a byte stream

    [read_exact(&mut [0; n])]: the bytes and the rest of the stream, or [None]
    (an [UnexpectedEof] I/O error) when the stream ends first. *)
Definition read_exact (n : nat) (s : bytes) : option (bytes * bytes) :=
  if (length s <? n)%nat then None else Some (take n s, drop n s).

Lemma read_exact_app bs rest : read_exact (length bs) (bs ++ rest) = Some (bs, rest).
Proof.
  unfold read_exact. rewrite length_app.
  destruct (Nat.ltb_spec (length bs + length rest) (length bs)); [lia|].
  by rewrite take_app_length, drop_app_length.
Qed.

Lemma read_exact_app' n bs rest :
  length bs = n -> read_exact n (bs ++ rest) = Some (bs, rest).
Proof. intros <-. apply read_exact_app. Qed.

Lemma read_exact_Some n s bs rest :
  read_exact n s = Some (bs, rest) -> s = bs ++ rest /\ length bs = n.
Proof.
  unfold read_exact. destruct (Nat.ltb_spec (length s) n); [done|].
  intros ?; simplify_eq. by rewrite take_drop, length_take_le by lia.
Qed.

(** ** Slices

    [zlen] is [slice::len] and [slice s a b] is [&s[a..b]], for bounds the code
    has checked. *)
Definition zlen {A} (l : list A) : Z := Z.of_nat (length l).

Definition slice {A} (l : list A) (a b : Z) : list A :=
  take (Z.to_nat (b - a)) (drop (Z.to_nat a) l).

Lemma zlen_app {A} (l k : list A) : zlen (l ++ k) = (zlen l + zlen k)%Z.
Proof. unfold zlen. rewrite length_app. lia. Qed.

Lemma zlen_nonneg {A} (l : list A) : (0 <= zlen l)%Z.
Proof. unfold zlen. lia. Qed.

Lemma slice_mid {A} (pre x tl : list A) a b :
  a = zlen pre -> b = (a + zlen x)%Z -> slice (pre ++ x ++ tl) a b = x.
Proof.
  unfold slice, zlen. intros -> ->. rewrite Nat2Z.id, drop_app_length.
  replace (Z.to_nat _) with (length x) by lia. apply take_app_length.
Qed.

Lemma slice_prefix {A} (x tl : list A) b : b = zlen x -> slice (x ++ tl) 0 b = x.
Proof. intros ->. by apply (slice_mid [] x tl). Qed.

Lemma zlen_slice {A} (l : list A) a b :
  (0 <= a <= b)%Z -> (b <= zlen l)%Z -> zlen (slice l a b) = (b - a)%Z.
Proof. unfold slice, zlen. intros. rewrite length_take, length_drop. lia. Qed.

Lemma zlen_to_le_bytes n z : zlen (to_le_bytes n z) = Z.of_nat n.
Proof. unfold zlen. by rewrite length_to_le_bytes. Qed.

Lemma from_to_le_small n z :
  (0 <= z < 256 ^ Z.of_nat n)%Z -> from_le_bytes (to_le_bytes n z) = z.
Proof. intros. rewrite from_to_le_bytes. by apply Z.mod_small. Qed.

Lemma to_from_le_small n bs : zlen bs = Z.of_nat n -> to_le_bytes n (from_le_bytes bs) = bs.
Proof. unfold zlen. intros E. rewrite <- (to_from_le_bytes bs) at 2. f_equal. lia. Qed.

(** ** Lists *)

(** [slice::chunks(n)] for a positive [n]; [fuel] is the length of the list,
    which always suffices ([chunks_concat]). *)
Fixpoint chunks_aux {A} (fuel n : nat) (l : list A) : list (list A) :=
  match fuel, l with
  | _, [] => []
  | O, _ => []
  | S fuel', _ => take n l :: chunks_aux fuel' n (drop n l)
  end.
Definition chunks {A} (n : nat) (l : list A) : list (list A) := chunks_aux (length l) n l.

Lemma chunks_aux_concat {A} fuel n (l : list A) :
  (0 < n)%nat -> (length l <= fuel)%nat -> concat (chunks_aux fuel n l) = l.
Proof.
  intros Hn. revert l. induction fuel as [|fuel IH]; intros [|x l] Hl; simpl in *; try done; [lia|].
  rewrite IH.
  - destruct n; [lia|]. simpl. by rewrite take_drop.
  - destruct n; [lia|]. simpl. rewrite length_drop. lia.
Qed.

Lemma chunks_concat {A} n (l : list A) : (0 < n)%nat -> concat (chunks n l) = l.
Proof. intros. by apply chunks_aux_concat. Qed.

Lemma chunks_aux_bounded {A} fuel n (l : list A) :
  Forall (fun c => (length c <= n)%nat) (chunks_aux fuel n l).
Proof.
  revert l. induction fuel as [|fuel IH]; intros [|x l]; simpl; try constructor; auto.
  rewrite length_take. lia.
Qed.

Lemma chunks_bounded {A} n (l : list A) : Forall (fun c => (length c <= n)%nat) (chunks n l).
Proof. apply chunks_aux_bounded. Qed.

(** Sum of a list of integers ([iter().sum()]). *)
Definition sumZ (l : list Z) : Z := foldr Z.add 0%Z l.

Lemma sumZ_app l1 l2 : sumZ (l1 ++ l2) = (sumZ l1 + sumZ l2)%Z.
Proof. unfold sumZ. induction l1; simpl; lia. Qed.

Lemma sumZ_nonneg l : Forall (fun z => 0 <= z)%Z l -> (0 <= sumZ l)%Z.
Proof. unfold sumZ. induction 1; simpl; lia. Qed.

#[export] Instance sumZ_perm : Proper (Permutation ==> eq) sumZ.
Proof. unfold sumZ. induction 1; simpl; lia. Qed.

(** One element taken out of the middle of a list: the sums and concatenations over
    the elements (the threads or tasks of a step relation). *)
Lemma sumZ_mid {A} (f : A -> Z) l1 x l2 : sumZ (map f (l1 ++ x :: l2)) = (f x + sumZ (map f (l1 ++ l2)))%Z.
Proof. rewrite !map_app, !sumZ_app. simpl. lia. Qed.

Lemma list_sum_mid {A} (f : A -> nat) l1 x l2 :
  list_sum (map f (l1 ++ x :: l2)) = (f x + list_sum (map f (l1 ++ l2)))%nat.
Proof. rewrite !map_app, !list_sum_app. simpl. lia. Qed.

Lemma concat_map_mid {A B} (f : A -> list B) l1 x l2 :
  concat (map f (l1 ++ x :: l2)) ≡ₚ f x ++ concat (map f (l1 ++ l2)).
Proof.
  rewrite !map_app, !concat_app. simpl. rewrite !app_assoc. f_equiv. apply Permutation_app_comm.
Qed.

#[export] Instance zlen_perm {A} : Proper (Permutation ==> eq) (@zlen A).
Proof. intros l l' Hp. unfold zlen. by rewrite Hp. Qed.

Lemma zlen_cons {A} (x : A) l : zlen (x :: l) = (1 + zlen l)%Z.
Proof. unfold zlen. simpl. lia. Qed.

(** A Boolean test finds an element, or fails on all of them. *)
Lemma find_split {A} (p : A -> bool) l :
  (exists l1 x l2, l = l1 ++ x :: l2 /\ p x = true) \/ Forall (fun x => p x = false) l.
Proof.
  induction l as [|x l IH]; [right; constructor|]. destruct (p x) eqn:Ep.
  - left. by exists [], x, l.
  - destruct IH as [(l1 & y & l2 & -> & Hy)|Hf]; [left; by exists (x :: l1), y, l2 | right; by constructor].
Qed.

Lemma omap_perm {A B} (f : A -> option B) l1 l2 :
  Permutation l1 l2 -> Permutation (omap f l1) (omap f l2).
Proof.
  induction 1 as [|x l1 l2 _ IH|x y l|l1 l2 l3 _ IH1 _ IH2]; simpl.
  - done.
  - destruct (f x); [by constructor | done].
  - destruct (f x), (f y); solve [done | constructor].
  - by etrans.
Qed.

Lemma collect_results_ok {A B E} (f : A -> result B E) l ys :
  collect_results f l = Ok ys <-> Forall2 (fun x y => f x = Ok y) l ys.
Proof.
  revert ys. induction l as [|x l IH]; intros ys; simpl.
  - split; [intros; simplify_eq; constructor | by inversion 1].
  - split.
    + destruct (f x) eqn:E1; [|done]. destruct (collect_results f l) eqn:E2; [|done].
      intros; simplify_eq. constructor; [done|]. by apply IH.
    + inversion 1 as [|?? ? ? Hx Hl]; subst. rewrite Hx.
      apply IH in Hl. by rewrite Hl.
Qed.

Lemma collect_results_err {A B E} (f : A -> result B E) l e :
  collect_results f l = Err e -> exists x, x ∈ l /\ f x = Err e.
Proof.
  induction l as [|x l IH]; simpl; [done|].
  destruct (f x) eqn:E1.
  - destruct (collect_results f l) eqn:E2; [done|]. intros ?; simplify_eq.
    destruct IH as (y & ? & ?); [done|]. exists y. split; [by right|done].
  - intros; simplify_eq. exists x. split; [by left|done].
Qed.

(** ** Automation *)

(** Case analysis on the scrutinee of every [match] and [if] in the goal, with
    the equations kept and simplified. *)
Ltac case_match_all :=
  repeat (case_match; simplify_eq/=; try done).

(** Reflects the boolean comparisons of the context into arithmetic facts. *)
Ltac zbool :=
  repeat match goal with
  | H : (_ <? _)%Z = true |- _ => apply Z.ltb_lt in H
  | H : (_ <? _)%Z = false |- _ => apply Z.ltb_ge in H
  | H : (_ <=? _)%Z = true |- _ => apply Z.leb_le in H
  | H : (_ <=? _)%Z = false |- _ => apply Z.leb_gt in H
  | H : (_ =? _)%Z = true |- _ => apply Z.eqb_eq in H
  | H : (_ =? _)%Z = false |- _ => apply Z.eqb_neq in H
  | H : (_ <? _)%nat = true |- _ => apply Nat.ltb_lt in H
  | H : (_ <? _)%nat = false |- _ => apply Nat.ltb_ge in H
  | H : (_ <=? _)%nat = true |- _ => apply Nat.leb_le in H
  | H : (_ <=? _)%nat = false |- _ => apply Nat.leb_gt in H
  | H : (_ =? _)%nat = true |- _ => apply Nat.eqb_eq in H
  | H : (_ =? _)%nat = false |- _ => apply Nat.eqb_neq in H
  | H : _ && _ = true |- _ => apply andb_true_iff in H as [? ?]
  | H : _ || _ = false |- _ => apply orb_false_iff in H as [? ?]
  | H : negb _ = true |- _ => apply negb_true_iff in H
  | H : negb _ = false |- _ => apply negb_false_iff in H
  end.

(** Permutations of concatenations: the right side is rotated until its head is the
    head of the left side. *)
Ltac perm_split_cons :=
  repeat match goal with
  | |- context [?x :: ?l] => lazymatch l with [] => fail | _ => change (x :: l) with ([x] ++ l) end
  end.
Ltac perm_rotate :=
  match goal with |- _ ≡ₚ ?y ++ ?z => rewrite (Permutation_app_comm y z), <- ?app_assoc end.
Ltac perm_solve :=
  perm_split_cons; rewrite <- ?app_assoc, ?app_nil_r, ?app_nil_l;
  do 30 (try first [ reflexivity
    | match goal with |- ?a ++ _ ≡ₚ ?a ++ _ => apply Permutation_app_head end
    | perm_rotate ]).

Create HintDb rust.
Create Rewrite HintDb rust.
#[export] Hint Resolve byte_to_Z_range from_le_bytes_range length_to_le_bytes
  length_to_be_bytes truncate_range zlen_nonneg : rust.
#[export] Hint Rewrite @length_to_le_bytes @length_to_be_bytes @length_app @length_take
  @length_drop @length_reverse @length_fmap @zlen_app @zlen_to_le_bytes : rust.
