(* ===== verification/RustStr.v ===== *)
(** * Rust [str] operations

    A Rust string is its UTF-8 bytes, so it is a [string] (a sequence of 8-bit
    characters) here.  The functions below are the operations of [std::str] the
    sources use, on those bytes.  [str::cmp] is the lexicographic order on the
    bytes, which is [String.le] of the standard ordering. *)

From Stdlib Require Import Ascii.
From stdpp Require Export pretty.
From S2P Require Import Prelude.

Local Open Scope string_scope.
#[local] Arguments String.append : simpl nomatch.

(** ** Searching *)

(** [s.starts_with(p)]. *)
Definition starts_with (p s : string) : bool := String.prefix p s.

(** [s.strip_prefix(p)]. *)
Fixpoint strip_prefix (p s : string) : option string :=
  match p, s with
  | EmptyString, _ => Some s
  | String a p', String b s' => if Ascii.eqb a b then strip_prefix p' s' else None
  | String _ _, EmptyString => None
  end.

(** [s.contains(p)]. *)
Fixpoint contains (p s : string) : bool :=
  starts_with p s ||
  match s with
  | EmptyString => false
  | String _ s' => contains p s'
  end.

(** [s.is_empty()]. *)
Definition is_empty (s : string) : bool :=
  match s with EmptyString => true | String _ _ => false end.

(** [s.replace(p, t)] for a non-empty [p]: the occurrences are found from the
    left and do not overlap.  [n] is the number of bytes still to skip in the
    occurrence being consumed. *)
Fixpoint replace_aux (p t : string) (n : nat) (s : string) : string :=
  match s with
  | EmptyString => ""
  | String c s' =>
      match n with
      | S n' => replace_aux p t n' s'
      | O => if starts_with p s then t +:+ replace_aux p t (String.length p - 1) s'
             else String c (replace_aux p t 0 s')
      end
  end.
Definition replace (p t s : string) : string := replace_aux p t 0 s.

(** [s.replace(c, d)] on single bytes: [s.replace('\\', "/")]. *)
Fixpoint replace_char (c d : ascii) (s : string) : string :=
  match s with
  | EmptyString => ""
  | String a s' => String (if Ascii.eqb a c then d else a) (replace_char c d s')
  end.

(** [s.split(c)]: always at least one piece. *)
Fixpoint split_on (c : ascii) (s : string) : list string :=
  match s with
  | EmptyString => [""]
  | String a s' =>
      if Ascii.eqb a c then "" :: split_on c s'
      else match split_on c s' with
           | [] => [String a ""]
           | w :: ws => String a w :: ws
           end
  end.

(** [s.split_once(sep)] for a separator that is not empty. *)
Fixpoint split_once (sep s : string) : option (string * string) :=
  match strip_prefix sep s with
  | Some r => Some ("", r)
  | None =>
      match s with
      | EmptyString => None
      | String a s' => match split_once sep s' with Some (l, r) => Some (String a l, r) | None => None end
      end
  end.

(** [str::rsplit_once] with a separator that is not empty. *)
Fixpoint rsplit_once (sep s : string) : option (string * string) :=
  match s with
  | EmptyString => None
  | String a s' =>
      match rsplit_once sep s' with
      | Some (l, r) => Some (String a l, r)
      | None => match strip_prefix sep s with Some r => Some ("", r) | None => None end
      end
  end.

Definition is_ascii_digit (a : ascii) : bool :=
  let n := nat_of_ascii a in (48 <=? n)%nat && (n <=? 57)%nat.
Definition all_digits (s : string) : bool := forallb is_ascii_digit (String.list_ascii_of_string s).

(** [str::parse] for unsigned integers of [w] bits: digits after an optional [+]. *)
Definition parse_unsigned (w : Z) (s : string) : option Z :=
  let s := default s (strip_prefix "+" s) in
  if is_empty s || negb (all_digits s) then None
  else
    let v := foldl (fun n a => n * 10 + (Z.of_nat (nat_of_ascii a) - 48))%Z 0%Z (String.list_ascii_of_string s) in
    if (v <=? u_max w)%Z then Some v else None.

(** ** Case *)

Definition ascii_lower (a : ascii) : ascii :=
  let n := nat_of_ascii a in
  if (65 <=? n)%nat && (n <=? 90)%nat then ascii_of_nat (n + 32) else a.

(** [s.to_ascii_lowercase()]. *)
Fixpoint to_ascii_lowercase (s : string) : string :=
  match s with
  | EmptyString => ""
  | String a s' => String (ascii_lower a) (to_ascii_lowercase s')
  end.

(** [s.eq_ignore_ascii_case(t)]. *)
Definition eq_ignore_ascii_case (s t : string) : bool :=
  String.eqb (to_ascii_lowercase s) (to_ascii_lowercase t).

(** ** Trimming *)

Fixpoint rev_string_aux (s acc : string) : string :=
  match s with
  | EmptyString => acc
  | String a s' => rev_string_aux s' (String a acc)
  end.
Definition rev_string (s : string) : string := rev_string_aux s "".

(** [s.strip_suffix(p)]. *)
Definition strip_suffix (p s : string) : option string :=
  match strip_prefix (rev_string p) (rev_string s) with
  | Some r => Some (rev_string r)
  | None => None
  end.

(** [s.trim_start_matches(c)]. *)
Fixpoint trim_start_matches (c : ascii) (s : string) : string :=
  match s with
  | EmptyString => ""
  | String a s' => if Ascii.eqb a c then trim_start_matches c s' else s
  end.

(** [s.trim_end_matches(c)]. *)
Definition trim_end_matches (c : ascii) (s : string) : string :=
  rev_string (trim_start_matches c (rev_string s)).

(** [s.trim_matches(c)]. *)
Definition trim_matches (c : ascii) (s : string) : string :=
  trim_end_matches c (trim_start_matches c s).

Definition str_of_codes (l : list nat) : string :=
  foldr (fun n s => String (ascii_of_nat n) s) "" l.

(** The UTF-8 encodings of the characters with the Unicode property
    [White_Space], the ones [str::trim] removes. *)
Definition white_space : list string :=
  map str_of_codes
    ([[9]; [10]; [11]; [12]; [13]; [32]; [194; 133]; [194; 160]; [225; 154; 128]]
     ++ map (fun n => [226; 128; n]) (seq 128 11)
     ++ [[226; 128; 168]; [226; 128; 169]; [226; 128; 175]; [226; 129; 159]; [227; 128; 128]])%nat%list.

Fixpoint strip_any (ws : list string) (s : string) : option string :=
  match ws with
  | [] => None
  | w :: ws' => match strip_prefix w s with
                | Some s' => Some s'
                | None => strip_any ws' s
                end
  end.

(** Repeatedly strips a leading piece of [ws]; every round removes a byte, so
    the length of the string is enough fuel. *)
Fixpoint trim_with (ws : list string) (fuel : nat) (s : string) : string :=
  match fuel with
  | O => s
  | S fuel' => match strip_any ws s with
               | Some s' => trim_with ws fuel' s'
               | None => s
               end
  end.

(** [s.trim_start()], [s.trim_end()], [s.trim()]. *)
Definition trim_start (s : string) : string := trim_with white_space (String.length s) s.
Definition trim_end (s : string) : string :=
  rev_string (trim_with (map rev_string white_space) (String.length s) (rev_string s)).
Definition trim (s : string) : string := trim_end (trim_start s).

(** [value.trim().is_empty()]. *)
Definition blank (s : string) : bool := is_empty (trim s).

(** [o.as_deref().map(str::trim).filter(|v| !v.is_empty())]. *)
Definition trimmed_non_empty (o : option string) : option string :=
  match o with
  | Some s => let t := trim s in if is_empty t then None else Some t
  | None => None
  end.

(** [o.filter(|v| !v.is_empty())]. *)
Definition non_empty (o : option string) : option string :=
  match o with
  | Some s => if is_empty s then None else Some s
  | None => None
  end.

(** [o.unwrap_or_default()] on an [Option<String>]. *)
Definition unwrap_or_default (o : option string) : string := default "" o.

(** ** UTF-8

    [s.as_bytes()], and [std::str::from_utf8] with the byte ranges of
    [core::str::validations]: no overlong forms, surrogates or values above
    U+10FFFF. *)
Definition as_bytes (s : string) : bytes := String.list_byte_of_string s.

Definition byte_in (lo hi : Z) (b : byte) : bool :=
  (lo <=? byte_to_Z b)%Z && (byte_to_Z b <=? hi)%Z.

Fixpoint utf8_valid (bs : bytes) : bool :=
  match bs with
  | [] => true
  | b0 :: l0 =>
      if byte_in 0 127 b0 then utf8_valid l0
      else match l0 with
      | [] => false
      | b1 :: l1 =>
          if byte_in 194 223 b0 then byte_in 128 191 b1 && utf8_valid l1
          else match l1 with
          | [] => false
          | b2 :: l2 =>
              if byte_in 224 239 b0 then
                byte_in (if byte_in 224 224 b0 then 160 else 128)
                        (if byte_in 237 237 b0 then 159 else 191) b1
                && byte_in 128 191 b2 && utf8_valid l2
              else match l2 with
              | [] => false
              | b3 :: l3 =>
                  byte_in 240 244 b0
                  && byte_in (if byte_in 240 240 b0 then 144 else 128)
                             (if byte_in 244 244 b0 then 143 else 191) b1
                  && byte_in 128 191 b2 && byte_in 128 191 b3 && utf8_valid l3
              end
          end
      end
  end.

Definition from_utf8 (bs : bytes) : option string :=
  if utf8_valid bs then Some (String.string_of_list_byte bs) else None.

(** [String::from_utf8_lossy]: every maximal part that starts a character but is not
    one becomes U+FFFD. *)
Definition replacement : bytes := map byte_of_Z [239; 191; 189]%Z.

Fixpoint utf8_lossy (bs : bytes) : bytes :=
  match bs with
  | [] => []
  | b0 :: l0 =>
      if byte_in 0 127 b0 then b0 :: utf8_lossy l0
      else match l0 with
      | [] => replacement
      | b1 :: l1 =>
          if byte_in 194 223 b0 then
            if byte_in 128 191 b1 then b0 :: b1 :: utf8_lossy l1 else replacement ++ utf8_lossy l0
          else if (byte_in 224 239 b0
                   && byte_in (if byte_in 224 224 b0 then 160 else 128) (if byte_in 237 237 b0 then 159 else 191) b1)
               || (byte_in 240 244 b0
                   && byte_in (if byte_in 240 240 b0 then 144 else 128) (if byte_in 244 244 b0 then 143 else 191) b1) then
            match l1 with
            | [] => replacement
            | b2 :: l2 =>
                if negb (byte_in 128 191 b2) then replacement ++ utf8_lossy l1
                else if byte_in 224 239 b0 then b0 :: b1 :: b2 :: utf8_lossy l2
                else match l2 with
                | [] => replacement
                | b3 :: l3 =>
                    if byte_in 128 191 b3 then b0 :: b1 :: b2 :: b3 :: utf8_lossy l3 else replacement ++ utf8_lossy l2
                end
            end
          else replacement ++ utf8_lossy l0
      end
  end.

Definition from_utf8_lossy (bs : bytes) : string := String.string_of_list_byte (utf8_lossy bs).

(** ** Characters

    [s.chars()]: each character as its UTF-8 bytes, a continuation byte belonging
    to the character before it. *)
Definition is_continuation (a : ascii) : bool :=
  let n := nat_of_ascii a in (128 <=? n)%nat && (n <? 192)%nat.

(** The leading continuation bytes, and the characters after them. *)
Fixpoint chars_aux (s : string) : string * list string :=
  match s with
  | EmptyString => ("", [])
  | String a s' =>
      let '(p, cs) := chars_aux s' in
      if is_continuation a then (String a p, cs) else ("", String a p :: cs)
  end.
Definition chars (s : string) : list string :=
  let '(p, cs) := chars_aux s in if is_empty p then cs else p :: cs.

(** [collect::<String>()] of characters. *)
Definition concat_chars (cs : list string) : string := foldr String.append "" cs.

(** [char::is_whitespace] and [char::is_control] (the general category Cc:
    U+0000..U+001F and U+007F..U+009F). *)
Definition char_is_whitespace (c : string) : bool := existsb (String.eqb c) white_space.
Definition char_is_control (c : string) : bool :=
  match c with
  | String a EmptyString => (nat_of_ascii a <? 32)%nat || (nat_of_ascii a =? 127)%nat
  | String a (String b EmptyString) =>
      (nat_of_ascii a =? 194)%nat && (128 <=? nat_of_ascii b)%nat && (nat_of_ascii b <? 160)%nat
  | _ => false
  end.

Definition is_ascii_char (a : ascii) : bool := (nat_of_ascii a <? 128)%nat.
Fixpoint is_ascii (s : string) : bool :=
  match s with EmptyString => true | String a s' => is_ascii_char a && is_ascii s' end.

(** [char::to_lowercase] and [str::to_lowercase] follow the Unicode tables; on
    ASCII text they are the ASCII functions. *)
Class UnicodeCase := {
  char_to_lowercase : string -> string;
  str_to_lowercase : string -> string;
  char_lower_ascii : forall a,
    is_ascii_char a = true -> char_to_lowercase (String a "") = String (ascii_lower a) "";
  str_lower_ascii : forall s, is_ascii s = true -> str_to_lowercase s = to_ascii_lowercase s
}.

(** The tables restricted to ASCII satisfy the laws. *)
Definition ascii_case : UnicodeCase := {|
  char_to_lowercase := to_ascii_lowercase;
  str_to_lowercase := to_ascii_lowercase;
  char_lower_ascii := fun _ _ => eq_refl;
  str_lower_ascii := fun _ _ => eq_refl
|}.

(** ** Facts *)

Example trim_example : trim (str_of_codes [32; 9; 104; 32; 105; 194; 160; 10]%nat) = "h i".
Proof. reflexivity. Qed.

Example replace_example : replace "{a}" "X" "{a}/b{a}{a}" = "X/bXX".
Proof. reflexivity. Qed.

Example utf8_example :
  (** U+00E9, the surrogate U+D800 and an overlong slash *)
  map utf8_valid (map as_bytes (map str_of_codes [[195; 169]; [237; 160; 128]; [192; 175]]%nat))
  = [true; false; false].
Proof. reflexivity. Qed.

(** E2 82 is a cut euro sign, C3 28 a bad continuation, FF no start. *)
Example lossy_example :
  map (fun l => from_utf8_lossy (as_bytes (str_of_codes l))) [[97; 226; 130]; [195; 40]; [255; 226; 130; 172]; [240; 159; 65]]%nat
  = map str_of_codes [[97; 239; 191; 189]; [239; 191; 189; 40]; [239; 191; 189; 226; 130; 172]; [239; 191; 189; 65]]%nat.
Proof. reflexivity. Qed.

Lemma utf8_lossy_valid_aux n bs : (length bs <= n)%nat -> utf8_valid bs = true -> utf8_lossy bs = bs.
Proof.
  revert bs. induction n as [|n IH]; intros [|b0 l0] Hn Hv; try done; [simpl in Hn; lia|].
  cbn [utf8_valid utf8_lossy] in *. cbn [length] in Hn. destruct (byte_in 0 127 b0); [rewrite IH; [done|lia|done]|].
  destruct l0 as [|b1 l1]; [done|]. cbn [length] in Hn. destruct (byte_in 194 223 b0).
  { apply andb_true_iff in Hv as [-> Hv]. rewrite IH; [done|lia|done]. }
  destruct l1 as [|b2 l2]; [done|]. cbn [length] in Hn. destruct (byte_in 224 239 b0).
  { apply andb_true_iff in Hv as [[H1 H2]%andb_true_iff Hv]. rewrite H1, H2. simpl. rewrite IH; [done|lia|done]. }
  destruct l2 as [|b3 l3]; [done|]. cbn [length] in Hn.
  apply andb_true_iff in Hv as [[[[H0 H1]%andb_true_iff H2]%andb_true_iff H3]%andb_true_iff Hv].
  rewrite H0, H1, H2, H3. simpl. rewrite IH; [done|lia|done].
Qed.

Lemma from_utf8_lossy_valid bs s : from_utf8 bs = Some s -> from_utf8_lossy bs = s.
Proof.
  unfold from_utf8, from_utf8_lossy. destruct (utf8_valid bs) eqn:E; [|done]. intros [= <-].
  by rewrite (utf8_lossy_valid_aux (length bs)).
Qed.

Lemma from_utf8_Some bs s : from_utf8 bs = Some s <-> bs = as_bytes s /\ utf8_valid (as_bytes s) = true.
Proof.
  unfold from_utf8, as_bytes. split.
  - destruct (utf8_valid bs) eqn:E; [|done]. intros; simplify_eq.
    by rewrite String.list_byte_of_string_of_list_byte.
  - intros [-> ->]. by rewrite String.string_of_list_byte_of_string.
Qed.

Lemma chars_ascii s : is_ascii s = true -> chars s = map (fun a => String a "") (String.list_ascii_of_string s).
Proof.
  intros Hs. unfold chars.
  assert (E : chars_aux s = ("", map (fun a => String a "") (String.list_ascii_of_string s))); [|by rewrite E].
  induction s as [|a s IH]; [done|]. simpl in Hs. apply andb_true_iff in Hs as [Ha Hs].
  cbn [chars_aux String.list_ascii_of_string map]. rewrite IH by done.
  unfold is_ascii_char in Ha. apply Nat.ltb_lt in Ha. unfold is_continuation.
  destruct (Nat.leb_spec 128 (nat_of_ascii a)); [lia|]. done.
Qed.

Lemma concat_chars_id s : concat_chars (chars s) = s.
Proof.
  unfold chars. assert (E : (chars_aux s).1 +:+ concat_chars (chars_aux s).2 = s).
  { induction s as [|a s IH]; [done|]. cbn [chars_aux]. destruct (chars_aux s) as [p cs]. simpl in IH.
    destruct (is_continuation a); simpl; by rewrite IH. }
  destruct (chars_aux s) as [p cs]. simpl in E. destruct p; simpl in *; done.
Qed.

Example chars_example :
  chars (str_of_codes [97; 227; 129; 130; 194; 133]%nat)
  = [str_of_codes [97]; str_of_codes [227; 129; 130]; str_of_codes [194; 133]]%nat
  /\ char_is_control (str_of_codes [194; 133]%nat) = true.
Proof. split; reflexivity. Qed.

Lemma prefix_strip p s :
  starts_with p s = match strip_prefix p s with Some _ => true | None => false end.
Proof.
  unfold starts_with. revert s. induction p as [|a p IH]; intros [|b s]; simpl; try done.
  destruct (ascii_dec a b) as [->|Hne].
  - by rewrite Ascii.eqb_refl, IH.
  - apply Ascii.eqb_neq in Hne. by rewrite Hne.
Qed.

Lemma strip_prefix_Some p s t : strip_prefix p s = Some t <-> s = p +:+ t.
Proof.
  revert s. induction p as [|a p IH]; intros s; simpl.
  - split; [by intros; simplify_eq | by intros ->].
  - destruct s as [|b s]; [by split|].
    destruct (Ascii.eqb_spec a b) as [->|Hne].
    + rewrite IH. split; [by intros -> | intros E; by injection E].
    + split; [done | intros E; by injection E].
Qed.

Lemma starts_with_spec p s : starts_with p s = true <-> exists t, s = p +:+ t.
Proof.
  rewrite prefix_strip. destruct (strip_prefix p s) as [t|] eqn:E.
  - apply strip_prefix_Some in E. split; [intros _; by exists t | done].
  - split; [done | intros [t Ht]]. apply strip_prefix_Some in Ht. congruence.
Qed.

Lemma string_app_nil_r s : s +:+ "" = s.
Proof. induction s as [|a s IH]; simpl; [done | by f_equal]. Qed.

Lemma string_app_assoc s t u : (s +:+ t) +:+ u = s +:+ (t +:+ u).
Proof. induction s as [|a s IH]; simpl; [done | by f_equal]. Qed.

Lemma string_app_inj_l p s t : p +:+ s = p +:+ t -> s = t.
Proof. induction p as [|a p IH]; simpl; [done | intros E; injection E; auto]. Qed.

Lemma length_string_app s t : String.length (s +:+ t) = (String.length s + String.length t)%nat.
Proof. induction s as [|a s IH]; simpl; [done | by f_equal]. Qed.

Lemma contains_spec p s : contains p s = true <-> exists u v, s = u +:+ p +:+ v.
Proof.
  induction s as [|a s IH].
  - cbn [contains]. rewrite orb_false_r, starts_with_spec. split.
    + intros [t Ht]. by exists "", t.
    + intros (u & v & H). destruct u; [by exists v | done].
  - cbn [contains]. rewrite orb_true_iff, starts_with_spec, IH. split.
    + intros [[t Ht]|(u & v & ->)]; [by exists "", t | by exists (String a u), v].
    + intros (u & v & H). destruct u as [|b u]; [left; by exists v |].
      right. simplify_eq/=. by exists u, v.
Qed.

(** A pattern that does not occur is not replaced. *)
Lemma replace_absent p t s : contains p s = false -> replace p t s = s.
Proof.
  unfold replace. induction s as [|a s IH]; [done|].
  cbn [contains]. intros [H1 H2]%orb_false_iff. cbn [replace_aux]. rewrite H1. by rewrite IH.
Qed.

Lemma starts_with_app p s : starts_with p (p +:+ s) = true.
Proof. apply starts_with_spec. by exists s. Qed.

Lemma replace_aux_skip p t n u s :
  String.length u = n -> replace_aux p t n (u +:+ s) = replace_aux p t 0 s.
Proof.
  revert n. induction u as [|a u IH]; intros [|n] E; simpl in *; try done. apply IH. congruence.
Qed.

(** The leftmost occurrence is replaced by [t] and the search goes on after it. *)
Lemma replace_head p t s :
  p <> "" -> replace p t (p +:+ s) = t +:+ replace p t s.
Proof.
  intros Hp. destruct p as [|a p]; [done|]. unfold replace. cbn [String.app].
  change (String.app (String a p) s) with (String a (p +:+ s)).
  cbn [replace_aux]. rewrite (starts_with_app (String a p) s : starts_with _ (String a (p +:+ s)) = true).
  cbn [String.length]. rewrite Nat.sub_succ, Nat.sub_0_r. by rewrite replace_aux_skip.
Qed.

Lemma to_ascii_lowercase_app s t :
  to_ascii_lowercase (s +:+ t) = to_ascii_lowercase s +:+ to_ascii_lowercase t.
Proof. induction s as [|a s IH]; simpl; [done | by f_equal]. Qed.

Lemma ascii_lower_idem a : ascii_lower (ascii_lower a) = ascii_lower a.
Proof. destruct a as [[] [] [] [] [] [] [] []]; reflexivity. Qed.

Lemma to_ascii_lowercase_idem s :
  to_ascii_lowercase (to_ascii_lowercase s) = to_ascii_lowercase s.
Proof. induction s as [|a s IH]; simpl; [done|]. by rewrite ascii_lower_idem, IH. Qed.

(** The pieces of a split contain no separator, and joining them gives the string back. *)
Fixpoint join_with (c : ascii) (l : list string) : string :=
  match l with
  | [] => ""
  | [w] => w
  | w :: l' => w +:+ String c (join_with c l')
  end.

Fixpoint has_char (c : ascii) (s : string) : bool :=
  match s with
  | EmptyString => false
  | String a s' => Ascii.eqb a c || has_char c s'
  end.

Lemma split_on_not_nil c s : split_on c s <> [].
Proof. destruct s as [|a s]; simpl; [done|]. destruct (Ascii.eqb a c); [done|]. by destruct (split_on c s). Qed.

Lemma join_split c s : join_with c (split_on c s) = s.
Proof.
  induction s as [|a s IH]; [done|]. cbn [split_on].
  pose proof (split_on_not_nil c s) as Hne.
  destruct (Ascii.eqb_spec a c) as [->|_].
  - destruct (split_on c s) eqn:E; [done|]. cbn [join_with]. by rewrite <- IH.
  - destruct (split_on c s) as [|w ws] eqn:E; [done|].
    destruct ws; cbn [join_with] in *; simpl; by rewrite <- IH.
Qed.

(** [CString::new]: a text with a zero byte has no C string; the error names the first. *)
Fixpoint nul_position (s : string) : option Z :=
  match s with
  | EmptyString => None
  | String a s' => if Ascii.eqb a "000" then Some 0%Z else (fun n => (n + 1)%Z) <$> nul_position s'
  end.
Definition nul_error (what : string) (position : Z) : string := what +:+ ": nul byte found in provided data at position: " +:+ pretty position.

Lemma split_on_no_sep c s : Forall (fun w => has_char c w = false) (split_on c s).
Proof.
  induction s as [|a s IH]; simpl; [by constructor|].
  destruct (Ascii.eqb_spec a c) as [->|Hne]; [by constructor|].
  destruct (split_on c s) as [|w ws]; inversion IH; subst; constructor; simpl; try done;
    apply Ascii.eqb_neq in Hne; by rewrite Hne.
Qed.

Lemma split_on_piece c w : has_char c w = false -> split_on c w = [w].
Proof.
  induction w as [|a w IH]; simpl; [done|]. intros [H1 H2]%orb_false_iff.
  rewrite H1. by rewrite IH.
Qed.

Lemma split_on_app c w s :
  has_char c w = false -> split_on c (w +:+ String c s) = w :: split_on c s.
Proof.
  induction w as [|a w IH]; simpl.
  - intros _. by rewrite Ascii.eqb_refl.
  - intros [H1 H2]%orb_false_iff. rewrite H1. rewrite IH by done. done.
Qed.

Lemma split_join c l :
  l <> [] -> Forall (fun w => has_char c w = false) l -> split_on c (join_with c l) = l.
Proof.
  intros Hne Hl. induction Hl as [|w l Hw Hl IH]; [done|].
  destruct l as [|w' l]; cbn [join_with]; [by apply split_on_piece|].
  rewrite split_on_app by done. f_equal. by apply IH.
Qed.

Lemma trim_start_matches_spec c s :
  forall s', trim_start_matches c s <> String c s'.
Proof.
  induction s as [|a s IH]; intros s'; simpl; [done|].
  destruct (Ascii.eqb_spec a c) as [->|Hne]; [done|]. intros ?; by simplify_eq.
Qed.

Lemma has_char_app c s t : has_char c (s +:+ t) = has_char c s || has_char c t.
Proof. induction s as [|a s IH]; simpl; [done|]. by rewrite IH, orb_assoc. Qed.

Lemma has_char_join c d l : Ascii.eqb d c = false -> has_char c (join_with d l) = existsb (has_char c) l.
Proof.
  intros Hd. induction l as [|w l IH]; [done|]. destruct l as [|w' l].
  - simpl. by rewrite orb_false_r.
  - change (join_with d (w :: w' :: l)) with (w +:+ String d (join_with d (w' :: l))).
    rewrite has_char_app. cbn [has_char existsb] in *. by rewrite Hd, IH.
Qed.

Lemma replace_char_absent c d s : has_char c s = false -> replace_char c d s = s.
Proof.
  induction s as [|a s IH]; simpl; [done|]. intros [H1 H2]%orb_false_iff. by rewrite H1, IH.
Qed.

#[export] Hint Rewrite string_app_nil_r string_app_assoc length_string_app
  to_ascii_lowercase_idem : rust.

(** ** [split_once] *)

Lemma strip_prefix_app p s : strip_prefix p (p +:+ s) = Some s.
Proof. by apply strip_prefix_Some. Qed.

Lemma split_once_Some sep s l r : split_once sep s = Some (l, r) -> s = l +:+ sep +:+ r.
Proof.
  revert l. induction s as [|a s IH]; intros l; cbn [split_once].
  - destruct (strip_prefix sep "") as [r'|] eqn:E; [|done]. intros [= <- <-]. by apply strip_prefix_Some in E.
  - destruct (strip_prefix sep (String a s)) as [r'|] eqn:E.
    + intros [= <- <-]. by apply strip_prefix_Some in E.
    + destruct (split_once sep s) as [[l' r']|] eqn:Es; [|done]. intros [= <- <-].
      change (String a l' +:+ sep +:+ r') with (String a (l' +:+ sep +:+ r')). f_equal. by apply IH.
Qed.

Lemma split_once_None sep s : split_once sep s = None <-> contains sep s = false.
Proof.
  induction s as [|a s IH]; cbn [split_once contains]; rewrite prefix_strip.
  - by destruct (strip_prefix sep "").
  - destruct (strip_prefix sep (String a s)); [done|]. simpl orb. rewrite <- IH.
    by destruct (split_once sep s) as [[? ?]|].
Qed.

(** A prefix of [l +:+ String a t] that does not contain [a] lies in [l]. *)
Lemma prefix_before p l a t r :
  strip_prefix p (l +:+ String a t) = Some r -> has_char a p = false -> starts_with p l = true.
Proof.
  revert l. induction p as [|b p IH]; intros l E Ha; [by destruct l|].
  cbn [has_char] in Ha. apply orb_false_iff in Ha as [Hb Ha]. destruct l as [|c l].
  - simpl in E. by rewrite Hb in E.
  - simpl in E. destruct (Ascii.eqb b c) eqn:Ebc; [|done]. apply Ascii.eqb_eq in Ebc as ->.
    unfold starts_with. simpl. destruct (ascii_dec c c); [|done]. by apply (IH l).
Qed.

(** A separator whose first character does not occur in it again is found where it
    was put, behind text without it. *)
Lemma split_once_app a sep l r :
  has_char a sep = false -> contains (String a sep) l = false ->
  split_once (String a sep) (l +:+ String a sep +:+ r) = Some (l, r).
Proof.
  intros Ha. induction l as [|b l IH]; intros Hl.
  - change ("" +:+ String a sep +:+ r) with (String a (sep +:+ r)). cbn [split_once].
    change (String a (sep +:+ r)) with (String a sep +:+ r). by rewrite strip_prefix_app.
  - cbn [contains] in Hl. apply orb_false_iff in Hl as [Hp Hl].
    change (String b l +:+ String a sep +:+ r) with (String b (l +:+ String a sep +:+ r)).
    cbn [split_once]. destruct (strip_prefix (String a sep) _) as [x|] eqn:E; [|by rewrite IH].
    exfalso. simpl in E. destruct (Ascii.eqb a b) eqn:Eab; [|done]. apply Ascii.eqb_eq in Eab as ->.
    change (String b sep +:+ r) with (String b (sep +:+ r)) in E. apply prefix_before in E; [|done].
    unfold starts_with in Hp, E. simpl in Hp. destruct (ascii_dec b b); congruence.
Qed.

(** Before the separator found there is none. *)
Lemma split_once_first sep s l r : split_once sep s = Some (l, r) -> sep <> "" -> contains sep l = false.
Proof.
  intros E Hne. revert l E. induction s as [|a s IH]; intros l; cbn [split_once].
  - destruct sep; [done|]. done.
  - destruct (strip_prefix sep (String a s)) as [r'|] eqn:E.
    + intros [= <- <-]. by destruct sep.
    + destruct (split_once sep s) as [[l' r']|] eqn:Es; [|done]. intros [= <- <-]. cbn [contains].
      rewrite (IH l' eq_refl), orb_false_r. apply not_true_iff_false. intros [t Ht]%starts_with_spec.
      apply split_once_Some in Es as ->.
      assert (Hs : strip_prefix sep (String a (l' +:+ sep +:+ r')) = Some (t +:+ sep +:+ r')).
      { apply strip_prefix_Some. change (String a (l' +:+ sep +:+ r')) with (String a l' +:+ sep +:+ r').
        by rewrite Ht, string_app_assoc. }
      congruence.
Qed.

Lemma split_once_length sep s l r : split_once sep s = Some (l, r) -> sep <> "" -> (String.length r < String.length s)%nat.
Proof.
  intros ->%split_once_Some Hs. rewrite !length_string_app. destruct sep; [done|]. simpl. lia.
Qed.

Lemma digits_nonneg l n :
  (0 <= n)%Z -> forallb is_ascii_digit l = true ->
  (0 <= foldl (fun n a => n * 10 + (Z.of_nat (nat_of_ascii a) - 48)) n l)%Z.
Proof.
  revert n. induction l as [|a l IH]; intros n Hn Hd; [done|]. simpl in Hd |- *. apply andb_true_iff in Hd as [Ha Hd].
  unfold is_ascii_digit in Ha. apply andb_true_iff in Ha as [Ha _]. apply Nat.leb_le in Ha. apply IH; [lia | done].
Qed.

Lemma parse_unsigned_range w s v : parse_unsigned w s = Some v -> (0 <= v <= u_max w)%Z.
Proof.
  unfold parse_unsigned. destruct (is_empty _ || negb _) eqn:E; [done|].
  apply orb_false_iff in E as [_ E%negb_false_iff].
  destruct (Z.leb_spec (foldl (fun n a => n * 10 + (Z.of_nat (nat_of_ascii a) - 48))%Z 0%Z
    (String.list_ascii_of_string (default s (strip_prefix "+" s)))) (u_max w)); [|done].
  intros [= <-]. split; [|done]. by apply digits_nonneg.
Qed.

Lemma rev_string_app_aux s acc : rev_string_aux s acc = rev_string s +:+ acc.
Proof.
  unfold rev_string. revert acc. induction s as [|a s IH]; intros acc; simpl; [done|].
  rewrite (IH (String a acc)), (IH (String a "")). by rewrite string_app_assoc.
Qed.

Lemma rev_string_cons a s : rev_string (String a s) = rev_string s +:+ String a "".
Proof. unfold rev_string at 1. simpl. apply rev_string_app_aux. Qed.

Lemma rev_string_app s t : rev_string (s +:+ t) = rev_string t +:+ rev_string s.
Proof.
  induction s as [|a s IH]; [by rewrite string_app_nil_r|].
  change (String a s +:+ t) with (String a (s +:+ t)).
  rewrite !rev_string_cons, IH. apply string_app_assoc.
Qed.

Lemma rev_string_involutive s : rev_string (rev_string s) = s.
Proof. induction s as [|a s IH]; [done|]. by rewrite rev_string_cons, rev_string_app, IH. Qed.

Lemma strip_suffix_Some p s r : strip_suffix p s = Some r <-> s = r +:+ p.
Proof.
  unfold strip_suffix. destruct (strip_prefix _ _) as [x|] eqn:E.
  - apply strip_prefix_Some in E. apply (f_equal rev_string) in E.
    rewrite rev_string_app, !rev_string_involutive in E. split.
    + intros; by simplify_eq.
    + intros ->. f_equal. apply (f_equal rev_string) in E. rewrite !rev_string_app in E.
      apply string_app_inj_l in E. apply (f_equal rev_string) in E. by rewrite !rev_string_involutive in E.
  - split; [done|]. intros ->. rewrite rev_string_app in E.
    rewrite (proj2 (strip_prefix_Some _ _ _) eq_refl) in E. done.
Qed.
