(* ===== verification/Errors.v ===== *)
(** * Error types

    The error enums of [src/core/errors.rs] and [src/core/hip/errors.rs], with
    the source's constructors and fields.  The payload a third-party library
    attaches to an error (a [regex::Error], an [opendal::Error], ...) is its
    message; a [PathBuf] is its string. *)

From S2P Require Import Prelude.

Local Open Scope string_scope.

(** [std::io::ErrorKind], the kinds the sources distinguish. *)
Inductive io_error : Type :=
| NotFound
| PermissionDenied
| Interrupted
| WouldBlock
| UnexpectedEof
| InvalidData (message : string)
| DirectoryNotEmpty
| OtherIo (message : string).

#[export] Instance io_error_eq_dec : EqDecision io_error.
Proof. solve_decision. Defined.

(** [enum HipError] of [hip/errors.rs]. *)
Inductive HipError : Type :=
| HipIo (source : io_error)
| FrameTooLarge (size max : Z)
| Protocol (message : string)
| Encode (message : string)
| Decode (message : string)
| Handshake (message : string)
| Server (code message : string) (fatal : bool)
| SessionClosed (message : string)
| HipTimeout (ms : Z)
| Sha256Mismatch (path : string)
| Tls (message : string)
| HipConfigError (message : string).

#[export] Instance HipError_eq_dec : EqDecision HipError.
Proof. solve_decision. Defined.

(** [enum ConfigError]. *)
Inductive ConfigError : Type :=
| ConfigRead (path : string) (source : io_error)
| ConfigParse (path source : string)
| InvalidConfigUri (uri reason : string)
| InvalidConfigBootstrap (name reason : string)
| ConfigStorageProvider (provider source : string)
| ConfigStorageRead (uri source : string)
| ConfigInvalidUtf8 (path : string)
| UnsupportedVersion (version : Z)
| MissingConfigFile (tried : string)
| InvalidRegionName (name : string)
| MissingEnvironmentVariable (field name : string)
| InvalidValue (field value expected : string).

(** [enum RegionError]. *)
Inductive RegionError : Type :=
| RegionNotFound (name : string)
| RegionDisabled (name : string).

(** [enum DownloadRecordError]. *)
Inductive DownloadRecordError : Type :=
| RecordRead (path : string) (source : io_error)
| RecordParse (path source : string)
| RecordCreateParent (path : string) (source : io_error)
| RecordWrite (path : string) (source : io_error)
| RecordSerialize (path source : string)
| RecordStorageRead (provider path source : string)
| RecordStorageWrite (provider path source : string).

(** [enum StorageError]. *)
Inductive StorageError : Type :=
| MissingEndpoint (provider : string)
| MissingBucket (provider : string)
| InvalidProviderConfig (provider message : string)
| InvalidPublicReadRule (pattern source : string)
| InvalidRelativePath (path : string)
| StorageIo (path : string) (source : io_error)
| StorageUpload (provider path source : string)
| StorageProvider (provider source : string)
| StorageJoin (message : string).

(** [enum PlanningError]. *)
Inductive PlanningError : Type :=
| PlanRegion (e : RegionError)
| PlanStorage (e : StorageError)
| MissingDownloadRecordPath (region : string).

(** [enum GitSyncError]. *)
Inductive GitSyncError : Type :=
| GitDisabled
| MissingRepositoryDir
| GitCommand (action message : string)
| GitIo (path : string) (source : io_error)
| GitSerialize (path source : string)
| MissingWorkdir
| MissingBranch
| MissingOrigin.

(** [enum CodecError]. *)
Inductive CodecError : Type :=
| NonUtf8Path (path : string)
| CodecIo (path : string) (source : io_error)
| Acb (message : string)
| Usm (message : string)
| Metadata (message : string)
| Hca (message : string).

(** [enum ExportPipelineError]. *)
Inductive ExportPipelineError : Type :=
| ExportCodec (e : CodecError)
| ExportStorage (e : StorageError)
| ExportIo (path : string) (source : io_error)
| ExportImage (path source : string)
| ExportSpawn (program : string) (source : io_error)
| ExportCommandFailed (program status stderr : string)
| ExportMedia (message : string)
| ExportAssetStudioFfi (message : string)
| ExportFfiSerialize (source : string)
| ExportFfiParse (source : string)
| ExportWorkerSpawn (worker : string) (source : io_error)
| ExportWorkerPanic (worker message : string).

(** [enum AssetExecutionError]. *)
Inductive AssetExecutionError : Type :=
| AxRegion (e : RegionError)
| AxDownloadRecord (e : DownloadRecordError)
| AxExportPipeline (e : ExportPipelineError)
| AxGitSync (e : GitSyncError)
| AxHttp (message : string)
| AxHttpClient (message : string)
| AxBlockingTask (message : string)
| AxHttpStatus (url : string) (status : Z)
| MissingAssetSaveDir (region : string)
| MissingAssetVersionOrHash (region : string)
| MissingProfileHash (region profile : string)
| MissingCryptoConfig (region : string)
| InvalidAesKeyHex (message : string)
| InvalidAesIvHex (message : string)
| InvalidAesIvLength (got : Z)
| EmptyEncryptedContent
| InvalidEncryptedBlockSize
| AssetInfoDecode (message : string)
| CreateTempDir (path : string) (source : io_error)
| WriteTempFile (path : string) (source : io_error)
| InvalidRawBundlePath (bundle reason : string)
| CreateRawBundleDir (path : string) (source : io_error)
| WriteRawBundle (path : string) (source : io_error)
| CreateHaruki3dStagingDir (path : string) (source : io_error)
| WriteHaruki3dStagingBundle (path : string) (source : io_error)
| RemoveHaruki3dStagingDir (path : string) (source : io_error)
| Haruki3dExporterSpawn (program : string) (source : io_error)
| Haruki3dExporterFailed (program status stderr : string)
| ReadTempFile (path : string) (source : io_error)
| Cancelled.

(** [enum PollError] of [src/service/poller.rs]. *)
Inductive PollError : Type :=
| PollConfig (message : string)
| PollExecution (message : string)
| PollHip (message : string).

#[export] Instance PollError_eq_dec : EqDecision PollError.
Proof. solve_decision. Defined.
