(* ===== verification/Frame.v ===== *)
(** * Wire frames

    [src/core/hip/frame.rs]: HIP/1 frames, [u32 be length][u8 type][payload]
    with [length] counting the type byte and the payload.
    [crates/assetstudio-ffi/src/frame.rs]: the worker protocol's frames,
    [u64 le length][payload].

    A reader is the byte stream still to come; a writer appends bytes. *)

From S2P Require Import Prelude Errors.

Local Open Scope string_scope.
Local Open Scope list_scope.
Local Open Scope Z_scope.
Local Open Scope rust_scope.

Module Hip.

(** [MAX_DEFAULT_FRAME_BYTES]. *)
Definition MAX_DEFAULT_FRAME_BYTES : Z := 16 * 1024 * 1024.

(** [enum FrameType]. *)
Inductive FrameType : Type :=
| Hello | HelloAck | CheckBatch | CheckAck | UploadBegin | UploadChunk
| UploadEnd | UploadAck | Commit | CommitAck | Bye | Window | Ping | Pong | ErrorFrame.

#[export] Instance FrameType_eq_dec : EqDecision FrameType.
Proof. solve_decision. Defined.

(** The discriminants, [frame_type as u8]. *)
Definition to_u8 (t : FrameType) : Z :=
  match t with
  | Hello => 0x01 | HelloAck => 0x02 | CheckBatch => 0x03 | CheckAck => 0x04
  | UploadBegin => 0x05 | UploadChunk => 0x06 | UploadEnd => 0x07 | UploadAck => 0x08
  | Commit => 0x09 | CommitAck => 0x0A | Bye => 0x0B | Window => 0x0C
  | Ping => 0x0E | Pong => 0x0F | ErrorFrame => 0x1F
  end.

(** [FrameType::from_u8]. *)
Definition from_u8 (value : Z) : result FrameType HipError :=
  if value =? 0x01 then Ok Hello else
  if value =? 0x02 then Ok HelloAck else
  if value =? 0x03 then Ok CheckBatch else
  if value =? 0x04 then Ok CheckAck else
  if value =? 0x05 then Ok UploadBegin else
  if value =? 0x06 then Ok UploadChunk else
  if value =? 0x07 then Ok UploadEnd else
  if value =? 0x08 then Ok UploadAck else
  if value =? 0x09 then Ok Commit else
  if value =? 0x0A then Ok CommitAck else
  if value =? 0x0B then Ok Bye else
  if value =? 0x0C then Ok Window else
  if value =? 0x0E then Ok Ping else
  if value =? 0x0F then Ok Pong else
  if value =? 0x1F then Ok ErrorFrame else
  Err (Protocol "unknown frame type byte").

(** [struct Frame]. *)
Record Frame : Type := mkFrame { frame_type : FrameType; payload : bytes }.

#[export] Instance Frame_eq_dec : EqDecision Frame.
Proof. solve_decision. Defined.

(** [Frame::encode]. *)
Definition encode (f : Frame) (max_frame_bytes : Z) : result bytes HipError :=
  let total_len := Z.of_nat (length (payload f)) + 1 in
  if total_len >? max_frame_bytes then Err (FrameTooLarge total_len max_frame_bytes)
  else Ok (to_be_bytes 4 (truncate 32 total_len)
           ++ byte_of_Z (to_u8 (frame_type f)) :: payload f).

(** [read_frame]: the result and what is left of the stream.  A short read
    leaves nothing to read. *)
Definition read_frame (reader : bytes) (max_frame_bytes : Z) : result Frame HipError * bytes :=
  match read_exact 4 reader with
  | None => (Err (HipIo UnexpectedEof), [])
  | Some (len_buf, reader1) =>
      let declared := from_be_bytes len_buf in
      if declared =? 0 then (Err (Protocol "frame length is zero"), reader1) else
      if declared >? max_frame_bytes then (Err (FrameTooLarge declared max_frame_bytes), reader1) else
      match read_exact 1 reader1 with
      | None => (Err (HipIo UnexpectedEof), [])
      | Some (type_buf, reader2) =>
          match from_u8 (byte_to_Z (hd Byte.x00 type_buf)) with
          | Err e => (Err e, reader2)
          | Ok frame_type =>
              let payload_len := Z.to_nat (declared - 1) in
              if (0 <? payload_len)%nat then
                match read_exact payload_len reader2 with
                | None => (Err (HipIo UnexpectedEof), [])
                | Some (payload, reader3) => (Ok (mkFrame frame_type payload), reader3)
                end
              else (Ok (mkFrame frame_type []), reader2)
          end
      end
  end.

(** [write_frame]: the bytes already written, then the encoded frame. *)
Definition write_frame (writer : bytes) (f : Frame) (max_frame_bytes : Z) : result bytes HipError :=
  let? encoded := encode f max_frame_bytes in Ok (writer ++ encoded).

(** Writing a list of frames one after the other, and reading until the stream
    is used up; [n] bounds the number of frames read. *)
Fixpoint write_frames (writer : bytes) (fs : list Frame) (max : Z) : result bytes HipError :=
  match fs with
  | [] => Ok writer
  | f :: fs' => let? w := write_frame writer f max in write_frames w fs' max
  end.

Fixpoint read_frames (n : nat) (reader : bytes) (max : Z) : list Frame * bytes :=
  match n with
  | O => ([], reader)
  | S n' =>
      match read_frame reader max with
      | (Ok f, rest) => let '(fs, rest') := read_frames n' rest max in (f :: fs, rest')
      | (Err _, rest) => ([], rest)
      end
  end.

(** ** Properties *)

Lemma to_u8_range t : 0 <= to_u8 t < 256.
Proof. destruct t; simpl; lia. Qed.

Lemma from_to_u8 t : from_u8 (to_u8 t) = Ok t.
Proof. by destruct t. Qed.

Lemma from_u8_Ok n t : from_u8 n = Ok t -> n = to_u8 t.
Proof. unfold from_u8. intros H. repeat case_match; simplify_eq; zbool; done. Qed.

(** An encoded frame is its four length bytes, its type byte and its payload. *)
Lemma encode_Ok f max bs :
  encode f max = Ok bs <->
  Z.of_nat (length (payload f)) + 1 <= max /\
  bs = to_be_bytes 4 (truncate 32 (Z.of_nat (length (payload f)) + 1))
       ++ byte_of_Z (to_u8 (frame_type f)) :: payload f.
Proof.
  unfold encode. rewrite Z.gtb_ltb. destruct (Z.ltb_spec max (Z.of_nat (length (payload f)) + 1)).
  - split; [done | lia].
  - split; [intros [= <-]; split; [lia | done] | intros [_ ->]; done].
Qed.

(** A four-byte length followed by a type byte and a payload of that length
    is read back as a frame: the common part of all round trips. *)
Lemma read_frame_parts n t p rest max :
  n = Z.of_nat (length p) + 1 -> n <= max -> n <= u32_max ->
  read_frame (to_be_bytes 4 n ++ byte_of_Z (to_u8 t) :: p ++ rest) max = (Ok (mkFrame t p), rest).
Proof.
  intros Hn Hmax H32. unfold read_frame.
  rewrite read_exact_app' by apply length_to_be_bytes.
  rewrite from_to_be_bytes, Z.mod_small by (unfold u32_max, u_max in *; lia).
  destruct (Z.eqb_spec n 0); [lia|]. rewrite Z.gtb_ltb. destruct (Z.ltb_spec max n); [lia|].
  change (byte_of_Z (to_u8 t) :: p ++ rest) with ([byte_of_Z (to_u8 t)] ++ p ++ rest).
  rewrite read_exact_app' by done. cbn [hd].
  pose proof (to_u8_range t). rewrite byte_to_of_Z, Z.mod_small by lia. rewrite from_to_u8.
  replace (Z.to_nat (n - 1)) with (length p) by lia.
  destruct (Nat.ltb_spec 0 (length p)).
  - by rewrite read_exact_app.
  - assert (p = []) as -> by (apply nil_length_inv; lia). done.
Qed.

(** A frame that [encode] accepts is read back, with the rest of the stream
    intact, when the frame limit fits the four length bytes. *)
Lemma read_encode f max bs rest :
  max <= u32_max -> encode f max = Ok bs -> read_frame (bs ++ rest) max = (Ok f, rest).
Proof.
  intros Hmax [Hlen ->]%encode_Ok. rewrite <- app_assoc. cbn [app].
  rewrite truncate_small by (unfold in_width, u32_max, u_max in *; lia).
  destruct f as [t p]; cbn [payload frame_type] in *.
  by apply read_frame_parts; try lia.
Qed.

(** Writing after [writer] is writing to an empty buffer and appending. *)
Lemma write_frames_prefix writer fs max :
  write_frames writer fs max = (let? bs := write_frames [] fs max in Ok (writer ++ bs)).
Proof.
  revert writer. induction fs as [|f fs IH]; intros writer.
  - simpl. by rewrite app_nil_r.
  - simpl. unfold write_frame. destruct (encode f max) as [b|e]; [|done]. simpl.
    rewrite (IH (writer ++ b)), (IH b). destruct (write_frames [] fs max); [|done].
    simpl. by rewrite app_assoc.
Qed.

Lemma read_written fs max out rest :
  max <= u32_max ->
  write_frames [] fs max = Ok out ->
  read_frames (length fs) (out ++ rest) max = (fs, rest).
Proof.
  intros Hmax. revert out. induction fs as [|f fs IH]; intros out; simpl.
  - by intros [= <-].
  - unfold write_frame. destruct (encode f max) as [b|e] eqn:E; [|done]. simpl.
    rewrite write_frames_prefix. destruct (write_frames [] fs max) as [bs|e] eqn:E2; [|done].
    simpl. intros [= <-]. rewrite <- app_assoc.
    rewrite (read_encode _ _ _ _ Hmax E). by rewrite (IH bs eq_refl).
Qed.

(** Frames that fit the limit are all written. *)
Lemma write_frames_fit fs max :
  Forall (fun f => Z.of_nat (length (payload f)) + 1 <= max) fs -> exists out, write_frames [] fs max = Ok out.
Proof.
  induction 1 as [|f fs Hf _ [out IH]]; simpl; [by eexists|].
  unfold write_frame. rewrite (proj2 (encode_Ok f max _) (conj Hf eq_refl)). simpl.
  rewrite write_frames_prefix, IH. by eexists.
Qed.

(** Any sequence of frames written by [write_frame] is read back by as many
    calls of [read_frame], in order, with the rest of the stream untouched,
    whenever the negotiated frame limit fits the four-byte length field; and
    frames within the limit are always written. *)
Theorem write_read_frames fs max rest :
  max <= u32_max ->
  Forall (fun f => Z.of_nat (length (payload f)) + 1 <= max) fs ->
  exists out, write_frames [] fs max = Ok out /\
    read_frames (length fs) (out ++ rest) max = (fs, rest).
Proof.
  intros Hmax [out Hout]%write_frames_fit. exists out. split; [done|]. by apply read_written.
Qed.

Definition sample_frames : list Frame :=
  [mkFrame Hello [Byte.x68; Byte.x69]; mkFrame Ping []; mkFrame UploadChunk [Byte.x00]].

Lemma write_read_frames_witness :
  exists out, write_frames [] sample_frames MAX_DEFAULT_FRAME_BYTES = Ok out /\
  read_frames 3 (out ++ [Byte.xff]) MAX_DEFAULT_FRAME_BYTES = (sample_frames, [Byte.xff]).
Proof.
  apply (write_read_frames sample_frames MAX_DEFAULT_FRAME_BYTES [Byte.xff]).
  - vm_compute. discriminate.
  - repeat constructor; vm_compute; discriminate.
Defined.

(** The decoder accepts nothing but encodings.  When [read_frame] returns a
    frame, the bytes it consumed are exactly what [Frame::encode] writes for it,
    and the payload it allocated is below the limit, whatever the stream held. *)
Theorem read_frame_sound reader max f rest :
  read_frame reader max = (Ok f, rest) ->
  exists bs, encode f max = Ok bs /\ reader = bs ++ rest /\
             Z.of_nat (length (payload f)) < max.
Proof.
  unfold read_frame. destruct (read_exact 4 reader) as [[lb r1]|] eqn:E1; [|done].
  apply read_exact_Some in E1 as [-> Hlb].
  pose proof (from_le_bytes_range (reverse lb)) as Hr. rewrite length_reverse, Hlb in Hr.
  change (from_le_bytes (reverse lb)) with (from_be_bytes lb) in Hr.
  assert (Hback : to_be_bytes 4 (from_be_bytes lb) = lb).
  { unfold to_be_bytes, from_be_bytes. rewrite <- Hlb, <- (length_reverse lb).
    by rewrite to_from_le_bytes, reverse_involutive. }
  rewrite Z.gtb_ltb. set (n := from_be_bytes lb) in *.
  destruct (Z.eqb_spec n 0); [done|]. destruct (Z.ltb_spec max n); [done|].
  destruct (read_exact 1 r1) as [[tb r2]|] eqn:E2; [|done].
  apply read_exact_Some in E2 as [-> Htb].
  destruct tb as [|b [|? ?]]; try done. cbn [hd].
  destruct (from_u8 (byte_to_Z b)) as [t|e] eqn:E3; [|done].
  apply from_u8_Ok in E3. intros Hok.
  assert (exists p, f = mkFrame t p /\ r2 = p ++ rest /\ Z.of_nat (length p) = n - 1)
    as (p & -> & -> & Hp).
  { destruct (Nat.ltb_spec 0 (Z.to_nat (n - 1))).
    - destruct (read_exact _ r2) as [[p r3]|] eqn:E4; [|done].
      apply read_exact_Some in E4 as [-> Hp]. simplify_eq. exists p. repeat split; lia.
    - simplify_eq. exists []. simpl. repeat split; lia. }
  exists (lb ++ b :: p). rewrite encode_Ok. cbn [payload frame_type].
  replace (Z.of_nat (length p) + 1) with n by lia.
  rewrite truncate_small by (unfold in_width; lia). rewrite Hback, <- E3, byte_of_to_Z.
  rewrite <- app_assoc. repeat split; lia.
Qed.

Lemma read_frame_sound_witness :
  exists bs, encode (mkFrame Ping [Byte.x07]) 16 = Ok bs /\
    [Byte.x00; Byte.x00; Byte.x00; Byte.x02; Byte.x0e; Byte.x07; Byte.x01] = bs ++ [Byte.x01] /\
    Z.of_nat 1 < 16.
Proof.
  apply (read_frame_sound
    [Byte.x00; Byte.x00; Byte.x00; Byte.x02; Byte.x0e; Byte.x07; Byte.x01] 16
    (mkFrame Ping [Byte.x07]) [Byte.x01]).
  reflexivity.
Defined.

(** [Frame::encode] truncates the length to 32 bits.  With a frame limit
    above [u32::MAX], which the configuration does not rule out, there is a frame
    it accepts whose encoding starts with a zero length and that [read_frame]
    rejects. *)
Theorem encode_truncates_length :
  exists f bs, encode f (2 ^ 33) = Ok bs /\
    fst (read_frame bs (2 ^ 33)) = Err (Protocol "frame length is zero").
Proof.
  set (p := replicate (Z.to_nat (2 ^ 32 - 1)) Byte.x00).
  assert (Hp : Z.of_nat (length p) = 2 ^ 32 - 1)
    by (unfold p; rewrite length_replicate, Z2Nat.id; lia).
  clearbody p. exists (mkFrame Bye p). eexists. rewrite encode_Ok. cbn [payload].
  split; [split; [lia | reflexivity]|].
  rewrite Hp. unfold read_frame. rewrite read_exact_app' by apply length_to_be_bytes.
  by rewrite from_to_be_bytes.
Qed.

End Hip.

(** ** Worker frames *)
Module Worker.

(** [MAX_FRAME_SIZE] of [read_worker_frame]. *)
Definition MAX_FRAME_SIZE : Z := 512 * 1024 * 1024.

(** [write_worker_frame]: the bytes written after [writer]. *)
Definition write_worker_frame (writer payload : bytes) : bytes :=
  writer ++ to_le_bytes 8 (Z.of_nat (length payload)) ++ payload.

(** [read_worker_frame]. *)
Definition read_worker_frame (reader : bytes) : result bytes io_error * bytes :=
  match read_exact 8 reader with
  | None => (Err UnexpectedEof, [])
  | Some (len_bytes, reader1) =>
      let len := from_le_bytes len_bytes in
      if len >? MAX_FRAME_SIZE then (Err (InvalidData "ffi worker frame too large"), reader1)
      else match read_exact (Z.to_nat len) reader1 with
           | None => (Err UnexpectedEof, [])
           | Some (payload, reader2) => (Ok payload, reader2)
           end
  end.

(** The worker protocol round-trips exactly the payloads of at most 512 MiB:
    the writer does not check the limit the reader enforces, so a longer payload
    is written and then refused. *)
Theorem worker_frame_round_trip payload rest :
  in_width 64 (Z.of_nat (length payload)) ->
  read_worker_frame (write_worker_frame [] payload ++ rest) =
  if Z.of_nat (length payload) <=? MAX_FRAME_SIZE
  then (Ok payload, rest)
  else (Err (InvalidData "ffi worker frame too large"), payload ++ rest).
Proof.
  intros Hw. unfold in_width in Hw. unfold write_worker_frame, read_worker_frame. cbn [app].
  rewrite <- app_assoc. rewrite read_exact_app' by apply length_to_le_bytes.
  rewrite from_to_le_bytes, Z.mod_small by lia. rewrite Z.gtb_ltb.
  destruct (Z.ltb_spec MAX_FRAME_SIZE (Z.of_nat (length payload)));
    destruct (Z.leb_spec (Z.of_nat (length payload)) MAX_FRAME_SIZE); try lia.
  - done.
  - by rewrite Nat2Z.id, read_exact_app.
Qed.

Lemma worker_frame_round_trip_witness :
  read_worker_frame (write_worker_frame [] [Byte.x7b; Byte.x7d] ++ [Byte.x01])
  = (Ok [Byte.x7b; Byte.x7d], [Byte.x01]).
Proof.
  rewrite (worker_frame_round_trip [Byte.x7b; Byte.x7d] [Byte.x01]).
  - reflexivity.
  - split; [vm_compute; discriminate | reflexivity].
Defined.
End Worker.
