(* ===== verification/Retry.v ===== *)
(** * Retrying

    [src/core/retry.rs] ([retry_async], [retry_sync], [backoff_delay]) and
    [src/core/cleanup.rs] ([remove_file_with_retries] and its callers).

    The retried operation is an [FnMut]: a function of the attempt number and of
    a state [S] it may change.  A sleep is an element of the list of delays (in
    milliseconds) the run performed. *)

From S2P Require Import Prelude Errors.

Local Open Scope Z_scope.

(** [struct RetryConfig] of [config.rs]. *)
Record RetryConfig : Type := mkRetryConfig {
  attempts : Z;             (* usize *)
  initial_backoff_ms : Z;   (* u64 *)
  max_backoff_ms : Z;       (* u64 *)
}.

(** [impl Default for RetryConfig]. *)
Definition RetryConfig_default : RetryConfig := mkRetryConfig 4 1000 4000.

Definition retry_config_wf (c : RetryConfig) : Prop :=
  in_width 64 (attempts c) /\ in_width 64 (initial_backoff_ms c) /\ in_width 64 (max_backoff_ms c).

(** [backoff_delay], in milliseconds.  [attempt.saturating_sub(1) as u32]
    truncates the exponent to 32 bits. *)
Definition backoff_delay (config : RetryConfig) (attempt : Z) : Z :=
  let base := Z.max (initial_backoff_ms config) 1 in
  let max := Z.max (max_backoff_ms config) base in
  let multiplier := default u64_max (checked_shl_one_u64 (truncate 32 (saturating_sub attempt 1))) in
  Z.min (saturating_mul 64 base multiplier) max.

Section Retry.
Context {S T E : Type}.
Variable op : Z -> S -> result T E * S.
Variable should_retry : E -> bool.

(** The loop of [retry_sync] and [retry_async] (which differ only in how they
    sleep) from [attempt] on, with [n] more attempts after it.  [None] stands
    for the [unreachable!] after the loop. *)
Fixpoint retry_loop (config : RetryConfig) (attempts attempt : Z) (n : nat) (s : S)
    : option (result T E) * S * list Z :=
  match n with
  | O => (None, s, [])
  | Datatypes.S n' =>
      match op attempt s with
      | (Ok value, s') => (Some (Ok value), s', [])
      | (Err err, s') =>
          if (attempt <? attempts) && should_retry err then
            let delay := backoff_delay config attempt in
            let '(r, s'', delays) := retry_loop config attempts (attempt + 1) n' s' in
            (r, s'', delay :: delays)
          else (Some (Err err), s', [])
      end
  end.

(** [retry_sync]: [for attempt in 1..=attempts]. *)
Definition retry_sync (config : RetryConfig) (s : S) : option (result T E) * S * list Z :=
  let attempts := Z.max (attempts config) 1 in
  retry_loop config attempts 1 (Z.to_nat attempts) s.

(** [retry_async]. *)
Definition retry_async (config : RetryConfig) (s : S) : option (result T E) * S * list Z :=
  let attempts := Z.max (attempts config) 1 in
  retry_loop config attempts 1 (Z.to_nat attempts) s.

(** What the loop promises: a run of [op] from [attempt] on.  Every attempt but
    the last failed with a retryable error, and the last one is the result. *)
Inductive attempt_run (attempts : Z) : Z -> S -> nat -> result T E -> S -> Prop :=
| run_ok a s v s' : op a s = (Ok v, s') -> attempt_run attempts a s 0 (Ok v) s'
| run_give_up a s e s' :
    op a s = (Err e, s') -> (attempts <= a \/ should_retry e = false) ->
    attempt_run attempts a s 0 (Err e) s'
| run_retry a s e s' k r s'' :
    op a s = (Err e, s') -> a < attempts -> should_retry e = true ->
    attempt_run attempts (a + 1) s' k r s'' ->
    attempt_run attempts a s (Datatypes.S k) r s''.

Lemma retry_loop_run config attempts a n s :
  attempts - a = Z.of_nat n - 1 -> (0 < n)%nat ->
  exists r s' delays,
    retry_loop config attempts a n s = (Some r, s', delays) /\
    attempt_run attempts a s (length delays) r s' /\
    delays = map (fun i => backoff_delay config (a + Z.of_nat i)) (seq 0 (length delays)) /\
    (length delays < n)%nat.
Proof.
  revert a s. induction n as [|n IH]; intros a s Ha Hn; [lia|]. simpl.
  destruct (op a s) as [[v|e] s'] eqn:E1.
  - exists (Ok v), s', []. repeat split; [by constructor | simpl; lia].
  - destruct (Z.ltb_spec a attempts); simpl.
    + destruct (should_retry e) eqn:E2.
      * destruct (IH (a + 1) s') as (r & s'' & ds & -> & Hrun & Hds & Hlen); [lia..|].
        exists r, s'', (backoff_delay config a :: ds). split; [done|].
        split; [by eapply run_retry|]. split; [|simpl; lia]. simpl.
        rewrite <- seq_shift, map_map. f_equal; [f_equal; lia|].
        rewrite Hds at 1. apply map_ext. intros i. f_equal. lia.
      * exists (Err e), s', []. repeat split; [by constructor; auto | simpl; lia].
    + exists (Err e), s', []. repeat split; [by constructor; auto | simpl; lia].
Qed.

End Retry.

(** [retry_sync] and [retry_async] always return (the [unreachable!] is
    never reached).  They call the operation with attempt numbers 1, 2, ...,
    stop at the first success, at the first non-retryable error or when the
    attempts are used up, make fewer retries than [max(attempts, 1)], and sleep
    exactly the backoff of each failed attempt in between. *)
Theorem retry_returns {S T E} (op : Z -> S -> result T E * S) should_retry config s :
  exists r s' delays,
    retry_sync op should_retry config s = (Some r, s', delays) /\
    retry_async op should_retry config s = (Some r, s', delays) /\
    attempt_run op should_retry (Z.max (attempts config) 1) 1 s (length delays) r s' /\
    delays = map (fun i => backoff_delay config (1 + Z.of_nat i)) (seq 0 (length delays)) /\
    Z.of_nat (length delays) < Z.max (attempts config) 1.
Proof.
  unfold retry_sync, retry_async.
  destruct (retry_loop_run op should_retry config (Z.max (attempts config) 1) 1
              (Z.to_nat (Z.max (attempts config) 1)) s) as (r & s' & ds & Heq & Hrun & Hds & Hlen);
    [lia..|].
  exists r, s', ds. repeat split; try done. lia.
Qed.

(** The exponential part of the backoff saturates to a plain power. *)
Lemma saturating_pow base e :
  1 <= base -> 0 <= e ->
  saturating_mul 64 base (default u64_max (checked_shl_one_u64 e)) = Z.min (base * 2 ^ e) u64_max.
Proof.
  intros Hb He. unfold saturating_mul, checked_shl_one_u64.
  change (u_max 64) with u64_max. destruct (Z.ltb_spec e 64); simpl.
  - by rewrite Z.shiftl_1_l.
  - assert (2 ^ 64 <= 2 ^ e) by (apply Z.pow_le_mono_r; lia).
    unfold u64_max, u_max. nia.
Qed.

(** For attempts up to 2^32 the delay before the next attempt is
    [min(base * 2^(attempt-1), max)] with the clamped bounds of the
    configuration, so it is at least one millisecond, at most the cap, and the
    saturating arithmetic never shows. *)
Theorem backoff_delay_closed_form config attempt :
  retry_config_wf config -> 1 <= attempt <= 2 ^ 32 ->
  backoff_delay config attempt =
  Z.min (Z.max (initial_backoff_ms config) 1 * 2 ^ (attempt - 1))
        (Z.max (max_backoff_ms config) (Z.max (initial_backoff_ms config) 1)) /\
  1 <= backoff_delay config attempt.
Proof.
  intros (_ & Hi & Hm) Ha. unfold in_width in *. unfold backoff_delay, saturating_sub.
  rewrite truncate_small by (unfold in_width; lia). rewrite (Z.max_l (attempt - 1) 0) by lia.
  rewrite saturating_pow by lia.
  assert (0 < 2 ^ (attempt - 1)) by (apply Z.pow_pos_nonneg; lia).
  unfold u64_max, u_max. split; nia.
Qed.

Lemma backoff_delay_closed_form_witness :
  retry_config_wf RetryConfig_default /\ backoff_delay RetryConfig_default 3 = 4000.
Proof.
  assert (H : retry_config_wf RetryConfig_default)
    by (unfold retry_config_wf, in_width; simpl; lia).
  split; [exact H|].
  destruct (backoff_delay_closed_form RetryConfig_default 3 H ltac:(lia)) as [-> _]. reflexivity.
Defined.

(** ** Removing files ([cleanup.rs]) *)
Module Cleanup.

(** [REMOVE_FILE_ATTEMPTS]. *)
Definition REMOVE_FILE_ATTEMPTS : nat := 8.

(** [is_retryable_remove_error]. *)
Definition is_retryable_remove_error (err : io_error) : bool :=
  match err with
  | PermissionDenied | Interrupted | WouldBlock | OtherIo _ => true
  | _ => false
  end.

Section Remove.
Context {FS : Type}.
(** [std::fs::remove_file] on one path, as a transition of the file system. *)
Variable remove_file : FS -> result unit io_error * FS.

Fixpoint remove_loop (attempt : nat) (n : nat) (last_error : option io_error) (fs : FS)
    : result unit io_error * FS :=
  match n with
  | O => (Err (default (OtherIo "failed to remove") last_error), fs)
  | S n' =>
      match remove_file fs with
      | (Ok tt, fs') => (Ok tt, fs')
      | (Err NotFound, fs') => (Ok tt, fs')
      | (Err err, fs') =>
          if is_retryable_remove_error err && (attempt + 1 <? REMOVE_FILE_ATTEMPTS)%nat
          then remove_loop (attempt + 1) n' (Some err) fs'
          else (Err err, fs')
      end
  end.

(** [remove_file_with_retries]. *)
Definition remove_file_with_retries (fs : FS) : result unit io_error * FS :=
  remove_loop 0 REMOVE_FILE_ATTEMPTS None fs.

(** [remove_file_if_exists]. *)
Definition remove_file_if_exists (fs : FS) : result unit io_error * FS :=
  match remove_file_with_retries fs with
  | (Ok tt, fs') => (Ok tt, fs')
  | (Err NotFound, fs') => (Ok tt, fs')
  | (Err err, fs') => (Err err, fs')
  end.

Lemma remove_loop_last attempt n last fs :
  (attempt + n = REMOVE_FILE_ATTEMPTS)%nat -> (0 < n)%nat ->
  match fst (remove_loop attempt n last fs) with
  | Ok _ => True
  | Err e => exists fs0 fs1, remove_file fs0 = (Err e, fs1) /\ e <> NotFound
  end.
Proof.
  revert attempt last fs. induction n as [|n IH]; intros attempt last fs Hn Hpos; [lia|]. simpl.
  destruct (remove_file fs) as [[[]|err] fs'] eqn:E; [done|].
  destruct err; try done; simpl;
    try (exists fs, fs'; split; done);
    (destruct (Nat.ltb_spec (attempt + 1) REMOVE_FILE_ATTEMPTS);
       [apply IH; lia | exists fs, fs'; split; done]).
Qed.
End Remove.

(** [remove_file_if_exists] never reports a missing file, and an error it
    does report is one the file system returned: the synthetic "failed to
    remove" error is unreachable. *)
Theorem remove_file_if_exists_errors {FS} (remove_file : FS -> result unit io_error * FS) fs e :
  fst (remove_file_if_exists remove_file fs) = Err e ->
  e <> NotFound /\ exists fs0 fs1, remove_file fs0 = (Err e, fs1).
Proof.
  unfold remove_file_if_exists, remove_file_with_retries.
  pose proof (remove_loop_last remove_file 0 REMOVE_FILE_ATTEMPTS None fs eq_refl ltac:(unfold REMOVE_FILE_ATTEMPTS; lia)) as H.
  destruct (remove_loop remove_file 0 REMOVE_FILE_ATTEMPTS None fs) as [[[]|err] fs']; [done|].
  simpl in H. destruct H as (fs0 & fs1 & H & Hne).
  destruct err; simpl; intros; simplify_eq; split; eauto.
Qed.

(** A file that stays busy: the retries end with its error. *)
Definition busy_file (fs : nat) : result unit io_error * nat := (Err PermissionDenied, S fs).

Lemma remove_file_if_exists_errors_witness :
  PermissionDenied <> NotFound /\ exists fs0 fs1, busy_file fs0 = (Err PermissionDenied, fs1).
Proof.
  apply (remove_file_if_exists_errors busy_file 0%nat PermissionDenied). reflexivity.
Defined.
End Cleanup.
