(* ===== verification/Config.v ===== *)
(** * Configuration

    The structs of [src/core/config.rs] that the modelled components read, with
    their defaults, and the computations on them: the enabled regions, the CPU
    budget and the effective concurrency.

    A [BTreeMap] is a [gmap] with an ordered traversal ([btree_entries]).  An
    [f64] is a [spec_float]: the CPU budget is computed with IEEE binary64
    multiplication, bit for bit.  The logging section of the configuration is not
    part of the records; nothing modelled reads it. *)

From Corelib Require Import SpecFloat.
From S2P Require Import Prelude RustStr Retry.

Local Open Scope string_scope.
Local Open Scope list_scope.
Local Open Scope Z_scope.

(** ** Ordered maps *)

Definition key_le {A} (x y : string * A) : Prop := String.le x.1 y.1.

#[export] Instance key_le_dec {A} (x y : string * A) : Decision (key_le x y).
Proof. unfold key_le. apply _. Defined.

#[export] Instance key_le_total {A} : Total (@key_le A).
Proof. intros x y. unfold key_le. apply (total String.le). Qed.

#[export] Instance key_le_trans {A} : Transitive (@key_le A).
Proof. intros x y z. unfold key_le. apply transitivity. Qed.

(** The entries of a [BTreeMap] in iteration order. *)
Definition btree_entries {A} (m : gmap string A) : list (string * A) :=
  merge_sort key_le (map_to_list m).

Lemma btree_entries_perm {A} (m : gmap string A) : Permutation (btree_entries m) (map_to_list m).
Proof. apply merge_sort_Permutation. Qed.

Lemma btree_entries_sorted {A} (m : gmap string A) : StronglySorted key_le (btree_entries m).
Proof. apply StronglySorted_merge_sort; apply _. Qed.

Lemma elem_of_btree_entries {A} (m : gmap string A) k v : (k, v) ∈ btree_entries m <-> m !! k = Some v.
Proof. rewrite btree_entries_perm. apply elem_of_map_to_list. Qed.

(** ** Sections of the configuration *)

(** [struct PollerConfig]. *)
Record PollerConfig : Type := mkPollerConfig {
  poller_enabled : bool;
  interval_seconds : Z;
  watermark_file : string;
  last_info_dir : string;
  max_concurrent_regions : Z;
}.

(** [impl Default for PollerConfig]. *)
Definition PollerConfig_default : PollerConfig :=
  mkPollerConfig true 60 "./Data/poller/watermarks.json" "./Data/poller/last_info" 5.

(** [struct HipTlsConfig]. *)
Record HipTlsConfig : Type := mkHipTlsConfig {
  hip_tls_enabled : bool;
  hip_tls_ca_file : option string;
}.

(** [struct HipConfig]. *)
Record HipConfig : Type := mkHipConfig {
  hip_enabled : bool;
  hip_endpoint : string;
  hip_bearer_token : option string;
  hip_tls : HipTlsConfig;
  handshake_timeout_ms : Z;
  request_timeout_ms : Z;
  hip_max_frame_bytes : Z;
  hip_chunk_size_bytes : Z;
  hip_max_in_flight_uploads : Z;
  check_batch_size : Z;
  heartbeat_interval_seconds : Z;
  commit_batch_bundles : Z;
  commit_batch_bytes : Z;
}.

(** [impl Default for HipConfig]. *)
Definition HipConfig_default : HipConfig :=
  mkHipConfig true "127.0.0.1:7420" None (mkHipTlsConfig false None) 5000 30000
    (16 * 1024 * 1024) (1024 * 1024) 8 512 30 500 (512 * 1024 * 1024).

(** [enum AssetHttpVersion]. *)
Inductive AssetHttpVersion : Type := HttpAuto | Http1.

(** [struct AuthConfig]. *)
Record AuthConfig : Type := mkAuthConfig {
  auth_enabled : bool;
  user_agent_prefix : option string;
  auth_bearer_token : option string;
}.

(** [struct TlsConfig]. *)
Record TlsConfig : Type := mkTlsConfig {
  tls_enabled : bool;
  cert_file : option string;
  key_file : option string;
}.

(** [struct ServerConfig]. *)
Record ServerConfig : Type := mkServerConfig {
  host : string;
  port : Z;
  proxy : option string;
  asset_http_version : AssetHttpVersion;
  auth : AuthConfig;
  server_tls : TlsConfig;
}.

(** [impl Default for ServerConfig]. *)
Definition ServerConfig_default : ServerConfig :=
  mkServerConfig "0.0.0.0" 8080 None HttpAuto (mkAuthConfig false None None)
    (mkTlsConfig false None None).

(** [struct ExecutionConfig]. *)
Record ExecutionConfig : Type := mkExecutionConfig {
  timeout_seconds : Z;
  allow_cancel : bool;
  execution_max_in_flight_bundle_bytes : Z;
  batch_save_size : Z;
  retry : RetryConfig;
}.

(** [impl Default for ExecutionConfig]. *)
Definition ExecutionConfig_default : ExecutionConfig :=
  mkExecutionConfig 300 true 0 50 RetryConfig_default.

(** [struct ConcurrencyConfig]. *)
Record ConcurrencyConfig : Type := mkConcurrencyConfig {
  auto_tune : bool;
  download : Z;
  upload_concurrency : Z;
  post_process : Z;
  acb_concurrency : Z;
  usm_concurrency : Z;
  hca_concurrency : Z;
  media_encode : Z;
  audio_encode : Z;
  video_encode : Z;
  images_concurrency : Z;
}.

(** [impl Default for ConcurrencyConfig]. *)
Definition ConcurrencyConfig_default : ConcurrencyConfig :=
  mkConcurrencyConfig false 32 4 16 12 6 16 12 12 4 12.

(** [struct CpuThrottleConfig]. *)
Record CpuThrottleConfig : Type := mkCpuThrottleConfig {
  throttle_enabled : bool;
  sample_ms : Z;
}.

(** [struct CpuResourceConfig]. *)
Record CpuResourceConfig : Type := mkCpuResourceConfig {
  budget_auto : bool;
  budget_ratio : spec_float;
  reserved : Z;
  throttle : CpuThrottleConfig;
}.

(** [f64]: 53 bits of precision, exponents up to 1024. *)
Definition f64_of_Z (z : Z) : spec_float := binary_normalize 53 1024 z 0 false.
Definition f64_mul : spec_float -> spec_float -> spec_float := SFmul 53 1024.

(** [impl Default for CpuResourceConfig]. *)
Definition CpuResourceConfig_default : CpuResourceConfig :=
  mkCpuResourceConfig true (f64_of_Z 1) 0 (mkCpuThrottleConfig false 250).

(** [struct MemoryResourceConfig]. *)
Record MemoryResourceConfig : Type := mkMemoryResourceConfig {
  max_in_flight_bundle_bytes : Z;
}.

(** [struct ResourcesConfig]. *)
Record ResourcesConfig : Type := mkResourcesConfig {
  cpu : CpuResourceConfig;
  memory : MemoryResourceConfig;
}.

(** [struct StorageProviderConfig]. *)
Record StorageProviderConfig : Type := mkStorageProviderConfig {
  provider_name : option string;
  scheme : string;
  provider_root : option string;
  public_base_url : option string;
  provider_options : gmap string string;
  provider_endpoint : string;
  provider_tls : bool;
  provider_bucket : string;
  provider_prefix : option string;
  provider_path_style : bool;
  provider_region : option string;
  provider_public_read : bool;
  access_key : option string;
  secret_key : option string;
}.

(** [impl Default for StorageProviderConfig]. *)
Definition StorageProviderConfig_default : StorageProviderConfig :=
  mkStorageProviderConfig None "s3" None None ∅ "" true "" None true None false None None.

(** [struct StorageConfig]. *)
Record StorageConfig : Type := mkStorageConfig { providers : list StorageProviderConfig }.

(** [enum GitSigningFormat]. *)
Inductive GitSigningFormat : Type := Gpg | Ssh.

(** [struct ChartHashConfig]. *)
Record ChartHashConfig : Type := mkChartHashConfig {
  chart_enabled : bool;
  repository_dir : option string;
  chart_username : option string;
  chart_email : option string;
  chart_password : option string;
  sign_commits : bool;
  signing_format : GitSigningFormat;
  signing_key : option string;
  signing_program : option string;
}.

(** [enum RegionProviderConfig]. *)
Inductive RegionProviderConfig : Type :=
| ColorfulPalette
    (current_version_url game_version_url_template : option string)
    (asset_info_url_template asset_bundle_url_template profile : string)
    (profile_hashes : gmap string string)
    (required_cookies : bool)
    (cookie_bootstrap_url : option string)
| Nuverse
    (current_version_url : option string)
    (asset_version_url app_version asset_info_url_template asset_bundle_url_template : string)
    (required_cookies : bool)
    (cookie_bootstrap_url : option string).

(** [impl Default for RegionProviderConfig]. *)
Definition RegionProviderConfig_default : RegionProviderConfig :=
  ColorfulPalette None None "" "" "" ∅ false None.

(** [struct CryptoConfig]. *)
Record CryptoConfig : Type := mkCryptoConfig {
  aes_key_hex : option string;
  aes_iv_hex : option string;
}.

(** [struct RegionPathsConfig]. *)
Record RegionPathsConfig : Type := mkRegionPathsConfig {
  asset_save_dir : option string;
  downloaded_asset_record_file : option string;
}.

(** [struct RegionFiltersConfig]. *)
Record RegionFiltersConfig : Type := mkRegionFiltersConfig {
  start_app : list string;
  on_demand : list string;
  skip : list string;
  priority_filters : list string;
}.

(** [struct RawBundleExportConfig]. *)
Record RawBundleExportConfig : Type := mkRawBundleExportConfig {
  raw_output_dir : option string;
  raw_include : list string;
  raw_exclude : list string;
}.

(** [struct Haruki3dExportConfig]. *)
Record Haruki3dExportConfig : Type := mkHaruki3dExportConfig {
  h3d_enabled : bool;
  exporter_path : string;
  master_dir : string;
  work_dir : string;
  manifest_file : string;
  staging_dir : string;
  h3d_output_dir : string;
  h3d_process_concurrency : Z;
  role_character3d_ids : list Z;
  h3d_include : list string;
  h3d_exclude : list string;
  cleanup_work_dir_after_success : bool;
  cleanup_work_dir_after_failure : bool;
  cleanup_staging_after_success : bool;
  cleanup_staging_after_failure : bool;
}.

(** [impl Default for Haruki3dExportConfig]. *)
Definition Haruki3dExportConfig_default : Haruki3dExportConfig :=
  mkHaruki3dExportConfig false "" "" "" "" "" "" 0 [] [] [] true true true false.

(** [struct MeshExportConfig]. *)
Record MeshExportConfig : Type := mkMeshExportConfig {
  mesh_export_obj : bool;
  mesh_path_patterns : list string;
}.

(** [struct UsmExportConfig], [struct AcbExportConfig] and [struct HcaExportConfig]. *)
Record UsmExportConfig : Type := mkUsmExportConfig { usm_export_files : bool; usm_decode_files : bool }.
Record AcbExportConfig : Type := mkAcbExportConfig { acb_export_files : bool; acb_decode_files : bool }.
Record HcaExportConfig : Type := mkHcaExportConfig { hca_decode_files : bool }.

(** The output formats of images, video and audio. *)
Inductive ImageOutputFormat : Type := Png | Jpg | Webp.
Inductive VideoOutputFormat : Type := M2v | Mp4.
Inductive AudioOutputFormat : Type := Wav | Flac | Mp3.

#[export] Instance ImageOutputFormat_eq_dec : EqDecision ImageOutputFormat.
Proof. solve_decision. Defined.
#[export] Instance VideoOutputFormat_eq_dec : EqDecision VideoOutputFormat.
Proof. solve_decision. Defined.
#[export] Instance AudioOutputFormat_eq_dec : EqDecision AudioOutputFormat.
Proof. solve_decision. Defined.

(** [dedupe_image_formats], [dedupe_video_formats] and [dedupe_audio_formats]: the first
    occurrences, in order. *)
Fixpoint dedupe_formats {A} `{EqDecision A} (seen formats : list A) : list A :=
  match formats with
  | [] => seen
  | f :: formats' =>
      if existsb (fun g => bool_decide (f = g)) seen then dedupe_formats seen formats'
      else dedupe_formats (seen ++ [f]) formats'
  end.

(** [struct VideoExportConfig]; those of images and audio have only their formats. *)
Record VideoExportConfig : Type := mkVideoExportConfig {
  video_export_formats : list VideoOutputFormat;
  video_direct_mp4 : bool;
}.

Definition DEFAULT_ASSET_STUDIO_EXPORT_TYPES : list string := ["monoBehaviour"; "textAsset"; "audio"].

(** [struct RegionExportConfig]. *)
Record RegionExportConfig : Type := mkRegionExportConfig {
  by_category : bool;
  asset_studio_types : list string;
  raw_bundles : option RawBundleExportConfig;
  export_mesh : MeshExportConfig;
  haruki_3d : Haruki3dExportConfig;
  export_usm_config : UsmExportConfig;
  export_acb_config : AcbExportConfig;
  export_hca_config : HcaExportConfig;
  export_images : list ImageOutputFormat;
  export_video : VideoExportConfig;
  export_audio : list AudioOutputFormat;
}.

(** A [RegionExportConfig] with the given parts and defaults elsewhere. *)
Definition RegionExportConfig_with (category : bool) (raw : option RawBundleExportConfig)
    (h3d : Haruki3dExportConfig) : RegionExportConfig :=
  mkRegionExportConfig category DEFAULT_ASSET_STUDIO_EXPORT_TYPES raw (mkMeshExportConfig false []) h3d
    (mkUsmExportConfig true true) (mkAcbExportConfig true true) (mkHcaExportConfig true)
    [Png] (mkVideoExportConfig [Mp4] true) [Mp3].

(** [impl Default for RegionExportConfig]. *)
Definition RegionExportConfig_default : RegionExportConfig :=
  RegionExportConfig_with false None Haruki3dExportConfig_default.

(** [struct UploadPublicReadConfig]. *)
Record UploadPublicReadConfig : Type := mkUploadPublicReadConfig {
  public_include : list string;
  public_exclude : list string;
}.

(** [struct RegionUploadConfig]. *)
Record RegionUploadConfig : Type := mkRegionUploadConfig {
  upload_enabled : bool;
  upload_providers : list string;
  upload_public_read : UploadPublicReadConfig;
  remove_local_after_upload : bool;
}.

(** [struct RegionConfig]. *)
Record RegionConfig : Type := mkRegionConfig {
  region_enabled : bool;
  provider : RegionProviderConfig;
  crypto : CryptoConfig;
  unity_version : string;
  paths : RegionPathsConfig;
  filters : RegionFiltersConfig;
  export : RegionExportConfig;
  upload : RegionUploadConfig;
}.

(** [RegionConfig::default()]. *)
Definition RegionConfig_default : RegionConfig :=
  mkRegionConfig false RegionProviderConfig_default (mkCryptoConfig None None) "2022.3.21f1"
    (mkRegionPathsConfig None None) (mkRegionFiltersConfig [] [] [] [])
    RegionExportConfig_default
    (mkRegionUploadConfig false [] (mkUploadPublicReadConfig [] []) false).

(** [enum AssetStudioFfiMode] and [struct AssetStudioBackendConfig]. *)
Inductive AssetStudioFfiMode : Type := ModeDirect | ModeWorkerPool.

Record AssetStudioBackendConfig : Type := mkAssetStudioBackendConfig {
  as_library_path : option string;
  as_mode : AssetStudioFfiMode;
  as_worker_path : option string;
  as_process_concurrency : Z;
  as_worker_max_calls : Z;
  as_read_batch_size : Z;
  as_image_format : option string;
  as_read_kinds : gmap string string;
  as_worker_idle_timeout_seconds : Z;
  as_worker_gc_heap_hard_limit_mb : Z;
  as_worker_gc_conserve_memory : option Z;
  as_image_flush_bytes : Z;
}.

(** [impl Default for AssetStudioBackendConfig]. *)
Definition AssetStudioBackendConfig_default : AssetStudioBackendConfig :=
  mkAssetStudioBackendConfig None ModeWorkerPool None 0 256 64 None ∅ 120 0 None (128 * 1024 * 1024).

(** [enum MediaBackend] and [struct MediaBackendConfig]. *)
Inductive MediaBackend : Type := BackendAuto | BackendFfi | BackendCli.

Record MediaBackendConfig : Type := mkMediaBackendConfig {
  media_backend : MediaBackend;
  media_ffmpeg_path : string;
}.

(** [enum ImageBackend], [enum ImagePngCompression] and [struct ImageBackendConfig]. *)
Inductive ImageBackend : Type := ImageRust.
Inductive ImagePngCompression : Type := PngFast | PngDefault | PngBest.

Record ImageBackendConfig : Type := mkImageBackendConfig {
  image_backend_kind : ImageBackend;
  png_compression : ImagePngCompression;
  webp_lossless : bool;
  jpeg_quality : Z;
}.

(** [struct BackendsConfig] and the defaults of its parts. *)
Record BackendsConfig : Type := mkBackendsConfig {
  asset_studio : AssetStudioBackendConfig;
  backend_media : MediaBackendConfig;
  backend_image : ImageBackendConfig;
}.

Definition MediaBackendConfig_default : MediaBackendConfig := mkMediaBackendConfig BackendFfi "ffmpeg".
Definition ImageBackendConfig_default : ImageBackendConfig := mkImageBackendConfig ImageRust PngFast true 95.
Definition BackendsConfig_default : BackendsConfig :=
  mkBackendsConfig AssetStudioBackendConfig_default MediaBackendConfig_default ImageBackendConfig_default.

(** [struct AppConfig]. *)
Record AppConfig : Type := mkAppConfig {
  config_version : Z;
  server : ServerConfig;
  execution : ExecutionConfig;
  backends : BackendsConfig;
  resources : ResourcesConfig;
  concurrency : ConcurrencyConfig;
  storage : StorageConfig;
  chart_hashes : ChartHashConfig;        (* git_sync.chart_hashes *)
  poller : PollerConfig;
  hip : HipConfig;
  regions : gmap string RegionConfig;
}.

(** [AppConfig::default()]. *)
Definition AppConfig_default : AppConfig :=
  mkAppConfig 3 ServerConfig_default ExecutionConfig_default BackendsConfig_default
    (mkResourcesConfig CpuResourceConfig_default (mkMemoryResourceConfig 0))
    ConcurrencyConfig_default (mkStorageConfig [])
    (mkChartHashConfig false None None None None false Gpg None None)
    PollerConfig_default HipConfig_default ∅.

(** ** Computations *)

(** [AppConfig::enabled_regions]. *)
Definition enabled_regions (c : AppConfig) : list string :=
  omap (fun '(name, region) => if region_enabled region then Some name else None)
    (btree_entries (regions c)).

(** [x.floor() as usize]: saturating, with NaN and negative values sent to 0. *)
Definition f64_floor_as_usize (x : spec_float) : Z :=
  match x with
  | S754_zero _ | S754_nan => 0
  | S754_infinity s => if s then 0 else usize_max
  | S754_finite true _ _ => 0
  | S754_finite false m e =>
      Z.min usize_max (if e <? 0 then Z.shiftr (Zpos m) (- e) else Z.shiftl (Zpos m) e)
  end.

(** [CpuResourceConfig::effective_budget_for_cpus]. *)
Definition effective_budget_for_cpus (c : CpuResourceConfig) (cpus : Z) : Z :=
  let cpus := Z.max cpus 1 in
  if negb (budget_auto c) then cpus
  else Z.max (saturating_sub (f64_floor_as_usize (f64_mul (f64_of_Z cpus) (budget_ratio c)))
                (reserved c)) 1.

(** [ConcurrencyConfig::effective_for_cpus_with_budget]. *)
Definition effective_for_cpus_with_budget (c : ConcurrencyConfig) (cpus cpu_budget : Z)
    : ConcurrencyConfig :=
  if negb (auto_tune c) then c else
  let cpus := Z.max cpus 1 in
  let cpu_budget := Z.max cpu_budget 1 in
  let cpu_oversubscribe := Z.max (saturating_mul 64 cpu_budget 2) cpu_budget in
  mkConcurrencyConfig true
    (Z.max (Z.min (download c) (Z.max (saturating_mul 64 cpus 4) 4)) 1)
    (Z.max (Z.min (upload_concurrency c) (Z.max cpus 2)) 1)
    (if post_process c =? 0 then 0
     else Z.max (Z.min (post_process c) (Z.max (saturating_mul 64 cpus 2) 2)) 1)
    (Z.max (Z.min (acb_concurrency c) cpu_oversubscribe) 1)
    (Z.max (Z.min (usm_concurrency c) (Z.max cpus 2)) 1)
    (Z.max (Z.min (Z.min (hca_concurrency c) (Z.max (saturating_mul 64 cpus 2) 2)) cpu_oversubscribe) 1)
    (Z.max (Z.min (media_encode c) cpu_oversubscribe) 1)
    (Z.max (Z.min (audio_encode c) cpu_oversubscribe) 1)
    (Z.max (Z.min (video_encode c) (Z.max (div_ceil cpus 4) 1)) 1)
    (Z.max (Z.min (images_concurrency c) cpu_oversubscribe) 1).

(** [AppConfig::effective_concurrency_for_cpus]. *)
Definition effective_concurrency_for_cpus (c : AppConfig) (cpus : Z) : ConcurrencyConfig :=
  effective_for_cpus_with_budget (concurrency c) cpus
    (effective_budget_for_cpus (cpu (resources c)) cpus).

(** [AppConfig::effective_asset_studio_ffi_process_concurrency_for_cpus]. *)
Definition effective_asset_studio_ffi_process_concurrency_for_cpus (c : AppConfig) (cpus : Z) : Z :=
  let configured := as_process_concurrency (asset_studio (backends c)) in
  if configured >? 0 then configured else
  let cpus := Z.max cpus 1 in
  let cpu_budget := effective_budget_for_cpus (cpu (resources c)) cpus in
  if throttle_enabled (throttle (cpu (resources c))) then
    Z.max (Z.min cpus (Z.max (saturating_mul 64 cpu_budget 2) cpu_budget)) 1
  else cpu_budget.

(** ** Properties *)

Lemma enabled_regions_spec c name :
  name ∈ enabled_regions c <-> exists r, regions c !! name = Some r /\ region_enabled r = true.
Proof.
  unfold enabled_regions. rewrite list_elem_of_omap. split.
  - intros ([n r] & Hin & H). apply elem_of_btree_entries in Hin.
    destruct (region_enabled r) eqn:E; [|done]. injection H as ->. by exists r.
  - intros (r & Hr & E). exists (name, r). rewrite elem_of_btree_entries, E. done.
Qed.

Lemma effective_budget_positive c cpus : 1 <= effective_budget_for_cpus c cpus.
Proof. unfold effective_budget_for_cpus. destruct (budget_auto c); simpl; lia. Qed.

(** With half the CPUs of a 16-CPU host and one CPU reserved, the budget is 7. *)
Example budget_half :
  effective_budget_for_cpus
    (mkCpuResourceConfig true (SFdiv 53 1024 (f64_of_Z 1) (f64_of_Z 2)) 1
       (mkCpuThrottleConfig false 250)) 16 = 7.
Proof. reflexivity. Qed.
