(* ===== verification/Models.v ===== *)
(** * Job models

    [src/core/models.rs]: requests, previews, plans, summaries and job
    snapshots.  Timestamps ([DateTime<Utc>]) are milliseconds since the epoch and
    a [Uuid] is its string; the clock and the generator are arguments. *)

From S2P Require Import Prelude.

Local Open Scope string_scope.

(** [enum AssetUpdateMode]. *)
Inductive AssetUpdateMode : Type := Update | PrefetchRawBundles.

(** [struct AssetUpdateRequest]. *)
Record AssetUpdateRequest : Type := mkAssetUpdateRequest {
  req_region : string;
  req_asset_version : option string;
  req_asset_hash : option string;
  req_dry_run : bool;
  req_mode : AssetUpdateMode;
}.

(** [struct UrlPreview]. *)
Record UrlPreview : Type := mkUrlPreview {
  preview_provider_kind : string;
  asset_info_url : option string;
  asset_version_lookup_url : option string;
  asset_bundle_url : string;
  notes : list string;
}.

(** [enum JobStatus]. *)
Inductive JobStatus : Type :=
| Queued | PlanningStatus | WaitingForPipeline | Running | CancelledStatus | FailedStatus | CompletedStatus.

(** [enum JobPhase]. *)
Inductive JobPhase : Type :=
| Accepted | Planning | FetchingAssetInfo | PlanningDownloads | DownloadingBundles
| PersistingState | SyncingChartHashes | CancelledPhase | CompletedPhase | FailedPhase.

#[export] Instance JobPhase_eq_dec : EqDecision JobPhase.
Proof. solve_decision. Defined.

(** [enum JobFailureKind]. *)
Inductive JobFailureKind : Type :=
| Validation | Configuration | Network | DecodeFailure | Export | StorageFailure | GitSync
| TimeoutFailure | CancelledFailure | Internal.

(** [struct JobFailure]. *)
Record JobFailure : Type := mkJobFailure {
  failure_kind : JobFailureKind;
  failure_message : string;
  retryable : bool;
  failure_at : Z;
}.

(** [struct JobProgressEvent]. *)
Record JobProgressEvent : Type := mkJobProgressEvent {
  event_at : Z;
  event_phase : JobPhase;
  event_message : string;
}.

(** [struct JobProgressSnapshot]. *)
Record JobProgressSnapshot : Type := mkJobProgressSnapshot {
  progress_phase : JobPhase;
  current_step : string;
  total_downloads : nat;
  progress_completed : nat;
  progress_failed : nat;
  recent_events : list JobProgressEvent;
}.

(** [JobProgressSnapshot::default()], at time [now]. *)
Definition JobProgressSnapshot_default (now : Z) : JobProgressSnapshot :=
  mkJobProgressSnapshot Accepted "job accepted" 0 0 0
    [mkJobProgressEvent now Accepted "job accepted"].

(** [struct StorageTargetPlan]. *)
Record StorageTargetPlan : Type := mkStorageTargetPlan {
  target_provider : string;
  target_provider_kind : string;
  target_endpoint : string;
  target_bucket : string;
  target_prefix : option string;
  target_base_url : string;
  target_public_read : bool;
  target_path_style : bool;
}.

(** [struct ChartHashSyncPlan]. *)
Record ChartHashSyncPlan : Type := mkChartHashSyncPlan {
  sync_repository_dir : string;
  sync_output_file : string;
  branch_hint : option string;
}.

(** [struct ExecutionPlan]. *)
Record ExecutionPlan : Type := mkExecutionPlan {
  plan_region : string;
  plan_dry_run : bool;
  codec_backend : string;
  url_preview : UrlPreview;
  download_record_file : string;
  upload_targets : list StorageTargetPlan;
  chart_hash_sync : option ChartHashSyncPlan;
  pending_steps : list string;
}.

(** [struct ExecutionSummary]. *)
Record ExecutionSummary : Type := mkExecutionSummary {
  discovered_bundles : nat;
  queued_downloads : nat;
  completed_downloads : nat;
  failed_downloads : nat;
  updated_record_entries : nat;
  chart_hash_sync_performed : bool;
}.

(** [struct JobSnapshot]. *)
Record JobSnapshot : Type := mkJobSnapshot {
  job_id : string;
  parent_job_id : option string;
  job_kind : string;
  job_region : string;
  job_asset_version : option string;
  job_asset_hash : option string;
  job_dry_run : bool;
  job_status : JobStatus;
  job_message : string;
  job_preview : option UrlPreview;
  job_plan : option ExecutionPlan;
  job_execution : option ExecutionSummary;
  job_failure : option JobFailure;
  job_progress : JobProgressSnapshot;
  created_at : Z;
  updated_at : Z;
}.

(** [JobSnapshot::new]. *)
Definition JobSnapshot_new (now : Z) (id : string) (request : AssetUpdateRequest) : JobSnapshot :=
  mkJobSnapshot id None
    (match req_mode request with
     | Update => "asset_update"
     | PrefetchRawBundles => "raw_bundle_prefetch"
     end)
    (req_region request) (req_asset_version request) (req_asset_hash request)
    (req_dry_run request) Queued "job accepted" None None None None
    (JobProgressSnapshot_default now) now now.
