(* ===== verification/Regions.v ===== *)
(** * Regions

    [src/core/regions.rs]: region selection, URL previews and the bundle-name
    filters.  Regular expressions are a parameter: [regex_new pattern] is
    [Regex::new(pattern).ok()] with [is_match] as the function it returns. *)

From S2P Require Import Prelude Errors RustStr Config Models.

Local Open Scope string_scope.
Local Open Scope list_scope.

(** [select_region]. *)
Definition select_region (config : AppConfig) (name : string) : result RegionConfig RegionError :=
  match regions config !! name with
  | None => Err (RegionNotFound name)
  | Some region =>
      if negb (region_enabled region) then Err (RegionDisabled name) else Ok region
  end.

Definition cookies_note : string := "region requires runtime cookies before downloads can start".
Definition incomplete_note : string :=
  "asset info URL preview is incomplete until asset_version, asset_hash, and profile hash are known".
Definition nuverse_note : string :=
  "asset_version is always resolved at runtime from the provider lookup URL".

(** The substitution of the four ColorfulPalette placeholders, in the order of
    [build_url_preview] and [render_asset_info_url]. *)
Definition fill_palette (template env hash asset_version asset_hash : string) : string :=
  replace "{asset_hash}" asset_hash
    (replace "{asset_version}" asset_version
       (replace "{hash}" hash (replace "{env}" env template))).

(** [build_url_preview]. *)
Definition build_url_preview (region : RegionConfig) (request : AssetUpdateRequest) : UrlPreview :=
  match provider region with
  | ColorfulPalette _ _ info_template bundle_template profile profile_hashes required_cookies _ =>
      let notes := if required_cookies then [cookies_note] else [] in
      let profile_hash := profile_hashes !! profile in
      let notes := match profile_hash with
                   | None => notes ++ ["profile hash for `" +:+ profile +:+ "` is missing"]
                   | Some _ => notes
                   end in
      let '(info_url, notes) :=
        match req_asset_version request, req_asset_hash request, profile_hash with
        | Some asset_version, Some asset_hash, Some profile_hash =>
            (Some (fill_palette info_template profile profile_hash asset_version asset_hash), notes)
        | _, _, _ => (None, notes ++ [incomplete_note])
        end in
      mkUrlPreview "colorful_palette" info_url None
        (fill_palette bundle_template profile (default "<profile-hash>" profile_hash)
           (default "<asset-version>" (req_asset_version request))
           (default "<asset-hash>" (req_asset_hash request)))
        notes
  | Nuverse _ version_url app_version info_template bundle_template required_cookies _ =>
      let notes := (if required_cookies then [cookies_note] else []) ++ [nuverse_note] in
      mkUrlPreview "nuverse"
        (Some (replace "{asset_version}" "<resolved-at-runtime>"
                 (replace "{app_version}" app_version info_template)))
        (Some (replace "{app_version}" app_version version_url))
        (replace "{asset_version}" "<resolved-at-runtime>"
           (replace "{app_version}" app_version bundle_template))
        notes
  end.

Section Patterns.
Context (regex_new : string -> option (string -> bool)).

(** [compile_patterns]: patterns that do not compile are dropped. *)
Definition compile_patterns (patterns : list string) : list (string -> bool) :=
  omap regex_new patterns.

(** [matches_any]. *)
Definition matches_any (patterns : list (string -> bool)) (bundle_name : string) : bool :=
  existsb (fun regex => regex bundle_name) patterns.

(** [first_match_index]. *)
Fixpoint first_match_from (idx : nat) (patterns : list (string -> bool)) (bundle_name : string)
    : option nat :=
  match patterns with
  | [] => None
  | regex :: patterns' =>
      if regex bundle_name then Some idx else first_match_from (S idx) patterns' bundle_name
  end.
Definition first_match_index (patterns : list (string -> bool)) (bundle_name : string) : option nat :=
  first_match_from 0 patterns bundle_name.

(** [should_skip_bundle] and [should_skip_bundle_compiled]. *)
Definition should_skip_bundle (filters : RegionFiltersConfig) (bundle_name : string) : bool :=
  matches_any (compile_patterns (skip filters)) bundle_name.

(** [download_priority] and [download_priority_compiled]. *)
Definition download_priority (filters : RegionFiltersConfig) (bundle_name : string) : option nat :=
  first_match_index (compile_patterns (priority_filters filters)) bundle_name.

Lemma matches_any_spec ps name : matches_any ps name = true <-> exists r, r ∈ ps /\ r name = true.
Proof.
  unfold matches_any. rewrite existsb_exists. split; intros (r & H & ?); exists r; split; try done;
    by apply list_elem_of_In.
Qed.

Lemma first_match_from_spec idx ps name n :
  first_match_from idx ps name = Some n <->
  exists k r, n = (idx + k)%nat /\ ps !! k = Some r /\ r name = true /\
    forall j r', (j < k)%nat -> ps !! j = Some r' -> r' name = false.
Proof.
  revert idx. induction ps as [|p ps IH]; intros idx; simpl.
  - split; [done|]. intros (k & r & _ & H & _). by rewrite lookup_nil in H.
  - destruct (p name) eqn:E.
    + split.
      * intros [= <-]. exists 0%nat, p. repeat split; [lia | done | lia].
      * intros ([|k] & r & -> & Hk & Hr & Hmin); [f_equal; lia|].
        specialize (Hmin 0%nat p ltac:(lia) eq_refl). congruence.
    + rewrite IH. split.
      * intros (k & r & -> & Hk & Hr & Hmin). exists (S k), r. repeat split; try done; [lia|].
        intros [|j] r' Hj; simpl; [intros [= <-]; done | intros; eapply Hmin; [|done]; lia].
      * intros ([|k] & r & -> & Hk & Hr & Hmin); simpl in Hk; [congruence|].
        exists k, r. repeat split; try done; [lia|].
        intros j r' Hj Hlk. apply (Hmin (S j) r'); [lia | done].
Qed.

(** A bundle that matches a priority pattern gets the index of the first one. *)
Lemma first_match_index_spec ps name n :
  first_match_index ps name = Some n <->
  exists r, ps !! n = Some r /\ r name = true /\
    forall j r', (j < n)%nat -> ps !! j = Some r' -> r' name = false.
Proof.
  unfold first_match_index. rewrite first_match_from_spec. split.
  - intros (k & r & -> & ?). by exists r.
  - intros (r & ?). by exists n, r.
Qed.

Lemma first_match_index_bound ps name n : first_match_index ps name = Some n -> (n < length ps)%nat.
Proof. intros (r & H & _)%first_match_index_spec. by apply lookup_lt_Some in H. Qed.
End Patterns.

(** The preview of a ColorfulPalette region knows the info URL exactly when the
    version, the hash and the profile hash are known, and it warns exactly
    about what is missing. *)
Lemma palette_preview_complete region request cv gv it bt profile hashes ck cb :
  provider region = ColorfulPalette cv gv it bt profile hashes ck cb ->
  (is_Some (asset_info_url (build_url_preview region request)) <->
   is_Some (req_asset_version request) /\ is_Some (req_asset_hash request) /\
   is_Some (hashes !! profile)).
Proof.
  intros Hp. unfold build_url_preview. rewrite Hp.
  destruct (req_asset_version request), (req_asset_hash request), (hashes !! profile);
    simpl; split; intros H; try done; try (destruct H as [? H]; by inversion H);
    destruct H as ([? H1] & [? H2] & [? H3]); done.
Qed.
