(* ===== verification/AssetInfo.v ===== *)
(** * Asset bundle data

    The data types of [src/core/asset_execution.rs]: bundle details and the
    bundle index, version information, download tasks and progress events.
    A [HashMap] is a [gmap]; where its iteration order can be observed, the
    definitions take or return lists and the lemmas say what the order affects. *)

From S2P Require Import Prelude RustStr Models.

Local Open Scope string_scope.

(** [enum AssetCategory]. *)
Inductive AssetCategory : Type :=
| StartApp
| OnDemand
| OtherCategory (name : string).

#[export] Instance AssetCategory_eq_dec : EqDecision AssetCategory.
Proof. solve_decision. Defined.

(** [impl Deserialize for AssetCategory], from the optional string of the
    message: a null is the empty category name. *)
Definition category_of_string (raw : option string) : AssetCategory :=
  let raw := unwrap_or_default raw in
  if String.eqb raw "StartApp" || String.eqb raw "startApp" then StartApp
  else if String.eqb raw "OnDemand" || String.eqb raw "onDemand" then OnDemand
  else OtherCategory raw.

(** [struct AssetBundleDetail]. *)
Record AssetBundleDetail : Type := mkAssetBundleDetail {
  bundle_name : string;
  cache_file_name : string;
  cache_directory_name : string;
  hash : string;
  category : AssetCategory;
  crc : Z;              (* i64 *)
  file_size : Z;        (* i64 *)
  dependencies : list string;
  bundle_paths : list string;
  is_builtin : bool;
  is_relocate : option bool;
  md5_hash : option string;
  download_path : option string;
}.

#[export] Instance AssetBundleDetail_eq_dec : EqDecision AssetBundleDetail.
Proof. solve_decision. Defined.

(** [struct AssetBundleInfo]. *)
Record AssetBundleInfo : Type := mkAssetBundleInfo {
  version : option string;
  os : option string;
  bundles : gmap string AssetBundleDetail;
}.

(** [struct CurrentVersionInfo] and its [_or_default] accessors. *)
Record CurrentVersionInfo : Type := mkCurrentVersionInfo {
  cv_app_version : option string;
  cv_app_hash : option string;
  cv_asset_version : option string;
  cv_asset_hash : option string;
}.
Definition app_version_or_default (c : CurrentVersionInfo) : string := unwrap_or_default (cv_app_version c).
Definition app_hash_or_default (c : CurrentVersionInfo) : string := unwrap_or_default (cv_app_hash c).
Definition asset_version_or_default (c : CurrentVersionInfo) : string := unwrap_or_default (cv_asset_version c).
Definition asset_hash_or_default (c : CurrentVersionInfo) : string := unwrap_or_default (cv_asset_hash c).

(** [struct DownloadTask].  A missing priority is [usize::MAX]. *)
Record DownloadTask : Type := mkDownloadTask {
  task_download_path : string;
  bundle_path : string;
  bundle_hash : string;
  task_category : AssetCategory;
  task_file_size : Z;
  priority : Z;
}.

(** [enum ExecutionProgressUpdate].  Timings and telemetry maps are left out of
    the payloads. *)
Inductive ExecutionProgressUpdate : Type :=
| Phase (phase : JobPhase) (message : string)
| DownloadsPlanned (total : nat)
| BundleStarted (bundle : string)
| BundleDownloaded (bundle : string) (bytes : nat)
| BundleFetchDetails (bundle source : string)
| BundleDeobfuscated (bundle : string)
| BundleTempWritten (bundle : string)
| BundleExported (bundle : string)
| BundleArtefactsProduced (bundle bundle_hash export_root : string) (files : list string)
| BundleFfiExportPhases (bundle : string)
| BundleFfiSkippedObjectReads (bundle : string) (count : nat)
| BundleFfiObjectReadPlan (bundle : string)
| SchedulerTelemetry (bundle : option string)
| BundleCompleted (bundle : string)
| BundleFailed (bundle error : string)
| RecordSaved (entries : nat)
| ChartHashSyncFinished (performed : bool).

(** ** Countability

    Used to exhibit a concrete serialization of a snapshot. *)
#[export] Instance AssetCategory_countable : Countable AssetCategory.
Proof.
  refine (inj_countable'
    (fun c => match c with StartApp => inl (inl tt) | OnDemand => inl (inr tt) | OtherCategory s => inr s end)
    (fun x => match x with inl (inl _) => StartApp | inl (inr _) => OnDemand | inr s => OtherCategory s end) _).
  by intros [].
Defined.

#[export] Instance AssetBundleDetail_countable : Countable AssetBundleDetail.
Proof.
  refine (inj_countable'
    (fun d => (bundle_name d, cache_file_name d, cache_directory_name d, hash d, category d,
               crc d, file_size d, dependencies d, bundle_paths d, is_builtin d, is_relocate d,
               md5_hash d, download_path d))
    (fun '(a, b, c, d, e, f, g, h, i, j, k, l, m) => mkAssetBundleDetail a b c d e f g h i j k l m) _).
  by intros [].
Defined.

#[export] Instance AssetBundleInfo_eq_dec : EqDecision AssetBundleInfo.
Proof. solve_decision. Defined.

#[export] Instance AssetBundleInfo_countable : Countable AssetBundleInfo.
Proof.
  refine (inj_countable' (fun i => (version i, os i, bundles i))
            (fun '(a, b, c) => mkAssetBundleInfo a b c) _).
  by intros [].
Defined.

(** A bundle detail with the given fingerprint and size, as in the sources' tests. *)
Definition sample_detail (crc size : Z) : AssetBundleDetail :=
  mkAssetBundleDetail "" "" "" "" StartApp crc size [] [] false None None None.
