(* ===== verification/Paths.v ===== *)
(** * Paths

    [std::path] as the sources use it on Unix: a path string is read as its
    [components()], and [strip_prefix], [parent], [join], [file_name],
    [extension] and [set_extension] act on components, which is also what path
    equality compares. *)

From Stdlib Require Import Ascii.
From S2P Require Import Prelude RustStr.

Local Open Scope string_scope.
Local Open Scope list_scope.

#[local] Arguments String.append : simpl nomatch.

(** [std::path::Component], without the Windows prefixes. *)
Inductive component : Type :=
| RootDir
| CurDir
| ParentDir
| Normal (name : string).

#[export] Instance component_eq_dec : EqDecision component.
Proof. solve_decision. Defined.

#[export] Instance component_countable : Countable component :=
  inj_countable'
    (fun c => match c with
              | RootDir => inl 0%nat | CurDir => inl 1%nat | ParentDir => inl 2%nat | Normal w => inr w
              end)
    (fun x => match x with
              | inl 0%nat => RootDir | inl 1%nat => CurDir | inl _ => ParentDir | inr w => Normal w
              end)
    ltac:(by intros []).

Abbreviation path := (list component).

(** One piece between slashes; empty pieces and [.] are skipped. *)
Definition piece (w : string) : option component :=
  if is_empty w then None
  else if String.eqb w "." then None
  else if String.eqb w ".." then Some ParentDir
  else Some (Normal w).

(** [Path::components]: a leading [.] is kept. *)
Definition components (s : string) : path :=
  let ps := split_on "/" s in
  (if starts_with "/" s then [RootDir]
   else if String.eqb (hd "" ps) "." then [CurDir] else [])
  ++ omap piece ps.

Definition is_absolute (p : path) : bool :=
  match p with RootDir :: _ => true | _ => false end.

Definition component_str (c : component) : string :=
  match c with RootDir => "" | CurDir => "." | ParentDir => ".." | Normal w => w end.

(** [Path::to_string_lossy] of a path given by its components. *)
Definition path_str (p : path) : string :=
  match p with
  | [RootDir] => "/"
  | _ => join_with "/" (map component_str p)
  end.

(** [Path::strip_prefix]. *)
Fixpoint path_strip_prefix (base p : path) : option path :=
  match base, p with
  | [], _ => Some p
  | b :: base', c :: p' => if decide (b = c) then path_strip_prefix base' p' else None
  | _ :: _, [] => None
  end.

(** [Path::parent]. *)
Definition path_parent (p : path) : option path :=
  match last p with
  | None | Some RootDir => None
  | Some _ => Some (removelast p)
  end.

(** [Path::join] and [PathBuf::push]: an absolute path replaces. *)
Definition path_join (p q : path) : path :=
  if is_absolute q then q
  else p ++ match p, q with _ :: _, CurDir :: q' => q' | _, _ => q end.

(** [Path::file_name]. *)
Definition file_name (p : path) : option string :=
  match last p with Some (Normal w) => Some w | _ => None end.

(** The last dot of a file name, unless it is its first character: the stem and
    the extension. *)
Fixpoint rsplit_dot (s : string) : option (string * string) :=
  match s with
  | EmptyString => None
  | String a s' =>
      match rsplit_dot s' with
      | Some (stem, ext) => Some (String a stem, ext)
      | None => if Ascii.eqb a "." then Some ("", s') else None
      end
  end.
Definition split_extension (name : string) : string * option string :=
  match rsplit_dot name with
  | Some (String a stem, ext) => (String a stem, Some ext)
  | _ => (name, None)
  end.

(** [Path::extension]. *)
Definition extension (p : path) : option string :=
  match file_name p with Some w => (split_extension w).2 | None => None end.

(** [PathBuf::set_extension] with a non-empty extension. *)
Definition set_extension (ext : string) (p : path) : path :=
  match file_name p with
  | Some w => removelast p ++ [Normal ((split_extension w).1 +:+ "." +:+ ext)]
  | None => p
  end.

(** ** Lemmas *)

Lemma path_strip_prefix_Some base p q : path_strip_prefix base p = Some q <-> p = base ++ q.
Proof.
  revert p. induction base as [|b base IH]; intros p; simpl.
  - split; [by intros; simplify_eq | by intros ->].
  - destruct p as [|c p]; [by split|]. case_decide; [subst; rewrite IH|]; naive_solver.
Qed.

(** A relative name whose pieces are proper names. *)
Definition proper_name (w : string) : bool :=
  negb (is_empty w) && negb (String.eqb w ".") && negb (String.eqb w "..").

Lemma piece_proper w : proper_name w = true -> piece w = Some (Normal w).
Proof.
  unfold proper_name, piece. destruct (is_empty w), (String.eqb w "."), (String.eqb w ".."); done.
Qed.

Lemma starts_with_slash s : starts_with "/" s = true -> hd "" (split_on "/" s) = "".
Proof. intros [t ->]%starts_with_spec. done. Qed.

(** The components of a name without empty, [.] or [..] pieces are its pieces. *)
Lemma components_proper s :
  forallb proper_name (split_on "/" s) = true -> components s = map Normal (split_on "/" s).
Proof.
  intros H. unfold components.
  assert (Hhd : proper_name (hd "" (split_on "/" s)) = true).
  { pose proof (split_on_not_nil "/" s). destruct (split_on "/" s) as [|w ws]; [done|].
    simpl in *. by apply andb_true_iff in H as [? _]. }
  destruct (starts_with "/" s) eqn:E; [by rewrite starts_with_slash in Hhd by done|].
  destruct (String.eqb _ ".") eqn:E2.
  - apply String.eqb_eq in E2. by rewrite E2 in Hhd.
  - simpl. clear -H. induction (split_on "/" s) as [|w ws IH]; [done|]. csimpl in *.
    apply andb_true_iff in H as [Hw Hws]. rewrite (piece_proper w Hw). f_equal. by apply IH.
Qed.

Lemma file_name_snoc p w : file_name (p ++ [Normal w]) = Some w.
Proof. unfold file_name. by rewrite last_snoc. Qed.

Lemma removelast_snoc {A} (l : list A) x : removelast (l ++ [x]) = l.
Proof. rewrite removelast_app by done. simpl. by rewrite app_nil_r. Qed.

Example components_ex :
  components "/data//jp/./music/../x.bundle"
  = [RootDir; Normal "data"; Normal "jp"; Normal "music"; ParentDir; Normal "x.bundle"]
  /\ extension (components "a/x.tar.gz") = Some "gz" /\ extension (components "a/.git") = None
  /\ path_str (set_extension "bundle" (components "a/x.1")) = "a/x.bundle".
Proof. by repeat split. Qed.

(** ** Printing and reading back *)

(** What can follow the first component of a path. *)
Definition inner (c : component) : Prop :=
  match c with
  | ParentDir => True
  | Normal w => proper_name w = true /\ has_char "/" w = false
  | _ => False
  end.

Lemma piece_inner w c : has_char "/" w = false -> piece w = Some c -> inner c /\ component_str c = w.
Proof.
  unfold piece, inner, proper_name. intros Hs. destruct (is_empty w) eqn:E1; [done|].
  destruct (String.eqb w ".") eqn:E2; [done|]. destruct (String.eqb w "..") eqn:E3; intros ?; simplify_eq.
  - apply String.eqb_eq in E3. by subst.
  - by rewrite E1, E2, E3.
Qed.

Lemma pieces_inner ps :
  Forall (fun w => has_char "/" w = false) ps -> Forall inner (omap piece ps).
Proof.
  induction 1 as [|w ps Hw _ IH]; csimpl; [constructor|].
  destruct (piece w) as [c|] eqn:E; [|done]. constructor; [by eapply piece_inner | done].
Qed.

(** Only the first component of a path is special. *)
Lemma components_tail s c p : components s = c :: p -> Forall inner p.
Proof.
  unfold components. pose proof (pieces_inner _ (split_on_no_sep "/" s)) as Hp.
  destruct (starts_with "/" s); [|destruct (String.eqb _ ".")]; simpl; intros E; simplify_eq; try done.
  rewrite E in Hp. by inversion Hp.
Qed.

Lemma inner_str c : inner c -> piece (component_str c) = Some c /\ has_char "/" (component_str c) = false
  /\ component_str c <> "." /\ component_str c <> "".
Proof.
  destruct c as [| | |w]; simpl; try done. intros [Hp Hs]. rewrite (piece_proper w Hp).
  split; [done|]. split; [done|]. split; intros ->; done.
Qed.

Lemma inner_pieces p :
  Forall inner p ->
  omap piece (map component_str p) = p /\ Forall (fun w => has_char "/" w = false) (map component_str p).
Proof.
  induction 1 as [|c p Hc _ [IH1 IH2]]; [done|]. destruct (inner_str c Hc) as (E & Hs & _).
  csimpl. rewrite E. split; [by f_equal | by constructor].
Qed.

(** A relative path of inner components is read back from its string. *)
Lemma components_path_str p : Forall inner p -> components (path_str p) = p.
Proof.
  intros Hp. destruct p as [|c p]; [done|]. pose proof (Forall_inv Hp) as Hc.
  assert (path_str (c :: p) = join_with "/" (map component_str (c :: p))) as -> by (destruct c, p; done).
  destruct (inner_pieces _ Hp) as [Ho Hs]. destruct (inner_str c Hc) as (_ & _ & Hdot & Hne).
  unfold components. rewrite split_join by done. rewrite Ho.
  assert (Hhd : hd "" (split_on "/" (join_with "/" (map component_str (c :: p)))) = component_str c)
    by (by rewrite split_join).
  destruct (starts_with "/" _) eqn:E.
  - apply starts_with_slash in E. congruence.
  - simpl. apply String.eqb_neq in Hdot. by rewrite Hdot.
Qed.

(** The characters of the components after the first come from the path. *)
Lemma rel_chars s base rel :
  components s = base ++ rel -> base <> [] ->
  has_char "\" (path_str rel) = true -> has_char "\" s = true.
Proof.
  intros E Hb Hc. destruct base as [|b base]; [done|]. simpl in E.
  pose proof (components_tail _ _ _ E) as Hin. apply Forall_app in Hin as [_ Hin].
  assert (Hr : rel <> [RootDir]) by (intros ->; by inversion Hin).
  assert (path_str rel = join_with "/" (map component_str rel)) as Hs.
  { destruct rel as [|[] [|]]; done. }
  rewrite Hs, has_char_join in Hc by done.
  apply existsb_exists in Hc as (w & (c & <- & Hw)%in_map_iff & Hw2).
  rewrite <- (join_split "/" s), has_char_join by done. apply existsb_exists.
  assert (Hcs : In c (components s)) by (rewrite E; right; apply in_app_iff; by right).
  exists (component_str c). split; [|done].
  assert (inner c) by (rewrite Forall_forall in Hin; apply Hin; by apply list_elem_of_In).
  unfold components in Hcs. apply in_app_iff in Hcs as [Hcs|Hcs].
  - destruct (starts_with "/" s); [|destruct (String.eqb _ ".")]; simpl in Hcs; intuition; subst; done.
  - apply list_elem_of_In, list_elem_of_omap in Hcs as (w' & Hw' & Hp).
    apply piece_inner in Hp as [_ ->]; [by apply list_elem_of_In|].
    pose proof (split_on_no_sep "/" s) as Hns. rewrite Forall_forall in Hns. by apply Hns.
Qed.

Lemma rsplit_dot_Some s stem ext : rsplit_dot s = Some (stem, ext) -> s = stem +:+ "." +:+ ext.
Proof.
  revert stem. induction s as [|a s IH]; intros stem; simpl; [done|].
  destruct (rsplit_dot s) as [[st ex]|].
  - intros ?; simplify_eq. simpl. by rewrite (IH st).
  - destruct (Ascii.eqb_spec a "."); [|done]. intros ?; by simplify_eq.
Qed.

Lemma rsplit_dot_app s ext :
  has_char "." ext = false -> rsplit_dot (s +:+ "." +:+ ext) = Some (s, ext).
Proof.
  intros Hext. induction s as [|a s IH].
  - assert (rsplit_dot ext = None) as Hn.
    { induction ext as [|b ext IHe]; simpl in *; [done|]. apply orb_false_iff in Hext as [H1 H2].
      by rewrite (IHe H2), H1. }
    simpl. by rewrite Hn.
  - simpl in *. by rewrite IH.
Qed.

(** The extension that was set is read back, for a name that is not empty. *)
Lemma split_extension_set w :
  w <> "" -> (split_extension ((split_extension w).1 +:+ ".bundle")).2 = Some "bundle".
Proof.
  intros Hw.
  assert (Hset : forall a s, (split_extension (String a s +:+ ".bundle")).2 = Some "bundle").
  { intros a s. unfold split_extension.
    change (String a s +:+ ".bundle") with (String a s +:+ "." +:+ "bundle").
    by rewrite (rsplit_dot_app (String a s) "bundle"). }
  unfold split_extension at 2. destruct w as [|b w]; [done|].
  destruct (rsplit_dot (String b w)) as [[[|a stem] ext]|]; simpl fst; apply Hset.
Qed.
