(* ===== verification/Fs.v ===== *)
(** * Files and atomic replacement

    The part of the file system the snapshot, watermark and record code uses: a
    map from paths to contents.  [write_atomic] is the write-to-temp-then-rename
    sequence as a step relation whose every intermediate state can be the one a
    crash leaves behind; a crash in the middle of [fs::write] leaves any prefix
    of the data. *)

From stdpp Require Import relations.
From S2P Require Import Prelude Errors.

(** The files of the disk, by path. *)
Abbreviation files := (gmap string bytes).

(** [fs::read]. *)
Definition fs_read (fs : files) (path : string) : result bytes io_error :=
  match fs !! path with
  | Some content => Ok content
  | None => Err NotFound
  end.

(** [fs::write] that succeeds; [fs::write] that fails after [n] bytes. *)
Definition fs_write (fs : files) (path : string) (content : bytes) : files := <[path := content]> fs.
Definition fs_write_partial (fs : files) (path : string) (content : bytes) (n : nat) : files :=
  <[path := take n content]> fs.

(** [fs::rename]: replaces the target. *)
Definition fs_rename (fs : files) (src dst : string) : files :=
  match fs !! src with
  | Some content => <[dst := content]> (delete src fs)
  | None => fs
  end.

(** [fs::remove_file]. *)
Definition fs_remove (fs : files) (path : string) : files := delete path fs.

(** Where the replacement sequence stands. *)
Inductive write_pc : Type :=
| PcStart
| PcWriting (n : nat)
| PcWritten
| PcDone.

Section Atomic.
Variables (path tmp : string) (data : bytes).

(** One observable step of writing [data] to [tmp] and renaming it to [path]. *)
Inductive atomic_step : write_pc * files -> write_pc * files -> Prop :=
| step_open fs : atomic_step (PcStart, fs) (PcWriting 0, fs_write_partial fs tmp data 0)
| step_write fs n : (n < length data)%nat ->
    atomic_step (PcWriting n, fs) (PcWriting (S n), fs_write_partial fs tmp data (S n))
| step_close fs : atomic_step (PcWriting (length data), fs) (PcWritten, fs)
| step_rename fs : atomic_step (PcWritten, fs) (PcDone, fs_rename fs tmp path).

(** What the disk looks like at each point of the sequence. *)
Definition atomic_inv (fs0 : files) (s : write_pc * files) : Prop :=
  let '(pc, fs) := s in
  match pc with
  | PcStart => fs = fs0
  | PcWriting n => (n <= length data)%nat /\ fs = <[tmp := take n data]> fs0
  | PcWritten => fs = <[tmp := data]> fs0
  | PcDone => fs = <[path := data]> (delete tmp fs0)
  end.

Lemma atomic_inv_step fs0 s s' : atomic_inv fs0 s -> atomic_step s s' -> atomic_inv fs0 s'.
Proof.
  intros Hinv Hs. inversion Hs; subst; simpl in *; unfold fs_write_partial, fs_rename in *.
  - subst. split; [lia | done].
  - destruct Hinv as [_ ->]. split; [lia|]. by rewrite insert_insert_eq.
  - destruct Hinv as [_ ->]. by rewrite firstn_all.
  - subst. rewrite lookup_insert_eq. by rewrite delete_insert_eq.
Qed.

Lemma atomic_inv_reach fs0 s : rtc atomic_step (PcStart, fs0) s -> atomic_inv fs0 s.
Proof.
  intros H. remember (PcStart, fs0) as s0 eqn:E. assert (Hi : atomic_inv fs0 s0) by by subst.
  clear E. induction H as [|s1 s2 s3 Hs _ IH]; [done|]. by eapply IH, atomic_inv_step.
Qed.

(** At every point a reader of [path] sees the old content or the new one, and
    every other file but [tmp] is untouched. *)
Lemma atomic_reader fs0 pc fs q :
  tmp <> path -> rtc atomic_step (PcStart, fs0) (pc, fs) ->
  (fs !! path = fs0 !! path \/ fs !! path = Some data) /\
  (q <> path -> q <> tmp -> fs !! q = fs0 !! q).
Proof.
  intros Hne H%atomic_inv_reach. destruct pc; simpl in H; destruct_and?; subst; split;
    intros; simplify_map_eq; auto.
Qed.

(** The sequence can always run to its end. *)
Lemma atomic_completes fs0 :
  rtc atomic_step (PcStart, fs0) (PcDone, <[path := data]> (delete tmp fs0)).
Proof.
  assert (Hw : forall n, (n <= length data)%nat ->
    rtc atomic_step (PcStart, fs0) (PcWriting n, <[tmp := take n data]> fs0)).
  { induction n as [|n IH]; intros Hn.
    - apply rtc_once. apply step_open.
    - eapply rtc_r; [apply IH; lia|].
      replace (<[tmp := take (S n) data]> fs0)
        with (fs_write_partial (<[tmp := take n data]> fs0) tmp data (S n)).
      + apply step_write. lia.
      + unfold fs_write_partial. by rewrite insert_insert_eq. }
  specialize (Hw (length data) ltac:(lia)). rewrite firstn_all in Hw.
  eapply rtc_r; [eapply rtc_r; [exact Hw | apply step_close]|].
  replace (<[path := data]> (delete tmp fs0)) with (fs_rename (<[tmp := data]> fs0) tmp path).
  - apply step_rename.
  - unfold fs_rename. by rewrite lookup_insert_eq, delete_insert_eq.
Qed.
End Atomic.
