(* ===== verification/BundleDiff.v ===== *)
(** * Layer-1 pruning

    [src/core/bundle_diff.rs]: the diff of a fresh bundle index against the last
    committed snapshot, and the snapshot files (zstd-compressed msgpack,
    replaced atomically).

    MessagePack and zstd are third-party: [SnapshotCodec] is the interface, with
    the round trips the code relies on as its laws. *)

From stdpp Require Import relations.
From S2P Require Import Prelude Errors RustStr AssetInfo Fs.

Local Open Scope string_scope.
Local Open Scope list_scope.
Local Open Scope rust_scope.

(** ** The diff *)

(** [struct ChangedBundle]. *)
Record ChangedBundle : Type := mkChangedBundle {
  changed_name : string;
  fingerprint : string;
  changed_size : Z;
}.

(** [struct DiffStats]. *)
Record DiffStats : Type := mkDiffStats { added : nat; changed : nat; unchanged : nat; removed : nat }.

(** [struct BundleDiff]. *)
Record BundleDiff : Type := mkBundleDiff { diff_changed : list ChangedBundle; stats : DiffStats }.

(** [fingerprint_for]: the decimal CRC and the size clamped at zero. *)
Definition fingerprint_for (d : AssetBundleDetail) : string * Z :=
  (pretty (crc d), Z.max (file_size d) 0).

(** The map of old fingerprints built in the second pass of [diff]. *)
Definition old_fingerprints (old : option AssetBundleInfo) : gmap string string :=
  match old with
  | Some info => (fun d => (fingerprint_for d).1) <$> bundles info
  | None => ∅
  end.

(** One iteration of the loop of [diff] over the new bundles. *)
Definition diff_step (old_fp : gmap string string) (acc : list ChangedBundle * DiffStats)
    (entry : string * AssetBundleDetail) : list ChangedBundle * DiffStats :=
  let '(changed_list, st) := acc in
  let '(name, detail) := entry in
  let '(fp, size) := fingerprint_for detail in
  match old_fp !! name with
  | Some prev =>
      if String.eqb prev fp then
        (changed_list, mkDiffStats (added st) (changed st) (S (unchanged st)) (removed st))
      else
        (changed_list ++ [mkChangedBundle name fp size],
         mkDiffStats (added st) (S (changed st)) (unchanged st) (removed st))
  | None =>
      (changed_list ++ [mkChangedBundle name fp size],
       mkDiffStats (S (added st)) (changed st) (unchanged st) (removed st))
  end.

(** The names of the old snapshot that the new index no longer has. *)
Definition removed_names (old : option AssetBundleInfo) (new : AssetBundleInfo) : gset string :=
  match old with
  | Some info => dom (bundles info) ∖ dom (bundles new)
  | None => ∅
  end.

(** [diff] when the new index is traversed in the order of [entries]. *)
Definition diff_over (old : option AssetBundleInfo) (new : AssetBundleInfo)
    (entries : list (string * AssetBundleDetail)) : BundleDiff :=
  let '(changed_list, st) :=
    foldl (diff_step (old_fingerprints old)) ([], mkDiffStats 0 0 0 0) entries in
  mkBundleDiff changed_list
    (mkDiffStats (added st) (changed st) (unchanged st)
       (removed st + size (removed_names old new))).

(** [diff]. *)
Definition diff (old : option AssetBundleInfo) (new : AssetBundleInfo) : BundleDiff :=
  diff_over old new (map_to_list (bundles new)).

(** ** Snapshots *)

(** The serialization of a snapshot: [rmp_serde] and [zstd]. *)
Class SnapshotCodec := {
  pack : AssetBundleInfo -> result bytes string;
  unpack : bytes -> result AssetBundleInfo string;
  compress : bytes -> result bytes string;
  decompress : bytes -> result bytes string;
  unpack_pack i p : pack i = Ok p -> unpack p = Ok i;
  decompress_compress p c : compress p = Ok c -> decompress c = Ok p;
}.

(** What the operating system answers to the calls of one save. *)
Record SaveFaults : Type := mkSaveFaults {
  mkdir_fault : option io_error;
  write_fault : option (io_error * option nat);   (* after how many bytes, if opened *)
  rename_fault : option io_error;
  cleanup_fault : bool;                            (* the removal of the temp file fails too *)
}.
Definition no_faults : SaveFaults := mkSaveFaults None None None false.

(** [path + ".tmp"]. *)
Definition tmp_path (path : string) : string := path +:+ ".tmp".

(** [snapshot_path]. *)
Definition snapshot_path (dir region : string) : string :=
  dir +:+ "/" +:+ region +:+ ".msgpack.zst".

Section Snapshots.
Context `{SnapshotCodec}.

(** The bytes of a snapshot. *)
Definition encode_snapshot (info : AssetBundleInfo) : result bytes AssetExecutionError :=
  let? packed := result_map_err AssetInfoDecode (pack info) in
  result_map_err (fun m => AxBlockingTask ("zstd encode: " +:+ m)) (compress packed).

(** [save_snapshot]. *)
Definition save_snapshot (faults : SaveFaults) (fs : files) (path : string) (info : AssetBundleInfo)
    : result unit AssetExecutionError * files :=
  match mkdir_fault faults with
  | Some _ => (Err (AxBlockingTask "create last_info parent"), fs)
  | None =>
      match encode_snapshot info with
      | Err e => (Err e, fs)
      | Ok compressed =>
          let tmp := tmp_path path in
          match write_fault faults with
          | Some (_, None) => (Err (AxBlockingTask "write last_info tmp"), fs)
          | Some (_, Some n) =>
              (Err (AxBlockingTask "write last_info tmp"), fs_write_partial fs tmp compressed n)
          | None =>
              let fs1 := fs_write fs tmp compressed in
              match rename_fault faults with
              | Some _ =>
                  (Err (AxBlockingTask "rename last_info tmp"),
                   if cleanup_fault faults then fs1 else fs_remove fs1 tmp)
              | None => (Ok tt, fs_rename fs1 tmp path)
              end
          end
      end
  end.

(** [load_snapshot]; [read_fault] is an error of the read other than the
    absence of the file. *)
Definition load_snapshot (read_fault : option io_error) (fs : files) (path : string)
    : result (option AssetBundleInfo) AssetExecutionError :=
  match (match read_fault with Some e => Err e | None => fs_read fs path end) with
  | Err NotFound => Ok None
  | Err _ => Err (AxBlockingTask "read last_info")
  | Ok content =>
      let? decoded := result_map_err (fun m => AxBlockingTask ("zstd decode: " +:+ m)) (decompress content) in
      let? info := result_map_err AssetInfoDecode (unpack decoded) in
      Ok (Some info)
  end.

(** The snapshot [merge_snapshot] writes, from the one on disk. *)
Definition merged_info (existing : option AssetBundleInfo) (new_version new_os : option string)
    (entries : list (string * AssetBundleDetail)) : AssetBundleInfo :=
  let merged :=
    match existing with
    | Some prev =>
        if decide (version prev = new_version) then
          if decide (os prev = new_os) then prev
          else mkAssetBundleInfo new_version new_os ∅
        else mkAssetBundleInfo new_version new_os ∅
    | None => mkAssetBundleInfo new_version new_os ∅
    end in
  mkAssetBundleInfo (version merged) (os merged)
    (foldl (fun m e => <[e.1 := e.2]> m) (bundles merged) entries).

(** [merge_snapshot]. *)
Definition merge_snapshot (read_fault : option io_error) (faults : SaveFaults) (fs : files)
    (path : string) (new_version new_os : option string)
    (entries : list (string * AssetBundleDetail)) : result unit AssetExecutionError * files :=
  match load_snapshot read_fault fs path with
  | Err e => (Err e, fs)
  | Ok existing => save_snapshot faults fs path (merged_info existing new_version new_os entries)
  end.
End Snapshots.

(** ** Facts about the diff *)

(** What the diff does with one bundle. *)
Inductive verdict : Type := VAdded | VChanged | VUnchanged.

Definition verdict_of (old_fp : gmap string string) (e : string * AssetBundleDetail) : verdict :=
  match old_fp !! e.1 with
  | None => VAdded
  | Some prev => if String.eqb prev (fingerprint_for e.2).1 then VUnchanged else VChanged
  end.

#[export] Instance verdict_eq_dec : EqDecision verdict.
Proof. solve_decision. Defined.

Definition count_verdict (old_fp : gmap string string) (v : verdict)
    (l : list (string * AssetBundleDetail)) : nat :=
  length (filter (fun e => verdict_of old_fp e = v) l).

Definition changed_of (old_fp : gmap string string) (e : string * AssetBundleDetail) : option ChangedBundle :=
  match verdict_of old_fp e with
  | VUnchanged => None
  | _ => Some (mkChangedBundle e.1 (fingerprint_for e.2).1 (fingerprint_for e.2).2)
  end.

Lemma diff_step_eq old_fp acc st e :
  diff_step old_fp (acc, st) e =
  let c := mkChangedBundle e.1 (fingerprint_for e.2).1 (fingerprint_for e.2).2 in
  match verdict_of old_fp e with
  | VAdded => (acc ++ [c], mkDiffStats (S (added st)) (changed st) (unchanged st) (removed st))
  | VChanged => (acc ++ [c], mkDiffStats (added st) (S (changed st)) (unchanged st) (removed st))
  | VUnchanged => (acc, mkDiffStats (added st) (changed st) (S (unchanged st)) (removed st))
  end.
Proof.
  destruct e as [name d]. unfold diff_step, verdict_of. cbn [fst snd fingerprint_for].
  destruct (old_fp !! name) as [prev|]; [|done]. by destruct (String.eqb prev _).
Qed.

(** The loop collects the changed bundles in traversal order and counts the
    three verdicts. *)
Lemma diff_fold old_fp entries acc st :
  foldl (diff_step old_fp) (acc, st) entries =
  (acc ++ omap (changed_of old_fp) entries,
   mkDiffStats (added st + count_verdict old_fp VAdded entries)
     (changed st + count_verdict old_fp VChanged entries)
     (unchanged st + count_verdict old_fp VUnchanged entries) (removed st)).
Proof.
  revert acc st. unfold count_verdict. induction entries as [|e entries IH]; intros acc st.
  - simpl. rewrite app_nil_r, !Nat.add_0_r. by destruct st.
  - cbn [foldl]. rewrite diff_step_eq, !filter_cons. cbn [omap list_omap]. unfold changed_of at 1.
    destruct (verdict_of old_fp e); simpl; rewrite IH; simpl; f_equal;
      rewrite <- ?app_assoc; try done; f_equal; lia.
Qed.

Lemma diff_over_eq old new entries :
  diff_over old new entries =
  let fp := old_fingerprints old in
  mkBundleDiff (omap (changed_of fp) entries)
    (mkDiffStats (count_verdict fp VAdded entries) (count_verdict fp VChanged entries)
       (count_verdict fp VUnchanged entries) (size (removed_names old new))).
Proof. unfold diff_over. by rewrite diff_fold. Qed.

Lemma count_verdict_total fp entries :
  (count_verdict fp VAdded entries + count_verdict fp VChanged entries
   + count_verdict fp VUnchanged entries = length entries)%nat.
Proof.
  unfold count_verdict. induction entries as [|e entries IH]; simpl; [done|].
  rewrite !filter_cons. destruct (verdict_of fp e); simpl; lia.
Qed.

Lemma changed_of_length fp entries :
  length (omap (changed_of fp) entries) =
  (count_verdict fp VAdded entries + count_verdict fp VChanged entries)%nat.
Proof.
  unfold count_verdict. induction entries as [|e entries IH]; [done|].
  cbn [omap list_omap]. rewrite !filter_cons. unfold changed_of at 1.
  destruct (verdict_of fp e); simpl in *; rewrite IH; lia.
Qed.

(** A bundle needs work: it is new, or its CRC differs from the snapshot's. *)
Definition needs_work (old : option AssetBundleInfo) (name : string) (d : AssetBundleDetail) : Prop :=
  match old with
  | None => True
  | Some info => match bundles info !! name with
                 | None => True
                 | Some prev => crc prev <> crc d
                 end
  end.

Lemma verdict_needs_work old name d :
  verdict_of (old_fingerprints old) (name, d) <> VUnchanged <-> needs_work old name d.
Proof.
  unfold verdict_of, needs_work, old_fingerprints. cbn [fst snd fingerprint_for].
  destruct old as [info|]; [|by rewrite lookup_empty].
  rewrite lookup_fmap. destruct (bundles info !! name) as [prev|]; simpl; [|done].
  destruct (String.eqb_spec (pretty (crc prev)) (pretty (crc d))) as [E|E].
  - apply (inj pretty) in E. split; intros; done.
  - split; [intros _ ?; congruence | done].
Qed.

Lemma elem_of_diff old new c :
  c ∈ diff_changed (diff old new) <->
  exists d, bundles new !! changed_name c = Some d /\ needs_work old (changed_name c) d /\
    c = mkChangedBundle (changed_name c) (pretty (crc d)) (Z.max (file_size d) 0).
Proof.
  unfold diff. rewrite diff_over_eq. cbn [diff_changed]. rewrite list_elem_of_omap. split.
  - intros ([name d] & Hin%elem_of_map_to_list & Hc). unfold changed_of in Hc.
    destruct (verdict_of _ _) eqn:E; [| |done]; injection Hc as <-; cbn [changed_name fst snd fingerprint_for];
      exists d; repeat split; try done; apply verdict_needs_work; congruence.
  - intros (d & Hd & Hw & ->). exists (changed_name c, d).
    rewrite elem_of_map_to_list. split; [done|]. apply verdict_needs_work in Hw.
    unfold changed_of. cbn [changed_name] in *. by destruct (verdict_of _ _).
Qed.

(** The diff is a partition.  Every bundle of the new index is counted
    exactly once as added, changed or unchanged; the list holds one entry per
    added or changed bundle, and [removed] counts the names that disappeared. *)
Theorem diff_partition old new :
  let d := diff old new in
  (added (stats d) + changed (stats d) + unchanged (stats d) = size (bundles new))%nat /\
  length (diff_changed d) = (added (stats d) + changed (stats d))%nat /\
  removed (stats d) = size (removed_names old new).
Proof.
  unfold diff. cbv zeta. rewrite diff_over_eq. cbn [stats added changed unchanged removed diff_changed].
  rewrite count_verdict_total, length_map_to_list, changed_of_length. done.
Qed.

(** The diff keeps exactly the bundles that need work: those without an old
    entry and those whose CRC changed, each with its decimal CRC and its
    non-negative size; a missing snapshot keeps everything. *)
Theorem diff_exact old new name fp size :
  mkChangedBundle name fp size ∈ diff_changed (diff old new) <->
  exists d, bundles new !! name = Some d /\ needs_work old name d /\
    fp = pretty (crc d) /\ size = Z.max (file_size d) 0.
Proof.
  rewrite elem_of_diff. cbn [changed_name]. split.
  - intros (d & ? & ? & ?). simplify_eq. by exists d.
  - intros (d & ? & ? & -> & ->). by exists d.
Qed.

(** The order in which the hash map is traversed does not matter: the
    statistics agree and the changed bundles are the same up to order. *)
Theorem diff_order_independent old new entries :
  Permutation entries (map_to_list (bundles new)) ->
  stats (diff_over old new entries) = stats (diff old new) /\
  Permutation (diff_changed (diff_over old new entries)) (diff_changed (diff old new)).
Proof.
  intros Hp. unfold diff. rewrite !diff_over_eq. cbn [stats diff_changed].
  unfold count_verdict. rewrite Hp. split; [done|]. by apply omap_perm.
Qed.

Lemma diff_order_independent_witness :
  let new := mkAssetBundleInfo None None
    {["music/foo" := sample_detail 1 10; "music/bar" := sample_detail 2 20]} in
  Permutation (diff_changed (diff_over None new (reverse (map_to_list (bundles new)))))
              (diff_changed (diff None new)).
Proof.
  intros new.
  apply (diff_order_independent None new (reverse (map_to_list (bundles new)))).
  apply reverse_Permutation.
Defined.

(** ** Facts about snapshots *)

Lemma tmp_path_ne path : tmp_path path <> path.
Proof.
  unfold tmp_path. intros E. apply (f_equal String.length) in E.
  rewrite length_string_app in E. simpl in E. lia.
Qed.

Lemma merged_lookup (m : gmap string AssetBundleDetail) entries name :
  foldl (fun m e => <[e.1 := e.2]> m) m entries !! name =
  match list_to_map (M := gmap string AssetBundleDetail) (reverse entries) !! name with
  | Some d => Some d
  | None => m !! name
  end.
Proof.
  revert m. induction entries as [|[k v] entries IH] using rev_ind; intros m.
  { rewrite reverse_nil. simpl. by rewrite lookup_empty. }
  rewrite foldl_app, reverse_app. simpl. destruct (decide (k = name)) as [->|Hne].
  - by rewrite !lookup_insert_eq.
  - rewrite !lookup_insert_ne by done. apply IH.
Qed.

Section SnapshotFacts.
Context `{SnapshotCodec}.

Lemma encode_snapshot_decodes info data :
  encode_snapshot info = Ok data ->
  exists p, decompress data = Ok p /\ unpack p = Ok info.
Proof.
  unfold encode_snapshot. destruct (pack info) as [p|] eqn:Ep; [|done]. simpl.
  destruct (compress p) as [c|] eqn:Ec; [|done]. simpl. intros [= <-]. exists p.
  split; [by apply decompress_compress | by apply unpack_pack].
Qed.

Lemma load_encoded fs path info data :
  encode_snapshot info = Ok data -> fs !! path = Some data ->
  load_snapshot None fs path = Ok (Some info).
Proof.
  intros (p & Hd & Hu)%encode_snapshot_decodes Hl. unfold load_snapshot, fs_read.
  by rewrite Hl, Hd; simpl; rewrite Hu.
Qed.

Lemma save_no_faults fs path info data :
  encode_snapshot info = Ok data ->
  save_snapshot no_faults fs path info = (Ok tt, <[path := data]> (delete (tmp_path path) fs)).
Proof.
  intros E. unfold save_snapshot. simpl. rewrite E. unfold fs_rename, fs_write.
  by rewrite lookup_insert_eq, delete_insert_eq.
Qed.

(** A save that reports success did replace the file, and no temporary file is
    left; a save that reports an error did not touch the snapshot. *)
Lemma save_snapshot_cases faults fs path info :
  match save_snapshot faults fs path info with
  | (Ok _, fs') => exists data, encode_snapshot info = Ok data /\
      fs' = <[path := data]> (delete (tmp_path path) fs)
  | (Err _, fs') => fs' !! path = fs !! path
  end.
Proof.
  pose proof (tmp_path_ne path). unfold save_snapshot, fs_write_partial, fs_write, fs_remove, fs_rename.
  destruct (mkdir_fault faults); [done|].
  destruct (encode_snapshot info) as [data|]; [|done].
  destruct (write_fault faults) as [[? [n|]]|]; [by simplify_map_eq | done |].
  rewrite lookup_insert_eq, delete_insert_eq.
  destruct (rename_fault faults); [destruct (cleanup_fault faults); by simplify_map_eq | eauto].
Qed.

(** A snapshot saved without faults is loaded back unchanged, no temporary
    file stays behind, and every other file is untouched. *)
Theorem save_load_round_trip fs path info data q :
  encode_snapshot info = Ok data ->
  let '(r, fs') := save_snapshot no_faults fs path info in
  r = Ok tt /\ load_snapshot None fs' path = Ok (Some info) /\
  fs' !! tmp_path path = None /\
  (q <> path -> q <> tmp_path path -> fs' !! q = fs !! q).
Proof.
  intros E. rewrite (save_no_faults _ _ _ _ E). pose proof (tmp_path_ne path).
  repeat split; try (intros; by simplify_map_eq).
  apply (load_encoded _ _ _ _ E). by simplify_map_eq.
Qed.

(** C38: crash safety of the snapshot file.  Whatever prefix of the write-then-
    rename sequence of [save_snapshot] has run, the next [load_snapshot] reads
    exactly what it would have read before, or the new snapshot: never a partial
    file; and that sequence is what a [save_snapshot] without faults runs to its
    end. *)
Theorem snapshot_crash_safe fs0 path info data pc fs :
  encode_snapshot info = Ok data ->
  rtc (atomic_step path (tmp_path path) data) (PcStart, fs0) (pc, fs) ->
  (load_snapshot None fs path = load_snapshot None fs0 path \/
   load_snapshot None fs path = Ok (Some info)) /\
  rtc (atomic_step path (tmp_path path) data) (PcStart, fs0) (PcDone, (save_snapshot no_faults fs0 path info).2).
Proof.
  intros E Hreach. split; [|rewrite (save_no_faults _ _ _ _ E); apply atomic_completes].
  destruct (atomic_reader path (tmp_path path) data fs0 pc fs path (tmp_path_ne path) Hreach)
    as [[Hold|Hnew] _].
  - left. unfold load_snapshot, fs_read. by rewrite Hold.
  - right. by apply (load_encoded _ _ _ _ E).
Qed.

(** An error of [save_snapshot], at whichever call it strikes, leaves the previous
    snapshot readable; success means the new one is. *)
Lemma save_snapshot_loads faults fs path info :
  let '(r, fs') := save_snapshot faults fs path info in
  load_snapshot None fs' path =
  match r with
  | Ok _ => Ok (Some info)
  | Err _ => load_snapshot None fs path
  end.
Proof.
  pose proof (save_snapshot_cases faults fs path info) as Hc.
  destruct (save_snapshot faults fs path info) as [[u|e] fs'].
  - destruct Hc as (data & E & ->). apply (load_encoded _ _ _ _ E). by simplify_map_eq.
  - unfold load_snapshot, fs_read. by rewrite Hc.
Qed.

Lemma merged_info_lookup existing v o entries name :
  bundles (merged_info existing v o entries) !! name =
  match list_to_map (M := gmap string AssetBundleDetail) (reverse entries) !! name with
  | Some d => Some d
  | None => match existing with
            | Some prev => if decide (version prev = v /\ os prev = o) then bundles prev !! name else None
            | None => None
            end
  end.
Proof.
  unfold merged_info. cbn [bundles version os]. rewrite merged_lookup.
  destruct existing as [prev|]; [|cbn [bundles version os]; by rewrite lookup_empty].
  destruct (decide (version prev = v)), (decide (os prev = o)), (decide (version prev = v /\ os prev = o));
    try tauto; cbn [bundles version os]; by rewrite ?lookup_empty.
Qed.

(** Merging.  With the same version and platform on disk, the merged
    snapshot holds the fresh entries on top of everything already there; with
    any other version, or none, it holds the fresh entries alone. *)
Theorem merge_snapshot_spec existing v o entries name :
  bundles (merged_info existing v o entries) !! name =
  match list_to_map (M := gmap string AssetBundleDetail) (reverse entries) !! name with
  | Some d => Some d
  | None => match existing with
            | Some prev => if decide (version prev = v /\ os prev = o) then bundles prev !! name else None
            | None => None
            end
  end /\
  version (merged_info existing v o entries) = v /\ os (merged_info existing v o entries) = o.
Proof.
  split; [apply merged_info_lookup|]. unfold merged_info. cbn [version os].
  destruct existing as [prev|]; [|done].
  destruct (decide (version prev = v)), (decide (os prev = o)); done.
Qed.

End SnapshotFacts.

(** ** A concrete serialization

    The index of a snapshot in the enumeration of its type, one byte per bit.
    It satisfies the laws of the interface, so they can hold. *)
Module ConcreteCodec.
Definition c_pack (i : AssetBundleInfo) : result bytes string := Ok (pos_bytes (encode i)).
Definition c_unpack (bs : bytes) : result AssetBundleInfo string :=
  ok_or (decode (bytes_pos bs)) "not a snapshot".

#[export] Instance concrete_codec : SnapshotCodec.
Proof.
  refine {| pack := c_pack; unpack := c_unpack; compress := Ok; decompress := Ok |}.
  - intros i p [= <-]. unfold c_unpack. by rewrite bytes_pos_bytes, decode_encode.
  - by intros p c [= <-].
Defined.

Definition info1 : AssetBundleInfo :=
  mkAssetBundleInfo (Some "6.6.0.20") None {["music/foo" := sample_detail 100 10]}.

Lemma save_load_round_trip_witness :
  let '(r, fs') := save_snapshot no_faults ∅ "jp.msgpack.zst" info1 in
  r = Ok tt /\ load_snapshot None fs' "jp.msgpack.zst" = Ok (Some info1) /\
  fs' !! tmp_path "jp.msgpack.zst" = None /\
  ("x" <> "jp.msgpack.zst" -> "x" <> tmp_path "jp.msgpack.zst" -> fs' !! "x" = (∅ : files) !! "x").
Proof.
  apply (save_load_round_trip ∅ "jp.msgpack.zst" info1 (pos_bytes (encode info1)) "x").
  reflexivity.
Defined.

(** A crash right after the temporary file was created. *)
Lemma snapshot_crash_safe_witness :
  let data := pos_bytes (encode info1) in
  let fs := <["jp.tmp" := take 0 data]> (∅ : files) in
  (load_snapshot None fs "jp" = load_snapshot None ∅ "jp" \/
   load_snapshot None fs "jp" = Ok (Some info1)) /\
  rtc (atomic_step "jp" (tmp_path "jp") data) (PcStart, ∅) (PcDone, (save_snapshot no_faults ∅ "jp" info1).2).
Proof.
  intros data fs.
  apply (snapshot_crash_safe ∅ "jp" info1 data (PcWriting 0) fs); [reflexivity|].
  apply rtc_once. apply step_open.
Defined.
End ConcreteCodec.
