(* ===== verification/HipCodec.v ===== *)
(** * HIP/1 messages

    [src/core/hip/codec.rs]: the message structs, and [rmp_serde] as an
    interface: a serializer per message with its round trip as law. *)

From S2P Require Import Prelude Errors RustStr.

Local Open Scope string_scope.

(** [struct Hello]. *)
Record Hello : Type := mkHello {
  proto : string;
  hello_version : Z;
  bearer_token : string;
  hello_region : string;
  hello_app_version : string;
  hello_asset_version : string;
  hello_asset_hash : string;
  run_id : string;
  unpacker_version : string;
  expected_max_frame : Z;
}.

(** [struct HelloAck]. *)
Record HelloAck : Type := mkHelloAck {
  session_id : string;
  server_version : string;
  max_frame : Z;
  max_in_flight_uploads : Z;
  sha256_required : bool;
  known_version : bool;
}.

(** [struct CheckBatchItem]. *)
Record CheckBatchItem : Type := mkCheckBatchItem {
  item_path : string;
  item_fingerprint : string;
  item_size : Z;
  item_provider : string;
}.

(** [struct CheckBatch]. *)
Record CheckBatchMsg : Type := mkCheckBatchMsg {
  check_batch_id : Z;
  items : list CheckBatchItem;
}.

(** [enum CheckAction]. *)
Inductive CheckAction : Type := SkipAction | UploadAction.

#[export] Instance CheckAction_eq_dec : EqDecision CheckAction.
Proof. solve_decision. Defined.

(** [enum Placement] and [enum PlacementHint], which mirrors it. *)
Inductive Placement : Type := Shared | Override.

#[export] Instance Placement_eq_dec : EqDecision Placement.
Proof. solve_decision. Defined.

(** [struct CheckAckItem]. *)
Record CheckAckItem : Type := mkCheckAckItem {
  ack_path : string;
  action : CheckAction;
  ack_item_placement : option Placement;
}.

(** [struct CheckResult]. *)
Record CheckResult : Type := mkCheckResult {
  batch_id : Z;
  results : list CheckAckItem;
}.

(** [struct UploadBegin]. *)
Record UploadBeginMsg : Type := mkUploadBeginMsg {
  begin_stream_id : Z;
  begin_bundle_path : string;
  begin_path : string;
  begin_fingerprint : string;
  begin_size : Z;
  content_type : option string;
}.

(** [struct UploadEnd]. *)
Record UploadEndMsg : Type := mkUploadEndMsg {
  end_stream_id : Z;
  total_bytes : Z;
  sha256 : string;
}.

(** [struct UploadAck]. *)
Record UploadAckMsg : Type := mkUploadAckMsg {
  ack_stream_id : Z;
  status : string;
  ack_placement : option Placement;
  server_sha256 : option string;
  storage_key : option string;
  ack_message : option string;
}.

(** [struct CommitStats]. *)
Record CommitStats : Type := mkCommitStats {
  skipped_by_layer1 : Z;
  skipped_by_check : Z;
  uploaded_shared : Z;
  uploaded_override : Z;
}.

(** [struct CommitBundleCompletion]. *)
Record CommitBundleCompletion : Type := mkCommitBundleCompletion {
  completion_path : string;
  completion_fingerprint : string;
  completion_source : string;
}.

#[export] Instance CommitBundleCompletion_eq_dec : EqDecision CommitBundleCompletion.
Proof. solve_decision. Defined.

(** [struct Commit]. *)
Record CommitMsg : Type := mkCommitMsg {
  bundle_count : Z;
  commit_stats : CommitStats;
  completed_bundles : list CommitBundleCompletion;
}.

(** [struct CommitAck]. *)
Record CommitAckMsg : Type := mkCommitAckMsg {
  version_id : Z;
  override_index_rebuilt : bool;
}.

(** [struct HipErrorPayload]. *)
Record HipErrorPayload : Type := mkHipErrorPayload {
  code : string;
  message : string;
  fatal : bool;
}.

(** [struct Window]. *)
Record WindowMsg : Type := mkWindowMsg { window_uploads : Z }.

(** [rmp_serde] on one message type. *)
Class MsgPack (T : Type) := {
  to_msgpack : T -> result bytes string;
  from_msgpack : bytes -> result T string;
  from_to_msgpack x b : to_msgpack x = Ok b -> from_msgpack b = Ok x;
}.

(** [codec::encode] and [codec::decode]: the library's error becomes a
    [HipError] ([impl From<rmp_serde::...::Error> for HipError]). *)
Definition encode_msg {T} `{MsgPack T} (value : T) : result bytes HipError :=
  result_map_err Encode (to_msgpack value).
Definition decode_msg {T} `{MsgPack T} (bs : bytes) : result T HipError :=
  result_map_err Decode (from_msgpack bs).

Lemma decode_encode_msg {T} `{MsgPack T} (x : T) b : encode_msg x = Ok b -> decode_msg b = Ok x.
Proof.
  unfold encode_msg, decode_msg. destruct (to_msgpack x) as [b'|] eqn:E; [|done].
  simpl. intros [= <-]. by rewrite (from_to_msgpack _ _ E).
Qed.

(** [validate_upload_ack] of [client.rs]. *)
Definition validate_upload_ack (ack : UploadAckMsg) : result UploadAckMsg HipError :=
  if String.eqb (status ack) "OK" then Ok ack else
  let msg := unwrap_or_default (ack_message ack) in
  if eq_ignore_ascii_case (status ack) "REJECTED"
     && contains "already present" (to_ascii_lowercase msg)
  then Ok ack
  else Err (Server (status ack) msg false).

Example ack_already_present :
  is_ok (validate_upload_ack (mkUploadAckMsg 7 "REJECTED" None None None (Some "already present"))) = true
  /\ is_ok (validate_upload_ack (mkUploadAckMsg 8 "REJECTED" None None None (Some "quota exceeded"))) = false.
Proof. by split. Qed.

(** ** A concrete serialization

    Every message type is countable, so it has an injective encoding as bytes
    that satisfies the law of [MsgPack]. *)
Module ConcreteMsg.
Ltac by_tuple f g := refine (inj_countable' f g _); by intros [].

#[export] Instance Placement_countable : Countable Placement.
Proof.
  by_tuple (fun p => match p with Shared => true | Override => false end)
    (fun b : bool => if b then Shared else Override).
Defined.
#[export] Instance CheckAction_countable : Countable CheckAction.
Proof.
  by_tuple (fun p => match p with SkipAction => true | UploadAction => false end)
    (fun b : bool => if b then SkipAction else UploadAction).
Defined.
#[export] Instance Hello_eq_dec : EqDecision Hello. Proof. solve_decision. Defined.
#[export] Instance Hello_countable : Countable Hello.
Proof.
  by_tuple (fun h => (proto h, hello_version h, bearer_token h, hello_region h, hello_app_version h,
      hello_asset_version h, hello_asset_hash h, run_id h, unpacker_version h, expected_max_frame h))
    (fun '(a, b, c, d, e, f, g, h, i, j) => mkHello a b c d e f g h i j).
Defined.
#[export] Instance HelloAck_eq_dec : EqDecision HelloAck. Proof. solve_decision. Defined.
#[export] Instance HelloAck_countable : Countable HelloAck.
Proof.
  by_tuple (fun h => (session_id h, server_version h, max_frame h, max_in_flight_uploads h,
      sha256_required h, known_version h)) (fun '(a, b, c, d, e, f) => mkHelloAck a b c d e f).
Defined.
#[export] Instance CheckBatchItem_eq_dec : EqDecision CheckBatchItem. Proof. solve_decision. Defined.
#[export] Instance CheckBatchItem_countable : Countable CheckBatchItem.
Proof.
  by_tuple (fun h => (item_path h, item_fingerprint h, item_size h, item_provider h))
    (fun '(a, b, c, d) => mkCheckBatchItem a b c d).
Defined.
#[export] Instance CheckBatchMsg_eq_dec : EqDecision CheckBatchMsg. Proof. solve_decision. Defined.
#[export] Instance CheckBatchMsg_countable : Countable CheckBatchMsg.
Proof. by_tuple (fun h => (check_batch_id h, items h)) (fun '(a, b) => mkCheckBatchMsg a b). Defined.
#[export] Instance CheckAckItem_eq_dec : EqDecision CheckAckItem. Proof. solve_decision. Defined.
#[export] Instance CheckAckItem_countable : Countable CheckAckItem.
Proof.
  by_tuple (fun h => (ack_path h, action h, ack_item_placement h)) (fun '(a, b, c) => mkCheckAckItem a b c).
Defined.
#[export] Instance CheckResult_eq_dec : EqDecision CheckResult. Proof. solve_decision. Defined.
#[export] Instance CheckResult_countable : Countable CheckResult.
Proof. by_tuple (fun h => (batch_id h, results h)) (fun '(a, b) => mkCheckResult a b). Defined.
#[export] Instance UploadBeginMsg_eq_dec : EqDecision UploadBeginMsg. Proof. solve_decision. Defined.
#[export] Instance UploadBeginMsg_countable : Countable UploadBeginMsg.
Proof.
  by_tuple (fun h => (begin_stream_id h, begin_bundle_path h, begin_path h, begin_fingerprint h,
      begin_size h, content_type h)) (fun '(a, b, c, d, e, f) => mkUploadBeginMsg a b c d e f).
Defined.
#[export] Instance UploadEndMsg_eq_dec : EqDecision UploadEndMsg. Proof. solve_decision. Defined.
#[export] Instance UploadEndMsg_countable : Countable UploadEndMsg.
Proof.
  by_tuple (fun h => (end_stream_id h, total_bytes h, sha256 h)) (fun '(a, b, c) => mkUploadEndMsg a b c).
Defined.
#[export] Instance UploadAckMsg_eq_dec : EqDecision UploadAckMsg. Proof. solve_decision. Defined.
#[export] Instance UploadAckMsg_countable : Countable UploadAckMsg.
Proof.
  by_tuple (fun h => (ack_stream_id h, status h, ack_placement h, server_sha256 h, storage_key h,
      ack_message h)) (fun '(a, b, c, d, e, f) => mkUploadAckMsg a b c d e f).
Defined.
#[export] Instance CommitStats_eq_dec : EqDecision CommitStats. Proof. solve_decision. Defined.
#[export] Instance CommitStats_countable : Countable CommitStats.
Proof.
  by_tuple (fun h => (skipped_by_layer1 h, skipped_by_check h, uploaded_shared h, uploaded_override h))
    (fun '(a, b, c, d) => mkCommitStats a b c d).
Defined.
#[export] Instance CommitBundleCompletion_countable : Countable CommitBundleCompletion.
Proof.
  by_tuple (fun h => (completion_path h, completion_fingerprint h, completion_source h))
    (fun '(a, b, c) => mkCommitBundleCompletion a b c).
Defined.
#[export] Instance CommitMsg_eq_dec : EqDecision CommitMsg. Proof. solve_decision. Defined.
#[export] Instance CommitMsg_countable : Countable CommitMsg.
Proof.
  by_tuple (fun h => (bundle_count h, commit_stats h, completed_bundles h)) (fun '(a, b, c) => mkCommitMsg a b c).
Defined.
#[export] Instance CommitAckMsg_eq_dec : EqDecision CommitAckMsg. Proof. solve_decision. Defined.
#[export] Instance CommitAckMsg_countable : Countable CommitAckMsg.
Proof.
  by_tuple (fun h => (version_id h, override_index_rebuilt h)) (fun '(a, b) => mkCommitAckMsg a b).
Defined.
#[export] Instance HipErrorPayload_eq_dec : EqDecision HipErrorPayload. Proof. solve_decision. Defined.
#[export] Instance HipErrorPayload_countable : Countable HipErrorPayload.
Proof. by_tuple (fun h => (code h, message h, fatal h)) (fun '(a, b, c) => mkHipErrorPayload a b c). Defined.
#[export] Instance WindowMsg_eq_dec : EqDecision WindowMsg. Proof. solve_decision. Defined.
#[export] Instance WindowMsg_countable : Countable WindowMsg.
Proof. by_tuple (fun h => window_uploads h) mkWindowMsg. Defined.

#[export] Instance countable_msgpack {T} `{Countable T} : MsgPack T.
Proof.
  refine {| to_msgpack x := Ok (pos_bytes (encode x));
            from_msgpack b := ok_or (decode (bytes_pos b)) "not a message" |}.
  intros x b [= <-]. by rewrite bytes_pos_bytes, decode_encode.
Defined.
End ConcreteMsg.
