(* ===== verification/HipSession.v ===== *)
(** * HIP sessions

    [src/core/hip/client.rs].  A session is shared by the tasks that issue
    requests, the writer task and the reader task.  Its state is a record; the
    atomic sections of those tasks are functions on it, and [session_step] is
    their interleaving.

    A oneshot channel is a name [chan] with a state: pending, a delivered reply,
    or dropped sender.  The sender lives in exactly one waiter slot, or nowhere.
    Two fields exist for the proofs only: [s_owner] records the request each
    channel was created for, and [s_active] counts the uploads holding a permit. *)

From Stdlib Require Import Ascii.
From stdpp Require Import relations.
From S2P Require Import Prelude Errors RustStr HipCodec Frame.
Import Frame.Hip.

Local Open Scope string_scope.
Local Open Scope list_scope.
Local Open Scope Z_scope.
Local Open Scope rust_scope.

(** [struct HipClientConfig]; durations in milliseconds. *)
Record HipClientConfig : Type := mkHipClientConfig {
  endpoint : string;
  client_bearer_token : string;
  client_tls_enabled : bool;
  client_tls_ca_file : option string;
  handshake_timeout : Z;
  request_timeout : Z;
  max_frame_bytes : Z;
  chunk_size_bytes : Z;
  heartbeat_interval : Z;
  client_unpacker_version : string;
}.

(** [struct HelloParams]. *)
Record HelloParams : Type := mkHelloParams {
  params_region : string;
  params_app_version : string;
  params_asset_version : string;
  params_asset_hash : string;
  params_run_id : string;
}.

(** [split_host_port]: the last colon separates the port. *)
Fixpoint rsplit_colon (s : string) : option (string * string) :=
  match s with
  | EmptyString => None
  | String a s' =>
      match rsplit_colon s' with
      | Some (h, p) => Some (String a h, p)
      | None => if Ascii.eqb a ":"%char then Some ("", s') else None
      end
  end.
Definition split_host_port (endpoint : string) : result (string * string) HipError :=
  ok_or (rsplit_colon endpoint) (HipConfigError ("hip endpoint `" +:+ endpoint +:+ "` missing :port")).

(** ** State *)

Abbreviation chan := nat.

Inductive reply : Type :=
| RCheck (r : CheckResult)
| RUpload (a : UploadAckMsg)
| RCommit (a : CommitAckMsg).

Inductive chan_state : Type := Pending | Sent (r : reply) | Dropped.

(** The request a channel belongs to. *)
Inductive request : Type := QCheck (batch_id : Z) | QUpload (stream_id : Z) | QCommit.

#[export] Instance request_eq_dec : EqDecision request.
Proof. solve_decision. Defined.

(** [struct HipSessionInner], with the channels of the waiters. *)
Record session : Type := mkSession {
  s_hello_ack : HipCodec.HelloAck;
  s_config : HipClientConfig;
  s_writer_tx : bool;                  (* writer_tx is Some *)
  s_writer_alive : bool;               (* the writer task still holds the receiver *)
  s_queue : list Frame;                (* the mpsc queue *)
  s_wire : bytes;                      (* bytes written to the socket *)
  s_batch_id : Z;                      (* AtomicU64 *)
  s_stream_id : Z;                     (* AtomicU32 *)
  s_permits : nat;                     (* upload_semaphore *)
  s_active : nat;
  s_check_waiters : gmap Z chan;
  s_upload_waiters : gmap Z chan;
  s_commit_waiter : option chan;
  s_chans : gmap chan chan_state;
  s_owner : gmap chan request;
}.

(** Functional updates of the fields that change. *)
Definition with_queue (s : session) (q : list Frame) : session :=
  mkSession (s_hello_ack s) (s_config s) (s_writer_tx s) (s_writer_alive s) q (s_wire s)
    (s_batch_id s) (s_stream_id s) (s_permits s) (s_active s) (s_check_waiters s) (s_upload_waiters s)
    (s_commit_waiter s) (s_chans s) (s_owner s).
Definition with_writer (s : session) (tx alive : bool) (q : list Frame) (wire : bytes) : session :=
  mkSession (s_hello_ack s) (s_config s) tx alive q wire
    (s_batch_id s) (s_stream_id s) (s_permits s) (s_active s) (s_check_waiters s) (s_upload_waiters s)
    (s_commit_waiter s) (s_chans s) (s_owner s).
Definition with_ids (s : session) (b st : Z) : session :=
  mkSession (s_hello_ack s) (s_config s) (s_writer_tx s) (s_writer_alive s) (s_queue s) (s_wire s)
    b st (s_permits s) (s_active s) (s_check_waiters s) (s_upload_waiters s)
    (s_commit_waiter s) (s_chans s) (s_owner s).
Definition with_permits (s : session) (n active : nat) : session :=
  mkSession (s_hello_ack s) (s_config s) (s_writer_tx s) (s_writer_alive s) (s_queue s) (s_wire s)
    (s_batch_id s) (s_stream_id s) n active (s_check_waiters s) (s_upload_waiters s)
    (s_commit_waiter s) (s_chans s) (s_owner s).
Definition with_waiters (s : session) (cw uw : gmap Z chan) (mw : option chan)
    (chans : gmap chan chan_state) (owner : gmap chan request) : session :=
  mkSession (s_hello_ack s) (s_config s) (s_writer_tx s) (s_writer_alive s) (s_queue s) (s_wire s)
    (s_batch_id s) (s_stream_id s) (s_permits s) (s_active s) cw uw mw chans owner.

(** ** Channels *)

(** [oneshot::channel()]: a fresh channel, remembered as [q]'s. *)
Definition new_chan (s : session) (q : request) : chan * session :=
  let c := fresh (dom (s_chans s)) in
  (c, with_waiters s (s_check_waiters s) (s_upload_waiters s) (s_commit_waiter s)
        (<[c := Pending]> (s_chans s)) (<[c := q]> (s_owner s))).

(** Dropping a sender that was not used. *)
Definition drop_chan (c : chan) (chans : gmap chan chan_state) : gmap chan chan_state :=
  <[c := Dropped]> chans.
Definition drop_opt (o : option chan) (chans : gmap chan chan_state) : gmap chan chan_state :=
  match o with Some c => drop_chan c chans | None => chans end.
(** Dropping all senders of a waiter map ([drain().for_each(drop)]). *)
Definition drop_all (m : gmap Z chan) (chans : gmap chan chan_state) : gmap chan chan_state :=
  foldr (fun e acc => drop_chan e.2 acc) chans (map_to_list m).

(** ** Requests *)

(** [HipSessionInner::next_batch_id] and [next_stream_id]: [fetch_add], which wraps. *)
Definition next_batch_id (s : session) : Z * session :=
  (s_batch_id s, with_ids s (wrapping_add 64 (s_batch_id s) 1) (s_stream_id s)).
Definition next_stream_id (s : session) : Z * session :=
  (s_stream_id s, with_ids s (s_batch_id s) (wrapping_add 32 (s_stream_id s) 1)).

(** [HipSessionInner::send_frame], for a queue with room. *)
Definition send_frame (s : session) (t : FrameType) (p : bytes) : result unit HipError * session :=
  if s_writer_tx s then
    if s_writer_alive s then (Ok tt, with_queue s (s_queue s ++ [mkFrame t p]))
    else (Err (SessionClosed "writer task terminated"), s)
  else (Err (SessionClosed "session closed"), s).

(** [waiters.insert(batch_id, tx)]: a sender already there is dropped. *)
Definition register_check (s : session) (b : Z) (c : chan) : session :=
  with_waiters s (<[b := c]> (s_check_waiters s)) (s_upload_waiters s) (s_commit_waiter s)
    (drop_opt (s_check_waiters s !! b) (s_chans s)) (s_owner s).
Definition register_upload (s : session) (i : Z) (c : chan) : session :=
  with_waiters s (s_check_waiters s) (<[i := c]> (s_upload_waiters s)) (s_commit_waiter s)
    (drop_opt (s_upload_waiters s !! i) (s_chans s)) (s_owner s).

(** The end of an upload, however it ends: the permit is released. *)
Definition release_permit (s : session) : session :=
  with_permits s (S (s_permits s)) (pred (s_active s)).

(** [HipSession::max_in_flight_uploads]. *)
Definition max_in_flight (a : HipCodec.HelloAck) : Z := Z.max (HipCodec.max_in_flight_uploads a) 1.

Section Codec.
Context `{MsgPack HipCodec.Hello, MsgPack HipCodec.HelloAck, MsgPack CheckBatchMsg, MsgPack CheckResult,
          MsgPack UploadBeginMsg, MsgPack UploadEndMsg, MsgPack UploadAckMsg,
          MsgPack CommitMsg, MsgPack CommitAckMsg, MsgPack HipErrorPayload, MsgPack WindowMsg}.

(** The first part of [check_batch]: a fresh identifier, and its waiter registered
    under the lock. *)
Definition open_check (s : session) : chan * Z * session :=
  let '(b, s1) := next_batch_id s in
  let '(c, s2) := new_chan s1 (QCheck b) in
  (c, b, register_check s2 b c).

(** [HipSession::check_batch] up to the point where it waits for the reply on
    the returned channel; [None] is the empty batch, which needs no request. *)
Definition check_batch (s : session) (items : list CheckBatchItem)
    : result (option chan) HipError * session :=
  match items with
  | [] => (Ok None, s)
  | _ =>
      let '(c, b, s3) := open_check s in
      match encode_msg (mkCheckBatchMsg b items) with
      | Err e => (Err e, s3)
      | Ok p =>
          match send_frame s3 Frame.Hip.CheckBatch p with
          | (Err e, s4) => (Err e, s4)
          | (Ok _, s4) => (Ok (Some c), s4)
          end
      end
  end.

(** What a caller gets from its channel: nothing yet, the reply, or the error of
    a dropped sender. *)
Definition await_chan (s : session) (c : chan) : option (result reply HipError) :=
  match s_chans s !! c with
  | Some (Sent r) => Some (Ok r)
  | Some Dropped => Some (Err (SessionClosed "reply dropped"))
  | _ => None
  end.

(** The first part of [upload_stream]: the permit, the identifier, the waiter;
    [None] when there is no permit. *)
Definition open_upload (s : session) : option (chan * Z * session) :=
  match s_permits s with
  | O => None
  | S n =>
      let '(i, s1) := next_stream_id (with_permits s n (S (s_active s))) in
      let '(c, s2) := new_chan s1 (QUpload i) in
      Some (c, i, register_upload s2 i c)
  end.

(** [HipSession::upload_stream] up to UPLOAD_BEGIN: takes a permit, registers the
    waiter and announces the stream.  [None] when it must wait for a permit.
    An error returns the permit (it is dropped with the frame). *)
Definition upload_begin (s : session) (bundle_path asset_path fingerprint : string) (size : Z)
    : option (result (chan * Z) HipError * session) :=
  match open_upload s with
  | None => None
  | Some (c, i, s1) =>
      Some
        match encode_msg (mkUploadBeginMsg i bundle_path asset_path fingerprint size
                            (Some "application/octet-stream")) with
        | Err e => (Err e, release_permit s1)
        | Ok p =>
            match send_frame s1 UploadBegin p with
            | (Err e, s2) => (Err e, release_permit s2)
            | (Ok _, s2) => (Ok (c, i), s2)
            end
        end
  end.

(** The chunk loop of [upload_stream]: [reads] are the results of
    [reader.read(&mut chunk)] before the empty one.  Returns the number of bytes
    sent. *)
Fixpoint upload_chunks (s : session) (stream_id : Z) (total : Z) (reads : list bytes)
    : result Z HipError * session :=
  match reads with
  | [] => (Ok total, s)
  | chunk :: reads' =>
      match send_frame s UploadChunk (to_be_bytes 4 stream_id ++ chunk) with
      | (Err e, s') => (Err e, s')
      | (Ok _, s') => upload_chunks s' stream_id (total + Z.of_nat (length chunk)) reads'
      end
  end.

(** The rest of [upload_stream] after UPLOAD_BEGIN: the chunks, the size check and
    UPLOAD_END.  [sha256_hex] is the digest of the bytes streamed. *)
Definition upload_body (sha256_hex : bytes -> string) (s : session) (stream_id size : Z)
    (reads : list bytes) : result unit HipError * session :=
  match upload_chunks s stream_id 0 reads with
  | (Err e, s') => (Err e, s')
  | (Ok total, s') =>
      if negb (total =? size) then (Err (Protocol "upload size mismatch"), s')
      else
        match encode_msg (mkUploadEndMsg stream_id total (sha256_hex (concat reads))) with
        | Err e => (Err e, s')
        | Ok p => send_frame s' UploadEnd p
        end
  end.

(** The outcome of waiting on an upload's channel; [ms] is the timeout. *)
Definition upload_outcome (ms : Z) (o : option (result reply HipError)) : result UploadAckMsg HipError :=
  match o with
  | Some (Ok (RUpload a)) => validate_upload_ack a
  | Some (Ok _) => Err (Protocol "reply of another kind")
  | Some (Err e) => Err e
  | None => Err (HipTimeout ms)
  end.

(** [upload_stream] from the 10 ms wait after UPLOAD_BEGIN: an early UPLOAD_ACK (or a
    dropped sender) ends the upload there, otherwise the content is streamed. [None]
    is the success of the streaming part, which then waits for the reply. *)
Definition upload_after_begin (sha256_hex : bytes -> string) (s : session) (c : chan)
    (stream_id size : Z) (reads : list bytes) : option (result UploadAckMsg HipError) * session :=
  match await_chan s c with
  | Some o => (Some (upload_outcome 10 (Some o)), release_permit s)
  | None =>
      match upload_body sha256_hex s stream_id size reads with
      | (Err e, s') => (Some (Err e), release_permit s')
      | (Ok _, s') => (None, s')
      end
  end.

(** The end of [upload_stream]: the reply, or the timeout. *)
Definition upload_finish (s : session) (c : chan) : result UploadAckMsg HipError * session :=
  (upload_outcome (request_timeout (s_config s)) (await_chan s c), release_permit s).

(** The first part of [commit]: the waiter slot, taken under the lock. *)
Definition open_commit (s : session) : option (chan * session) :=
  match s_commit_waiter s with
  | Some _ => None
  | None =>
      let '(c, s1) := new_chan s QCommit in
      Some (c, with_waiters s1 (s_check_waiters s1) (s_upload_waiters s1) (Some c)
                 (s_chans s1) (s_owner s1))
  end.

(** [HipSession::commit] up to the wait. *)
Definition commit (s : session) (bundle_count : Z) (stats : CommitStats)
    (completed : list CommitBundleCompletion) : result chan HipError * session :=
  match open_commit s with
  | None => (Err (Protocol "commit already in flight"), s)
  | Some (c, s1) =>
      match encode_msg (mkCommitMsg bundle_count stats completed) with
      | Err e => (Err e, s1)
      | Ok p =>
          match send_frame s1 Frame.Hip.Commit p with
          | (Err e, s2) => (Err e, s2)
          | (Ok _, s2) => (Ok c, s2)
          end
      end
  end.

(** ** The reader *)

(** [fail_all_waiters]. *)
Definition fail_all_waiters (s : session) : session :=
  with_waiters s ∅ ∅ None
    (drop_opt (s_commit_waiter s) (drop_all (s_upload_waiters s) (drop_all (s_check_waiters s) (s_chans s))))
    (s_owner s).

(** [dispatch_frame]. *)
Definition dispatch_frame (s : session) (f : Frame) : result unit HipError * session :=
  match frame_type f with
  | CheckAck =>
      match decode_msg (payload f) with
      | Err e => (Err e, s)
      | Ok ack =>
          match s_check_waiters s !! HipCodec.batch_id ack with
          | Some c =>
              (Ok tt, with_waiters s (delete (HipCodec.batch_id ack) (s_check_waiters s)) (s_upload_waiters s)
                        (s_commit_waiter s) (<[c := Sent (RCheck ack)]> (s_chans s)) (s_owner s))
          | None => (Ok tt, s)
          end
      end
  | UploadAck =>
      match decode_msg (payload f) with
      | Err e => (Err e, s)
      | Ok ack =>
          match s_upload_waiters s !! ack_stream_id ack with
          | Some c =>
              (Ok tt, with_waiters s (s_check_waiters s) (delete (ack_stream_id ack) (s_upload_waiters s))
                        (s_commit_waiter s) (<[c := Sent (RUpload ack)]> (s_chans s)) (s_owner s))
          | None => (Ok tt, s)
          end
      end
  | CommitAck =>
      match decode_msg (payload f) with
      | Err e => (Err e, s)
      | Ok ack =>
          match s_commit_waiter s with
          | Some c =>
              (Ok tt, with_waiters s (s_check_waiters s) (s_upload_waiters s) None
                        (<[c := Sent (RCommit ack)]> (s_chans s)) (s_owner s))
          | None => (Ok tt, s)
          end
      end
  | Window =>
      match @decode_msg WindowMsg _ (payload f) with
      | Err e => (Err e, s)
      | Ok _ => (Ok tt, s)
      end
  | Ping => send_frame s Pong []
  | Pong => (Ok tt, s)
  | ErrorFrame =>
      match @decode_msg HipErrorPayload _ (payload f) with
      | Err e => (Err e, s)
      | Ok p =>
          let s' := fail_all_waiters s in
          if fatal p then (Err (Server (code p) (message p) true), s') else (Ok tt, s')
      end
  | _ => (Err (Protocol "unexpected server frame"), s)
  end.

(** One round of the loop of [spawn_reader]: reads a frame and dispatches it; an
    error clears the waiters and ends the loop ([false]). *)
Definition reader_round (s : session) (incoming : bytes) : bool * bytes * session :=
  match read_frame incoming (max_frame_bytes (s_config s)) with
  | (Err _, rest) => (false, rest, fail_all_waiters s)
  | (Ok f, rest) =>
      match dispatch_frame s f with
      | (Err _, s') => (false, rest, fail_all_waiters s')
      | (Ok _, s') => (true, rest, s')
      end
  end.

(** ** The writer *)

(** One frame of [spawn_writer]'s loop: taken from the queue and written; a
    frame that does not encode ends the task, and what is queued is lost. *)
Definition writer_round (s : session) : session :=
  match s_queue s with
  | [] => s
  | f :: q =>
      match write_frame (s_wire s) f (max_frame_bytes (s_config s)) with
      | Ok wire => with_writer s (s_writer_tx s) (s_writer_alive s) q wire
      | Err _ => with_writer s (s_writer_tx s) false [] (s_wire s)
      end
  end.

(** The heartbeat branch of the same loop. *)
Definition writer_ping (s : session) : session :=
  match write_frame (s_wire s) (mkFrame Ping []) (max_frame_bytes (s_config s)) with
  | Ok wire => with_writer s (s_writer_tx s) (s_writer_alive s) (s_queue s) wire
  | Err _ => with_writer s (s_writer_tx s) false [] (s_wire s)
  end.

(** [HipSession::close]: BYE, then the sender is dropped. *)
Definition close (s : session) : session :=
  let s1 := (send_frame s Bye []).2 in
  with_writer s1 false (s_writer_alive s1) (s_queue s1) (s_wire s1).

(** ** Handshake *)

(** The HELLO of [HipSession::start]. *)
Definition hello_of (config : HipClientConfig) (p : HelloParams) : HipCodec.Hello :=
  mkHello "hip" 1 (client_bearer_token config) (params_region p) (params_app_version p)
    (params_asset_version p) (params_asset_hash p) (params_run_id p)
    (client_unpacker_version config) (max_frame_bytes config).

Definition with_max_frame (c : HipClientConfig) (m : Z) : HipClientConfig :=
  mkHipClientConfig (endpoint c) (client_bearer_token c) (client_tls_enabled c) (client_tls_ca_file c)
    (handshake_timeout c) (request_timeout c) m (chunk_size_bytes c) (heartbeat_interval c)
    (client_unpacker_version c).

(** [HipSession::start] on a stream that will deliver [incoming]: the session and
    what is left to read. *)
Definition start (config : HipClientConfig) (p : HelloParams) (incoming : bytes)
    : result (session * bytes) HipError :=
  let? hello := encode_msg (hello_of config p) in
  let? wire := write_frame [] (mkFrame Frame.Hip.Hello hello) (max_frame_bytes config) in
  let '(r, rest) := read_frame incoming (max_frame_bytes config) in
  let? ack_frame := r in
  let? ack :=
    match frame_type ack_frame with
    | Frame.Hip.HelloAck => @decode_msg HipCodec.HelloAck _ (payload ack_frame)
    | ErrorFrame =>
        let? e := @decode_msg HipErrorPayload _ (payload ack_frame) in
        Err (Handshake ("server rejected HELLO: " +:+ message e +:+ " (" +:+ code e +:+ ")"))
    | _ => Err (Handshake "unexpected frame type during handshake")
    end in
  let effective := with_max_frame config (Z.min (max_frame ack) (max_frame_bytes config)) in
  Ok (mkSession ack effective true true [] wire 1 1 (Z.to_nat (max_in_flight ack)) 0 ∅ ∅ None ∅ ∅, rest).

(** ** Interleaving *)

(** The atomic sections of the tasks that share a session, in any order: the
    requests open their slot under a lock, any task sends any frame, an upload
    returns its permit, and the reader, the writer and [close] run. *)
Inductive session_step : session -> session -> Prop :=
| do_open_check s c b s' : open_check s = (c, b, s') -> session_step s s'
| do_open_upload s c i s' : open_upload s = Some (c, i, s') -> session_step s s'
| do_open_commit s c s' : open_commit s = Some (c, s') -> session_step s s'
| do_send s t p r s' : send_frame s t p = (r, s') -> session_step s s'
| do_release s : (0 < s_active s)%nat -> session_step s (release_permit s)
| do_reader s incoming go rest s' : reader_round s incoming = (go, rest, s') -> session_step s s'
| do_writer s : session_step s (writer_round s)
| do_ping s : session_step s (writer_ping s)
| do_close s : session_step s (close s).
End Codec.

(** ** Routing invariant *)

(** The waiter slots and channels of a session. *)
Record wstate : Type := mkW {
  w_check : gmap Z chan;
  w_upload : gmap Z chan;
  w_commit : option chan;
  w_chans : gmap chan chan_state;
  w_owner : gmap chan request;
}.
Definition wof (s : session) : wstate :=
  mkW (s_check_waiters s) (s_upload_waiters s) (s_commit_waiter s) (s_chans s) (s_owner s).

(** The slot of a request holds channel [c]. *)
Definition slot_holds (w : wstate) (q : request) (c : chan) : Prop :=
  match q with
  | QCheck b => w_check w !! b = Some c
  | QUpload i => w_upload w !! i = Some c
  | QCommit => w_commit w = Some c
  end.

(** A reply answers a request: it carries the request's identifier. *)
Definition answers (r : reply) (q : request) : Prop :=
  match r, q with
  | RCheck x, QCheck b => HipCodec.batch_id x = b
  | RUpload a, QUpload i => ack_stream_id a = i
  | RCommit _, QCommit => True
  | _, _ => False
  end.

Record winv (w : wstate) : Prop := {
  (* a sender in a slot belongs to that slot's request and is unused *)
  winv_slot q c : slot_holds w q c -> w_chans w !! c = Some Pending /\ w_owner w !! c = Some q;
  (* an unused sender is in its request's slot *)
  winv_pending c : w_chans w !! c = Some Pending -> exists q, w_owner w !! c = Some q /\ slot_holds w q c;
  (* a delivered reply answers the request the channel was created for *)
  winv_sent c r : w_chans w !! c = Some (Sent r) -> exists q, w_owner w !! c = Some q /\ answers r q;
}.

(** The sender of slot [q] is replaced, the old one (if any) dropped, by the
    sender of a channel that is not in use. *)
Definition w_open (w : wstate) (q : request) (c : chan) : wstate :=
  let chans := <[c := Pending]> (w_chans w) in
  let owner := <[c := q]> (w_owner w) in
  match q with
  | QCheck b => mkW (<[b := c]> (w_check w)) (w_upload w) (w_commit w)
                  (drop_opt (w_check w !! b) chans) owner
  | QUpload i => mkW (w_check w) (<[i := c]> (w_upload w)) (w_commit w)
                  (drop_opt (w_upload w !! i) chans) owner
  | QCommit => mkW (w_check w) (w_upload w) (Some c) (drop_opt (w_commit w) chans) owner
  end.

(** The sender of slot [q] is taken and used for [r]. *)
Definition w_deliver (w : wstate) (q : request) (c : chan) (r : reply) : wstate :=
  let chans := <[c := Sent r]> (w_chans w) in
  match q with
  | QCheck b => mkW (delete b (w_check w)) (w_upload w) (w_commit w) chans (w_owner w)
  | QUpload i => mkW (w_check w) (delete i (w_upload w)) (w_commit w) chans (w_owner w)
  | QCommit => mkW (w_check w) (w_upload w) None chans (w_owner w)
  end.

(** What a slot holds after it was opened with [c], or emptied. *)
Lemma slot_open w q c q' c' :
  slot_holds (w_open w q c) q' c' <-> if decide (q = q') then c' = c else slot_holds w q' c'.
Proof.
  destruct (decide (q = q')) as [<-|Hne].
  - destruct q; simpl; simplify_map_eq; naive_solver.
  - destruct q, q'; simpl; try done; rewrite lookup_insert_ne by congruence; done.
Qed.

Lemma slot_deliver w q c r q' c' :
  slot_holds (w_deliver w q c r) q' c' <-> q <> q' /\ slot_holds w q' c'.
Proof.
  destruct q, q'; simpl; try naive_solver; rewrite lookup_delete_Some; naive_solver.
Qed.

Definition slot_of (w : wstate) (q : request) : option chan :=
  match q with
  | QCheck b => w_check w !! b
  | QUpload i => w_upload w !! i
  | QCommit => w_commit w
  end.

Lemma slot_of_holds w q c : slot_of w q = Some c <-> slot_holds w q c.
Proof. by destruct q. Qed.

Lemma chans_open w q c :
  w_chans (w_open w q c) = drop_opt (slot_of w q) (<[c := Pending]> (w_chans w)).
Proof. by destruct q. Qed.
Lemma owner_open w q c : w_owner (w_open w q c) = <[c := q]> (w_owner w).
Proof. by destruct q. Qed.
Lemma chans_deliver w q c r : w_chans (w_deliver w q c r) = <[c := Sent r]> (w_chans w).
Proof. by destruct q. Qed.
Lemma owner_deliver w q c r : w_owner (w_deliver w q c r) = w_owner w.
Proof. by destruct q. Qed.

Lemma lookup_drop_opt o chans c :
  drop_opt o chans !! c = if decide (o = Some c) then Some Dropped else chans !! c.
Proof.
  unfold drop_opt, drop_chan. destruct o as [c'|]; [|done].
  destruct (decide (Some c' = Some c)) as [[= ->]|Hne]; [by simplify_map_eq|].
  rewrite lookup_insert_ne; [done | congruence].
Qed.

Lemma winv_open w q c : winv w -> w_chans w !! c = None -> winv (w_open w q c).
Proof.
  intros [Hslot Hpend Hsent] Hc.
  assert (Hfresh : forall q', ~ slot_holds w q' c)
    by (intros q' [? ?]%Hslot; congruence).
  split.
  - intros q' c'. rewrite slot_open, chans_open, owner_open, lookup_drop_opt.
    case_decide as Hq; [intros ->; subst q'|intros Hs].
    + rewrite decide_False by (rewrite slot_of_holds; apply Hfresh). by simplify_map_eq.
    + destruct (Hslot _ _ Hs) as [Hp Ho].
      rewrite decide_False.
      * assert (c <> c') by (intros ->; congruence). by simplify_map_eq.
      * rewrite slot_of_holds. intros [_ ?]%Hslot. congruence.
  - intros c'. rewrite chans_open, owner_open, lookup_drop_opt.
    case_decide as Hold; [done|]. intros Hp.
    destruct (decide (c = c')) as [<-|Hne].
    + exists q. rewrite slot_open, decide_True by done. by simplify_map_eq.
    + rewrite lookup_insert_ne in Hp by done. apply Hpend in Hp as (q' & Ho & Hs).
      exists q'. rewrite lookup_insert_ne by done. split; [done|].
      rewrite slot_open, decide_False; [done|]. intros <-. by apply slot_of_holds in Hs.
  - intros c' r. rewrite chans_open, owner_open, lookup_drop_opt.
    case_decide; [done|]. destruct (decide (c = c')) as [<-|Hne]; [by simplify_map_eq|].
    rewrite !lookup_insert_ne by done. apply Hsent.
Qed.

Lemma winv_deliver w q c r :
  winv w -> slot_holds w q c -> answers r q -> winv (w_deliver w q c r).
Proof.
  intros [Hslot Hpend Hsent] Hs Ha. destruct (Hslot _ _ Hs) as [Hp Ho]. split.
  - intros q' c' [Hne Hs']%slot_deliver. rewrite chans_deliver, owner_deliver.
    destruct (Hslot _ _ Hs') as [Hp' Ho']. assert (c <> c') by (intros ->; congruence).
    by simplify_map_eq.
  - intros c'. rewrite chans_deliver, owner_deliver.
    destruct (decide (c = c')) as [<-|Hne]; [by simplify_map_eq|].
    rewrite lookup_insert_ne by done. intros (q' & Ho' & Hs')%Hpend. exists q'. split; [done|].
    apply slot_deliver. split; [|done]. intros <-.
    apply slot_of_holds in Hs, Hs'. congruence.
  - intros c' r'. rewrite chans_deliver, owner_deliver.
    destruct (decide (c = c')) as [<-|Hne].
    + rewrite lookup_insert_eq. intros [= <-]. by exists q.
    + rewrite lookup_insert_ne by done. apply Hsent.
Qed.

Lemma lookup_drop_all m chans c :
  drop_all m chans !! c =
  if decide (c ∈ (map_to_list m).*2) then Some Dropped else chans !! c.
Proof.
  unfold drop_all, drop_chan. induction (map_to_list m) as [|[k c'] l IH]; simpl; [done|].
  destruct (decide (c' = c)) as [->|Hne].
  - rewrite lookup_insert_eq, decide_True by apply list_elem_of_here. done.
  - rewrite lookup_insert_ne by done. rewrite IH. apply decide_ext.
    rewrite elem_of_cons. naive_solver.
Qed.

Lemma elem_of_senders (m : gmap Z chan) c : c ∈ (map_to_list m).*2 <-> exists k, m !! k = Some c.
Proof.
  rewrite list_elem_of_fmap. split.
  - intros ([k c'] & -> & Hk%elem_of_map_to_list). by exists k.
  - intros [k Hk]. exists (k, c). by rewrite elem_of_map_to_list.
Qed.

(** The channels after [fail_all_waiters]: exactly the pending ones are dropped. *)
Lemma lookup_fail_all s c :
  winv (wof s) ->
  s_chans (fail_all_waiters s) !! c =
  match s_chans s !! c with Some Pending => Some Dropped | x => x end.
Proof.
  intros [Hslot Hpend Hsent]. unfold fail_all_waiters. simpl.
  rewrite lookup_drop_opt, !lookup_drop_all.
  assert (Hslots : forall q, slot_holds (wof s) q c -> s_chans s !! c = Some Pending)
    by (intros q Hq; by apply (Hslot q)).
  destruct (decide (s_commit_waiter s = Some c)) as [Hc|Hc]; [by rewrite (Hslots QCommit)|].
  destruct (decide (c ∈ (map_to_list (s_upload_waiters s)).*2)) as [[k Hk]%elem_of_senders|Hu];
    [by rewrite (Hslots (QUpload k))|].
  destruct (decide (c ∈ (map_to_list (s_check_waiters s)).*2)) as [[k Hk]%elem_of_senders|Hk];
    [by rewrite (Hslots (QCheck k))|].
  destruct (s_chans s !! c) as [[]|] eqn:E; try done.
  apply Hpend in E as ([b|i|] & _ & Hs); simpl in Hs; [| |done].
  - destruct Hk. apply elem_of_senders. eauto.
  - destruct Hu. apply elem_of_senders. eauto.
Qed.

Lemma winv_fail_all s : winv (wof s) -> winv (wof (fail_all_waiters s)).
Proof.
  intros Hinv. split; unfold wof at 1; cbn [w_chans w_owner].
  - intros [b|i|] c; simpl; by rewrite ?lookup_empty.
  - intros c. rewrite (lookup_fail_all s c Hinv). by destruct (s_chans s !! c) as [[]|].
  - intros c r. rewrite (lookup_fail_all s c Hinv).
    destruct (s_chans s !! c) as [[]|] eqn:E; try done. intros [= <-].
    by apply (winv_sent _ Hinv c).
Qed.

(** ** Every step preserves the invariant *)

Definition session_inv (s : session) : Prop :=
  winv (wof s) /\
  (s_permits s + s_active s = Z.to_nat (max_in_flight (s_hello_ack s)))%nat.

(** What a step that only touches the queue, the wire or the identifiers keeps. *)
Definition same_table (s s' : session) : Prop :=
  wof s' = wof s /\ s_permits s' = s_permits s /\ s_active s' = s_active s /\
  s_hello_ack s' = s_hello_ack s.

#[export] Instance same_table_refl : Reflexive same_table.
Proof. by repeat split. Qed.
#[export] Instance same_table_trans : Transitive same_table.
Proof. intros a b c (? & ? & ? & ?) (? & ? & ? & ?). repeat split; congruence. Qed.

Lemma same_table_inv s s' : same_table s s' -> session_inv s -> session_inv s'.
Proof. intros (E1 & E2 & E3 & E4) [? ?]. split; [by rewrite E1 | by rewrite E2, E3, E4]. Qed.

Lemma send_frame_table s t p r s' : send_frame s t p = (r, s') -> same_table s s'.
Proof.
  unfold send_frame. destruct (s_writer_tx s); [destruct (s_writer_alive s)|];
    intros; simplify_eq; by repeat split.
Qed.

Lemma upload_chunks_table s i total reads r s' :
  upload_chunks s i total reads = (r, s') -> same_table s s'.
Proof.
  revert s total. induction reads as [|c reads IH]; intros s total; simpl; [by intros [= _ <-]|].
  destruct (send_frame s UploadChunk _) as [[u|e] s1] eqn:E; apply send_frame_table in E.
  - intros H. etrans; [done | by eapply IH].
  - by intros [= _ <-].
Qed.

Lemma new_chan_fresh s q c s' : new_chan s q = (c, s') -> s_chans s !! c = None.
Proof. intros [= <- _]. apply not_elem_of_dom. apply is_fresh. Qed.

Lemma session_inv_open s q c s2 :
  session_inv s -> s_chans s !! c = None -> wof s2 = w_open (wof s) q c ->
  s_permits s2 = s_permits s -> s_active s2 = s_active s -> s_hello_ack s2 = s_hello_ack s ->
  session_inv s2.
Proof.
  intros [Hw Hp] Hc E E1 E2 E3. split; [rewrite E; by apply winv_open | by rewrite E1, E2, E3].
Qed.

Lemma session_inv_deliver s q c r s2 :
  session_inv s -> slot_holds (wof s) q c -> answers r q -> wof s2 = w_deliver (wof s) q c r ->
  s_permits s2 = s_permits s -> s_active s2 = s_active s -> s_hello_ack s2 = s_hello_ack s ->
  session_inv s2.
Proof.
  intros [Hw Hp] Hs Ha E E1 E2 E3. split; [rewrite E; by apply winv_deliver | by rewrite E1, E2, E3].
Qed.

Lemma session_inv_fail s : session_inv s -> session_inv (fail_all_waiters s).
Proof. intros [Hw Hp]. split; [by apply winv_fail_all | done]. Qed.

Section Preservation.
Context `{MsgPack HipCodec.Hello, MsgPack HipCodec.HelloAck, MsgPack CheckBatchMsg, MsgPack CheckResult,
          MsgPack UploadBeginMsg, MsgPack UploadEndMsg, MsgPack UploadAckMsg,
          MsgPack CommitMsg, MsgPack CommitAckMsg, MsgPack HipErrorPayload, MsgPack WindowMsg}.

Lemma open_check_inv s c b s' : session_inv s -> open_check s = (c, b, s') -> session_inv s'.
Proof.
  intros Hinv. unfold open_check, next_batch_id. set (s1 := with_ids s _ _).
  destruct (new_chan s1 (QCheck (s_batch_id s))) as [c' s2] eqn:Ec.
  pose proof (new_chan_fresh _ _ _ _ Ec) as Hf. injection Ec as Hc <-. rewrite Hc.
  intros [= <- <- <-]. by apply (session_inv_open s (QCheck (s_batch_id s)) c').
Qed.

Lemma release_inv s : session_inv s -> (0 < s_active s)%nat -> session_inv (release_permit s).
Proof. intros [Hw Hp] Ha. split; [done|]. simpl. lia. Qed.

Lemma open_upload_inv s c i s' :
  session_inv s -> open_upload s = Some (c, i, s') -> session_inv s' /\ (0 < s_active s')%nat.
Proof.
  intros [Hw Hp]. unfold open_upload, next_stream_id. destruct (s_permits s) as [|k] eqn:Ek; [done|].
  set (s0 := with_permits s k (S (s_active s))).
  assert (session_inv s0) as Hi0 by (split; [done | simpl; lia]).
  set (s1 := with_ids s0 _ _). destruct (new_chan s1 (QUpload (s_stream_id s0))) as [ch s2] eqn:Ec.
  pose proof (new_chan_fresh _ _ _ _ Ec) as Hf. injection Ec as Hc <-. rewrite Hc.
  intros [= <- <- <-]. split; [by apply (session_inv_open s0 (QUpload (s_stream_id s0)) ch) | simpl; lia].
Qed.

Lemma open_commit_inv s c s' : session_inv s -> open_commit s = Some (c, s') -> session_inv s'.
Proof.
  intros Hinv. unfold open_commit. destruct (s_commit_waiter s) eqn:Ew; [done|].
  destruct (new_chan s QCommit) as [c' s1] eqn:Ec.
  pose proof (new_chan_fresh _ _ _ _ Ec) as Hf. injection Ec as Hc <-. rewrite Hc. intros [= <- <-].
  eapply (session_inv_open s QCommit c'); try done. unfold wof, w_open. simpl. by rewrite Ew.
Qed.

Lemma send_inv s t p r s' : session_inv s -> send_frame s t p = (r, s') -> session_inv s'.
Proof. intros Hinv E%send_frame_table. by eapply same_table_inv. Qed.

Lemma dispatch_inv s f r s' : session_inv s -> dispatch_frame s f = (r, s') -> session_inv s'.
Proof.
  intros Hinv. unfold dispatch_frame.
  destruct (frame_type f); try (by intros [= _ <-]).
  - destruct (decode_msg _) as [ack|]; [|by intros [= _ <-]].
    destruct (s_check_waiters s !! _) as [c|] eqn:E; [|by intros [= _ <-]].
    intros [= _ <-]. by eapply (session_inv_deliver s (QCheck _) c (RCheck ack)).
  - destruct (decode_msg _) as [ack|]; [|by intros [= _ <-]].
    destruct (s_upload_waiters s !! _) as [c|] eqn:E; [|by intros [= _ <-]].
    intros [= _ <-]. by eapply (session_inv_deliver s (QUpload _) c (RUpload ack)).
  - destruct (decode_msg _) as [ack|]; [|by intros [= _ <-]].
    destruct (s_commit_waiter s) as [c|] eqn:E; [|by intros [= _ <-]].
    intros [= _ <-]. by eapply (session_inv_deliver s QCommit c (RCommit ack)).
  - destruct (decode_msg _); by intros [= _ <-].
  - intros Es%send_frame_table. by eapply same_table_inv.
  - destruct (decode_msg _) as [p|]; [|by intros [= _ <-]].
    destruct (fatal p); intros [= _ <-]; by apply session_inv_fail.
Qed.

Lemma reader_inv s inc go rest s' :
  session_inv s -> reader_round s inc = (go, rest, s') -> session_inv s'.
Proof.
  intros Hinv. unfold reader_round. destruct (read_frame _ _) as [[f|e] rst].
  - destruct (dispatch_frame s f) as [[u|e] s1] eqn:E; intros [= _ _ <-];
      [|apply session_inv_fail]; by eapply dispatch_inv.
  - intros [= _ _ <-]. by apply session_inv_fail.
Qed.

Lemma writer_table s : same_table s (writer_round s).
Proof. unfold writer_round. destruct (s_queue s); [done|]. by destruct (write_frame _ _ _). Qed.

Lemma ping_table s : same_table s (writer_ping s).
Proof. unfold writer_ping. by destruct (write_frame _ _ _). Qed.

Lemma close_table s : same_table s (close s).
Proof.
  unfold close. destruct (send_frame s Bye []) as [r s1] eqn:E. apply send_frame_table in E.
  etrans; [exact E | by repeat split].
Qed.

Lemma session_step_inv s s' : session_inv s -> session_step s s' -> session_inv s'.
Proof.
  intros Hinv Hs. destruct Hs as [s c b s' E|s c i s' E|s c s' E|s t p r s' E|s E|s inc go rest s' E|s|s|s].
  - by eapply open_check_inv.
  - by apply open_upload_inv in E as [? _].
  - by eapply open_commit_inv.
  - by eapply send_inv.
  - by apply release_inv.
  - by eapply reader_inv.
  - eapply same_table_inv; [apply writer_table | done].
  - eapply same_table_inv; [apply ping_table | done].
  - eapply same_table_inv; [apply close_table | done].
Qed.

(** The requests of the client are sequences of these steps. *)
Lemma check_batch_steps s items r s' : check_batch s items = (r, s') -> rtc session_step s s'.
Proof.
  unfold check_batch. destruct items as [|x l]; [by intros [= _ <-]|].
  destruct (open_check s) as [[c b] s1] eqn:Eo.
  assert (session_step s s1) by (by eapply do_open_check).
  destruct (encode_msg _) as [p|e]; [|intros [= _ <-]; by apply rtc_once].
  destruct (send_frame s1 _ p) as [[u|e] s2] eqn:Es; intros [= _ <-];
    (eapply rtc_l; [done|]; apply rtc_once; by eapply do_send).
Qed.

Lemma commit_steps s n st cb r s' : commit s n st cb = (r, s') -> rtc session_step s s'.
Proof.
  unfold commit. destruct (open_commit s) as [[c s1]|] eqn:Eo; [|by intros [= _ <-]].
  assert (session_step s s1) by (by eapply do_open_commit).
  destruct (encode_msg _) as [p|e]; [|intros [= _ <-]; by apply rtc_once].
  destruct (send_frame s1 _ p) as [[u|e] s2] eqn:Es; intros [= _ <-];
    (eapply rtc_l; [done|]; apply rtc_once; by eapply do_send).
Qed.

Lemma upload_begin_steps s a b c n r s' :
  session_inv s -> upload_begin s a b c n = Some (r, s') -> rtc session_step s s'.
Proof.
  intros Hinv. unfold upload_begin. destruct (open_upload s) as [[[ch i] s1]|] eqn:Eo; [|done].
  destruct (open_upload_inv _ _ _ _ Hinv Eo) as [_ Ha].
  assert (session_step s s1) by (by eapply do_open_upload).
  destruct (encode_msg _) as [p|e].
  - destruct (send_frame s1 _ p) as [[u|e] s2] eqn:Es; intros [= _ <-].
    + eapply rtc_l; [done|]. apply rtc_once. by eapply do_send.
    + eapply rtc_l; [done|]. eapply rtc_l; [by eapply do_send|]. apply rtc_once, do_release.
      apply send_frame_table in Es as (_ & _ & E & _). by rewrite E.
  - intros [= _ <-]. eapply rtc_l; [done|]. by apply rtc_once, do_release.
Qed.

Lemma upload_chunks_steps s i total reads r s' :
  upload_chunks s i total reads = (r, s') -> rtc session_step s s'.
Proof.
  revert s total. induction reads as [|c reads IH]; intros s total; simpl; [by intros [= _ <-]|].
  destruct (send_frame s UploadChunk _) as [[u|e] s1] eqn:E.
  - intros Hr. eapply rtc_l; [by eapply do_send | by eapply IH].
  - intros [= _ <-]. apply rtc_once. by eapply do_send.
Qed.

Lemma upload_body_steps sha s i n reads r s' :
  upload_body sha s i n reads = (r, s') -> rtc session_step s s'.
Proof.
  unfold upload_body.
  destruct (upload_chunks s i 0 reads) as [[t|e] s1] eqn:E; apply upload_chunks_steps in E;
    [|by intros [= _ <-]].
  destruct (negb _); [by intros [= _ <-]|].
  destruct (encode_msg _); [|by intros [= _ <-]].
  intros Es. eapply rtc_r; [done | by eapply do_send].
Qed.

Lemma start_inv config p incoming s rest : start config p incoming = Ok (s, rest) -> session_inv s.
Proof.
  unfold start. destruct (encode_msg _); [|done]. simpl. destruct (write_frame _ _ _) as [wire|]; [|done].
  simpl. destruct (read_frame _ _) as [[f|e] rst]; [|done]. simpl.
  assert (Hok : forall ack, session_inv (mkSession ack (with_max_frame config
      (Z.min (max_frame ack) (max_frame_bytes config))) true true [] wire 1 1
      (Z.to_nat (max_in_flight ack)) 0 ∅ ∅ None ∅ ∅)).
  { intros ack. split; [|simpl; lia]. split; simpl.
    - intros [b|i|] c; simpl; by rewrite ?lookup_empty.
    - intros c. by rewrite lookup_empty.
    - intros c r. by rewrite lookup_empty. }
  destruct (frame_type f); simpl; try done.
  - destruct (decode_msg _) as [ack|]; [|done]. simpl. intros [= <- _]. apply Hok.
  - by destruct (decode_msg _).
Qed.

(** Every session obtained from a handshake, after any interleaving. *)
Definition reachable (s : session) : Prop :=
  exists config p incoming s0 rest,
    start config p incoming = Ok (s0, rest) /\ rtc session_step s0 s.

Lemma reachable_inv s : reachable s -> session_inv s.
Proof.
  intros (config & p & incoming & s0 & rest & Hs & Hr). apply start_inv in Hs.
  induction Hr as [|a b c Hstep _ IH]; [done|]. by eapply IH, session_step_inv.
Qed.

(** C27: replies are routed to the request they answer.  In any interleaving of
    requests, dispatches, heartbeats and failures, a caller that receives a reply
    on its channel receives one with its own [batch_id] or [stream_id]. *)
Theorem reply_routing s c q r :
  reachable s -> s_owner s !! c = Some q -> await_chan s c = Some (Ok r) -> answers r q.
Proof.
  intros [Hw _]%reachable_inv Ho Ha. unfold await_chan in Ha.
  destruct (s_chans s !! c) as [[|r'|]|] eqn:E; simplify_eq.
  destruct (winv_sent _ Hw c r E) as (q' & Ho' & Hans). simpl in Ho'. congruence.
Qed.

(** No caller is left hanging when the connection dies: after a reader round
    that ends the session (a broken frame, a fatal error, an unexpected frame),
    every request issued so far has its reply or an error to return. *)
Theorem reader_failure_wakes_all s incoming rest s' c :
  reachable s -> reader_round s incoming = (false, rest, s') ->
  is_Some (s_chans s' !! c) -> is_Some (await_chan s' c).
Proof.
  intros Hinv%reachable_inv Hr Hc.
  assert (exists s0, session_inv s0 /\ s' = fail_all_waiters s0) as (s0 & [Hw _] & ->).
  { unfold reader_round in Hr. destruct (read_frame _ _) as [[f|e] rst]; [|simplify_eq; eauto].
    destruct (dispatch_frame s f) as [[u|e] s1] eqn:E; simplify_eq.
    exists s1. split; [by eapply dispatch_inv | done]. }
  unfold await_chan. rewrite (lookup_fail_all s0 c Hw) in *.
  by destruct (s_chans s0 !! c) as [[]|].
Qed.

(** At most [max(1, max_in_flight_uploads)] uploads hold a permit at any
    time, and permits are neither lost nor created. *)
Theorem upload_permits_conserved s :
  reachable s ->
  (s_permits s + s_active s = Z.to_nat (max_in_flight (s_hello_ack s)))%nat /\
  Z.of_nat (s_active s) <= Z.max 1 (HipCodec.max_in_flight_uploads (s_hello_ack s)).
Proof.
  intros [_ Hp]%reachable_inv. split; [done|]. unfold max_in_flight in Hp. lia.
Qed.
(** ** The writer's side of an upload *)

(** [n] rounds of the writer. *)
Definition drain (n : nat) (s : session) : session := Nat.iter n writer_round s.

Definition writer_ready (s : session) : Prop := s_writer_tx s = true /\ s_writer_alive s = true.

Definition fits (max : Z) (f : Frame) : Prop := Z.of_nat (length (payload f)) + 1 <= max.

(** What the writer does to a queue of frames that fit: it writes them in order. *)
Lemma drain_writes q s :
  s_queue s = q -> Forall (fits (max_frame_bytes (s_config s))) q ->
  exists out, write_frames [] q (max_frame_bytes (s_config s)) = Ok out /\
    drain (length q) s = with_writer s (s_writer_tx s) (s_writer_alive s) [] (s_wire s ++ out).
Proof.
  revert s. induction q as [|f q IH]; intros s Hq Hf.
  - exists []. split; [done|]. simpl. rewrite app_nil_r. destruct s; simpl in *. by subst.
  - apply Forall_cons in Hf as [Hf Hfs].
    cbn [length]. unfold drain. rewrite Nat.iter_succ_r.
    assert (Hw : exists b, write_frame (s_wire s) f (max_frame_bytes (s_config s)) = Ok (s_wire s ++ b) /\
                   write_frame [] f (max_frame_bytes (s_config s)) = Ok b).
    { unfold write_frame. rewrite (proj2 (encode_Ok f _ _) (conj Hf eq_refl)). by eexists. }
    destruct Hw as (b & Hw & Hw0).
    unfold writer_round at 2. rewrite Hq, Hw.
    destruct (IH (with_writer s (s_writer_tx s) (s_writer_alive s) q (s_wire s ++ b)) eq_refl Hfs)
      as (out & Hout & Hd).
    exists (b ++ out). simpl in Hout. split.
    + cbn [write_frames]. rewrite Hw0. cbn. rewrite write_frames_prefix, Hout. done.
    + unfold drain in Hd. rewrite Hd. unfold with_writer; simpl. by rewrite app_assoc.
Qed.

Definition chunk_frames (i : Z) (reads : list bytes) : list Frame :=
  map (fun c => mkFrame UploadChunk (to_be_bytes 4 i ++ c)) reads.

Lemma send_frame_ready s t p :
  writer_ready s -> send_frame s t p = (Ok tt, with_queue s (s_queue s ++ [mkFrame t p])).
Proof. intros [Ht Ha]. unfold send_frame. by rewrite Ht, Ha. Qed.

Lemma upload_chunks_ready s i total reads :
  writer_ready s ->
  upload_chunks s i total reads =
  (Ok (total + Z.of_nat (length (concat reads))), with_queue s (s_queue s ++ chunk_frames i reads)).
Proof.
  revert s total. induction reads as [|c reads IH]; intros s total Hs.
  - simpl. rewrite app_nil_r, Z.add_0_r. by destruct s.
  - cbn [upload_chunks]. rewrite send_frame_ready by done. rewrite IH by done. simpl.
    rewrite length_app, Nat2Z.inj_add, Z.add_assoc. unfold with_queue; simpl. by rewrite <- app_assoc.
Qed.

(** The bytes a server collects for stream [i] from the frames it reads. *)
Definition stream_content (i : Z) (fs : list Frame) : bytes :=
  concat (map (fun f =>
    match frame_type f with
    | UploadChunk => if decide (take 4 (payload f) = to_be_bytes 4 i) then drop 4 (payload f) else []
    | _ => []
    end) fs).

Lemma stream_content_chunks i reads f :
  frame_type f <> UploadChunk -> stream_content i (chunk_frames i reads ++ [f]) = concat reads.
Proof.
  intros Hf. unfold stream_content, chunk_frames. rewrite map_app, concat_app, map_map.
  replace (concat (map _ [f])) with (@nil Byte.byte) by (simpl; by destruct (frame_type f)).
  rewrite app_nil_r. f_equal. rewrite <- (map_id reads) at 2. apply map_ext. intros c. cbn [frame_type payload].
  pose proof (length_to_be_bytes 4 i) as Hl.
  rewrite take_app_length', drop_app_length' by done. by rewrite decide_True.
Qed.

(** An upload delivers the file.  On an open session with an idle writer, whose
    chunks fit the negotiated frame, [upload_stream] succeeds in sending, and what
    the writer puts on the wire parses, at the server, into the chunks of stream
    [i] (whose concatenation is the content, in order) followed by an UPLOAD_END
    that decodes to the size and digest of that content. *)
Theorem upload_delivers_content sha256_hex s i reads p :
  let max := max_frame_bytes (s_config s) in
  let content := concat reads in
  let upload_end := mkUploadEndMsg i (Z.of_nat (length content)) (sha256_hex content) in
  max <= u32_max -> writer_ready s -> s_queue s = [] ->
  Forall (fun c => Z.of_nat (length c) + 5 <= max) reads ->
  encode_msg upload_end = Ok p -> Z.of_nat (length p) + 1 <= max ->
  exists s' out,
    upload_body sha256_hex s i (Z.of_nat (length content)) reads = (Ok tt, s') /\
    s_wire (drain (S (length reads)) s') = s_wire s ++ out /\
    let '(fs, rest) := read_frames (S (length reads)) out max in
    rest = [] /\ stream_content i fs = content /\
    exists f, last fs = Some f /\ frame_type f = UploadEnd /\ decode_msg (payload f) = Ok upload_end.
Proof.
  intros max content upload_end H32 Hready Hq Hchunks Hp Hplen.
  unfold upload_body. rewrite upload_chunks_ready, Z.add_0_l, Z.eqb_refl by done. simpl negb. cbn iota.
  fold content upload_end. rewrite Hp, send_frame_ready by done.
  set (q := chunk_frames i reads ++ [mkFrame UploadEnd p]).
  set (s' := with_queue _ _).
  assert (Hsq : s_queue s' = q) by (subst s' q; simpl; by rewrite Hq).
  assert (Hfit : Forall (fits max) q).
  { apply Forall_app. split; [|by repeat constructor].
    apply Forall_map. eapply Forall_impl; [done|]. intros c Hc. cbv beta in Hc. unfold fits, max in *. cbn [payload].
    rewrite length_app, length_to_be_bytes. lia. }
  destruct (drain_writes q s' Hsq Hfit) as (out & Hout & Hd).
  assert (Hlen : length q = S (length reads)).
  { subst q. rewrite length_app. unfold chunk_frames. rewrite length_map. simpl. lia. }
  exists s', out. split; [done|]. rewrite <- Hlen, Hd. split; [done|].
  pose proof (read_written q max out [] H32 Hout) as Hr. rewrite app_nil_r in Hr. rewrite Hr.
  split; [done|]. split; [by apply stream_content_chunks|].
  exists (mkFrame UploadEnd p). split; [apply last_snoc|]. split; [done|]. by apply decode_encode_msg.
Qed.

(** A file that changed size while it was streamed is not committed to: when
    the bytes read differ from the declared size, the upload fails and no
    UPLOAD_END of it is queued. *)
Theorem upload_size_mismatch sha256_hex s i size reads :
  writer_ready s -> Z.of_nat (length (concat reads)) <> size ->
  exists s', upload_body sha256_hex s i size reads = (Err (Protocol "upload size mismatch"), s') /\
    s_queue s' = s_queue s ++ chunk_frames i reads.
Proof.
  intros Hs Hne. unfold upload_body. rewrite upload_chunks_ready, Z.add_0_l by done.
  rewrite (proj2 (Z.eqb_neq _ _) Hne). by eexists.
Qed.

(** A chunk that exceeds the negotiated frame ends the session: the writer
    stops at it, and every later send of any request fails. *)
Theorem oversized_chunk_closes_session s i chunk s1 r t p :
  writer_ready s -> s_queue s = [] ->
  max_frame_bytes (s_config s) < Z.of_nat (length chunk) + 5 ->
  send_frame s UploadChunk (to_be_bytes 4 i ++ chunk) = (r, s1) ->
  r = Ok tt /\ (send_frame (writer_round s1) t p).1 = Err (SessionClosed "writer task terminated").
Proof.
  intros Hs Hq Hbig Hsend. rewrite send_frame_ready in Hsend by done. simplify_eq. split; [done|].
  unfold writer_round, with_queue; cbn [s_queue]. rewrite Hq. cbn [app]. unfold write_frame, encode; cbn [payload].
  rewrite length_app, length_to_be_bytes.
  replace (_ >? _) with true by (symmetry; rewrite Z.gtb_ltb; apply Z.ltb_lt; cbn [s_config]; lia).
  unfold send_frame. simpl. destruct Hs as [Ht _]. by rewrite Ht.
Qed.

(** One COMMIT at a time.  After a commit was sent, a second one is refused
    without touching the session until the first is answered or the waiters are
    failed. *)
Theorem commit_exclusive s n st cb c s' n' st' cb' :
  commit s n st cb = (Ok c, s') ->
  commit s' n' st' cb' = (Err (Protocol "commit already in flight"), s').
Proof.
  unfold commit at 1. destruct (open_commit s) as [[c0 s1]|] eqn:Eo; [|done].
  assert (Hw : s_commit_waiter s1 = Some c0).
  { unfold open_commit in Eo. destruct (s_commit_waiter s); [done|]. unfold new_chan in Eo. by simplify_eq. }
  destruct (encode_msg _) as [p|e]; [|done].
  destruct (send_frame s1 _ p) as [[u|e] s2] eqn:Es; [|done]. intros [= <- <-].
  apply send_frame_table in Es as (Et & _). unfold commit, open_commit.
  assert (s_commit_waiter s2 = Some c0) as -> by (injection Et as _ _ -> _ _; done). done.
Qed.

(** The handshake.  A session is only obtained from a HELLO_ACK; what is on the
    wire then is one HELLO that decodes to the client's parameters, the frame
    limit in force is the smaller of the two sides', and the number of upload
    permits is the server's, at least one. *)
Theorem start_negotiates config p incoming s rest :
  max_frame_bytes config <= u32_max ->
  start config p incoming = Ok (s, rest) ->
  exists hello ack,
    read_frame (s_wire s) (max_frame_bytes config) = (Ok (mkFrame Frame.Hip.Hello hello), []) /\
    decode_msg hello = Ok (hello_of config p) /\
    read_frame incoming (max_frame_bytes config) = (Ok (mkFrame Frame.Hip.HelloAck ack), rest) /\
    decode_msg ack = Ok (s_hello_ack s) /\
    max_frame_bytes (s_config s) = Z.min (max_frame (s_hello_ack s)) (max_frame_bytes config) /\
    s_permits s = Z.to_nat (Z.max (HipCodec.max_in_flight_uploads (s_hello_ack s)) 1).
Proof.
  intros H32. unfold start. destruct (encode_msg (hello_of config p)) as [hello|] eqn:Eh; [|done]. simpl.
  unfold write_frame. destruct (encode _ _) as [wire|] eqn:Ew; [|done]. simpl.
  destruct (read_frame incoming _) as [[[t ack]|e] rst] eqn:Er; [|done]. simpl.
  destruct t; simpl; try done; [|by destruct (decode_msg ack)].
  destruct (decode_msg ack) as [a|] eqn:Ea; [|done]. simpl. intros [= <- <-].
  exists hello, ack. simpl. pose proof (read_encode _ _ _ [] H32 Ew) as Hr. rewrite app_nil_r in Hr.
  rewrite Hr. split; [done|]. split; [by apply decode_encode_msg|]. done.
Qed.
End Preservation.

(** ** A concrete session

    The properties of this file on a session with the serialization of
    [HipCodec.ConcreteMsg]: a handshake, one check and one upload. *)
Module ConcreteSession.
Import HipCodec.ConcreteMsg.

Definition sample_config : HipClientConfig :=
  mkHipClientConfig "gw:7000" "t" false None 5000 5000 65536 16 1000 "1".
Definition sample_params : HelloParams := mkHelloParams "jp" "1" "2" "h" "r".
Definition sample_ack : HipCodec.HelloAck := mkHelloAck "s" "1" 4096 1 true true.

Definition frame_bytes (t : FrameType) (p : result bytes HipError) : bytes :=
  match p with
  | Ok b => match encode (mkFrame t b) 65536 with Ok x => x | Err _ => [] end
  | Err _ => []
  end.
Definition incoming : bytes := frame_bytes Frame.Hip.HelloAck (encode_msg sample_ack).

Definition dummy : session :=
  mkSession sample_ack sample_config true true [] [] 1 1 0 0 ∅ ∅ None ∅ ∅.

(** After the handshake; after a check was sent; after it was answered. *)
Definition s0 : session :=
  match start sample_config sample_params incoming with Ok (s, _) => s | Err _ => dummy end.
Definition s1 : session := (check_batch s0 [mkCheckBatchItem "a" "f" 1 "p"]).2.
Definition check_reply : CheckResult := mkCheckResult 1 [mkCheckAckItem "a" SkipAction None].
Definition s2 : session := (reader_round s1 (frame_bytes CheckAck (encode_msg check_reply))).2.
(** After the server sent a HELLO in the middle of the session. *)
Definition s3 : session := (reader_round s1 (frame_bytes Frame.Hip.Hello (Ok []))).2.

Lemma start_s0 : start sample_config sample_params incoming = Ok (s0, []).
Proof. vm_compute. reflexivity. Qed.

Lemma reachable_s0 : reachable s0.
Proof. exists sample_config, sample_params, incoming, s0, []. split; [apply start_s0 | done]. Qed.

Lemma reachable_trans s s' : reachable s -> rtc session_step s s' -> reachable s'.
Proof.
  intros (c & p & i & s00 & r & Hs & Hr) H. exists c, p, i, s00, r. split; [done | by etrans].
Qed.

Lemma reachable_s1 : reachable s1.
Proof.
  eapply reachable_trans; [apply reachable_s0|]. eapply check_batch_steps. apply surjective_pairing.
Qed.

Lemma reachable_s2 : reachable s2.
Proof.
  eapply reachable_trans; [apply reachable_s1|]. apply rtc_once.
  eapply (do_reader s1 (frame_bytes CheckAck (encode_msg check_reply)) true []). vm_compute. reflexivity.
Qed.

Lemma reply_routing_witness :
  await_chan s2 0%nat = Some (Ok (RCheck check_reply)) /\ answers (RCheck check_reply) (QCheck 1).
Proof.
  split; [vm_compute; reflexivity|].
  apply (reply_routing s2 0%nat (QCheck 1) (RCheck check_reply)); [apply reachable_s2 | |];
    vm_compute; reflexivity.
Defined.

Lemma reader_failure_wakes_all_witness :
  reader_round s1 (frame_bytes Frame.Hip.Hello (Ok [])) = (false, [], s3) /\
  is_Some (await_chan s3 0%nat).
Proof.
  assert (H : reader_round s1 (frame_bytes Frame.Hip.Hello (Ok [])) = (false, [], s3))
    by (vm_compute; reflexivity).
  split; [exact H|].
  apply (reader_failure_wakes_all s1 (frame_bytes Frame.Hip.Hello (Ok [])) [] s3 0%nat);
    [apply reachable_s1 | exact H | exists Dropped; vm_compute; reflexivity].
Defined.

Lemma upload_permits_conserved_witness :
  (s_permits s0 + s_active s0 = 1)%nat /\
  Z.of_nat (s_active s0) <= Z.max 1 (HipCodec.max_in_flight_uploads (s_hello_ack s0)).
Proof. apply (upload_permits_conserved s0). apply reachable_s0. Defined.

Definition sample_reads : list bytes := [[Byte.x01; Byte.x02]; [Byte.x03]].
Definition sample_digest (content : bytes) : string := "d".
Definition sample_end : bytes :=
  match encode_msg (mkUploadEndMsg 1 3 "d") with Ok p => p | Err _ => [] end.

Lemma upload_delivers_content_witness :
  exists s' out, upload_body sample_digest s0 1 3 sample_reads = (Ok tt, s') /\
    s_wire (drain 3 s') = s_wire s0 ++ out /\
    let '(fs, rest) := read_frames 3 out 4096 in
    rest = [] /\ stream_content 1 fs = [Byte.x01; Byte.x02; Byte.x03] /\
    exists f, last fs = Some f /\ frame_type f = UploadEnd /\
      decode_msg (payload f) = Ok (mkUploadEndMsg 1 3 "d").
Proof.
  apply (upload_delivers_content sample_digest s0 1 sample_reads sample_end).
  - vm_compute. discriminate.
  - split; vm_compute; reflexivity.
  - vm_compute. reflexivity.
  - repeat constructor; vm_compute; discriminate.
  - vm_compute. reflexivity.
  - vm_compute. discriminate.
Defined.

Lemma upload_size_mismatch_witness :
  exists s', upload_body sample_digest s0 1 4 sample_reads = (Err (Protocol "upload size mismatch"), s') /\
    s_queue s' = s_queue s0 ++ chunk_frames 1 sample_reads.
Proof.
  apply (upload_size_mismatch sample_digest s0 1 4 sample_reads).
  - split; vm_compute; reflexivity.
  - vm_compute. discriminate.
Defined.

Lemma oversized_chunk_closes_session_witness :
  let s := (send_frame s0 UploadChunk (to_be_bytes 4 1 ++ repeat Byte.x00 4092)).2 in
  Ok tt = @Ok unit HipError tt /\
  (send_frame (writer_round s) Frame.Hip.Commit []).1 = Err (SessionClosed "writer task terminated").
Proof.
  apply (oversized_chunk_closes_session s0 1 (repeat Byte.x00 4092)).
  - split; vm_compute; reflexivity.
  - vm_compute. reflexivity.
  - vm_compute. reflexivity.
  - vm_compute. reflexivity.
Defined.

Definition no_stats : CommitStats := mkCommitStats 0 0 0 0.
Lemma commit_exclusive_witness :
  let s' := (commit s0 1 no_stats []).2 in
  commit s' 2 no_stats [] = (Err (Protocol "commit already in flight"), s').
Proof. apply (commit_exclusive s0 1 no_stats [] 0%nat). vm_compute. reflexivity. Defined.

Lemma start_negotiates_witness :
  exists hello ack,
    read_frame (s_wire s0) 65536 = (Ok (mkFrame Frame.Hip.Hello hello), []) /\
    decode_msg hello = Ok (hello_of sample_config sample_params) /\
    read_frame incoming 65536 = (Ok (mkFrame Frame.Hip.HelloAck ack), []) /\
    decode_msg ack = Ok (s_hello_ack s0) /\
    max_frame_bytes (s_config s0) = Z.min (max_frame (s_hello_ack s0)) 65536 /\
    s_permits s0 = Z.to_nat (Z.max (HipCodec.max_in_flight_uploads (s_hello_ack s0)) 1).
Proof.
  apply (start_negotiates sample_config sample_params incoming s0 []).
  - vm_compute. discriminate.
  - apply start_s0.
Defined.

(** An upload that was announced and then timed out. *)
Definition timed_out (s : session) : session :=
  match upload_begin s "b" "p" "f" 3 with
  | Some (_, s') => release_permit s'
  | None => s
  end.

Lemma reachable_timed_out s :
  reachable s ->
  (0 <? match upload_begin s "b" "p" "f" 3 with Some (_, x) => s_active x | None => 0 end)%nat = true ->
  reachable (timed_out s).
Proof.
  intros Hr Ha%Nat.ltb_lt. unfold timed_out. destruct (upload_begin s _ _ _ _) as [[r s']|] eqn:E; [|lia].
  eapply reachable_trans; [exact Hr|].
  eapply rtc_r; [eapply upload_begin_steps; [by apply reachable_inv | exact E] | by apply do_release].
Qed.

(** Uploads that time out give their permit back while the server still has
    them open: a client of a server that allows one upload in flight reaches a
    state with two unanswered streams. *)
Theorem timeouts_exceed_window :
  exists s, reachable s /\ HipCodec.max_in_flight_uploads (s_hello_ack s) = 1 /\
    size (s_upload_waiters s) = 2%nat.
Proof.
  exists (timed_out (timed_out s0)). split; [|by split; vm_compute].
  apply reachable_timed_out; [apply reachable_timed_out; [apply reachable_s0|]|]; vm_compute; reflexivity.
Qed.
End ConcreteSession.
