(* ===== verification/Storage.v ===== *)
(** * Object storage

    [src/core/storage.rs]: provider selection and resolution, object keys, the
    public-read rules and [upload_to_all_storages].

    Parameters: [regex_new] ([Regex::new], with [is_match] as the function it
    returns), [via_iter] ([opendal::Operator::via_iter]), [op_write]
    ([Operator::write_with], one attempt, on the state of the remote stores) and
    [mime] ([mime_guess]).  A [BTreeMap] of options is a [gmap]. *)

From Stdlib Require Import Ascii.
From S2P Require Import Prelude Errors RustStr Retry Config Models Paths Fs.

Local Open Scope string_scope.
Local Open Scope list_scope.
Local Open Scope rust_scope.

(** [resolve_storage_template] and [resolve_bucket_template]. *)
Definition resolve_storage_template (value region_name : string) : string :=
  replace "{region}" region_name (replace "{server}" region_name value).
Definition resolve_bucket_template (bucket region_name : string) : string :=
  resolve_storage_template bucket region_name.

(** [construct_endpoint_url]. *)
Definition construct_endpoint_url (endpoint : string) (tls : bool) : string :=
  (if tls then "https" else "http") +:+ "://" +:+ endpoint.

(** [construct_provider_endpoint]. *)
Definition construct_provider_endpoint (endpoint : string) (tls : bool) : string :=
  let endpoint := trim_end_matches "/" (trim endpoint) in
  if starts_with "http://" endpoint || starts_with "https://" endpoint then endpoint
  else construct_endpoint_url endpoint tls.

(** [construct_remote_path]. *)
Definition construct_remote_path (extracted_save_path file_path : string) : result string StorageError :=
  match path_strip_prefix (components extracted_save_path) (components file_path) with
  | None => Err (InvalidRelativePath file_path)
  | Some relative => Ok (replace_char "\" "/" (path_str relative))
  end.

(** [normalize_prefix]. *)
Definition normalize_prefix (prefix : option string) : option string :=
  match trimmed_non_empty prefix with
  | None => None
  | Some p => non_empty (Some (replace_char "\" "/" (trim_matches "/" p)))
  end.

(** [construct_storage_key]. *)
Definition construct_storage_key (prefix : option string) (extracted_save_path file_path : string)
    : result string StorageError :=
  let? remote_path := construct_remote_path extracted_save_path file_path in
  match normalize_prefix prefix with
  | Some p => Ok (p +:+ "/" +:+ remote_path)
  | None => Ok remote_path
  end.

(** [matches_bool]. *)
Definition matches_bool (value : string) (expected : bool) : bool :=
  let v := to_ascii_lowercase (trim value) in
  if expected then existsb (String.eqb v) ["true"; "1"; "yes"; "on"]
  else existsb (String.eqb v) ["false"; "0"; "no"; "off"].

(** ** Provider selection *)

Definition named (provider_name : string) (p : StorageProviderConfig) : bool :=
  match Config.provider_name p with
  | Some name => String.eqb (trim name) provider_name
  | None => false
  end.
Definition unnamed_of_scheme (provider_name : string) (p : StorageProviderConfig) : bool :=
  match Config.provider_name p with Some name => blank name | None => true end
  && eq_ignore_ascii_case (trim (scheme p)) provider_name.

(** [find_storage_provider_config]. *)
Definition find_storage_provider_config (storage : StorageConfig) (provider_name : string)
    : result StorageProviderConfig StorageError :=
  let provider_name := trim provider_name in
  if is_empty provider_name then
    Err (InvalidProviderConfig "<selection>" "selected provider name is empty")
  else
    let explicit_matches := List.filter (named provider_name) (providers storage) in
    let matches := match explicit_matches with
                   | [] => List.filter (unnamed_of_scheme provider_name) (providers storage)
                   | _ => explicit_matches
                   end in
    match matches with
    | [provider] => Ok provider
    | [] => Err (InvalidProviderConfig provider_name "selected provider was not found")
    | _ => Err (InvalidProviderConfig provider_name
                  "selected provider matched multiple storage providers; set unique provider.name values")
    end.

(** [selected_provider_configs]. *)
Definition selected_provider_configs (storage : StorageConfig) (selected_providers : list string)
    : result (list StorageProviderConfig) StorageError :=
  match selected_providers with
  | [] => Ok (providers storage)
  | _ => collect_results (find_storage_provider_config storage) selected_providers
  end.

(** ** Provider resolution *)

(** [struct ResolvedStorageProvider]. *)
Record ResolvedStorageProvider : Type := mkResolved {
  r_provider : string;
  r_scheme : string;
  r_endpoint : string;
  r_bucket : string;
  r_root : option string;
  r_base_url : string;
  r_public_read : bool;
  r_path_style : bool;
  r_options : gmap string string;
}.

Abbreviation options := (gmap string string).

(** [options.entry(k).or_insert_with(|| v)]. *)
Definition or_insert (k v : string) (o : options) : options :=
  match o !! k with Some _ => o | None => <[k := v]> o end.
(** The same, when there is a value to insert. *)
Definition or_insert_opt (k : string) (v : option string) (o : options) : options :=
  match v with Some v => or_insert k v o | None => o end.

(** The options [resolve_storage_provider] passes to opendal. *)
Definition resolve_options (p : StorageProviderConfig) (scheme region_name : string) : options :=
  let o := (fun v => resolve_storage_template v region_name) <$> provider_options p in
  let root := match trimmed_non_empty (provider_root p) with
              | Some root => Some root
              | None => normalize_prefix (provider_prefix p)
              end in
  let o := or_insert_opt "root" ((fun r => resolve_storage_template r region_name) <$> root) o in
  let o := if negb (blank (provider_bucket p))
           then or_insert "bucket" (resolve_bucket_template (provider_bucket p) region_name) o else o in
  let o := if negb (blank (provider_endpoint p))
           then or_insert "endpoint" (construct_provider_endpoint (provider_endpoint p) (provider_tls p)) o
           else o in
  let o := or_insert_opt "region" (non_empty (provider_region p)) o in
  let o := or_insert_opt "access_key_id" (non_empty (access_key p)) o in
  let o := or_insert_opt "secret_access_key" (non_empty (secret_key p)) o in
  let o := if String.eqb scheme "s3" && provider_public_read p
           then or_insert "default_acl" "public-read" o else o in
  if negb (provider_path_style p) then or_insert "enable_virtual_host_style" "true" o else o.

(** [resolve_storage_provider]. *)
Definition resolve_storage_provider (p : StorageProviderConfig) (region_name : string)
    : result ResolvedStorageProvider StorageError :=
  let scheme := to_ascii_lowercase (trim (Config.scheme p)) in
  let provider_label := match Config.provider_name p with
                        | Some name => if blank name then scheme else name
                        | None => scheme
                        end in
  if is_empty scheme then Err (InvalidProviderConfig provider_label "scheme is empty") else
  let o := resolve_options p scheme region_name in
  let bucket := unwrap_or_default (o !! "bucket") in
  if String.eqb scheme "s3" && blank bucket then Err (MissingBucket provider_label) else
  let endpoint := unwrap_or_default (o !! "endpoint") in
  let root := non_empty ((fun r => replace_char "\" "/" (trim_matches "/" (trim r))) <$> o !! "root") in
  let public_read := match o !! "default_acl" with
                     | Some acl => eq_ignore_ascii_case acl "public-read"
                     | None => false
                     end in
  let path_style := negb match o !! "enable_virtual_host_style" with
                         | Some v => matches_bool v true
                         | None => false
                         end in
  let base_url := match public_base_url p with
                  | Some url => if blank url then endpoint
                                else resolve_storage_template (trim_end_matches "/" (trim url)) region_name
                  | None => endpoint
                  end in
  Ok (mkResolved provider_label scheme endpoint bucket root base_url public_read path_style o).

(** [plan_storage_targets]. *)
Definition plan_storage_targets (storage : StorageConfig) (region_name : string)
    (selected_providers : list string) : result (list StorageTargetPlan) StorageError :=
  let? ps := selected_provider_configs storage selected_providers in
  collect_results (fun p =>
    let? r := resolve_storage_provider p region_name in
    Ok (mkStorageTargetPlan (r_provider r) (r_scheme r) (r_endpoint r) (r_bucket r) (r_root r)
          (r_base_url r) (r_public_read r) (r_path_style r))) ps.

Section Upload.
Context {Op : Type} (via_iter : string -> options -> result Op string).
Context {Remote : Type} (op_write : Op -> string -> bytes -> string -> Remote -> result unit string * Remote).
Context (regex_new : string -> result (string -> bool) string) (mime : string -> string).

(** [struct StorageOperatorTarget]. *)
Record StorageOperatorTarget : Type := mkTarget {
  t_provider : string;
  t_scheme : string;
  t_operator : Op;
  t_public_operator : option Op;
}.

(** [build_operator_target]: a non-public s3 provider gets a second operator that
    writes public objects. *)
Definition build_operator_target (p : StorageProviderConfig) (region_name : string)
    : result StorageOperatorTarget StorageError :=
  let? r := resolve_storage_provider p region_name in
  let? operator := result_map_err (StorageProvider (r_provider r)) (via_iter (r_scheme r) (r_options r)) in
  let? public_operator :=
    (if String.eqb (r_scheme r) "s3" && negb (r_public_read r) then
       let? op := result_map_err (StorageProvider (r_provider r))
                    (via_iter (r_scheme r) (<["default_acl" := "public-read"]> (r_options r))) in
       Ok (Some op)
     else Ok None) in
  Ok (mkTarget (r_provider r) (r_scheme r) operator public_operator).

(** [build_storage_operator_targets] and [build_storage_operator_target]. *)
Definition build_storage_operator_targets (storage : StorageConfig) (region_name : string)
    (selected_providers : list string) : result (list StorageOperatorTarget) StorageError :=
  let? ps := selected_provider_configs storage selected_providers in
  collect_results (fun p => build_operator_target p region_name) ps.
Definition build_storage_operator_target (storage : StorageConfig) (provider_name region_name : string)
    : result StorageOperatorTarget StorageError :=
  let? p := find_storage_provider_config storage provider_name in
  build_operator_target p region_name.

(** [StorageOperatorTarget::operator_for_file]. *)
Definition operator_for_file (t : StorageOperatorTarget) (public_read : bool) : Op :=
  if public_read && String.eqb (t_scheme t) "s3" then default (t_operator t) (t_public_operator t)
  else t_operator t.

(** [compile_public_read_rules] and [struct PublicReadMatcher]. *)
Definition compile_public_read_rules (patterns : list string)
    : result (list (string -> bool)) StorageError :=
  collect_results (fun pattern => result_map_err (InvalidPublicReadRule pattern) (regex_new pattern))
    (List.filter (fun pattern => negb (blank pattern)) patterns).

Record PublicReadMatcher : Type := mkMatcher {
  include : list (string -> bool);
  exclude : list (string -> bool);
}.

Definition matcher_new (inc exc : list string) : result PublicReadMatcher StorageError :=
  let? i := compile_public_read_rules inc in
  let? e := compile_public_read_rules exc in
  Ok (mkMatcher i e).

(** [PublicReadMatcher::matches_remote_path] and [matches_file]. *)
Definition matches_remote_path (m : PublicReadMatcher) (remote_path : string) : bool :=
  match include m with
  | [] => false
  | _ => existsb (fun rule => rule remote_path) (include m)
         && negb (existsb (fun rule => rule remote_path) (exclude m))
  end.
Definition matches_file (m : PublicReadMatcher) (extracted_save_path file_path : string)
    : result bool StorageError :=
  let? remote_path := construct_remote_path extracted_save_path file_path in
  Ok (matches_remote_path m remote_path).

(** [is_retryable_storage_error]. *)
Definition is_retryable_storage_error (e : StorageError) : bool :=
  match e with StorageUpload _ _ _ => true | _ => false end.

(** [upload_single_file]; [disk] is the local file system. *)
Definition upload_single_file (disk : files) (t : StorageOperatorTarget)
    (extracted_save_path file_path : string) (public_read : bool) (retry : RetryConfig) (st : Remote)
    : result unit StorageError * Remote :=
  match construct_remote_path extracted_save_path file_path with
  | Err e => (Err e, st)
  | Ok remote_path =>
      match disk !! file_path with
      | None => (Err (StorageIo file_path NotFound), st)
      | Some content =>
          let attempt (_ : Z) (st : Remote) :=
            let '(r, st') := op_write (operator_for_file t public_read) remote_path content (mime file_path) st in
            (result_map_err (StorageUpload (t_provider t) file_path) r, st') in
          match retry_async attempt is_retryable_storage_error retry st with
          | (Some r, st', _) => (r, st')
          | (None, st', _) => (Err (StorageJoin "unreachable"), st')
          end
      end
  end.

(** [struct StorageUploadOptions]. *)
Record StorageUploadOptions : Type := mkUploadOptions {
  selected_providers : list string;
  public_read_include : list string;
  public_read_exclude : list string;
  remove_local : bool;
  upload_concurrency : nat;
  upload_retry : RetryConfig;
}.

Definition job : Type := StorageOperatorTarget * string * bool.

(** The upload tasks: one per target and file, with the file's public flag. *)
Definition upload_jobs (m : PublicReadMatcher) (extracted_save_path : string)
    (targets : list StorageOperatorTarget) (fs : list string) : result (list job) StorageError :=
  collect_results (fun '(t, f) => let? public_read := matches_file m extracted_save_path f in
                                  Ok (t, f, public_read))
    (list_prod targets fs).

(** The join loop: the tasks complete in the order given, the first error ends it. *)
Fixpoint join_uploads (disk : files) (extracted_save_path : string) (retry : RetryConfig)
    (jobs : list job) (st : Remote) : result unit StorageError * Remote :=
  match jobs with
  | [] => (Ok tt, st)
  | (t, f, public_read) :: jobs' =>
      match upload_single_file disk t extracted_save_path f public_read retry st with
      | (Err e, st') => (Err e, st')
      | (Ok _, st') => join_uploads disk extracted_save_path retry jobs' st'
      end
  end.

(** The removal loop; [rm] is the outcome of removing a file that is there. *)
Fixpoint remove_files (rm : string -> option io_error) (fs : list string) (disk : files)
    : result unit StorageError * files :=
  match fs with
  | [] => (Ok tt, disk)
  | f :: fs' =>
      match disk !! f, rm f with
      | None, _ => (Err (StorageIo f NotFound), disk)
      | Some _, Some e => (Err (StorageIo f e), disk)
      | Some _, None => remove_files rm fs' (delete f disk)
      end
  end.

(** [upload_to_all_storages]; [order] is the order in which the tasks complete. *)
Definition upload_to_all_storages (order : list job -> list job) (rm : string -> option io_error)
    (storage : StorageConfig) (region_name extracted_save_path : string) (fs : list string)
    (opts : StorageUploadOptions) (disk : files) (st : Remote)
    : result unit StorageError * files * Remote :=
  if match fs with [] => true | _ => false end
     || match providers storage, selected_providers opts with [], [] => true | _, _ => false end
  then (Ok tt, disk, st)
  else
    let planned :=
      let? targets := build_storage_operator_targets storage region_name (selected_providers opts) in
      let? m := matcher_new (public_read_include opts) (public_read_exclude opts) in
      upload_jobs m extracted_save_path targets fs in
    match planned with
    | Err e => (Err e, disk, st)
    | Ok jobs =>
        match join_uploads disk extracted_save_path (upload_retry opts) (order jobs) st with
        | (Err e, st') => (Err e, disk, st')
        | (Ok _, st') =>
            if remove_local opts then
              let '(r, disk') := remove_files rm fs disk in (r, disk', st')
            else (Ok tt, disk, st')
        end
    end.
End Upload.

(** ** Properties *)

(** An object key determines its file: under a non-empty save directory, for
    a file name without backslashes, the components of the file are those of the
    directory followed by those of the key, so two files with the same key are
    the same path. *)
Theorem remote_path_determines_file root file key :
  components root <> [] -> has_char "\" file = false ->
  construct_remote_path root file = Ok key ->
  components file = components root ++ components key.
Proof.
  intros Hroot Hbs. unfold construct_remote_path.
  destruct (path_strip_prefix _ _) as [rel|] eqn:E; [|done]. intros Hk; simplify_eq.
  apply path_strip_prefix_Some in E. rewrite E. f_equal.
  destruct (components root) as [|c r] eqn:Er; [done|]. simpl in E.
  apply components_tail in E as Hin. apply Forall_app in Hin as [_ Hin].
  assert (Hclean : has_char "\" (path_str rel) = false).
  { destruct (has_char "\" (path_str rel)) eqn:Eb; [|done]. exfalso.
    apply (rel_chars file (c :: r) rel) in Eb; [congruence | done | done]. }
  rewrite replace_char_absent by done. by rewrite components_path_str.
Qed.

(** Selecting a provider by name.  A configuration is returned exactly when it
    is the only one with that (trimmed) name, or, when none has it, the only
    unnamed one of that scheme. *)
Theorem find_provider_spec storage name p :
  find_storage_provider_config storage name = Ok p <->
  trim name <> "" /\
  (List.filter (named (trim name)) (providers storage) = [p] \/
   List.filter (named (trim name)) (providers storage) = [] /\
   List.filter (unnamed_of_scheme (trim name)) (providers storage) = [p]).
Proof.
  unfold find_storage_provider_config.
  assert (Hempty : is_empty (trim name) = true <-> trim name = "") by (by destruct (trim name)).
  destruct (is_empty (trim name)) eqn:E.
  - split; [done|]. intros [Hne _]. by destruct Hne; apply Hempty.
  - assert (trim name <> "") by (intros ?%Hempty; congruence).
    destruct (List.filter (named _) _) as [|a [|b l]] eqn:E1.
    + destruct (List.filter (unnamed_of_scheme _) _) as [|a [|b l]]; naive_solver.
    + naive_solver.
    + naive_solver.
Qed.

Lemma or_insert_keep k v o k' v' : o !! k' = Some v' -> or_insert k v o !! k' = Some v'.
Proof.
  unfold or_insert. intros H. destruct (o !! k) eqn:E; [done|].
  rewrite lookup_insert_ne; [done | congruence].
Qed.
Lemma or_insert_opt_keep k v o k' v' : o !! k' = Some v' -> or_insert_opt k v o !! k' = Some v'.
Proof. destruct v; [apply or_insert_keep | done]. Qed.

(** An option set in the provider's [options] table wins over the dedicated
    fields (root, prefix, bucket, endpoint, credentials, ACL): it reaches the
    operator with only the region templates filled in. *)
Theorem explicit_options_win p region_name r k v :
  resolve_storage_provider p region_name = Ok r ->
  provider_options p !! k = Some v ->
  r_options r !! k = Some (resolve_storage_template v region_name).
Proof.
  unfold resolve_storage_provider. destruct (is_empty _); [done|].
  set (o := resolve_options _ _ _). destruct (_ && blank _); [done|]. intros ? Hk; simplify_eq. simpl.
  subst o. unfold resolve_options.
  assert (((fun v => resolve_storage_template v region_name) <$> provider_options p) !! k
          = Some (resolve_storage_template v region_name)) as Hf by (by rewrite lookup_fmap, Hk).
  repeat first [exact Hf | apply or_insert_keep | apply or_insert_opt_keep | case_match]; done.
Qed.

Lemma explicit_options_win_witness :
  exists r,
    resolve_storage_provider
      (mkStorageProviderConfig (Some "main") "s3" None None {["bucket" := "sekai-{region}"]} "" true
         "other" None true None false None None) "jp" = Ok r /\
    r_options r !! "bucket" = Some "sekai-jp".
Proof.
  eexists. split; [vm_compute; reflexivity|].
  apply (explicit_options_win
    (mkStorageProviderConfig (Some "main") "s3" None None {["bucket" := "sekai-{region}"]} "" true
       "other" None true None false None None) "jp" _ "bucket" "sekai-{region}"); vm_compute; reflexivity.
Defined.

Lemma remote_path_determines_file_witness :
  components "/data/jp/music/a.mp3" = components "/data/jp" ++ components "music/a.mp3".
Proof.
  apply (remote_path_determines_file "/data/jp" "/data/jp/music/a.mp3" "music/a.mp3");
    [discriminate | reflexivity | reflexivity].
Defined.

(** ** Uploads *)

(** What a successful write means, for an operator library with a readable store. *)
Class RemoteStore {Op Remote : Type}
    (op_write : Op -> string -> bytes -> string -> Remote -> result unit string * Remote) := {
  remote_get : Remote -> Op -> string -> option bytes;
  write_ok op k c m st st' : op_write op k c m st = (Ok tt, st') -> remote_get st' op k = Some c;
  write_keeps op k c m st r st' op' k' :
    op_write op k c m st = (r, st') -> (op', k') <> (op, k) -> remote_get st' op' k' = remote_get st op' k';
  write_err op k c m st e st' :
    op_write op k c m st = (Err e, st') -> remote_get st' op k = remote_get st op k;
}.

Section UploadProofs.
Context {Op : Type} `{EqDecision Op} (via_iter : string -> options -> result Op string).
Context {Remote : Type} (op_write : Op -> string -> bytes -> string -> Remote -> result unit string * Remote).
Context `{!RemoteStore op_write}.
Context (regex_new : string -> result (string -> bool) string) (mime : string -> string).

(** Files of the disk with the same key have the same content. *)
Definition keys_agree (root : string) (disk : files) : Prop :=
  forall f f' key c c', construct_remote_path root f = Ok key -> construct_remote_path root f' = Ok key ->
    disk !! f = Some c -> disk !! f' = Some c' -> c = c'.

(** The object of a job, and that it holds the file's content. *)
Definition stored (disk : files) (root : string) (st : Remote) (j : StorageOperatorTarget * string * bool) : Prop :=
  let '(t, f, pub) := j in
  exists key content, construct_remote_path root f = Ok key /\ disk !! f = Some content /\
    remote_get st (operator_for_file t pub) key = Some content.

Section OneUpload.
Variables (disk : files) (root : string) (retry : RetryConfig).
Hypothesis Hagree : keys_agree root disk.

Lemma write_stored op key content m st r st' f j :
  construct_remote_path root f = Ok key -> disk !! f = Some content ->
  op_write op key content m st = (r, st') -> stored disk root st j -> stored disk root st' j.
Proof.
  destruct j as [[t f'] pub]. intros Hk Hc Hw (key' & content' & Hk' & Hc' & Hg).
  exists key', content'. split; [done|]. split; [done|].
  destruct (decide ((operator_for_file t pub, key') = (op, key))) as [E|Hne].
  - injection E as E1 E2. rewrite E1, E2 in *. pose proof (Hagree _ _ _ _ _ Hk Hk' Hc Hc') as Ha.
    destruct r as [[]|e]; [erewrite write_ok by done; congruence | by erewrite write_err].
  - by erewrite write_keeps.
Qed.

Lemma attempt_stored (t : StorageOperatorTarget) f pub key content attempts a st k r st' j :
  construct_remote_path root f = Ok key -> disk !! f = Some content ->
  attempt_run (fun (_ : Z) st0 =>
      let '(r, st') := op_write (operator_for_file t pub) key content (mime f) st0 in
      (result_map_err (StorageUpload (t_provider t) f) r, st'))
    is_retryable_storage_error attempts a st k r st' ->
  (stored disk root st j -> stored disk root st' j) /\ (r = Ok tt -> stored disk root st' (t, f, pub)).
Proof.
  intros Hk Hc Hr. induction Hr as [a st v st' Hop|a st e st' Hop _|a st e st1 k r st' Hop _ _ _ [IH1 IH2]];
    destruct (op_write _ _ _ _ st) as [[u|e0] st0] eqn:Ew; simpl in Hop; simplify_eq.
  - split; [by eapply write_stored|]. intros _. exists key, content.
    repeat match goal with x : unit |- _ => destruct x end. by erewrite write_ok.
  - split; [by eapply write_stored | done].
  - split; [|done]. intros Hj. apply IH1. by eapply write_stored.
Qed.

Lemma upload_single_stored t f pub st r st' j :
  upload_single_file op_write mime disk t root f pub retry st = (r, st') ->
  (stored disk root st j -> stored disk root st' j) /\ (r = Ok tt -> stored disk root st' (t, f, pub)).
Proof.
  unfold upload_single_file. destruct (construct_remote_path root f) as [key|] eqn:Hk; [|intros; by simplify_eq].
  destruct (disk !! f) as [content|] eqn:Hc; [|intros; by simplify_eq].
  set (op := fun _ _ => _).
  destruct (retry_loop_run op is_retryable_storage_error retry (Z.max (attempts retry) 1) 1
    (Z.to_nat (Z.max (attempts retry) 1)) st) as (r' & s' & ds & Heq & Hrun & _); [lia..|].
  unfold retry_async. rewrite Heq. intros ?; simplify_eq. by eapply attempt_stored.
Qed.

Lemma join_uploads_keep jobs st r st' j :
  join_uploads op_write mime disk root retry jobs st = (r, st') ->
  stored disk root st j -> stored disk root st' j.
Proof.
  revert st. induction jobs as [|[[t f] pub] jobs IH]; intros st; simpl; [intros; by simplify_eq|].
  destruct (upload_single_file _ _ _ _ _ _ _ _ st) as [[u|e] st1] eqn:E;
    apply (upload_single_stored _ _ _ _ _ _ j) in E as [E _]; intros; simplify_eq; eauto.
Qed.

Lemma join_uploads_stored jobs st st' :
  join_uploads op_write mime disk root retry jobs st = (Ok tt, st') -> Forall (stored disk root st') jobs.
Proof.
  revert st. induction jobs as [|[[t f] pub] jobs IH]; intros st; simpl; [constructor|].
  destruct (upload_single_file _ _ _ _ _ _ _ _ st) as [[[]|e] st1] eqn:E; [|done]. intros H.
  constructor; [|by eapply IH]. eapply join_uploads_keep; [exact H|].
  by apply (upload_single_stored _ _ _ _ _ _ (t, f, pub)) in E as [_ E]; apply E.
Qed.
End OneUpload.

(** Either every upload task succeeded, or the call failed and left the disk alone. *)
Lemma upload_cases order rm storage region root fs opts disk st r disk' st' :
  fs <> [] -> (providers storage <> [] \/ selected_providers opts <> []) ->
  upload_to_all_storages via_iter op_write regex_new mime order rm storage region root fs opts disk st
    = (r, disk', st') ->
  (exists targets m jobs,
    build_storage_operator_targets via_iter storage region (selected_providers opts) = Ok targets /\
    matcher_new regex_new (public_read_include opts) (public_read_exclude opts) = Ok m /\
    upload_jobs m root targets fs = Ok jobs /\
    join_uploads op_write mime disk root (upload_retry opts) (order jobs) st = (Ok tt, st')) \/
  ((exists e, r = Err e) /\ disk' = disk).
Proof.
  intros Hfs Hprov. unfold upload_to_all_storages.
  replace (_ || _) with false by (destruct fs, (providers storage), (selected_providers opts); naive_solver).
  destruct (build_storage_operator_targets _ _ _ _) as [targets|e]; simpl; [|intros; simplify_eq; right; eauto].
  destruct (matcher_new _ _ _) as [m|e]; simpl; [|intros; simplify_eq; right; eauto].
  destruct (upload_jobs m root targets fs) as [jobs|e] eqn:Ej; [|intros; simplify_eq; right; eauto].
  destruct (join_uploads _ _ _ _ _ _ _) as [[[]|e] st1] eqn:E; [|intros; simplify_eq; right; eauto].
  intros H. left. exists targets, m, jobs. repeat split; try done.
  destruct (remove_local opts); [destruct (remove_files rm fs disk)|]; simplify_eq; done.
Qed.

Lemma upload_jobs_complete (m : PublicReadMatcher) root (targets : list (StorageOperatorTarget (Op := Op))) fs jobs t f :
  upload_jobs m root targets fs = Ok jobs -> t ∈ targets -> f ∈ fs ->
  exists pub, matches_file m root f = Ok pub /\ (t, f, pub) ∈ jobs.
Proof.
  intros Hj%collect_results_ok Ht Hf.
  assert (Hin : (t, f) ∈ list_prod targets fs)
    by (apply list_elem_of_In, in_prod; by apply list_elem_of_In).
  apply list_elem_of_lookup in Hin as [i Hi]. destruct (Forall2_lookup_l _ _ _ _ _ Hj Hi) as (y & Hy & E).
  simpl in E. destruct (matches_file m root f) as [pub|]; simpl in E; [|done]. simplify_eq.
  exists pub. split; [done|]. by eapply list_elem_of_lookup_2.
Qed.

Lemma all_jobs_stored order (m : PublicReadMatcher) root (targets : list (StorageOperatorTarget (Op := Op))) fs jobs
    disk retry st st' :
  (forall jobs : list (job (Op := Op)), Permutation (order jobs) jobs) ->
  keys_agree root disk ->
  upload_jobs m root targets fs = Ok jobs ->
  join_uploads op_write mime disk root retry (order jobs) st = (Ok tt, st') ->
  forall t f, t ∈ targets -> f ∈ fs ->
  exists pub, matches_file m root f = Ok pub /\ stored disk root st' (t, f, pub).
Proof.
  intros Hperm Hkeys Hj E t f Ht Hf.
  destruct (upload_jobs_complete _ _ _ _ _ _ _ Hj Ht Hf) as (pub & Hm & Hin). exists pub. split; [done|].
  apply join_uploads_stored in E; [|done]. rewrite Forall_forall in E. apply E. by rewrite (Hperm jobs).
Qed.


(** A local file is only removed once it is in every selected store: if a call,
    successful or not, changed the disk, then all its uploads had succeeded. *)
Theorem local_removed_only_after_upload order rm storage region root fs opts disk st r disk' st' :
  (forall jobs, Permutation (order jobs) jobs) ->
  keys_agree root disk ->
  fs <> [] -> (providers storage <> [] \/ selected_providers opts <> []) ->
  upload_to_all_storages via_iter op_write regex_new mime order rm storage region root fs opts disk st
    = (r, disk', st') ->
  disk' <> disk ->
  exists targets m,
    build_storage_operator_targets via_iter storage region (selected_providers opts) = Ok targets /\
    forall t f, t ∈ targets -> f ∈ fs ->
    exists pub, matches_file m root f = Ok pub /\ stored disk root st' (t, f, pub).
Proof.
  intros Hperm Hkeys Hfs Hprov H Hd.
  destruct (upload_cases _ _ _ _ _ _ _ _ _ _ _ _ Hfs Hprov H) as [(targets & m & jobs & ? & ? & Hj & E)|[_ ?]];
    [|done].
  exists targets, m. split; [done|]. by eapply all_jobs_stored.
Qed.

End UploadProofs.

Section Planning.
Context {Op : Type} (via_iter : string -> options -> result Op string).

(** Planning predicts uploading.  When the operators of a selection can be
    built, the dry-run plan of the same selection succeeds and lists the same
    providers and schemes in the same order; a target has a second, public
    operator exactly when it is an s3 target planned as not public. *)
Theorem plan_matches_targets storage region selected targets :
  build_storage_operator_targets via_iter storage region selected = Ok targets ->
  exists plans, plan_storage_targets storage region selected = Ok plans /\
    Forall2 (fun (t : StorageOperatorTarget (Op := Op)) p =>
      target_provider p = t_provider t /\ target_provider_kind p = t_scheme t /\
      (is_Some (t_public_operator t) <->
       target_provider_kind p = "s3" /\ target_public_read p = false)) targets plans.
Proof.
  unfold build_storage_operator_targets, plan_storage_targets.
  destruct (selected_provider_configs storage selected) as [ps|]; simpl; [|done].
  intros H%collect_results_ok. induction H as [|p t ps targets Hp _ (plans & Hplans & IH)].
  - exists []. by split.
  - unfold build_operator_target in Hp.
    destruct (resolve_storage_provider p region) as [r|] eqn:Er; simpl in Hp; [|done].
    destruct (via_iter (r_scheme r) (r_options r)) as [op|]; simpl in Hp; [|done].
    exists (mkStorageTargetPlan (r_provider r) (r_scheme r) (r_endpoint r) (r_bucket r) (r_root r)
              (r_base_url r) (r_public_read r) (r_path_style r) :: plans). cbn [collect_results].
    rewrite Er. simpl. rewrite Hplans. split; [done|]. constructor; [|done].
    destruct (String.eqb_spec (r_scheme r) "s3") as [Hs|Hs], (r_public_read r) eqn:Hpr; simpl in *;
      [|destruct (via_iter _ (<[_ := _]> _)) as [op2|]; simpl in Hp; [|done]| |];
      simplify_eq; simpl; (split; [done|]; split; [done|]); split; try done;
      try (intros [? ?]; congruence); try (by intros [? ?]).
Qed.
End Planning.

(** ** A concrete store: one map per operator, and writes that succeed *)
Module ConcreteStore.
Definition via_iter (scheme : string) (o : options) : result string string :=
  Ok (scheme +:+ ":" +:+ unwrap_or_default (o !! "default_acl")).
Abbreviation remote := (gmap (string * string) bytes).
Definition op_write (op : string) (key : string) (content : bytes) (content_type : string)
    (st : remote) : result unit string * remote := (Ok tt, <[(op, key) := content]> st).

#[export] Instance map_store : RemoteStore op_write.
Proof.
  refine {| remote_get st op k := st !! (op, k) |}; unfold op_write; intros; simplify_eq.
  - by rewrite lookup_insert_eq.
  - by rewrite lookup_insert_ne.
Defined.

Definition regex_new (pattern : string) : result (string -> bool) string := Ok (contains pattern).
Definition mime (f : string) : string := "application/octet-stream".
Definition storage : StorageConfig := mkStorageConfig
  [mkStorageProviderConfig (Some "main") "s3" None None ∅ "" true "sekai-{region}" None true None false None None].
Definition opts : StorageUploadOptions := mkUploadOptions [] ["music"] [] true 4 RetryConfig_default.
Definition file : string := "/data/jp/music/a.mp3".
Definition disk : files := {[file := [Byte.x61]]}.

Definition outcome : result unit StorageError * files * remote :=
  upload_to_all_storages via_iter op_write regex_new mime id (fun _ => None) storage "jp" "/data/jp"
    [file] opts disk ∅.

Lemma disk_agree : keys_agree "/data/jp" disk.
Proof.
  intros f f' key c c' _ _ Hf Hf'. unfold disk in *.
  apply lookup_singleton_Some in Hf as [<- <-]. by apply lookup_singleton_Some in Hf' as [_ <-].
Qed.

Lemma outcome_ok :
  upload_to_all_storages via_iter op_write regex_new mime id (fun _ => None) storage "jp" "/data/jp"
    [file] opts disk ∅ = (Ok tt, outcome.1.2, outcome.2).
Proof.
  assert (H : outcome.1.1 = Ok tt) by (vm_compute; reflexivity). revert H. unfold outcome.
  destruct (upload_to_all_storages _ _ _ _ _ _ _ _ _ _ _ _ _) as [[r d] st]. simpl. by intros ->.
Qed.

Lemma outcome_disk : outcome.1.2 !! file = None /\ disk !! file = Some [Byte.x61].
Proof. split; vm_compute; reflexivity. Qed.


Lemma local_removed_only_after_upload_witness :
  outcome.1.2 !! file = None /\
  exists targets m,
    build_storage_operator_targets via_iter storage "jp" (selected_providers opts) = Ok targets /\
    forall t f, t ∈ targets -> f ∈ [file] ->
    exists pub, matches_file m "/data/jp" f = Ok pub /\ stored op_write disk "/data/jp" outcome.2 (t, f, pub).
Proof.
  split; [apply outcome_disk|].
  apply (local_removed_only_after_upload via_iter op_write regex_new mime id (fun _ => None) storage "jp"
           "/data/jp" [file] opts disk ∅ (Ok tt) outcome.1.2 outcome.2);
    [done | apply disk_agree | done | by left | exact outcome_ok |].
  intros E. pose proof outcome_disk as [H1 H2]. rewrite E in H1. congruence.
Defined.

Lemma plan_matches_targets_witness :
  exists targets plans,
    build_storage_operator_targets via_iter storage "jp" ["main"] = Ok targets /\
    plan_storage_targets storage "jp" ["main"] = Ok plans /\
    Forall2 (fun t p => target_provider p = t_provider t /\ target_provider_kind p = t_scheme t /\
      (is_Some (t_public_operator t) <->
       target_provider_kind p = "s3" /\ target_public_read p = false)) targets plans.
Proof.
  destruct (build_storage_operator_targets via_iter storage "jp" ["main"]) as [targets|] eqn:E;
    [|vm_compute in E; discriminate].
  destruct (plan_matches_targets via_iter storage "jp" ["main"] targets E) as (plans & H1 & H2).
  exists targets, plans. split; [reflexivity | split; assumption].
Defined.
End ConcreteStore.
