(* ===== verification/AssetTasks.v ===== *)
(** * Bundles: deobfuscation, output paths, task lists

    The pure part of [src/core/asset_execution.rs]: [deobfuscate],
    [raw_bundle_output_path], the memory limiter's arithmetic, the bundle
    filters, [build_download_tasks] and [build_haruki_3d_tasks]; and
    [src/core/download_records.rs].

    A [HashMap] is iterated in an unspecified order: the task builders take the
    list of entries, and the theorems hold for every order. *)

From Stdlib Require Import Ascii.
From S2P Require Import Prelude Errors RustStr Config Models Regions AssetInfo Paths Fs.

Local Open Scope string_scope.
Local Open Scope list_scope.
Local Open Scope Z_scope.
Local Open Scope rust_scope.

(** The pattern [Err(AssetExecutionError::Cancelled)]. *)
Definition is_cancelled (e : AssetExecutionError) : bool :=
  match e with Cancelled => true | _ => false end.

(** ** Deobfuscation *)

Definition SIMPLE : bytes := map byte_of_Z [0x20; 0x00; 0x00; 0x00].
Definition XOR_HEADER : bytes := map byte_of_Z [0x10; 0x00; 0x00; 0x00].
Definition xor_pattern : bytes := map byte_of_Z [0xff; 0xff; 0xff; 0xff; 0xff; 0x00; 0x00; 0x00].

Definition byte_xor (a b : Byte.byte) : Byte.byte := byte_of_Z (Z.lxor (byte_to_Z a) (byte_to_Z b)).

Definition bytes_start_with (p data : bytes) : bool := bool_decide (take (length p) data = p).

(** The loop [for idx in 0..128 { data[4 + idx] ^= pattern[idx % 8] }], from [idx]
    with [n] iterations to go. *)
Fixpoint xor_loop (idx n : nat) (data : bytes) : bytes :=
  match n with
  | O => data
  | S n' =>
      xor_loop (S idx) n'
        (alter (fun b => byte_xor b (nth (idx mod 8) xor_pattern Byte.x00)) (4 + idx)%nat data)
  end.

(** [deobfuscate]. *)
Definition deobfuscate (data : bytes) : bytes :=
  if bytes_start_with SIMPLE data then drop 4 data
  else if bytes_start_with XOR_HEADER data then
    if (length data <? 132)%nat then drop 4 data
    else drop 4 (xor_loop 0 128 data)
  else data.

(** ** Raw bundle paths *)

(** The free function [raw_bundle_output_path]. *)
Definition raw_bundle_output_path (root : path) (bundle : string) : result path AssetExecutionError :=
  if is_empty bundle then Err (InvalidRawBundlePath bundle "path is empty")
  else if existsb (fun w => is_empty w || String.eqb w "." || String.eqb w "..") (split_on "/" bundle) then
    Err (InvalidRawBundlePath bundle
           "empty, current-directory, or parent-directory components are not allowed")
  else
    let relative := components bundle in
    if is_absolute relative then Err (InvalidRawBundlePath bundle "absolute paths are not allowed")
    else
      let? p := fold_left (fun acc c =>
          let? p := acc in
          match c with
          | Normal value => Ok (path_join p [Normal value])
          | CurDir => Err (InvalidRawBundlePath bundle "current-directory components are not allowed")
          | ParentDir => Err (InvalidRawBundlePath bundle "parent-directory components are not allowed")
          | RootDir => Err (InvalidRawBundlePath bundle "root or prefix components are not allowed")
          end) relative (Ok root) in
      Ok (if decide (extension p = Some "bundle") then p else set_extension "bundle" p).

(** ** Memory limiter *)

Definition UNIT_BYTES : Z := 1024 * 1024.

(** [bytes_to_units]. *)
Definition bytes_to_units (n : Z) : Z := Z.max (div_ceil n UNIT_BYTES) 1.

(** [struct BundleMemoryLimiter]: no semaphore when the limit is zero. *)
Record BundleMemoryLimiter : Type := mkLimiter {
  limiter_active : bool;
  limit_bytes : Z;
  limit_units : Z;
}.

(** [BundleMemoryLimiter::from_config]. *)
Definition limiter_from_config (c : AppConfig) : BundleMemoryLimiter :=
  let limit := max_in_flight_bundle_bytes (memory (resources c)) in
  if limit =? 0 then mkLimiter false limit 0
  else mkLimiter true limit (Z.max (Z.min (bytes_to_units limit) u32_max) 1).

(** The number of permits [BundleMemoryLimiter::acquire] asks for; [None] when
    there is no limit. *)
Definition acquire_units (l : BundleMemoryLimiter) (estimated_bytes : Z) : option Z :=
  if limiter_active l then Some (Z.max (Z.min (bytes_to_units estimated_bytes) (limit_units l)) 1)
  else None.

(** [post_process_backlog_capacity]. *)
Definition post_process_backlog_capacity (download_concurrency post_process_concurrency : nat) : nat :=
  Nat.max post_process_concurrency 1.

(** ** Filters and tasks *)

(** [download_path_for_region]. *)
Definition download_path_for_region (provider : RegionProviderConfig) (name : string)
    (d : AssetBundleDetail) : string :=
  match provider with
  | ColorfulPalette _ _ _ _ _ _ _ _ => name
  | Nuverse _ _ _ _ _ _ _ =>
      match download_path d with
      | Some prefix => prefix +:+ "/" +:+ name
      | None => name
      end
  end.

(** The hash a task carries: the CRC for nuverse, the content hash otherwise. *)
Definition task_hash (provider : RegionProviderConfig) (d : AssetBundleDetail) : string :=
  match provider with
  | Nuverse _ _ _ _ _ _ _ => pretty (crc d)
  | ColorfulPalette _ _ _ _ _ _ _ _ => hash d
  end.

Abbreviation DownloadRecord := (gmap string string).

(** The order of [tasks.sort_by]: priority, then name. *)
Definition task_le (a b : DownloadTask) : Prop :=
  priority a < priority b \/ priority a = priority b /\ String.le (bundle_path a) (bundle_path b).

#[export] Instance task_le_dec a b : Decision (task_le a b).
Proof. unfold task_le. apply _. Defined.

(** The order of the 3D tasks: the name alone. *)
Definition task_name_le (a b : DownloadTask) : Prop := String.le (bundle_path a) (bundle_path b).

#[export] Instance task_name_le_dec a b : Decision (task_name_le a b).
Proof. unfold task_name_le. apply _. Defined.

Section Filters.
Context (regex_new : string -> option (string -> bool)).

(** [should_download_bundle]. *)
Definition should_download_bundle (region : RegionConfig) (name : string) (cat : AssetCategory) : bool :=
  match cat with
  | OtherCategory _ => false
  | StartApp | OnDemand =>
      let compiled := compile_patterns regex_new
        match cat with StartApp => start_app (filters region) | _ => on_demand (filters region) end in
      match compiled with
      | [] => false
      | _ => matches_any compiled name
      end
  end.

(** The task of one entry of [info.bundles], or [None] where the loop of
    [build_download_tasks] continues. *)
Definition download_task (region : RegionConfig) (downloaded : DownloadRecord)
    (entry : string * AssetBundleDetail) : option DownloadTask :=
  let '(name, d) := entry in
  let f := filters region in
  if matches_any (compile_patterns regex_new (skip f)) name then None
  else
    match category d with
    | OtherCategory _ => None
    | cat =>
        let category_patterns :=
          compile_patterns regex_new match cat with StartApp => start_app f | _ => on_demand f end in
        if match category_patterns with [] => true | _ => false end
           || negb (matches_any category_patterns name)
        then None
        else
          let h := task_hash (provider region) d in
          if decide (downloaded !! name = Some h) then None
          else Some (mkDownloadTask (download_path_for_region (provider region) name d) name h cat
                       (file_size d)
                       (match first_match_index (compile_patterns regex_new (priority_filters f)) name with
                        | Some i => Z.of_nat i
                        | None => usize_max
                        end))
    end.

(** [build_download_tasks], on the entries in iteration order. *)
Definition build_download_tasks_from (region : RegionConfig) (downloaded : DownloadRecord)
    (entries : list (string * AssetBundleDetail)) : list DownloadTask :=
  merge_sort task_le (omap (download_task region downloaded) entries).
Definition build_download_tasks (region : RegionConfig) (info : AssetBundleInfo)
    (downloaded : DownloadRecord) : list DownloadTask :=
  build_download_tasks_from region downloaded (map_to_list (bundles info)).

(** [matches_raw_bundle_filters] and [filter_raw_bundle_tasks]. *)
Definition matches_raw_bundle_filters (region : RegionConfig) (name : string) : bool :=
  match raw_bundles (export region) with
  | None => false
  | Some raw =>
      let include_patterns := compile_patterns regex_new (raw_include raw) in
      let exclude_patterns := compile_patterns regex_new (raw_exclude raw) in
      (match include_patterns with [] => true | _ => matches_any include_patterns name end)
      && negb (matches_any exclude_patterns name)
  end.
Definition filter_raw_bundle_tasks (region : RegionConfig) (tasks : list DownloadTask) : list DownloadTask :=
  List.filter (fun t => matches_raw_bundle_filters region (bundle_path t)) tasks.

(** [matches_haruki_3d_filters]. *)
Definition matches_haruki_3d_filters (region : RegionConfig) (name : string) : bool :=
  let h := haruki_3d (export region) in
  if negb (h3d_enabled h) || match h3d_include h with [] => true | _ => false end then false
  else matches_any (compile_patterns regex_new (h3d_include h)) name
       && negb (matches_any (compile_patterns regex_new (h3d_exclude h)) name).

(** One entry of [build_haruki_3d_tasks]: only bundles whose current hash is recorded
    as downloaded. *)
Definition haruki_3d_task (region : RegionConfig) (downloaded : DownloadRecord)
    (entry : string * AssetBundleDetail) : option DownloadTask :=
  let '(name, d) := entry in
  if negb (matches_haruki_3d_filters region name) then None
  else
    let h := task_hash (provider region) d in
    if decide (downloaded !! name = Some h)
    then Some (mkDownloadTask (download_path_for_region (provider region) name d) name h (category d)
                 (file_size d) usize_max)
    else None.

(** [build_haruki_3d_tasks]. *)
Definition build_haruki_3d_tasks (region : RegionConfig) (info : AssetBundleInfo)
    (downloaded : DownloadRecord) : list DownloadTask :=
  merge_sort task_name_le (omap (haruki_3d_task region downloaded) (map_to_list (bundles info))).
End Filters.

(** [haruki_3d_work_dir]. *)
Definition haruki_3d_work_dir (h : Haruki3dExportConfig) : string :=
  if negb (blank (work_dir h)) then work_dir h else staging_dir h.

(** [haruki_3d_work_asset_root]. *)
Definition haruki_3d_work_asset_root (region : RegionConfig) (region_name : string)
    (resolved_asset_version : option string) : option path :=
  let h := haruki_3d (export region) in
  if negb (h3d_enabled h) then None
  else
    let run_id := match resolved_asset_version with
                  | Some v => if blank v then "current" else v
                  | None => "current"
                  end in
    let run_id := replace_char ":" "_" (replace_char "\" "_" (replace_char "/" "_" run_id)) in
    Some (path_join (path_join (path_join (components (haruki_3d_work_dir h)) (components region_name))
                       (components run_id)) [Normal "AssetBundles"]).

(** The method [raw_bundle_output_path]: the configured directory, or [AssetBundles]
    in the save directory. *)
Definition region_raw_bundle_output_path (region : RegionConfig) (asset_save_dir bundle : string)
    : result path AssetExecutionError :=
  let root := match raw_bundles (export region) with
              | Some raw => match raw_output_dir raw with
                            | Some dir => components dir
                            | None => path_join (components asset_save_dir) [Normal "AssetBundles"]
                            end
              | None => path_join (components asset_save_dir) [Normal "AssetBundles"]
              end in
  raw_bundle_output_path root bundle.

(** [build_haruki_3d_exporter_commands]. *)
Definition build_haruki_3d_exporter_commands (h : Haruki3dExportConfig) (asset_root : string)
    : list (list string) :=
  [["--emit-costume-registries"; "--master"; master_dir h; "--asset-root"; asset_root;
    "--out"; h3d_output_dir h];
   ["--emit-part-packages"; "--master"; master_dir h; "--asset-root"; asset_root;
    "--out"; h3d_output_dir h; "--manifest"; manifest_file h;
    "--part-package-process-concurrency"; pretty (h3d_process_concurrency h)]]
  ++ match role_character3d_ids h with
     | [] => []
     | ids =>
         [["--emit-role-runtimes"; "--master"; master_dir h; "--asset-root"; asset_root;
           "--out"; h3d_output_dir h]
          ++ concat (map (fun id => ["--role-character3d-id"; pretty id]) ids)]
     end.

(** ** The download record *)

(** [sonic_rs] on the record. *)
Class RecordCodec := {
  record_to_json : DownloadRecord -> result bytes string;
  record_from_json : bytes -> result DownloadRecord string;
  record_from_to r b : record_to_json r = Ok b -> record_from_json b = Ok r;
}.

Section Record.
Context `{RecordCodec}.

(** [load_download_record]: a missing file is an empty record. *)
Definition load_download_record (read : result bytes io_error) (path : string)
    : result DownloadRecord DownloadRecordError :=
  match read with
  | Ok bs => result_map_err (RecordParse path) (record_from_json bs)
  | Err NotFound => Ok ∅
  | Err source => Err (RecordRead path source)
  end.

(** [save_download_record]; [mkdir] and [wr] are the outcomes of [create_dir_all] and
    [fs::write] ([None] is success; a failed write leaves [n] bytes). *)
Definition save_download_record (mkdir : option io_error) (wr : option (io_error * nat))
    (fs : files) (path : string) (record : DownloadRecord) : result unit DownloadRecordError * files :=
  match mkdir with
  | Some source => (Err (RecordCreateParent path source), fs)
  | None =>
      match record_to_json record with
      | Err e => (Err (RecordSerialize path e), fs)
      | Ok data =>
          match wr with
          | Some (source, n) => (Err (RecordWrite path source), fs_write_partial fs path data n)
          | None => (Ok tt, fs_write fs path data)
          end
      end
  end.
End Record.

(** ** Deobfuscation: properties *)

Definition mask (j : nat) (b : Byte.byte) : Byte.byte := byte_xor b (nth (j mod 8) xor_pattern Byte.x00).

(** What the loop does, in one go: the first 128 bytes are masked. *)
Definition scramble (d : bytes) : bytes := imap (fun j b => if (j <? 128)%nat then mask j b else b) d.

Lemma pattern_bytes k : nth k xor_pattern Byte.x00 = Byte.xff \/ nth k xor_pattern Byte.x00 = Byte.x00.
Proof. do 8 (destruct k as [|k]; [by vm_compute; auto|]). right. by destruct k. Qed.

Lemma mask_involutive j b : mask j (mask j b) = b.
Proof. unfold mask. destruct (pattern_bytes (j mod 8)) as [-> | ->]; by destruct b. Qed.

Lemma scramble_involutive d : scramble (scramble d) = d.
Proof.
  unfold scramble. apply list_eq. intros i. rewrite !list_lookup_imap.
  destruct (d !! i) as [b|]; simpl; [|done]. destruct (i <? 128)%nat; [|done]. by rewrite mask_involutive.
Qed.

Lemma length_scramble d : length (scramble d) = length d.
Proof. apply length_imap. Qed.

(** The loop leaves the header alone and masks the next bytes. *)
Lemma xor_loop_lookup idx n data i :
  xor_loop idx n data !! i =
  (fun b => if decide (4 + idx <= i < 4 + idx + n)%nat then mask (i - 4) b else b) <$> data !! i.
Proof.
  revert idx data. induction n as [|n IH]; intros idx data; cbn [xor_loop].
  - destruct (data !! i); simpl; [|done]. by rewrite decide_False by lia.
  - rewrite IH. fold (mask idx). destruct (decide (i = 4 + idx)%nat) as [->|Hne].
    + rewrite list_lookup_alter_eq. destruct (data !! _); simpl; [|done].
      rewrite decide_False by lia. rewrite decide_True by lia.
      by rewrite Nat.sub_0_r.
    + rewrite list_lookup_alter_ne by done. destruct (data !! i); simpl; [|done].
      f_equal. repeat case_decide; try done; lia.
Qed.

Lemma xor_loop_scramble data : drop 4 (xor_loop 0 128 data) = scramble (drop 4 data).
Proof.
  apply list_eq. intros i. unfold scramble. rewrite list_lookup_imap, !lookup_drop, xor_loop_lookup.
  destruct (data !! (4 + i)%nat); simpl; [|done]. f_equal.
  replace (i - 0)%nat with i by lia.
  destruct (Nat.ltb_spec i 128); case_decide; try lia; done.
Qed.

Lemma bytes_start_with_app p d : bytes_start_with p (p ++ d) = true.
Proof. apply bool_decide_eq_true. by rewrite take_app_length. Qed.

(** [deobfuscate] undoes the obfuscation of the asset servers.  Content behind
    the plain marker comes back unchanged; content of at least 128 bytes whose head
    was XOR-masked behind the other marker comes back in clear; data with neither
    marker is returned as it is. *)
Theorem deobfuscate_round_trip d :
  (128 <= length d)%nat ->
  deobfuscate (SIMPLE ++ d) = d /\
  deobfuscate (XOR_HEADER ++ scramble d) = d /\
  (bytes_start_with SIMPLE d = false -> bytes_start_with XOR_HEADER d = false -> deobfuscate d = d).
Proof.
  intros Hd. split; [|split].
  - unfold deobfuscate. by rewrite bytes_start_with_app.
  - unfold deobfuscate. rewrite bytes_start_with_app.
    assert (bytes_start_with SIMPLE (XOR_HEADER ++ scramble d) = false) as -> by done.
    replace (length (XOR_HEADER ++ scramble d) <? 132)%nat with false.
    + rewrite xor_loop_scramble. apply scramble_involutive.
    + symmetry. apply Nat.ltb_ge. rewrite length_app, length_scramble.
      change (length XOR_HEADER) with 4%nat. lia.
  - intros H1 H2. unfold deobfuscate. by rewrite H1, H2.
Qed.

Lemma deobfuscate_round_trip_witness :
  deobfuscate (SIMPLE ++ repeat Byte.x2a 130) = repeat Byte.x2a 130 /\
  deobfuscate (XOR_HEADER ++ scramble (repeat Byte.x2a 130)) = repeat Byte.x2a 130 /\
  (bytes_start_with SIMPLE (repeat Byte.x2a 130) = false ->
   bytes_start_with XOR_HEADER (repeat Byte.x2a 130) = false ->
   deobfuscate (repeat Byte.x2a 130) = repeat Byte.x2a 130).
Proof. apply (deobfuscate_round_trip (repeat Byte.x2a 130)). vm_compute. lia. Defined.

(** ** Output paths: properties *)

Lemma push_all p ws bundle :
  fold_left (fun acc c =>
      let? p := acc in
      match c with
      | Normal value => Ok (path_join p [Normal value])
      | CurDir => Err (InvalidRawBundlePath bundle "current-directory components are not allowed")
      | ParentDir => Err (InvalidRawBundlePath bundle "parent-directory components are not allowed")
      | RootDir => Err (InvalidRawBundlePath bundle "root or prefix components are not allowed")
      end) (map Normal ws) (Ok p) = Ok (p ++ map Normal ws).
Proof.
  revert p. induction ws as [|w ws IH]; intros p; simpl; [by rewrite app_nil_r|].
  rewrite IH. unfold path_join. simpl. destruct p; simpl; by rewrite <- ?app_assoc.
Qed.

Lemma names_proper ws :
  existsb (fun w => is_empty w || String.eqb w "." || String.eqb w "..") ws = negb (forallb proper_name ws).
Proof.
  induction ws as [|w ws IH]; simpl; [done|]. rewrite IH. unfold proper_name.
  destruct (is_empty w), (String.eqb w "."), (String.eqb w ".."); done.
Qed.

Lemma raw_path_shape root bundle :
  raw_bundle_output_path root bundle =
  if forallb proper_name (split_on "/" bundle) then
    let p := root ++ map Normal (split_on "/" bundle) in
    Ok (if decide (extension p = Some "bundle") then p else set_extension "bundle" p)
  else if is_empty bundle then Err (InvalidRawBundlePath bundle "path is empty")
  else Err (InvalidRawBundlePath bundle
              "empty, current-directory, or parent-directory components are not allowed").
Proof.
  unfold raw_bundle_output_path. rewrite names_proper.
  destruct (forallb proper_name (split_on "/" bundle)) eqn:E; simpl.
  - assert (is_empty bundle = false) as -> by (by destruct bundle).
    rewrite (components_proper bundle E). rewrite push_all. simpl.
    pose proof (split_on_not_nil "/" bundle). by destruct (split_on "/" bundle).
  - by destruct (is_empty bundle).
Qed.

(** Raw bundles stay inside their directory.  A bundle name is accepted exactly
    when none of its pieces is empty, [.] or [..]; the file written is then the
    directory followed by proper names only, ends in [.bundle], and differs from
    the bundle name at most in the last piece. *)
Theorem raw_path_confined root bundle p :
  raw_bundle_output_path root bundle = Ok p ->
  forallb proper_name (split_on "/" bundle) = true /\
  exists dirs file, p = root ++ map Normal dirs ++ [Normal file] /\
    dirs = removelast (split_on "/" bundle) /\
    forallb proper_name dirs = true /\ extension p = Some "bundle" /\
    (exists stem, file = stem +:+ ".bundle").
Proof.
  rewrite raw_path_shape. destruct (forallb proper_name (split_on "/" bundle)) eqn:E;
    [|by destruct (is_empty bundle)]. simpl.
  destruct (exists_last (split_on_not_nil "/" bundle)) as (dirs & w & Hw). rewrite Hw in *.
  rewrite map_app in *. simpl. rewrite app_assoc. intros Hp. split; [done|].
  rewrite forallb_app in E. apply andb_true_iff in E as [Ed Ew].
  assert (w <> "") by (by intros ->).
  assert (Hext : forall q v, extension (q ++ [Normal v]) = (split_extension v).2)
    by (intros; unfold extension; by rewrite file_name_snoc).
  rewrite Hext in Hp. injection Hp as <-. rewrite removelast_snoc. case_decide as Hd.
  - exists dirs, w. rewrite app_assoc, Hext. repeat split; try done.
    unfold split_extension in Hd. destruct (rsplit_dot w) as [[[|a stem] ext]|] eqn:Er; simplify_eq/=.
    apply rsplit_dot_Some in Er as ->. by exists (String a stem).
  - unfold set_extension. rewrite file_name_snoc, removelast_snoc.
    exists dirs, ((split_extension w).1 +:+ ".bundle"). rewrite app_assoc, Hext.
    split; [done|]. split; [done|]. split; [done|]. split; [by apply split_extension_set | by eexists].
Qed.

Lemma raw_path_confined_witness :
  raw_bundle_output_path [RootDir; Normal "raw"] "music/song.1" =
    Ok [RootDir; Normal "raw"; Normal "music"; Normal "song.bundle"] /\
  forallb proper_name (split_on "/" "music/song.1") = true /\
  exists dirs file,
    [RootDir; Normal "raw"; Normal "music"; Normal "song.bundle"]
      = [RootDir; Normal "raw"] ++ map Normal dirs ++ [Normal file] /\
    dirs = removelast (split_on "/" "music/song.1") /\
    forallb proper_name dirs = true /\
    extension [RootDir; Normal "raw"; Normal "music"; Normal "song.bundle"] = Some "bundle" /\
    (exists stem, file = stem +:+ ".bundle").
Proof. split; [reflexivity|]. apply raw_path_confined. reflexivity. Defined.

(** The extension is replaced, not added: bundles whose names differ only after
    the last dot are written to the same file. *)
Theorem raw_path_collision root :
  raw_bundle_output_path root "music/song.1" = raw_bundle_output_path root "music/song.2" /\
  exists p, raw_bundle_output_path root "music/song.1" = Ok p.
Proof.
  rewrite !raw_path_shape. cbn [forallb split_on]. simpl forallb. cbn iota.
  assert (H : forall v, (split_extension v).1 = "song" -> (split_extension v).2 <> Some "bundle" ->
    (let p := root ++ map Normal ["music"; v] in
     if decide (extension p = Some "bundle") then p else set_extension "bundle" p)
    = root ++ [Normal "music"; Normal "song.bundle"]).
  { intros v H1 H2. simpl. change (root ++ [Normal "music"; Normal v]) with (root ++ [Normal "music"] ++ [Normal v]).
    rewrite app_assoc. unfold extension, set_extension. rewrite file_name_snoc, removelast_snoc.
    rewrite decide_False by done. rewrite H1, <- app_assoc. done. }
  split; [|by eexists]. f_equal. etrans; [apply (H "song.1"); done | symmetry; apply (H "song.2"); done].
Qed.

(** ** Memory limiter: properties *)

(** The memory guard.  Whatever the estimates, an acquisition asks for at least
    one unit and never more than the limiter has, so it can always be granted; and
    bundles held together, none of which is larger than the whole budget, sum up to
    at most the configured number of bytes rounded up to a mebibyte. *)
Theorem memory_guard c sizes :
  let l := limiter_from_config c in
  let limit := max_in_flight_bundle_bytes (memory (resources c)) in
  0 < limit -> bytes_to_units limit <= u32_max ->
  Forall (fun n => 0 <= n <= limit_units l * UNIT_BYTES) sizes ->
  sumZ (map (fun n => default 0 (acquire_units l n)) sizes) <= limit_units l ->
  Forall (fun n => exists u, acquire_units l n = Some u /\ 1 <= u <= limit_units l) sizes /\
  sumZ sizes <= limit_units l * UNIT_BYTES < limit + UNIT_BYTES.
Proof.
  intros l limit Hpos H32 Hsizes Hheld.
  assert (Hl : l = mkLimiter true limit (bytes_to_units limit)).
  { unfold l, limiter_from_config. fold limit. destruct (Z.eqb_spec limit 0); [lia|].
    f_equal. unfold bytes_to_units in *. lia. }
  rewrite Hl in *. simpl in *. set (units := bytes_to_units limit) in *.
  assert (Hu : units * UNIT_BYTES < limit + UNIT_BYTES /\ 1 <= units).
  { pose proof (div_ceil_spec limit UNIT_BYTES (units - 1) ltac:(done) ltac:(lia)) as Hs.
    unfold units, bytes_to_units in *. unfold UNIT_BYTES in *. lia. }
  assert (Hone : forall n, 0 <= n <= units * UNIT_BYTES ->
    n <= Z.max (Z.min (bytes_to_units n) units) 1 * UNIT_BYTES).
  { intros n Hn. pose proof (div_ceil_spec n UNIT_BYTES (bytes_to_units n) ltac:(done) ltac:(lia)) as Hs.
    unfold bytes_to_units, UNIT_BYTES in *. lia. }
  split.
  - eapply Forall_impl; [exact Hsizes|]. intros n _. eexists. split; [done|]. simpl. lia.
  - assert (sumZ sizes <= sumZ (map (fun n => Z.max (Z.min (bytes_to_units n) units) 1) sizes) * UNIT_BYTES).
    { clear Hheld. induction Hsizes as [|n sizes Hn _ IH]; simpl; [lia|]. specialize (Hone n Hn). lia. }
    unfold UNIT_BYTES in *. lia.
Qed.

Lemma memory_guard_witness :
  let c := mkAppConfig 3 ServerConfig_default ExecutionConfig_default BackendsConfig_default
    (mkResourcesConfig CpuResourceConfig_default (mkMemoryResourceConfig (5 * UNIT_BYTES)))
    ConcurrencyConfig_default (mkStorageConfig [])
    (mkChartHashConfig false None None None None false Gpg None None)
    PollerConfig_default HipConfig_default ∅ in
  let l := limiter_from_config c in
  Forall (fun n => exists u, acquire_units l n = Some u /\ 1 <= u <= limit_units l) [3000000; 1] /\
  sumZ [3000000; 1] <= limit_units l * UNIT_BYTES < 5 * UNIT_BYTES + UNIT_BYTES.
Proof.
  intros c l. apply (memory_guard c [3000000; 1]).
  - reflexivity.
  - vm_compute. discriminate.
  - repeat constructor; vm_compute; discriminate.
  - vm_compute. discriminate.
Defined.

(** ** Task lists: properties *)

#[export] Instance task_le_total : Total task_le.
Proof.
  intros a b. unfold task_le. destruct (Z.lt_trichotomy (priority a) (priority b)) as [?|[?|?]]; auto.
  destruct (total String.le (bundle_path a) (bundle_path b)); auto.
Qed.
#[export] Instance task_le_trans : Transitive task_le.
Proof.
  intros a b c. unfold task_le. intros [?|[? ?]] [?|[? ?]]; try (left; lia).
  right. split; [lia|]. by etrans.
Qed.
#[export] Instance task_name_le_total : Total task_name_le.
Proof. intros a b. unfold task_name_le. apply (total String.le). Qed.
#[export] Instance task_name_le_trans : Transitive task_name_le.
Proof. intros a b c. unfold task_name_le. by etrans. Qed.

Section TaskProofs.
Context (regex_new : string -> option (string -> bool)).

Lemma download_task_name region dl e t : download_task regex_new region dl e = Some t -> bundle_path t = e.1.
Proof.
  destruct e as [name d]. unfold download_task. intros H. repeat case_match; simplify_eq; done.
Qed.

Lemma names_nodup region dl entries :
  NoDup entries.*1 -> NoDup (map bundle_path (omap (download_task regex_new region dl) entries)).
Proof.
  induction entries as [|e l IH]; csimpl; [constructor|]. intros [Hn Hnd]%NoDup_cons.
  destruct (download_task regex_new region dl e) as [t|] eqn:E; [|by apply IH].
  simpl. constructor; [|by apply IH].
  intros (t' & Ht & Hin)%list_elem_of_In%in_map_iff. apply Hn.
  apply list_elem_of_In, list_elem_of_omap in Hin as (e' & He' & E').
  apply download_task_name in E, E'. rewrite <- E, <- Ht, E'. by apply list_elem_of_fmap_2.
Qed.

(** The loop's conditions are those of the exported predicates. *)
Lemma download_task_Some region dl name d t :
  download_task regex_new region dl (name, d) = Some t <->
  should_skip_bundle regex_new (filters region) name = false /\
  should_download_bundle regex_new region name (category d) = true /\
  dl !! name <> Some (task_hash (provider region) d) /\
  t = mkDownloadTask (download_path_for_region (provider region) name d) name
        (task_hash (provider region) d) (category d) (file_size d)
        (match download_priority regex_new (filters region) name with
         | Some i => Z.of_nat i | None => usize_max end).
Proof.
  unfold download_task, should_skip_bundle, should_download_bundle, download_priority.
  assert (Hno : forall (P Q : Prop), (None = Some t <-> true = false /\ P) /\
    (None = Some t <-> false = false /\ false = true /\ Q)) by (split; split; naive_solver).
  destruct (matches_any (compile_patterns regex_new (skip _)) name); [apply (Hno _ True)|].
  destruct (category d) as [| |other] eqn:Ec; [| |apply (Hno True)].
  all: destruct (compile_patterns regex_new _) as [|r rs]; [apply (Hno True)|].
  all: cbn [orb]; destruct (matches_any (r :: rs) name); cbn [negb]; [|apply (Hno True)].
  all: case_decide as Hd; [split; [done | intros (_ & _ & ? & _); done]|].
  all: split; [intros [= <-]; done | intros (_ & _ & _ & ->); done].
Qed.

Definition task_entries (info : AssetBundleInfo) (entries : list (string * AssetBundleDetail)) : Prop :=
  Permutation entries (map_to_list (bundles info)).

Lemma tasks_same_name region dl info entries t1 t2 :
  task_entries info entries ->
  t1 ∈ omap (download_task regex_new region dl) entries ->
  t2 ∈ omap (download_task regex_new region dl) entries ->
  bundle_path t1 = bundle_path t2 -> t1 = t2.
Proof.
  intros Hp. rewrite !list_elem_of_omap.
  intros ([n1 d1] & H1 & E1) ([n2 d2] & H2 & E2) Hn.
  rewrite Hp in H1, H2. apply elem_of_map_to_list in H1, H2.
  pose proof (download_task_name _ _ _ _ E1). pose proof (download_task_name _ _ _ _ E2).
  simpl in *. assert (n1 = n2) as -> by congruence. assert (d1 = d2) as -> by congruence. congruence.
Qed.

(** The download list does not depend on the iteration order of the bundle
    table, and is sorted by priority and then by name. *)
Theorem download_tasks_order_independent region info dl entries :
  task_entries info entries ->
  build_download_tasks_from regex_new region dl entries = build_download_tasks regex_new region info dl /\
  StronglySorted task_le (build_download_tasks regex_new region info dl).
Proof.
  intros Hp. split; [|apply StronglySorted_merge_sort; apply _].
  unfold build_download_tasks, build_download_tasks_from.
  assert (Hperm : Permutation (omap (download_task regex_new region dl) entries)
                    (omap (download_task regex_new region dl) (map_to_list (bundles info))))
    by (by apply omap_perm).
  apply (StronglySorted_unique_strong task_le).
  - intros t1 t2. rewrite !merge_sort_Permutation. intros H1 H2 H12 H21.
    eapply (tasks_same_name region dl info entries); [done | done | by rewrite Hperm|].
    destruct H12 as [?|[? ?]], H21 as [?|[? ?]]; try lia. by apply (anti_symm String.le).
  - apply StronglySorted_merge_sort; apply _.
  - apply StronglySorted_merge_sort; apply _.
  - by rewrite !merge_sort_Permutation.
Qed.

(** Exactly the right bundles are downloaded: there is a task for a name if and
    only if the bundle table has it, no skip rule matches, its category's rules
    match, and the record does not already hold its current hash; and it carries
    that bundle's hash, size and priority. No name occurs twice. *)
Theorem download_tasks_exact region info dl t :
  (t ∈ build_download_tasks regex_new region info dl <->
   exists d, bundles info !! bundle_path t = Some d /\
     should_skip_bundle regex_new (filters region) (bundle_path t) = false /\
     should_download_bundle regex_new region (bundle_path t) (category d) = true /\
     dl !! bundle_path t <> Some (task_hash (provider region) d) /\
     t = mkDownloadTask (download_path_for_region (provider region) (bundle_path t) d) (bundle_path t)
           (task_hash (provider region) d) (category d) (file_size d)
           (match download_priority regex_new (filters region) (bundle_path t) with
            | Some i => Z.of_nat i | None => usize_max end)) /\
  NoDup (map bundle_path (build_download_tasks regex_new region info dl)).
Proof.
  unfold build_download_tasks, build_download_tasks_from. split.
  - rewrite merge_sort_Permutation, list_elem_of_omap. split.
    + intros ([n d] & Hd & Ht). apply elem_of_map_to_list in Hd.
      pose proof (download_task_name _ _ _ _ Ht) as Hn. simpl in Hn. subst n.
      apply download_task_Some in Ht as (? & ? & ? & ?). by exists d.
    + intros (d & Hd & H1 & H2 & H3 & H4). exists (bundle_path t, d).
      split; [by apply elem_of_map_to_list|]. by apply download_task_Some.
  - rewrite merge_sort_Permutation. apply names_nodup. apply NoDup_fst_map_to_list.
Qed.
End TaskProofs.

(** The background 3D export never races the downloader for a bundle: with the
    same record, no bundle has both a pending download and a 3D task. *)
Theorem haruki_tasks_disjoint regex_new region info dl t t' :
  t ∈ build_haruki_3d_tasks regex_new region info dl ->
  t' ∈ build_download_tasks regex_new region info dl ->
  bundle_path t <> bundle_path t'.
Proof.
  unfold build_haruki_3d_tasks, build_download_tasks, build_download_tasks_from.
  rewrite !merge_sort_Permutation, !list_elem_of_omap.
  intros ([n d] & Hd & Ht) ([n' d'] & Hd' & Ht') E. apply elem_of_map_to_list in Hd, Hd'.
  pose proof (download_task_name _ _ _ _ _ Ht') as Hn'. simpl in Hn'.
  apply download_task_Some in Ht' as (_ & _ & Hnot & _).
  unfold haruki_3d_task in Ht. destruct (negb _); [done|]. case_decide as Hyes; simplify_eq/=.
Qed.

(** The record survives a restart: a record that was saved is the one the next
    run loads, and a failed directory creation or serialization leaves the file as
    it was. *)
Theorem record_round_trip `{RecordCodec} mkdir fs path record r fs' :
  save_download_record mkdir None fs path record = (r, fs') ->
  (r = Ok tt -> load_download_record (fs_read fs' path) path = Ok record) /\
  (r <> Ok tt -> fs' = fs).
Proof.
  unfold save_download_record. destruct mkdir; [intros; by simplify_eq|].
  destruct (record_to_json record) as [data|] eqn:E; [|intros; by simplify_eq].
  intros; simplify_eq. split; [|done]. intros _. unfold load_download_record, fs_read, fs_write.
  rewrite lookup_insert_eq. by rewrite (record_from_to _ _ E).
Qed.

(** ** Concrete instances *)
Module ConcreteTasks.
#[export] Instance countable_record_codec : RecordCodec.
Proof.
  refine {| record_to_json r := Ok (pos_bytes (encode r));
            record_from_json b := ok_or (decode (bytes_pos b)) "not a record" |}.
  intros r b [= <-]. by rewrite bytes_pos_bytes, decode_encode.
Defined.

Definition regex_new (pattern : string) : option (string -> bool) := Some (contains pattern).
Definition region : RegionConfig :=
  mkRegionConfig true RegionProviderConfig_default (mkCryptoConfig None None) ""
    (mkRegionPathsConfig None None) (mkRegionFiltersConfig ["a"] [] ["skip"] ["b"])
    (RegionExportConfig_with false None
       (mkHaruki3dExportConfig true "" "" "" "" "" "" 0 [] ["c"] [] true true true false))
    (mkRegionUploadConfig false [] (mkUploadPublicReadConfig [] []) false).
Definition info : AssetBundleInfo :=
  mkAssetBundleInfo None None
    (list_to_map [("a", sample_detail 1 10); ("ab", sample_detail 2 20); ("askip", sample_detail 3 30);
                  ("c", sample_detail 4 40)]).
(** ["c"] is already there. *)
Definition record : DownloadRecord := {["c" := ""]}.

Lemma download_tasks_order_independent_witness :
  map bundle_path (build_download_tasks regex_new region info record) = ["ab"; "a"] /\
  build_download_tasks_from regex_new region record (rev (map_to_list (bundles info)))
    = build_download_tasks regex_new region info record /\
  StronglySorted task_le (build_download_tasks regex_new region info record).
Proof.
  split; [vm_compute; reflexivity|].
  apply (download_tasks_order_independent regex_new region info record (rev (map_to_list (bundles info)))).
  unfold task_entries. symmetry. apply Permutation_rev.
Defined.

Definition task_c : DownloadTask := mkDownloadTask "c" "c" "" StartApp 40 usize_max.
Definition task_a : DownloadTask := mkDownloadTask "a" "a" "" StartApp 10 usize_max.

Lemma haruki_tasks_disjoint_witness : bundle_path task_c <> bundle_path task_a.
Proof.
  apply (haruki_tasks_disjoint regex_new region info record task_c task_a).
  - assert (build_haruki_3d_tasks regex_new region info record = [task_c]) as E by (vm_compute; reflexivity).
    rewrite E. apply list_elem_of_here.
  - assert (exists x, build_download_tasks regex_new region info record = [x; task_a]) as [x E]
      by (eexists; vm_compute; reflexivity).
    rewrite E. apply list_elem_of_further, list_elem_of_here.
Defined.

Lemma record_round_trip_witness :
  exists r fs', save_download_record None None ∅ "rec.json" record = (r, fs') /\
  (r = Ok tt -> load_download_record (fs_read fs' "rec.json") "rec.json" = Ok record) /\
  (r <> Ok tt -> fs' = ∅).
Proof.
  destruct (save_download_record None None ∅ "rec.json" record) as [r fs'] eqn:E.
  exists r, fs'. split; [reflexivity|]. apply (record_round_trip None ∅ "rec.json" record r fs' E).
Defined.
End ConcreteTasks.
