(* ===== verification/Scheduler.v ===== *)
(** * The bundle scheduler

    The main loop of [AssetExecutionContext::execute_with_filter] in
    [src/core/asset_execution.rs], with the tasks it spawns
    ([spawn_bundle_download_job] and the post-process task) and
    [record_completed_bundle].

    A bundle goes through [phase]s.  The four semaphores (download slots,
    post-process backlog, memory, post-process) are the permits held by the
    bundles in each phase; [sched_step] is one atomic section of one task or one
    turn of the main loop, in any order.  What a download or an export returns is
    arbitrary. *)

From stdpp Require Import relations.
From S2P Require Import Prelude Errors Config Models AssetInfo AssetTasks.

Local Open Scope string_scope.
Local Open Scope list_scope.

Abbreviation outcome := (result unit AssetExecutionError).

(** Where a bundle stands.  [Fetched] and [PostDone] are finished tasks the main
    loop has not joined yet. *)
Inductive phase : Type :=
| Waiting                  (* still in pending_tasks *)
| WaitSlot
| WaitBacklog
| WaitMemory
| Running
| Fetched (r : outcome)
| PostWait
| PostRunning
| PostDone (r : outcome)
| Finished (ok : bool).

Abbreviation job := (DownloadTask * phase)%type.

(** The limits of a run. *)
Record limits : Type := mkLimits {
  download_concurrency : nat;
  post_process_concurrency : nat;
  memory_limiter : BundleMemoryLimiter;
  save_batch : nat;                (* batch_save_size *)
}.

(** The limits [execute_with_filter] derives from the configuration. *)
Definition limits_of (app : AppConfig) (c : ConcurrencyConfig) : limits :=
  let media_encode := Z.max (Z.max (Z.max (audio_encode c) (video_encode c)) (media_encode c)) 1 in
  mkLimits (Z.to_nat (Z.max (download c) 1))
    (Z.to_nat (Z.max (if (post_process c =? 0)%Z then media_encode else post_process c) 1))
    (limiter_from_config app)
    (Z.to_nat (batch_save_size (execution app))).

(** [memory_limiter.acquire(task.file_size.max(0) as usize)], in units. *)
Definition units_of (l : BundleMemoryLimiter) (t : DownloadTask) : nat :=
  Z.to_nat (default 0%Z (acquire_units l (Z.max (task_file_size t) 0))).

(** The state of a run. *)
Record sched : Type := mkSched {
  jobs : list job;
  next : nat;                      (* position of pending_tasks *)
  completed : nat;
  failed : nat;
  pending_save : nat;
  downloaded : DownloadRecord;
  on_disk : option DownloadRecord; (* the record file, when this run wrote it *)
  events : list ExecutionProgressUpdate;
  cancel : bool;                   (* cancel_flag *)
  returned : option AssetExecutionError;
}.

(** ** Permits *)

Definition count (f : job -> nat) (l : list job) : nat := list_sum (map f l).

Definition holds_slot (j : job) : nat :=
  match j.2 with WaitBacklog | WaitMemory | Running => 1 | _ => 0 end.
Definition holds_backlog (j : job) : nat :=
  match j.2 with
  | WaitMemory | Running | Fetched (Ok _) | PostWait | PostRunning => 1
  | _ => 0
  end.
Definition holds_memory (lim : BundleMemoryLimiter) (j : job) : nat :=
  match j.2 with
  | Running | Fetched (Ok _) | PostWait | PostRunning => units_of lim j.1
  | _ => 0
  end.
Definition holds_post (j : job) : nat :=
  match j.2 with PostRunning => 1 | _ => 0 end.

(** Tasks in [joins] and in [post_process_joins]; bundles not started. *)
Definition in_joins (j : job) : nat :=
  match j.2 with WaitSlot | WaitBacklog | WaitMemory | Running | Fetched _ => 1 | _ => 0 end.
Definition in_posts (j : job) : nat :=
  match j.2 with PostWait | PostRunning | PostDone _ => 1 | _ => 0 end.
Definition not_started (j : job) : nat := match j.2 with Waiting => 1 | _ => 0 end.
Definition finished_with (b : bool) (j : job) : nat :=
  match j.2 with Finished b' => if Bool.eqb b b' then 1 else 0 | _ => 0 end.

(** ** Operations *)

Definition with_jobs (s : sched) (l : list job) : sched :=
  mkSched l (next s) (completed s) (failed s) (pending_save s) (downloaded s) (on_disk s) (events s)
    (cancel s) (returned s).
Definition with_events (s : sched) (es : list ExecutionProgressUpdate) : sched :=
  mkSched (jobs s) (next s) (completed s) (failed s) (pending_save s) (downloaded s) (on_disk s)
    (events s ++ es) (cancel s) (returned s).

Definition set_phase (s : sched) (i : nat) (t : DownloadTask) (p : phase) : sched :=
  with_jobs s (<[i := (t, p)]> (jobs s)).

(** [if let Some(task) = pending_tasks.next() { spawn_bundle_download_job(...) }]. *)
Definition spawn_next (s : sched) : sched :=
  match jobs s !! next s with
  | Some (t, _) =>
      mkSched (<[next s := (t, WaitSlot)]> (jobs s)) (S (next s)) (completed s) (failed s) (pending_save s)
        (downloaded s) (on_disk s) (events s) (cancel s) (returned s)
  | None => s
  end.

(** The state before the main loop: the first tasks are spawned. *)
Definition sched_init (lim : limits) (tasks : list DownloadTask) (record : DownloadRecord) (cancel : bool)
    : sched :=
  Nat.iter (download_concurrency lim) spawn_next
    (mkSched (map (fun t => (t, Waiting)) tasks) 0 0 0 0 record None [] cancel None).

(** [record_completed_bundle]; [save] is the outcome of writing the record. *)
Definition record_completed_bundle (lim : limits) (save : outcome) (t : DownloadTask) (s : sched) : sched :=
  let record := <[bundle_path t := bundle_hash t]> (downloaded s) in
  let pending := S (pending_save s) in
  let es := events s ++ [BundleCompleted (bundle_path t)] in
  if (0 <? save_batch lim)%nat && (save_batch lim <=? pending)%nat then
    match save with
    | Ok _ => mkSched (jobs s) (next s) (S (completed s)) (failed s) 0 record (Some record)
                (es ++ [RecordSaved (size record)]) (cancel s) (returned s)
    | Err _ => mkSched (jobs s) (next s) (S (completed s)) (failed s) 0 record (on_disk s)
                 es (cancel s) (returned s)
    end
  else mkSched (jobs s) (next s) (S (completed s)) (failed s) pending record (on_disk s)
         es (cancel s) (returned s).

(** A bundle that failed. *)
Definition count_failure (t : DownloadTask) (s : sched) : sched :=
  mkSched (jobs s) (next s) (completed s) (S (failed s)) (pending_save s) (downloaded s) (on_disk s)
    (events s ++ [BundleFailed (bundle_path t) ""]) (cancel s) (returned s).

(** [return Err(AssetExecutionError::Cancelled)]. *)
Definition return_cancelled (s : sched) : sched :=
  mkSched (jobs s) (next s) (completed s) (failed s) (pending_save s) (downloaded s) (on_disk s) (events s)
    (cancel s) (Some Cancelled).

(** The first branch of the [select!]: a download task is joined. *)
Definition join_download (s : sched) (i : nat) (t : DownloadTask) (r : outcome) : sched :=
  match r with
  | Ok _ => spawn_next (with_events (set_phase s i t PostWait) [SchedulerTelemetry (Some (bundle_path t))])
  | Err e =>
      if is_cancelled e then return_cancelled s
      else spawn_next (count_failure t (set_phase s i t (Finished false)))
  end.

(** The second branch: a post-process task is joined. *)
Definition join_post (lim : limits) (save : outcome) (s : sched) (i : nat) (t : DownloadTask) (r : outcome)
    : sched :=
  match r with
  | Ok _ => record_completed_bundle lim save t (set_phase s i t (Finished true))
  | Err e =>
      if is_cancelled e then return_cancelled s
      else count_failure t (set_phase s i t (Finished false))
  end.

(** Whether a waiting bundle can be given what it waits for. *)
Definition can_acquire (lim : limits) (s : sched) (t : DownloadTask) (p : phase) : Prop :=
  match p with
  | WaitSlot => (count holds_slot (jobs s) < download_concurrency lim)%nat
  | WaitBacklog =>
      (count holds_backlog (jobs s)
       < post_process_backlog_capacity (download_concurrency lim) (post_process_concurrency lim))%nat
  | WaitMemory =>
      limiter_active (memory_limiter lim) = true ->
      (count (holds_memory (memory_limiter lim)) (jobs s) + units_of (memory_limiter lim) t
       <= Z.to_nat (limit_units (memory_limiter lim)))%nat
  | PostWait => (count holds_post (jobs s) < post_process_concurrency lim)%nat
  | _ => False
  end.

(** One step of a run. *)
Inductive sched_step (lim : limits) : sched -> sched -> Prop :=
| set_cancel s :
    returned s = None -> cancel s = false ->
    sched_step lim s (mkSched (jobs s) (next s) (completed s) (failed s) (pending_save s) (downloaded s)
                        (on_disk s) (events s) true None)
| get_slot s i t :
    returned s = None -> jobs s !! i = Some (t, WaitSlot) -> can_acquire lim s t WaitSlot ->
    sched_step lim s (set_phase s i t (if cancel s then Fetched (Err Cancelled) else WaitBacklog))
| get_backlog s i t :
    returned s = None -> jobs s !! i = Some (t, WaitBacklog) -> can_acquire lim s t WaitBacklog ->
    sched_step lim s (set_phase s i t WaitMemory)
| get_memory s i t :
    returned s = None -> jobs s !! i = Some (t, WaitMemory) -> can_acquire lim s t WaitMemory ->
    sched_step lim s (with_events (set_phase s i t Running) [BundleStarted (bundle_path t)])
| fetch_done s i t r :
    returned s = None -> jobs s !! i = Some (t, Running) ->
    sched_step lim s (set_phase s i t (Fetched r))
| joined_download s i t r :
    returned s = None -> jobs s !! i = Some (t, Fetched r) ->
    sched_step lim s (join_download s i t r)
| get_post s i t :
    returned s = None -> jobs s !! i = Some (t, PostWait) -> can_acquire lim s t PostWait ->
    sched_step lim s (set_phase s i t PostRunning)
| post_done s i t r :
    returned s = None -> jobs s !! i = Some (t, PostRunning) ->
    sched_step lim s (set_phase s i t (PostDone r))
| joined_post s i t r save :
    returned s = None -> jobs s !! i = Some (t, PostDone r) ->
    sched_step lim s (join_post lim save s i t r).

(** The loop's exit condition: [joins] and [post_process_joins] are empty. *)
Definition loop_done (s : sched) : bool :=
  (count in_joins (jobs s) =? 0)%nat && (count in_posts (jobs s) =? 0)%nat.

(** The states of a run over [tasks]. *)
Definition sched_reachable (lim : limits) (tasks : list DownloadTask) (record : DownloadRecord) (s : sched) : Prop :=
  exists flag, rtc (sched_step lim) (sched_init lim tasks record flag) s.

(** ** Counting *)

Lemma count_insert f l i x y :
  l !! i = Some x -> (count f (<[i := y]> l) + f x = count f l + f y)%nat.
Proof.
  revert i. induction l as [|z l IH]; intros [|i] H; simplify_eq/=; unfold count in *; simpl; [lia|].
  specialize (IH i H). simpl in IH. lia.
Qed.

Lemma count_zero f l : count f l = 0%nat <-> forall i x, l !! i = Some x -> f x = 0%nat.
Proof.
  unfold count. induction l as [|z l IH]; simpl.
  - split; [intros _ i x; by rewrite lookup_nil | done].
  - split.
    + intros H [|i] x Hx; simplify_eq/=; [lia|]. apply IH in Hx; [done|lia].
    + intros H. pose proof (H 0%nat z eq_refl). enough (list_sum (map f l) = 0)%nat by lia.
      apply IH. intros i x Hx. by apply (H (S i)).
Qed.

Lemma count_le_member f l i x : l !! i = Some x -> (f x <= count f l)%nat.
Proof.
  revert i. unfold count. induction l as [|z l IH]; intros [|i] H; simplify_eq/=; [lia|].
  specialize (IH i H). lia.
Qed.

Lemma count_positive f l : (0 < count f l)%nat -> exists i x, l !! i = Some x /\ (0 < f x)%nat.
Proof.
  unfold count. induction l as [|z l IH]; simpl; [lia|]. intros H.
  destruct (f z) as [|k] eqn:E.
  - destruct IH as (i & x & Hx & Hf); [lia|]. by exists (S i), x.
  - exists 0%nat, z. split; [done|lia].
Qed.

(** ** Invariant *)

(** Limits with at least one permit each. *)
Definition limits_wf (lim : limits) : Prop :=
  (1 <= download_concurrency lim)%nat /\ (1 <= post_process_concurrency lim)%nat /\
  (limiter_active (memory_limiter lim) = true -> 1 <= limit_units (memory_limiter lim))%Z.

Lemma limits_of_wf app c : limits_wf (limits_of app c).
Proof.
  unfold limits_wf, limits_of. simpl. split; [lia|]. split; [lia|].
  unfold limiter_from_config. destruct (_ =? 0)%Z; simpl; [done|lia].
Qed.

Lemma record_completed_fields lim save t s :
  let s' := record_completed_bundle lim save t s in
  jobs s' = jobs s /\ next s' = next s /\ completed s' = S (completed s) /\ failed s' = failed s /\
  downloaded s' = <[bundle_path t := bundle_hash t]> (downloaded s) /\
  cancel s' = cancel s /\ returned s' = returned s.
Proof. unfold record_completed_bundle. destruct (_ && _); [destruct save|]; done. Qed.

Section Invariant.
Context (lim : limits) (tasks : list DownloadTask).

(** [k] is the number of download tasks about to be spawned. *)
Record sinv (k : nat) (s : sched) : Prop := {
  i_tasks : map fst (jobs s) = tasks;
  i_next i x : jobs s !! i = Some x -> (x.2 = Waiting <-> next s <= i)%nat;
  i_slot : (count holds_slot (jobs s) <= download_concurrency lim)%nat;
  i_backlog : (count holds_backlog (jobs s) <= Nat.max (post_process_concurrency lim) 1)%nat;
  i_memory : limiter_active (memory_limiter lim) = true ->
    (count (holds_memory (memory_limiter lim)) (jobs s) <= Z.to_nat (limit_units (memory_limiter lim)))%nat;
  i_post : (count holds_post (jobs s) <= post_process_concurrency lim)%nat;
  i_joins : (count in_joins (jobs s) + k <= download_concurrency lim)%nat;
  i_full : (0 < count not_started (jobs s))%nat ->
    (count in_joins (jobs s) + k = download_concurrency lim)%nat;
  i_completed : completed s = count (finished_with true) (jobs s);
  i_failed : failed s = count (finished_with false) (jobs s);
}.

(** Everything but the phases is irrelevant to the invariant. *)
Lemma sinv_same k s s' :
  jobs s' = jobs s -> next s' = next s -> completed s' = completed s -> failed s' = failed s ->
  sinv k s -> sinv k s'.
Proof. intros E1 E2 E3 E4 []. split; rewrite ?E1, ?E2, ?E3, ?E4; done. Qed.

Lemma map_fst_insert (l : list job) i t p p' :
  l !! i = Some (t, p) -> map fst (<[i := (t, p')]> l) = map fst l.
Proof.
  intros H. change (map fst) with (fmap (M := list) (@fst DownloadTask phase)).
  rewrite list_fmap_insert. simpl. apply list_insert_id. by rewrite list_lookup_fmap, H.
Qed.

Ltac counts Hi t p' :=
  let go f := (let H := fresh "Hc" in pose proof (count_insert f _ _ _ (t, p') Hi) as H;
    cbn [holds_slot holds_backlog holds_memory holds_post in_joins in_posts not_started finished_with
         fst snd Bool.eqb] in H) in
  go holds_slot; go holds_backlog; go (holds_memory (memory_limiter lim)); go holds_post;
  go in_joins; go in_posts; go not_started; go (finished_with true); go (finished_with false).

Lemma spawn_next_inv k s : sinv (S k) s -> sinv k (spawn_next s).
Proof.
  intros Hs. destruct Hs as [H1 H2 H3 H4 H5 H6 H7 H8 H9 H10]. unfold spawn_next.
  destruct (jobs s !! next s) as [[t p]|] eqn:Hi.
  - assert (p = Waiting) as -> by (by apply (H2 _ _ Hi)).
    counts Hi t WaitSlot. split; simpl; try lia.
    + by rewrite (map_fst_insert _ _ _ _ _ Hi).
    + intros i x Hx. destruct (decide (i = next s)) as [->|Hne].
      * rewrite list_lookup_insert_eq in Hx by (by eapply lookup_lt_Some). simplify_eq/=. split; [done|lia].
      * rewrite list_lookup_insert_ne in Hx by done. rewrite (H2 _ _ Hx). lia.
    + intros Ha. specialize (H5 Ha). lia.
  - split; try done; try lia.
    assert (count not_started (jobs s) = 0%nat); [|lia]. apply count_zero. intros i [t p] Hx.
    assert (i < next s)%nat.
    { apply lookup_ge_None in Hi. apply lookup_lt_Some in Hx. lia. }
    unfold not_started. destruct p; try done. simpl. assert (next s <= i)%nat by (by apply (H2 _ _ Hx)). lia.
Qed.

Lemma init_inv record flag : sinv 0 (sched_init lim tasks record flag).
Proof.
  unfold sched_init. set (s0 := mkSched _ _ _ _ _ _ _ _ _ _).
  assert (Hk : forall n k s, (n <= k)%nat -> sinv k s -> sinv (k - n) (Nat.iter n spawn_next s)).
  { induction n as [|n IH]; intros k s Hn Hs; [by rewrite Nat.sub_0_r|]. simpl.
    apply spawn_next_inv. replace (S (k - S n)) with (k - n)%nat by lia. apply IH; [lia|done]. }
  replace 0%nat with (download_concurrency lim - download_concurrency lim)%nat by lia.
  apply Hk; [done|].
  assert (Hz : forall f, (forall t, f (t, Waiting) = 0%nat) -> count f (jobs s0) = 0%nat).
  { intros f Hf. apply count_zero. intros i x Hx. simpl in Hx.
    change (map ?g tasks) with (g <$> tasks) in Hx. rewrite list_lookup_fmap in Hx.
    destruct (tasks !! i); simplify_eq/=. apply Hf. }
  split; rewrite ?Hz by done; try done; try lia.
  - simpl. by rewrite map_map, map_id.
  - intros i x Hx. simpl in Hx. change (map ?g tasks) with (g <$> tasks) in Hx.
    rewrite list_lookup_fmap in Hx. destruct (tasks !! i); simplify_eq/=. split; [lia|done].
  - intros _. by rewrite Hz.
Qed.

(** A job of the state changes to a phase that does not wait to be started. *)
Lemma next_insert s i t p p' :
  (forall j x, jobs s !! j = Some x -> (x.2 = Waiting <-> next s <= j)%nat) ->
  jobs s !! i = Some (t, p) -> p <> Waiting -> p' <> Waiting ->
  forall j x, <[i := (t, p')]> (jobs s) !! j = Some x -> (x.2 = Waiting <-> next s <= j)%nat.
Proof.
  intros Hn Hi Hp Hp' j x Hx. destruct (decide (i = j)) as [<-|Hne].
  - rewrite list_lookup_insert_eq in Hx by (by eapply lookup_lt_Some). simplify_eq/=.
    pose proof (Hn _ _ Hi) as Hw. simpl in Hw. split; [done | intros H; by apply Hw in H].
  - rewrite list_lookup_insert_ne in Hx by done. by apply Hn.
Qed.

Ltac phase_step Hs Hi t p' :=
  destruct Hs as [H1 H2 H3 H4 H5 H6 H7 H8 H9 H10]; counts Hi t p';
  split; cbn [jobs next completed failed set_phase with_jobs with_events count_failure return_cancelled];
  [by rewrite (map_fst_insert _ _ _ _ _ Hi) | by eapply next_insert | try lia
  | try lia | (let Ha := fresh in intros Ha; specialize (H5 Ha)); try lia | try lia
  | try lia | try (intros ?; lia) | try lia | try lia].

Lemma step_inv s s' : limits_wf lim -> sinv 0 s -> sched_step lim s s' -> sinv 0 s'.
Proof.
  intros Hwf Hs Hstep. revert Hs.
  destruct Hstep as [s Hr Hc|s i t Hr Hi Ha|s i t Hr Hi Ha|s i t Hr Hi Ha|s i t r Hr Hi|s i t r Hr Hi
    |s i t Hr Hi Ha|s i t r Hr Hi|s i t r save Hr Hi]; intros Hs.
  - by apply (sinv_same 0 s).
  - simpl in Ha. destruct (cancel s); [phase_step Hs Hi t (Fetched (Err Cancelled)) | phase_step Hs Hi t WaitBacklog].
  - simpl in Ha. unfold post_process_backlog_capacity in Ha. phase_step Hs Hi t WaitMemory.
  - simpl in Ha. phase_step Hs Hi t Running. specialize (Ha H). lia.
  - destruct r as [u|e]; [phase_step Hs Hi t (Fetched (Ok u)) | phase_step Hs Hi t (Fetched (Err e))].
  - destruct r as [u|e]; simpl.
    + apply spawn_next_inv. phase_step Hs Hi t PostWait.
    + destruct (is_cancelled e); [by apply (sinv_same 0 s)|]. apply spawn_next_inv.
      phase_step Hs Hi t (Finished false).
  - simpl in Ha. phase_step Hs Hi t PostRunning.
  - phase_step Hs Hi t (PostDone r).
  - destruct r as [u|e]; simpl.
    + destruct (record_completed_fields lim save t (set_phase s i t (Finished true)))
        as (E1 & E2 & E3 & E4 & _).
      apply (sinv_same 0 (mkSched (<[i := (t, Finished true)]> (jobs s)) (next s) (S (completed s)) (failed s)
        0 ∅ None [] false None)); [done..|].
      phase_step Hs Hi t (Finished true).
    + destruct (is_cancelled e); [by apply (sinv_same 0 s)|]. phase_step Hs Hi t (Finished false).
Qed.
End Invariant.

Lemma reachable_sinv lim tasks record s :
  limits_wf lim -> sched_reachable lim tasks record s -> sinv lim tasks 0 s.
Proof.
  intros Hwf [flag Hr]. assert (H0 : sinv lim tasks 0 (sched_init lim tasks record flag)) by apply init_inv.
  induction Hr as [|a b c Hab _ IH]; [done|]. by eapply IH, step_inv.
Qed.

(** ** Safety *)

(** Concurrency limits.  In every state of a run, whatever the interleaving,
    no more than [download_concurrency] downloads are spawned, the bundles between
    download and the end of post-processing fit the backlog, those being
    post-processed fit the post-process limit, and the memory units held by
    in-flight bundles never exceed the limiter's. *)
Theorem scheduler_limits lim tasks record s :
  limits_wf lim -> sched_reachable lim tasks record s ->
  (count in_joins (jobs s) <= download_concurrency lim)%nat /\
  (count holds_backlog (jobs s) <= post_process_concurrency lim)%nat /\
  (count holds_post (jobs s) <= post_process_concurrency lim)%nat /\
  (limiter_active (memory_limiter lim) = true ->
   Z.of_nat (count (holds_memory (memory_limiter lim)) (jobs s)) <= limit_units (memory_limiter lim))%Z.
Proof.
  intros Hwf [H1 H2 H3 H4 H5 H6 H7 H8 H9 H10]%reachable_sinv; [|done]. destruct Hwf as (W1 & W2 & W3).
  split; [lia|]. split; [lia|]. split; [lia|]. intros Ha. specialize (H5 Ha). specialize (W3 Ha). lia.
Qed.

(** ** No deadlock *)

(** Bundles that need no permit to go on. *)
Definition autonomous (p : phase) : bool :=
  match p with Running | Fetched _ | PostRunning | PostDone _ => true | _ => false end.

Lemma units_fit l t : (limiter_active l = true -> 1 <= limit_units l)%Z ->
  limiter_active l = true -> (units_of l t <= Z.to_nat (limit_units l))%nat.
Proof. unfold units_of, acquire_units. intros Hl Ha. rewrite Ha in *. simpl. specialize (Hl eq_refl). lia. Qed.

(** A count is zero when no job has a phase that contributes. *)
Lemma count_phases f (test : phase -> bool) l :
  (forall t p, test p = false -> f (t, p) = 0%nat) ->
  (forall i t p, l !! i = Some (t, p) -> test p = false) -> count f l = 0%nat.
Proof. intros Hf Hl. apply count_zero. intros i [t p] Hi. apply Hf. by eapply Hl. Qed.

Lemma has_phase (test : phase -> bool) (l : list job) :
  (exists i t p, l !! i = Some (t, p) /\ test p = true) \/
  (forall i t p, l !! i = Some (t, p) -> test p = false).
Proof.
  induction l as [|[t p] l [(i & t' & p' & Hi & Hp)|IH]].
  - right. intros i t p. by rewrite lookup_nil.
  - left. by exists (S i), t', p'.
  - destruct (test p) eqn:E; [left; by exists 0%nat, t, p|]. right. intros [|i] t' p' Hi; simplify_eq/=; eauto.
Qed.

Definition is_wait (w p : phase) : bool :=
  match w, p with
  | WaitSlot, WaitSlot | WaitBacklog, WaitBacklog | WaitMemory, WaitMemory | PostWait, PostWait => true
  | _, _ => false
  end.

Lemma is_wait_exists w (l : list job) :
  (exists i t p, l !! i = Some (t, p) /\ is_wait w p = true) -> exists i t, l !! i = Some (t, w).
Proof. intros (i & t & p & Hi & Hw). exists i, t. destruct w, p; done. Qed.

(** C34: no deadlock.  While downloads or post-processing tasks are outstanding, either
    some bundle can go on by itself, or there is a semaphore with waiters all of
    which could be granted right now, so that whichever the semaphore serves first
    (in particular the first come) goes on. *)
Theorem scheduler_no_deadlock lim tasks record s :
  limits_wf lim -> sched_reachable lim tasks record s ->
  returned s = None -> loop_done s = false ->
  (exists i t p, jobs s !! i = Some (t, p) /\ autonomous p = true) \/
  (exists w, (exists i t, jobs s !! i = Some (t, w)) /\
     forall i t, jobs s !! i = Some (t, w) -> can_acquire lim s t w).
Proof.
  intros Hwf Hs%reachable_sinv Hr Hd; [|done]. destruct Hwf as (W1 & W2 & W3).
  destruct (has_phase autonomous (jobs s)) as [Ha|Hauto]; [by left|]. right.
  destruct (has_phase (is_wait PostWait) (jobs s)) as [Hw|Hpw].
  { exists PostWait. split; [by apply is_wait_exists|]. intros i t _. simpl.
    rewrite (count_phases holds_post (fun p => autonomous p)); [lia | by intros t' [] | done]. }
  destruct (has_phase (is_wait WaitMemory) (jobs s)) as [Hw|Hwm].
  { exists WaitMemory. split; [by apply is_wait_exists|]. intros i t _. simpl. intros Ha.
    rewrite (count_phases _ (fun p => autonomous p || is_wait PostWait p)).
    - by apply units_fit.
    - by intros t' [].
    - intros j t' p Hj. by rewrite (Hauto _ _ _ Hj), (Hpw _ _ _ Hj). }
  destruct (has_phase (is_wait WaitBacklog) (jobs s)) as [Hw|Hwb].
  { exists WaitBacklog. split; [by apply is_wait_exists|]. intros i t _. simpl.
    unfold post_process_backlog_capacity.
    rewrite (count_phases _ (fun p => autonomous p || is_wait PostWait p || is_wait WaitMemory p)); [lia | |].
    - by intros t' [| | | | | [] | | | |].
    - intros j t' p Hj. by rewrite (Hauto _ _ _ Hj), (Hpw _ _ _ Hj), (Hwm _ _ _ Hj). }
  destruct (has_phase (is_wait WaitSlot) (jobs s)) as [Hw|Hws].
  { exists WaitSlot. split; [by apply is_wait_exists|]. intros i t _. simpl.
    rewrite (count_phases _ (fun p => autonomous p || is_wait WaitMemory p || is_wait WaitBacklog p)); [lia | |].
    - by intros t' [].
    - intros j t' p Hj. by rewrite (Hauto _ _ _ Hj), (Hwm _ _ _ Hj), (Hwb _ _ _ Hj). }
  exfalso. unfold loop_done in Hd.
  rewrite (count_phases in_joins (fun p => autonomous p || is_wait WaitMemory p || is_wait WaitBacklog p
    || is_wait WaitSlot p)), (count_phases in_posts (fun p => autonomous p || is_wait PostWait p)) in Hd; try done.
  - by intros t [].
  - intros j t' p Hj. by rewrite (Hauto _ _ _ Hj), (Hpw _ _ _ Hj).
  - by intros t [].
  - intros j t' p Hj. by rewrite (Hauto _ _ _ Hj), (Hwm _ _ _ Hj), (Hwb _ _ _ Hj), (Hws _ _ _ Hj).
Qed.

(** ** Termination and completeness *)

Definition rank (j : job) : nat :=
  match j.2 with
  | Waiting => 9 | WaitSlot => 8 | WaitBacklog => 7 | WaitMemory => 6 | Running => 5 | Fetched _ => 4
  | PostWait => 3 | PostRunning => 2 | PostDone _ => 1 | Finished _ => 0
  end.

Definition measure (s : sched) : nat :=
  count rank (jobs s) + (if cancel s then 0 else 1) + match returned s with Some _ => 0 | None => 1 end.

Lemma spawn_next_rank lim tasks k s :
  sinv lim tasks k s -> (count rank (jobs (spawn_next s)) <= count rank (jobs s))%nat /\
  cancel (spawn_next s) = cancel s /\ returned (spawn_next s) = returned s.
Proof.
  intros Hs. unfold spawn_next. destruct (jobs s !! next s) as [[t p]|] eqn:Hi; [|done].
  assert (p = Waiting) as -> by (by apply (i_next _ _ _ _ Hs _ _ Hi)).
  pose proof (count_insert rank _ _ _ (t, WaitSlot) Hi) as H. cbn [rank snd] in H. simpl. split; [lia|done].
Qed.

Lemma joined_inv lim tasks s i t p' :
  sinv lim tasks 0 s -> forall p, jobs s !! i = Some (t, p) -> p <> Waiting -> p' <> Waiting ->
  forall s', jobs s' = <[i := (t, p')]> (jobs s) -> next s' = next s ->
  (count rank (jobs (spawn_next s')) <= count rank (jobs s'))%nat /\
  cancel (spawn_next s') = cancel s' /\ returned (spawn_next s') = returned s'.
Proof.
  intros Hs p Hi Hp Hp' s' Ej En. unfold spawn_next.
  destruct (jobs s' !! next s') as [[t0 p0]|] eqn:Hn; [|done].
  assert (p0 = Waiting) as ->.
  { rewrite Ej, En in Hn. by apply (next_insert s i t p p' (i_next _ _ _ _ Hs) Hi Hp Hp' _ _ Hn). }
  pose proof (count_insert rank _ _ _ (t0, WaitSlot) Hn) as H. cbn [rank snd] in H. simpl. split; [lia|done].
Qed.

Lemma step_measure lim tasks s s' :
  sinv lim tasks 0 s -> sched_step lim s s' -> (measure s' < measure s)%nat.
Proof.
  intros Hs Hstep. revert Hs. unfold measure.
  destruct Hstep as [s Hr Hc|s i t Hr Hi Ha|s i t Hr Hi Ha|s i t Hr Hi Ha|s i t r Hr Hi|s i t r Hr Hi
    |s i t Hr Hi Ha|s i t r Hr Hi|s i t r save Hr Hi]; intros Hs; rewrite ?Hr.
  - simpl. rewrite Hc. lia.
  - pose proof (count_insert rank _ _ _ (t, if cancel s then Fetched (Err Cancelled) else WaitBacklog) Hi) as H.
    cbn [jobs cancel returned set_phase with_jobs]. rewrite Hr. destruct (cancel s); cbn [rank snd] in H; lia.
  - pose proof (count_insert rank _ _ _ (t, WaitMemory) Hi) as H; cbn [rank snd] in H; simpl; rewrite Hr. lia.
  - pose proof (count_insert rank _ _ _ (t, Running) Hi) as H; cbn [rank snd] in H; simpl; rewrite Hr. lia.
  - pose proof (count_insert rank _ _ _ (t, Fetched r) Hi) as H; cbn [rank snd] in H; simpl; rewrite Hr. lia.
  - destruct r as [u|e]; unfold join_download.
    + set (s1 := with_events _ _).
      destruct (joined_inv _ _ _ _ _ PostWait Hs _ Hi ltac:(done) ltac:(done) s1 eq_refl eq_refl) as (H1 & H2 & H3).
      pose proof (count_insert rank _ _ _ (t, PostWait) Hi) as H; cbn [rank snd] in H.
      rewrite H2, H3. simpl in *. rewrite Hr. lia.
    + destruct (is_cancelled e); [simpl; lia|]. set (s1 := count_failure _ _).
      destruct (joined_inv _ _ _ _ _ (Finished false) Hs _ Hi ltac:(done) ltac:(done) s1 eq_refl eq_refl)
        as (H1 & H2 & H3).
      pose proof (count_insert rank _ _ _ (t, Finished false) Hi) as H; cbn [rank snd] in H.
      rewrite H2, H3. simpl in *. rewrite Hr. lia.
  - pose proof (count_insert rank _ _ _ (t, PostRunning) Hi) as H; cbn [rank snd] in H; simpl; rewrite Hr. lia.
  - pose proof (count_insert rank _ _ _ (t, PostDone r) Hi) as H; cbn [rank snd] in H; simpl; rewrite Hr. lia.
  - destruct r as [u|e]; simpl.
    + destruct (record_completed_fields lim save t (set_phase s i t (Finished true)))
        as (E1 & _ & _ & _ & _ & E2 & E3). rewrite E1, E2, E3.
      pose proof (count_insert rank _ _ _ (t, Finished true) Hi) as H; cbn [rank snd] in H; simpl. rewrite Hr. lia.
    + destruct (is_cancelled e); [simpl; lia|].
      pose proof (count_insert rank _ _ _ (t, Finished false) Hi) as H; cbn [rank snd] in H; simpl. rewrite Hr. lia.
Qed.

Lemma measure_bound lim tasks record flag :
  (measure (sched_init lim tasks record flag) <= 9 * length tasks + 2)%nat.
Proof.
  unfold sched_init. set (s0 := mkSched _ _ _ _ _ _ _ _ _ _).
  pose proof (i_tasks _ _ _ _ (init_inv lim tasks record flag)) as Ht.
  assert (Hc : forall l : list job, (count rank l <= 9 * length l)%nat).
  { intros l. unfold count. induction l as [|[t p] l IH]; simpl; [lia|].
    assert (rank (t, p) <= 9)%nat by (destruct p; unfold rank; simpl; lia). lia. }
  unfold measure. rewrite <- Ht, length_map. fold s0.
  pose proof (Hc (jobs (sched_init lim tasks record flag))). unfold sched_init in *. fold s0 in H |- *.
  destruct (cancel _), (returned _); lia.
Qed.

(** Termination.  No run is longer than nine steps per bundle and two more,
    whatever downloads and exports return and however the tasks interleave. *)
Theorem scheduler_terminates lim tasks record flag n s :
  limits_wf lim -> nsteps (sched_step lim) n (sched_init lim tasks record flag) s ->
  (n <= 9 * length tasks + 2)%nat.
Proof.
  intros Hwf Hn. pose proof (measure_bound lim tasks record flag) as Hb.
  pose proof (init_inv lim tasks record flag) as Hs.
  enough (n + measure s <= measure (sched_init lim tasks record flag))%nat by lia.
  clear Hb. induction Hn as [|n a b c Hab Hbc IH]; [lia|].
  pose proof (step_measure _ _ _ _ Hs Hab). specialize (IH (step_inv _ _ _ _ Hwf Hs Hab)). lia.
Qed.

(** With the invariant, the exit condition leaves nothing behind. *)
Lemma done_all_finished lim tasks s :
  limits_wf lim -> sinv lim tasks 0 s -> loop_done s = true ->
  (forall i x, jobs s !! i = Some x -> exists ok, x.2 = Finished ok) /\
  (completed s + failed s = length tasks)%nat.
Proof.
  intros Hwf Hs Hd. destruct Hs as [H1 H2 H3 H4 H5 H6 H7 H8 H9 H10]. destruct Hwf as (W1 & _ & _).
  unfold loop_done in Hd. apply andb_true_iff in Hd as [Hj%Nat.eqb_eq Hp%Nat.eqb_eq].
  assert (Hns : count not_started (jobs s) = 0%nat) by (destruct (count not_started (jobs s)); lia).
  assert (Hfin : forall i x, jobs s !! i = Some x -> exists ok, x.2 = Finished ok).
  { intros i [t p] Hi. pose proof (proj1 (count_zero _ _) Hj _ _ Hi).
    pose proof (proj1 (count_zero _ _) Hp _ _ Hi). pose proof (proj1 (count_zero _ _) Hns _ _ Hi).
    destruct p; simpl in *; try done. by eexists. }
  split; [done|]. rewrite H9, H10, <- H1, length_map.
  clear -Hfin. unfold count. induction (jobs s) as [|[t p] l IH]; simpl; [done|].
  destruct (Hfin 0%nat (t, p) eq_refl) as [ok Hok]. simpl in Hok. subst p.
  rewrite <- IH by (intros i x Hx; by apply (Hfin (S i))). destruct ok; simpl; lia.
Qed.

(** C24: nothing is forgotten.  When the loop ends without cancellation, every planned
    bundle was attempted and is counted once, as completed or as failed. *)
Theorem scheduler_complete lim tasks record s :
  limits_wf lim -> sched_reachable lim tasks record s -> loop_done s = true ->
  (forall i x, jobs s !! i = Some x -> exists ok, x.2 = Finished ok) /\
  (completed s + failed s = length tasks)%nat.
Proof. intros Hwf Hs Hd. eapply done_all_finished; [done | by eapply reachable_sinv | done]. Qed.

(** ** The record *)

Definition done_ok (l : list job) (i : nat) (t : DownloadTask) : Prop := l !! i = Some (t, Finished true).

(** The record is the one of the start, updated with the bundles that completed. *)
Definition rinv (record : DownloadRecord) (s : sched) : Prop :=
  (forall i t, done_ok (jobs s) i t -> downloaded s !! bundle_path t = Some (bundle_hash t)) /\
  (forall name, (forall i t, done_ok (jobs s) i t -> bundle_path t <> name) ->
     downloaded s !! name = record !! name).

Lemma rinv_keep record s s' :
  (forall i t, done_ok (jobs s') i t <-> done_ok (jobs s) i t) -> downloaded s' = downloaded s ->
  rinv record s -> rinv record s'.
Proof.
  intros Hd E [R1 R2]. split.
  - intros i t Hi. rewrite E. by eapply R1, Hd.
  - intros name Hn. rewrite E. apply R2. intros i t Hi. by apply (Hn i), Hd.
Qed.

Lemma done_ok_insert l i t p p' j u :
  l !! i = Some (t, p) -> p <> Finished true -> p' <> Finished true ->
  done_ok (<[i := (t, p')]> l) j u <-> done_ok l j u.
Proof.
  intros Hi Hp Hp'. unfold done_ok. destruct (decide (i = j)) as [<-|Hne].
  - rewrite list_lookup_insert_eq by (by eapply lookup_lt_Some). rewrite Hi. naive_solver.
  - by rewrite list_lookup_insert_ne.
Qed.

(** Spawning does not touch completed bundles. *)
Lemma spawn_done_ok s :
  (forall j x, jobs s !! j = Some x -> (x.2 = Waiting <-> next s <= j)%nat) ->
  (forall j u, done_ok (jobs (spawn_next s)) j u <-> done_ok (jobs s) j u) /\
  downloaded (spawn_next s) = downloaded s.
Proof.
  intros Hn. unfold spawn_next. destruct (jobs s !! next s) as [[t p]|] eqn:Hi; [|done].
  assert (p = Waiting) as -> by (by apply (Hn _ _ Hi)). split; [|done].
  intros j u. simpl. by apply done_ok_insert with Waiting.
Qed.

Lemma unique_task lim tasks k s i j t t' p p' :
  sinv lim tasks k s -> NoDup (map bundle_path tasks) ->
  jobs s !! i = Some (t, p) -> jobs s !! j = Some (t', p') -> bundle_path t = bundle_path t' -> i = j.
Proof.
  intros Hs Hnd Hi Hj E. rewrite <- (i_tasks _ _ _ _ Hs), map_map in Hnd.
  change (map ?f ?l) with (f <$> l) in Hnd.
  eapply NoDup_lookup; [exact Hnd | |]; rewrite list_lookup_fmap, ?Hi, ?Hj; simpl; [done|congruence].
Qed.

Lemma step_rinv lim tasks record s s' :
  NoDup (map bundle_path tasks) -> sinv lim tasks 0 s -> sched_step lim s s' ->
  rinv record s -> rinv record s'.
Proof.
  intros Hnd Hs Hstep. revert Hs.
  assert (Hset : forall s i t p p', jobs s !! i = Some (t, p) -> p <> Finished true -> p' <> Finished true ->
    rinv record s -> rinv record (set_phase s i t p')).
  { intros s0 i t p p' Hi Hp Hp'. apply rinv_keep; [|done]. intros j u. by apply done_ok_insert with p. }
  assert (Hspawn : forall s i t p p' s1, sinv lim tasks 0 s -> jobs s !! i = Some (t, p) ->
    p <> Waiting -> p' <> Waiting -> p <> Finished true -> p' <> Finished true ->
    jobs s1 = <[i := (t, p')]> (jobs s) -> next s1 = next s -> downloaded s1 = downloaded s ->
    rinv record s -> rinv record (spawn_next s1)).
  { intros s0 i t p p' s1 Hs Hi Hp Hp' Hf Hf' E1 E2 E3. destruct (spawn_done_ok s1) as [D1 D2].
    { rewrite E1, E2. by eapply next_insert; [apply (i_next _ _ _ _ Hs)|..]. }
    apply rinv_keep; [|congruence]. intros j u. rewrite D1, E1. by apply done_ok_insert with p. }
  destruct Hstep as [s Hr Hc|s i t Hr Hi Ha|s i t Hr Hi Ha|s i t Hr Hi Ha|s i t r Hr Hi|s i t r Hr Hi
    |s i t Hr Hi Ha|s i t r Hr Hi|s i t r save Hr Hi]; intros Hs Hri.
  - by apply (rinv_keep record s).
  - apply (Hset _ _ _ _ _ Hi); [done | by destruct (cancel s) | done].
  - by apply (Hset _ _ _ _ _ Hi).
  - apply (rinv_keep record (set_phase s i t Running)); [done | done | by apply (Hset _ _ _ _ _ Hi)].
  - by apply (Hset _ _ _ _ _ Hi).
  - destruct r as [u|e]; simpl; [by eapply (Hspawn s i t _ PostWait)|].
    destruct (is_cancelled e); [by apply (rinv_keep record s) | by eapply (Hspawn s i t _ (Finished false))].
  - by apply (Hset _ _ _ _ _ Hi).
  - by apply (Hset _ _ _ _ _ Hi).
  - destruct r as [u|e]; simpl.
    + destruct (record_completed_fields lim save t (set_phase s i t (Finished true)))
        as (E1 & _ & _ & _ & E2 & _). destruct Hri as [R1 R2].
      assert (Hin : done_ok (<[i := (t, Finished true)]> (jobs s)) i t)
        by (unfold done_ok; rewrite list_lookup_insert_eq; [done | by eapply lookup_lt_Some]).
      assert (Hother : forall j u', j <> i ->
        done_ok (<[i := (t, Finished true)]> (jobs s)) j u' <-> done_ok (jobs s) j u')
        by (intros j u' Hne; unfold done_ok; by rewrite list_lookup_insert_ne).
      split; rewrite E2; cbn [jobs downloaded set_phase with_jobs] in *; rewrite E1.
      * intros j u' Hj. simpl in Hj. destruct (decide (j = i)) as [->|Hne].
        { unfold done_ok in *. simplify_eq. by rewrite lookup_insert_eq. }
        apply Hother in Hj; [|done]. rewrite lookup_insert_ne; [by eapply R1|].
        intros E. apply Hne. by eapply unique_task.
      * intros name Hn. rewrite lookup_insert_ne by (by eapply Hn). apply R2. intros j u' Hj.
        apply (Hn j). simpl. apply Hother; [|done]. intros ->. unfold done_ok in Hj. congruence.
    + destruct (is_cancelled e); [by apply (rinv_keep record s)|].
      apply (rinv_keep record (set_phase s i t (Finished false))); [done | done | by apply (Hset _ _ _ _ _ Hi)].
Qed.

Lemma init_done_ok lim tasks record flag :
  (forall i t, ~ done_ok (jobs (sched_init lim tasks record flag)) i t) /\
  downloaded (sched_init lim tasks record flag) = record.
Proof.
  unfold sched_init. set (s0 := mkSched _ _ _ _ _ _ _ _ _ _).
  induction (download_concurrency lim) as [|n [IH1 IH2]]; simpl.
  - split; [|done]. intros i t. unfold done_ok. simpl.
    change (map ?f tasks) with (f <$> tasks). rewrite list_lookup_fmap. by destruct (tasks !! i).
  - set (s1 := Nat.iter n spawn_next s0) in *. unfold spawn_next.
    destruct (jobs s1 !! next s1) as [[t p]|] eqn:Hi; [|by split]. simpl. split; [|done].
    intros j u. unfold done_ok. destruct (decide (j = next s1)) as [->|Hne].
    + by rewrite list_lookup_insert_eq by (by eapply lookup_lt_Some).
    + rewrite list_lookup_insert_ne by done. apply IH1.
Qed.

(** The record the run keeps (and saves) is right at every moment: it holds the
    current hash of every bundle that completed, and is the loaded one elsewhere, so
    that a bundle that failed or was cancelled is tried again by the next run. *)
Theorem scheduler_record lim tasks record s :
  limits_wf lim -> NoDup (map bundle_path tasks) -> sched_reachable lim tasks record s ->
  (forall i t, jobs s !! i = Some (t, Finished true) -> downloaded s !! bundle_path t = Some (bundle_hash t)) /\
  (forall name, (forall i t, jobs s !! i = Some (t, Finished true) -> bundle_path t <> name) ->
     downloaded s !! name = record !! name).
Proof.
  intros Hwf Hnd [flag Hr]. destruct (init_done_ok lim tasks record flag) as [D1 D2].
  assert (Hi : rinv record (sched_init lim tasks record flag)).
  { split; [intros i t H; by apply D1 in H | intros; by rewrite D2]. }
  pose proof (init_inv lim tasks record flag) as Hs. clear D1 D2.
  induction Hr as [|a b c Hab _ IH]; [done|]. apply IH; [by eapply step_rinv | by eapply step_inv].
Qed.

(** ** Executable runs *)

Section Exec.
Context (lim : limits) (fetch post : DownloadTask -> outcome).

(** The step of job [i], with [fetch] and [post] for what its tasks return; [None]
    when it cannot go on. *)
Definition advance (s : sched) (i : nat) : option sched :=
  match returned s, jobs s !! i with
  | None, Some (t, p) =>
      match p with
      | WaitSlot =>
          if (count holds_slot (jobs s) <? download_concurrency lim)%nat
          then Some (set_phase s i t (if cancel s then Fetched (Err Cancelled) else WaitBacklog)) else None
      | WaitBacklog =>
          if (count holds_backlog (jobs s) <? post_process_backlog_capacity (download_concurrency lim)
                                                (post_process_concurrency lim))%nat
          then Some (set_phase s i t WaitMemory) else None
      | WaitMemory =>
          if negb (limiter_active (memory_limiter lim)) ||
             (count (holds_memory (memory_limiter lim)) (jobs s) + units_of (memory_limiter lim) t
              <=? Z.to_nat (limit_units (memory_limiter lim)))%nat
          then Some (with_events (set_phase s i t Running) [BundleStarted (bundle_path t)]) else None
      | Running => Some (set_phase s i t (Fetched (fetch t)))
      | Fetched r => Some (join_download s i t r)
      | PostWait =>
          if (count holds_post (jobs s) <? post_process_concurrency lim)%nat
          then Some (set_phase s i t PostRunning) else None
      | PostRunning => Some (set_phase s i t (PostDone (post t)))
      | PostDone r => Some (join_post lim (Ok tt) s i t r)
      | _ => None
      end
  | _, _ => None
  end.

Fixpoint run_path (s : sched) (path : list nat) : option sched :=
  match path with
  | [] => Some s
  | i :: path' => match advance s i with Some s' => run_path s' path' | None => None end
  end.

Lemma advance_step s i s' : advance s i = Some s' -> sched_step lim s s'.
Proof.
  unfold advance. destruct (returned s) eqn:Hr; [done|]. destruct (jobs s !! i) as [[t p]|] eqn:Hi; [|done].
  destruct p; try done.
  - destruct (Nat.ltb_spec (count holds_slot (jobs s)) (download_concurrency lim)); [|done].
    intros [= <-]. by apply get_slot.
  - destruct (Nat.ltb_spec (count holds_backlog (jobs s))
      (post_process_backlog_capacity (download_concurrency lim) (post_process_concurrency lim))); [|done].
    intros [= <-]. by apply get_backlog.
  - destruct (negb _ || _) eqn:E; [|done]. intros [= <-]. apply get_memory; [done | done|].
    intros Ha. rewrite Ha in E. by apply Nat.leb_le in E.
  - intros [= <-]. by apply fetch_done.
  - intros [= <-]. by apply joined_download.
  - destruct (Nat.ltb_spec (count holds_post (jobs s)) (post_process_concurrency lim)); [|done].
    intros [= <-]. by apply get_post.
  - intros [= <-]. by apply post_done.
  - intros [= <-]. by apply joined_post.
Qed.

Lemma run_path_steps s path s' : run_path s path = Some s' -> nsteps (sched_step lim) (length path) s s'.
Proof.
  revert s. induction path as [|i path IH]; intros s; simpl; [intros [= <-]; constructor|].
  destruct (advance s i) as [s1|] eqn:E; [|done]. intros H.
  eapply nsteps_l; [by eapply advance_step | by apply IH].
Qed.
End Exec.

(** ** A run of two bundles: "a" completes, "b" fails to download *)
Module ConcreteRun.
Definition lim : limits := mkLimits 1 1 (mkLimiter true (2 * UNIT_BYTES) 2) 1.
Definition task_a : DownloadTask := mkDownloadTask "a" "a" "h1" StartApp 10 0.
Definition task_b : DownloadTask := mkDownloadTask "b" "b" "h2" StartApp 5000000 1.
Definition tasks : list DownloadTask := [task_a; task_b].
Definition fetch (t : DownloadTask) : outcome :=
  if String.eqb (bundle_path t) "b" then Err (AxHttp "reset") else Ok tt.

Definition s0 : sched := sched_init lim tasks ∅ false.
Definition path : list nat := [0; 0; 0; 0; 0; 0; 0; 0; 1; 1; 1; 1; 1]%nat.
Definition at_step (n : nat) : sched :=
  default s0 (run_path lim fetch (fun _ => Ok tt) s0 (take n path)).

Lemma run_to n s : run_path lim fetch (fun _ => Ok tt) s0 (take n path) = Some s ->
  sched_reachable lim tasks ∅ s.
Proof.
  intros H%run_path_steps. exists false. by apply rtc_nsteps_2 in H.
Qed.

Lemma lim_wf : limits_wf lim.
Proof. unfold limits_wf, lim; simpl. lia. Qed.

Lemma reach_5 : sched_reachable lim tasks ∅ (at_step 5).
Proof. apply (run_to 5). vm_compute. reflexivity. Qed.
Lemma reach_end : sched_reachable lim tasks ∅ (at_step 13).
Proof. apply (run_to 13). vm_compute. reflexivity. Qed.

Lemma scheduler_limits_witness :
  (count in_joins (jobs (at_step 5)) <= 1)%nat /\ (count holds_backlog (jobs (at_step 5)) <= 1)%nat /\
  (count holds_post (jobs (at_step 5)) <= 1)%nat /\
  (limiter_active (memory_limiter lim) = true ->
   Z.of_nat (count (holds_memory (memory_limiter lim)) (jobs (at_step 5))) <= 2)%Z.
Proof. apply (scheduler_limits lim tasks ∅ (at_step 5)); [apply lim_wf | apply reach_5]. Defined.

Lemma scheduler_no_deadlock_witness :
  (exists i t p, jobs (at_step 5) !! i = Some (t, p) /\ autonomous p = true) \/
  (exists w, (exists i t, jobs (at_step 5) !! i = Some (t, w)) /\
  forall i t, jobs (at_step 5) !! i = Some (t, w) -> can_acquire lim (at_step 5) t w).
Proof.
  apply (scheduler_no_deadlock lim tasks ∅ (at_step 5));
    [apply lim_wf | apply reach_5 | vm_compute; reflexivity | vm_compute; reflexivity].
Defined.

Lemma scheduler_terminates_witness : (13 <= 9 * 2 + 2)%nat.
Proof.
  apply (scheduler_terminates lim tasks ∅ false 13 (at_step 13)); [apply lim_wf|].
  apply (run_path_steps lim fetch (fun _ => Ok tt) s0 path). vm_compute. reflexivity.
Defined.

Lemma scheduler_complete_witness :
  (forall i x, jobs (at_step 13) !! i = Some x -> exists ok, x.2 = Finished ok) /\
  (completed (at_step 13) + failed (at_step 13) = 2)%nat.
Proof.
  apply (scheduler_complete lim tasks ∅ (at_step 13)); [apply lim_wf | apply reach_end | vm_compute; reflexivity].
Defined.

Lemma scheduler_record_witness :
  downloaded (at_step 13) = {["a" := "h1"]} /\
  (forall i t, jobs (at_step 13) !! i = Some (t, Finished true) ->
     downloaded (at_step 13) !! bundle_path t = Some (bundle_hash t)) /\
  (forall name, (forall i t, jobs (at_step 13) !! i = Some (t, Finished true) -> bundle_path t <> name) ->
     downloaded (at_step 13) !! name = (∅ : DownloadRecord) !! name).
Proof.
  split; [vm_compute; reflexivity|].
  apply (scheduler_record lim tasks ∅ (at_step 13)); [apply lim_wf | | apply reach_end].
  repeat constructor; set_solver.
Defined.
End ConcreteRun.
