(* ===== verification/Watermark.v ===== *)
(** * Watermarks

    [src/service/watermark.rs]: the version each region last completed, kept in
    memory and in one JSON file that is replaced by write-to-temp and rename. *)

From S2P Require Import Prelude Errors RustStr Paths Fs.

Local Open Scope string_scope.
Local Open Scope list_scope.

(** [struct RegionWatermark]; the commit time in milliseconds. *)
Record RegionWatermark : Type := mkWatermark {
  wm_asset_version : string;
  wm_asset_hash : string;
  wm_app_version : string;
  wm_bundle_count : Z;
  wm_committed_at : Z;
}.

#[export] Instance RegionWatermark_eq_dec : EqDecision RegionWatermark.
Proof. solve_decision. Defined.

(** [struct WatermarkFile]. *)
Abbreviation WatermarkFile := (gmap string RegionWatermark).

(** [struct WatermarkStore]: its path and the map behind the mutex. *)
Record WatermarkStore : Type := mkStore {
  store_path : string;
  store_inner : WatermarkFile;
}.

(** [sonic_rs] on the file. *)
Class WatermarkCodec := {
  wm_to_json : WatermarkFile -> result bytes string;
  wm_from_json : bytes -> result WatermarkFile string;
  wm_from_to f b : wm_to_json f = Ok b -> wm_from_json b = Ok f;
  wm_not_empty f b : wm_to_json f = Ok b -> b <> [];
}.

(** The outcomes of the file operations of [write_atomic]: a failed [fs::write] leaves
    a prefix behind. *)
Record WriteFaults : Type := mkWriteFaults {
  write_fault : option (io_error * nat);
  rename_fault : option io_error;
}.
Definition no_write_faults : WriteFaults := mkWriteFaults None None.

(** [path.with_extension("json.tmp")]. *)
Definition watermark_tmp (path : string) : string := path_str (set_extension "json.tmp" (components path)).

Section Store.
Context `{WatermarkCodec}.

(** [WatermarkStore::open]; [mkdir] is the outcome of [create_dir_all] and [read] of the
    read. *)
Definition open (mkdir : option io_error) (read : result bytes io_error) (path : string)
    : result WatermarkStore AssetExecutionError :=
  match mkdir with
  | Some _ => Err (AxBlockingTask "create watermark parent dir")
  | None =>
      match read with
      | Ok [] => Ok (mkStore path ∅)
      | Ok bs =>
          match wm_from_json bs with
          | Ok file => Ok (mkStore path file)
          | Err e => Err (AssetInfoDecode e)
          end
      | Err NotFound => Ok (mkStore path ∅)
      | Err _ => Err (AxBlockingTask "read watermark file")
      end
  end.

(** [WatermarkStore::get] and [snapshot]. *)
Definition get (s : WatermarkStore) (region : string) : option RegionWatermark := store_inner s !! region.
Definition snapshot (s : WatermarkStore) : WatermarkFile := store_inner s.

(** [write_atomic]. *)
Definition write_atomic (faults : WriteFaults) (fs : files) (path : string) (file : WatermarkFile)
    : result unit AssetExecutionError * files :=
  match wm_to_json file with
  | Err e => (Err (AssetInfoDecode e), fs)
  | Ok json =>
      let tmp := watermark_tmp path in
      match write_fault faults with
      | Some (_, n) => (Err (AxBlockingTask "write watermark tmp"), fs_write_partial fs tmp json n)
      | None =>
          let fs1 := fs_write fs tmp json in
          match rename_fault faults with
          | Some _ => (Err (AxBlockingTask "rename watermark"), fs1)
          | None => (Ok tt, fs_rename fs1 tmp path)
          end
      end
  end.

(** [WatermarkStore::set]: the map is updated before the file is written. *)
Definition set (faults : WriteFaults) (fs : files) (s : WatermarkStore) (region : string)
    (w : RegionWatermark) : result unit AssetExecutionError * WatermarkStore * files :=
  let inner := <[region := w]> (store_inner s) in
  let '(r, fs') := write_atomic faults fs (store_path s) inner in
  (r, mkStore (store_path s) inner, fs').

Lemma write_atomic_cases faults fs path file :
  watermark_tmp path <> path ->
  let '(r, fs') := write_atomic faults fs path file in
  (forall p, p <> path -> p <> watermark_tmp path -> fs' !! p = fs !! p) /\
  match r with
  | Ok _ => exists json, wm_to_json file = Ok json /\ fs' !! path = Some json
  | Err _ => fs' !! path = fs !! path
  end.
Proof.
  intros Hne. unfold write_atomic. destruct (wm_to_json file) as [json|e]; [|done].
  destruct faults as [[[e n]|] [e'|]]; simpl; unfold fs_write_partial, fs_write, fs_rename.
  1,2,3: split; [intros p H1 H2|]; by rewrite lookup_insert_ne.
  rewrite lookup_insert_eq, delete_insert_eq. split.
  - intros p H1 H2. by rewrite lookup_insert_ne, lookup_delete_ne.
  - exists json. by rewrite lookup_insert_eq.
Qed.

Lemma set_persists faults fs s region w r s' fs' :
  watermark_tmp (store_path s) <> store_path s ->
  set faults fs s region w = (r, s', fs') ->
  (forall q, get s' q = if decide (q = region) then Some w else get s q) /\
  match r with
  | Ok _ => open None (fs_read fs' (store_path s)) (store_path s) = Ok s'
  | Err _ => fs_read fs' (store_path s) = fs_read fs (store_path s)
  end.
Proof.
  intros Hne. unfold set. set (inner := <[region := w]> (store_inner s)).
  pose proof (write_atomic_cases faults fs (store_path s) inner Hne) as Hw.
  destruct (write_atomic faults fs (store_path s) inner) as [r0 fs0]. destruct Hw as [_ Hw].
  intros ?; simplify_eq. split.
  - intros q. unfold get. simpl. unfold inner. case_decide as E; [subst; by rewrite lookup_insert_eq|].
    by rewrite lookup_insert_ne.
  - unfold fs_read. destruct r as [u|e]; [|by rewrite Hw].
    destruct Hw as (json & Hj & ->). unfold open. pose proof (wm_not_empty _ _ Hj).
    destruct json as [|b json]; [done|]. by rewrite (wm_from_to _ _ Hj).
Qed.

(** A sequence of [set]s, with the outcome of their file operations: the store and the
    file at the end, and the store right after the last [set] that succeeded. *)
Fixpoint set_all (ops : list (WriteFaults * string * RegionWatermark)) (s : WatermarkStore) (fs : files)
    (durable : option WatermarkStore) : WatermarkStore * files * option WatermarkStore :=
  match ops with
  | [] => (s, fs, durable)
  | (faults, region, w) :: ops' =>
      let '(r, s1, fs1) := set faults fs s region w in
      set_all ops' s1 fs1 (if is_ok r then Some s1 else durable)
  end.

Lemma set_all_app ops op s fs durable :
  set_all (ops ++ [op]) s fs durable =
  let '(s1, fs1, d1) := set_all ops s fs durable in set_all [op] s1 fs1 d1.
Proof.
  revert s fs durable. induction ops as [|[[f r] w] ops IH]; intros s fs durable; [done|].
  cbn [app set_all]. destruct (set f fs s r w) as [[r1 s1] fs1]. by rewrite IH.
Qed.

Lemma set_all_path ops s fs durable s' fs' durable' :
  set_all ops s fs durable = (s', fs', durable') -> store_path s' = store_path s.
Proof.
  revert s fs durable. induction ops as [|[[f r] w] ops IH]; intros s fs durable; [by intros [= <- <- <-]|].
  cbn [set_all]. unfold set. destruct (write_atomic _ _ _ _) as [r1 fs1]. by intros ->%IH.
Qed.

(** Watermarks persist.  After any sequence of [set]s, some of whose writes or renames
    fail half-way, reopening the store gives exactly the map as it was in memory after
    the last [set] that succeeded, or the map of the original file when none did; and
    in memory every region has the last watermark set for it. *)
Theorem watermark_persists ops s fs s' fs' durable :
  watermark_tmp (store_path s) <> store_path s ->
  set_all ops s fs None = (s', fs', durable) ->
  open None (fs_read fs' (store_path s)) (store_path s) =
    (match durable with Some s1 => Ok s1 | None => open None (fs_read fs (store_path s)) (store_path s) end) /\
  forall q, get s' q = match list_find (fun op => op.1.2 = q) (reverse ops) with
                       | Some (_, op) => Some op.2
                       | None => get s q
                       end.
Proof.
  intros Hne. revert s' fs' durable. induction ops as [|[[faults region] w] ops IH] using rev_ind;
    intros s' fs' durable.
  { intros [= <- <- <-]. by rewrite reverse_nil. }
  rewrite set_all_app. destruct (set_all ops s fs None) as [[s1 fs1] d1] eqn:E1.
  destruct (IH s1 fs1 d1 eq_refl) as [IH1 IH2].
  assert (Hp : store_path s1 = store_path s) by (by eapply set_all_path).
  simpl. destruct (set faults fs1 s1 region w) as [[r s2] fs2] eqn:Es. intros [= <- <- <-].
  rewrite <- Hp in Hne. destruct (set_persists _ _ _ _ _ _ _ _ Hne Es) as [Hg Hr]. rewrite Hp in Hr.
  split.
  - destruct r as [u|e]; simpl; [done|]. by rewrite Hr.
  - intros q. rewrite reverse_snoc, Hg. simpl. case_decide as Hq; case_decide as Hq'; simpl in *; try congruence.
    rewrite IH2. by destruct (list_find _ (reverse ops)) as [[]|].
Qed.

(** A failed [set] is visible only in memory: the store already answers with the
    new watermark while the file still has the old one. *)
Theorem failed_set_in_memory faults fs s region w e s' fs' :
  watermark_tmp (store_path s) <> store_path s ->
  set faults fs s region w = (Err e, s', fs') ->
  get s' region = Some w /\ fs_read fs' (store_path s) = fs_read fs (store_path s).
Proof.
  intros Hne. unfold set. set (inner := <[region := w]> (store_inner s)).
  pose proof (write_atomic_cases faults fs (store_path s) inner Hne) as Hw.
  destruct (write_atomic faults fs (store_path s) inner) as [r0 fs0]. destruct Hw as [_ Hw].
  intros ?; simplify_eq. split; [|unfold fs_read; by rewrite Hw].
  unfold get. simpl. apply lookup_insert_eq.
Qed.
End Store.

(** ** A concrete codec *)
Module ConcreteWatermark.
#[export] Instance RegionWatermark_countable : Countable RegionWatermark.
Proof.
  refine (inj_countable' (fun w => (wm_asset_version w, wm_asset_hash w, wm_app_version w, wm_bundle_count w,
                                    wm_committed_at w)) (fun '(a, b, c, d, e) => mkWatermark a b c d e) _).
  by intros [].
Defined.

#[export] Instance countable_watermark_codec : WatermarkCodec.
Proof.
  refine {| wm_to_json f := Ok (Byte.x7b :: pos_bytes (encode f));
            wm_from_json b := ok_or (decode (bytes_pos (tail b))) "not a watermark file" |}.
  - intros f b [= <-]. simpl. by rewrite bytes_pos_bytes, decode_encode.
  - by intros f b [= <-].
Defined.

Definition path : string := "data/watermarks.json".
Definition store : WatermarkStore := mkStore path {["en" := mkWatermark "1" "h" "a" 0 0]}.
Definition wm : RegionWatermark := mkWatermark "2" "k" "a" 7 1.
Definition ops : list (WriteFaults * string * RegionWatermark) :=
  [(no_write_faults, "jp", wm); (mkWriteFaults None (Some PermissionDenied), "cn", wm)].
Definition after : WatermarkStore * files * option WatermarkStore := set_all ops store ∅ None.
Definition after_fault : result unit AssetExecutionError * WatermarkStore * files :=
  set (mkWriteFaults (Some (PermissionDenied, 3%nat)) None) ∅ store "jp" wm.

Lemma after_eq : set_all ops store ∅ None = (after.1.1, after.1.2, after.2).
Proof. unfold after. by destruct (set_all ops store ∅ None) as [[? ?] ?]. Qed.
Lemma after_fault_eq : after_fault = (Err (AxBlockingTask "write watermark tmp"), after_fault.1.2, after_fault.2).
Proof.
  assert (H : after_fault.1.1 = Err (AxBlockingTask "write watermark tmp")) by (vm_compute; reflexivity).
  destruct after_fault as [[? ?] ?]. simpl in *. by rewrite H.
Qed.

Lemma watermark_persists_witness :
  is_Some after.2 /\
  open None (fs_read after.1.2 path) path =
    (match after.2 with Some s1 => Ok s1 | None => open None (fs_read ∅ path) path end) /\
  forall q, get after.1.1 q = match list_find (fun op => op.1.2 = q) (reverse ops) with
                              | Some (_, op) => Some op.2
                              | None => get store q
                              end.
Proof.
  split; [vm_compute; by eexists|].
  apply (watermark_persists ops store ∅ after.1.1 after.1.2 after.2);
    [vm_compute; discriminate | exact after_eq].
Defined.

Lemma failed_set_in_memory_witness :
  get after_fault.1.2 "jp" = Some wm /\ fs_read after_fault.2 path = fs_read ∅ path.
Proof.
  apply (failed_set_in_memory (mkWriteFaults (Some (PermissionDenied, 3%nat)) None) ∅ store "jp" wm
           (AxBlockingTask "write watermark tmp") after_fault.1.2 after_fault.2);
    [vm_compute; discriminate | exact after_fault_eq].
Defined.
End ConcreteWatermark.
