(* ===== verification/Uploader.v ===== *)
(** * The streaming uploader

    The uploader half of [src/service/poller.rs]: [run_uploader], [flush_batch],
    [flush_metadata_only_commit], [take_first_commit_extras],
    [upload_bundle_artefacts], [upload_hip_files_concurrently],
    [hip_asset_path_for_file], [remove_committed_bundle_artefacts] and
    [handle_uploader_result].

    The gateway is an interface, [HipGateway]: what it answers to a connection,
    an upload or a commit may depend on everything that happened before, which
    the state keeps as a trace.  Artefact files ([u_disk]) and the snapshot
    directory ([u_snap]) are separate maps. *)

From Stdlib Require Import Ascii.
From S2P Require Import Prelude Errors RustStr Config AssetInfo Paths Fs BundleDiff HipCodec HipSession.

Local Open Scope string_scope.
Local Open Scope list_scope.
Local Open Scope Z_scope.
Local Open Scope rust_scope.

(** [struct BundleArtefacts]. *)
Record BundleArtefacts : Type := mkArtefacts {
  art_bundle_path : string;
  art_bundle_hash : string;
  art_export_root : string;
  art_files : list string;
}.

(** [struct HipUploadFileJob]. *)
Record HipUploadFileJob : Type := mkUploadJob {
  job_bundle_path : string;
  job_bundle_hash : string;
  job_export_root : string;
  job_file : string;
}.

(** What happened at the gateway; the flag says whether it was acknowledged. *)
Inductive gw_event : Type :=
| GConnect (sid : nat)
| GUpload (sid : nat) (job : HipUploadFileJob) (asset_path : string) (acked : bool)
| GCommit (sid : nat) (m : CommitMsg) (acked : bool)
| GClose (sid : nat).

(** The gateway, as the uploader sees it through the client. *)
Class HipGateway := {
  gw_connect : list gw_event -> result unit HipError;
  gw_upload : list gw_event -> HipUploadFileJob -> result (option Placement) HipError;
  gw_commit : list gw_event -> CommitMsg -> result unit HipError;
}.

(** [hip_asset_path_for_file]. *)
Definition hip_asset_path_for_file (file export_root bundle_path : string) : string :=
  let relative := match path_strip_prefix (components export_root) (components file) with
                  | Some rel => replace_char "\" "/" (path_str rel)
                  | None => replace_char "\" "/" file
                  end in
  let relative := trim_start_matches "/" relative in
  let bundle_path := trim_matches "/" (replace_char "\" "/" bundle_path) in
  if is_empty bundle_path then relative
  else match strip_prefix bundle_path relative with
       | Some value => match strip_prefix "/" value with Some v => v | None => relative end
       | None => relative
       end.

(** ** One batch *)

(** The jobs of a batch: its files that exist. *)
Definition bundle_jobs (disk : files) (b : BundleArtefacts) : list HipUploadFileJob :=
  omap (fun f => match disk !! f with
                 | Some _ => Some (mkUploadJob (art_bundle_path b) (art_bundle_hash b) (art_export_root b) f)
                 | None => None
                 end) (art_files b).
Definition batch_jobs (disk : files) (batch : list BundleArtefacts) : list HipUploadFileJob :=
  concat (map (bundle_jobs disk) batch).

(** [struct UploadOutcome]. *)
Record UploadOutcome : Type := mkOutcome {
  outcome_stats : CommitStats;
  succeeded_bundles : gset string;
  outcome_completed : list CommitBundleCompletion;
}.

(** The completion list: the fingerprint map is consumed by the first bundle of a
    name, the file counts are those of the last one. *)
Fixpoint completions (counts : gmap string nat) (fps : gmap string string) (bs : list BundleArtefacts)
    : list CommitBundleCompletion :=
  match bs with
  | [] => []
  | b :: bs' =>
      mkCommitBundleCompletion (art_bundle_path b) (default (art_bundle_hash b) (fps !! art_bundle_path b))
        (if (default 0 (counts !! art_bundle_path b) =? 0)%nat then "zero_file" else "uploaded")
      :: completions counts (delete (art_bundle_path b) fps) bs'
  end.

Definition count_placements (ps : list (option Placement)) : CommitStats :=
  let override := length (List.filter (fun p => match p with Some Override => true | _ => false end) ps) in
  mkCommitStats 0 0 (Z.of_nat (length ps - override)) (Z.of_nat override).

Definition with_source (s : string) : string * string -> CommitBundleCompletion :=
  fun '(path, fingerprint) => mkCommitBundleCompletion path fingerprint s.

(** The region-wide values shared with the filter, as they are when the first
    commit reads them. *)
Record CheckCounters : Type := mkCounters {
  layer1_skipped_at_filter : Z;
  check_skipped_counter : Z;
  check_skipped_bundles : gmap string string;
}.

(** State of the uploader task. *)
Record ustate : Type := mkUstate {
  u_batch : list BundleArtefacts;
  u_batch_bytes : Z;
  u_processed : gset string;
  u_batch_index : nat;
  u_first_commit_pending : bool;
  u_session : option nat;
  u_next_session : nat;
  u_trace : list gw_event;
  u_disk : files;
  u_snap : files;
}.

Definition with_trace (s : ustate) (session : option nat) (next : nat) (t : list gw_event) : ustate :=
  mkUstate (u_batch s) (u_batch_bytes s) (u_processed s) (u_batch_index s) (u_first_commit_pending s)
    session next t (u_disk s) (u_snap s).
Definition with_first (s : ustate) (b : bool) : ustate :=
  mkUstate (u_batch s) (u_batch_bytes s) (u_processed s) (u_batch_index s) b
    (u_session s) (u_next_session s) (u_trace s) (u_disk s) (u_snap s).
Definition with_files (s : ustate) (disk snap : files) : ustate :=
  mkUstate (u_batch s) (u_batch_bytes s) (u_processed s) (u_batch_index s) (u_first_commit_pending s)
    (u_session s) (u_next_session s) (u_trace s) disk snap.
Definition with_batch (s : ustate) (b : list BundleArtefacts) (bytes : Z) (processed : gset string)
    (index : nat) : ustate :=
  mkUstate b bytes processed index (u_first_commit_pending s)
    (u_session s) (u_next_session s) (u_trace s) (u_disk s) (u_snap s).

(** What the operating system answers. *)
Record UploaderEnv : Type := mkEnv {
  env_rm : string -> option io_error;                      (* removing a file that is there *)
  env_prune : string -> string -> result nat io_error;     (* prune_empty_parent_dirs *)
  env_merge : nat -> option io_error * SaveFaults;         (* merge_snapshot of a batch *)
}.

(** [struct CleanupSummary]. *)
Record CleanupSummary : Type := mkCleanup {
  removed_files : nat;
  removed_dirs : nat;
  failed_files : nat;
  failed_dirs : nat;
}.
Definition has_failures (c : CleanupSummary) : bool :=
  (0 <? failed_files c)%nat || (0 <? failed_dirs c)%nat.

Section Uploader.
Context `{HipGateway, SnapshotCodec}.
Context (show : HipError -> string).
(** The order in which the concurrent uploads of a batch complete. *)
Context (order : list HipUploadFileJob -> list HipUploadFileJob).
Context (env : UploaderEnv) (remove_local : bool) (hip : HipConfig).
Context (snapshot_file : string) (new_info : AssetBundleInfo) (counters : CheckCounters).

(** [connect_hip_with], when no session is held. *)
Definition ensure_session (s : ustate) : result nat PollError * ustate :=
  match u_session s with
  | Some sid => (Ok sid, s)
  | None =>
      match gw_connect (u_trace s) with
      | Err e => (Err (PollHip (show e)), s)
      | Ok _ =>
          let sid := u_next_session s in
          (Ok sid, with_trace s (Some sid) (S sid) (u_trace s ++ [GConnect sid]))
      end
  end.

(** The join loop of [upload_hip_files_concurrently] over the jobs in the order they
    complete: the first failure ends it, and what was in flight then is dropped
    unacknowledged. *)
Fixpoint upload_jobs (sid : nat) (jobs : list HipUploadFileJob) (t : list gw_event)
    : result (list (option Placement)) PollError * list gw_event :=
  match jobs with
  | [] => (Ok [], t)
  | job :: jobs' =>
      let asset := hip_asset_path_for_file (job_file job) (job_export_root job) (job_bundle_path job) in
      match gw_upload t job with
      | Err e => (Err (PollHip (show e)), t ++ [GUpload sid job asset false])
      | Ok placement =>
          match upload_jobs sid jobs' (t ++ [GUpload sid job asset true]) with
          | (Err e, t') => (Err e, t')
          | (Ok ps, t') => (Ok (placement :: ps), t')
          end
      end
  end.

(** [upload_bundle_artefacts]. *)
Definition upload_bundle_artefacts (sid : nat) (disk : files) (batch : list BundleArtefacts)
    (t : list gw_event) : result UploadOutcome PollError * list gw_event :=
  match upload_jobs sid (order (batch_jobs disk batch)) t with
  | (Err e, t') => (Err e, t')
  | (Ok placements, t') =>
      let fps := list_to_map (reverse (map (fun b => (art_bundle_path b, art_bundle_hash b)) batch)) in
      let counts := list_to_map (reverse (map (fun b => (art_bundle_path b, length (bundle_jobs disk b))) batch)) in
      (Ok (mkOutcome (count_placements placements)
             (list_to_set (map art_bundle_path batch)) (completions counts fps batch)), t')
  end.

(** [take_first_commit_extras]: the totals and the skipped bundles, once. *)
Definition take_first_commit_extras (s : ustate) : Z * Z * list CommitBundleCompletion * ustate :=
  if u_first_commit_pending s then
    (layer1_skipped_at_filter counters, check_skipped_counter counters,
     map (with_source "check_skip") (btree_entries (check_skipped_bundles counters)), with_first s false)
  else (0, 0, [], s).

(** The removal of one file in [remove_committed_bundle_artefacts]. *)
Definition remove_artefact (root f : string) (acc : CleanupSummary * files) : CleanupSummary * files :=
  let '(c, disk) := acc in
  match disk !! f with
  | None => (c, disk)
  | Some _ =>
      match env_rm env f with
      | Some NotFound => (c, disk)
      | Some _ => (mkCleanup (removed_files c) (removed_dirs c) (S (failed_files c)) (failed_dirs c), disk)
      | None =>
          match env_prune env f root with
          | Ok n => (mkCleanup (S (removed_files c)) (removed_dirs c + n) (failed_files c) (failed_dirs c),
                     delete f disk)
          | Err _ => (mkCleanup (S (removed_files c)) (removed_dirs c) (failed_files c) (S (failed_dirs c)),
                      delete f disk)
          end
      end
  end.

(** [remove_committed_bundle_artefacts]. *)
Definition remove_committed_bundle_artefacts (batch : list BundleArtefacts) (succeeded : gset string)
    (disk : files) : CleanupSummary * files :=
  foldl (fun acc b =>
    if decide (art_bundle_path b ∈ succeeded)
    then foldl (fun acc f => remove_artefact (art_export_root b) f acc) acc (art_files b)
    else acc) (mkCleanup 0 0 0 0, disk) batch.

(** The fresh details merged into the snapshot after a commit. *)
Definition committed_details (succeeded : gset string) : list (string * AssetBundleDetail) :=
  omap (fun name => match bundles new_info !! name with
                    | Some d => Some (name, d)
                    | None => None
                    end) (elements succeeded).

(** [flush_batch]. *)
Definition flush_batch (index : nat) (s : ustate) : result unit PollError * ustate :=
  match u_batch s with
  | [] => (Ok tt, s)
  | batch =>
      match ensure_session s with
      | (Err e, s1) => (Err e, s1)
      | (Ok sid, s1) =>
          match upload_bundle_artefacts sid (u_disk s1) batch (u_trace s1) with
          | (Err e, t) => (Err e, with_trace s1 (u_session s1) (u_next_session s1) t)
          | (Ok outcome, t) =>
              let s2 := with_trace s1 (u_session s1) (u_next_session s1) t in
              let '(l1, chk, extras, s3) := take_first_commit_extras s2 in
              let commit := mkCommitMsg (Z.of_nat (size (succeeded_bundles outcome)))
                (mkCommitStats l1 chk (uploaded_shared (outcome_stats outcome))
                   (uploaded_override (outcome_stats outcome)))
                (extras ++ outcome_completed outcome) in
              match gw_commit (u_trace s3) commit with
              | Err e =>
                  (Err (PollHip (show e)),
                   with_trace s3 None (u_next_session s3) (u_trace s3 ++ [GCommit sid commit false]))
              | Ok _ =>
                  let s4 := with_trace s3 None (u_next_session s3)
                              (u_trace s3 ++ [GCommit sid commit true; GClose sid]) in
                  let details := committed_details (succeeded_bundles outcome) in
                  let '(read_fault, faults) := env_merge env index in
                  let snap := match details with
                              | [] => u_snap s4
                              | _ => (merge_snapshot read_fault faults (u_snap s4) snapshot_file
                                        (version new_info) (os new_info) details).2
                              end in
                  let s5 := with_files s4 (u_disk s4) snap in
                  let '(cleanup, disk) :=
                    if remove_local
                    then remove_committed_bundle_artefacts batch (succeeded_bundles outcome) (u_disk s5)
                    else (mkCleanup 0 0 0 0, u_disk s5) in
                  let s6 := with_files s5 disk (u_snap s5) in
                  if has_failures cleanup then
                    (Err (PollExecution "failed to remove local artefacts after HIP commit"), s6)
                  else (Ok tt, with_batch s6 [] 0 (u_processed s6 ∪ succeeded_bundles outcome) (u_batch_index s6))
              end
          end
      end
  end.

(** [flush_metadata_only_commit]. *)
Definition flush_metadata_only_commit (s : ustate) : result unit PollError * ustate :=
  let '(l1, chk, completed, s1) := take_first_commit_extras s in
  match completed with
  | [] =>
      match u_session s1 with
      | Some sid => (Ok tt, with_trace s1 None (u_next_session s1) (u_trace s1 ++ [GClose sid]))
      | None => (Ok tt, s1)
      end
  | _ =>
      match ensure_session s1 with
      | (Err e, s2) => (Err e, s2)
      | (Ok sid, s2) =>
          let commit := mkCommitMsg 0 (mkCommitStats l1 chk 0 0) completed in
          match gw_commit (u_trace s2) commit with
          | Err e => (Err (PollHip (show e)),
                      with_trace s2 None (u_next_session s2) (u_trace s2 ++ [GCommit sid commit false]))
          | Ok _ => (Ok tt, with_trace s2 None (u_next_session s2)
                              (u_trace s2 ++ [GCommit sid commit true; GClose sid]))
          end
      end
  end.

(** The bytes an artefact adds to the batch: files that are gone do not count. *)
Definition artefact_bytes (disk : files) (a : BundleArtefacts) : Z :=
  sumZ (map (fun f => match disk !! f with Some c => Z.of_nat (length c) | None => 0 end) (art_files a)).

(** One received artefact: it joins the batch, which is flushed when it is full. *)
Definition receive (a : BundleArtefacts) (s : ustate) : result unit PollError * ustate :=
  let bytes := u_batch_bytes s + artefact_bytes (u_disk s) a in
  let batch := u_batch s ++ [a] in
  let s1 := with_batch s batch bytes (u_processed s) (u_batch_index s) in
  if (0 <? commit_batch_bundles hip) && (commit_batch_bundles hip <=? Z.of_nat (length batch))
     || (0 <? commit_batch_bytes hip) && (commit_batch_bytes hip <=? bytes)
  then flush_batch (S (u_batch_index s)) (with_batch s1 batch bytes (u_processed s1) (S (u_batch_index s)))
  else (Ok tt, s1).

(** The receive loop, over the artefacts that arrive before the channel closes or
    the cancellation is seen. *)
Fixpoint receive_all (arts : list BundleArtefacts) (s : ustate) : result unit PollError * ustate :=
  match arts with
  | [] => (Ok tt, s)
  | a :: arts' =>
      match receive a s with
      | (Err e, s') => (Err e, s')
      | (Ok _, s') => receive_all arts' s'
      end
  end.

(** [run_uploader]. *)
Definition run_uploader (arts : list BundleArtefacts) (s : ustate)
    : result (gset string) PollError * ustate :=
  match receive_all arts s with
  | (Err e, s1) => (Err e, s1)
  | (Ok _, s1) =>
      let finish :=
        match u_batch s1 with
        | _ :: _ =>
            flush_batch (S (u_batch_index s1))
              (with_batch s1 (u_batch s1) (u_batch_bytes s1) (u_processed s1) (S (u_batch_index s1)))
        | [] =>
            if u_first_commit_pending s1 then flush_metadata_only_commit s1
            else match u_session s1 with
                 | Some sid => (Ok tt, with_trace s1 None (u_next_session s1) (u_trace s1 ++ [GClose sid]))
                 | None => (Ok tt, s1)
                 end
        end in
      match finish with
      | (Err e, s2) => (Err e, s2)
      | (Ok _, s2) => (Ok (u_processed s2), s2)
      end
  end.
End Uploader.

(** The uploader before its loop. *)
Definition uploader_init (disk snap : files) : ustate := mkUstate [] 0 ∅ 0 true None 0 [] disk snap.

(** [handle_uploader_result]; a panic of the task is [None]. *)
Definition handle_uploader_result (r : option (result (gset string) PollError)) (processed : gset string)
    : result unit PollError * gset string :=
  match r with
  | Some (Ok uploaded) => (Ok tt, processed ∪ uploaded)
  | Some (Err e) => (Err e, processed)
  | None => (Err (PollExecution "uploader task panicked"), processed)
  end.

(** ** What a flush does *)

(** The event of an upload. *)
Definition upload_event (sid : nat) (acked : bool) (job : HipUploadFileJob) : gw_event :=
  GUpload sid job (hip_asset_path_for_file (job_file job) (job_export_root job) (job_bundle_path job)) acked.

(** A session to work on: the one held, or a new one. *)
Definition opens (s : ustate) (sid : nat) (conn : list gw_event) (next : nat) : Prop :=
  (u_session s = Some sid /\ conn = [] /\ next = u_next_session s) \/
  (u_session s = None /\ sid = u_next_session s /\ conn = [GConnect sid] /\ next = S sid).

Section FlushFacts.
Context `{HipGateway, SnapshotCodec}.
Context (show : HipError -> string) (order : list HipUploadFileJob -> list HipUploadFileJob).
Context (env : UploaderEnv) (remove_local : bool) (hip : HipConfig).
Context (snapshot_file : string) (new_info : AssetBundleInfo) (counters : CheckCounters).

Abbreviation flush := (flush_batch show order env remove_local snapshot_file new_info counters).

Lemma ensure_session_spec s r s1 :
  ensure_session show s = (r, s1) ->
  match r with
  | Err _ => s1 = s
  | Ok sid => exists conn next, opens s sid conn next /\ s1 = with_trace s (Some sid) next (u_trace s ++ conn)
  end.
Proof.
  unfold ensure_session, opens. destruct (u_session s) as [sid|] eqn:E.
  - intros [= <- <-]. exists [], (u_next_session s). split; [by left|]. rewrite app_nil_r, <- E. by destruct s.
  - destruct (gw_connect (u_trace s)); intros [= <- <-]; [|done].
    exists [GConnect (u_next_session s)], (S (u_next_session s)). split; [by right | done].
Qed.

Lemma upload_jobs_spec sid jobs t r t' :
  upload_jobs show sid jobs t = (r, t') ->
  match r with
  | Ok ps => t' = t ++ map (upload_event sid true) jobs /\ length ps = length jobs
  | Err _ => exists done job, t' = t ++ map (upload_event sid true) done ++ [upload_event sid false job]
  end.
Proof.
  revert t r t'. induction jobs as [|job jobs IH]; intros t r t'; simpl.
  - intros [= <- <-]. by rewrite app_nil_r.
  - destruct (gw_upload t job) as [p|e].
    + destruct (upload_jobs show sid jobs _) as [[ps|e] t1] eqn:E; apply IH in E; intros [= <- <-].
      * destruct E as [-> E]. rewrite <- app_assoc. simpl. by rewrite E.
      * destruct E as (dn & j & ->). exists (job :: dn), j. by rewrite <- app_assoc.
    + intros [= <- <-]. by exists [], job.
Qed.

(** The commit message of a batch. *)
Definition extras (s : ustate) : list CommitBundleCompletion :=
  if u_first_commit_pending s
  then map (with_source "check_skip") (btree_entries (check_skipped_bundles counters)) else [].
Definition batch_completions (disk : files) (batch : list BundleArtefacts) : list CommitBundleCompletion :=
  completions
    (list_to_map (reverse (map (fun b => (art_bundle_path b, length (bundle_jobs disk b))) batch)))
    (list_to_map (reverse (map (fun b => (art_bundle_path b, art_bundle_hash b)) batch))) batch.
Definition batch_names (batch : list BundleArtefacts) : gset string := list_to_set (map art_bundle_path batch).

(** A commit that carries the region-wide totals, and one that does not. *)
Definition totals (s : ustate) (m : CommitMsg) : Prop :=
  skipped_by_layer1 (commit_stats m) = (if u_first_commit_pending s then layer1_skipped_at_filter counters else 0) /\
  skipped_by_check (commit_stats m) = (if u_first_commit_pending s then check_skipped_counter counters else 0).

(** Only files of the batch were removed. *)
Definition removed_within (batch : list BundleArtefacts) (disk disk' : files) : Prop :=
  forall f, disk' !! f = disk !! f \/ (disk' !! f = None /\ exists b, b ∈ batch /\ f ∈ art_files b).

(** The two ways a flush of a batch ends: before anything was committed, or after a
    commit was sent on a session where every upload of the batch was acknowledged. *)
Inductive flush_result (index : nat) (s : ustate) : result unit PollError -> ustate -> Prop :=
| flush_nothing e s' evs sid conn next :
    opens s sid conn next ->
    (s' = s \/ exists dn job, evs = conn ++ map (upload_event sid true) dn ++ [upload_event sid false job] /\
       s' = with_trace s (Some sid) next (u_trace s ++ evs)) ->
    flush_result index s (Err e) s'
| flush_commit r s' sid conn next m acked :
    opens s sid conn next ->
    totals s m ->
    completed_bundles m = extras s ++ batch_completions (u_disk s) (u_batch s) ->
    bundle_count m = Z.of_nat (size (batch_names (u_batch s))) ->
    u_trace s' = u_trace s ++ conn ++ map (upload_event sid true) (order (batch_jobs (u_disk s) (u_batch s)))
                 ++ GCommit sid m acked :: (if acked then [GClose sid] else []) ->
    u_session s' = None -> u_next_session s' = next -> u_first_commit_pending s' = false ->
    (if acked then
       u_snap s' = match committed_details new_info (batch_names (u_batch s)) with
                   | [] => u_snap s
                   | l => (merge_snapshot (env_merge env index).1 (env_merge env index).2 (u_snap s)
                             snapshot_file (version new_info) (os new_info) l).2
                   end
     else u_snap s' = u_snap s /\ exists e, r = Err e) ->
    (r = Ok tt -> u_batch s' = [] /\ u_processed s' = u_processed s ∪ batch_names (u_batch s)) ->
    (if acked then removed_within (u_batch s) (u_disk s) (u_disk s') else u_disk s' = u_disk s) ->
    flush_result index s r s'.

Lemma remove_artefact_within root f0 acc f :
  (remove_artefact env root f0 acc).2 !! f = acc.2 !! f \/
  ((remove_artefact env root f0 acc).2 !! f = None /\ f = f0).
Proof.
  destruct acc as [c disk]. unfold remove_artefact. destruct (disk !! f0); [|by left].
  destruct (decide (f = f0)) as [->|Hne].
  - destruct (env_rm env f0) as [[]|]; try by left.
    destruct (env_prune env f0 root); right; simpl; by rewrite lookup_delete_eq.
  - left. destruct (env_rm env f0) as [[]|]; try done.
    destruct (env_prune env f0 root); simpl; by rewrite lookup_delete_ne.
Qed.

Lemma remove_committed_within batch succeeded disk :
  removed_within batch disk (remove_committed_bundle_artefacts env batch succeeded disk).2.
Proof.
  intros f. unfold remove_committed_bundle_artefacts.
  assert (Hg : forall l acc, (forall b, b ∈ l -> b ∈ batch) ->
    (acc.2 !! f = disk !! f \/ (acc.2 !! f = None /\ exists b, b ∈ batch /\ f ∈ art_files b)) ->
    let acc' := foldl (fun acc b => if decide (art_bundle_path b ∈ succeeded)
        then foldl (fun acc f => remove_artefact env (art_export_root b) f acc) acc (art_files b)
        else acc) acc l in
    acc'.2 !! f = disk !! f \/ (acc'.2 !! f = None /\ exists b, b ∈ batch /\ f ∈ art_files b)).
  { induction l as [|b l IH]; intros acc Hl Hacc; [done|]. simpl. apply IH; [set_solver|].
    destruct (decide (art_bundle_path b ∈ succeeded)); [|done].
    assert (Hb : b ∈ batch) by (apply Hl; constructor).
    assert (Hf : forall g, g ∈ art_files b -> g ∈ art_files b) by done.
    revert Hf acc Hacc. generalize (art_files b) at 1 3 4. intros fl.
    induction fl as [|g fl IHf]; intros Hf acc Hacc; [done|]. simpl. apply IHf; [set_solver|].
    destruct (remove_artefact_within (art_export_root b) g acc f) as [-> | [-> ->]]; [done|].
    right. split; [done|]. exists b. split; [done|]. apply Hf. constructor. }
  apply Hg; [done | by left].
Qed.

Lemma take_extras_spec s l1 chk ex s' :
  take_first_commit_extras counters s = (l1, chk, ex, s') ->
  l1 = (if u_first_commit_pending s then layer1_skipped_at_filter counters else 0) /\
  chk = (if u_first_commit_pending s then check_skipped_counter counters else 0) /\
  ex = extras s /\ s' = with_first s false.
Proof.
  unfold take_first_commit_extras, extras. destruct (u_first_commit_pending s) eqn:E; intros [= <- <- <- <-];
    repeat split; try done. rewrite <- E. by destruct s.
Qed.

Lemma flush_shape index s r s' :
  u_batch s <> [] -> flush index s = (r, s') -> flush_result index s r s'.
Proof.
  intros Hb. unfold flush_batch. destruct (u_batch s) as [|b0 bs] eqn:Eb; [done|]. rewrite <- Eb in *.
  destruct (ensure_session show s) as [[sid|e] s1] eqn:E1; apply ensure_session_spec in E1.
  2: { intros [= <- <-]. subst s1.
       destruct (u_session s) as [sid|] eqn:Es;
         [apply (flush_nothing _ _ _ _ [] sid [] (u_next_session s))
         |apply (flush_nothing _ _ _ _ [] (u_next_session s) [GConnect (u_next_session s)] (S (u_next_session s)))];
         unfold opens; auto. }
  destruct E1 as (conn & next & Ho & ->). unfold upload_bundle_artefacts. cbn [u_disk u_trace with_trace].
  destruct (upload_jobs show sid _ _) as [[ps|e] t] eqn:E2; apply upload_jobs_spec in E2.
  2: { intros [= <- <-]. destruct E2 as (dn & job & ->).
       eapply (flush_nothing _ _ _ _ (conn ++ map (upload_event sid true) dn ++ [upload_event sid false job])); [done|].
       right. exists dn, job. split; [done|]. unfold with_trace; simpl. by rewrite <- app_assoc. }
  destruct E2 as [-> _]. cbn [outcome_stats succeeded_bundles outcome_completed].
  set (s2 := with_trace (with_trace _ _ _ _) _ _ _).
  destruct (take_first_commit_extras counters s2) as [[[l1 chk] ex] s3] eqn:Ex.
  apply take_extras_spec in Ex as (-> & -> & -> & ->).
  set (m := mkCommitMsg _ _ _). fold (batch_names (u_batch s)).
  assert (Htr : u_trace s2 = u_trace s ++ conn ++ map (upload_event sid true) (order (batch_jobs (u_disk s) (u_batch s))))
    by (subst s2; simpl; by rewrite <- app_assoc).
  destruct (gw_commit _ m) as [u|e].
  2: { intros [= <- <-]. apply (flush_commit _ _ _ _ sid conn next m false); try done.
       - change (u_trace s2 ++ [GCommit sid m false]
                 = u_trace s ++ conn ++ map (upload_event sid true) (order (batch_jobs (u_disk s) (u_batch s)))
                   ++ [GCommit sid m false]).
         rewrite Htr, <- !app_assoc. done.
       - split; [done | by eexists]. }
  destruct (env_merge env index) as [rf fl] eqn:Em.
  set (snap := match committed_details _ _ with [] => _ | _ => _ end).
  set (s5 := with_files _ _ snap).
  assert (Hrm : removed_within (u_batch s) (u_disk s) (if remove_local
      then remove_committed_bundle_artefacts env (u_batch s) (batch_names (u_batch s)) (u_disk s5)
      else (mkCleanup 0 0 0 0, u_disk s5)).2)
    by (destruct remove_local; [apply remove_committed_within | by left]).
  destruct (if remove_local then _ else _) as [cleanup disk]. simpl in Hrm.
  assert (Hsnap : snap = match committed_details new_info (batch_names (u_batch s)) with
                   | [] => u_snap s
                   | l => (merge_snapshot (env_merge env index).1 (env_merge env index).2 (u_snap s)
                             snapshot_file (version new_info) (os new_info) l).2
                   end)
    by (rewrite Em; subst snap; by destruct (committed_details new_info (batch_names (u_batch s)))).
  assert (Ht5 : u_trace s5 = u_trace s ++ conn ++ map (upload_event sid true) (order (batch_jobs (u_disk s) (u_batch s)))
                 ++ [GCommit sid m true; GClose sid]).
  { change (u_trace s5) with (u_trace s2 ++ [GCommit sid m true; GClose sid]).
    rewrite Htr, <- !app_assoc. done. }
  destruct (has_failures cleanup); intros [= <- <-];
    apply (flush_commit _ _ _ _ sid conn next m true); done.
Qed.
(** The metadata-only commit: nothing to say, or one commit of the skipped bundles. *)
Inductive meta_result (s : ustate) : result unit PollError -> ustate -> Prop :=
| meta_nothing r s' :
    (exists b, s' = with_first s b) -> (r = Ok tt -> extras s = []) -> meta_result s r s'
| meta_close sid :
    u_session s = Some sid -> extras s = [] ->
    meta_result s (Ok tt) (with_trace (with_first s false) None (u_next_session s) (u_trace s ++ [GClose sid]))
| meta_commit r sid conn next m acked :
    opens s sid conn next -> totals s m -> completed_bundles m = extras s ->
    (acked = false -> exists e, r = Err e) ->
    meta_result s r
      (with_trace (with_first s false) None next
         (u_trace s ++ conn ++ GCommit sid m acked :: (if acked then [GClose sid] else []))).

Lemma meta_shape s r s' :
  flush_metadata_only_commit show counters s = (r, s') -> meta_result s r s'.
Proof.
  unfold flush_metadata_only_commit.
  destruct (take_first_commit_extras counters s) as [[[l1 chk] ex] s1] eqn:Ex.
  apply take_extras_spec in Ex as (-> & -> & -> & ->). destruct (extras s) as [|c cs] eqn:Ee.
  { cbn [u_session with_first]. destruct (u_session s) as [sid|] eqn:Es; intros [= <- <-].
    - by apply meta_close.
    - apply meta_nothing; [by exists false | done]. }
  rewrite <- Ee. destruct (ensure_session show (with_first s false)) as [[sid|e] s2] eqn:E1;
    apply ensure_session_spec in E1.
  2: { intros [= <- <-]. subst s2. apply meta_nothing; [by exists false | done]. }
  destruct E1 as (conn & next & Ho & ->). cbn [u_next_session u_trace with_trace with_first].
  set (m := mkCommitMsg _ _ _).
  assert (Hm : forall r acked, (acked = false -> exists e, r = Err e) ->
    meta_result s r (with_trace (with_first s false) None next
      (u_trace s ++ conn ++ GCommit sid m acked :: (if acked then [GClose sid] else []))))
    by (intros; by apply meta_commit).
  destruct (gw_commit _ m) as [u|e]; intros [= <- <-]; unfold with_trace in *; simpl in *; rewrite <- app_assoc.
  - apply (Hm (Ok tt) true). done.
  - apply (Hm (Err _) false). by eexists.
Qed.

(** A property of the state that every flush preserves holds during a run; what the
    metadata commit and the final close make of it holds at the end, whatever the
    outcome. *)
Lemma run_preserves (P Q : ustate -> Prop) arts s r s' :
  (forall s, P s -> Q s) ->
  (forall s b n p i, P s -> P (with_batch s b n p i)) ->
  (forall i s r s', u_batch s <> [] -> P s -> flush_result i s r s' -> P s') ->
  (forall s r s', P s -> meta_result s r s' -> Q s') ->
  (forall s sid, P s -> u_session s = Some sid ->
     Q (with_trace s None (u_next_session s) (u_trace s ++ [GClose sid]))) ->
  P s -> run_uploader show order env remove_local hip snapshot_file new_info counters arts s = (r, s') -> Q s'.
Proof.
  intros HPQ Hbatch Hflush Hmeta Hclose Hs. unfold run_uploader.
  assert (Hrecv : forall r1 s1,
    receive_all show order env remove_local hip snapshot_file new_info counters arts s = (r1, s1) -> P s1).
  { revert s Hs. induction arts as [|a arts IH]; intros s Hs r1 s1; simpl; [by intros [= _ <-]|].
    destruct (receive _ _ _ _ _ _ _ _ a s) as [[u|e] s2] eqn:E.
    - assert (P s2); [|by eapply IH].
      unfold receive in E. destruct (_ || _); [|simplify_eq; by apply Hbatch].
      eapply Hflush; [| |eapply flush_shape; [|exact E]]; [by destruct (u_batch s) | by apply Hbatch, Hbatch
        | by destruct (u_batch s)].
    - intros [= _ <-]. unfold receive in E. destruct (_ || _); [|simplify_eq].
      eapply Hflush; [| |eapply flush_shape; [|exact E]]; [by destruct (u_batch s) | by apply Hbatch, Hbatch
        | by destruct (u_batch s)]. }
  destruct (receive_all _ _ _ _ _ _ _ _ arts s) as [[u|e] s1]; [|intros [= _ <-]; by eapply HPQ, Hrecv].
  pose proof (Hrecv _ _ eq_refl) as H1.
  set (fin := match u_batch s1 with [] => _ | _ :: _ => _ end).
  assert (Hfin : Q fin.2).
  { subst fin. destruct (u_batch s1) as [|b bs] eqn:Eb.
    - destruct (u_first_commit_pending s1).
      + eapply Hmeta; [exact H1|]. eapply meta_shape. apply surjective_pairing.
      + destruct (u_session s1) as [sid|] eqn:Es; [by apply Hclose | by apply HPQ].
    - apply HPQ. eapply Hflush; [| |eapply flush_shape; [|apply surjective_pairing]]; try done. by apply Hbatch. }
  destruct fin as [[u'|e] s2]; intros [= _ <-]; exact Hfin.
Qed.
End FlushFacts.

(** ** The gateway's session rules *)

(** The server's side: a session is open after the handshake and finalized by its
    COMMIT, after which it takes no upload and no second COMMIT. [None] is a
    protocol violation. *)
Definition server_step (m : gmap nat bool) (e : gw_event) : option (gmap nat bool) :=
  match e with
  | GConnect sid => match m !! sid with None => Some (<[sid := true]> m) | Some _ => None end
  | GUpload sid _ _ _ => match m !! sid with Some true => Some m | _ => None end
  | GCommit sid _ _ => match m !! sid with Some true => Some (<[sid := false]> m) | _ => None end
  | GClose sid => match m !! sid with Some _ => Some m | None => None end
  end.

Fixpoint server_run (m : gmap nat bool) (t : list gw_event) : option (gmap nat bool) :=
  match t with
  | [] => Some m
  | e :: t' => match server_step m e with Some m' => server_run m' t' | None => None end
  end.

Lemma server_run_app m t1 t2 :
  server_run m (t1 ++ t2) = match server_run m t1 with Some m' => server_run m' t2 | None => None end.
Proof. revert m. induction t1 as [|e t1 IH]; intros m; simpl; [done|]. by destruct (server_step m e). Qed.

Lemma server_run_uploads m sid (b : bool) jobs :
  m !! sid = Some true -> server_run m (map (upload_event sid b) jobs) = Some m.
Proof. intros Hm. induction jobs as [|j jobs IH]; simpl; [done|]. by rewrite Hm. Qed.

(** The trace is accepted; the session held is open; session numbers are fresh. *)
Definition pinv (s : ustate) : Prop :=
  exists m, server_run ∅ (u_trace s) = Some m /\
    (forall sid, u_session s = Some sid -> m !! sid = Some true) /\
    (forall sid, (u_next_session s <= sid)%nat -> m !! sid = None).

(** Opening a session. *)
Lemma pinv_opens s sid conn next :
  pinv s -> opens s sid conn next ->
  exists m, server_run ∅ (u_trace s ++ conn) = Some m /\ m !! sid = Some true /\
    (forall k, (next <= k)%nat -> m !! k = None) /\ (sid < next)%nat.
Proof.
  intros (m & Hm & Hs & Hn) [(E & -> & ->)|(E & -> & -> & ->)].
  - exists m. rewrite app_nil_r. repeat split; try done; [by apply Hs|].
    destruct (decide (sid < u_next_session s)%nat); [done|].
    pose proof (Hs _ E) as Hsid. by rewrite (Hn sid) in Hsid by lia.
  - exists (<[u_next_session s := true]> m). rewrite server_run_app, Hm. simpl. rewrite Hn by done.
    rewrite lookup_insert_eq. repeat split; try done; [|lia].
    intros k Hk. rewrite lookup_insert_ne by lia. apply Hn. lia.
Qed.

(** A commit finalizes its session, whether or not it is acknowledged. *)
Lemma pinv_commit t m sid next jobs cm (acked : bool) :
  server_run ∅ t = Some m -> m !! sid = Some true -> (forall k, (next <= k)%nat -> m !! k = None) ->
  (sid < next)%nat ->
  exists m', server_run ∅ (t ++ map (upload_event sid true) jobs ++
                            GCommit sid cm acked :: (if acked then [GClose sid] else [])) = Some m' /\
    (forall k, (next <= k)%nat -> m' !! k = None).
Proof.
  intros Hm Hs Hn Hlt. exists (<[sid := false]> m).
  rewrite server_run_app, Hm, server_run_app, server_run_uploads by done. simpl. rewrite Hs. split.
  - destruct acked; simpl; [by rewrite lookup_insert_eq | done].
  - intros k Hk. rewrite lookup_insert_ne by lia. by apply Hn.
Qed.

(** ** Commits of a trace *)

Definition sent_commits (t : list gw_event) : list CommitMsg :=
  omap (fun e => match e with GCommit _ m _ => Some m | _ => None end) t.
Definition acked_commits (t : list gw_event) : list CommitMsg :=
  omap (fun e => match e with GCommit _ m true => Some m | _ => None end) t.

Definition is_skip (c : CommitBundleCompletion) : bool := String.eqb (completion_source c) "check_skip".

(** The bundles of a commit that were processed in this run, and those that were not. *)
Definition fresh_paths (m : CommitMsg) : list string :=
  map completion_path (List.filter (fun c => negb (is_skip c)) (completed_bundles m)).
Definition skip_part (m : CommitMsg) : list CommitBundleCompletion :=
  List.filter is_skip (completed_bundles m).

(** The bundles whose commit was acknowledged, in order. *)
Definition committed (t : list gw_event) : list string := concat (map fresh_paths (acked_commits t)).

Lemma sent_app t1 t2 : sent_commits (t1 ++ t2) = sent_commits t1 ++ sent_commits t2.
Proof. apply omap_app. Qed.
Lemma committed_app t1 t2 : committed (t1 ++ t2) = committed t1 ++ committed t2.
Proof. unfold committed, acked_commits. by rewrite omap_app, map_app, concat_app. Qed.

Lemma uploads_no_commit sid b jobs :
  sent_commits (map (upload_event sid b) jobs) = [] /\ committed (map (upload_event sid b) jobs) = [].
Proof. induction jobs as [|j jobs [IH1 IH2]]; [done|]. by split. Qed.

Lemma conn_no_commit s sid conn next :
  opens s sid conn next -> sent_commits conn = [] /\ committed conn = [].
Proof. by intros [(_ & -> & _)|(_ & _ & -> & _)]. Qed.

Lemma completions_spec counts fps bs :
  map completion_path (completions counts fps bs) = map art_bundle_path bs /\
  Forall (fun c => is_skip c = false) (completions counts fps bs).
Proof.
  revert fps. induction bs as [|b bs IH]; intros fps; simpl; [done|].
  destruct (IH (delete (art_bundle_path b) fps)) as [-> IH2]. split; [done|].
  constructor; [|done]. by destruct (_ =? 0)%nat.
Qed.

Lemma filter_all {A} (f : A -> bool) l : Forall (fun x => f x = true) l -> List.filter f l = l.
Proof. induction 1 as [|x l Hx _ IH]; simpl; [done|]. by rewrite Hx, IH. Qed.
Lemma filter_none {A} (f : A -> bool) l : Forall (fun x => f x = false) l -> List.filter f l = [].
Proof. induction 1 as [|x l Hx _ IH]; simpl; [done|]. by rewrite Hx. Qed.

Lemma extras_skip counters s : Forall (fun c => is_skip c = true) (extras counters s).
Proof.
  unfold extras. destruct (u_first_commit_pending s); [|done]. apply Forall_map.
  apply Forall_true. by intros [path fp].
Qed.

(** The two parts of the commit of a batch. *)
Lemma batch_commit_parts counters s disk batch m :
  completed_bundles m = extras counters s ++ batch_completions disk batch ->
  fresh_paths m = map art_bundle_path batch /\ skip_part m = extras counters s.
Proof.
  intros E. unfold fresh_paths, skip_part. rewrite E, !List.filter_app.
  pose proof (extras_skip counters s) as Hx.
  destruct (completions_spec
    (list_to_map (reverse (map (fun b => (art_bundle_path b, length (bundle_jobs disk b))) batch)))
    (list_to_map (reverse (map (fun b => (art_bundle_path b, art_bundle_hash b)) batch))) batch) as [Hp Hs].
  fold (batch_completions disk batch) in Hp, Hs. split.
  - rewrite (filter_none _ (extras counters s)), (filter_all _ (batch_completions disk batch)); [done| |].
    + eapply Forall_impl; [exact Hs|]. by intros c ->.
    + eapply Forall_impl; [exact Hx|]. by intros c ->.
  - rewrite (filter_all _ (extras counters s)), (filter_none _ (batch_completions disk batch)) by done.
    by rewrite app_nil_r.
Qed.

Lemma meta_commit_parts counters s m :
  completed_bundles m = extras counters s -> fresh_paths m = [] /\ skip_part m = extras counters s.
Proof.
  intros E. unfold fresh_paths, skip_part. rewrite E. pose proof (extras_skip counters s) as Hx. split.
  - rewrite filter_none; [done|]. eapply Forall_impl; [exact Hx|]. by intros c ->.
  - by rewrite filter_all.
Qed.

Section RunFacts.
Context `{HipGateway, SnapshotCodec}.
Context (show : HipError -> string) (order : list HipUploadFileJob -> list HipUploadFileJob).
Context (env : UploaderEnv) (remove_local : bool) (hip : HipConfig).
Context (snapshot_file : string) (new_info : AssetBundleInfo) (counters : CheckCounters).

Abbreviation run := (run_uploader show order env remove_local hip snapshot_file new_info counters).


(** ** The totals are sent once *)

Definition carries_totals (m : CommitMsg) : Prop :=
  skipped_by_layer1 (commit_stats m) = layer1_skipped_at_filter counters /\
  skipped_by_check (commit_stats m) = check_skipped_counter counters /\
  skip_part m = map (with_source "check_skip") (btree_entries (check_skipped_bundles counters)).
Definition plain (m : CommitMsg) : Prop :=
  skipped_by_layer1 (commit_stats m) = 0 /\ skipped_by_check (commit_stats m) = 0 /\ skip_part m = [].

(** During the run, and at its end. *)
Definition tinv (s : ustate) : Prop :=
  (u_first_commit_pending s = true /\ sent_commits (u_trace s) = []) \/
  (u_first_commit_pending s = false /\
   exists m rest, sent_commits (u_trace s) = m :: rest /\ carries_totals m /\ Forall plain rest).
Definition totals_once (t : list gw_event) : Prop :=
  match sent_commits t with [] => True | m :: rest => carries_totals m /\ Forall plain rest end.

Lemma tinv_totals s : tinv s -> totals_once (u_trace s).
Proof. unfold totals_once. intros [[_ ->]|(_ & m & rest & -> & ?)]; done. Qed.

Lemma tinv_commit s t m :
  tinv s -> totals counters s m -> skip_part m = extras counters s ->
  sent_commits t = sent_commits (u_trace s) ++ [m] ->
  exists m0 rest, sent_commits t = m0 :: rest /\ carries_totals m0 /\ Forall plain rest.
Proof.
  unfold totals, extras. intros Hi [H1 H2] H3 ->. destruct Hi as [[Ef ->]|(Ef & m0 & rest & -> & Hc & Hp)];
    rewrite Ef in *.
  - by exists m, [].
  - exists m0, (rest ++ [m]). split; [done|]. split; [done|]. apply Forall_app. by repeat constructor.
Qed.

Lemma sent_of_commit s sid conn next jobs m (acked : bool) :
  opens s sid conn next ->
  sent_commits (u_trace s ++ conn ++ map (upload_event sid true) jobs
                ++ GCommit sid m acked :: (if acked then [GClose sid] else []))
  = sent_commits (u_trace s) ++ [m].
Proof.
  intros Ho. rewrite !sent_app, (proj1 (conn_no_commit _ _ _ _ Ho)), (proj1 (uploads_no_commit _ _ _)).
  by destruct acked.
Qed.

(** The region-wide totals are reported exactly once.  The first COMMIT a run sends
    carries the layer-1 and CHECK counters and a completion for every bundle the
    gateway's CHECK skipped; every later COMMIT of the run carries none of them, so
    sums over commits do not double count. *)
Theorem totals_sent_once arts disk snap r s' :
  run arts (uploader_init disk snap) = (r, s') -> totals_once (u_trace s').
Proof.
  intros Hr.
  eapply (run_preserves show order env remove_local hip snapshot_file new_info counters tinv
            (fun s => totals_once (u_trace s))); [..|exact Hr].
  - apply tinv_totals.
  - done.
  - intros i s r0 s1 Hb Hi Hf.
    destruct Hf as [e s1 evs sid conn next Ho Hd|r0 s1 sid conn next m acked Ho Htot Hc _ Ht _ _ Hf _ _ _].
    + destruct Hd as [-> | (dn & job & -> & ->)]; [done|]. unfold tinv in *.
      cbn [u_trace u_first_commit_pending with_trace].
      rewrite !sent_app, (proj1 (conn_no_commit _ _ _ _ Ho)), (proj1 (uploads_no_commit _ _ _)). simpl.
      by rewrite app_nil_r.
    + right. split; [done|]. eapply tinv_commit; [exact Hi | exact Htot | by eapply batch_commit_parts|].
      rewrite Ht. by eapply sent_of_commit.
  - intros s r0 s1 Hi Hm. destruct Hm as [r0 s1 [b ->] _|sid Hs _|r0 sid conn next m acked Ho Htot Hc _].
    + by apply tinv_totals in Hi.
    + apply tinv_totals in Hi. unfold totals_once in *. cbn [u_trace with_trace with_first].
      rewrite sent_app. simpl. by rewrite app_nil_r.
    + destruct (tinv_commit s (u_trace s ++ conn ++ GCommit sid m acked :: (if acked then [GClose sid] else [])) m)
        as (m0 & rest & E & Hcar & Hpl); [done | done | by eapply meta_commit_parts | |].
      * by apply (sent_of_commit s sid conn next []).
      * unfold totals_once. cbn [u_trace with_trace with_first]. by rewrite E.
  - intros s sid Hi%tinv_totals Hs. unfold totals_once in *. cbn [u_trace with_trace].
    rewrite sent_app. simpl. by rewrite app_nil_r.
  - by left.
Qed.

(** ** Every artefact is committed, once, in order *)

Abbreviation flush_res := (flush_result order env snapshot_file new_info counters).

Lemma flush_committed i s r s' :
  flush_res i s r s' ->
  match r with
  | Ok _ => committed (u_trace s') = committed (u_trace s) ++ map art_bundle_path (u_batch s) /\
            u_batch s' = [] /\ u_processed s' = u_processed s ∪ batch_names (u_batch s)
  | Err _ => committed (u_trace s') = committed (u_trace s) \/
             committed (u_trace s') = committed (u_trace s) ++ map art_bundle_path (u_batch s)
  end.
Proof.
  intros Hf. destruct Hf as [e s' evs sid conn next Ho Hd|r s' sid conn next m acked Ho _ Hc _ Ht _ _ _ Hsn Hok _].
  - left. destruct Hd as [-> | (dn & job & -> & ->)]; [done|]. cbn [u_trace with_trace].
    rewrite !committed_app, (proj2 (conn_no_commit _ _ _ _ Ho)), (proj2 (uploads_no_commit _ _ _)).
    by rewrite app_nil_r.
  - assert (Hcm : committed (u_trace s') = committed (u_trace s) ++
      (if acked then map art_bundle_path (u_batch s) else [])).
    { rewrite Ht, !committed_app, (proj2 (conn_no_commit _ _ _ _ Ho)), (proj2 (uploads_no_commit _ _ _)).
      destruct acked; [|done]. unfold committed at 2. simpl.
      by rewrite (proj1 (batch_commit_parts _ _ _ _ _ Hc)), app_nil_r. }
    destruct acked.
    + destruct r as [[]|e]; [|by right]. destruct (Hok eq_refl) as [? ?]. done.
    + destruct Hsn as [_ [e ->]]. left. by rewrite Hcm, app_nil_r.
Qed.

Lemma batch_names_app b1 b2 : batch_names (b1 ++ b2) = batch_names b1 ∪ batch_names b2.
Proof. unfold batch_names. by rewrite map_app, list_to_set_app_L. Qed.

(** Every artefact so far is committed or in the batch. *)
Definition accounted (arts : list BundleArtefacts) (s : ustate) : Prop :=
  committed (u_trace s) ++ map art_bundle_path (u_batch s) = map art_bundle_path arts /\
  u_processed s ∪ batch_names (u_batch s) = batch_names arts.
Definition committed_prefix (arts : list BundleArtefacts) (s : ustate) : Prop :=
  committed (u_trace s) `prefix_of` map art_bundle_path arts.

Lemma flush_accounted i arts s r s' :
  accounted arts s -> flush_res i s r s' ->
  match r with Ok _ => accounted arts s' /\ u_batch s' = [] | Err _ => committed_prefix arts s' end.
Proof.
  intros [Hc Hp] Hf%flush_committed. destruct r as [u|e].
  - destruct Hf as (E1 & E2 & E3). split; [|done]. unfold accounted. rewrite E1, E2, E3.
    split; [simpl; by rewrite app_nil_r | rewrite Hp; unfold batch_names at 2; simpl; by rewrite union_empty_r_L].
  - unfold committed_prefix. rewrite <- Hc. destruct Hf as [-> | ->]; [by apply prefix_app_r | done].
Qed.

Lemma receive_accounted a arts s r s' :
  accounted arts s ->
  receive show order env remove_local hip snapshot_file new_info counters a s = (r, s') ->
  match r with Ok _ => accounted (arts ++ [a]) s' | Err _ => committed_prefix (arts ++ [a]) s' end.
Proof.
  intros [Hc Hp]. unfold receive. set (s1 := with_batch s _ _ _ _).
  assert (H1 : forall b n p i, b = u_batch s ++ [a] -> p = u_processed s -> accounted (arts ++ [a]) (with_batch s b n p i)).
  { intros b n p i -> ->. unfold accounted. cbn [u_trace u_batch u_processed with_batch].
    split; [by rewrite !map_app, app_assoc, Hc|]. rewrite !batch_names_app, (assoc_L (∪)), Hp. done. }
  destruct (_ || _).
  - intros Hf. apply flush_shape in Hf; [|by destruct (u_batch s)].
    eapply flush_accounted in Hf; [|by apply H1]. destruct r; [by destruct Hf | done].
  - intros [= <- <-]. by apply H1.
Qed.

Lemma receive_all_accounted arts' arts s r s' :
  accounted arts s ->
  receive_all show order env remove_local hip snapshot_file new_info counters arts' s = (r, s') ->
  match r with Ok _ => accounted (arts ++ arts') s' | Err _ => committed_prefix (arts ++ arts') s' end.
Proof.
  revert arts s. induction arts' as [|a arts' IH]; intros arts s Hs; simpl.
  - intros [= <- <-]. by rewrite app_nil_r.
  - destruct (receive _ _ _ _ _ _ _ _ a s) as [[u|e] s1] eqn:E;
      apply (receive_accounted _ arts) in E; try done.
    + intros H1. apply (IH (arts ++ [a])) in H1; [|done]. by rewrite <- app_assoc in H1.
    + intros [= <- <-]. unfold committed_prefix in *. etrans; [done|].
      rewrite !map_app. apply prefix_app. simpl. apply (prefix_app_r [_] [_]). done.
Qed.

Lemma meta_committed s r s' :
  meta_result counters s r s' -> committed (u_trace s') = committed (u_trace s) /\
    u_processed s' = u_processed s /\ u_batch s' = u_batch s.
Proof.
  intros Hm. destruct Hm as [r s' [b ->] _|sid Hs _|r sid conn next m acked Ho _ Hc _]; [done | |].
  - cbn [u_trace with_trace with_first]. rewrite committed_app. by rewrite app_nil_r.
  - cbn [u_trace with_trace with_first]. rewrite !committed_app, (proj2 (conn_no_commit _ _ _ _ Ho)).
    split; [|done]. destruct acked; [|by rewrite app_nil_r]. unfold committed at 2. simpl.
    rewrite (proj1 (meta_commit_parts _ _ _ Hc)). by rewrite app_nil_r.
Qed.

(** When the uploader succeeds everything it received is committed and processed; when
    it fails, a prefix is committed. *)
Lemma run_accounted arts disk snap r s' :
  run arts (uploader_init disk snap) = (r, s') ->
  match r with
  | Ok processed => committed (u_trace s') = map art_bundle_path arts /\ processed = batch_names arts
  | Err _ => committed_prefix arts s'
  end.
Proof.
  unfold run_uploader.
  destruct (receive_all _ _ _ _ _ _ _ _ arts (uploader_init disk snap)) as [[u|e] s1] eqn:E;
    apply (receive_all_accounted _ []) in E; try done; [|by intros [= <- <-]].
  simpl app in E. destruct (u_batch s1) as [|b bs] eqn:Eb.
  - destruct E as [E1 E2]. rewrite Eb in *. simpl in E1. rewrite app_nil_r in E1.
    unfold batch_names at 1 in E2. simpl in E2. rewrite union_empty_r_L in E2.
    destruct (u_first_commit_pending s1).
    + destruct (flush_metadata_only_commit show counters s1) as [[u'|e] s2] eqn:Em;
        apply meta_shape, meta_committed in Em as (M1 & M2 & _); intros [= <- <-].
      * by rewrite M1, M2.
      * unfold committed_prefix; by rewrite M1, E1.
    + destruct (u_session s1); intros [= <- <-]; [|done]. cbn [u_trace u_processed with_trace].
      rewrite committed_app, app_nil_r. done.
  - set (s1' := with_batch s1 _ _ _ _).
    assert (Ha : accounted arts s1') by (unfold accounted in *; cbn [u_trace u_batch u_processed with_batch s1']; by rewrite Eb in *).
    destruct (flush_batch _ _ _ _ _ _ _ _ s1') as [[u'|e] s2] eqn:Ef;
      apply flush_shape in Ef; try done; apply (flush_accounted _ arts) in Ef; try done; intros [= <- <-].
    + destruct Ef as [[F1 F2] F3]. rewrite F3 in *. simpl in F1. rewrite app_nil_r in F1.
      unfold batch_names at 1 in F2. simpl in F2. by rewrite union_empty_r_L in F2.
    + exact Ef.
Qed.

(** C3: every bundle the executor hands over is committed, exactly once and in order.
    When the uploader succeeds, the acknowledged commits list precisely the bundles
    received, and exactly those are reported as processed; when it fails, what was
    committed is a prefix of what was received. *)
Theorem uploads_committed_in_order arts disk snap r s' :
  run arts (uploader_init disk snap) = (r, s') ->
  match r with
  | Ok processed => committed (u_trace s') = map art_bundle_path arts /\ processed = batch_names arts
  | Err _ => committed (u_trace s') `prefix_of` map art_bundle_path arts
  end.
Proof. intros Hr%run_accounted. by destruct r. Qed.
(** ** Local files outlive their upload *)

(** An upload of a file was acknowledged, and then the commit of its bundle. *)
Definition delivered (t : list gw_event) (f : string) : Prop :=
  exists sid job asset, GUpload sid job asset true ∈ t /\ job_file job = f /\
    job_bundle_path job ∈ committed t.

Lemma delivered_app t1 t2 f : delivered t1 f -> delivered (t1 ++ t2) f.
Proof.
  intros (sid & job & asset & ? & ? & ?). exists sid, job, asset. rewrite committed_app. set_solver.
Qed.

Lemma elem_of_batch_jobs disk batch b f :
  b ∈ batch -> f ∈ art_files b -> is_Some (disk !! f) ->
  mkUploadJob (art_bundle_path b) (art_bundle_hash b) (art_export_root b) f ∈ batch_jobs disk batch.
Proof.
  intros Hb Hf [c Hc]. unfold batch_jobs. apply list_elem_of_In, in_concat.
  exists (bundle_jobs disk b). split; [by apply in_map, list_elem_of_In|].
  apply list_elem_of_In. unfold bundle_jobs. apply list_elem_of_omap. exists f. by rewrite Hc.
Qed.

(** A file of a committed batch was delivered. *)
Lemma batch_delivered t conn sid disk batch m f b :
  (forall l, order l ≡ₚ l) -> fresh_paths m = map art_bundle_path batch ->
  b ∈ batch -> f ∈ art_files b -> is_Some (disk !! f) ->
  delivered (t ++ conn ++ map (upload_event sid true) (order (batch_jobs disk batch))
             ++ [GCommit sid m true; GClose sid]) f.
Proof.
  intros Hord Hm Hb Hf Hd. pose proof (elem_of_batch_jobs _ _ _ _ Hb Hf Hd) as Hj.
  eexists sid, _, _. split; [|split].
  - do 2 (apply elem_of_app; right). apply elem_of_app. left. apply list_elem_of_fmap.
    eexists. split; [reflexivity|]. by rewrite Hord.
  - done.
  - rewrite !committed_app. do 3 (apply elem_of_app; right). unfold committed. simpl.
    rewrite Hm, app_nil_r. apply list_elem_of_fmap. by exists b.
Qed.

(** C1: a local artefact is removed only after the gateway has it.  In every run, whatever
    fails, a file that was on disk is still there unchanged, or its upload was
    acknowledged and so was the commit that lists its bundle. *)
Theorem artefacts_removed_after_commit arts disk snap r s' f content :
  (forall l, order l ≡ₚ l) ->
  run arts (uploader_init disk snap) = (r, s') ->
  disk !! f = Some content -> u_disk s' !! f = Some content \/ delivered (u_trace s') f.
Proof.
  intros Hord Hr Hf0.
  set (P := fun s => u_disk s !! f = Some content \/ delivered (u_trace s) f).
  eapply (run_preserves show order env remove_local hip snapshot_file new_info counters P P); [..|exact Hr];
    unfold P.
  - done.
  - done.
  - intros i s r0 s1 Hb Hi Hf.
    destruct Hf as [e s1 evs sid conn next Ho Hd|r0 s1 sid conn next m acked Ho _ Hc _ Ht _ _ _ _ _ Hd].
    + destruct Hd as [-> | (dn & job & -> & ->)]; [done|]. cbn [u_disk u_trace with_trace].
      destruct Hi; [by left | right; by apply delivered_app].
    + destruct Hi as [Hi|Hi]; [|right; rewrite Ht; by apply delivered_app].
      destruct acked; [|left; by rewrite Hd].
      destruct (Hd f) as [E|(E & b & Hbin & Hfb)]; [left; by rewrite E|].
      right. rewrite Ht. eapply batch_delivered; [done | by eapply batch_commit_parts | done | done | by eexists].
  - intros s r0 s1 Hi Hm. destruct Hm as [r0 s1 [b ->] _|sid Hs _|r0 sid conn next m acked Ho _ _ _];
      cbn [u_disk u_trace with_trace with_first]; [done| |]; (destruct Hi; [by left | right; by apply delivered_app]).
  - intros s sid Hi Hs. cbn [u_disk u_trace with_trace]. destruct Hi; [by left | right; by apply delivered_app].
  - by left.
Qed.

(** ** The snapshot gains committed bundles only *)

(** Every entry of the snapshot comes from the index that was diffed, for a bundle
    committed in this run, or was there before. *)
Definition snapshot_sound (snap0 : files) (s : ustate) : Prop :=
  forall info name d,
    load_snapshot None (u_snap s) snapshot_file = Ok (Some info) -> bundles info !! name = Some d ->
    (name ∈ committed (u_trace s) /\ bundles new_info !! name = Some d) \/
    exists info0, load_snapshot None snap0 snapshot_file = Ok (Some info0) /\ bundles info0 !! name = Some d.

Lemma snapshot_sound_same snap0 s s' t :
  u_snap s' = u_snap s -> u_trace s' = u_trace s ++ t -> snapshot_sound snap0 s -> snapshot_sound snap0 s'.
Proof.
  intros E1 E2 Hs info name d. rewrite E1, E2, committed_app. intros H1 H2.
  destruct (Hs info name d H1 H2) as [[? ?]|?]; [left; set_solver | by right].
Qed.

Lemma committed_details_lookup names name d :
  list_to_map (M := gmap string AssetBundleDetail) (reverse (committed_details new_info names)) !! name = Some d ->
  name ∈ names /\ bundles new_info !! name = Some d.
Proof.
  intros Hin%elem_of_list_to_map_2. rewrite elem_of_reverse in Hin. unfold committed_details in Hin.
  apply list_elem_of_omap in Hin as (n & Hn & E). rewrite elem_of_elements in Hn.
  destruct (bundles new_info !! n) eqn:En; by simplify_eq.
Qed.

Lemma load_snapshot_fault (fs : files) e :
  match load_snapshot (Some e) fs snapshot_file with Ok (Some _) => False | _ => True end.
Proof. unfold load_snapshot. by destruct e. Qed.

Lemma merge_sound snap0 s s' i t names :
  snapshot_sound snap0 s ->
  (forall name, name ∈ names -> name ∈ committed (u_trace s')) ->
  u_trace s' = u_trace s ++ t ->
  u_snap s' = (merge_snapshot (env_merge env i).1 (env_merge env i).2 (u_snap s) snapshot_file
                 (version new_info) (os new_info) (committed_details new_info names)).2 ->
  snapshot_sound snap0 s'.
Proof.
  intros Hs Hn Ht Hsn info name d. rewrite Hsn. unfold merge_snapshot.
  destruct (load_snapshot (env_merge env i).1 (u_snap s) snapshot_file) as [existing|e] eqn:El.
  2: { simpl. intros H1 H2. rewrite Ht, committed_app.
       destruct (Hs info name d H1 H2) as [[? ?]|?]; [left; set_solver | by right]. }
  pose proof (save_snapshot_loads (env_merge env i).2 (u_snap s) snapshot_file
    (merged_info existing (version new_info) (os new_info) (committed_details new_info names))) as Hsv.
  destruct (save_snapshot _ _ _ _) as [[u|e] fs']; cbn [snd]; rewrite Hsv.
  2: { intros H1 H2. rewrite Ht, committed_app.
       destruct (Hs info name d H1 H2) as [[? ?]|?]; [left; set_solver | by right]. }
  intros [= <-]. rewrite merged_info_lookup.
  destruct (list_to_map (M := gmap string AssetBundleDetail) _ !! name) as [d'|] eqn:Ed.
  - intros [= ->]. apply committed_details_lookup in Ed as [? ?]. left. auto.
  - destruct existing as [prev|]; [|done]. destruct (decide _); [|done]. intros Hp.
    destruct (env_merge env i).1 as [ioe|] eqn:Er.
    { pose proof (load_snapshot_fault (u_snap s) ioe) as F. by rewrite El in F. }
    rewrite Ht, committed_app. destruct (Hs prev name d El Hp) as [[? ?]|?]; [left; set_solver | by right].
Qed.

(** C2: the snapshot never claims a bundle that was not delivered.  After any run, every
    entry of the snapshot on disk was there before the run, or belongs to a bundle an
    acknowledged commit lists and carries that bundle's detail in the new index: the
    next diff can only skip what the gateway has. *)
Theorem snapshot_gains_only_committed arts disk snap r s' :
  run arts (uploader_init disk snap) = (r, s') -> snapshot_sound snap s'.
Proof.
  intros Hr.
  eapply (run_preserves show order env remove_local hip snapshot_file new_info counters
            (snapshot_sound snap) (snapshot_sound snap)); [..|exact Hr].
  - done.
  - done.
  - intros i s r0 s1 Hb Hi Hf. pose proof Hf as Hcm%flush_committed.
    destruct Hf as [e s1 evs sid conn next Ho Hd|r0 s1 sid conn next m acked Ho _ Hc _ Ht _ _ _ Hsn _ _].
    + destruct Hd as [-> | (dn & job & -> & ->)]; [done|]. by eapply snapshot_sound_same; [| |exact Hi].
    + destruct acked; [|destruct Hsn as [Hsn _]; by eapply snapshot_sound_same; [exact Hsn | exact Ht |]].
      destruct (committed_details new_info (batch_names (u_batch s))) as [|x xs] eqn:Ed;
        [by eapply snapshot_sound_same; [exact Hsn | exact Ht |]|].
      rewrite <- Ed in Hsn. eapply merge_sound; [exact Hi | | exact Ht | exact Hsn].
      intros name Hname. rewrite Ht, !committed_app. do 3 (apply elem_of_app; right). unfold committed. simpl.
      rewrite (proj1 (batch_commit_parts _ _ _ _ _ Hc)), app_nil_r.
      unfold batch_names in Hname. by rewrite elem_of_list_to_set in Hname.
  - intros s r0 s1 Hi Hm. destruct Hm as [r0 s1 [b ->] _|sid Hs _|r0 sid conn next m acked Ho _ _ _]; [done| |];
      by eapply snapshot_sound_same; [| |exact Hi].
  - intros s sid Hi Hs. by eapply snapshot_sound_same; [| |exact Hi].
  - intros info name d H1 H2. right. by exists info.
Qed.
End RunFacts.

(** ** A concrete run *)
Module ConcreteUploader.
#[export] Instance accepting : HipGateway :=
  {| gw_connect _ := Ok tt; gw_upload _ _ := Ok (Some Shared);
     gw_commit t _ := if (length (acked_commits t) <? 1)%nat then Ok tt else Err (HipTimeout 30000) |}.
#[export] Existing Instance ConcreteCodec.concrete_codec.

Definition art (name : string) : BundleArtefacts :=
  mkArtefacts name "7" "out" [("out/" +:+ name +:+ "/a.png")%string].
Definition disk : files :=
  {["out/b1/a.png" := [Byte.x01; Byte.x02]; "out/b2/a.png" := [Byte.x03]]}.
Definition env : UploaderEnv := mkEnv (fun _ => None) (fun _ _ => Ok 1%nat) (fun _ => (None, no_faults)).
(** One bundle per commit; the gateway acknowledges the first commit only. *)
Definition one_by_one : HipConfig :=
  mkHipConfig true "127.0.0.1:7420" None (mkHipTlsConfig false None) 5000 30000
    (16 * 1024 * 1024) (1024 * 1024) 8 512 30 1 0.
Definition info : AssetBundleInfo :=
  mkAssetBundleInfo (Some "6.6.0.20") None {["b1" := sample_detail 100 10; "b2" := sample_detail 101 10]}.
Definition counters : CheckCounters := mkCounters 4 1 {["b0" := "9"]}.
Definition show (e : HipError) : string := "hip".
Definition arts : list BundleArtefacts := [art "b1"; art "b2"].

Definition outcome : result (gset string) PollError * ustate :=
  run_uploader show id env true one_by_one "jp" info counters arts (uploader_init disk ∅).

Lemma outcome_eq : run_uploader show id env true one_by_one "jp" info counters arts (uploader_init disk ∅)
  = (outcome.1, outcome.2).
Proof. apply surjective_pairing. Qed.

Example outcome_fails : outcome.1 = Err (PollHip "hip").
Proof. vm_compute. reflexivity. Qed.


Lemma totals_sent_once_witness : totals_once counters (u_trace outcome.2).
Proof.
  apply (totals_sent_once show id env true one_by_one "jp" info counters arts disk ∅ outcome.1).
  exact outcome_eq.
Defined.

Lemma uploads_committed_in_order_witness :
  match outcome.1 with
  | Ok processed => committed (u_trace outcome.2) = map art_bundle_path arts /\ processed = batch_names arts
  | Err _ => committed (u_trace outcome.2) `prefix_of` map art_bundle_path arts
  end.
Proof.
  apply (uploads_committed_in_order show id env true one_by_one "jp" info counters arts disk ∅ outcome.1).
  exact outcome_eq.
Defined.

Lemma artefacts_removed_after_commit_witness :
  u_disk outcome.2 !! "out/b1/a.png" = Some [Byte.x01; Byte.x02] \/ delivered (u_trace outcome.2) "out/b1/a.png".
Proof.
  apply (artefacts_removed_after_commit show id env true one_by_one "jp" info counters arts disk ∅ outcome.1);
    [done | exact outcome_eq | vm_compute; reflexivity].
Defined.

Lemma snapshot_gains_only_committed_witness : snapshot_sound "jp" info ∅ outcome.2.
Proof.
  apply (snapshot_gains_only_committed show id env true one_by_one "jp" info counters arts disk ∅ outcome.1).
  exact outcome_eq.
Defined.
End ConcreteUploader.
