(* ===== verification/PollFilter.v ===== *)
(** * The pre-download filter

    [CombinedFilter] and [HipCheckFilter] of [src/service/poller.rs], which decide
    which planned download tasks are executed, and [build_next_snapshot], which
    decides which bundles the next poll will not look at again.

    What the gateway answers to a CHECK is a parameter: a function of the number
    of batches asked before and of the batch. *)

From S2P Require Import Prelude Errors RustStr AssetInfo BundleDiff HipCodec.

Local Open Scope string_scope.
Local Open Scope list_scope.
Local Open Scope Z_scope.

(** ** Layer 2: HIP CHECK *)

(** The item of a task in a CHECK batch. *)
Definition check_item (region_name : string) (task : DownloadTask) : CheckBatchItem :=
  mkCheckBatchItem (bundle_path task) (bundle_hash task) (Z.max (task_file_size task) 0) region_name.

(** The answers by path; of two answers for a path the last one counts. *)
Definition check_decisions (answers : list CheckAckItem) : gmap string CheckAction :=
  list_to_map (reverse (map (fun item => (ack_path item, action item)) answers)).

(** The counter and the map the filter shares with the uploader. *)
Record CheckShared : Type := mkShared {
  skipped_counter : Z;
  skipped_bundles : gmap string string;
}.

(** The loop over the tasks of one chunk. *)
Fixpoint apply_decisions (decisions : gmap string CheckAction) (tasks : list DownloadTask)
    (sh : CheckShared) : list DownloadTask * CheckShared :=
  match tasks with
  | [] => ([], sh)
  | task :: tasks' =>
      match decisions !! bundle_path task with
      | Some SkipAction =>
          apply_decisions decisions tasks'
            (mkShared (skipped_counter sh + 1)
               (<[bundle_path task := bundle_hash task]> (skipped_bundles sh)))
      | _ =>
          let '(keep, sh') := apply_decisions decisions tasks' sh in (task :: keep, sh')
      end
  end.

Section Check.
Context (check_batch : nat -> list CheckBatchItem -> result (list CheckAckItem) HipError).
Context (show : HipError -> string).
Context (region_name : string).

(** The loop over the chunks; [i] batches were asked before. *)
Fixpoint check_chunks (i : nat) (cs : list (list DownloadTask)) (sh : CheckShared)
    : result (list DownloadTask) AssetExecutionError * CheckShared :=
  match cs with
  | [] => (Ok [], sh)
  | chunk :: cs' =>
      match check_batch i (map (check_item region_name) chunk) with
      | Err e => (Err (AxBlockingTask ("hip check_batch failed: " +:+ show e)), sh)
      | Ok answers =>
          let '(keep, sh1) := apply_decisions (check_decisions answers) chunk sh in
          match check_chunks (S i) cs' sh1 with
          | (Err e, sh2) => (Err e, sh2)
          | (Ok keep', sh2) => (Ok (keep ++ keep'), sh2)
          end
      end
  end.

(** [HipCheckFilter::filter]. *)
Definition hip_check_filter (check_batch_size : nat) (tasks : list DownloadTask) (sh : CheckShared)
    : result (list DownloadTask) AssetExecutionError * CheckShared :=
  match tasks with
  | [] => (Ok [], sh)
  | _ => check_chunks 0 (chunks check_batch_size tasks) sh
  end.

(** ** Layer 1 *)

(** [CombinedFilter::filter]: with a CHECK session the gateway decides alone. The
    number in the result is what [layer1_skipped] is set to. *)
Definition combined_filter (hip : option nat) (layer1_allow : gset string) (tasks : list DownloadTask)
    (sh : CheckShared) : result (list DownloadTask) AssetExecutionError * Z * CheckShared :=
  match hip with
  | Some check_batch_size =>
      let '(r, sh') := hip_check_filter check_batch_size tasks sh in (r, 0, sh')
  | None =>
      let kept := List.filter (fun task => bool_decide (bundle_path task ∈ layer1_allow)) tasks in
      (Ok kept, Z.of_nat (length tasks - length kept), sh)
  end.

(** ** Facts *)

(** The gateway said SKIP about this task in a batch that named it. *)
Definition told_to_skip (task : DownloadTask) : Prop :=
  exists i chunk answers, task ∈ chunk /\
    check_batch i (map (check_item region_name) chunk) = Ok answers /\
    check_decisions answers !! bundle_path task = Some SkipAction.

Lemma apply_decisions_spec decisions tasks sh keep sh' :
  apply_decisions decisions tasks sh = (keep, sh') ->
  keep = List.filter (fun t => negb (bool_decide (decisions !! bundle_path t = Some SkipAction))) tasks /\
  skipped_counter sh' = skipped_counter sh + Z.of_nat (length tasks - length keep) /\
  (forall path fp, skipped_bundles sh' !! path = Some fp ->
     skipped_bundles sh !! path = Some fp \/
     exists t, t ∈ tasks /\ bundle_path t = path /\ bundle_hash t = fp /\
       decisions !! path = Some SkipAction) /\
  (forall path, is_Some (skipped_bundles sh !! path) -> is_Some (skipped_bundles sh' !! path)) /\
  (forall t, t ∈ tasks -> decisions !! bundle_path t = Some SkipAction ->
     is_Some (skipped_bundles sh' !! bundle_path t)).
Proof.
  revert sh keep sh'. induction tasks as [|t tasks IH]; intros sh keep sh'; simpl.
  - intros [= <- <-]. repeat split; try done; try lia; [by intros; left | by intros ? ?%elem_of_nil].
  - destruct (decisions !! bundle_path t) as [[]|] eqn:E; simpl.
    1: { intros (Hk & Hc & Hs & Hm & Hin)%IH. cbn [skipped_counter skipped_bundles] in *.
      assert (Hle : (length keep <= length tasks)%nat)
        by (rewrite Hk; apply List.filter_length_le).
      split; [done|]. split; [lia|]. split; [|split].
      - intros path fp Hl. destruct (Hs path fp Hl) as [H|(t' & Ht & ?)].
        + destruct (decide (path = bundle_path t)) as [->|Hne].
          * rewrite lookup_insert_eq in H. right. exists t. split; [by left|]. by simplify_eq.
          * rewrite lookup_insert_ne in H by done. by left.
        + right. exists t'. split; [by right | done].
      - intros path Hp. apply Hm. destruct (decide (path = bundle_path t)) as [->|Hne];
          [by rewrite lookup_insert_eq | by rewrite lookup_insert_ne].
      - intros t' [->|Ht]%elem_of_cons Hd; [|by apply Hin]. apply Hm. by rewrite lookup_insert_eq. }
    all: destruct (apply_decisions decisions tasks sh) as [k s1] eqn:E1;
      apply IH in E1 as (Hk & Hc & Hs & Hm & Hin); intros [= <- <-];
      simpl; subst k; repeat split; try done.
    all: try (intros path fp Hl; destruct (Hs path fp Hl) as [H|(t' & Ht & ?)]; [by left|];
      right; exists t'; split; [by right | done]).
    all: intros t' [->|Ht]%elem_of_cons Hd; [congruence | by apply Hin].
Qed.

Lemma check_chunks_spec i cs sh keep sh' :
  check_chunks i cs sh = (Ok keep, sh') ->
  keep `sublist_of` concat cs /\
  skipped_counter sh' = skipped_counter sh + Z.of_nat (length (concat cs) - length keep) /\
  (forall t, t ∈ concat cs -> t ∈ keep \/ (told_to_skip t /\ is_Some (skipped_bundles sh' !! bundle_path t))) /\
  (forall path fp, skipped_bundles sh' !! path = Some fp ->
     skipped_bundles sh !! path = Some fp \/
     exists t, t ∈ concat cs /\ bundle_path t = path /\ bundle_hash t = fp /\ told_to_skip t) /\
  (forall path, is_Some (skipped_bundles sh !! path) -> is_Some (skipped_bundles sh' !! path)).
Proof.
  revert i sh keep sh'. induction cs as [|chunk cs IH]; intros i sh keep sh'; simpl.
  - intros [= <- <-]. repeat split; try done; try lia; [by intros ? ?%elem_of_nil | by intros; left].
  - destruct (check_batch i _) as [answers|e] eqn:Ec; [|done].
    destruct (apply_decisions _ chunk sh) as [k1 s1] eqn:E1.
    apply apply_decisions_spec in E1 as (Hk & Hc & Hs & Hm & Hin).
    destruct (check_chunks (S i) cs s1) as [[k2|e] s2] eqn:E2; [|done].
    apply IH in E2 as (Hk2 & Hc2 & Hin2 & Hs2 & Hm2). intros [= <- <-].
    assert (Hsub : k1 `sublist_of` chunk).
    { rewrite Hk. clear. induction chunk as [|t chunk IHc]; simpl; [done|].
      destruct (negb _); by constructor. }
    pose proof (sublist_length _ _ Hsub). pose proof (sublist_length _ _ Hk2).
    split; [by apply sublist_app|]. split; [rewrite Hc2, Hc, !length_app; lia|]. split; [|split].
    + intros t [Ht|Ht]%elem_of_app.
      * destruct (decide (check_decisions answers !! bundle_path t = Some SkipAction)) as [Hd|Hd].
        -- right. split; [by exists i, chunk, answers | by apply Hm2, Hin].
        -- left. apply elem_of_app. left. rewrite Hk. apply list_elem_of_In, List.filter_In.
           split; [by apply list_elem_of_In | by rewrite bool_decide_false].
      * destruct (Hin2 t Ht) as [?|?]; [left; apply elem_of_app; by right | by right].
    + intros path fp Hl. destruct (Hs2 path fp Hl) as [H1|(t & Ht & ?)].
      * destruct (Hs path fp H1) as [?|(t & Ht & <- & <- & Hd)]; [by left|]. right. exists t.
        repeat split; try done; [apply elem_of_app; by left | by exists i, chunk, answers].
      * right. exists t. split; [apply elem_of_app; by right | done].
    + auto.
Qed.

(** The CHECK filter loses nothing.  When it succeeds, the tasks it keeps are a
    subsequence of the planned ones; every task it drops was answered SKIP by the
    gateway in a batch that named it and is recorded among the skipped bundles, with
    the fingerprint that was asked about; and the counter grows by the number of
    tasks dropped. *)
Theorem hip_check_filter_exact size tasks sh keep sh' :
  (0 < size)%nat ->
  hip_check_filter size tasks sh = (Ok keep, sh') ->
  keep `sublist_of` tasks /\
  skipped_counter sh' = skipped_counter sh + Z.of_nat (length tasks - length keep) /\
  (forall t, t ∈ tasks -> t ∈ keep \/ (told_to_skip t /\ is_Some (skipped_bundles sh' !! bundle_path t))) /\
  (forall path fp, skipped_bundles sh' !! path = Some fp ->
     skipped_bundles sh !! path = Some fp \/
     exists t, t ∈ tasks /\ bundle_path t = path /\ bundle_hash t = fp /\ told_to_skip t).
Proof.
  intros Hsz. unfold hip_check_filter. destruct tasks as [|t0 ts] eqn:Et.
  - intros [= <- <-]. repeat split; try done; try lia; [by intros ? ?%elem_of_nil | by intros; left].
  - intros Hc%check_chunks_spec. rewrite chunks_concat in Hc by done. by destruct_and! Hc.
Qed.
End Check.

(** ** The next snapshot *)

(** The cases of the loop of [build_next_snapshot]: processed in this run, or unchanged
    against the previous snapshot. *)
Definition carries (old_info : option AssetBundleInfo) (processed_this_run : gset string)
    (name : string) (detail : AssetBundleDetail) : bool :=
  if bool_decide (name ∈ processed_this_run) then true
  else match old_info with
       | Some old => match bundles old !! name with Some prev => crc prev =? crc detail | None => false end
       | None => false
       end.

(** [build_next_snapshot]. *)
Definition build_next_snapshot (new_info : AssetBundleInfo) (old_info : option AssetBundleInfo)
    (processed_this_run : gset string) : AssetBundleInfo :=
  mkAssetBundleInfo (version new_info) (os new_info)
    (filter (fun e => carries old_info processed_this_run e.1 e.2 = true) (bundles new_info)).

Lemma carries_spec old_info processed name d :
  carries old_info processed name d = false <-> needs_work old_info name d /\ name ∉ processed.
Proof.
  unfold carries, needs_work. case_bool_decide; [naive_solver|]. destruct old_info as [old|]; [|naive_solver].
  destruct (bundles old !! name) as [prev|]; [|naive_solver]. rewrite Z.eqb_neq. naive_solver.
Qed.

Lemma next_snapshot_needs_work new_info old_info processed name d :
  bundles new_info !! name = Some d ->
  (needs_work (Some (build_next_snapshot new_info old_info processed)) name d <->
   needs_work old_info name d /\ name ∉ processed).
Proof.
  intros Hd. rewrite <- carries_spec.
  unfold needs_work, build_next_snapshot. cbn [bundles]. rewrite map_lookup_filter, Hd. simpl.
  destruct (carries old_info processed name d); case_guard; simpl; naive_solver.
Qed.

(** What a poll leaves for the next one.  Against the snapshot built at the end of a
    poll, exactly those bundles of the index need work that needed work before the
    poll and were not processed by it; and the snapshot holds nothing but bundles of
    the index, with their fresh details. *)
Theorem next_snapshot_exact new_info old_info processed name d :
  bundles new_info !! name = Some d ->
  (needs_work (Some (build_next_snapshot new_info old_info processed)) name d <->
   needs_work old_info name d /\ name ∉ processed) /\
  bundles (build_next_snapshot new_info old_info processed) ⊆ bundles new_info.
Proof. intros Hd. split; [by apply next_snapshot_needs_work | apply map_filter_subseteq]. Qed.

(** ** Concrete inputs *)
Module ConcreteFilter.
Definition task (p : string) : DownloadTask := mkDownloadTask p p "h" StartApp 1 0.
(** A gateway that has the bundle [a] and nothing else. *)
Definition gateway (i : nat) (items : list CheckBatchItem) : result (list CheckAckItem) HipError :=
  Ok (map (fun it => mkCheckAckItem (item_path it)
            (if String.eqb (item_path it) "a" then SkipAction else UploadAction) None) items).
Definition result_of : result (list DownloadTask) AssetExecutionError * CheckShared :=
  hip_check_filter gateway (fun _ => "hip") "jp" 2 [task "a"; task "b"; task "c"] (mkShared 0 ∅).

Lemma hip_check_filter_exact_witness :
  [task "b"; task "c"] `sublist_of` [task "a"; task "b"; task "c"] /\
  skipped_counter result_of.2 = 0 + Z.of_nat (3 - 2) /\
  (forall t, t ∈ [task "a"; task "b"; task "c"] ->
     t ∈ [task "b"; task "c"] \/ (told_to_skip gateway "jp" t /\ is_Some (skipped_bundles result_of.2 !! bundle_path t))) /\
  (forall path fp, skipped_bundles result_of.2 !! path = Some fp ->
     (∅ : gmap string string) !! path = Some fp \/
     exists t, t ∈ [task "a"; task "b"; task "c"] /\ bundle_path t = path /\ bundle_hash t = fp /\
       told_to_skip gateway "jp" t).
Proof.
  apply (hip_check_filter_exact gateway (fun _ => "hip") "jp" 2 [task "a"; task "b"; task "c"] (mkShared 0 ∅)
           [task "b"; task "c"] result_of.2); [lia | vm_compute; reflexivity].
Defined.

Definition index : AssetBundleInfo :=
  mkAssetBundleInfo None None {["a" := sample_detail 1 1; "b" := sample_detail 2 1]}.
Lemma next_snapshot_exact_witness :
  (needs_work (Some (build_next_snapshot index None {["b"]})) "a" (sample_detail 1 1) <->
   needs_work None "a" (sample_detail 1 1) /\ "a" ∉ ({["b"]} : gset string)) /\
  bundles (build_next_snapshot index None {["b"]}) ⊆ bundles index.
Proof. apply (next_snapshot_exact index None {["b"]} "a" (sample_detail 1 1)). reflexivity. Defined.
End ConcreteFilter.
