(* ===== verification/WorkDir.v ===== *)
(** * Local work directories

    The parts of [src/service/poller.rs] that delete directories:
    [prune_empty_parent_dirs], [resolve_region_cleanup_dir] and
    [remove_region_work_dir_after_success].

    A directory tree is a map from resolved paths to what is there.
    [std::fs::canonicalize] is an interface with its documented promise: the path
    it returns exists, is absolute and has no symbolic link in it. *)

From S2P Require Import Prelude Errors RustStr Config Paths.

Local Open Scope string_scope.
Local Open Scope list_scope.

#[export] Instance component_countable : Countable component.
Proof.
  refine (inj_countable'
    (fun c => match c with RootDir => inl 0%nat | CurDir => inl 1%nat | ParentDir => inl 2%nat
                         | Normal w => inr w end)
    (fun x => match x with inl 0%nat => RootDir | inl 1%nat => CurDir | inl _ => ParentDir
                         | inr w => Normal w end) _).
  by intros [].
Defined.

Inductive kind : Type := KDir | KFile.
#[export] Instance kind_eq_dec : EqDecision kind.
Proof. solve_decision. Defined.

Abbreviation tree := (gmap path kind).

(** Every entry below another one is in a directory. *)
Definition tree_wf (t : tree) : Prop :=
  forall q c, q <> [] -> is_Some (t !! (q ++ [c])) -> t !! q = Some KDir.

Definition canonical (p : path) : Prop := exists names, p = RootDir :: map Normal names.

(** [std::fs::canonicalize].  The last law says that a resolved path and its ancestors
    resolve to themselves, also after other entries were removed. *)
Class Resolver := {
  canonicalize : tree -> path -> result path io_error;
  canonicalize_exists t p q : canonicalize t p = Ok q -> is_Some (t !! q);
  canonicalize_canonical t p q : canonicalize t p = Ok q -> canonical q;
  canonicalize_stable t t' p q a b :
    canonicalize t p = Ok q -> a `prefix_of` q -> t' ⊆ t -> canonicalize t' a = Ok b -> b = a;
}.

(** [Path::starts_with]. *)
Definition path_starts_with (p base : path) : bool := bool_decide (is_Some (path_strip_prefix base p)).

Lemma path_starts_with_spec p base : path_starts_with p base = true <-> base `prefix_of` p.
Proof.
  unfold path_starts_with. rewrite bool_decide_eq_true. split.
  - intros [q ->%path_strip_prefix_Some]. by exists q.
  - intros [q ->]. exists q. by apply path_strip_prefix_Some.
Qed.

(** ** Removing *)

(** Something is below [p]. *)
Definition has_child (t : tree) (p : path) : bool :=
  existsb (fun e => path_starts_with e.1 p && negb (bool_decide (e.1 = p))) (map_to_list t).

(** [std::fs::remove_dir]; [fault] is an error of the system on a call that would be
    possible. *)
Definition remove_dir (fault : path -> option io_error) (t : tree) (p : path) : result unit io_error * tree :=
  match t !! p with
  | None => (Err NotFound, t)
  | Some KFile => (Err (OtherIo "not a directory"), t)
  | Some KDir =>
      if has_child t p then (Err DirectoryNotEmpty, t)
      else match fault p with
           | Some e => (Err e, t)
           | None => (Ok tt, delete p t)
           end
  end.

(** [tokio::fs::remove_dir_all]; a failure leaves the entries it did not reach. *)
Definition remove_dir_all (fault : option (io_error * (path -> bool))) (t : tree) (d : path)
    : result unit io_error * tree :=
  match fault with
  | Some (e, survives) => (Err e, filter (fun x => path_starts_with x.1 d = false \/ survives x.1 = true) t)
  | None => (Ok tt, filter (fun x => path_starts_with x.1 d = false) t)
  end.

Section WorkDir.
Context `{Resolver}.
Context (fault : path -> option io_error).

(** The loop of [prune_empty_parent_dirs]; [None] when [fuel] runs out. *)
Fixpoint prune_loop (fuel : nat) (stop_root current : path) (removed : nat) (t : tree)
    : option (result nat io_error * tree) :=
  match fuel with
  | O => None
  | S fuel' =>
      match canonicalize t current with
      | Err NotFound => Some (Ok removed, t)
      | Err e => Some (Err e, t)
      | Ok current_canon =>
          if bool_decide (current_canon = stop_root) || negb (path_starts_with current_canon stop_root)
          then Some (Ok removed, t)
          else
            let next removed t :=
              match path_parent current_canon with
              | None => Some (Ok removed, t)
              | Some parent => prune_loop fuel' stop_root parent removed t
              end in
            match remove_dir fault t current_canon with
            | (Ok _, t') => next (S removed) t'
            | (Err NotFound, t') => next removed t'
            | (Err DirectoryNotEmpty, t') => Some (Ok removed, t')
            | (Err e, t') => Some (Err e, t')
            end
      end
  end.

(** Iterations that suffice from [current]: one per component of its resolved path. *)
Definition prune_fuel (t : tree) (current : path) : nat :=
  match canonicalize t current with Ok q => S (length q) | Err _ => 1 end.

(** [prune_empty_parent_dirs]. *)
Definition prune_empty_parent_dirs (t : tree) (p stop_root : path) : option (result nat io_error * tree) :=
  match canonicalize t stop_root with
  | Err NotFound => Some (Ok 0%nat, t)
  | Err e => Some (Err e, t)
  | Ok stop_root =>
      match path_parent p with
      | None => Some (Ok 0%nat, t)
      | Some parent => prune_loop (prune_fuel t parent) stop_root parent 0 t
      end
  end.

(** [resolve_region_cleanup_dir]; [cwd] is the resolved current directory. *)
Definition resolve_region_cleanup_dir (cwd : result path io_error) (t : tree) (region_name configured_path : string)
    : result (option path) PollError :=
  let refuse why := Err (PollConfig ("region `" +:+ region_name +:+ "` asset_save_dir " +:+ why)) in
  if is_empty configured_path then refuse "is empty; refusing cleanup"
  else match canonicalize t (components configured_path) with
  | Err NotFound => Ok None
  | Err _ => Err (PollExecution ("resolve region local work dir " +:+ configured_path))
  | Ok cleanup_dir =>
      let shown := path_str cleanup_dir in
      match t !! cleanup_dir with
      | None => Err (PollExecution ("inspect region local work dir " +:+ shown))
      | Some KFile => refuse (shown +:+ " is not a directory; refusing cleanup")
      | Some KDir =>
          match path_parent cleanup_dir with
          | None => refuse (shown +:+ " resolves to a filesystem root; refusing cleanup")
          | Some _ =>
              match cwd with
              | Err _ => Err (PollExecution "resolve current directory")
              | Ok cwd =>
                  if bool_decide (cleanup_dir = cwd) || path_starts_with cwd cleanup_dir
                  then refuse (shown +:+ " contains the process cwd; refusing cleanup")
                  else match file_name cleanup_dir with
                  | None => refuse (shown +:+ " has no final directory name; refusing cleanup")
                  | Some dir_name =>
                      if negb (contains (to_ascii_lowercase region_name) (to_ascii_lowercase dir_name))
                      then refuse (shown +:+ " does not look region-scoped; refusing cleanup")
                      else Ok (Some cleanup_dir)
                  end
              end
          end
      end
  end.

(** [remove_region_work_dir_after_success]. *)
Definition remove_region_work_dir_after_success (cwd : result path io_error)
    (rm : option (io_error * (path -> bool))) (config : AppConfig) (region_name : string) (t : tree)
    : result unit PollError * tree :=
  if negb (hip_enabled (hip config)) then (Ok tt, t)
  else match regions config !! region_name with
  | None => (Ok tt, t)
  | Some region_config =>
      if negb (remove_local_after_upload (upload region_config)) then (Ok tt, t)
      else match trimmed_non_empty (asset_save_dir (paths region_config)) with
      | None => (Ok tt, t)
      | Some dir =>
          match resolve_region_cleanup_dir cwd t region_name dir with
          | Err e => (Err e, t)
          | Ok None => (Ok tt, t)
          | Ok (Some cleanup_dir) =>
              match remove_dir_all rm t cleanup_dir with
              | (Err _, t') =>
                  (Err (PollExecution ("remove region local work dir " +:+ path_str cleanup_dir +:+ " after HIP success")), t')
              | (Ok _, t') => (Ok tt, t')
              end
          end
      end
  end.

(** ** Facts *)

(** [t'] is [t] without some empty directories strictly below [root]. *)
Definition pruned (root : path) (t t' : tree) : Prop :=
  t' ⊆ t /\
  (forall q, t !! q = Some KFile -> t' !! q = Some KFile) /\
  (forall q, is_Some (t !! q) -> t' !! q = None -> root `prefix_of` q /\ q <> root) /\
  (tree_wf t -> tree_wf t').

Lemma pruned_refl root t : pruned root t t.
Proof. split; [done|]. split; [done|]. split; [|done]. intros q [k Hk] E. congruence. Qed.

Lemma pruned_trans root t1 t2 t3 : pruned root t1 t2 -> pruned root t2 t3 -> pruned root t1 t3.
Proof.
  intros (S1 & F1 & O1 & W1) (S2 & F2 & O2 & W2). split; [by etrans|]. split; [auto|]. split; [|auto].
  intros q Hq E. destruct (t2 !! q) as [k|] eqn:E2; [by apply O2 | by apply O1].
Qed.

Lemma has_child_false t p q :
  has_child t p = false -> is_Some (t !! q) -> p `prefix_of` q -> q <> p -> False.
Proof.
  unfold has_child. intros Hf [k Hk] Hp Hne.
  assert (existsb (fun e : path * kind => path_starts_with e.1 p && negb (bool_decide (e.1 = p))) (map_to_list t) = true); [|congruence].
  apply existsb_exists. exists (q, k). split; [by apply list_elem_of_In, elem_of_map_to_list|]. simpl.
  apply andb_true_iff. split; [by apply path_starts_with_spec | by rewrite bool_decide_false].
Qed.

Lemma remove_dir_pruned root t p r t' :
  root `prefix_of` p -> p <> root -> remove_dir fault t p = (r, t') ->
  pruned root t t' /\ match r with Ok _ => S (size t') = size t | Err _ => t' = t end.
Proof.
  intros Hp Hne. unfold remove_dir.
  destruct (t !! p) as [[]|] eqn:E; [| intros [= <- <-]; split; [apply pruned_refl | done] ..].
  destruct (has_child t p) eqn:Eh; [intros [= <- <-]; split; [apply pruned_refl | done]|].
  destruct (fault p); intros [= <- <-]; [split; [apply pruned_refl | done]|].
  split.
  - split; [apply delete_subseteq|]. split; [|split].
    + intros q Hq. rewrite lookup_delete_ne; [done | congruence].
    + intros q Hq Hd. destruct (decide (q = p)) as [->|Hqp]; [done|].
      rewrite lookup_delete_ne in Hd by done. rewrite Hd in Hq. by destruct Hq.
    + intros Hw q c Hq0 Hc. destruct (decide (q ++ [c] = p)) as [<-|Hqc].
      { rewrite lookup_delete_eq in Hc. by destruct Hc. }
      rewrite lookup_delete_ne in Hc by done. rewrite lookup_delete_ne; [by eapply Hw|].
      intros <-. eapply (has_child_false t p (p ++ [c])); [done | done | by eexists |].
      intros Eq%(f_equal length). rewrite length_app in Eq. simpl in Eq. lia.
  - rewrite map_size_delete_Some by by eexists. 
    assert (size t <> 0%nat) by (intros Hz%map_size_empty_inv; by rewrite Hz in E). lia.
Qed.

Lemma path_parent_prefix p parent :
  path_parent p = Some parent -> parent `prefix_of` p /\ S (length parent) = length p.
Proof.
  unfold path_parent. destruct (last p) as [c|] eqn:E; [|done].
  apply last_Some in E as [l ->]. rewrite removelast_snoc.
  destruct c; intros [= <-]; rewrite length_app; simpl; (split; [by apply prefix_app_r | lia]).
Qed.

Lemma prune_loop_spec t0 p0 q0 root fuel t cur removed :
  canonicalize t0 p0 = Ok q0 -> t ⊆ t0 -> (0 < fuel)%nat ->
  (forall b, canonicalize t cur = Ok b -> b `prefix_of` q0 /\ (length b < fuel)%nat) ->
  exists r t', prune_loop fuel root cur removed t = Some (r, t') /\ pruned root t t' /\
    forall n, r = Ok n -> (n + size t' = removed + size t)%nat.
Proof.
  intros H0. revert t cur removed. induction fuel as [|fuel IH]; intros t cur removed Ht Hf Hcur; [lia|].
  assert (Hstop : forall r : result nat io_error, (forall n, r = Ok n -> n = removed) ->
    exists r0 t', Some (r, t) = Some (r0, t') /\ pruned root t t' /\
      forall n, r0 = Ok n -> (n + size t' = removed + size t)%nat).
  { intros r Hr. exists r, t. split; [done|]. split; [apply pruned_refl|]. by intros n ->%Hr. }
  simpl. destruct (canonicalize t cur) as [cc|e] eqn:Ec.
  2: { destruct e; apply Hstop; naive_solver. }
  destruct (Hcur cc eq_refl) as [Hpre Hlen].
  destruct (bool_decide (cc = root) || negb (path_starts_with cc root)) eqn:Eb; [apply Hstop; naive_solver|].
  apply orb_false_iff in Eb as [Hne%bool_decide_eq_false Hst%negb_false_iff%path_starts_with_spec].
  destruct (remove_dir fault t cc) as [r1 t1] eqn:Er.
  destruct (remove_dir_pruned root t cc r1 t1 Hst Hne Er) as [Hp1 Hs1].
  assert (Hnext : forall m, (m + size t1 = removed + size t)%nat ->
    exists r t', match path_parent cc with
                 | Some parent => prune_loop fuel root parent m t1
                 | None => Some (Ok m, t1)
                 end = Some (r, t') /\ pruned root t t' /\
      forall n, r = Ok n -> (n + size t' = removed + size t)%nat).
  { intros m Hm. destruct (path_parent cc) as [parent|] eqn:Ep.
    - apply path_parent_prefix in Ep as [Hpp Hpl].
      destruct (IH t1 parent m) as (r & t' & -> & Hp2 & Hn).
      + destruct Hp1 as [? _]. by etrans.
      + lia.
      + intros b Hb. assert (b = parent) as ->; [|split; [by etrans | lia]].
        eapply (canonicalize_stable t0); [exact H0 | by etrans | | exact Hb].
        destruct Hp1 as [? _]. by etrans.
      + exists r, t'. split; [done|]. split; [by eapply pruned_trans|]. intros n Hr. rewrite (Hn n Hr). lia.
    - exists (Ok m), t1. split; [done|]. split; [done|]. intros n [= <-]. lia. }
  destruct r1 as [u|e]; [apply Hnext; lia|]. subst t1.
  destruct e; try (by apply Hstop; naive_solver). by apply Hnext.
Qed.

(** Pruning empty parent directories is safe and terminates.  It always returns;
    it only removes directories strictly below the resolved export root; no file and
    nothing outside the root is touched; a directory is removed only when nothing is
    left in it, so a well-formed tree stays well-formed; and on success it reports
    the number of directories removed. *)
Theorem prune_safe t p stop_root :
  exists r t', prune_empty_parent_dirs t p stop_root = Some (r, t') /\
    (t' <> t -> exists root, canonicalize t stop_root = Ok root /\ pruned root t t') /\
    forall n, r = Ok n -> (n + size t' = size t)%nat.
Proof.
  unfold prune_empty_parent_dirs, prune_fuel.
  assert (Hstop : forall r : result nat io_error, (forall n, r = Ok n -> n = 0%nat) -> exists r0 t',
    Some (r, t) = Some (r0, t') /\ (t' <> t -> exists root, canonicalize t stop_root = Ok root /\ pruned root t t') /\
      forall n, r0 = Ok n -> (n + size t' = size t)%nat).
  { intros r Hr. exists r, t. split; [done|]. split; [done|]. by intros n ->%Hr. }
  destruct (canonicalize t stop_root) as [root|e] eqn:Er; [|destruct e; apply Hstop; naive_solver].
  destruct (path_parent p) as [parent|]; [|apply Hstop; naive_solver].
  destruct (canonicalize t parent) as [q0|e] eqn:Ec.
  - destruct (prune_loop_spec t parent q0 root (S (length q0)) t parent 0) as (r & t' & -> & Hp & Hn);
      [done | reflexivity | lia | intros b Hb; rewrite Ec in Hb; injection Hb as <-; split; [reflexivity | lia] |].
    exists r, t'. split; [done|]. split; [|done]. intros _. by exists root.
  - simpl. rewrite Ec. destruct e; apply Hstop; naive_solver.
Qed.

Lemma resolve_cases cwd t region dir d :
  resolve_region_cleanup_dir cwd t region dir = Ok (Some d) ->
  exists c name, cwd = Ok c /\ canonicalize t (components dir) = Ok d /\ t !! d = Some KDir /\
    d <> [RootDir] /\ ~ d `prefix_of` c /\ file_name d = Some name /\
    contains (to_ascii_lowercase region) (to_ascii_lowercase name) = true.
Proof.
  unfold resolve_region_cleanup_dir. destruct (is_empty dir); [done|].
  destruct (canonicalize t (components dir)) as [d'|[]] eqn:Ec; try done.
  destruct (t !! d') as [[]|] eqn:Ek; try done.
  destruct (path_parent d') eqn:Ep; [|done]. destruct cwd as [c|]; [|done].
  destruct (bool_decide (d' = c) || path_starts_with c d') eqn:Eb; [done|].
  destruct (file_name d') as [name|] eqn:Ef; [|done].
  destruct (contains _ _) eqn:Ect; [|done]. intros [= <-].
  apply orb_false_iff in Eb as [_ Eb]. exists c, name. repeat split; try done.
  - by intros ->.
  - intros Hp%path_starts_with_spec. congruence.
Qed.

(** the work directory that is deleted is the region's own.  Whatever
    [remove_region_work_dir_after_success] removes lies below one directory: the
    resolved [asset_save_dir] of a region with HIP on and
    [remove_local_after_upload] set, not a file-system root, whose name contains the
    region's (ASCII case aside).  The process's current directory and its ancestors
    survive. *)
Theorem work_dir_cleanup_safe cwd rm config region t r t' q :
  remove_region_work_dir_after_success cwd rm config region t = (r, t') ->
  t' !! q <> t !! q ->
  exists rc dir d c name,
    hip_enabled (hip config) = true /\ regions config !! region = Some rc /\
    remove_local_after_upload (upload rc) = true /\
    trimmed_non_empty (asset_save_dir (paths rc)) = Some dir /\
    canonicalize t (components dir) = Ok d /\ d <> [RootDir] /\ file_name d = Some name /\
    contains (to_ascii_lowercase region) (to_ascii_lowercase name) = true /\
    d `prefix_of` q /\ cwd = Ok c /\ ~ q `prefix_of` c.
Proof.
  unfold remove_region_work_dir_after_success.
  destruct (hip_enabled (hip config)) eqn:Eh; [|by intros [= _ <-]]. simpl.
  destruct (regions config !! region) as [rc|] eqn:Erc; [|by intros [= _ <-]].
  destruct (remove_local_after_upload (upload rc)) eqn:El; [|by intros [= _ <-]]. simpl.
  destruct (trimmed_non_empty _) as [dir|] eqn:Ed; [|by intros [= _ <-]].
  destruct (resolve_region_cleanup_dir cwd t region dir) as [[d|]|e] eqn:Er; [|by intros [= _ <-]..].
  apply resolve_cases in Er as (c & name & -> & Hc & Hk & Hroot & Hcwd & Hn & Hct).
  destruct (remove_dir_all rm t d) as [r1 t1] eqn:Erm. intros Eq Hq.
  assert (t1 = t') as -> by (destruct r1; congruence).
  assert (Hd : d `prefix_of` q).
  { apply path_starts_with_spec. destruct (path_starts_with q d) eqn:Es; [done|]. exfalso. apply Hq.
    destruct rm as [[e survives]|]; injection Erm as _ <-; rewrite map_lookup_filter;
      destruct (t !! q); simpl; try done; case_guard as Hg; try done; exfalso; apply Hg; simpl; auto. }
  exists rc, dir, d, c, name. repeat split; try done. intros Hqc. apply Hcwd. by etrans.
Qed.
End WorkDir.

(** ** A concrete tree

    A file system without symbolic links: a path resolves to itself when it is
    absolute and exists. *)
Module ConcreteDirs.
Definition is_canonical (p : path) : bool :=
  match p with
  | RootDir :: rest => forallb (fun c => match c with Normal _ => true | _ => false end) rest
  | _ => false
  end.

Lemma is_canonical_spec p : is_canonical p = true -> canonical p.
Proof.
  destruct p as [|[] rest]; simpl; try done. intros Hr.
  exists (omap (fun c => match c with Normal w => Some w | _ => None end) rest). f_equal.
  induction rest as [|[] rest IH]; csimpl in *; try done. f_equal. by apply IH.
Qed.

#[export] Instance plain_resolver : Resolver.
Proof.
  refine {| canonicalize t p :=
    if is_canonical p then match t !! p with Some _ => Ok p | None => Err NotFound end else Err NotFound |}.
  - intros t p q. destruct (is_canonical p); [|done]. destruct (t !! p) eqn:E; [|done].
    intros [= <-]. by rewrite E.
  - intros t p q. destruct (is_canonical p) eqn:Ec; [|done]. destruct (t !! p); [|done].
    intros [= <-]. by apply is_canonical_spec.
  - intros t t' p q a b _ _ _. destruct (is_canonical a); [|done]. destruct (t' !! a); [|done].
    by intros [= <-].
Defined.

Definition dir (s : string) : path := components s.
Definition disk : tree :=
  {[ dir "/" := KDir; dir "/srv" := KDir; dir "/srv/jp" := KDir; dir "/srv/jp/b1" := KDir;
     dir "/srv/jp/b1/x" := KDir; dir "/srv/jp/keep.txt" := KFile; dir "/app" := KDir ]}.

(** After a file of [/srv/jp/b1/x] was deleted, the two empty directories above it go. *)
Example prune_example :
  option_map (fun o => (o.1, bool_decide (o.2 !! dir "/srv/jp/b1" = None), o.2 !! dir "/srv/jp"))
    (prune_empty_parent_dirs (fun _ => None) disk (dir "/srv/jp/b1/x/a.png") (dir "/srv/jp"))
  = Some (Ok 2%nat, true, Some KDir).
Proof. vm_compute. reflexivity. Qed.

Lemma prune_safe_witness :
  exists r t', prune_empty_parent_dirs (fun _ => None) disk (dir "/srv/jp/b1/x/a.png") (dir "/srv/jp") = Some (r, t') /\
    (t' <> disk -> exists root, canonicalize disk (dir "/srv/jp") = Ok root /\ pruned root disk t') /\
    forall n, r = Ok n -> (n + size t' = size disk)%nat.
Proof. apply (prune_safe (fun _ => None)). Defined.

Definition config : AppConfig :=
  mkAppConfig 3 ServerConfig_default ExecutionConfig_default BackendsConfig_default
    (mkResourcesConfig CpuResourceConfig_default (mkMemoryResourceConfig 0))
    ConcurrencyConfig_default (mkStorageConfig [])
    (mkChartHashConfig false None None None None false Gpg None None)
    PollerConfig_default HipConfig_default
    {["jp" := mkRegionConfig true RegionProviderConfig_default (mkCryptoConfig None None) "2022.3.21f1"
        (mkRegionPathsConfig (Some "/srv/jp") None) (mkRegionFiltersConfig [] [] [] [])
        RegionExportConfig_default
        (mkRegionUploadConfig false [] (mkUploadPublicReadConfig [] []) true)]}.
Definition after : result unit PollError * tree :=
  remove_region_work_dir_after_success (Ok (dir "/app")) None config "jp" disk.

Lemma work_dir_cleanup_safe_witness :
  exists rc d0 d c name,
    hip_enabled (hip config) = true /\ regions config !! "jp" = Some rc /\
    remove_local_after_upload (upload rc) = true /\
    trimmed_non_empty (asset_save_dir (paths rc)) = Some d0 /\
    canonicalize disk (components d0) = Ok d /\ d <> [RootDir] /\ file_name d = Some name /\
    contains (to_ascii_lowercase "jp") (to_ascii_lowercase name) = true /\
    d `prefix_of` dir "/srv/jp/b1" /\ Ok (dir "/app") = Ok (E := io_error) c /\ ~ dir "/srv/jp/b1" `prefix_of` c.
Proof.
  apply (work_dir_cleanup_safe (Ok (dir "/app")) None config "jp" disk after.1 after.2 (dir "/srv/jp/b1"));
    [apply surjective_pairing | vm_compute; discriminate].
Defined.
End ConcreteDirs.
