(* ===== verification/Poller.v ===== *)
(** * The region poller

    The rest of [src/service/poller.rs]: [run_region_once], [execute_once],
    [retry_region_in_place], [execute_once_attempt], [persist_processed_snapshot],
    [mark_state], [region_snapshots], and [Poller::run] with [run_region_loop] as a
    step relation over all enabled regions.

    A poll changes a [World]: the watermark store and its file, the snapshot
    directory and the local directory tree.  What the network, the executor and the
    operating system answer during one attempt is an [AttemptEnv]. Panics of the
    uploader task are not part of an attempt. *)

From S2P Require Import Prelude Errors RustStr Config AssetInfo Models Regions Paths Fs BundleDiff HipCodec.
From S2P Require Import Watermark Uploader PollFilter WorkDir.

Local Open Scope string_scope.
Local Open Scope list_scope.
Local Open Scope Z_scope.

Definition FAILED_REGION_RETRY_ATTEMPTS : Z := 10.
Definition FAILED_REGION_RETRY_BACKOFF_SECONDS : Z := 5.

(** [enum RunOutcome]. *)
Inductive RunOutcome : Type := SkippedByWatermark | PollCompleted.

(** What a poll reads and changes. *)
Record World : Type := mkWorld {
  w_store : WatermarkStore;
  w_wm : files;         (* where the watermark file is *)
  w_snap : files;       (* where the snapshots are *)
  w_tree : tree;        (* the local directories *)
}.

(** What the executor reports of the tasks that passed the filter: its result, the
    artefacts handed to the uploader, and the files as the uploader finds them. *)
Record Executed : Type := mkExecuted {
  ex_result : result ExecutionSummary AssetExecutionError;
  ex_artefacts : list BundleArtefacts;
  ex_disk : files;
}.

(** What the outside answers during one attempt. *)
Record AttemptEnv : Type := mkAttemptEnv {
  ae_fetch : result AssetBundleInfo AssetExecutionError;           (* fetch_live_asset_bundle_info *)
  ae_load_fault : option io_error;
  ae_connect : result unit HipError;                               (* the CHECK session *)
  ae_new : result unit AssetExecutionError;                        (* AssetExecutionContext::new *)
  ae_planned : result (list DownloadTask) AssetExecutionError;     (* the executor up to the filter *)
  ae_check : nat -> list CheckBatchItem -> result (list CheckAckItem) HipError;
  ae_execute : list DownloadTask -> Executed;
  ae_seen : option CheckCounters;  (* read by an uploader that was cancelled before the filter ended *)
  ae_order : list HipUploadFileJob -> list HipUploadFileJob;
  ae_uploader : UploaderEnv;
  ae_save : SaveFaults;
  ae_cwd : result path io_error;
  ae_rm : option (io_error * (path -> bool));
  ae_set : WriteFaults;
  ae_now : Z;
}.

Section Poller.
Context `{HipGateway, SnapshotCodec, WatermarkCodec, Resolver}.
(** [Display] of the error types. *)
Context (show : HipError -> string) (show_ax : AssetExecutionError -> string) (show_region : RegionError -> string).
Context (config : AppConfig) (region_name : string).

(** The snapshot file of the region. *)
Definition region_snapshot_file : string := snapshot_path (last_info_dir (poller config)) region_name.

(** [config.regions.get(region_name).is_some_and(.. remove_local_after_upload)]. *)
Definition removes_local : bool :=
  match regions config !! region_name with
  | Some rc => remove_local_after_upload (upload rc)
  | None => false
  end.

(** [persist_processed_snapshot]: a failure to save is only logged. *)
Definition persist_processed_snapshot (faults : SaveFaults) (snap : files) (new_info : AssetBundleInfo)
    (old_info : option AssetBundleInfo) (processed : gset string) : files :=
  (save_snapshot faults snap region_snapshot_file (build_next_snapshot new_info old_info processed)).2.

(** The executor with the filter, from [ae_planned] on. *)
Definition execute_filtered (env : AttemptEnv) (changed_names : gset string)
    : Executed * CheckCounters :=
  match ae_planned env with
  | Err e => (mkExecuted (Err e) [] ∅, mkCounters 0 0 ∅)
  | Ok tasks =>
      let hip_filter := if hip_enabled (hip config)
                        then Some (Z.to_nat (Z.max (check_batch_size (hip config)) 1)) else None in
      let '(filtered, layer1, sh) :=
        combined_filter (ae_check env) show region_name hip_filter changed_names tasks (mkShared 0 ∅) in
      let counters := mkCounters layer1 (skipped_counter sh) (skipped_bundles sh) in
      match filtered with
      | Err e => (mkExecuted (Err e) [] ∅, counters)
      | Ok kept => (ae_execute env kept, counters)
      end
  end.

(** The uploader task next to the executor: its outcome, the processed bundles, the
    snapshot directory and what happened at the gateway. *)
Definition upload_phase (env : AttemptEnv) (snap : files) (new_info : AssetBundleInfo)
    (ex : Executed) (counters : CheckCounters) : result unit PollError * gset string * files * list gw_event :=
  if hip_enabled (hip config) then
    let '(r, s) := run_uploader show (ae_order env) (ae_uploader env) removes_local (hip config)
                     region_snapshot_file new_info (default counters (ae_seen env))
                     (ex_artefacts ex) (uploader_init (ex_disk ex) snap) in
    let '(uploader_result, processed) := handle_uploader_result (Some r) ∅ in
    (uploader_result, processed, u_snap s, u_trace s)
  else (Ok tt, ∅, snap, []).

(** [execute_once_attempt]. *)
Definition execute_once_attempt (current : CurrentVersionInfo) (env : AttemptEnv) (w : World)
    : result RunOutcome PollError * World :=
  let fail e w := (Err (PollExecution (show_ax e)), w) in
  match ae_fetch env with
  | Err e => fail e w
  | Ok new_info =>
  match load_snapshot (ae_load_fault env) (w_snap w) region_snapshot_file with
  | Err e => fail e w
  | Ok old_info =>
  match (if hip_enabled (hip config) then ae_connect env else Ok tt) with
  | Err e => (Err (PollHip (show e)), w)
  | Ok _ =>
  match ae_new env with
  | Err e => fail e w
  | Ok _ =>
      let changed_names := list_to_set (map changed_name (diff_changed (diff old_info new_info))) in
      let '(ex, counters) := execute_filtered env changed_names in
      let '(uploader_result, processed, snap1, _) := upload_phase env (w_snap w) new_info ex counters in
      let processed := if is_ok uploader_result then processed ∪ dom (check_skipped_bundles counters)
                       else processed in
      let snap2 := persist_processed_snapshot (ae_save env) snap1 new_info old_info processed in
      let w2 := mkWorld (w_store w) (w_wm w) snap2 (w_tree w) in
      match ex_result ex with
      | Err e => fail e w2
      | Ok summary =>
      match uploader_result with
      | Err e => (Err e, w2)
      | Ok _ =>
      match remove_region_work_dir_after_success (ae_cwd env) (ae_rm env) config region_name (w_tree w) with
      | (Err e, t) => (Err e, mkWorld (w_store w) (w_wm w) snap2 t)
      | (Ok _, t) =>
          let wm := mkWatermark (asset_version_or_default current) (asset_hash_or_default current)
                      (app_version_or_default current) (Z.of_nat (discovered_bundles summary)) (ae_now env) in
          match set (ae_set env) (w_wm w) (w_store w) region_name wm with
          | (Err e, store, wmf) => (Err (PollExecution (show_ax e)), mkWorld store wmf snap2 t)
          | (Ok _, store, wmf) => (Ok PollCompleted, mkWorld store wmf snap2 t)
          end
      end
      end
      end
  end
  end
  end
  end.

(** ** Retries *)

(** What a region's retry loop sees of the cancellation token: when it checks after
    the [n]-th attempt, and during the sleep that follows. *)
Record CancelTimes : Type := mkCancelTimes {
  cancelled_at_check : Z -> bool;
  cancelled_in_sleep : Z -> bool;
}.

Definition is_config_error (e : PollError) : bool :=
  match e with PollConfig _ => true | _ => false end.

(** The loop of [retry_region_in_place] from [attempt] on; the list is of the seconds
    slept. [None] when [fuel] runs out. *)
Fixpoint retry_attempts (fuel : nat) (current : CurrentVersionInfo) (envs : Z -> AttemptEnv)
    (ct : CancelTimes) (attempt : Z) (w : World) : option (result RunOutcome PollError * World * list Z) :=
  match fuel with
  | O => None
  | S fuel' =>
      match execute_once_attempt current (envs attempt) w with
      | (Ok outcome, w') => Some (Ok outcome, w', [])
      | (Err err, w') =>
          if (attempt <? FAILED_REGION_RETRY_ATTEMPTS) && negb (is_config_error err)
             && negb (cancelled_at_check ct attempt)
          then
            let backoff := saturating_mul 64 FAILED_REGION_RETRY_BACKOFF_SECONDS attempt in
            if cancelled_in_sleep ct attempt then Some (Err err, w', [])
            else match retry_attempts fuel' current envs ct (attempt + 1) w' with
                 | Some (r, w'', slept) => Some (r, w'', backoff :: slept)
                 | None => None
                 end
          else Some (Err err, w', [])
      end
  end.

(** [retry_region_in_place]. *)
Definition retry_region_in_place (current : CurrentVersionInfo) (envs : Z -> AttemptEnv)
    (ct : CancelTimes) (w : World) : option (result RunOutcome PollError * World * list Z) :=
  retry_attempts (Z.to_nat FAILED_REGION_RETRY_ATTEMPTS) current envs ct 1 w.

(** ** One poll *)

(** How the wait for a region permit ends. *)
Inductive PermitWait : Type := Acquired | CancelledWaiting | SemaphoreClosed (message : string).

Record PollEnv : Type := mkPollEnv {
  pe_client : result unit PollError;                               (* build_reusable_client *)
  pe_current : result CurrentVersionInfo AssetExecutionError;      (* fetch_current_version_info *)
  pe_cwd : result path io_error;
  pe_rm : option (io_error * (path -> bool));
  pe_permit : PermitWait;
  pe_attempts : Z -> AttemptEnv;
  pe_cancel : CancelTimes;
}.

(** The layer-0 test. *)
Definition watermark_matches (watermark : option RegionWatermark) (current : CurrentVersionInfo) : bool :=
  match watermark with
  | Some wm => negb (is_empty (wm_asset_version wm))
               && String.eqb (wm_asset_version wm) (asset_version_or_default current)
               && String.eqb (wm_asset_hash wm) (asset_hash_or_default current)
  | None => false
  end.

(** [execute_once]. *)
Definition execute_once (env : PollEnv) (w : World) : option (result RunOutcome PollError * World * list Z) :=
  match select_region config region_name with
  | Err e => Some (Err (PollConfig (show_region e)), w, [])
  | Ok _ =>
  match pe_client env with
  | Err e => Some (Err e, w, [])
  | Ok _ =>
  match pe_current env with
  | Err e => Some (Err (PollExecution (show_ax e)), w, [])
  | Ok current =>
      if watermark_matches (get (w_store w) region_name) current then
        match remove_region_work_dir_after_success (pe_cwd env) (pe_rm env) config region_name (w_tree w) with
        | (Err e, t) => Some (Err e, mkWorld (w_store w) (w_wm w) (w_snap w) t, [])
        | (Ok _, t) => Some (Ok SkippedByWatermark, mkWorld (w_store w) (w_wm w) (w_snap w) t, [])
        end
      else match pe_permit env with
      | CancelledWaiting => Some (Ok SkippedByWatermark, w, [])
      | SemaphoreClosed m => Some (Err (PollExecution ("region semaphore closed: " +:+ m)), w, [])
      | Acquired => retry_region_in_place current (pe_attempts env) (pe_cancel env) w
      end
  end
  end
  end.
End Poller.

(** ** Runtime state *)

(** [struct RegionRuntimeState]. *)
Record RegionRuntimeState : Type := mkRuntime {
  last_tick_at : option Z;
  last_success_at : option Z;
  last_error : option string;
  in_flight : bool;
}.
Definition RegionRuntimeState_default : RegionRuntimeState := mkRuntime None None None false.

(** [struct PollerState]. *)
Abbreviation PollerState := (gmap string RegionRuntimeState).

(** [mark_state]. *)
Definition mark_state (region : string) (f : RegionRuntimeState -> RegionRuntimeState) (s : PollerState) : PollerState :=
  <[region := f (default RegionRuntimeState_default (s !! region))]> s.

(** The three updates of [run_region_once]. *)
Definition mark_start (now : Z) (r : RegionRuntimeState) : RegionRuntimeState :=
  mkRuntime (Some now) (last_success_at r) None true.
Definition mark_success (now : Z) (r : RegionRuntimeState) : RegionRuntimeState :=
  mkRuntime (last_tick_at r) (Some now) (last_error r) false.
Definition mark_failure (message : string) (r : RegionRuntimeState) : RegionRuntimeState :=
  mkRuntime (last_tick_at r) (last_success_at r) (Some message) false.

(** What [run_region_once] records when the poll is over. *)
Definition mark_outcome (show_poll : PollError -> string) (now : Z) (outcome : result RunOutcome PollError)
    : RegionRuntimeState -> RegionRuntimeState :=
  match outcome with
  | Ok _ => mark_success now
  | Err e => mark_failure (show_poll e)
  end.

(** [struct RegionSnapshot] and [PollerHandle::region_snapshots]. *)
Record RegionSnapshot : Type := mkRegionSnapshot {
  rs_region : string;
  rs_runtime : RegionRuntimeState;
  rs_watermark : option RegionWatermark;
}.
Definition region_snapshots (s : PollerState) (watermarks : WatermarkStore) : list RegionSnapshot :=
  map (fun '(region, runtime) => mkRegionSnapshot region runtime (snapshot watermarks !! region))
    (btree_entries s).

(** [Poller::run]: every enabled region is listed before the first tick. *)
Definition seed_state (config : AppConfig) (s : PollerState) : PollerState :=
  foldl (fun s region => mark_state region (fun r => r) s) s (enabled_regions config).

(** ** Facts about attempts *)
Section AttemptFacts.
Context `{HipGateway, SnapshotCodec, WatermarkCodec, Resolver}.
Context (show : HipError -> string) (show_ax : AssetExecutionError -> string) (show_region : RegionError -> string).
Context (config : AppConfig) (region_name : string).

Abbreviation attempt := (execute_once_attempt show show_ax config region_name).
Abbreviation snap_file := (region_snapshot_file config region_name).

(** The watermark a completed attempt writes. *)
Definition watermark_of (current : CurrentVersionInfo) (summary : ExecutionSummary) (now : Z) : RegionWatermark :=
  mkWatermark (asset_version_or_default current) (asset_hash_or_default current)
    (app_version_or_default current) (Z.of_nat (discovered_bundles summary)) now.

(** The setup of an attempt: the index, the previous snapshot, the executor's outcome
    and the uploader's. *)
Record attempt_setup (env : AttemptEnv) (w : World) (new_info : AssetBundleInfo)
    (old_info : option AssetBundleInfo) (ex : Executed) (counters : CheckCounters)
    (up : result unit PollError) (processed : gset string) (snap1 : files) (t : list gw_event) : Prop := {
  as_fetch : ae_fetch env = Ok new_info;
  as_load : load_snapshot (ae_load_fault env) (w_snap w) snap_file = Ok old_info;
  as_exec : execute_filtered show config region_name env
              (list_to_set (map changed_name (diff_changed (diff old_info new_info)))) = (ex, counters);
  as_upload : upload_phase show config region_name env (w_snap w) new_info ex counters = (up, processed, snap1, t);
}.

(** An attempt has one setup. *)
Lemma attempt_setup_det env w n o ex c up p s t n' o' ex' c' up' p' s' t' :
  attempt_setup env w n o ex c up p s t -> attempt_setup env w n' o' ex' c' up' p' s' t' ->
  n' = n /\ o' = o /\ ex' = ex /\ c' = c /\ up' = up /\ p' = p /\ s' = s.
Proof.
  intros [F1 L1 E1 U1] [F2 L2 E2 U2].
  rewrite F1 in F2. injection F2 as <-. rewrite L1 in L2. injection L2 as <-.
  rewrite E1 in E2. injection E2 as <- <-. rewrite U1 in U2. by injection U2 as <- <- <- <-.
Qed.

(** The bundles an attempt counts as processed. *)
Definition counted (up : result unit PollError) (processed : gset string) (counters : CheckCounters) : gset string :=
  if is_ok up then processed ∪ dom (check_skipped_bundles counters) else processed.

(** How an attempt ends: before it wrote anything; after it wrote the snapshot; or in
    the write of the watermark. *)
Inductive attempt_end (current : CurrentVersionInfo) (env : AttemptEnv) (w : World)
    : result RunOutcome PollError -> World -> Prop :=
| end_early e : attempt_end current env w (Err e) w
| end_failed e w' new_info old_info ex counters up processed snap1 t :
    attempt_setup env w new_info old_info ex counters up processed snap1 t ->
    w_store w' = w_store w -> w_wm w' = w_wm w ->
    w_snap w' = persist_processed_snapshot config region_name (ae_save env) snap1 new_info old_info
                  (counted up processed counters) ->
    attempt_end current env w (Err e) w'
| end_watermark r w' new_info old_info ex counters processed snap1 t summary r0 :
    attempt_setup env w new_info old_info ex counters (Ok tt) processed snap1 t ->
    ex_result ex = Ok summary ->
    set (ae_set env) (w_wm w) (w_store w) region_name (watermark_of current summary (ae_now env))
      = (r0, w_store w', w_wm w') ->
    w_snap w' = persist_processed_snapshot config region_name (ae_save env) snap1 new_info old_info
                  (counted (Ok tt) processed counters) ->
    r = match r0 with Ok _ => Ok PollCompleted | Err e => Err (PollExecution (show_ax e)) end ->
    attempt_end current env w r w'.

Lemma attempt_shape current env w r w' : attempt current env w = (r, w') -> attempt_end current env w r w'.
Proof.
  unfold execute_once_attempt.
  destruct (ae_fetch env) as [new_info|e] eqn:Ef; [|intros [= <- <-]; constructor].
  destruct (load_snapshot _ _ _) as [old_info|e] eqn:El; [|intros [= <- <-]; constructor].
  destruct (if hip_enabled (hip config) then _ else _) as [u|e]; [|intros [= <- <-]; constructor].
  destruct (ae_new env) as [u'|e]; [|intros [= <- <-]; constructor].
  destruct (execute_filtered _ _ _ _ _) as [ex counters] eqn:Ee.
  destruct (upload_phase _ _ _ _ _ _ _ _) as [[[up processed] snap1] t] eqn:Eu.
  assert (Hs : attempt_setup env w new_info old_info ex counters up processed snap1 t) by (by constructor).
  destruct (ex_result ex) as [summary|e] eqn:Ex.
  2: { intros [= <- <-]. by eapply end_failed. }
  destruct up as [[]|e].
  2: { intros [= <- <-]. by eapply end_failed. }
  destruct (remove_region_work_dir_after_success _ _ _ _ _) as [[[]|e] t'].
  2: { intros [= <- <-]. by eapply end_failed. }
  fold (watermark_of current summary (ae_now env)).
  destruct (set _ _ _ _ _) as [[[u0|e] store] wmf] eqn:Es; intros [= <- <-]; by eapply end_watermark.
Qed.

(** C5: the watermark file moves only when the poll is complete.  Whatever an attempt
    does, the file on disk is as it was unless the attempt completed: the executor
    and the uploader both succeeded, and the file read back is the map with exactly
    this region's entry replaced by the version just processed. *)
Theorem watermark_moves_on_completion current env w r w' :
  watermark_tmp (store_path (w_store w)) <> store_path (w_store w) ->
  attempt current env w = (r, w') ->
  match r with
  | Err _ => fs_read (w_wm w') (store_path (w_store w)) = fs_read (w_wm w) (store_path (w_store w))
  | Ok outcome =>
      outcome = PollCompleted /\
      exists new_info old_info ex counters processed snap1 t summary,
        attempt_setup env w new_info old_info ex counters (Ok tt) processed snap1 t /\
        ex_result ex = Ok summary /\
        open None (fs_read (w_wm w') (store_path (w_store w))) (store_path (w_store w)) = Ok (w_store w') /\
        forall q, get (w_store w') q =
          if decide (q = region_name) then Some (watermark_of current summary (ae_now env)) else get (w_store w) q
  end.
Proof.
  intros Hne Ha%attempt_shape.
  destruct Ha as [e|e w' n o ex c up p s1 t _ _ Hw _|r w' n o ex c p s1 t summary r0 Hs Hx Hset _ ->].
  - done.
  - by rewrite Hw.
  - pose proof (set_persists _ _ _ _ _ _ _ _ Hne Hset) as [Hg Hr]. destruct r0 as [u|e]; [|done].
    split; [done|]. by exists n, o, ex, c, p, s1, t, summary.
Qed.

(** A completed version is not polled again, whatever happened to its bundles.  After
    an attempt completed, the next poll that sees the same version ends at layer 0:
    it makes no attempt, and the store, its file and the snapshot stay as they are.
    Nothing is assumed of the executor's summary: it may count failed downloads. *)
Theorem completed_then_skipped current env w w' penv :
  watermark_tmp (store_path (w_store w)) <> store_path (w_store w) ->
  attempt current env w = (Ok PollCompleted, w') ->
  is_ok (select_region config region_name) = true ->
  pe_client penv = Ok tt -> pe_current penv = Ok current -> asset_version_or_default current <> "" ->
  exists r t, execute_once show show_ax show_region config region_name penv w'
              = Some (r, mkWorld (w_store w') (w_wm w') (w_snap w') t, []) /\ r <> Ok PollCompleted.
Proof.
  intros Hne Ha%attempt_shape Hsel Hcl Hcur Hv.
  assert (Hg : exists summary, get (w_store w') region_name = Some (watermark_of current summary (ae_now env))).
  { inversion Ha as [| |r ? n o ex c p s1 t summary r0 Hs Hx Hset _ Hr]; subst. exists summary.
    pose proof (set_persists _ _ _ _ _ _ _ _ Hne Hset) as [Hg _]. rewrite Hg. by rewrite decide_True. }
  destruct Hg as [summary Hg]. unfold execute_once.
  destruct (select_region config region_name) as [rc|]; [|done]. rewrite Hcl, Hcur, Hg.
  assert (watermark_matches (Some (watermark_of current summary (ae_now env))) current = true) as ->.
  { unfold watermark_matches, watermark_of. simpl. rewrite !String.eqb_refl.
    by destruct (asset_version_or_default current). }
  destruct (remove_region_work_dir_after_success _ _ _ _ _) as [[u|e] t]; by eexists _, t.
Qed.

(** What an attempt saved is what the next diff is made against. *)
Lemma persisted_needs_work faults snap new_info old_info processed info name d :
  load_snapshot None (persist_processed_snapshot config region_name faults snap new_info old_info processed) snap_file
    = Ok (Some info) ->
  is_ok (save_snapshot faults snap snap_file (build_next_snapshot new_info old_info processed)).1 = true ->
  bundles new_info !! name = Some d ->
  (needs_work (Some info) name d <-> needs_work old_info name d /\ name ∉ processed).
Proof.
  unfold persist_processed_snapshot. intros Hl Hs Hd.
  pose proof (save_snapshot_loads faults snap snap_file (build_next_snapshot new_info old_info processed)) as Hsv.
  destruct (save_snapshot _ _ _ _) as [[u|e] fs]; [|done]. simpl in Hl. rewrite Hsv in Hl.
  injection Hl as <-. by apply next_snapshot_needs_work.
Qed.

(** The save at the end of an attempt went through. *)
Definition saved (env : AttemptEnv) (snap1 : files) (new_info : AssetBundleInfo)
    (old_info : option AssetBundleInfo) (processed : gset string) : Prop :=
  is_ok (save_snapshot (ae_save env) snap1 snap_file (build_next_snapshot new_info old_info processed)).1 = true.


(** When the uploader fails, the snapshot forgets the batches that were committed: the
    one saved at the end of the attempt is computed from the snapshot the attempt
    started from, and every bundle that needed work then needs work again. *)
Theorem failed_upload_forgets_batches current env w r w' new_info old_info ex counters e processed snap1 t info name d :
  attempt_setup env w new_info old_info ex counters (Err e) processed snap1 t ->
  attempt current env w = (r, w') -> w' <> w ->
  saved env snap1 new_info old_info ∅ ->
  load_snapshot None (w_snap w') snap_file = Ok (Some info) -> bundles new_info !! name = Some d ->
  (needs_work (Some info) name d <-> needs_work old_info name d).
Proof.
  intros Hs Ha%attempt_shape Hw Hsv Hl Hd.
  assert (Hp : processed = ∅).
  { destruct Hs as [_ _ _ Hu]. unfold upload_phase in Hu. destruct (hip_enabled (hip config)); [|by simplify_eq].
    destruct (run_uploader _ _ _ _ _ _ _ _ _ _) as [[pr|e'] s]; simpl in Hu; by simplify_eq. }
  destruct Ha as [|e' w' n o ex' c up p s1 t' Hs' _ _ Hsn|r w' n o ex' c p s1 t' summary r0 Hs' _ _ _ _]; [done| |].
  - destruct (attempt_setup_det _ _ _ _ _ _ _ _ _ _ _ _ _ _ _ _ _ _ Hs Hs') as (-> & -> & -> & -> & -> & -> & ->).
    subst processed. rewrite Hsn in Hl. rewrite (persisted_needs_work _ _ _ _ _ _ _ _ Hl Hsv Hd). set_solver.
  - by destruct (attempt_setup_det _ _ _ _ _ _ _ _ _ _ _ _ _ _ _ _ _ _ Hs Hs') as (_ & _ & _ & _ & ? & _).
Qed.

(** ** Facts about retries *)

(** The world before the [n]-th retry. *)
Inductive attempts_run (current : CurrentVersionInfo) (envs : Z -> AttemptEnv) (ct : CancelTimes)
    : Z -> World -> nat -> result RunOutcome PollError -> World -> Prop :=
| attempts_last a w r w' :
    attempt current (envs a) w = (r, w') ->
    match r with
    | Ok _ => True
    | Err e => FAILED_REGION_RETRY_ATTEMPTS <= a \/ is_config_error e = true \/
               cancelled_at_check ct a = true \/ cancelled_in_sleep ct a = true
    end ->
    attempts_run current envs ct a w 0 r w'
| attempts_more a w e w1 k r w' :
    attempt current (envs a) w = (Err e, w1) ->
    a < FAILED_REGION_RETRY_ATTEMPTS -> is_config_error e = false -> cancelled_at_check ct a = false ->
    attempts_run current envs ct (a + 1) w1 k r w' ->
    attempts_run current envs ct a w (S k) r w'.

Lemma retry_attempts_run current envs ct fuel a w :
  1 <= a <= FAILED_REGION_RETRY_ATTEMPTS -> Z.of_nat fuel = FAILED_REGION_RETRY_ATTEMPTS + 1 - a ->
  exists r w' slept, retry_attempts show show_ax config region_name fuel current envs ct a w = Some (r, w', slept) /\
    attempts_run current envs ct a w (length slept) r w' /\
    slept = map (fun i => 5 * (a + Z.of_nat i)) (seq 0 (length slept)) /\
    Z.of_nat (length slept) + a <= FAILED_REGION_RETRY_ATTEMPTS.
Proof.
  unfold FAILED_REGION_RETRY_ATTEMPTS.
  revert a w. induction fuel as [|fuel IH]; intros a w Ha Hf; [lia|]. simpl.
  destruct (attempt current (envs a) w) as [[o|e] w1] eqn:E1.
  { exists (Ok o), w1, []. repeat split; [by eapply attempts_last | simpl; lia]. }
  assert (Hlast : attempts_run current envs ct a w 0 (Err e) w1 ->
    exists r w' slept, Some (Err e, w1, []) = Some (r, w', slept) /\
      attempts_run current envs ct a w (length slept) r w' /\
      slept = map (fun i => 5 * (a + Z.of_nat i)) (seq 0 (length slept)) /\ Z.of_nat (length slept) + a <= 10)
    by (intros Hr; exists (Err e), w1, []; repeat split; [done | simpl; lia]).
  unfold FAILED_REGION_RETRY_ATTEMPTS in *.
  destruct (Z.ltb_spec a 10); simpl.
  2: { apply Hlast. eapply attempts_last; [done|]. left. unfold FAILED_REGION_RETRY_ATTEMPTS. lia. }
  destruct (is_config_error e) eqn:Ec; simpl; [apply Hlast; eapply attempts_last; [done|]; auto|].
  destruct (cancelled_at_check ct a) eqn:Ek; simpl; [apply Hlast; eapply attempts_last; [done|]; auto|].
  destruct (cancelled_in_sleep ct a) eqn:Es; [apply Hlast; eapply attempts_last; [done|]; auto|].
  destruct (IH (a + 1) w1) as (r & w' & slept & -> & Hrun & Hsl & Hlen); [lia..|].
  assert (Hb : saturating_mul 64 FAILED_REGION_RETRY_BACKOFF_SECONDS a = 5 * a).
  { unfold saturating_mul, FAILED_REGION_RETRY_BACKOFF_SECONDS, u_max. lia. }
  rewrite Hb. exists r, w', (5 * a :: slept). split; [done|]. split; [by eapply attempts_more|].
  split; [|simpl; lia]. simpl. rewrite <- seq_shift, map_map. f_equal; [lia|].
  rewrite Hsl at 1. apply map_ext. intros i. lia.
Qed.

(** The retry loop of a region always ends.  It makes at most ten attempts, each on the
    world the previous one left; it stops at the first success, at a configuration
    error, at a cancellation or after the tenth attempt, returning what that attempt
    returned; and it sleeps 5, 10, 15, ... seconds in between, 225 in all at most. *)
Theorem region_retries_bounded current envs ct w :
  exists r w' slept, retry_region_in_place show show_ax config region_name current envs ct w = Some (r, w', slept) /\
    attempts_run current envs ct 1 w (length slept) r w' /\
    slept = map (fun i => 5 * (1 + Z.of_nat i)) (seq 0 (length slept)) /\
    (length slept < 10)%nat /\ sumZ slept <= 225.
Proof.
  destruct (retry_attempts_run current envs ct 10 1 w) as (r & w' & slept & E & Hrun & Hsl & Hlen);
    [unfold FAILED_REGION_RETRY_ATTEMPTS; lia..|].
  unfold FAILED_REGION_RETRY_ATTEMPTS in Hlen.
  exists r, w', slept. repeat split; try done; [lia|].
  rewrite Hsl. destruct (length slept) as [|[|[|[|[|[|[|[|[|[|n]]]]]]]]]]; simpl; lia.
Qed.
End AttemptFacts.

(** ** All regions together

    [Poller::run] starts one [run_region_loop] per enabled region; they share the
    runtime state and the semaphore of region permits. *)

Inductive region_phase : Type :=
| PhIdle            (* in the [select!] of the loop *)
| PhChecking        (* layer 0: before a permit is needed *)
| PhWaiting         (* for a permit *)
| PhExecuting       (* in [retry_region_in_place], with a permit *)
| PhStopped.        (* the loop returned *)

#[export] Instance region_phase_eq_dec : EqDecision region_phase.
Proof. solve_decision. Defined.

(** What wakes an idle loop: its ticker, or a message of the trigger channel. *)
Inductive wakeup : Type := Ticked | Triggered (region : string) | Lagged | ChannelClosed.

(** A poll starts on a tick and on a trigger that names the region. *)
Definition starts_poll (region : string) (e : wakeup) : bool :=
  match e with
  | Ticked => true
  | Triggered r => String.eqb r region
  | Lagged | ChannelClosed => false
  end.

Record system : Type := mkSystem {
  sys_phases : gmap string region_phase;
  sys_permits : nat;
  sys_runtime : PollerState;
  sys_cancelled : bool;
}.

Section System.
Context (show_poll : PollError -> string) (config : AppConfig).

(** [max_concurrent_regions.max(1)] permits; every enabled region is idle. *)
Definition region_permits : nat := Z.to_nat (Z.max (max_concurrent_regions (poller config)) 1).
Definition system_init : system :=
  mkSystem (list_to_map (map (fun r => (r, PhIdle)) (enabled_regions config))) region_permits
    (seed_state config ∅) false.

(** A region moves to a phase, and its runtime entry is updated. *)
Definition move (s : system) (region : string) (p : region_phase) (permits : nat)
    (f : RegionRuntimeState -> RegionRuntimeState) : system :=
  mkSystem (<[region := p]> (sys_phases s)) permits (mark_state region f (sys_runtime s)) (sys_cancelled s).

Inductive system_step : system -> system -> Prop :=
| st_start s region e now :
    sys_phases s !! region = Some PhIdle -> starts_poll region e = true ->
    system_step s (move s region PhChecking (sys_permits s) (mark_start now))
| st_layer0 s region now outcome :
    sys_phases s !! region = Some PhChecking -> outcome <> Ok PollCompleted ->
    system_step s (move s region PhIdle (sys_permits s) (mark_outcome show_poll now outcome))
| st_wait s region :
    sys_phases s !! region = Some PhChecking ->
    system_step s (move s region PhWaiting (sys_permits s) (fun r => r))
| st_acquire s region n :
    sys_phases s !! region = Some PhWaiting -> sys_permits s = S n ->
    system_step s (move s region PhExecuting n (fun r => r))
| st_abandon s region now :
    sys_phases s !! region = Some PhWaiting -> sys_cancelled s = true ->
    system_step s (move s region PhIdle (sys_permits s) (mark_outcome show_poll now (Ok SkippedByWatermark)))
| st_finish s region now outcome :
    sys_phases s !! region = Some PhExecuting ->
    system_step s (move s region PhIdle (S (sys_permits s)) (mark_outcome show_poll now outcome))
| st_cancel s :
    system_step s (mkSystem (sys_phases s) (sys_permits s) (sys_runtime s) true)
| st_stop s region e :
    sys_phases s !! region = Some PhIdle -> sys_cancelled s = true \/ e = ChannelClosed ->
    system_step s (move s region PhStopped (sys_permits s) (fun r => r)).

(** The regions whose poll is under way. *)
Definition polling (p : region_phase) : bool :=
  match p with PhChecking | PhWaiting | PhExecuting => true | _ => false end.
Definition executing (s : system) : nat := size (filter (fun e => e.2 = PhExecuting) (sys_phases s)).

Record system_inv (s : system) : Prop := {
  si_permits : (sys_permits s + executing s = region_permits)%nat;
  si_phases : dom (sys_phases s) = list_to_set (enabled_regions config);
  si_runtime : forall region, is_Some (sys_runtime s !! region) <-> is_Some (sys_phases s !! region);
  si_in_flight : forall region p runtime,
    sys_phases s !! region = Some p -> sys_runtime s !! region = Some runtime ->
    in_flight runtime = polling p;
}.

(** Moving one region changes the count by what it was and what it becomes. *)
Lemma executing_move s region p p' permits f :
  sys_phases s !! region = Some p ->
  (executing (move s region p' permits f) + (if decide (p = PhExecuting) then 1 else 0)
   = executing s + (if decide (p' = PhExecuting) then 1 else 0))%nat.
Proof.
  intros Hp. unfold executing, move. cbn [sys_phases].
  rewrite <- (insert_delete_id (sys_phases s) region p Hp) at 2.
  rewrite <- (insert_delete_eq (sys_phases s) region p').
  assert (Hd : delete region (sys_phases s) !! region = None) by apply lookup_delete_eq.
  set (m := delete region (sys_phases s)) in *.
  assert (Hf : filter (fun e => e.2 = PhExecuting) m !! region = None)
    by (by apply map_lookup_filter_None_2; left).
  assert (Hs : forall p, size (filter (fun e => e.2 = PhExecuting) (<[region := p]> m))
    = (size (filter (fun e => e.2 = PhExecuting) m) + (if decide (p = PhExecuting) then 1 else 0))%nat).
  { intros p0. case_decide as E.
    - rewrite map_filter_insert_True by done. rewrite map_size_insert_None by done. lia.
    - rewrite map_filter_insert_False by done. rewrite delete_id by done. lia. }
  rewrite !Hs. lia.
Qed.

(** A move that keeps the account of permits and the [in_flight] flag. *)
Lemma move_inv s region p p' permits f :
  system_inv s -> sys_phases s !! region = Some p ->
  (permits + (if decide (p' = PhExecuting) then 1 else 0)
   = sys_permits s + (if decide (p = PhExecuting) then 1 else 0))%nat ->
  (forall r, in_flight r = polling p -> in_flight (f r) = polling p') ->
  system_inv (move s region p' permits f).
Proof.
  intros [I1 I2 I3 I4] Hp Hn Hf. pose proof (executing_move s region p p' permits f Hp) as Hx.
  unfold move in *. constructor; cbn [sys_permits sys_phases sys_runtime] in *.
  - lia.
  - rewrite dom_insert_L, <- I2. apply elem_of_dom_2 in Hp. set_solver.
  - intros q. unfold mark_state. destruct (decide (q = region)) as [->|Hne].
    + by rewrite !lookup_insert_eq.
    + rewrite !lookup_insert_ne by done. apply I3.
  - intros q pq rt. unfold mark_state. destruct (decide (q = region)) as [->|Hne].
    + rewrite !lookup_insert_eq. intros [= <-] [= <-]. apply Hf.
      destruct (sys_runtime s !! region) as [rt|] eqn:E; simpl; [by eapply I4|].
      assert (is_Some (sys_runtime s !! region)) as [? ?] by (apply I3; by eexists). congruence.
    + rewrite !lookup_insert_ne by done. apply I4.
Qed.

Lemma system_inv_step s s' : system_inv s -> system_step s s' -> system_inv s'.
Proof.
  intros Hi Hs. destruct Hs as [s region e now Hp _|s region now o Hp _|s region Hp|s region n Hp Hn
    |s region now Hp _|s region now o Hp|s|s region e Hp _].
  1-6,8: eapply move_inv; try done; simpl; try lia; try (intros; by destruct o); done.
  destruct Hi. by constructor.
Qed.

Lemma seed_state_lookup regions (s : PollerState) q :
  foldl (fun s region => mark_state region (fun r => r) s) s regions !! q =
  if decide (q ∈ regions) then Some (default RegionRuntimeState_default (s !! q)) else s !! q.
Proof.
  revert s. induction regions as [|r regions IH]; intros s; cbn [foldl].
  - case_decide as E; [by apply elem_of_nil in E | done].
  - rewrite IH. unfold mark_state. destruct (decide (q = r)) as [->|Hne].
    + rewrite lookup_insert_eq. rewrite (decide_True (P := r ∈ r :: regions)) by constructor. by case_decide.
    + rewrite lookup_insert_ne by done. case_decide as E1; case_decide as E2; try done; set_solver.
Qed.

Lemma system_inv_init : system_inv system_init.
Proof.
  unfold system_init.
  assert (Hph : forall q, (list_to_map (map (fun r => (r, PhIdle)) (enabled_regions config)) : gmap string region_phase) !! q
    = if decide (q ∈ enabled_regions config) then Some PhIdle else None).
  { intros q. induction (enabled_regions config) as [|r rs IH]; cbn [map].
    { case_decide as E; [by apply elem_of_nil in E | apply lookup_empty]. }
    rewrite list_to_map_cons. destruct (decide (q = r)) as [->|Hne].
    - rewrite lookup_insert_eq, decide_True; [done | constructor].
    - rewrite lookup_insert_ne, IH by done. case_decide; case_decide; set_solver. }
  constructor; cbn [sys_permits sys_phases sys_runtime].
  - unfold executing. cbn [sys_phases].
    assert (Hf : filter (fun e => e.2 = PhExecuting)
      (list_to_map (map (fun r => (r, PhIdle)) (enabled_regions config)) : gmap string region_phase) = ∅).
    { apply map_empty. intros q. apply map_lookup_filter_None_2. right. intros p Hq.
      rewrite Hph in Hq. case_decide; by simplify_eq. }
    rewrite Hf, map_size_empty. lia.
  - apply set_eq. intros q. rewrite elem_of_dom, Hph, elem_of_list_to_set. case_decide; split; intros; try done.
  - intros q. unfold seed_state. rewrite seed_state_lookup, Hph, lookup_empty. by case_decide.
  - intros q p rt. unfold seed_state. rewrite seed_state_lookup, Hph, lookup_empty. case_decide; [|done].
    by intros [= <-] [= <-].
Qed.

Lemma system_inv_reach s : rtc system_step system_init s -> system_inv s.
Proof.
  intros Hr. remember system_init as s0. assert (Hi : system_inv s0) by (subst; apply system_inv_init).
  clear Heqs0. induction Hr as [|s1 s2 s3 Hs _ IH]; [done|]. by eapply IH, system_inv_step.
Qed.

(** C26: the poller's global invariant.  In every reachable state at most
    [max(max_concurrent_regions, 1)] regions execute, and a region that waits while
    none executes can go on; the health map lists exactly the enabled regions, and
    [in_flight] is true of exactly those whose poll is under way. *)
Theorem poller_invariant s :
  rtc system_step system_init s ->
  Z.of_nat (executing s) <= Z.max (max_concurrent_regions (poller config)) 1 /\
  (forall region, sys_phases s !! region = Some PhWaiting -> executing s = 0%nat ->
     exists n, sys_permits s = S n /\ system_step s (move s region PhExecuting n (fun r => r))) /\
  (forall region, is_Some (sys_runtime s !! region) <-> region ∈ enabled_regions config) /\
  (forall region p runtime, sys_phases s !! region = Some p -> sys_runtime s !! region = Some runtime ->
     in_flight runtime = polling p).
Proof.
  intros [I1 I2 I3 I4]%system_inv_reach. unfold region_permits in I1. split; [lia|]. split; [|split; [|done]].
  - intros region Hw He. destruct (sys_permits s) as [|n] eqn:En; [lia|].
    exists n. split; [done|]. by apply st_acquire.
  - intros region. rewrite I3, <- elem_of_dom, I2. by rewrite elem_of_list_to_set.
Qed.
End System.

(** ** A concrete poll

    One region, one bundle per commit, a gateway that acknowledges one commit.  The
    first environment hands over one bundle and reports one failed download; the
    second hands over two, so that its second commit fails. *)
Module ConcretePoll.
#[export] Existing Instances ConcreteUploader.accepting ConcreteCodec.concrete_codec
  ConcreteWatermark.countable_watermark_codec ConcreteDirs.plain_resolver.

Definition show_ax (e : AssetExecutionError) : string := "execution".
Definition show_region (e : RegionError) : string := "region".
Definition show : HipError -> string := ConcreteUploader.show.
Definition config : AppConfig :=
  mkAppConfig 3 ServerConfig_default ExecutionConfig_default BackendsConfig_default
    (mkResourcesConfig CpuResourceConfig_default (mkMemoryResourceConfig 0))
    ConcurrencyConfig_default (mkStorageConfig [])
    (mkChartHashConfig false None None None None false Gpg None None)
    PollerConfig_default ConcreteUploader.one_by_one
    {["jp" := mkRegionConfig true RegionProviderConfig_default (mkCryptoConfig None None) "2022.3.21f1"
        (mkRegionPathsConfig None None) (mkRegionFiltersConfig [] [] [] [])
        RegionExportConfig_default
        (mkRegionUploadConfig false [] (mkUploadPublicReadConfig [] []) true)]}.
Definition current : CurrentVersionInfo := mkCurrentVersionInfo (Some "6.0") None (Some "6.6.0.20") (Some "h").
Definition summary : ExecutionSummary := mkExecutionSummary 2 2 1 1 1 false.

Definition env_of (arts : list BundleArtefacts) : AttemptEnv :=
  mkAttemptEnv (Ok ConcreteUploader.info) None (Ok tt) (Ok tt)
    (Ok [ConcreteFilter.task "b1"; ConcreteFilter.task "b2"]) ConcreteFilter.gateway
    (fun _ => mkExecuted (Ok summary) arts ConcreteUploader.disk) None id ConcreteUploader.env no_faults
    (Ok [RootDir]) None no_write_faults 0.
Definition env1 : AttemptEnv := env_of [ConcreteUploader.art "b1"].
Definition env2 : AttemptEnv := env_of ConcreteUploader.arts.
Definition w0 : World := mkWorld (mkStore "wm.json" ∅) ∅ ∅ ∅.

Definition attempt_of (env : AttemptEnv) : result RunOutcome PollError * World :=
  execute_once_attempt show show_ax config "jp" current env w0.
Definition w1 : World := (attempt_of env1).2.
Definition w2 : World := (attempt_of env2).2.

Definition names : gset string :=
  list_to_set (map changed_name (diff_changed (diff None ConcreteUploader.info))).
Definition exec_of (env : AttemptEnv) : Executed * CheckCounters := execute_filtered show config "jp" env names.
Definition up_of (env : AttemptEnv) : result unit PollError * gset string * files * list gw_event :=
  upload_phase show config "jp" env ∅ ConcreteUploader.info (exec_of env).1 (exec_of env).2.

Lemma attempt1 : attempt_of env1 = (Ok PollCompleted, w1).
Proof.
  assert (E : (attempt_of env1).1 = Ok PollCompleted) by (vm_compute; reflexivity).
  unfold w1. rewrite <- E. apply surjective_pairing.
Qed.

Lemma setup_of env up :
  ae_fetch env = Ok ConcreteUploader.info -> ae_load_fault env = None -> (up_of env).1.1.1 = up ->
  attempt_setup show config "jp" env w0 ConcreteUploader.info None (exec_of env).1 (exec_of env).2
    up (up_of env).1.1.2 (up_of env).1.2 (up_of env).2.
Proof.
  intros Hf Hl <-. constructor.
  - done.
  - rewrite Hl. reflexivity.
  - apply surjective_pairing.
  - change (up_of env = ((up_of env).1.1.1, (up_of env).1.1.2, (up_of env).1.2, (up_of env).2)).
    by destruct (up_of env) as [[[? ?] ?] ?].
Qed.

Lemma watermark_moves_on_completion_witness :
  PollCompleted = PollCompleted /\
  exists new_info old_info ex counters processed snap1 t sm,
    attempt_setup show config "jp" env1 w0 new_info old_info ex counters (Ok tt) processed snap1 t /\
    ex_result ex = Ok sm /\
    open None (fs_read (w_wm w1) "wm.json") "wm.json" = Ok (w_store w1) /\
    forall q, get (w_store w1) q =
      if decide (q = "jp") then Some (watermark_of current sm (ae_now env1)) else get (w_store w0) q.
Proof.
  apply (watermark_moves_on_completion show show_ax config "jp" current env1 w0 (Ok PollCompleted) w1);
    [vm_compute; discriminate | exact attempt1].
Defined.

Definition penv : PollEnv :=
  mkPollEnv (Ok tt) (Ok current) (Ok [RootDir]) None Acquired (fun _ => env1)
    (mkCancelTimes (fun _ => false) (fun _ => false)).

(** One of the two downloads failed, and the next poll does not look. *)
Lemma completed_then_skipped_witness :
  failed_downloads summary = 1%nat /\
  exists r t, execute_once show show_ax show_region config "jp" penv w1
              = Some (r, mkWorld (w_store w1) (w_wm w1) (w_snap w1) t, []) /\ r <> Ok PollCompleted.
Proof.
  split; [reflexivity|].
  apply (completed_then_skipped show show_ax show_region config "jp" current env1 w0 w1 penv);
    [vm_compute; discriminate | exact attempt1 | vm_compute; reflexivity | reflexivity | reflexivity | discriminate].
Defined.

Definition loaded (w : World) : AssetBundleInfo :=
  match load_snapshot None (w_snap w) (region_snapshot_file config "jp") with
  | Ok (Some i) => i
  | _ => mkAssetBundleInfo None None ∅
  end.


(** The first of two batches was committed; its bundle needs work again. *)
Lemma failed_upload_forgets_batches_witness :
  committed (up_of env2).2 = ["b1"] /\
  (needs_work (Some (loaded w2)) "b1" (sample_detail 100 10) <-> needs_work None "b1" (sample_detail 100 10)).
Proof.
  split; [vm_compute; reflexivity|].
  apply (failed_upload_forgets_batches show show_ax config "jp" current env2 w0 (attempt_of env2).1 w2
           ConcreteUploader.info None (exec_of env2).1 (exec_of env2).2 (PollHip "hip")
           (up_of env2).1.1.2 (up_of env2).1.2 (up_of env2).2 (loaded w2) "b1").
  - apply setup_of; [reflexivity | reflexivity | vm_compute; reflexivity].
  - apply surjective_pairing.
  - intros E%(f_equal w_snap). vm_compute in E. discriminate E.
  - vm_compute; reflexivity.
  - vm_compute; reflexivity.
  - vm_compute; reflexivity.
Defined.

Lemma region_retries_bounded_witness :
  exists r w' slept,
    retry_region_in_place show show_ax config "jp" current (fun _ => env2) (pe_cancel penv) w0 = Some (r, w', slept) /\
    attempts_run show show_ax config "jp" current (fun _ => env2) (pe_cancel penv) 1 w0 (length slept) r w' /\
    slept = map (fun i => 5 * (1 + Z.of_nat i)) (seq 0 (length slept)) /\
    (length slept < 10)%nat /\ sumZ slept <= 225.
Proof. apply (region_retries_bounded show show_ax config "jp"). Defined.

Definition s0 : system := system_init config.
Definition s1 : system := move s0 "jp" PhChecking (sys_permits s0) (mark_start 7).

Lemma poller_invariant_witness :
  Z.of_nat (executing s1) <= Z.max (max_concurrent_regions (poller config)) 1 /\
  (forall region, sys_phases s1 !! region = Some PhWaiting -> executing s1 = 0%nat ->
     exists n, sys_permits s1 = S n /\
       system_step (fun _ => "poll") s1 (move s1 region PhExecuting n (fun r => r))) /\
  (forall region, is_Some (sys_runtime s1 !! region) <-> region ∈ enabled_regions config) /\
  (forall region p runtime, sys_phases s1 !! region = Some p -> sys_runtime s1 !! region = Some runtime ->
     in_flight runtime = polling p).
Proof.
  apply (poller_invariant (fun _ => "poll") config s1). apply rtc_once.
  apply (st_start _ s0 "jp" (Triggered "jp") 7); vm_compute; reflexivity.
Defined.
End ConcretePoll.
