(* ===== verification/Service.v ===== *)
(** * HTTP endpoints and execution plans

    [src/service/http.rs]: [authorize], [trigger] and [healthz], and
    [src/core/pipeline.rs]: [build_execution_plan].

    A request header is its value when it is readable text.  [trigger] returns the
    response and the message it broadcasts to the region loops, if any. *)

From S2P Require Import Prelude Errors RustStr Config Models Regions Storage Watermark Poller.

Local Open Scope string_scope.
Local Open Scope list_scope.
Local Open Scope Z_scope.
Local Open Scope rust_scope.

(** ** HTTP *)

(** The headers [authorize] reads. *)
Record HeaderMap : Type := mkHeaders {
  user_agent : option string;
  authorization : option string;
}.

(** [enum ApiError]; [into_response] gives its status. *)
Inductive ApiError : Type :=
| Unauthorized (message : string)
| ApiNotFound (message : string)
| Conflict (message : string).
Definition api_status (e : ApiError) : Z :=
  match e with Unauthorized _ => 401 | ApiNotFound _ => 404 | Conflict _ => 409 end.

(** [authorize]. *)
Definition authorize (config : AppConfig) (headers : HeaderMap) : result unit ApiError :=
  let auth := auth (server config) in
  if negb (auth_enabled auth) then Ok tt
  else
    let? _ := match user_agent_prefix auth with
              | Some prefix =>
                  if negb (starts_with prefix (unwrap_or_default (user_agent headers)))
                  then Err (Unauthorized "invalid user-agent") else Ok tt
              | None => Ok tt
              end in
    match auth_bearer_token auth with
    | Some token =>
        if negb (String.eqb (unwrap_or_default (authorization headers)) ("Bearer " +:+ token))
        then Err (Unauthorized "invalid bearer token") else Ok tt
    | None => Ok tt
    end.

(** [struct TriggerResponse]. *)
Record TriggerResponse : Type := mkTriggerResponse {
  tr_message : string;
  tr_region : string;
}.

(** [trigger]. *)
Definition trigger (config : AppConfig) (headers : HeaderMap) (region : string)
    : result (Z * TriggerResponse) ApiError * option wakeup :=
  match authorize config headers with
  | Err e => (Err e, None)
  | Ok _ =>
      match regions config !! region with
      | None => (Err (ApiNotFound ("region `" +:+ region +:+ "` not defined")), None)
      | Some cfg =>
          if negb (region_enabled cfg)
          then (Err (Conflict ("region `" +:+ region +:+ "` is disabled in config")), None)
          else (Ok (202, mkTriggerResponse "trigger accepted" region), Some (Triggered region))
      end
  end.

(** [struct HealthResponse] and [healthz]; a [RegionHealth] has the fields of a
    [RegionSnapshot]. *)
Record HealthResponse : Type := mkHealth {
  health_status : string;
  health_service : string;
  health_version : string;
  started_at : Z;
  health_config_version : Z;
  health_enabled_regions : list string;
  health_regions : list RegionSnapshot;
}.
Definition healthz (pkg_version : string) (started_at : Z) (config : AppConfig) (state : PollerState)
    (watermarks : WatermarkStore) : HealthResponse :=
  mkHealth "ok" "haruki-sekai-asset-updater" pkg_version started_at (config_version config)
    (enabled_regions config) (region_snapshots state watermarks).

(** ** Plans *)

(** [CODEC_BACKEND] of [codec.rs]. *)
Definition CODEC_BACKEND : string := "crates.io:cridecoder@0.2.3".

Definition dry_run_step : string :=
  "dry-run responses stop after planning; live bundle discovery and execution happen only for non-dry-run jobs".
Definition upload_step : string :=
  "cloud upload is configured and implemented, but it is not called until export outputs exist".
Definition git_step : string :=
  "chart-hash Git sync is configured and implemented, but it is not called until downloaded assets are available".

(** [build_execution_plan]. *)
Definition build_execution_plan (config : AppConfig) (request : AssetUpdateRequest)
    : result ExecutionPlan PlanningError :=
  let? region := result_map_err PlanRegion (select_region config (req_region request)) in
  let url_preview := build_url_preview region request in
  let? record := ok_or (downloaded_asset_record_file (paths region))
                   (MissingDownloadRecordPath (req_region request)) in
  let? targets := if upload_enabled (upload region)
                  then result_map_err PlanStorage
                         (plan_storage_targets (storage config) (req_region request) (upload_providers (upload region)))
                  else Ok [] in
  let sync := if chart_enabled (chart_hashes config)
              then let dir := default "./sekai-chart-hash" (repository_dir (chart_hashes config)) in
                   Some (mkChartHashSyncPlan dir (dir +:+ "/" +:+ req_region request +:+ "_chart_hashes.json") None)
              else None in
  let steps := [dry_run_step] ++ (if upload_enabled (upload region) then [upload_step] else [])
               ++ (match sync with Some _ => [git_step] | None => [] end) in
  Ok (mkExecutionPlan (req_region request) (req_dry_run request) CODEC_BACKEND url_preview record
        targets sync steps).

(** ** Facts *)

(** The caller has what the configuration asks for. *)
Definition authorized (config : AppConfig) (headers : HeaderMap) : Prop :=
  auth_enabled (auth (server config)) = true ->
  (forall prefix, user_agent_prefix (auth (server config)) = Some prefix ->
     exists rest, unwrap_or_default (user_agent headers) = prefix +:+ rest) /\
  (forall token, auth_bearer_token (auth (server config)) = Some token ->
     unwrap_or_default (authorization headers) = "Bearer " +:+ token).

Lemma authorize_spec config headers : authorize config headers = Ok tt <-> authorized config headers.
Proof.
  unfold authorize, authorized. destruct (auth_enabled (auth (server config))); simpl; [|naive_solver].
  destruct (user_agent_prefix (auth (server config))) as [prefix|]; simpl.
  - destruct (starts_with prefix _) eqn:Es; simpl.
    + apply starts_with_spec in Es.
      destruct (auth_bearer_token _) as [token|]; [|naive_solver].
      destruct (String.eqb_spec (unwrap_or_default (authorization headers)) ("Bearer " +:+ token)); naive_solver.
    + split; [done|]. intros H. exfalso. destruct (H eq_refl) as [Hp _].
      destruct (Hp prefix eq_refl) as [rest Hr]. assert (starts_with prefix (unwrap_or_default (user_agent headers)) = true)
        by (apply starts_with_spec; eauto). congruence.
  - destruct (auth_bearer_token _) as [token|]; [|naive_solver].
    destruct (String.eqb_spec (unwrap_or_default (authorization headers)) ("Bearer " +:+ token)); naive_solver.
Qed.

Lemma trigger_cases config headers region r w :
  trigger config headers region = (r, w) ->
  match r with
  | Ok (status, body) =>
      status = 202 /\ tr_region body = region /\ w = Some (Triggered region) /\
      authorized config headers /\ region ∈ enabled_regions config
  | Err e =>
      w = None /\
      ((api_status e = 401 /\ ~ authorized config headers) \/
       (api_status e = 404 /\ authorized config headers /\ regions config !! region = None) \/
       (api_status e = 409 /\ authorized config headers /\ is_Some (regions config !! region) /\
        region ∉ enabled_regions config))
  end.
Proof.
  unfold trigger. pose proof (authorize_spec config headers) as Hau.
  destruct (authorize config headers) as [[]|e] eqn:Ea.
  - assert (Ha : authorized config headers) by (by apply Hau).
    destruct (regions config !! region) as [cfg|] eqn:Er; [|intros [= <- <-]; auto 6].
    pose proof (enabled_regions_spec config region) as Hs. destruct (region_enabled cfg) eqn:Een; simpl; intros [= <- <-].
    + split_and!; try done. apply Hs. by exists cfg.
    + split; [done|]. right; right. split_and!; [done | done | by eexists|]. intros (cfg' & ? & ?)%Hs. congruence.
  - intros [= <- <-]. split; [done|]. left. split; [|by rewrite <- Hau]. clear Hau.
    unfold authorize in Ea. destruct (auth_enabled (auth (server config))); simpl in Ea; [|done].
    destruct (user_agent_prefix (auth (server config))); simpl in Ea; [destruct (negb (starts_with _ _)); simpl in Ea|];
      repeat case_match; by simplify_eq.
Qed.

(** A trigger reaches the poller.  It is accepted exactly for an authorized caller and
    an enabled region, and each refusal has its own status and wakes nobody; when it
    is accepted, in every state of the poller in which the region's loop is idle the
    broadcast starts its poll, and it starts no other region's. *)
Theorem trigger_exact show_poll config headers region r w s :
  trigger config headers region = (r, w) ->
  (is_ok r = true <-> authorized config headers /\ region ∈ enabled_regions config) /\
  match r with
  | Ok _ =>
      exists e, w = Some e /\
        (sys_phases s !! region = Some PhIdle -> forall now,
           system_step show_poll s (move s region PhChecking (sys_permits s) (mark_start now))) /\
        forall other, starts_poll other e = true -> other = region
  | Err e =>
      w = None /\
      ((api_status e = 401 /\ ~ authorized config headers) \/
       (api_status e = 404 /\ authorized config headers /\ regions config !! region = None) \/
       (api_status e = 409 /\ authorized config headers /\ is_Some (regions config !! region) /\
        region ∉ enabled_regions config))
  end.
Proof.
  intros Ht%trigger_cases. destruct r as [[status body]|e].
  - destruct Ht as (_ & _ & -> & Ha & He). split; [naive_solver|]. exists (Triggered region). split; [done|]. split.
    + intros Hi now. apply (st_start _ s region (Triggered region)); [done|]. simpl. apply String.eqb_refl.
    + intros other Ho%String.eqb_eq. done.
  - split; [|done]. split; [done|]. intros [Ha He]. exfalso. destruct Ht as [_ [[_ ?]|[(_ & _ & Hn)|(_ & _ & _ & ?)]]]; try done.
    apply enabled_regions_spec in He as (cfg & ? & _). congruence.
Qed.

(** The plan of a request promises what the configuration asks for: upload targets only
    when uploads are on, a chart-hash sync only when that is, and a note for each. *)
Lemma plan_spec config request plan :
  build_execution_plan config request = Ok plan ->
  exists region, regions config !! req_region request = Some region /\ region_enabled region = true /\
    downloaded_asset_record_file (paths region) = Some (download_record_file plan) /\
    (upload_enabled (upload region) = false -> upload_targets plan = []) /\
    (is_Some (chart_hash_sync plan) <-> chart_enabled (chart_hashes config) = true) /\
    (upload_step ∈ pending_steps plan <-> upload_enabled (upload region) = true) /\
    (git_step ∈ pending_steps plan <-> is_Some (chart_hash_sync plan)).
Proof.
  unfold build_execution_plan, select_region.
  destruct (regions config !! req_region request) as [region|]; [|done].
  destruct (region_enabled region) eqn:Ee; simpl; [|done].
  destruct (downloaded_asset_record_file (paths region)) as [record|] eqn:Er; simpl; [|done].
  assert (N1 : git_step <> upload_step) by done. assert (N2 : git_step <> dry_run_step) by done.
  assert (N3 : upload_step <> dry_run_step) by done.
  revert N1 N2 N3. generalize git_step upload_step dry_run_step. intros g u d N1 N2 N3.
  destruct (upload_enabled (upload region)) eqn:Eu; simpl;
    [destruct (plan_storage_targets _ _ _) as [ts|e]; simpl; [|done]|];
    (destruct (chart_enabled (chart_hashes config)); simpl; intros [= <-]; exists region; simpl;
     rewrite ?elem_of_cons, ?elem_of_nil; split_and!; try done; intuition (try congruence);
     repeat match goal with H : is_Some None |- _ => by destruct H end; eauto).
Qed.

(** The health report lists every region of the runtime state once, in order of name. *)
Lemma healthz_regions v t config state wms :
  map rs_region (health_regions (healthz v t config state wms)) = map fst (btree_entries state).
Proof.
  unfold healthz, region_snapshots. simpl. rewrite map_map. apply map_ext. by intros [].
Qed.

(** ** A concrete trigger *)
Module ConcreteTrigger.
Definition headers : HeaderMap := mkHeaders (Some "curl") None.
Definition answer : result (Z * TriggerResponse) ApiError * option wakeup :=
  trigger ConcretePoll.config headers "jp".

Example accepted : is_ok answer.1 = true.
Proof. vm_compute. reflexivity. Qed.

Lemma trigger_exact_witness :
  (is_ok answer.1 = true <-> authorized ConcretePoll.config headers /\ "jp" ∈ enabled_regions ConcretePoll.config) /\
  match answer.1 with
  | Ok _ =>
      exists e, answer.2 = Some e /\
        (sys_phases ConcretePoll.s0 !! "jp" = Some PhIdle -> forall now,
           system_step (fun _ => "poll") ConcretePoll.s0
             (move ConcretePoll.s0 "jp" PhChecking (sys_permits ConcretePoll.s0) (mark_start now))) /\
        forall other, starts_poll other e = true -> other = "jp"
  | Err e =>
      answer.2 = None /\
      ((api_status e = 401 /\ ~ authorized ConcretePoll.config headers) \/
       (api_status e = 404 /\ authorized ConcretePoll.config headers /\ regions ConcretePoll.config !! "jp" = None) \/
       (api_status e = 409 /\ authorized ConcretePoll.config headers /\
        is_Some (regions ConcretePoll.config !! "jp") /\ "jp" ∉ enabled_regions ConcretePoll.config))
  end.
Proof.
  apply (trigger_exact (fun _ => "poll") ConcretePoll.config headers "jp" answer.1 answer.2 ConcretePoll.s0).
  apply surjective_pairing.
Defined.
End ConcreteTrigger.
