(* ===== verification/PayloadBundle.v ===== *)
(** * Native payload containers

    The two binary containers the AssetStudio library hands back, as
    [core/export_pipeline/implementation/payload.rs] reads them: payload bundles
    (named entries; layouts V1 grouped, V1 interleaved and V2) and raw RGBA
    images.  The parsers walk a cursor over the payload as the code does.  The
    formats themselves are written down as encoders, and the parsers are shown to
    accept exactly the encodings. *)

From Stdlib Require Import Ascii.
From S2P Require Import Prelude RustStr Errors Paths.

Local Open Scope string_scope.
Local Open Scope list_scope.
Local Open Scope Z_scope.
Local Open Scope rust_scope.

(** ** Constants of [types.rs] *)

Definition NATIVE_AOT_PAYLOAD_BUNDLE_MAGIC : bytes := as_bytes "HARUKI_ASSET_PAYLOAD_BUNDLE_V1".
Definition NATIVE_AOT_PAYLOAD_BUNDLE_V2_MAGIC : Z := 0x42504148.
Definition NATIVE_AOT_PAYLOAD_BUNDLE_V2_VERSION : Z := 2.
Definition NATIVE_AOT_PAYLOAD_BUNDLE_V2_HEADER_LEN : Z := 20.
Definition NATIVE_AOT_RGBA_IR_MAGIC : bytes := as_bytes "HARUKI_RGBAIR_V1".
Definition NATIVE_AOT_RGBA_IR_HEADER_LEN : Z := 36.

(** [payload.starts_with(magic)] on byte slices. *)
Definition bytes_start_with (magic payload : bytes) : bool :=
  bool_decide (slice payload 0 (zlen magic) = magic).

Definition ffi_error {A} (message : string) : result A ExportPipelineError :=
  Err (ExportAssetStudioFfi message).

Definition assetstudio_error_message (error : ExportPipelineError) : string :=
  match error with
  | ExportAssetStudioFfi message => message
  | _ => "export pipeline error"
  end.

(** ** Reading integers at the cursor *)

Definition read_bundle_int (n : nat) (truncated : string) (payload : bytes) (cursor : Z)
  : result (Z * Z) ExportPipelineError :=
  if saturating_sub (zlen payload) cursor <? Z.of_nat n then ffi_error truncated
  else Ok (from_le_bytes (slice payload cursor (cursor + Z.of_nat n)), cursor + Z.of_nat n).

Definition read_bundle_u16 := read_bundle_int 2 "native payload bundle has truncated u16".
Definition read_bundle_u32 := read_bundle_int 4 "native payload bundle has truncated u32".
Definition read_bundle_u64 := read_bundle_int 8 "native payload bundle has truncated u64".

(** ** Payload bundles *)

Abbreviation entry := (string * bytes)%type.

(** The name of an entry, read at the cursor. *)
Definition read_entry_name (payload : bytes) (cursor name_len : Z)
  : result (string * Z) ExportPipelineError :=
  if saturating_sub (zlen payload) cursor <? name_len
  then ffi_error "native payload bundle has truncated entry name"
  else let? name := ok_or (from_utf8 (slice payload cursor (cursor + name_len)))
                      (ExportAssetStudioFfi "native payload bundle entry name is not utf-8") in
       Ok (name, cursor + name_len).

(** The start of an entry: the two lengths and the name. *)
Definition read_entry_header (payload : bytes) (cursor : Z)
  : result (string * Z * Z) ExportPipelineError :=
  let? (name_len, cursor) := read_bundle_u32 payload cursor in
  let? (data_len, cursor) := read_bundle_u64 payload cursor in
  let? (name, cursor) := read_entry_name payload cursor name_len in
  Ok (name, data_len, cursor).

(** The data of an entry, read at the cursor.  [usize::try_from] of a [u64] cannot
    fail on the 64-bit targets, so its place among the other checks is not
    observable. *)
Definition read_entry_data (payload : bytes) (cursor data_len : Z)
  : result (bytes * Z) ExportPipelineError :=
  if usize_max <? data_len then ffi_error "native payload bundle entry data is too large"
  else if saturating_sub (zlen payload) cursor <? data_len
  then ffi_error "native payload bundle has truncated entry data"
  else Ok (slice payload cursor (cursor + data_len), cursor + data_len).

Definition finish_payload_bundle_parse (payload : bytes) (cursor observed : Z) (expected : option Z)
  : result unit ExportPipelineError :=
  if negb (cursor =? zlen payload) then ffi_error "native payload bundle has trailing byte(s)"
  else match expected with
       | Some e => if negb (observed =? e)
                   then ffi_error "native payload bundle data byte count mismatch" else Ok tt
       | None => Ok tt
       end.

(** The [for _ in 0..count] loop: the entries, the cursor after them and the
    number of data bytes seen. *)
Fixpoint interleaved_loop (payload : bytes) (cursor observed : Z) (count : nat)
  : result (list entry * Z * Z) ExportPipelineError :=
  match count with
  | O => Ok ([], cursor, observed)
  | S count' =>
      let? (name, data_len, cursor) := read_entry_header payload cursor in
      let? (data, cursor) := read_entry_data payload cursor data_len in
      let? (entries, cursor, observed) :=
        interleaved_loop payload cursor (saturating_add 64 observed data_len) count' in
      Ok ((name, data) :: entries, cursor, observed)
  end.

Definition parse_payload_bundle_interleaved_entries (payload : bytes) (cursor count : Z)
    (expected : option Z) : result (list entry) ExportPipelineError :=
  let? (entries, cursor, observed) := interleaved_loop payload cursor 0 (Z.to_nat count) in
  let? _ := finish_payload_bundle_parse payload cursor observed expected in
  Ok entries.

Fixpoint grouped_headers (payload : bytes) (cursor observed : Z) (count : nat)
  : result (list (string * Z) * Z * Z) ExportPipelineError :=
  match count with
  | O => Ok ([], cursor, observed)
  | S count' =>
      let? (name, data_len, cursor) := read_entry_header payload cursor in
      let? (headers, cursor, observed) :=
        grouped_headers payload cursor (saturating_add 64 observed data_len) count' in
      Ok ((name, data_len) :: headers, cursor, observed)
  end.

Fixpoint grouped_data (payload : bytes) (cursor : Z) (headers : list (string * Z))
  : result (list entry * Z) ExportPipelineError :=
  match headers with
  | [] => Ok ([], cursor)
  | (name, data_len) :: headers' =>
      let? (data, cursor) := read_entry_data payload cursor data_len in
      let? (entries, cursor) := grouped_data payload cursor headers' in
      Ok ((name, data) :: entries, cursor)
  end.

Definition parse_payload_bundle_grouped_entries (payload : bytes) (cursor count : Z)
  : result (list entry) ExportPipelineError :=
  let? (headers, cursor, observed) := grouped_headers payload cursor 0 (Z.to_nat count) in
  let? (entries, cursor) := grouped_data payload cursor headers in
  let? _ := finish_payload_bundle_parse payload cursor observed None in
  Ok entries.

(** The V2 header after its magic: its length, the number of entries and the
    number of data bytes. *)
Definition read_v2_header (payload : bytes) : result (Z * Z * Z) ExportPipelineError :=
  let? (version, cursor) := read_bundle_u16 payload 4 in
  if negb (version =? NATIVE_AOT_PAYLOAD_BUNDLE_V2_VERSION)
  then ffi_error "native payload bundle has unsupported version"
  else
    let? (header_len, cursor) := read_bundle_u16 payload cursor in
    if (header_len <? NATIVE_AOT_PAYLOAD_BUNDLE_V2_HEADER_LEN) || (zlen payload <? header_len)
    then ffi_error "native payload bundle has invalid header length"
    else
      let? (count, cursor) := read_bundle_u32 payload cursor in
      let? (expected, _) := read_bundle_u64 payload cursor in
      Ok (header_len, count, expected).

Definition parse_payload_bundle_borrowed (payload : bytes) : result (list entry) ExportPipelineError :=
  if (4 <=? zlen payload)
     && (from_le_bytes (slice payload 0 4) =? NATIVE_AOT_PAYLOAD_BUNDLE_V2_MAGIC)
  then
    let? (header_len, count, expected) := read_v2_header payload in
    parse_payload_bundle_interleaved_entries payload header_len count (Some expected)
  else if bytes_start_with NATIVE_AOT_PAYLOAD_BUNDLE_MAGIC payload then
    let? (count, cursor) := read_bundle_u32 payload (zlen NATIVE_AOT_PAYLOAD_BUNDLE_MAGIC) in
    match parse_payload_bundle_grouped_entries payload cursor count with
    | Ok entries => Ok entries
    | Err grouped_error =>
        result_map_err
          (fun interleaved_error =>
             ExportAssetStudioFfi (assetstudio_error_message interleaved_error
               +:+ "; legacy grouped parse also failed: "
               +:+ assetstudio_error_message grouped_error))
          (parse_payload_bundle_interleaved_entries payload cursor count None)
    end
  else ffi_error "native payload bundle has invalid magic".

(** ** Where the entries are written *)

Definition is_normal (c : component) : bool :=
  match c with Normal _ => true | _ => false end.

Definition safe_payload_bundle_path (name : string) : path :=
  let safe := filter (fun c => is_normal c = true) (components name) in
  match safe with [] => [Normal "payload.bin"] | _ => safe end.

(** [target.file_stem()], and [asset] when there is none. *)
Definition stem_or_asset (target : path) : string :=
  match file_name target with
  | Some w => let stem := (split_extension w).1 in if is_empty stem then "asset" else stem
  | None => "asset"
  end.

Definition payload_bundle_entry_target (target : path) (entry_name : string) : path :=
  path_join (path_join (default [] (path_parent target)) [Normal (stem_or_asset target)])
    (safe_payload_bundle_path entry_name).

(** Exported files, by path. *)
Abbreviation out_files := (gmap path bytes).

(** [write_payload_bundle]: [io] is the error the operating system answers with,
    if any, when the parent of a path is created or the path is written. *)
Fixpoint write_entries (io : path -> option io_error) (fs : out_files) (target : path)
    (entries : list entry) : out_files * result (list path) ExportPipelineError :=
  match entries with
  | [] => (fs, Ok [])
  | (name, data) :: entries' =>
      let entry_target := payload_bundle_entry_target target name in
      match io entry_target with
      | Some e => (fs, Err (ExportIo (path_str entry_target) e))
      | None =>
          let '(fs', r) := write_entries io (<[entry_target := data]> fs) target entries' in
          (fs', let? written := r in Ok (entry_target :: written))
      end
  end.

Definition write_payload_bundle (io : path -> option io_error) (fs : out_files) (target : path)
    (payload : bytes) : out_files * result (list path) ExportPipelineError :=
  match parse_payload_bundle_borrowed payload with
  | Err e => (fs, Err e)
  | Ok entries => write_entries io fs target entries
  end.

(** ** Raw RGBA images *)

Record NativeRgbaIr : Type := mkNativeRgbaIr {
  rgba_width : Z;
  rgba_height : Z;
  stride : Z;
  row_bytes : Z;
  height_usize : Z;
  pixels : bytes
}.

(** [checked_mul] and [checked_add] on [usize]. *)
Definition checked_usize (z : Z) : option Z := if z <=? usize_max then Some z else None.

Definition parse_native_rgba_ir_payload (payload : bytes) : result NativeRgbaIr ExportPipelineError :=
  if zlen payload <? NATIVE_AOT_RGBA_IR_HEADER_LEN
  then ffi_error "native raw RGBA image payload is too short"
  else if negb (bytes_start_with NATIVE_AOT_RGBA_IR_MAGIC payload)
  then ffi_error "native raw RGBA image payload has invalid magic"
  else
    let read_u32 offset := from_le_bytes (slice payload offset (offset + 4)) in
    let width := read_u32 16 in
    let height := read_u32 20 in
    let stride := read_u32 24 in
    let pixel_format := read_u32 28 in
    if negb (pixel_format =? 1)
    then ffi_error "native raw RGBA image payload has unsupported pixel format"
    else
      let? row_bytes := ok_or (checked_usize (width * 4))
                          (ExportAssetStudioFfi "native raw RGBA image payload has invalid width") in
      if stride <? row_bytes
      then ffi_error "native raw RGBA image payload has invalid stride"
      else
        let? pixel_bytes :=
          ok_or (match checked_usize (stride * height) with
                 | Some value => checked_usize (value + NATIVE_AOT_RGBA_IR_HEADER_LEN)
                 | None => None
                 end) (ExportAssetStudioFfi "native raw RGBA image payload is too large") in
        if zlen payload <? pixel_bytes
        then ffi_error "native raw RGBA image payload is truncated"
        else Ok (mkNativeRgbaIr width height stride row_bytes height
                   (slice payload NATIVE_AOT_RGBA_IR_HEADER_LEN pixel_bytes)).

(** The rows [y, y+1, ..., y+n-1], copied one after the other. *)
Fixpoint copy_rows (raw : NativeRgbaIr) (y : Z) (n : nat) : bytes :=
  match n with
  | O => []
  | S n' => slice (pixels raw) (y * stride raw) (y * stride raw + row_bytes raw)
            ++ copy_rows raw (y + 1) n'
  end.

Definition native_rgba_ir_contiguous_pixels (raw : NativeRgbaIr) : bytes :=
  if stride raw =? row_bytes raw
  then slice (pixels raw) 0 (row_bytes raw * height_usize raw)
  else copy_rows raw 0 (Z.to_nat (height_usize raw)).

(** [image::RgbaImage::from_raw] of the [image] crate: it returns [None] exactly
    when the container is too small for the dimensions. *)
Class RgbaImage (img : Type) := {
  from_raw : Z -> Z -> bytes -> option img;
  from_raw_spec : forall w h px, is_Some (from_raw w h px) <-> w * h * 4 <= zlen px
}.

Definition decode_native_rgba_ir_payload `{RgbaImage img} (payload : bytes)
  : result img ExportPipelineError :=
  let? raw := parse_native_rgba_ir_payload payload in
  ok_or (from_raw (rgba_width raw) (rgba_height raw) (native_rgba_ir_contiguous_pixels raw))
    (ExportAssetStudioFfi "native raw RGBA image payload could not be converted to an image").

(** ** The formats *)

Definition encode_header (h : string * Z) : bytes :=
  to_le_bytes 4 (zlen (as_bytes h.1)) ++ to_le_bytes 8 h.2 ++ as_bytes h.1.
Definition encode_entry (e : entry) : bytes := encode_header (e.1, zlen e.2) ++ e.2.
Definition header_of (e : entry) : string * Z := (e.1, zlen e.2).

(** A header whose fields fit their widths and whose name is text. *)
Definition header_ok (h : string * Z) : Prop :=
  utf8_valid (as_bytes h.1) = true /\ in_width 32 (zlen (as_bytes h.1)) /\ in_width 64 h.2.

Definition interleaved (es : list entry) : bytes := concat (map encode_entry es).
Definition grouped (es : list entry) : bytes :=
  concat (map (fun e => encode_header (header_of e)) es) ++ concat (map snd es).

Definition data_bytes (es : list entry) : Z := sumZ (map (fun e => zlen e.2) es).

(** V2: a fixed header, possibly followed by extension bytes. *)
Definition header_v2 (header_len count data : Z) : bytes :=
  to_le_bytes 4 NATIVE_AOT_PAYLOAD_BUNDLE_V2_MAGIC
  ++ to_le_bytes 2 NATIVE_AOT_PAYLOAD_BUNDLE_V2_VERSION
  ++ to_le_bytes 2 header_len ++ to_le_bytes 4 count ++ to_le_bytes 8 data.
Definition bundle_v2 (ext : bytes) (es : list entry) : bytes :=
  header_v2 (NATIVE_AOT_PAYLOAD_BUNDLE_V2_HEADER_LEN + zlen ext) (zlen es) (data_bytes es)
  ++ ext ++ interleaved es.
Definition bundle_v1 (layout : list entry -> bytes) (es : list entry) : bytes :=
  NATIVE_AOT_PAYLOAD_BUNDLE_MAGIC ++ to_le_bytes 4 (zlen es) ++ layout es.

Definition entries_ok (es : list entry) : Prop :=
  Forall (fun e => header_ok (header_of e)) es /\ in_width 32 (zlen es).

(** ** Reading inverts writing *)

Lemma saturating_room (pre rest : bytes) n :
  saturating_sub (zlen (pre ++ rest)) (zlen pre) <? n = (zlen rest <? n).
Proof.
  unfold saturating_sub. rewrite zlen_app. pose proof (zlen_nonneg rest).
  f_equal. lia.
Qed.

(** What is at the cursor, split off after [n] bytes. *)
Lemma split_at (rest : bytes) n :
  0 <= n <= zlen rest -> exists x tl, rest = x ++ tl /\ zlen x = n.
Proof.
  unfold zlen. intros. exists (take (Z.to_nat n) rest), (drop (Z.to_nat n) rest).
  rewrite take_drop, length_take. split; [done | lia].
Qed.

Lemma read_bundle_int_iff n msg pre rest v c :
  read_bundle_int n msg (pre ++ rest) (zlen pre) = Ok (v, c) <->
  exists tl, rest = to_le_bytes n v ++ tl /\ 0 <= v < 256 ^ Z.of_nat n
             /\ c = zlen (pre ++ to_le_bytes n v).
Proof.
  unfold read_bundle_int. rewrite saturating_room, zlen_app, zlen_to_le_bytes. split.
  - destruct (Z.ltb_spec (zlen rest) (Z.of_nat n)); [done|]. intros E.
    destruct (split_at rest (Z.of_nat n)) as (x & tl & -> & Hx); [lia|].
    rewrite (slice_mid pre x tl) in E by (done || lia). injection E as <- <-.
    exists tl. rewrite to_from_le_small by done. split_and!; [done | | | done].
    all: pose proof (from_le_bytes_range x) as R; unfold zlen in Hx; rewrite Hx in R; lia.
  - intros (tl & -> & Hv & ->). pose proof (zlen_nonneg tl).
    destruct (Z.ltb_spec (zlen (to_le_bytes n v ++ tl)) (Z.of_nat n)) as [Hl|Hl].
    + rewrite zlen_app, zlen_to_le_bytes in Hl. lia.
    + rewrite (slice_mid pre (to_le_bytes n v) tl) by (rewrite ?zlen_to_le_bytes; done).
      by rewrite from_to_le_small.
Qed.

Lemma read_entry_name_iff pre rest n name c :
  0 <= n ->
  read_entry_name (pre ++ rest) (zlen pre) n = Ok (name, c) <->
  exists tl, rest = as_bytes name ++ tl /\ n = zlen (as_bytes name)
             /\ utf8_valid (as_bytes name) = true /\ c = zlen (pre ++ as_bytes name).
Proof.
  intros Hn. unfold read_entry_name. rewrite saturating_room, zlen_app. split.
  - destruct (Z.ltb_spec (zlen rest) n); [done|]. intros E.
    destruct (split_at rest n) as (x & tl & -> & Hx); [lia|].
    rewrite (slice_mid pre x tl) in E by (done || lia).
    apply result_bind_Ok in E as (name' & E & E2). injection E2 as <- <-.
    destruct (from_utf8 x) as [nm|] eqn:Ef; [|done]. injection E as <-.
    apply from_utf8_Some in Ef as [-> Hu]. exists tl. split_and!; [done | lia | done | lia].
  - intros (tl & -> & -> & Hu & ->). pose proof (zlen_nonneg tl).
    destruct (Z.ltb_spec (zlen (as_bytes name ++ tl)) (zlen (as_bytes name))) as [Hl|Hl].
    + rewrite zlen_app in Hl. lia.
    + rewrite (slice_mid pre (as_bytes name) tl) by done.
      by rewrite (proj2 (from_utf8_Some (as_bytes name) name)) by done.
Qed.

Lemma read_entry_data_iff pre rest n data c :
  0 <= n ->
  read_entry_data (pre ++ rest) (zlen pre) n = Ok (data, c) <->
  exists tl, rest = data ++ tl /\ n = zlen data /\ n <= usize_max /\ c = zlen (pre ++ data).
Proof.
  intros Hn. unfold read_entry_data. rewrite saturating_room, zlen_app.
  destruct (Z.ltb_spec usize_max n); [split; [done | naive_solver lia]|]. split.
  - destruct (Z.ltb_spec (zlen rest) n); [done|]. intros E.
    destruct (split_at rest n) as (x & tl & -> & Hx); [lia|].
    rewrite (slice_mid pre x tl) in E by (done || lia). injection E as <- <-.
    exists tl. split_and!; [done | lia..].
  - intros (tl & -> & -> & Hu & ->). pose proof (zlen_nonneg tl).
    destruct (Z.ltb_spec (zlen (data ++ tl)) (zlen data)) as [Hl|Hl].
    + rewrite zlen_app in Hl. lia.
    + by rewrite (slice_mid pre data tl) by done.
Qed.

(** The same facts as equations that compute a read. *)
Lemma read_bundle_int_app n msg pre v tl :
  0 <= v < 256 ^ Z.of_nat n ->
  read_bundle_int n msg (pre ++ to_le_bytes n v ++ tl) (zlen pre)
  = Ok (v, zlen (pre ++ to_le_bytes n v)).
Proof. intros. apply read_bundle_int_iff. by exists tl. Qed.

Lemma read_entry_name_app pre name tl :
  utf8_valid (as_bytes name) = true ->
  read_entry_name (pre ++ as_bytes name ++ tl) (zlen pre) (zlen (as_bytes name))
  = Ok (name, zlen (pre ++ as_bytes name)).
Proof. intros. apply read_entry_name_iff; [apply zlen_nonneg | by exists tl]. Qed.

Lemma read_entry_data_app pre data tl :
  in_width 64 (zlen data) ->
  read_entry_data (pre ++ data ++ tl) (zlen pre) (zlen data) = Ok (data, zlen (pre ++ data)).
Proof.
  intros [? ?]. apply read_entry_data_iff; [apply zlen_nonneg|]. exists tl.
  split_and!; try done. unfold usize_max, u64_max, u_max. lia.
Qed.

Lemma read_entry_header_iff pre rest name n c :
  read_entry_header (pre ++ rest) (zlen pre) = Ok (name, n, c) <->
  exists tl, rest = encode_header (name, n) ++ tl /\ header_ok (name, n)
             /\ c = zlen (pre ++ encode_header (name, n)).
Proof.
  unfold read_entry_header, read_bundle_u32, read_bundle_u64, encode_header, header_ok. simpl fst; simpl snd.
  split.
  - intros ([nl c1] & E1 & ([dl c2] & E2 & ([nm c3] & E3 & E)%result_bind_Ok)%result_bind_Ok)%result_bind_Ok.
    injection E as <- <- <-.
    apply read_bundle_int_iff in E1 as (t1 & -> & R1 & ->). rewrite app_assoc in E2, E3.
    apply read_bundle_int_iff in E2 as (t2 & -> & R2 & ->). rewrite app_assoc in E3.
    apply read_entry_name_iff in E3 as (t3 & -> & -> & Hu & ->); [|lia].
    exists t3. by rewrite <- !app_assoc.
  - intros (tl & -> & (Hu & R1 & R2) & ->). rewrite <- !app_assoc.
    rewrite read_bundle_int_app by apply R1. cbn [result_bind]. rewrite (app_assoc pre).
    rewrite read_bundle_int_app by apply R2. cbn [result_bind]. rewrite (app_assoc (pre ++ _)).
    rewrite read_entry_name_app by done. cbn [result_bind]. by rewrite <- !app_assoc.
Qed.

Lemma read_entry_header_app pre h tl :
  header_ok h ->
  read_entry_header (pre ++ encode_header h ++ tl) (zlen pre)
  = Ok (h.1, h.2, zlen (pre ++ encode_header h)).
Proof. destruct h as [name n]. intros. apply read_entry_header_iff. by exists tl. Qed.

Lemma interleaved_loop_iff pre rest obs n es c obs' :
  interleaved_loop (pre ++ rest) (zlen pre) obs n = Ok (es, c, obs') <->
  exists tl, rest = interleaved es ++ tl /\ length es = n
             /\ Forall (fun e => header_ok (header_of e)) es
             /\ c = zlen (pre ++ interleaved es)
             /\ obs' = foldl (saturating_add 64) obs (map (fun e => zlen e.2) es).
Proof.
  revert pre rest obs es c obs'. induction n as [|n IH]; intros pre rest obs es c obs'; cbn [interleaved_loop].
  - split.
    + intros ?; simplify_eq. exists rest. by rewrite app_nil_r.
    + intros (tl & -> & Hn & _ & -> & ->). destruct es; [|done]. by rewrite app_nil_r.
  - split.
    + intros ([[nm dl] c1] & E1 & ([dt c2] & E2 & ([[es' c3] o3] & E3 & E)%result_bind_Ok)%result_bind_Ok)%result_bind_Ok.
      injection E as <- <- <-.
      apply read_entry_header_iff in E1 as (t1 & -> & R1 & ->). rewrite app_assoc in E2, E3.
      apply read_entry_data_iff in E2 as (t2 & -> & -> & R2 & ->); [|apply R1]. rewrite app_assoc in E3.
      apply IH in E3 as (t3 & -> & <- & Hes & -> & ->).
      exists t3. unfold interleaved. cbn [map concat]. unfold encode_entry. simpl fst; simpl snd.
      rewrite <- !app_assoc. split_and!; try done. by constructor.
    + intros (tl & -> & Hn & Hes & -> & ->). destruct es as [|[nm dt] es]; [done|].
      injection Hn as Hn. inversion Hes as [|? ? H1 H2]; subst.
      unfold interleaved. cbn [map concat]. unfold encode_entry. rewrite <- !app_assoc.
      rewrite read_entry_header_app by done. cbn [result_bind fst snd]. rewrite (app_assoc pre).
      rewrite read_entry_data_app by apply H1. cbn [result_bind]. rewrite (app_assoc (pre ++ _)).
      rewrite (proj2 (IH ((pre ++ _) ++ _) _ _ es _ _)) by (eexists; split_and!; done).
      cbn [result_bind]. by rewrite <- !app_assoc.
Qed.

Lemma grouped_headers_iff pre rest obs n hs c obs' :
  grouped_headers (pre ++ rest) (zlen pre) obs n = Ok (hs, c, obs') <->
  exists tl, rest = concat (map encode_header hs) ++ tl /\ length hs = n /\ Forall header_ok hs
             /\ c = zlen (pre ++ concat (map encode_header hs))
             /\ obs' = foldl (saturating_add 64) obs (map snd hs).
Proof.
  revert pre rest obs hs c obs'. induction n as [|n IH]; intros pre rest obs hs c obs'; cbn [grouped_headers].
  - split.
    + intros ?; simplify_eq. exists rest. by rewrite app_nil_r.
    + intros (tl & -> & Hn & _ & -> & ->). destruct hs; [|done]. by rewrite app_nil_r.
  - split.
    + intros ([[nm dl] c1] & E1 & ([[hs' c3] o3] & E3 & E)%result_bind_Ok)%result_bind_Ok.
      injection E as <- <- <-.
      apply read_entry_header_iff in E1 as (t1 & -> & R1 & ->). rewrite app_assoc in E3.
      apply IH in E3 as (t3 & -> & <- & Hes & -> & ->).
      exists t3. cbn [map concat]. rewrite <- !app_assoc. split_and!; try done. by constructor.
    + intros (tl & -> & Hn & Hes & -> & ->). destruct hs as [|h hs]; [done|].
      injection Hn as Hn. inversion Hes as [|? ? H1 H2]; subst. cbn [map concat]. rewrite <- !app_assoc.
      rewrite read_entry_header_app by done. cbn [result_bind fst snd]. rewrite (app_assoc pre).
      rewrite (proj2 (IH (pre ++ _) _ _ hs _ _)) by (eexists; split_and!; done).
      cbn [result_bind]. rewrite <- !app_assoc. by destruct h.
Qed.

Lemma grouped_data_iff pre rest hs es c :
  Forall header_ok hs ->
  grouped_data (pre ++ rest) (zlen pre) hs = Ok (es, c) <->
  exists tl, rest = concat (map snd es) ++ tl /\ hs = map header_of es
             /\ c = zlen (pre ++ concat (map snd es)).
Proof.
  intros Hhs. revert pre rest es c.
  induction Hhs as [|[nm n] hs Hh _ IH]; intros pre rest es c; cbn [grouped_data].
  - split.
    + intros ?; simplify_eq. exists rest. by rewrite app_nil_r.
    + intros (tl & -> & Hn & ->). destruct es; [|done]. by rewrite app_nil_r.
  - split.
    + intros ([dt c2] & E2 & ([es' c3] & E3 & E)%result_bind_Ok)%result_bind_Ok. injection E as <- <-.
      apply read_entry_data_iff in E2 as (t2 & -> & -> & R2 & ->); [|apply Hh].
      rewrite app_assoc in E3. apply IH in E3 as (t3 & -> & -> & ->).
      exists t3. cbn [map concat fst snd]. by rewrite <- !app_assoc.
    + intros (tl & -> & Hn & ->). destruct es as [|[nm' dt] es]; [done|].
      cbn [map concat fst snd] in *. unfold header_of at 1 in Hn. injection Hn as -> -> ->.
      rewrite <- !app_assoc.
      rewrite read_entry_data_app by apply Hh. cbn [result_bind]. rewrite (app_assoc pre).
      rewrite (proj2 (IH (pre ++ _) _ es _)) by (eexists; split_and!; done).
      cbn [result_bind]. by rewrite <- !app_assoc.
Qed.

Lemma finish_iff payload cursor obs expected :
  finish_payload_bundle_parse payload cursor obs expected = Ok tt <->
  cursor = zlen payload /\ (forall e, expected = Some e -> obs = e).
Proof.
  unfold finish_payload_bundle_parse. destruct (Z.eqb_spec cursor (zlen payload)); simpl; [|naive_solver].
  destruct expected as [w|]; [|naive_solver]. destruct (Z.eqb_spec obs w); naive_solver.
Qed.

(** The counter of data bytes cannot saturate inside a payload. *)
Lemma observed_sum obs l :
  Forall (fun z => 0 <= z) l -> 0 <= obs -> obs + sumZ l <= u64_max ->
  foldl (saturating_add 64) obs l = obs + sumZ l.
Proof.
  intros Hl. revert obs. induction Hl as [|z l Hz Hl IH]; intros obs Ho Hm; cbn [foldl].
  - unfold sumZ; simpl; lia.
  - pose proof (sumZ_nonneg l Hl). unfold sumZ in *; cbn [foldr] in *.
    rewrite IH; unfold saturating_add, u64_max in *; lia.
Qed.

Lemma data_bytes_bound es : 0 <= data_bytes es <= zlen (interleaved es).
Proof.
  unfold data_bytes, interleaved, sumZ. induction es as [|e es IH]; cbn [map concat foldr]; [done|].
  unfold encode_entry at 1. rewrite !zlen_app.
  pose proof (zlen_nonneg (encode_header (e.1, zlen e.2))). pose proof (zlen_nonneg e.2). lia.
Qed.

Lemma zlen_app_eq_nil (x tl : bytes) : zlen x = zlen (x ++ tl) -> tl = [].
Proof. rewrite zlen_app. unfold zlen. destruct tl; [done | simpl; lia]. Qed.

Lemma parse_interleaved_iff pre rest count expected es :
  zlen (pre ++ rest) <= usize_max -> 0 <= count ->
  parse_payload_bundle_interleaved_entries (pre ++ rest) (zlen pre) count expected = Ok es <->
  rest = interleaved es /\ zlen es = count /\ Forall (fun e => header_ok (header_of e)) es
  /\ (forall e, expected = Some e -> e = data_bytes es).
Proof.
  intros Hmax Hc. unfold parse_payload_bundle_interleaved_entries.
  assert (Hobs : zlen (pre ++ interleaved es) <= usize_max ->
            foldl (saturating_add 64) 0 (map (fun e : entry => zlen e.2) es) = data_bytes es).
  { intros H. rewrite zlen_app in H. pose proof (data_bytes_bound es). pose proof (zlen_nonneg pre).
    unfold data_bytes in *. rewrite observed_sum; unfold usize_max in *; try lia.
    apply Forall_map, Forall_forall. intros x _. apply zlen_nonneg. }
  split.
  - intros ([[es' c] o] & E & ([] & E2 & E3)%result_bind_Ok)%result_bind_Ok. injection E3 as ->.
    apply interleaved_loop_iff in E as (tl & -> & Hn & Hes & -> & ->).
    apply finish_iff in E2 as [Hl He]. rewrite app_assoc in Hl. apply zlen_app_eq_nil in Hl as ->.
    rewrite !app_nil_r in *. rewrite Hobs in He by done. split_and!; [done | unfold zlen; lia | done|].
    intros e ->. symmetry. by apply He.
  - intros (-> & Hn & Hes & He).
    rewrite (proj2 (interleaved_loop_iff pre (interleaved es) 0 (Z.to_nat count) es
               (zlen (pre ++ interleaved es)) (data_bytes es))); cbn [result_bind].
    + rewrite (proj2 (finish_iff _ _ _ _)); [done|]. split; [done|]. intros e E. symmetry. by apply He.
    + exists []. rewrite app_nil_r. split_and!; try done; [unfold zlen in Hn; lia|]. by rewrite Hobs.
Qed.

Lemma headers_ok es :
  Forall header_ok (map header_of es) <-> Forall (fun e => header_ok (header_of e)) es.
Proof. apply List.Forall_map. Qed.

Lemma parse_grouped_iff pre rest count es :
  0 <= count ->
  parse_payload_bundle_grouped_entries (pre ++ rest) (zlen pre) count = Ok es <->
  rest = grouped es /\ zlen es = count /\ Forall (fun e => header_ok (header_of e)) es.
Proof.
  intros Hc. unfold parse_payload_bundle_grouped_entries, grouped. split.
  - intros ([[hs c] o] & E & ([es' c'] & E1 & ([] & E2 & E3)%result_bind_Ok)%result_bind_Ok)%result_bind_Ok.
    injection E3 as ->. apply grouped_headers_iff in E as (tl & -> & Hn & Hes & -> & ->).
    rewrite app_assoc in E1, E2. apply grouped_data_iff in E1 as (t2 & -> & -> & ->); [|done].
    apply finish_iff in E2 as [Hl _]. rewrite app_assoc in Hl. apply zlen_app_eq_nil in Hl as ->.
    rewrite length_map in Hn. rewrite map_map, app_nil_r. split_and!; [done | unfold zlen; lia|].
    by apply headers_ok.
  - intros (-> & Hn & Hes). rewrite <- (map_map header_of encode_header). apply headers_ok in Hes.
    erewrite (proj2 (grouped_headers_iff pre _ 0 _ (map header_of es) _ _));
      [|eexists; split_and!; [done | rewrite length_map; unfold zlen in Hn; lia | done..]].
    cbn [result_bind]. rewrite app_assoc.
    erewrite (proj2 (grouped_data_iff (pre ++ _) _ _ es _ Hes));
      [|exists []; by rewrite app_nil_r].
    cbn [result_bind]. rewrite (proj2 (finish_iff _ _ _ _)); [done|]. by split.
Qed.

(** ** The parser accepts exactly the format *)

Lemma v2_magic_iff payload :
  (4 <=? zlen payload) && (from_le_bytes (slice payload 0 4) =? NATIVE_AOT_PAYLOAD_BUNDLE_V2_MAGIC) = true
  <-> exists rest, payload = to_le_bytes 4 NATIVE_AOT_PAYLOAD_BUNDLE_V2_MAGIC ++ rest.
Proof.
  rewrite andb_true_iff, Z.leb_le, Z.eqb_eq. split.
  - intros [Hl E]. destruct (split_at payload 4) as (x & tl & -> & Hx); [lia|].
    rewrite slice_prefix in E by done. exists tl. by rewrite <- E, (to_from_le_small 4).
  - intros [rest ->]. rewrite slice_prefix by (by rewrite zlen_to_le_bytes).
    rewrite zlen_app, zlen_to_le_bytes. pose proof (zlen_nonneg rest). split; [lia | done].
Qed.

Lemma v1_magic_iff payload :
  bytes_start_with NATIVE_AOT_PAYLOAD_BUNDLE_MAGIC payload = true
  <-> exists rest, payload = NATIVE_AOT_PAYLOAD_BUNDLE_MAGIC ++ rest.
Proof.
  unfold bytes_start_with. rewrite bool_decide_eq_true. split.
  - intros E. exists (drop (length NATIVE_AOT_PAYLOAD_BUNDLE_MAGIC) payload).
    rewrite <- E at 1. unfold slice, zlen. rewrite drop_0, Z.sub_0_r, Nat2Z.id. by rewrite take_drop.
  - intros [rest ->]. by apply slice_prefix.
Qed.

Lemma zlen_header_v2 h n d : zlen (header_v2 h n d) = 20.
Proof. unfold header_v2. by rewrite !zlen_app, !zlen_to_le_bytes. Qed.

Lemma read_v2_header_sound rest h n d :
  let payload := to_le_bytes 4 NATIVE_AOT_PAYLOAD_BUNDLE_V2_MAGIC ++ rest in
  read_v2_header payload = Ok (h, n, d) ->
  exists tl, payload = header_v2 h n d ++ tl /\ 20 <= h <= zlen payload
             /\ in_width 16 h /\ in_width 32 n /\ in_width 64 d.
Proof.
  intros payload. unfold read_v2_header, read_bundle_u16, read_bundle_u32, read_bundle_u64, payload.
  set (m := to_le_bytes 4 NATIVE_AOT_PAYLOAD_BUNDLE_V2_MAGIC). change 4 with (zlen m) at 1.
  intros ([v c1] & E1 & E)%result_bind_Ok. apply read_bundle_int_iff in E1 as (r1 & -> & _ & ->).
  rewrite app_assoc in E. destruct (Z.eqb_spec v NATIVE_AOT_PAYLOAD_BUNDLE_V2_VERSION) as [->|]; [|done].
  apply result_bind_Ok in E as ([h' c2] & E2 & E). apply read_bundle_int_iff in E2 as (r2 & -> & Rh & ->).
  rewrite app_assoc in E. destruct (_ || _) eqn:Eh; [done|]. zbool.
  apply result_bind_Ok in E as ([n' c3] & E3 & E). apply read_bundle_int_iff in E3 as (r3 & -> & Rn & ->).
  rewrite app_assoc in E.
  apply result_bind_Ok in E as ([d' c4] & E4 & E). apply read_bundle_int_iff in E4 as (r4 & -> & Rd & ->).
  injection E as <- <- <-. exists r4. unfold header_v2. rewrite <- !app_assoc in *. by split_and!.
Qed.

Lemma read_v2_header_complete h n d tl :
  let payload := header_v2 h n d ++ tl in
  20 <= h <= zlen payload -> in_width 16 h -> in_width 32 n -> in_width 64 d ->
  read_v2_header payload = Ok (h, n, d).
Proof.
  intros payload Hh Rh Rn Rd. unfold read_v2_header, read_bundle_u16, read_bundle_u32, read_bundle_u64, payload in *.
  unfold header_v2 in *. clear payload. rewrite <- !app_assoc in *.
  set (m := to_le_bytes 4 NATIVE_AOT_PAYLOAD_BUNDLE_V2_MAGIC) in *. change 4 with (zlen m) at 1.
  rewrite read_bundle_int_app by (unfold NATIVE_AOT_PAYLOAD_BUNDLE_V2_VERSION; lia).
  cbn [result_bind]. rewrite Z.eqb_refl. cbn [negb]. rewrite (app_assoc m).
  rewrite read_bundle_int_app by apply Rh. cbn [result_bind]. rewrite (app_assoc (m ++ _)).
  replace (_ || _) with false.
  2: { symmetry. apply orb_false_iff. rewrite <- !app_assoc, !Z.ltb_ge.
       unfold NATIVE_AOT_PAYLOAD_BUNDLE_V2_HEADER_LEN. lia. }
  rewrite read_bundle_int_app by apply Rn. cbn [result_bind]. rewrite (app_assoc ((m ++ _) ++ _)).
  by rewrite read_bundle_int_app by apply Rd.
Qed.

Lemma parse_v2_iff rest es :
  let payload := to_le_bytes 4 NATIVE_AOT_PAYLOAD_BUNDLE_V2_MAGIC ++ rest in
  zlen payload <= usize_max ->
  parse_payload_bundle_borrowed payload = Ok es <->
  entries_ok es /\ exists ext, in_width 16 (20 + zlen ext) /\ payload = bundle_v2 ext es.
Proof.
  intros payload Hmax. unfold parse_payload_bundle_borrowed.
  rewrite (proj2 (v2_magic_iff payload)) by (by exists rest).
  change NATIVE_AOT_PAYLOAD_BUNDLE_V2_HEADER_LEN with 20. split.
  - intros ([[h n] d] & (tl & Ep & Hh & Rh & Rn & Rd)%read_v2_header_sound & E)%result_bind_Ok.
    fold payload in Ep, Hh. rewrite Ep in *. rewrite zlen_app, zlen_header_v2 in Hh.
    destruct (split_at tl (h - 20)) as (ext & r & -> & Hext); [lia|].
    rewrite app_assoc in E, Hmax.
    replace h with (zlen (header_v2 h n d ++ ext)) in E at 2 by (rewrite zlen_app, zlen_header_v2; lia).
    apply parse_interleaved_iff in E as (-> & Hn & Hes & Hd); [|done | apply Rn].
    rewrite <- Hn, (Hd d eq_refl) in *. split; [by split|]. exists ext.
    unfold bundle_v2, NATIVE_AOT_PAYLOAD_BUNDLE_V2_HEADER_LEN. by replace (20 + zlen ext) with h by lia.
  - intros ([Hes Hn] & ext & Hext & Ep). rewrite Ep in *. unfold bundle_v2 in *.
    pose proof (data_bytes_bound es) as Hd. pose proof (zlen_nonneg ext) as Hx.
    pose proof Hmax as Hmax2. rewrite !zlen_app, zlen_header_v2 in Hmax2.
    rewrite read_v2_header_complete; try done.
    + cbn [result_bind]. rewrite app_assoc in *.
      set (q := header_v2 _ _ _ ++ ext) in *.
      replace (NATIVE_AOT_PAYLOAD_BUNDLE_V2_HEADER_LEN + zlen ext) with (zlen q)
        by (unfold q; by rewrite zlen_app, zlen_header_v2).
      apply parse_interleaved_iff; [done | apply Hn|]. split_and!; try done. naive_solver.
    + rewrite !zlen_app, zlen_header_v2. unfold NATIVE_AOT_PAYLOAD_BUNDLE_V2_HEADER_LEN.
      pose proof (zlen_nonneg (interleaved es)). lia.
    + unfold in_width, usize_max, u64_max, u_max in *. lia.
Qed.

Lemma v1_not_v2 rest :
  (4 <=? zlen (NATIVE_AOT_PAYLOAD_BUNDLE_MAGIC ++ rest))
  && (from_le_bytes (slice (NATIVE_AOT_PAYLOAD_BUNDLE_MAGIC ++ rest) 0 4) =? NATIVE_AOT_PAYLOAD_BUNDLE_V2_MAGIC)
  = false.
Proof. apply andb_false_iff. right. reflexivity. Qed.

Lemma parse_v1_iff rest es :
  let payload := NATIVE_AOT_PAYLOAD_BUNDLE_MAGIC ++ rest in
  zlen payload <= usize_max ->
  parse_payload_bundle_borrowed payload = Ok es <->
  entries_ok es /\
  (payload = bundle_v1 grouped es
   \/ payload = bundle_v1 interleaved es
      /\ forall es', entries_ok es' -> payload <> bundle_v1 grouped es').
Proof.
  intros payload Hmax. unfold parse_payload_bundle_borrowed, payload.
  rewrite v1_not_v2, (proj2 (v1_magic_iff _)) by (by exists rest).
  unfold read_bundle_u32, bundle_v1. set (m := NATIVE_AOT_PAYLOAD_BUNDLE_MAGIC) in *. split.
  - intros ([n c] & (r & -> & Rn & ->)%read_bundle_int_iff & E)%result_bind_Ok.
    unfold payload in Hmax. rewrite app_assoc in E, Hmax.
    destruct (parse_payload_bundle_grouped_entries _ _ _) as [es'|ge] eqn:Eg.
    + injection E as ->. apply parse_grouped_iff in Eg as (-> & <- & Hes); [|lia]. by split; [|left].
    + destruct (parse_payload_bundle_interleaved_entries _ _ _ _) as [es'|] eqn:Ei; [|done].
      injection E as ->. apply parse_interleaved_iff in Ei as (-> & <- & Hes & _); [|done|lia].
      split; [done|]. right. split; [done|]. intros es' [Hok Hn] Heq. apply app_inv_head in Heq.
      apply app_inj_1 in Heq as [Ht Hg]; [|by rewrite !length_to_le_bytes].
      apply (f_equal from_le_bytes) in Ht. rewrite !from_to_le_small in Ht by (done || apply Hn).
      assert (Hp : parse_payload_bundle_grouped_entries ((m ++ to_le_bytes 4 (zlen es)) ++ interleaved es)
                (zlen (m ++ to_le_bytes 4 (zlen es))) (zlen es) = Ok es')
        by (by apply parse_grouped_iff; [lia|]).
      congruence.
  - intros [[Hes Hn] Hf].
    assert (Hp : exists layout, payload = m ++ to_le_bytes 4 (zlen es) ++ layout /\
      (layout = grouped es \/ layout = interleaved es
       /\ forall es', entries_ok es' -> payload <> m ++ to_le_bytes 4 (zlen es') ++ grouped es')).
    { destruct Hf as [Hf|[Hf Hg]]; eexists; eauto. }
    destruct Hp as (layout & Ep & Hl). unfold payload in Ep. apply app_inv_head in Ep as ->.
    rewrite read_bundle_int_app by apply Hn. cbn [result_bind]. unfold payload in *. rewrite app_assoc in *.
    destruct Hl as [->|[-> Hno]].
    + by rewrite (proj2 (parse_grouped_iff _ _ _ es (proj1 Hn))).
    + destruct (parse_payload_bundle_grouped_entries _ _ _) as [es'|ge] eqn:Eg.
      * apply parse_grouped_iff in Eg as (Hg & Hn' & Hes'); [|apply Hn].
        destruct (Hno es'); [split; [done | by rewrite Hn']|]. by rewrite Hn', <- Hg, <- app_assoc.
      * by rewrite (proj2 (parse_interleaved_iff _ _ _ None es Hmax (proj1 Hn))).
Qed.

(** What the parser is meant to accept: a V2 bundle, a V1 bundle with the grouped
    layout, or one with the interleaved layout that has no grouped reading. *)
Inductive bundle_format (payload : bytes) (es : list entry) : Prop :=
| format_v2 ext :
    in_width 16 (20 + zlen ext) -> payload = bundle_v2 ext es -> bundle_format payload es
| format_v1_grouped : payload = bundle_v1 grouped es -> bundle_format payload es
| format_v1_interleaved :
    payload = bundle_v1 interleaved es ->
    (forall es', entries_ok es' -> payload <> bundle_v1 grouped es') -> bundle_format payload es.


(** A V1 bundle in the interleaved layout can have a grouped reading too, and then
    the grouped one is taken: here the data of entry [a] look like the header of an
    entry [x], and [b] is lost. *)
Example v1_layouts_overlap :
  parse_payload_bundle_borrowed (bundle_v1 interleaved [("a", encode_header ("x", 0)); ("b", [])])
  = Ok [("a", encode_header ("b", 0)); ("x", [])].
Proof. vm_compute. reflexivity. Qed.

(** ** Entries stay in the directory of their target *)

Definition entry_dir (target : path) : path :=
  default [] (path_parent target) ++ [Normal (stem_or_asset target)].

Lemma safe_path_normal name :
  exists rel, safe_payload_bundle_path name = map Normal rel /\ rel <> [].
Proof.
  unfold safe_payload_bundle_path.
  assert (H : forall l, exists rel, filter (fun c => is_normal c = true) l = map Normal rel).
  { induction l as [|c l [rel IH]]; [by exists []|]. rewrite filter_cons.
    destruct c; case_decide; simpl in *; try done; rewrite IH; [by exists rel..|]. by exists (name0 :: rel). }
  destruct (H (components name)) as [[|w rel] ->]; simpl.
  - by exists ["payload.bin"].
  - by exists (w :: rel).
Qed.

Lemma path_join_normal p rel : path_join p (map Normal rel) = p ++ map Normal rel.
Proof. unfold path_join. destruct rel; simpl; [by destruct p | by destruct p]. Qed.

Lemma entry_target_inside target name :
  exists rel, rel <> [] /\ payload_bundle_entry_target target name = entry_dir target ++ map Normal rel.
Proof.
  unfold payload_bundle_entry_target, entry_dir. destruct (safe_path_normal name) as (rel & -> & Hne).
  exists rel. split; [done|]. change [Normal (stem_or_asset target)] with (map Normal [stem_or_asset target]).
  by rewrite !path_join_normal.
Qed.

Lemma write_entries_outside io target es fs fs' r q :
  write_entries io fs target es = (fs', r) -> fs' !! q <> fs !! q ->
  exists e, e ∈ es /\ q = payload_bundle_entry_target target e.1.
Proof.
  revert fs fs' r. induction es as [|[name data] es IH]; intros fs fs' r E Hq; cbn [write_entries] in E.
  - by simplify_eq.
  - destruct (io _); [by simplify_eq|].
    destruct (write_entries _ _ _ es) as [fs2 r2] eqn:E2. injection E as <- <-.
    destruct (decide (q = payload_bundle_entry_target target name)) as [->|Hne].
    + exists (name, data). split; [by left | done].
    + destruct (IH _ _ _ E2) as (e & He & ->); [by rewrite lookup_insert_ne|].
      exists e. split; [by right | done].
Qed.

Lemma write_entries_stored io target es fs fs' written :
  write_entries io fs target es = (fs', Ok written) ->
  written = map (fun e => payload_bundle_entry_target target e.1) es
  /\ (NoDup written ->
      forall e, e ∈ es -> fs' !! payload_bundle_entry_target target e.1 = Some e.2).
Proof.
  revert fs fs' written. induction es as [|[name data] es IH]; intros fs fs' written E; cbn [write_entries] in E.
  - simplify_eq. split; [done|]. intros _ e He. by apply elem_of_nil in He.
  - destruct (io _); [by simplify_eq|].
    destruct (write_entries _ _ _ es) as [fs2 r2] eqn:E2. injection E as <- E.
    apply result_bind_Ok in E as (w & -> & E). injection E as <-.
    destruct (IH _ _ _ E2) as [-> Hst]. split; [done|]. cbn [map]. rewrite NoDup_cons. intros [Hni Hnd] e He.
    apply elem_of_cons in He as [->|He]; [|by apply Hst].
    destruct (decide (fs2 !! payload_bundle_entry_target target name = Some data)) as [|Hne]; [done|].
    exfalso. edestruct write_entries_outside as (e & He & Eq); [exact E2 | |].
    + rewrite lookup_insert_eq. exact Hne.
    + apply Hni. rewrite Eq. apply list_elem_of_fmap. by exists e.
Qed.

(** Unpacking a payload bundle writes only files strictly inside the directory
    named after the target (its name without extension), whatever the names in the
    bundle are: absolute names and [..] cannot escape.  When it succeeds the written
    files are reported in order, one per entry, and if they are pairwise different
    each of them holds the data of its entry. *)
Theorem write_payload_bundle_confined io fs target payload fs' r :
  write_payload_bundle io fs target payload = (fs', r) ->
  (forall q, fs' !! q <> fs !! q ->
     exists rel, rel <> [] /\ q = entry_dir target ++ map Normal rel)
  /\ (forall written, r = Ok written -> exists es,
        parse_payload_bundle_borrowed payload = Ok es
        /\ written = map (fun e => payload_bundle_entry_target target e.1) es
        /\ (NoDup written -> forall e, e ∈ es ->
              fs' !! payload_bundle_entry_target target e.1 = Some e.2)).
Proof.
  unfold write_payload_bundle. intros E.
  destruct (parse_payload_bundle_borrowed payload) as [es|e] eqn:Ep.
  - split.
    + intros q Hq. eapply write_entries_outside in Hq as (e & _ & ->); [|done].
      destruct (entry_target_inside target e.1) as (rel & Hne & ->). eauto.
    + intros written ->. exists es. by apply write_entries_stored in E.
  - injection E as <- <-. by split.
Qed.

Lemma write_payload_bundle_confined_witness :
  let target := components "/out/jp/clip.asset" in
  let es := [("../../etc/passwd", [Byte.x41]); ("/b/./c.png", [Byte.x42])] in
  let after := write_payload_bundle (fun _ => None) ∅ target (bundle_v2 [] es) in
  after.2 = Ok [components "/out/jp/clip/etc/passwd"; components "/out/jp/clip/b/c.png"]
  /\ (forall q, after.1 !! q <> (∅ : out_files) !! q ->
     exists rel, rel <> [] /\ q = entry_dir target ++ map Normal rel).
Proof.
  intros target es after. split; [vm_compute; reflexivity|].
  apply (write_payload_bundle_confined (fun _ => None) ∅ target (bundle_v2 [] es) after.1 after.2
           (surjective_pairing after)).
Defined.

(** A bundle in each layout, read back. *)
Definition sample_entries : list entry := [("x/y.png", [Byte.x01; Byte.x02]); ("z", [])].


(** ** Pixels *)

Lemma lookup_slice {A} (l : list A) a b i :
  (i < Z.to_nat (b - a))%nat -> slice l a b !! i = l !! (Z.to_nat a + i)%nat.
Proof. unfold slice. intros. rewrite lookup_take_lt by done. by rewrite lookup_drop. Qed.

(** What a parsed image satisfies. *)
Definition rgba_ok (payload : bytes) (raw : NativeRgbaIr) : Prop :=
  0 <= rgba_width raw /\ 0 <= rgba_height raw /\ height_usize raw = rgba_height raw
  /\ row_bytes raw = rgba_width raw * 4 /\ row_bytes raw <= stride raw
  /\ pixels raw = slice payload 36 (36 + stride raw * height_usize raw)
  /\ 36 + stride raw * height_usize raw <= zlen payload.

Lemma parse_rgba_ok payload raw :
  parse_native_rgba_ir_payload payload = Ok raw -> rgba_ok payload raw.
Proof.
  unfold parse_native_rgba_ir_payload. change NATIVE_AOT_RGBA_IR_HEADER_LEN with 36.
  destruct (zlen payload <? 36); [done|]. destruct (negb (bytes_start_with _ _)); [done|].
  pose proof (from_le_bytes_range (slice payload 16 (16 + 4))).
  pose proof (from_le_bytes_range (slice payload 20 (20 + 4))).
  set (w := from_le_bytes (slice payload 16 _)) in *. set (h := from_le_bytes (slice payload 20 _)) in *.
  set (st := from_le_bytes (slice payload 24 _)). destruct (negb _); [done|].
  unfold checked_usize. intros (rb & E1 & E)%result_bind_Ok.
  destruct (w * 4 <=? usize_max); [|done]. injection E1 as <-.
  destruct (Z.ltb_spec st (w * 4)); [done|]. apply result_bind_Ok in E as (pb & E2 & E).
  destruct (st * h <=? usize_max); [|done]. destruct (st * h + 36 <=? usize_max); [|done].
  injection E2 as <-. destruct (Z.ltb_spec (zlen payload) (st * h + 36)); [done|]. injection E as <-.
  unfold rgba_ok. simpl. split_and!; try lia. f_equal; lia.
Qed.

Lemma zlen_copy_rows raw y n :
  0 <= y -> 0 <= row_bytes raw <= stride raw -> (y + Z.of_nat n) * stride raw <= zlen (pixels raw) ->
  zlen (copy_rows raw y n) = Z.of_nat n * row_bytes raw.
Proof.
  intros Hy Hs. revert y Hy. induction n as [|n IH]; intros y Hy Hl; cbn [copy_rows]; [done|].
  rewrite zlen_app, zlen_slice, IH by nia. lia.
Qed.

Lemma lookup_copy_rows raw y n k j :
  0 <= y -> 0 <= k < Z.of_nat n -> 0 <= j < row_bytes raw -> row_bytes raw <= stride raw ->
  (y + Z.of_nat n) * stride raw <= zlen (pixels raw) ->
  copy_rows raw y n !! Z.to_nat (k * row_bytes raw + j) = pixels raw !! Z.to_nat ((y + k) * stride raw + j).
Proof.
  intros Hy Hk Hj Hs. revert y k Hy Hk. induction n as [|n IH]; intros y k Hy Hk Hl; [lia|]. cbn [copy_rows].
  set (row := slice _ _ _).
  assert (Hrow : zlen row = row_bytes raw) by (unfold row; rewrite zlen_slice; nia).
  unfold zlen in Hrow. destruct (decide (k = 0)) as [->|Hk0].
  - rewrite lookup_app_l by lia. unfold row. rewrite lookup_slice by nia. f_equal. nia.
  - rewrite lookup_app_r by nia. replace (y + k) with (y + 1 + (k - 1)) by lia.
    rewrite <- (IH (y + 1) (k - 1)) by (try lia; nia). f_equal. nia.
Qed.

(** The pixel at column [x] and row [y], channel [c], of the payload itself. *)
Definition payload_channel (payload : bytes) (stride x y c : Z) : option byte :=
  payload !! Z.to_nat (36 + y * stride + 4 * x + c).

Lemma zlen_contiguous payload raw :
  rgba_ok payload raw ->
  zlen (native_rgba_ir_contiguous_pixels raw) = rgba_width raw * rgba_height raw * 4.
Proof.
  intros (Hw & Hh & Hu & Hr & Hs & Hp & Hl). unfold native_rgba_ir_contiguous_pixels.
  assert (Hlen : zlen (pixels raw) = stride raw * height_usize raw) by (rewrite Hp, zlen_slice; nia).
  destruct (Z.eqb_spec (stride raw) (row_bytes raw)) as [E|E].
  - rewrite zlen_slice; nia.
  - rewrite zlen_copy_rows; nia.
Qed.

(** Both ways [native_rgba_ir_contiguous_pixels] copies an image (borrowing it
    when rows are not padded, gathering row by row when they are) are equivalent to
    the reference "pixel (x, y) of the image is pixel (x, y) of the payload": the
    copy has exactly [width * height * 4] bytes and every channel of every pixel is
    the byte at [36 + y * stride + 4 * x + c] of the payload. *)
Theorem rgba_pixels_exact payload raw :
  parse_native_rgba_ir_payload payload = Ok raw ->
  let px := native_rgba_ir_contiguous_pixels raw in
  zlen px = rgba_width raw * rgba_height raw * 4 /\
  forall x y c, 0 <= x < rgba_width raw -> 0 <= y < rgba_height raw -> 0 <= c < 4 ->
    px !! Z.to_nat (4 * (y * rgba_width raw + x) + c) = payload_channel payload (stride raw) x y c
    /\ is_Some (payload_channel payload (stride raw) x y c).
Proof.
  intros Hok%parse_rgba_ok px. split; [by eapply zlen_contiguous|]. intros x y c Hx Hy Hc.
  destruct Hok as (Hw & Hh & Hu & Hr & Hs & Hp & Hl). unfold payload_channel. split.
  2: { apply lookup_lt_is_Some_2. unfold zlen in Hl. nia. }
  assert (Hlen : zlen (pixels raw) = stride raw * height_usize raw) by (rewrite Hp, zlen_slice; nia).
  replace (4 * (y * rgba_width raw + x) + c) with (y * row_bytes raw + (4 * x + c)) by lia.
  assert (Hpix : pixels raw !! Z.to_nat (y * stride raw + (4 * x + c))
                 = payload !! Z.to_nat (36 + y * stride raw + 4 * x + c)).
  { rewrite Hp, lookup_slice by nia. f_equal. nia. }
  rewrite <- Hpix. unfold px, native_rgba_ir_contiguous_pixels.
  destruct (Z.eqb_spec (stride raw) (row_bytes raw)) as [E|E].
  - rewrite lookup_slice by nia. f_equal. nia.
  - rewrite (lookup_copy_rows raw 0 _ y (4 * x + c)) by nia. done.
Qed.

(** Every image that parses is converted: the last error of
    [decode_native_rgba_ir_payload] cannot occur. *)
Theorem decode_rgba_total `{RgbaImage img} payload raw :
  parse_native_rgba_ir_payload payload = Ok raw ->
  exists i, decode_native_rgba_ir_payload payload = Ok i.
Proof.
  intros E. unfold decode_native_rgba_ir_payload. rewrite E. cbn [result_bind].
  destruct (proj2 (from_raw_spec (rgba_width raw) (rgba_height raw) (native_rgba_ir_contiguous_pixels raw)))
    as [i ->]; [|by exists i]. erewrite zlen_contiguous by (by apply parse_rgba_ok). done.
Qed.

(** A 1x2 image whose rows carry four bytes of padding. *)
Definition padded_image : bytes :=
  NATIVE_AOT_RGBA_IR_MAGIC ++ to_le_bytes 4 1 ++ to_le_bytes 4 2 ++ to_le_bytes 4 8 ++ to_le_bytes 4 1
  ++ to_le_bytes 4 0 ++ map byte_of_Z [1; 2; 3; 4; 0; 0; 0; 0; 5; 6; 7; 8; 0; 0; 0; 0].

Lemma rgba_pixels_exact_witness :
  exists raw, parse_native_rgba_ir_payload padded_image = Ok raw
  /\ native_rgba_ir_contiguous_pixels raw = map byte_of_Z [1; 2; 3; 4; 5; 6; 7; 8]
  /\ zlen (native_rgba_ir_contiguous_pixels raw) = rgba_width raw * rgba_height raw * 4.
Proof.
  eexists. split; [vm_compute; reflexivity|]. split; [vm_compute; reflexivity|].
  apply (rgba_pixels_exact padded_image). vm_compute. reflexivity.
Defined.
