(* ===== verification/FfiTypes.v ===== *)
(** * AssetStudio requests, responses and type selectors

    The data the exporter exchanges with the AssetStudio library
    ([crates/assetstudio-ffi/src/types.rs]) and the classification of assets by
    type name ([core/export_pipeline/implementation/assetstudio.rs]): selectors,
    read kinds and the requests built from them.  Counters and timings that are
    only reported are left out of the records. *)

From Stdlib Require Import Ascii.
From S2P Require Import Prelude RustStr Errors.

Local Open Scope string_scope.
Local Open Scope list_scope.

(** ** Data *)

(** [enum AssetStudioFfiError] and its conversion. *)
Inductive AssetStudioFfiError : Type :=
| FfiMessage (message : string)
| FfiSerializeError (source : string)
| FfiSpawn (program : string) (source : io_error)
| FfiCommandFailed (program status stderr : string)
| FfiIo (path : string) (source : io_error).

#[export] Instance AssetStudioFfiError_eq_dec : EqDecision AssetStudioFfiError.
Proof. solve_decision. Defined.

Definition export_error_from (error : AssetStudioFfiError) : ExportPipelineError :=
  match error with
  | FfiMessage message => ExportAssetStudioFfi message
  | FfiSerializeError source => ExportFfiSerialize source
  | FfiSpawn program source => ExportSpawn program source
  | FfiCommandFailed program status stderr => ExportCommandFailed program status stderr
  | FfiIo path source => ExportIo path source
  end.

Record AssetStudioFfiAssetInfo : Type := mkAssetInfo {
  asset_index : Z;
  asset_name : option string;
  asset_container : option string;
  asset_type : option string;
  type_id : Z;
  path_id : Z;
  unique_id : option string;
  asset_size : Z;
  source_file : option string
}.

#[export] Instance AssetStudioFfiAssetInfo_eq_dec : EqDecision AssetStudioFfiAssetInfo.
Proof. solve_decision. Defined.

Record AssetStudioFfiContextOpenRequest : Type := mkOpenRequest {
  input_path : string;
  open_asset_types : list string;
  open_unity_version : option string;
  filter_exclude_mode : bool;
  filter_with_regex : bool;
  filter_by_name : option string;
  filter_by_container : option string;
  filter_by_path_ids : list Z;
  load_all_assets : bool;
  include_assets : bool
}.

Record ReadObjectItemRequest : Type := mkReadItem {
  item_path_id : Z;
  item_kind : string;
  item_image_format : string
}.

(** [enum AssetStudioFfiRequest], each variant with the fields of its struct. *)
Inductive AssetStudioFfiRequest : Type :=
| ContextOpen (request : AssetStudioFfiContextOpenRequest)
| ContextListObjects (context_id offset limit : Z)
| ContextClose (context_id : Z)
| ContextReadObject (context_id : Z) (item : ReadObjectItemRequest)
| ContextReadObjects (context_id : Z) (objects : list ReadObjectItemRequest).

Record OpenResponse : Type := mkOpenResponse {
  open_success : bool;
  context_id : Z;
  exportable_asset_count : Z;
  open_assets : list AssetStudioFfiAssetInfo;
  has_more_assets : bool;
  open_error : option string
}.

Record ListResponse : Type := mkListResponse {
  list_success : bool;
  next_offset : option Z;
  list_assets : list AssetStudioFfiAssetInfo;
  list_error : option string
}.

Record ReadResponse : Type := mkReadResponse {
  read_success : bool;
  payload_kind : option string;
  suggested_extension : option string;
  read_error : option string
}.

Record ReadBatchResponse : Type := mkReadBatchResponse {
  batch_success : bool;
  reads : list ReadResponse;
  batch_failed_count : Z;
  batch_error : option string
}.

Record CloseResponse : Type := mkCloseResponse {
  close_success : bool;
  close_error : option string
}.

(** [enum AssetStudioFfiResponse] and its projections. *)
Inductive AssetStudioFfiResponse : Type :=
| RespOpen (r : OpenResponse)
| RespList (r : ListResponse)
| RespClose (r : CloseResponse)
| RespRead (r : ReadResponse)
| RespReadBatch (r : ReadBatchResponse).

Definition unexpected_native_response {A} : result A AssetStudioFfiError :=
  Err (FfiMessage "ffi worker returned unexpected response").

Definition into_context_open (r : AssetStudioFfiResponse) : result OpenResponse AssetStudioFfiError :=
  match r with RespOpen r => Ok r | _ => unexpected_native_response end.
Definition into_context_list_objects (r : AssetStudioFfiResponse) : result ListResponse AssetStudioFfiError :=
  match r with RespList r => Ok r | _ => unexpected_native_response end.
Definition into_context_close (r : AssetStudioFfiResponse) : result CloseResponse AssetStudioFfiError :=
  match r with RespClose r => Ok r | _ => unexpected_native_response end.
Definition into_object_read (r : AssetStudioFfiResponse) : result ReadResponse AssetStudioFfiError :=
  match r with RespRead r => Ok r | _ => unexpected_native_response end.
Definition into_object_read_batch (r : AssetStudioFfiResponse) : result ReadBatchResponse AssetStudioFfiError :=
  match r with RespReadBatch r => Ok r | _ => unexpected_native_response end.

(** [AssetStudioFfiOperation::as_str] of [request.operation()]. *)
Definition operation_str (r : AssetStudioFfiRequest) : string :=
  match r with
  | ContextOpen _ => "context_open"
  | ContextListObjects _ _ _ => "context_list_objects"
  | ContextClose _ => "context_close"
  | ContextReadObject _ _ => "context_read_object"
  | ContextReadObjects _ _ => "context_read_objects"
  end.

(** [struct AssetStudioFfiObjectReadOutput] and the worker's answer to a call. *)
Record ObjectReadOutput : Type := mkObjectReadOutput {
  read_response : ReadResponse;
  read_payload : bytes
}.

Record WorkerOutput : Type := mkWorkerOutput {
  wo_status : string;
  wo_status_success : bool;
  wo_response : AssetStudioFfiResponse;
  wo_stderr : string;
  wo_payload : bytes;
  wo_payload_file : option string
}.

(** [struct NativeSkippedObjectRead]. *)
Record NativeSkippedObjectRead : Type := mkSkipped {
  skipped_path_id : Z;
  skipped_type : option string;
  skipped_name : option string;
  skipped_container : option string;
  skipped_error : string
}.

Definition skip_asset (asset : AssetStudioFfiAssetInfo) (error : string) : NativeSkippedObjectRead :=
  mkSkipped (path_id asset) (asset_type asset) (asset_name asset) (asset_container asset) error.

(** ** Type names *)

Section Selectors.
Context `{UnicodeCase}.

(** [normalize_assetstudio_type_name]; [normalize_semantic_path_component] of
    [paths.rs] has the same body. *)
Definition normalize_assetstudio_type_name (value : string) : string :=
  concat_chars (map char_to_lowercase
    (List.filter (fun ch => negb (String.eqb ch "_") && negb (String.eqb ch "-")
                            && negb (char_is_whitespace ch)) (chars (trim value)))).

(** The further type names a normalized selector stands for. *)
Definition selector_names (selector : string) : list string :=
  if existsb (String.eqb selector) ["tex2d"; "texture2d"] then ["texture2d"]
  else if existsb (String.eqb selector) ["tex2darray"; "texture2darray"]
  then ["texture2darray"; "texture2darrayimage"]
  else if String.eqb selector "sprite" then ["sprite"]
  else if String.eqb selector "textasset" then ["textasset"]
  else if existsb (String.eqb selector) ["monobehaviour"; "monobehavior"] then ["monobehaviour"]
  else if existsb (String.eqb selector) ["audio"; "audioclip"] then ["audioclip"]
  else if existsb (String.eqb selector) ["video"; "videoclip"] then ["videoclip"]
  else if String.eqb selector "movietexture" then ["movietexture"]
  else if String.eqb selector "font" then ["font"]
  else if String.eqb selector "shader" then ["shader"; "shadervariantcollection"]
  else if String.eqb selector "mesh" then ["mesh"]
  else if String.eqb selector "animator" then ["animator"; "animatorcontroller"]
  else [].

Definition assetstudio_type_selector_matches (selector atype : string) : bool :=
  let selector := trim selector in
  if eq_ignore_ascii_case selector "all" then true
  else
    let normalized_selector := normalize_assetstudio_type_name selector in
    let normalized_asset_type := normalize_assetstudio_type_name atype in
    if String.eqb normalized_selector normalized_asset_type then true
    else existsb (String.eqb normalized_asset_type) (selector_names normalized_selector).

(** [asset.asset_type.as_deref().is_some_and(|t| ...)]. *)
Definition type_is (f : string -> bool) (asset : AssetStudioFfiAssetInfo) : bool :=
  match asset_type asset with Some t => f t | None => false end.

Definition assetstudio_object_mode_type_enabled (asset : AssetStudioFfiAssetInfo)
    (configured : list string) : bool :=
  type_is (fun t => existsb (fun c => assetstudio_type_selector_matches c t) configured) asset.

Definition assetstudio_object_mode_supported_type (t : string) : bool := negb (is_empty (trim t)).

Definition is_native_object_supported_asset : AssetStudioFfiAssetInfo -> bool :=
  type_is assetstudio_object_mode_supported_type.

Definition is_native_image_asset : AssetStudioFfiAssetInfo -> bool :=
  type_is (fun t => assetstudio_type_selector_matches "Texture2D" t
                    || assetstudio_type_selector_matches "Texture2DArray" t
                    || assetstudio_type_selector_matches "Sprite" t).

(** [native_image_format_for_asset] ignores both of its arguments. *)
Definition NATIVE_AOT_DEFAULT_IMAGE_FORMAT : string := "raw_rgba".
Definition native_image_format_for_asset (asset : AssetStudioFfiAssetInfo) (configured : string) : string :=
  NATIVE_AOT_DEFAULT_IMAGE_FORMAT.

Definition is_native_aot_non_bmp_image_read (asset : AssetStudioFfiAssetInfo) (image_format : string) : bool :=
  is_native_image_asset asset
  && negb (String.eqb (native_image_format_for_asset asset image_format) "bmp").

(** ** Read kinds *)

Definition normalize_native_read_kind (kind : string) : string := str_to_lowercase (trim kind).

Definition default_native_read_kind (atype : string) : string :=
  let n := normalize_assetstudio_type_name atype in
  if existsb (String.eqb n) ["texture2d"; "texture2darray"; "texture2darrayimage"; "sprite"] then "image"
  else if String.eqb n "textasset" then "text_bytes"
  else if existsb (String.eqb n) ["monobehaviour"; "monobehavior"] then "typetree_json"
  else if String.eqb n "audioclip" then "audio"
  else if existsb (String.eqb n) ["videoclip"; "movietexture"] then "video"
  else if String.eqb n "font" then "font"
  else if existsb (String.eqb n) ["shader"; "shadervariantcollection"] then "shader"
  else if String.eqb n "mesh" then "obj"
  else if String.eqb n "animator" then "fbx"
  else "typetree_json".

(** [kinds] is the [BTreeMap] in the order of its keys. *)
Definition native_read_kind_for_asset (asset : AssetStudioFfiAssetInfo)
    (kinds : list (string * string)) : string :=
  let t := unwrap_or_default (asset_type asset) in
  let is_all (e : string * string) := eq_ignore_ascii_case (trim e.1) "all" in
  match List.find (fun e => negb (is_all e) && assetstudio_type_selector_matches e.1 t) kinds with
  | Some e => normalize_native_read_kind e.2
  | None =>
      match List.find is_all kinds with
      | Some e => normalize_native_read_kind e.2
      | None => default_native_read_kind t
      end
  end.

Definition native_object_read_batch_request (context_id : Z) (chunk : list AssetStudioFfiAssetInfo)
    (read_kinds : list (string * string)) (image_format : string) : AssetStudioFfiRequest :=
  ContextReadObjects context_id
    (map (fun asset => mkReadItem (path_id asset) (native_read_kind_for_asset asset read_kinds)
                         (native_image_format_for_asset asset image_format)) chunk).

Definition assetstudio_object_mode_known_unreadable_type (t : string) : bool :=
  existsb (String.eqb t)
    ["Animation"; "AnimationClip"; "AnimatorController"; "AssetBundle"; "AudioListener"; "Avatar";
     "Camera"; "Canvas"; "CanvasRenderer"; "Cubemap"; "GameObject"; "Material"; "MeshFilter";
     "MeshRenderer"; "MonoScript"; "ParticleSystem"; "ParticleSystemRenderer"; "PlayableDirector";
     "RectTransform"; "ShaderVariantCollection"; "SkinnedMeshRenderer"; "SortingGroup"; "SpriteMask";
     "SpriteRenderer"; "TextMesh"; "Texture3D"; "Transform"].

Definition native_skipped_unsupported_asset (asset : AssetStudioFfiAssetInfo)
  : option NativeSkippedObjectRead :=
  match asset_type asset with
  | None => None
  | Some t =>
      Some (skip_asset asset
        (if assetstudio_object_mode_known_unreadable_type t
         then "native object mode does not support reading " +:+ t +:+ " yet"
         else "native object mode has no read strategy for " +:+ t))
  end.

(** ** Texture arrays

    An image of an array is covered by the array, if both are in one container. *)
Definition normalized_native_asset_container (asset : AssetStudioFfiAssetInfo) : option string :=
  match asset_container asset with
  | Some c => let c := trim (replace_char "\" "/" c) in if is_empty c then None else Some c
  | None => None
  end.

Definition texture2d_array_parent_containers (assets : list AssetStudioFfiAssetInfo) : list string :=
  omap normalized_native_asset_container
    (List.filter (type_is (fun t => String.eqb (normalize_assetstudio_type_name t) "texture2darray")) assets).

Definition is_texture2d_array_image_with_parent (asset : AssetStudioFfiAssetInfo)
    (parents : list string) : bool :=
  type_is (fun t => String.eqb (normalize_assetstudio_type_name t) "texture2darrayimage") asset
  && match normalized_native_asset_container asset with
     | Some c => existsb (String.eqb c) parents
     | None => false
     end.
End Selectors.

(** [assetstudio_export_type_selector]. *)
Definition assetstudio_export_type_selector (atype : string) : option string :=
  let t := to_ascii_lowercase (trim atype) in
  if existsb (String.eqb t) ["texture2d"; "tex2d"] then Some "tex2d"
  else if existsb (String.eqb t) ["texture2darray"; "tex2darray"; "tex2d_array"] then Some "tex2dArray"
  else if String.eqb t "sprite" then Some "sprite"
  else if existsb (String.eqb t) ["textasset"; "text_asset"] then Some "textAsset"
  else if existsb (String.eqb t) ["monobehaviour"; "monobehavior"; "mono_behaviour"; "mono_behavior"]
  then Some "monoBehaviour"
  else if String.eqb t "font" then Some "font"
  else if String.eqb t "shader" then Some "shader"
  else if existsb (String.eqb t) ["audioclip"; "audio"] then Some "audio"
  else if existsb (String.eqb t) ["videoclip"; "video"] then Some "video"
  else if existsb (String.eqb t) ["movietexture"; "movie_texture"] then Some "movieTexture"
  else if String.eqb t "mesh" then Some "mesh"
  else if String.eqb t "animator" then Some "animator"
  else None.

(** ** Worker failures *)

Definition is_native_worker_signal_failure (error : ExportPipelineError) : bool :=
  match error with
  | ExportCommandFailed program status _ =>
      contains "assetstudio_ffi_worker" program
      && (contains "signal:" status || contains "SIGSEGV" status)
  | _ => false
  end.

(** ** Facts *)

Section SelectorFacts.
Context `{UnicodeCase}.

Lemma image_read_is_image asset fmt :
  is_native_aot_non_bmp_image_read asset fmt = is_native_image_asset asset.
Proof. unfold is_native_aot_non_bmp_image_read. simpl. by rewrite andb_true_r. Qed.

(** An [all] selector, and a selector equal to the type name, always match. *)
Lemma selector_matches_self t : assetstudio_type_selector_matches t (trim t) = true.
Proof.
  unfold assetstudio_type_selector_matches. destruct (eq_ignore_ascii_case _ _); [done|].
  by rewrite String.eqb_refl.
Qed.
End SelectorFacts.

Example selectors_example :
  let m := @assetstudio_type_selector_matches ascii_case in
  m "tex2d" "Texture2D" = true /\ m " ALL " "Whatever" = true /\ m "Mono_Behavior" "MonoBehaviour" = true
  /\ m "animator" "AnimatorController" = true /\ m "Texture2D" "Texture2DArray" = false
  /\ @native_read_kind_for_asset ascii_case
       (mkAssetInfo 0 (Some "x") None (Some "Sprite") 0 7 None 0 None)
       [("ALL", "Raw"); ("audio", "x")] = "raw".
Proof. repeat split; vm_compute; reflexivity. Qed.
