(* ===== verification/ExportPaths.v ===== *)
(** * Output paths of exported objects

    [core/export_pipeline/implementation/paths.rs] and the path functions of
    [payload.rs] and [implementation.rs]: from the container, name and type of an
    object to the file it is written to.  Paths are [Paths.path]s; a string joined
    to a path is read with [components]. *)

From Stdlib Require Import Ascii.
From S2P Require Import Prelude RustStr Errors Paths PayloadBundle FfiTypes.

Local Open Scope string_scope.
Local Open Scope list_scope.
Local Open Scope rust_scope.
#[local] Arguments String.append : simpl nomatch.

(** [path.join(s)] for a string. *)
Definition join_str (p : path) (s : string) : path := path_join p (components s).

(** [path.file_stem()...filter(|v| !v.is_empty())]. *)
Definition file_stem (p : path) : option string :=
  match file_name p with
  | Some w => non_empty (Some (split_extension w).1)
  | None => None
  end.

Definition parent_or_empty (p : path) : path := default [] (path_parent p).

(** A file name with the extension of a path, if it has one that is not empty. *)
Definition with_path_extension (stem : string) (p : path) : string :=
  match extension p with
  | Some e => if is_empty e then stem else stem +:+ "." +:+ e
  | None => stem
  end.

(** [path.with_file_name(name)] for a path that has a file name. *)
Definition with_file_name (p : path) (name : string) : path := join_str (parent_or_empty p) name.

(** ** File names *)

Definition ASSETSTUDIO_MAX_PUBLIC_FILE_STEM_CHARS : nat := 220.

Definition forbidden_char (c : string) : bool :=
  existsb (String.eqb c) ["<"; ">"; ":"; str_of_codes [34%nat]; "/"; "\"; "|"; "?"; "*"]
  || char_is_control c.

(** The loop of [compress_repeated_clone_suffixes]: every round removes the
    marker, so the length of the string is enough fuel. *)
Fixpoint strip_clones (fuel : nat) (value : string) : string * nat :=
  match fuel with
  | O => (value, O)
  | S fuel' =>
      match strip_suffix "(Clone)" value with
      | Some rest => let '(r, count) := strip_clones fuel' rest in (r, S count)
      | None => (value, O)
      end
  end.

Definition compress_repeated_clone_suffixes (value : string) : string :=
  let '(rest, count) := strip_clones (String.length value) value in
  if (count <=? 1)%nat then value else trim_end rest +:+ "__clone" +:+ pretty count.

Definition shorten_assetstudio_public_file_stem (value : string) : string :=
  if (length (chars value) <=? ASSETSTUDIO_MAX_PUBLIC_FILE_STEM_CHARS)%nat then value
  else concat_chars (take (ASSETSTUDIO_MAX_PUBLIC_FILE_STEM_CHARS - String.length "__truncated") (chars value))
       +:+ "__truncated".

Definition assetstudio_fix_file_name (value : string) : string :=
  let safe := concat_chars (map (fun ch => if forbidden_char ch then "_" else ch) (chars value)) in
  shorten_assetstudio_public_file_stem (compress_repeated_clone_suffixes safe).

(** [o.map(assetstudio_fix_file_name).filter(|v| !v.trim().is_empty())]. *)
Definition fixed_name (o : option string) : option string :=
  match o with
  | Some v => let w := assetstudio_fix_file_name v in if blank w then None else Some w
  | None => None
  end.

Definition assetstudio_semantic_file_stem (asset : AssetStudioFfiAssetInfo) : string :=
  match fixed_name (asset_name asset) with
  | Some w => w
  | None =>
      match fixed_name (unique_id asset) with
      | Some w => w
      | None => default "asset" (fixed_name (asset_type asset))
      end
  end.

(** ** Extensions *)

Fixpoint assoc {A} (k : string) (l : list (string * A)) : option A :=
  match l with
  | [] => None
  | (k', v) :: l' => if String.eqb k k' then Some v else assoc k l'
  end.

Definition known_extensions : list (string * string) :=
  [("bytes", "bytes"); ("dat", "dat"); ("json", "json"); ("lua", "lua"); ("txt", "txt"); ("bmp", "bmp");
   ("png", "png"); ("tga", "tga"); ("jpg", "jpg"); ("jpeg", "jpg"); ("webp", "webp"); ("wav", "wav");
   ("mp3", "mp3"); ("flac", "flac"); ("ogg", "ogv"); ("ogv", "ogv"); ("ttf", "ttf"); ("otf", "otf");
   ("shader", "shader"); ("obj", "obj"); ("fbx", "fbx"); ("bin", "bin")].

(** The directory for sub-assets of a type. *)
Definition semantic_dirs : list (string * string) :=
  [("sprite", "sprite"); ("animator", "animator"); ("monobehaviour", "monobehaviour");
   ("monobehavior", "monobehaviour"); ("texture2darray", "texture2d_array");
   ("texture2darrayimage", "texture2d_array"); ("monoscript", "monoscript"); ("gameobject", "gameobject");
   ("material", "material"); ("transform", "transform"); ("recttransform", "recttransform");
   ("particlesystem", "particle_system"); ("particlesystemrenderer", "particle_system_renderer");
   ("spriterenderer", "sprite_renderer"); ("spritemask", "sprite_mask"); ("meshfilter", "mesh_filter");
   ("meshrenderer", "mesh_renderer"); ("skinnedmeshrenderer", "skinned_mesh_renderer");
   ("playabledirector", "playable_director"); ("canvas", "canvas"); ("canvasrenderer", "canvas_renderer");
   ("camera", "camera"); ("avatar", "avatar"); ("audiolistener", "audio_listener");
   ("animation", "animation"); ("animationclip", "animation_clip"); ("textmesh", "text_mesh");
   ("sortinggroup", "sorting_group"); ("cubemap", "cubemap"); ("texture3d", "texture3d");
   ("shader", "shader"); ("shadervariantcollection", "shader")].

Section Paths.
Context `{UnicodeCase}.

Definition static_known_payload_extension (ext : string) : option string :=
  assoc (str_to_lowercase (trim_start_matches "." (trim ext))) known_extensions.

Definition normalized_type (asset : AssetStudioFfiAssetInfo) : string :=
  match asset_type asset with Some t => normalize_assetstudio_type_name t | None => "" end.

Definition default_extension_for_asset (asset : AssetStudioFfiAssetInfo) : string :=
  let n := normalized_type asset in
  if String.eqb n "textasset" then "bytes"
  else if existsb (String.eqb n) ["monobehaviour"; "monobehavior"] then "json"
  else if existsb (String.eqb n) ["shader"; "shadervariantcollection"] then "shader"
  else if String.eqb n "mesh" then "obj"
  else if String.eqb n "animator" then "fbx"
  else "dat".

Definition suggested_or (suggested : option string) (d : string) : string :=
  default d (match suggested with Some e => static_known_payload_extension e | None => None end).

Definition native_object_output_extension (asset : AssetStudioFfiAssetInfo)
    (kind suggested : option string) : string :=
  let k := str_to_lowercase (trim (unwrap_or_default kind)) in
  match assoc k [("raw", "dat"); ("typetree_json", "json"); ("image_bmp", "bmp"); ("image_raw_rgba", "png");
                 ("image_png", "png"); ("image_tga", "tga"); ("image_jpeg", "jpg"); ("image_webp", "webp");
                 ("image_array_bundle_bmp", ""); ("image_array_bundle_png", ""); ("image_array_bundle_tga", "");
                 ("image_array_bundle_jpeg", ""); ("image_array_bundle_webp", "");
                 ("image_array_bundle_raw_rgba", ""); ("animator_bundle_fbx", "");
                 ("movie_ogv", "ogv"); ("shader_text", "shader"); ("mesh_obj", "obj")] with
  | Some e => e
  | None =>
      match assoc k [("text_bytes", "bytes"); ("audio_raw", "wav"); ("video_raw", "bin"); ("font", "ttf")] with
      | Some d => suggested_or suggested d
      | None => suggested_or suggested (default_extension_for_asset asset)
      end
  end.

(** ** Semantic paths *)

Definition mono_behaviour_can_use_container_path (default_path : path)
    (asset : AssetStudioFfiAssetInfo) : bool :=
  match file_stem default_path with
  | None => false
  | Some container_stem =>
      match non_empty (match asset_name asset with
                       | Some v => Some (assetstudio_fix_file_name v) | None => None end) with
      | None => false
      | Some asset_stem =>
          String.eqb (normalize_assetstudio_type_name container_stem)
                     (normalize_assetstudio_type_name asset_stem)
      end
  end.

Definition is_member_cutout_container (asset : AssetStudioFfiAssetInfo) : bool :=
  match asset_container asset with
  | Some c => contains "/character/member_cutout" (replace_char "\" "/" c)
  | None => false
  end.

(** A file in [object_dir], named after the asset. *)
Definition subasset_file (object_dir default_path : path) (asset : AssetStudioFfiAssetInfo) : path :=
  join_str object_dir (with_path_extension (assetstudio_semantic_file_stem asset) default_path).

Definition member_cutout_sprite_output_path (default_path : path) (asset : AssetStudioFfiAssetInfo) : path :=
  match file_stem default_path with
  | None => default_path
  | Some stem =>
      subasset_file (join_str (join_str (parent_or_empty default_path) (stem +:+ ".assets")) "sprite")
        default_path asset
  end.

Definition named_flat_subasset_output_path (default_path : path) (asset : AssetStudioFfiAssetInfo) : path :=
  subasset_file (parent_or_empty default_path) default_path asset.

Definition named_subasset_output_path (default_path : path) (asset : AssetStudioFfiAssetInfo)
    (semantic_dir : string) : path :=
  let container_stem := default "asset" (file_stem default_path) in
  subasset_file (join_str (join_str (parent_or_empty default_path) (container_stem +:+ ".assets")) semantic_dir)
    default_path asset.

Definition semantic_assetstudio_object_output_path (default_path : path)
    (asset : AssetStudioFfiAssetInfo) : path :=
  let n := normalized_type asset in
  if is_member_cutout_container asset && String.eqb n "sprite"
  then member_cutout_sprite_output_path default_path asset
  else if is_member_cutout_container asset && existsb (String.eqb n) ["texture2d"; "texture2dimage"]
  then default_path
  else if existsb (String.eqb n) ["monobehaviour"; "monobehavior"]
          && mono_behaviour_can_use_container_path default_path asset
  then default_path
  else if String.eqb n "mesh" then default_path
  else if String.eqb n "font" then named_flat_subasset_output_path default_path asset
  else match assoc n semantic_dirs with
       | Some semantic_dir => named_subasset_output_path default_path asset semantic_dir
       | None => default_path
       end.

(** ** The path of an object *)

Definition strip_container_prefix (container strip_path_prefix : string) : string :=
  let normalized := trim_start_matches "/" (replace_char "\" "/" container) in
  let prefix := trim_matches "/" (replace_char "\" "/" strip_path_prefix) in
  match strip_prefix prefix normalized with
  | Some value =>
      let value := trim_start_matches "/" value in
      if is_empty value then normalized else value
  | None => normalized
  end.

(** The container of an asset, or its name. *)
Definition container_or_name (asset : AssetStudioFfiAssetInfo) : string :=
  match asset_container asset with
  | Some c => if blank c then default "asset" (asset_name asset) else c
  | None => default "asset" (asset_name asset)
  end.

Definition native_object_output_path (output_dir : path) (export_path strip_path_prefix : string)
    (by_category : bool) (asset : AssetStudioFfiAssetInfo) (kind suggested : option string) : path :=
  let relative := components (strip_container_prefix (container_or_name asset) strip_path_prefix) in
  let p := if by_category then path_join output_dir relative
           else path_join (join_str output_dir export_path)
                  (match file_name relative with
                   | Some w => [Normal w]
                   | None => components (assetstudio_semantic_file_stem asset)
                   end) in
  let ext := native_object_output_extension asset kind suggested in
  let p := if is_empty ext then p else set_extension (trim_start_matches "." ext) p in
  semantic_assetstudio_object_output_path p asset.

Definition playable_container_output_path (output_dir : path) (export_path strip_path_prefix : string)
    (by_category : bool) (container : string) : path :=
  let relative := components (strip_container_prefix container strip_path_prefix) in
  set_extension "json"
    (if by_category then path_join output_dir relative
     else path_join (join_str output_dir export_path)
            [Normal (default "timeline.playable" (file_name relative))]).

(** ** Type trees of asset bundles

    The JSON document is read by [sonic_rs]; what the code looks up in it: the two
    names and the [key]s of [m_Container]. *)
Record bundle_typetree : Type := mkBundleTypetree {
  m_AssetBundleName : option string;
  m_Name : option string;
  m_Container_keys : list string
}.

Definition assetbundle_container_category (relative : path) : option string :=
  match relative with
  | Normal value :: _ =>
      if eq_ignore_ascii_case value "startapp" then Some "startapp"
      else if eq_ignore_ascii_case value "ondemand" then Some "ondemand"
      else None
  | _ => None
  end.

Definition non_blank (o : option string) : option string :=
  match o with Some s => if blank s then None else Some s | None => None end.

Definition assetbundle_typetree_output_path (from_slice : bytes -> result bundle_typetree string)
    (output_dir : path) (export_path strip_path_prefix : string) (by_category : bool)
    (asset : AssetStudioFfiAssetInfo) (kind : option string) (payload : bytes)
  : result (option path) ExportPipelineError :=
  if negb (bool_decide (kind = Some "typetree_json"))
     || negb (type_is (fun t => String.eqb (normalize_assetstudio_type_name t) "assetbundle") asset)
  then Ok None
  else
    let? data := result_map_err ExportFfiParse (from_slice payload) in
    let bundle_name :=
      match non_blank (m_AssetBundleName data) with
      | Some n => n
      | None => match non_blank (m_Name data) with
                | Some n => n
                | None => default export_path (asset_name asset)
                end
      end in
    let bundle_path := safe_payload_bundle_path bundle_name in
    let bundle_json (dir : path) := join_str dir "_bundle.json" in
    if negb by_category then
      Ok (Some (bundle_json (path_join (join_str output_dir export_path) bundle_path)))
    else
      let relatives := map (fun key => components (strip_container_prefix key strip_path_prefix))
                         (m_Container_keys data) in
      let categories := remove_dups (omap assetbundle_container_category relatives) in
      let parents := remove_dups (omap (fun r => match path_parent r with
                                                 | Some [] => None
                                                 | o => o
                                                 end) relatives) in
      Ok (Some
        (match categories with
         | _ :: _ :: _ => bundle_json (path_join output_dir bundle_path)
         | [category] => bundle_json (path_join (join_str output_dir category) bundle_path)
         | [] => match parents with
                 | [parent] => bundle_json (path_join output_dir parent)
                 | _ => bundle_json (path_join output_dir bundle_path)
                 end
         end)).

(** ** Text assets and other targets *)

Definition text_asset_is_music_score (target : path) (asset : AssetStudioFfiAssetInfo) : bool :=
  contains "/music/music_score/" (replace_char "\" "/" (path_str target))
  || contains "/music/music_score/" (replace_char "\" "/" (unwrap_or_default (asset_container asset))).

Definition text_asset_public_bytes_target (target : path) (asset : AssetStudioFfiAssetInfo) : option path :=
  if negb (bool_decide (asset_type asset = Some "TextAsset")) then None
  else match file_name target with
  | None => None
  | Some name =>
      match strip_suffix ".acb.bytes" name with
      | Some stem => Some (with_file_name target (stem +:+ ".acb"))
      | None =>
          match strip_suffix ".usm.bytes" name with
          | Some stem => Some (with_file_name target (stem +:+ ".usm"))
          | None =>
              match strip_suffix ".bytes" name with
              | None => None
              | Some stem =>
                  if text_asset_is_music_score target asset
                  then Some (with_file_name target (stem +:+ ".txt"))
                  else Some (with_file_name target stem)
              end
          end
      end
  end.

Definition has_extension (e : string) (target : path) : bool :=
  match extension target with Some x => eq_ignore_ascii_case x e | None => false end.

Definition is_text_asset_acb_target (asset : AssetStudioFfiAssetInfo) (target : path) : bool :=
  bool_decide (asset_type asset = Some "TextAsset") && has_extension "acb" target.

Definition is_text_asset_decoded_usm_target (usm_export usm_decode : bool)
    (asset : AssetStudioFfiAssetInfo) (target : path) : bool :=
  usm_export && usm_decode && bool_decide (asset_type asset = Some "TextAsset") && has_extension "usm" target.

(** [get_export_group] of [implementation.rs]. *)
Definition get_export_group (export_path : string) : string :=
  if is_empty export_path then "container"
  else
    let normalized := str_to_lowercase (trim_start_matches "/" (replace_char "\" "/" export_path)) in
    if existsb (fun p => starts_with p normalized)
         ["event/center"; "event/thumbnail"; "gacha/icon"; "fix_prefab/mc_new"; "mysekai/character/"]
    then "containerFull" else "container".
End Paths.

(** ** File names are safe *)

Definition all_continuation (s : string) : bool := forallb is_continuation (String.list_ascii_of_string s).

(** The characters of a well-formed string: an ASCII byte stands alone. *)
Definition good_char (c : string) : Prop :=
  match c with
  | String a p => is_continuation a = false /\ all_continuation p = true /\ (is_ascii_char a = true -> p = "")
  | EmptyString => False
  end.

Lemma byte_of_ascii_Z a : byte_to_Z (byte_of_ascii a) = Z.of_nat (nat_of_ascii a).
Proof. destruct a as [[] [] [] [] [] [] [] []]; reflexivity. Qed.

Lemma as_bytes_cons a s : as_bytes (String a s) = byte_of_ascii a :: as_bytes s.
Proof. reflexivity. Qed.

Lemma byte_in_iff lo hi a :
  byte_in lo hi (byte_of_ascii a) = true <-> (lo <= Z.of_nat (nat_of_ascii a) <= hi)%Z.
Proof. unfold byte_in. rewrite byte_of_ascii_Z, andb_true_iff, !Z.leb_le. lia. Qed.

Lemma byte_in_cont lo hi a :
  byte_in lo hi (byte_of_ascii a) = true -> (128 <= lo)%Z -> (hi <= 191)%Z -> is_continuation a = true.
Proof.
  intros H%byte_in_iff ? ?. unfold is_continuation.
  apply andb_true_iff. rewrite Nat.leb_le, Nat.ltb_lt. lia.
Qed.

Lemma byte_in_lead lo hi a :
  byte_in lo hi (byte_of_ascii a) = true -> (194 <= lo)%Z ->
  is_continuation a = false /\ is_ascii_char a = false.
Proof.
  intros H%byte_in_iff ?. unfold is_continuation, is_ascii_char.
  rewrite andb_false_iff, Nat.leb_gt, !Nat.ltb_ge. lia.
Qed.

(** One character at the front of the rest. *)
Lemma chars_aux_lead a p s cs :
  is_continuation a = false -> all_continuation p = true -> chars_aux s = ("", cs) ->
  chars_aux (String a (p +:+ s)) = ("", String a p :: cs).
Proof.
  intros Ha Hp Hs. cbn [chars_aux]. rewrite Ha.
  assert (E : chars_aux (p +:+ s) = (p, cs)); [|by rewrite E].
  unfold all_continuation in Hp. induction p as [|b p IH]; [done|].
  simpl in *. apply andb_true_iff in Hp as [Hb Hp]. by rewrite IH, Hb.
Qed.

(** Splits a validated sequence into its character and a validated rest. *)
Lemma utf8_valid_cons a s :
  utf8_valid (as_bytes (String a s)) = true ->
  exists p s', s = p +:+ s' /\ is_continuation a = false /\ all_continuation p = true
    /\ (is_ascii_char a = true -> p = "") /\ utf8_valid (as_bytes s') = true.
Proof.
  rewrite as_bytes_cons. cbn [utf8_valid]. destruct (byte_in 0 127 _) eqn:E0.
  { intros Hv. exists "", s. apply byte_in_iff in E0. split_and!; try done.
    unfold is_continuation. rewrite andb_false_iff, Nat.leb_gt. lia. }
  destruct s as [|b s1]; [done|]. rewrite as_bytes_cons.
  destruct (byte_in 194 223 (byte_of_ascii a)) eqn:E1.
  { intros [Hb Hv]%andb_true_iff. apply byte_in_lead in E1 as [H1 H2]; [|lia].
    exists (String b ""), s1. apply byte_in_cont in Hb; [|lia..].
    unfold all_continuation. simpl. rewrite Hb, H2. by split_and!. }
  destruct s1 as [|c s2]; [done|]. rewrite as_bytes_cons.
  destruct (byte_in 224 239 (byte_of_ascii a)) eqn:E2.
  { intros [[Hb Hc]%andb_true_iff Hv]%andb_true_iff. apply byte_in_lead in E2 as [H1 H2]; [|lia].
    exists (String b (String c "")), s2.
    apply byte_in_cont in Hb; [|repeat case_match; lia..]. apply byte_in_cont in Hc; [|lia..].
    unfold all_continuation. simpl. rewrite Hb, Hc, H2. by split_and!. }
  destruct s2 as [|d s3]; [done|]. rewrite as_bytes_cons.
  intros [[[[E3 Hb]%andb_true_iff Hc]%andb_true_iff Hd]%andb_true_iff Hv]%andb_true_iff.
  apply byte_in_lead in E3 as [H1 H2]; [|lia]. exists (String b (String c (String d ""))), s3.
  apply byte_in_cont in Hb; [|repeat case_match; lia..].
  apply byte_in_cont in Hc; [|lia..]. apply byte_in_cont in Hd; [|lia..].
  unfold all_continuation. simpl. rewrite Hb, Hc, Hd, H2. by split_and!.
Qed.

Lemma utf8_chars s :
  utf8_valid (as_bytes s) = true -> chars_aux s = ("", chars s) /\ Forall good_char (chars s).
Proof.
  intros Hv. unfold chars.
  assert (E : exists cs, chars_aux s = ("", cs) /\ Forall good_char cs).
  { remember (String.length s) as n eqn:En. assert (Hn : (String.length s <= n)%nat) by lia. clear En.
    revert s Hv Hn. induction n as [|n IH]; intros [|a s] Hv Hn; simpl in Hn; try lia; try (by exists []).
    apply utf8_valid_cons in Hv as (p & s' & -> & Ha & Hp & Hascii & Hv). rewrite length_string_app in Hn.
    destruct (IH s' Hv ltac:(lia)) as (cs & Hcs & Hgood).
    exists (String a p :: cs). split; [by apply chars_aux_lead|]. by constructor. }
  destruct E as (cs & -> & Hgood). done.
Qed.

Lemma has_char_concat c cs : has_char c (concat_chars cs) = existsb (has_char c) cs.
Proof. induction cs as [|x cs IH]; simpl; [done|]. by rewrite has_char_app, IH. Qed.

Lemma strip_any_suffix ws s s' : strip_any ws s = Some s' -> exists w, s = w +:+ s'.
Proof.
  induction ws as [|w ws IHw]; simpl; [done|].
  destruct (strip_prefix w s) eqn:Ew; [|done]. intros ?; simplify_eq. apply strip_prefix_Some in Ew. eauto.
Qed.

Lemma trim_with_suffix ws fuel s : exists u, s = u +:+ trim_with ws fuel s.
Proof.
  revert s. induction fuel as [|fuel IH]; intros s; simpl; [by exists ""|].
  destruct (strip_any ws s) as [s'|] eqn:E; [|by exists ""].
  apply strip_any_suffix in E as [w ->].
  destruct (IH s') as [u Hu]. exists (w +:+ u). rewrite string_app_assoc. by rewrite <- Hu.
Qed.

(** Trimming at the end keeps a prefix. *)
Lemma trim_end_prefix s : exists u, s = trim_end s +:+ u.
Proof.
  unfold trim_end. destruct (trim_with_suffix (map rev_string white_space) (String.length s) (rev_string s)) as [u Hu].
  exists (rev_string u). rewrite <- rev_string_app, <- Hu. by rewrite rev_string_involutive.
Qed.

(** Removing clone markers keeps a prefix. *)
Lemma strip_clones_spec fuel v :
  exists u, v = (strip_clones fuel v).1 +:+ u.
Proof.
  revert v. induction fuel as [|fuel IH]; intros v; simpl; [exists ""; by rewrite string_app_nil_r|].
  destruct (strip_suffix _ v) as [r|] eqn:E; [|exists ""; by rewrite string_app_nil_r].
  apply strip_suffix_Some in E as ->. destruct (IH r) as [u Hu].
  destruct (strip_clones fuel r) as [x n]. simpl in *. exists (u +:+ "(Clone)").
  by rewrite <- string_app_assoc, <- Hu.
Qed.

Definition forbidden_ascii : list ascii :=
  ["<"; ">"; ":"; "/"; "\"; "|"; "?"; "*"]%char ++ map ascii_of_nat (seq 0 32 ++ [34; 127]%nat).

Definition clean (v : string) : Prop := forall c, c ∈ forbidden_ascii -> has_char c v = false.

(** [clean] is decided by evaluation. *)
Lemma clean_dec v : forallb (fun c => negb (has_char c v)) forbidden_ascii = true -> clean v.
Proof.
  rewrite forallb_forall. intros Hf c Hc. apply negb_true_iff, Hf. by apply list_elem_of_In.
Qed.

Lemma clean_app u v : clean (u +:+ v) <-> clean u /\ clean v.
Proof.
  unfold clean. split.
  - intros Huv. split; intros c Hc; specialize (Huv c Hc); rewrite has_char_app in Huv;
      by apply orb_false_iff in Huv as [? ?].
  - intros [Hu Hv] c Hc. by rewrite has_char_app, Hu, Hv.
Qed.

Lemma clean_concat cs : clean (concat_chars cs) <-> Forall clean cs.
Proof.
  induction cs as [|x cs IH]; simpl; [by split; [constructor | intros _ c _]|].
  rewrite clean_app, Forall_cons, IH. done.
Qed.

(** A printed number consists of digits. *)
Lemma pretty_N_char_clean x s : (x < 10)%N -> clean s -> clean (String (pretty_N_char x) s).
Proof.
  intros Hx Hs. change (clean (String (pretty_N_char x) "" +:+ s)). apply clean_app. split; [|done].
  unfold pretty_N_char. apply clean_dec. repeat case_match; reflexivity.
Qed.

Lemma pretty_clean (n : nat) : clean (pretty n).
Proof.
  unfold pretty, pretty_nat. unfold pretty, pretty_N. case_decide; [by apply clean_dec|].
  assert (Hgo : forall x s, clean s -> clean (pretty_N_go x s)).
  { intros x. induction (N.lt_wf_0 x) as [x _ IH]; intros s Hs.
    destruct (decide (x = 0)%N) as [->|Hx]; [by rewrite pretty_N_go_0|].
    rewrite pretty_N_go_step by lia. apply IH; [apply N.div_lt; lia|].
    apply pretty_N_char_clean; [apply N.mod_lt; lia | done]. }
  apply Hgo. by apply clean_dec.
Qed.

Lemma clean_compress v : clean v -> clean (compress_repeated_clone_suffixes v).
Proof.
  intros Hv. unfold compress_repeated_clone_suffixes.
  destruct (strip_clones_spec (String.length v) v) as [u Hu].
  destruct (strip_clones _ v) as [r n]. case_match; [done|]. simpl in Hu.
  rewrite Hu in Hv. apply clean_app in Hv as [Hr _].
  destruct (trim_end_prefix r) as [w Hw]. rewrite Hw in Hr. apply clean_app in Hr as [Hr _].
  apply clean_app. split; [done|]. apply clean_app. split; [by apply clean_dec | apply pretty_clean].
Qed.

Lemma clean_shorten v : clean v -> clean (shorten_assetstudio_public_file_stem v).
Proof.
  intros Hv. unfold shorten_assetstudio_public_file_stem. case_match; [done|].
  apply clean_app. split; [|by apply clean_dec]. apply clean_concat.
  rewrite <- (concat_chars_id v) in Hv. apply clean_concat in Hv. by apply Forall_take.
Qed.

Lemma forbidden_is_ascii c : c ∈ forbidden_ascii -> is_ascii_char c = true.
Proof.
  assert (Hf : forallb is_ascii_char forbidden_ascii = true) by reflexivity.
  rewrite forallb_forall in Hf. intros. by apply Hf, list_elem_of_In.
Qed.

Lemma continuation_no_ascii c p :
  is_ascii_char c = true -> all_continuation p = true -> has_char c p = false.
Proof.
  unfold all_continuation. intros Hc. induction p as [|a p IH]; simpl; [done|].
  intros [Ha Hp]%andb_true_iff. rewrite IH by done. rewrite orb_false_r. apply Ascii.eqb_neq. intros ->.
  unfold is_ascii_char, is_continuation in *. apply andb_true_iff in Ha as [Ha _]. zbool. lia.
Qed.

(** A forbidden byte is ASCII, so in well-formed text it is a character. *)
Lemma good_char_clean ch :
  good_char ch -> clean (if forbidden_char ch then "_" else ch).
Proof.
  intros Hg. destruct (forbidden_char ch) eqn:E; [by apply clean_dec|]. intros c Hc.
  destruct ch as [|a p]; [done|]. destruct Hg as (_ & Hcont & Hp). cbn [has_char].
  rewrite (continuation_no_ascii c p) by (by try apply forbidden_is_ascii).
  rewrite orb_false_r. apply Ascii.eqb_neq. intros ->.
  rewrite Hp in E by (by apply forbidden_is_ascii).
  assert (Hall : forallb (fun c => forbidden_char (String c "")) forbidden_ascii = true) by reflexivity.
  rewrite forallb_forall in Hall. rewrite Hall in E; [done|]. by apply list_elem_of_In.
Qed.

(** ** and short *)

Lemma chars_aux_app s t ds :
  chars_aux t = ("", ds) -> chars_aux (s +:+ t) = ((chars_aux s).1, (chars_aux s).2 ++ ds).
Proof.
  intros Ht. induction s as [|a s IH]; [done|]. cbn [chars_aux].
  change (String a s +:+ t) with (String a (s +:+ t)). cbn [chars_aux]. rewrite IH.
  destruct (chars_aux s) as [p cs]. by destruct (is_continuation a).
Qed.

Lemma chars_aux_continuation p : all_continuation p = true -> chars_aux p = (p, []).
Proof.
  unfold all_continuation. induction p as [|a p IH]; simpl; [done|].
  intros [Ha Hp]%andb_true_iff. by rewrite (IH Hp), Ha.
Qed.

(** What [chars] splits off stays one piece. *)
Lemma chars_aux_pieces s :
  all_continuation (chars_aux s).1 = true /\ Forall (fun c => chars_aux c = ("", [c])) (chars_aux s).2.
Proof.
  induction s as [|a s [IH1 IH2]]; [done|]. cbn [chars_aux]. destruct (chars_aux s) as [p cs]. simpl in *.
  destruct (is_continuation a) eqn:Ea; simpl.
  - split; [|done]. unfold all_continuation in *. simpl. by rewrite Ea.
  - split; [done|]. constructor; [|done]. simpl. by rewrite (chars_aux_continuation p IH1), Ea.
Qed.

Lemma chars_aux_concat cs t ds :
  Forall (fun c => chars_aux c = ("", [c])) cs -> chars_aux t = ("", ds) ->
  chars_aux (concat_chars cs +:+ t) = ("", cs ++ ds).
Proof.
  intros Hcs Ht. induction Hcs as [|c cs Hc _ IH]; [done|]. simpl. rewrite string_app_assoc.
  rewrite (chars_aux_app c _ _ IH). by rewrite Hc.
Qed.

(** The first [n] characters of a text, followed by a whole one. *)
Lemma length_chars_truncated v n t ds :
  (0 < n)%nat -> chars_aux t = ("", ds) ->
  (length (chars (concat_chars (take n (chars v)) +:+ t)) <= n + length ds)%nat.
Proof.
  intros Hn Ht. destruct (chars_aux_pieces v) as [Hp Hcs]. unfold chars at 2.
  destruct (chars_aux v) as [p cs]. simpl in Hp, Hcs. destruct (is_empty p) eqn:Ep.
  - unfold chars. rewrite (chars_aux_concat _ t ds); [|by apply Forall_take | done]. simpl.
    rewrite length_app, length_take. lia.
  - destruct n as [|n]; [lia|]. simpl. rewrite string_app_assoc. unfold chars.
    rewrite (chars_aux_app p _ (take n cs ++ ds)).
    + rewrite (chars_aux_continuation p Hp). simpl. rewrite Ep. simpl. rewrite length_app, length_take. lia.
    + apply chars_aux_concat; [by apply Forall_take | done].
Qed.

Lemma fix_file_name_clean v :
  utf8_valid (as_bytes v) = true -> clean (assetstudio_fix_file_name v).
Proof.
  intros Hv. apply clean_shorten, clean_compress, clean_concat. apply utf8_chars in Hv as [_ Hg].
  apply Forall_map. eapply Forall_impl; [exact Hg|]. intros ch. apply good_char_clean.
Qed.

(** Whatever name an asset has, the file name derived from it contains none of
    the characters [< > : QUOTE / \ | ? *] and no control character, so it is a single
    path component, and it has at most 220 characters.  (Rust strings are valid
    UTF-8.) *)
Theorem fix_file_name_safe v :
  utf8_valid (as_bytes v) = true ->
  clean (assetstudio_fix_file_name v)
  /\ (length (chars (assetstudio_fix_file_name v)) <= ASSETSTUDIO_MAX_PUBLIC_FILE_STEM_CHARS)%nat.
Proof.
  intros Hv. split; [by apply fix_file_name_clean|]. unfold assetstudio_fix_file_name.
  - unfold shorten_assetstudio_public_file_stem. set (x := compress_repeated_clone_suffixes _).
    destruct (Nat.leb_spec (length (chars x)) ASSETSTUDIO_MAX_PUBLIC_FILE_STEM_CHARS) as [|_]; [done|].
    etrans; [eapply (length_chars_truncated x _ "__truncated")|]; [|vm_compute; reflexivity|].
    all: unfold ASSETSTUDIO_MAX_PUBLIC_FILE_STEM_CHARS; simpl; lia.
Qed.

Lemma fix_file_name_safe_witness :
  clean (assetstudio_fix_file_name "a/b (Clone)(Clone)")
  /\ assetstudio_fix_file_name "a/b (Clone)(Clone)" = "a_b__clone2".
Proof. split; [apply (fix_file_name_safe "a/b (Clone)(Clone)"); vm_compute; reflexivity | vm_compute; reflexivity]. Defined.

(** The limit counts characters, while file systems limit the bytes of a name to
    255: a hundred three-byte characters are kept. *)
Example fix_file_name_bytes :
  String.length (assetstudio_fix_file_name
    (concat_chars (repeat (str_of_codes [227; 129; 130]%nat) 100))) = 300%nat.
Proof. vm_compute. reflexivity. Qed.

(** [compress_repeated_clone_suffixes] replaces a run of markers by its length. *)
Lemma strip_clones_run fuel base k :
  (k < fuel)%nat -> strip_suffix "(Clone)" base = None ->
  strip_clones fuel (base +:+ concat_chars (repeat "(Clone)" k)) = (base, k).
Proof.
  revert fuel. induction k as [|k IH]; intros [|fuel] Hk Hb; try lia.
  - cbn [repeat concat_chars foldr]. rewrite string_app_nil_r. cbn [strip_clones]. by rewrite Hb.
  - assert (E : concat_chars (repeat "(Clone)" (S k)) = concat_chars (repeat "(Clone)" k) +:+ "(Clone)").
    { clear. induction k as [|k IH]; [done|]. cbn [repeat concat_chars foldr] in *. unfold concat_chars in *.
      rewrite IH at 1. by rewrite string_app_assoc. }
    rewrite E, <- string_app_assoc. cbn [strip_clones].
    rewrite (proj2 (strip_suffix_Some _ _ _) eq_refl). by rewrite IH by (done || lia).
Qed.

(** ** Objects stay in their directory *)

(** [p] is a file strictly below [base]. *)
Definition inside (base p : path) : Prop :=
  exists rel, rel <> [] /\ Forall (fun w => inner (Normal w)) rel /\ p = base ++ map Normal rel.

Definition proper_file (w : string) : Prop := inner (Normal w).

Lemma proper_long w : (3 <= String.length w)%nat -> has_char "/" w = false -> proper_file w.
Proof.
  intros Hl Hs. split; [|done]. unfold proper_name.
  destruct w as [|a [|b [|c w]]]; simpl in Hl; try lia. simpl.
  destruct (Ascii.eqb a "."); simpl; [|done]. by destruct (Ascii.eqb b ".").
Qed.

Lemma components_file w : proper_file w -> components w = [Normal w].
Proof. intros Hw. rewrite <- (components_path_str [Normal w]) by (by constructor). done. Qed.

Lemma join_str_file p w : proper_file w -> join_str p w = p ++ [Normal w].
Proof. intros Hw. unfold join_str. rewrite components_file by done. apply (path_join_normal p [w]). Qed.

Lemma inside_snoc base p :
  inside base p <-> exists q w, (q = base \/ inside base q) /\ proper_file w /\ p = q ++ [Normal w].
Proof.
  split.
  - intros (rel & Hne & Hall & ->). destruct (exists_last Hne) as (init & w & ->).
    apply Forall_app in Hall as [Hi Hw]. inversion Hw; subst.
    exists (base ++ map Normal init), w. rewrite map_app, app_assoc. split_and!; try done.
    destruct init as [|x init]; [left; by rewrite app_nil_r | right]. by exists (x :: init).
  - intros (q & w & [->|(rel & Hne & Hall & ->)] & Hw & ->).
    + exists [w]. split_and!; [done | by constructor | done].
    + exists (rel ++ [w]). rewrite map_app, app_assoc. split_and!; try done.
      * by destruct rel.
      * apply Forall_app. split; [done | by constructor].
Qed.

Lemma parent_snoc q w : parent_or_empty (q ++ [Normal w]) = q.
Proof. unfold parent_or_empty, path_parent. rewrite last_snoc. simpl. apply removelast_snoc. Qed.

Lemma split_extension_parts w :
  w <> "" -> has_char "/" w = false ->
  (split_extension w).1 <> "" /\ has_char "/" (split_extension w).1 = false
  /\ (forall e, (split_extension w).2 = Some e -> has_char "/" e = false).
Proof.
  intros Hne Hs. unfold split_extension. destruct (rsplit_dot w) as [[st e]|] eqn:E; [|by split_and!].
  destruct st as [|a st]; [by split_and!|]. apply rsplit_dot_Some in E as ->.
  rewrite !has_char_app in Hs. apply orb_false_iff in Hs as [H1 H2]. apply orb_false_iff in H2 as [_ H2].
  split_and!; try done. intros e' E. by simplify_eq/=.
Qed.

Lemma proper_file_parts w : proper_file w -> w <> "" /\ has_char "/" w = false.
Proof. intros [Hp Hs]. split; [by intros -> | done]. Qed.

Lemma dotted_proper u e :
  u <> "" -> e <> "" -> has_char "/" u = false -> has_char "/" e = false -> proper_file (u +:+ "." +:+ e).
Proof.
  intros Hu He H1 H2. apply proper_long.
  - rewrite !length_string_app. destruct u, e; simpl; try done; lia.
  - rewrite !has_char_app, H1, H2. done.
Qed.

Lemma inside_set_extension base p e :
  e <> "" -> has_char "/" e = false -> inside base p -> inside base (set_extension e p).
Proof.
  intros He Hse (q & w & Hq & Hw & ->)%inside_snoc. unfold set_extension.
  rewrite file_name_snoc, removelast_snoc. apply inside_snoc. eexists q, _. split_and!; [done | | done].
  apply proper_file_parts in Hw as [Hne Hs]. destruct (split_extension_parts w Hne Hs) as (H1 & H2 & _).
  by apply dotted_proper.
Qed.

Lemma with_path_extension_proper stem q w :
  proper_file stem -> proper_file w -> proper_file (with_path_extension stem (q ++ [Normal w])).
Proof.
  intros Hst Hw. unfold with_path_extension, extension. rewrite file_name_snoc.
  apply proper_file_parts in Hw as [Hne Hs]. destruct (split_extension_parts w Hne Hs) as (_ & _ & He).
  destruct (split_extension w).2 as [e|]; [|done]. destruct e as [|a e]; [done|]. simpl is_empty.
  apply proper_file_parts in Hst as [? ?]. apply dotted_proper; try done. by apply He.
Qed.

Lemma file_stem_snoc q w s :
  proper_file w -> file_stem (q ++ [Normal w]) = Some s -> s <> "" /\ has_char "/" s = false.
Proof.
  intros [Hne Hs]%proper_file_parts. unfold file_stem. rewrite file_name_snoc.
  destruct (split_extension_parts w Hne Hs) as (H1 & H2 & _). unfold non_empty.
  destruct (is_empty _) eqn:E; [done|]. intros ?; by simplify_eq.
Qed.

Lemma assets_dir_proper s : s <> "" -> has_char "/" s = false -> proper_file (s +:+ ".assets").
Proof. intros. by apply (dotted_proper s "assets"). Qed.

Lemma assoc_In {A} k (l : list (string * A)) v : assoc k l = Some v -> In v (map snd l).
Proof.
  induction l as [|[k' v'] l IH]; simpl; [done|]. destruct (String.eqb k k'); [|by auto].
  intros ?; simplify_eq. by left.
Qed.

Definition proper_file_b (w : string) : bool := proper_name w && negb (has_char "/" w).

Lemma proper_file_dec w : proper_file_b w = true -> proper_file w.
Proof. intros [Hp Hs]%andb_true_iff. split; [done | by apply negb_true_iff]. Qed.

Lemma assoc_proper k l d :
  assoc k l = Some d -> forallb proper_file_b (map snd l) = true -> proper_file d.
Proof. intros Ha%assoc_In Hf. rewrite forallb_forall in Hf. by apply proper_file_dec, Hf. Qed.

Section Confinement.
Context `{UnicodeCase}.

(** An asset whose strings are text and whose file name is not [.] or [..]. *)
Definition asset_text (asset : AssetStudioFfiAssetInfo) : Prop :=
  forall s, In (Some s) [asset_name asset; unique_id asset; asset_type asset] ->
    utf8_valid (as_bytes s) = true.
Definition asset_named (asset : AssetStudioFfiAssetInfo) : Prop :=
  asset_text asset /\ proper_name (assetstudio_semantic_file_stem asset) = true.

Lemma fixed_name_no_slash o w :
  (forall s, o = Some s -> utf8_valid (as_bytes s) = true) -> fixed_name o = Some w -> has_char "/" w = false.
Proof.
  destruct o as [v|]; simpl; [|done]. intros Hv. destruct (blank _); [done|]. intros ?; simplify_eq.
  apply (fix_file_name_clean v (Hv v eq_refl)). apply list_elem_of_In. simpl. tauto.
Qed.

Lemma semantic_stem_proper asset : asset_named asset -> proper_file (assetstudio_semantic_file_stem asset).
Proof.
  intros [Ht Hp]. split; [done|]. unfold asset_text in Ht. unfold assetstudio_semantic_file_stem in *.
  destruct (fixed_name (asset_name asset)) eqn:E1; [eapply fixed_name_no_slash in E1; [done|] |].
  { intros s0 Hs. apply Ht. rewrite Hs. by left. }
  destruct (fixed_name (unique_id asset)) eqn:E2; [eapply fixed_name_no_slash in E2; [done|] |].
  { intros s0 Hs. apply Ht. rewrite Hs. by right; left. }
  destruct (fixed_name (asset_type asset)) eqn:E3; [|done]. eapply fixed_name_no_slash in E3; [done|].
  intros s0 Hs. apply Ht. rewrite Hs. by right; right; left.
Qed.

Lemma subasset_file_inside base q p0 w asset :
  asset_named asset -> proper_file w -> (q = base \/ inside base q) ->
  inside base (subasset_file q (p0 ++ [Normal w]) asset).
Proof.
  intros Hn Hw Hq. unfold subasset_file.
  pose proof (with_path_extension_proper _ p0 w (semantic_stem_proper asset Hn) Hw) as Hp.
  rewrite join_str_file by done. apply inside_snoc. eauto.
Qed.

Lemma inside_join base q w : (q = base \/ inside base q) -> proper_file w -> inside base (join_str q w).
Proof. intros Hq Hw. rewrite join_str_file by done. apply inside_snoc. eauto. Qed.

Lemma semantic_path_inside base p asset :
  asset_named asset -> inside base p -> inside base (semantic_assetstudio_object_output_path p asset).
Proof.
  intros Hn Hp. pose proof Hp as (q & w & Hq & Hw & ->)%inside_snoc.
  assert (Hsub : forall s dir, s <> "" -> has_char "/" s = false -> proper_file dir ->
    inside base (subasset_file (join_str (join_str q (s +:+ ".assets")) dir) (q ++ [Normal w]) asset)).
  { intros s dir H1 H2 H3. apply subasset_file_inside; [done..|]. right.
    apply inside_join; [|done]. right. apply inside_join; [done|]. by apply assets_dir_proper. }
  unfold semantic_assetstudio_object_output_path. cbv zeta.
  case_match; [|case_match; [done|case_match; [done|case_match; [done|case_match]]]].
  - unfold member_cutout_sprite_output_path. destruct (file_stem _) as [s|] eqn:E; [|done].
    rewrite parent_snoc. apply file_stem_snoc in E as [? ?]; [|done]. apply Hsub; try done.
  - unfold named_flat_subasset_output_path. rewrite parent_snoc. by apply subasset_file_inside.
  - destruct (assoc _ _) as [dir|] eqn:E; [|done].
    unfold named_subasset_output_path. cbv zeta. rewrite parent_snoc.
    apply assoc_proper in E; [|reflexivity].
    destruct (file_stem _) as [s|] eqn:Es; cbn [default]; [|by apply (Hsub "asset")].
    apply file_stem_snoc in Es as [? ?]; [|done]. by apply Hsub.
Qed.

(** Every extension in the tables is a plain one. *)
Definition plain_extension (e : string) : bool :=
  is_empty e || (negb (is_empty (trim_start_matches "." e)) && negb (has_char "/" (trim_start_matches "." e))).

Lemma assoc_plain k l e :
  assoc k l = Some e -> forallb plain_extension (map snd l) = true -> plain_extension e = true.
Proof. intros Ha%assoc_In Hf. rewrite forallb_forall in Hf. by apply Hf. Qed.

Lemma suggested_or_plain s d : plain_extension d = true -> plain_extension (suggested_or s d) = true.
Proof.
  intros Hd. unfold suggested_or. destruct s as [e|]; simpl; [|done].
  destruct (static_known_payload_extension e) as [x|] eqn:E; simpl; [|done]. by apply assoc_plain in E.
Qed.

Lemma output_extension_plain asset kind suggested :
  plain_extension (native_object_output_extension asset kind suggested) = true.
Proof.
  unfold native_object_output_extension. cbv zeta. case_match eqn:E1; [by apply assoc_plain in E1|].
  case_match eqn:E2; apply suggested_or_plain; [by apply assoc_plain in E2|].
  unfold default_extension_for_asset. cbv zeta. repeat case_match; reflexivity.
Qed.

Lemma components_normal_inner s w : Normal w ∈ components s -> proper_file w.
Proof.
  unfold components. intros Hw. apply elem_of_app in Hw as [Hw|Hw].
  - destruct (starts_with "/" s); [|destruct (String.eqb _ ".")]; set_solver.
  - pose proof (pieces_inner _ (split_on_no_sep "/" s)) as Hp. rewrite Forall_forall in Hp. by apply Hp.
Qed.

Lemma last_In {A} (l : list A) x : last l = Some x -> x ∈ l.
Proof.
  intros E. destruct l as [|y l]; [done|]. destruct (exists_last (l := y :: l)) as (i & z & Ez); [done|].
  rewrite Ez in *. rewrite last_snoc in E. simplify_eq. apply elem_of_app. right. by left.
Qed.

(** The directory objects are exported to. *)
Definition export_base (output_dir : path) (export_path : string) (by_category : bool) : path :=
  if by_category then output_dir else join_str output_dir export_path.

End Confinement.

Definition sample_sprite : AssetStudioFfiAssetInfo :=
  mkAssetInfo 0 (Some "card/icon") (Some "assets/res/ondemand/card/Card_01.prefab") (Some "Sprite") 213 42 None 10 None.


(** A container path with [..] is not cleaned: the object leaves the directory. *)
Example object_path_escapes :
  @native_object_output_path ascii_case (components "/data/jp") "card" "assets/res" true
    (mkAssetInfo 0 (Some "x") (Some "assets/res/../../../etc/cron.d/x") (Some "TextAsset") 49 1 None 1 None)
    (Some "text_bytes") None
  = components "/data/jp/../../../etc/cron.d/x.bytes".
Proof. vm_compute. reflexivity. Qed.
