(* ===== verification/ExportPayload.v ===== *)
(** * Writing exported objects

    The stateful half of [core/export_pipeline/implementation/payload.rs]: claiming
    output paths ([NativeSemanticExportPathState]), writing object payloads,
    queueing images and flushing them, and the export manifest.  The disk is the
    files and directories below the output directory; errors of the operating
    system, the JSON library and the image encoders are arguments. *)

From Stdlib Require Import Ascii.
From S2P Require Import Prelude RustStr Errors Config Paths PayloadBundle FfiTypes ExportPaths.

Local Open Scope string_scope.
Local Open Scope list_scope.
Local Open Scope Z_scope.
Local Open Scope rust_scope.

(** ** Signatures *)

Record NativePayloadSignature : Type := mkSignature {
  sig_asset_type : option string;
  sig_name : option string;
  sig_container : option string;
  sig_payload_kind : option string;
  sig_suggested_extension : option string;
  sig_payload_len : Z;
  sig_payload_fingerprint : Z * Z
}.

#[export] Instance NativePayloadSignature_eq_dec : EqDecision NativePayloadSignature.
Proof. solve_decision. Defined.

Definition FNV_PRIME : Z := 0x100000001b3.

Definition wrapping_mul64 (a b : Z) : Z := truncate 64 (a * b).
(** [u64::rotate_left]. *)
Definition rotate_left64 (x k : Z) : Z :=
  Z.lor (truncate 64 (Z.shiftl x k)) (Z.shiftr x (64 - k)).

(** The loop over the payload; [index] is the position of the first byte of [bs]. *)
Fixpoint fingerprint_loop (left right index : Z) (bs : bytes) : Z * Z :=
  match bs with
  | [] => (left, right)
  | b :: bs' =>
      let byte := byte_to_Z b in
      let left := wrapping_mul64 (Z.lxor left byte) FNV_PRIME in
      let right := Z.lxor right
                     (Z.lxor (truncate 64 (Z.shiftl byte (Z.land index 7 * 8))) (truncate 64 index)) in
      let right := wrapping_mul64 (rotate_left64 right 5) FNV_PRIME in
      fingerprint_loop left right (index + 1) bs'
  end.

Definition native_payload_fingerprint (payload : bytes) : Z * Z :=
  fingerprint_loop 0xcbf29ce484222325 0x84222325cbf29ce4 0 payload.

Definition native_payload_signature (asset : AssetStudioFfiAssetInfo) (out : ObjectReadOutput)
  : NativePayloadSignature :=
  mkSignature (asset_type asset) (asset_name asset) (asset_container asset)
    (payload_kind (read_response out)) (suggested_extension (read_response out))
    (zlen (read_payload out)) (native_payload_fingerprint (read_payload out)).

(** ** Claims *)

Definition semantic_duplicate_path (p : path) (ordinal : Z) : path :=
  if ordinal <=? 1 then p
  else
    let stem := default "asset" (file_stem p) +:+ "__dup" +:+ pretty ordinal in
    join_str (parent_or_empty p) (with_path_extension stem p).

Abbreviation claim_map := (gmap path (option NativePayloadSignature)).

Inductive NativeSemanticPathClaim : Type :=
| Claimed (p : path)
| Duplicate (existing : path).

(** The loop of [claim_with_signature]; [exists_] is [Path::exists].  [None] is
    running out of fuel, which does not happen ([claim_total]). *)
Fixpoint claim_loop (fuel : nat) (exists_ : path -> bool) (claims : claim_map) (p : path)
    (signature : option NativePayloadSignature) (ordinal : Z)
  : option (claim_map * NativeSemanticPathClaim) :=
  match fuel with
  | O => None
  | S fuel' =>
      let candidate := semantic_duplicate_path p ordinal in
      let same :=
        match signature, claims !! candidate with
        | Some l, Some (Some r) => bool_decide (l = r)
        | _, _ => false
        end in
      if same then Some (claims, Duplicate candidate)
      else if negb (exists_ candidate) && bool_decide (claims !! candidate = None)
      then Some (<[candidate := signature]> claims, Claimed candidate)
      else claim_loop fuel' exists_ claims p signature (ordinal + 1)
  end.

(** The files and directories that exist. *)
Record disk : Type := mkDisk {
  d_files : out_files;
  d_dirs : gset path
}.

Definition disk_exists (d : disk) (p : path) : bool :=
  bool_decide (is_Some (d_files d !! p)) || bool_decide (p ∈ d_dirs d).

Definition claim_fuel (d : disk) (claims : claim_map) : nat :=
  S (size (dom (d_files d)) + size (d_dirs d) + size (dom claims)).

Definition claim_with_signature (d : disk) (claims : claim_map) (p : path)
    (signature : option NativePayloadSignature) : option (claim_map * NativeSemanticPathClaim) :=
  claim_loop (claim_fuel d claims) (disk_exists d) claims p signature 1.

(** ** Claims are exact *)

(** A path as [std::path] produces it: its names are proper. *)
Definition wf_path (p : path) : Prop := forall w, Normal w ∈ p -> proper_file w.

Lemma pretty_Z_no_slash (n : Z) : (0 <= n) -> has_char "/" (pretty n) = false.
Proof.
  intros Hn. destruct (Z_of_nat_complete n Hn) as [k ->].
  assert (E : pretty (Z.of_nat k) = pretty k).
  { unfold pretty, pretty_Z, pretty_nat. destruct k; [done|]. simpl Z.of_nat. f_equal. }
  rewrite E. apply (pretty_clean k). apply list_elem_of_In. simpl. tauto.
Qed.

(** The last name of a path, split into stem and extension. *)
Lemma file_stem_parts p :
  wf_path p ->
  (exists q w, p = q ++ [Normal w] /\ proper_file w
     /\ file_stem p = Some (split_extension w).1 /\ extension p = (split_extension w).2)
  \/ file_name p = None /\ file_stem p = None /\ extension p = None.
Proof.
  intros Hwf. unfold file_stem, extension. destruct (file_name p) as [w|] eqn:E; [left | by right].
  unfold file_name in E. destruct (last p) as [[| | |w']|] eqn:El; try done. injection E as ->.
  assert (Hw : proper_file w) by (apply Hwf; by apply last_In).
  apply last_Some in El as [q ->]. exists q, w. split_and!; try done.
  apply proper_file_parts in Hw as [Hne Hs]. destruct (split_extension_parts w Hne Hs) as (H1 & _).
  unfold non_empty. destruct (is_empty _) eqn:E; [|done]. by destruct (split_extension w).1.
Qed.

(** Candidates after the first are new names in the same directory. *)
Lemma duplicate_path_form p :
  wf_path p -> exists q u v, (forall n, 1 < n -> semantic_duplicate_path p n = q ++ [Normal (u +:+ "__dup" +:+ pretty n +:+ v)])
    /\ (forall w, p = q ++ [Normal w] -> (String.length w <= String.length u + String.length v + 1)%nat).
Proof.
  intros Hwf.
  assert (Hpre : forall st v n, 1 < n -> has_char "/" st = false -> has_char "/" v = false ->
            join_str (parent_or_empty p) (st +:+ "__dup" +:+ pretty n +:+ v)
            = parent_or_empty p ++ [Normal (st +:+ "__dup" +:+ pretty n +:+ v)]).
  { intros st v n Hn H1 H2. apply join_str_file. apply proper_long.
    - rewrite !length_string_app. simpl. lia.
    - by rewrite !has_char_app, H1, H2, (pretty_Z_no_slash n) by lia. }
  assert (Hsel : forall n, 1 < n -> (n <=? 1) = false) by (intros; apply Z.leb_gt; lia).
  destruct (file_stem_parts p Hwf) as [(q & w & Ep & Hw & Hst & Hex)|(Hf & Hst & Hex)].
  - apply proper_file_parts in Hw as [Hne Hs]. destruct (split_extension_parts w Hne Hs) as (H1 & H2 & H3).
    set (v := match extension p with Some e => if is_empty e then "" else "." +:+ e | None => "" end).
    assert (Hv : has_char "/" v = false).
    { unfold v. rewrite Hex. destruct (split_extension w).2 as [e|] eqn:Ee; [|done].
      destruct (is_empty e); [done|]. rewrite has_char_app. by rewrite (H3 e eq_refl). }
    exists q, (split_extension w).1, v. split.
    + intros n Hn. unfold semantic_duplicate_path. rewrite Hsel by done. rewrite Hst. cbv zeta. unfold default, id.
      assert (E : with_path_extension ((split_extension w).1 +:+ "__dup" +:+ pretty n) p
                  = (split_extension w).1 +:+ "__dup" +:+ pretty n +:+ v).
      { unfold with_path_extension, v. destruct (extension p) as [e|]; [destruct (is_empty e)|];
          by rewrite ?string_app_nil_r, ?string_app_assoc. }
      rewrite E, Hpre by done. by rewrite Ep, parent_snoc.
    + intros w' E. rewrite Ep in E. apply app_inj_tail in E as [_ E]. injection E as <-.
      unfold v. rewrite Hex. unfold split_extension. destruct (rsplit_dot w) as [[[|a st] e]|] eqn:Er; simpl; try lia.
      apply rsplit_dot_Some in Er as ->. rewrite !length_string_app. destruct e; simpl; lia.
  - exists (parent_or_empty p), "asset", "". split.
    + intros n Hn. unfold semantic_duplicate_path. rewrite Hsel by done. rewrite Hst. cbv zeta. unfold default, id.
      assert (E : with_path_extension ("asset" +:+ "__dup" +:+ pretty n) p = "asset" +:+ "__dup" +:+ pretty n +:+ "").
      { unfold with_path_extension. rewrite Hex. by rewrite string_app_nil_r. }
      by rewrite E, Hpre.
    + intros w E. rewrite E, file_name_snoc in Hf. done.
Qed.

Lemma string_app_inj_r u v w : u +:+ w = v +:+ w -> u = v.
Proof.
  intros E. apply (f_equal rev_string) in E. rewrite !rev_string_app in E.
  apply string_app_inj_l in E. apply (f_equal rev_string) in E. by rewrite !rev_string_involutive in E.
Qed.

Lemma duplicate_path_inj p n m :
  wf_path p -> 1 <= n -> 1 <= m -> semantic_duplicate_path p n = semantic_duplicate_path p m -> n = m.
Proof.
  intros Hwf Hn Hm E. destruct (duplicate_path_form p Hwf) as (q & u & v & Hform & Hfirst).
  assert (H1 : semantic_duplicate_path p 1 = p) by done.
  assert (Hne : forall k, 1 < k -> p <> semantic_duplicate_path p k).
  { intros k Hk Ep. rewrite Hform in Ep by done. pose proof (Hfirst _ Ep) as Hl.
    rewrite !length_string_app in Hl. simpl in Hl. lia. }
  destruct (decide (n = 1)) as [->|?], (decide (m = 1)) as [->|?]; try done.
  - rewrite H1 in E. exfalso. apply (Hne m); [lia | done].
  - rewrite H1 in E. exfalso. apply (Hne n); [lia | done].
  - rewrite !Hform in E by lia. apply app_inj_tail in E as [_ E]. injection E as E.
    apply string_app_inj_l in E. apply (string_app_inj_l "__dup") in E. apply string_app_inj_r in E.
    by apply (inj pretty) in E.
Qed.

(** What exists or is claimed already. *)
Definition taken (d : disk) (claims : claim_map) : gset path :=
  dom (d_files d) ∪ d_dirs d ∪ dom claims.

Lemma disk_exists_iff d p : disk_exists d p = true <-> p ∈ dom (d_files d) ∪ d_dirs d.
Proof.
  unfold disk_exists. rewrite orb_true_iff, !bool_decide_eq_true, elem_of_union, elem_of_dom. done.
Qed.

Lemma claim_loop_None fuel d claims p sig ordinal :
  claim_loop fuel (disk_exists d) claims p sig ordinal = None ->
  forall k, (k < fuel)%nat -> semantic_duplicate_path p (ordinal + Z.of_nat k) ∈ taken d claims.
Proof.
  revert ordinal. induction fuel as [|fuel IH]; intros ordinal E k Hk; [lia|]. cbn [claim_loop] in E.
  match type of E with (if ?b then _ else _) = _ => destruct b; [done|] end.
  destruct (negb _ && _) eqn:Ef; [done|]. destruct k as [|k].
  - rewrite Z.add_0_r. apply andb_false_iff in Ef as [Ef|Ef]; unfold taken.
    + apply negb_false_iff, disk_exists_iff in Ef. set_solver.
    + apply bool_decide_eq_false in Ef. apply elem_of_union_r, elem_of_dom. by apply not_eq_None_Some.
  - replace (ordinal + Z.of_nat (S k)) with (ordinal + 1 + Z.of_nat k) by lia. apply IH; [done | lia].
Qed.

Lemma claim_total d claims p sig : wf_path p -> is_Some (claim_with_signature d claims p sig).
Proof.
  intros Hwf. unfold claim_with_signature. destruct (claim_loop _ _ _ _ _ _) as [r|] eqn:E; [done|]. exfalso.
  pose proof (claim_loop_None _ _ _ _ _ _ E) as Hall.
  set (l := map (fun k => semantic_duplicate_path p (1 + Z.of_nat k)) (seq 0 (claim_fuel d claims))).
  assert (Hnd : NoDup l).
  { apply NoDup_fmap_2_strong; [|apply NoDup_seq]. intros a b _ _ Eq.
    apply duplicate_path_inj in Eq; [lia | done | lia | lia]. }
  assert (Hsub : (list_to_set l : gset path) ⊆ taken d claims).
  { intros x Hx. apply elem_of_list_to_set, list_elem_of_fmap in Hx as (k & -> & Hk).
    apply elem_of_seq in Hk. apply Hall. lia. }
  apply subseteq_size in Hsub. rewrite size_list_to_set in Hsub by done.
  unfold l in Hsub. rewrite length_map, length_seq in Hsub. unfold claim_fuel, taken in Hsub.
  pose proof (size_union_alt (dom (d_files d) ∪ d_dirs d) (dom claims)).
  pose proof (size_union_alt (dom (d_files d)) (d_dirs d)).
  pose proof (subseteq_size (dom claims ∖ (dom (d_files d) ∪ d_dirs d)) (dom claims) ltac:(set_solver)).
  pose proof (subseteq_size (d_dirs d ∖ dom (d_files d)) (d_dirs d) ltac:(set_solver)). lia.
Qed.

Lemma claim_loop_sound fuel exists_ claims p sig ordinal claims' r :
  claim_loop fuel exists_ claims p sig ordinal = Some (claims', r) ->
  match r with
  | Claimed q => claims' = <[q := sig]> claims /\ claims !! q = None /\ exists_ q = false
                 /\ exists n, ordinal <= n /\ q = semantic_duplicate_path p n
  | Duplicate q => claims' = claims /\ exists s, sig = Some s /\ claims !! q = Some (Some s)
  end.
Proof.
  revert ordinal. induction fuel as [|fuel IH]; intros ordinal E; [done|]. cbn [claim_loop] in E.
  match type of E with (if ?b then _ else _) = _ => destruct b eqn:Eb end.
  - injection E as <- <-. split; [done|]. destruct sig as [s|]; [|done]. exists s. split; [done|].
    destruct (claims !! _) as [[s'|]|] eqn:Ec; try done. apply bool_decide_eq_true in Eb. by subst.
  - destruct (negb _ && _) eqn:Ef.
    + injection E as <- <-. apply andb_true_iff in Ef as [E1 E2]. apply negb_true_iff in E1.
      apply bool_decide_eq_true in E2. split_and!; try done. by exists ordinal.
    + apply IH in E. destruct r; [|done]. destruct E as (? & ? & ? & n & ? & ?). split_and!; try done.
      exists n. split; [lia | done].
Qed.

(** Claiming an output path always returns, whatever already exists.  A claimed
    path neither exists nor was claimed before (so no object overwrites another), is
    the wanted path or one of its [__dupN] variants, and is recorded with the
    signature; a duplicate is reported only when an equal signature already claimed
    the reported path, and then nothing changes. *)
Theorem claim_exact d claims p sig :
  wf_path p ->
  exists claims' r, claim_with_signature d claims p sig = Some (claims', r) /\
  match r with
  | Claimed q => claims' = <[q := sig]> claims /\ claims !! q = None /\ disk_exists d q = false
                 /\ exists n, 1 <= n /\ q = semantic_duplicate_path p n
  | Duplicate q => claims' = claims /\ exists s, sig = Some s /\ claims !! q = Some (Some s)
  end.
Proof.
  intros Hwf. destruct (claim_total d claims p sig Hwf) as [[claims' r] E].
  exists claims', r. split; [done|]. by apply claim_loop_sound in E.
Qed.

Lemma wf_components s : wf_path (components s).
Proof. intros w. apply components_normal_inner. Qed.

(** [a.png] is claimed and [a__dup2.png] exists. *)
Lemma claim_exact_witness :
  let p := components "/o/a.png" in
  let d := mkDisk {[components "/o/a__dup2.png" := []]} {[components "/o"]} in
  let r := claim_with_signature d {[p := None]} p None in
  option_map snd r = Some (Claimed (components "/o/a__dup3.png"))
  /\ exists claims' c, r = Some (claims', c) /\ c <> Claimed p.
Proof.
  intros p d r. split; [vm_compute; reflexivity|].
  destruct (claim_exact d {[p := None]} p None (wf_components _)) as (claims' & c & E & Hc).
  exists claims', c. split; [exact E|]. intros ->. destruct Hc as (_ & Hc & _).
  rewrite lookup_singleton_eq in Hc. discriminate Hc.
Defined.

(** ** Objects *)

Definition image_format_extension (f : ImageOutputFormat) : string :=
  match f with Png => "png" | Jpg => "jpg" | Webp => "webp" end.

(** [struct NativeObjectExportOptions] with the fields of its region the exporter
    reads: [image_formats] is [export.images.formats]. *)
Record NativeObjectExportOptions : Type := mkExportOptions {
  output_dir : path;
  export_path : string;
  strip_path_prefix : string;
  opt_by_category : bool;
  image_formats : list ImageOutputFormat;
  usm_export : bool;
  usm_decode : bool;
  opt_read_kinds : list (string * string);
  opt_image_format : string;
  read_batch_size : Z;
  image_flush : option Z
}.

Definition output_formats (o : NativeObjectExportOptions) : list ImageOutputFormat :=
  dedupe_formats [] (image_formats o).

Definition image_output_file_for_format (target : path) (f : ImageOutputFormat) : path :=
  set_extension (image_format_extension f) target.

Definition planned_image_output_files (target : path) (o : NativeObjectExportOptions) : list path :=
  map (image_output_file_for_format target) (output_formats o).

Definition native_image_surrogate_public_target (target : path) (o : NativeObjectExportOptions) : path :=
  if negb (has_extension "bmp" target) then target
  else set_extension (image_format_extension (hd Png (output_formats o))) target.

(** [struct NativeSemanticExportPathState]; an ACB source and a pending image are
    their target and payload. *)
Record NativeSemanticExportPathState : Type := mkPathState {
  claims : claim_map;
  written_files : list path;
  acb_sources : list (path * bytes);
  pending_image_writes : list (path * bytes);
  pending_image_bytes : Z
}.

Definition path_state_default : NativeSemanticExportPathState := mkPathState ∅ [] [] [] 0.

Definition set_claims (c : claim_map) (st : NativeSemanticExportPathState) :=
  mkPathState c (written_files st) (acb_sources st) (pending_image_writes st) (pending_image_bytes st).
Definition push_written (l : list path) (st : NativeSemanticExportPathState) :=
  mkPathState (claims st) (written_files st ++ l) (acb_sources st) (pending_image_writes st)
    (pending_image_bytes st).
Definition push_acb (target : path) (payload : bytes) (st : NativeSemanticExportPathState) :=
  mkPathState (claims st) (written_files st) (acb_sources st ++ [(target, payload)])
    (pending_image_writes st) (pending_image_bytes st).

Definition queue_native_image_payload_final_files (st : NativeSemanticExportPathState) (target : path)
    (payload : bytes) (o : NativeObjectExportOptions) : NativeSemanticExportPathState * list path :=
  (mkPathState (claims st) (written_files st) (acb_sources st)
     (pending_image_writes st ++ [(target, payload)])
     (saturating_add 64 (pending_image_bytes st) (zlen payload)),
   planned_image_output_files target o).

(** [create_dir_all]: the directory and everything above it. *)
Fixpoint prefixes (p : path) : list path :=
  match p with
  | [] => []
  | c :: p' => [c] :: map (cons c) (prefixes p')
  end.
Definition create_dir_all (p : path) (d : disk) : disk :=
  mkDisk (d_files d) (d_dirs d ∪ list_to_set (prefixes p)).

Definition write_file (p : path) (content : bytes) (d : disk) : disk :=
  mkDisk (<[p := content]> (d_files d)) (d_dirs d).

(** [struct NativeAssetStudioExportManifestEntry]. *)
Record ManifestEntry : Type := mkManifestEntry {
  me_path : string;
  me_asset_type : option string;
  me_name : option string;
  me_container : option string;
  me_payload_kind : option string;
  me_suggested_extension : option string
}.

(** What the exporter gets from outside: errors of the operating system when a
    path is written (or a directory created), the JSON serializer and parser, the
    image encoders, and the order in which the image workers happen to finish. *)
Class ExportEnv := {
  io : path -> option io_error;
  to_line : ManifestEntry -> result bytes string;
  typetree_from_slice : bytes -> result bundle_typetree string;
  encode_image : bytes -> ImageOutputFormat -> result bytes ExportPipelineError;
  playable_json : string -> list (AssetStudioFfiAssetInfo * ObjectReadOutput) -> result bytes ExportPipelineError;
  image_order : list (path * bytes) -> list (path * bytes);
  image_order_perm : forall l, Permutation (image_order l) l
}.

Definition ASSETSTUDIO_MANIFEST_LOCKS : Z := 64.

Definition manifest_lock_index (p : string) : Z :=
  foldl (fun hash b => wrapping_add 64 (truncate 64 (hash * 131)) (byte_to_Z b)) 0 (as_bytes p)
  mod ASSETSTUDIO_MANIFEST_LOCKS.

(** The index is always that of one of the 64 locks. *)
Lemma manifest_lock_index_bound p : 0 <= manifest_lock_index p < ASSETSTUDIO_MANIFEST_LOCKS.
Proof. apply Z.mod_pos_bound. done. Qed.

Section Objects.
Context `{UnicodeCase} `{ExportEnv}.

(** An operation on the path state and the disk that can fail. *)
Abbreviation export_result A :=
  (NativeSemanticExportPathState * disk * result A ExportPipelineError)%type.

Definition io_check (p : path) (d d' : disk) : disk * result unit ExportPipelineError :=
  match io p with
  | Some e => (d, Err (ExportIo (path_str p) e))
  | None => (d', Ok tt)
  end.

Definition write_native_payload_file (target : path) (payload : bytes) (d : disk)
  : disk * result unit ExportPipelineError :=
  io_check target d (write_file target payload d).

(** ** The manifest *)

Definition assetstudio_manifest_public_target (target : path) (out : ObjectReadOutput)
  : result path ExportPipelineError :=
  if existsb (fun k => bool_decide (payload_kind (read_response out) = Some k)) ["image_bmp"; "image_raw_rgba"]
  then Ok (if has_extension "bmp" target then set_extension "png" target else target)
  else if bool_decide (payload_kind (read_response out) = Some "animator_bundle_fbx") then
    let? entries := parse_payload_bundle_borrowed (read_payload out) in
    let name :=
      match List.find (fun e => has_extension "fbx" (components e.1)) entries with
      | Some e => e.1
      | None => match entries with e :: _ => e.1 | [] => "payload.bin" end
      end in
    Ok (payload_bundle_entry_target target name)
  else Ok target.

Definition manifest_suggested_extension (public_target : path) (out : ObjectReadOutput) : option string :=
  match extension public_target with
  | Some e => if blank e then suggested_extension (read_response out) else Some ("." +:+ e)
  | None => suggested_extension (read_response out)
  end.

Definition manifest_path (output_dir : path) : path :=
  join_str output_dir ".assetstudio-export-manifest.jsonl".

Definition write_assetstudio_export_manifest_entry (output_dir target : path)
    (asset : AssetStudioFfiAssetInfo) (out : ObjectReadOutput) (d : disk)
  : disk * result unit ExportPipelineError :=
  match io_check output_dir d (create_dir_all output_dir d) with
  | (d, Err e) => (d, Err e)
  | (d, Ok _) =>
      match assetstudio_manifest_public_target target out with
      | Err e => (d, Err e)
      | Ok public_target =>
          let p := replace_char "\" "/"
                     (path_str (default public_target (path_strip_prefix output_dir public_target))) in
          let entry := mkManifestEntry p (asset_type asset) (asset_name asset) (asset_container asset)
                         (payload_kind (read_response out)) (manifest_suggested_extension public_target out) in
          match to_line entry with
          | Err e => (d, Err (ExportFfiSerialize e))
          | Ok line =>
              let mp := manifest_path output_dir in
              io_check mp d
                (write_file mp (default [] (d_files d !! mp) ++ line ++ as_bytes (String "010" "")) d)
          end
      end
  end.

(** One manifest entry per written file. *)
Fixpoint write_manifest_entries (o : NativeObjectExportOptions) (targets : list path)
    (asset : AssetStudioFfiAssetInfo) (out : ObjectReadOutput) (d : disk)
  : disk * result unit ExportPipelineError :=
  match targets with
  | [] => (d, Ok tt)
  | t :: targets' =>
      match write_assetstudio_export_manifest_entry (output_dir o)
              (native_image_surrogate_public_target t o) asset out d with
      | (d, Err e) => (d, Err e)
      | (d, Ok _) => write_manifest_entries o targets' asset out d
      end
  end.

(** ** Bundles of images *)

Fixpoint queue_entries (st : NativeSemanticExportPathState) (d : disk) (target : path)
    (entries : list entry) (o : NativeObjectExportOptions) : export_result (list path) :=
  match entries with
  | [] => (st, d, Ok [])
  | (name, data) :: entries' =>
      let entry_target := set_extension "png" (payload_bundle_entry_target target name) in
      let entry_parent := parent_or_empty entry_target in
      match io_check entry_parent d (create_dir_all entry_parent d) with
      | (d, Err e) => (st, d, Err e)
      | (d, Ok _) =>
          let '(st, files) := queue_native_image_payload_final_files st entry_target data o in
          let '(st, d, r) := queue_entries st d target entries' o in
          (st, d, let? more := r in Ok (files ++ more))
      end
  end.

Definition queue_native_image_payload_bundle_final_files (st : NativeSemanticExportPathState) (d : disk)
    (target : path) (payload : bytes) (o : NativeObjectExportOptions) : export_result (list path) :=
  match parse_payload_bundle_borrowed payload with
  | Err e => (st, d, Err e)
  | Ok entries => queue_entries st d target entries o
  end.

(** [write_payload_bundle] on the disk, with the directories it creates. *)
Definition write_payload_bundle_disk (target : path) (payload : bytes) (d : disk)
  : disk * result (list path) ExportPipelineError :=
  let '(fs, r) := write_payload_bundle io (d_files d) target payload in
  (mkDisk fs (match r with
              | Ok files => d_dirs d ∪ list_to_set (concat (map (fun f => prefixes (parent_or_empty f)) files))
              | Err _ => d_dirs d
              end), r).

(** ** One object *)

(** The files an object with a claimed target is written to. *)
Definition write_object_files (o : NativeObjectExportOptions) (st : NativeSemanticExportPathState) (d : disk)
    (target : path) (kind : string) (payload : bytes) : export_result (list path) :=
  if String.eqb kind "image_array_bundle_raw_rgba"
  then queue_native_image_payload_bundle_final_files st d target payload o
  else if starts_with "image_array_bundle_" kind || String.eqb kind "animator_bundle_fbx" then
    let '(d, r) := write_payload_bundle_disk target payload d in (st, d, r)
  else if existsb (String.eqb kind) ["image_bmp"; "image_raw_rgba"] then
    let '(st, files) := queue_native_image_payload_final_files st target payload o in (st, d, Ok files)
  else
    let '(d, r) := write_native_payload_file target payload d in
    (st, d, let? _ := r in Ok [target]).

(** The target an object would be written to, before it is claimed. *)
Definition object_target (o : NativeObjectExportOptions) (asset : AssetStudioFfiAssetInfo)
    (out : ObjectReadOutput) : result path ExportPipelineError :=
  let kind := payload_kind (read_response out) in
  let target := native_object_output_path (output_dir o) (export_path o) (strip_path_prefix o)
                  (opt_by_category o) asset kind (suggested_extension (read_response out)) in
  let target := default target (text_asset_public_bytes_target target asset) in
  let? typetree := assetbundle_typetree_output_path typetree_from_slice (output_dir o) (export_path o)
                     (strip_path_prefix o) (opt_by_category o) asset kind (read_payload out) in
  Ok (default target typetree).

(** [write_native_object_payload] after its target was claimed. *)
Definition write_claimed_object (o : NativeObjectExportOptions) (st : NativeSemanticExportPathState) (d : disk)
    (asset : AssetStudioFfiAssetInfo) (out : ObjectReadOutput) (target : path) : export_result unit :=
  let parent := parent_or_empty target in
  match io_check parent d (create_dir_all parent d) with
  | (d, Err e) => (st, d, Err e)
  | (d, Ok _) =>
      let kind := unwrap_or_default (payload_kind (read_response out)) in
      if is_text_asset_acb_target asset target
      then (push_acb target (read_payload out) st, d, Ok tt)
      else
        match write_object_files o st d target kind (read_payload out) with
        | (st, d, Err e) => (st, d, Err e)
        | (st, d, Ok files) =>
            let manifest_target :=
              if existsb (String.eqb kind) ["image_bmp"; "image_raw_rgba"]
              then native_image_surrogate_public_target target o else target in
            let st := push_written files st in
            if is_text_asset_decoded_usm_target (usm_export o) (usm_decode o) asset target
            then (st, d, Ok tt)
            else
              let '(d, r) :=
                if starts_with "image_array_bundle_" kind
                then write_manifest_entries o files asset out d
                else write_assetstudio_export_manifest_entry (output_dir o) manifest_target asset out d in
              (st, d, r)
        end
  end.

(** [None] from the claim would mean that its loop does not end; see
    [claim_exact] and [object_target_wf]. *)
Definition write_native_object_payload (o : NativeObjectExportOptions) (st : NativeSemanticExportPathState)
    (d : disk) (asset : AssetStudioFfiAssetInfo) (out : ObjectReadOutput) : export_result unit :=
  if bool_decide (read_payload out = [])
     || bool_decide (payload_kind (read_response out) = Some "unsupported")
  then (st, d, Ok tt)
  else
    match object_target o asset out with
    | Err e => (st, d, Err e)
    | Ok target =>
        match claim_with_signature d (claims st) target (Some (native_payload_signature asset out)) with
        | None => (st, d, Err (ExportAssetStudioFfi "unreachable"))
        | Some (_, Duplicate _) => (st, d, Ok tt)
        | Some (c, Claimed target) => write_claimed_object o (set_claims c st) d asset out target
        end
    end.

(** ** Flushing images *)

(** [write_native_image_payload_final_files_with_backend]. *)
Fixpoint write_formats (target : path) (payload : bytes) (formats : list ImageOutputFormat) (d : disk)
  : disk * result unit ExportPipelineError :=
  match formats with
  | [] => (d, Ok tt)
  | f :: formats' =>
      let output := image_output_file_for_format target f in
      match encode_image payload f with
      | Err e => (d, Err e)
      | Ok content =>
          match io_check output d (write_file output content d) with
          | (d, Err e) => (d, Err e)
          | (d, Ok _) => write_formats target payload formats' d
          end
      end
  end.

Definition write_image (o : NativeObjectExportOptions) (job : path * bytes) (d : disk)
  : disk * result unit ExportPipelineError :=
  match (if bytes_start_with NATIVE_AOT_RGBA_IR_MAGIC job.2
         then let? _ := parse_native_rgba_ir_payload job.2 in Ok tt else Ok tt) with
  | Err e => (d, Err e)
  | Ok _ => write_formats job.1 job.2 (output_formats o) d
  end.

Fixpoint write_images (o : NativeObjectExportOptions) (jobs : list (path * bytes)) (d : disk)
  : disk * result unit ExportPipelineError :=
  match jobs with
  | [] => (d, Ok tt)
  | job :: jobs' =>
      match write_image o job d with
      | (d, Err e) => (d, Err e)
      | (d, Ok _) => write_images o jobs' d
      end
  end.

Definition flush_pending_native_image_writes_with (o : NativeObjectExportOptions)
    (pending : list (path * bytes)) (d : disk) : disk * result unit ExportPipelineError :=
  write_images o (image_order pending) d.

Definition flush_queued_native_images_if_over_threshold (o : NativeObjectExportOptions)
    (st : NativeSemanticExportPathState) (d : disk) : export_result unit :=
  match image_flush o with
  | None => (st, d, Ok tt)
  | Some flush_bytes =>
      if bool_decide (pending_image_writes st = []) || (pending_image_bytes st <? flush_bytes)
      then (st, d, Ok tt)
      else
        let st' := mkPathState (claims st) (written_files st) (acb_sources st) [] 0 in
        let '(d, r) := flush_pending_native_image_writes_with o (pending_image_writes st) d in
        (st', d, r)
  end.

(** ** Playable timelines

    The type trees of the MonoBehaviours of one [.playable] container are written
    as one JSON document. *)
Definition is_playable_mono_typetree (asset : AssetStudioFfiAssetInfo) (out : ObjectReadOutput) : bool :=
  type_is (assetstudio_type_selector_matches "MonoBehaviour") asset
  && bool_decide (payload_kind (read_response out) = Some "typetree_json")
  && match asset_container asset with
     | Some c => match strip_suffix ".playable" (to_ascii_lowercase (replace_char "\" "/" c)) with
                 | Some _ => true | None => false end
     | None => false
     end.

(** The container an output is grouped under. *)
Definition playable_container (asset : AssetStudioFfiAssetInfo) : option string :=
  match asset_container asset with
  | Some c => if blank c then None else Some (replace_char "\" "/" c)
  | None => None
  end.

(** [Option<String>::cmp], then the index. *)
Definition playable_le (a b : AssetStudioFfiAssetInfo * ObjectReadOutput) : bool :=
  match asset_name a.1, asset_name b.1 with
  | None, Some _ => true
  | Some _, None => false
  | None, None => asset_index a.1 <=? asset_index b.1
  | Some x, Some y =>
      if String.eqb x y then asset_index a.1 <=? asset_index b.1 else String.leb x y
  end.

(** One document, for the entries of one container. *)
Definition write_playable (o : NativeObjectExportOptions) (st : NativeSemanticExportPathState) (d : disk)
    (container : string) (entries : list (AssetStudioFfiAssetInfo * ObjectReadOutput)) : export_result unit :=
  let entries := merge_sort (fun a b => Is_true (playable_le a b)) entries in
  match playable_json container entries with
  | Err e => (st, d, Err e)
  | Ok payload =>
      match entries with
      | [] => (st, d, ffi_error "playable export has no objects")
      | (asset, out) :: _ =>
          let wanted := playable_container_output_path (output_dir o) (export_path o) (strip_path_prefix o)
                          (opt_by_category o) container in
          match claim_with_signature d (claims st) wanted None with
          | None => (st, d, ffi_error "unreachable")
          | Some (c, (Claimed target | Duplicate target)) =>
              let st := set_claims c st in
              let parent := parent_or_empty target in
              match io_check parent d (create_dir_all parent d) with
              | (d, Err e) => (st, d, Err e)
              | (d, Ok _) =>
                  match write_native_payload_file target payload d with
                  | (d, Err e) => (st, d, Err e)
                  | (d, Ok _) =>
                      let '(d, r) :=
                        write_assetstudio_export_manifest_entry (output_dir o) target asset out d in
                      (push_written [target] st, d, r)
                  end
              end
          end
      end
  end.

Fixpoint write_playables (o : NativeObjectExportOptions) (st : NativeSemanticExportPathState) (d : disk)
    (outputs : list (AssetStudioFfiAssetInfo * ObjectReadOutput)) (containers : list string)
  : export_result unit :=
  match containers with
  | [] => (st, d, Ok tt)
  | c :: containers' =>
      match write_playable o st d c
              (List.filter (fun e => bool_decide (playable_container e.1 = Some c)) outputs) with
      | (st, d, Err e) => (st, d, Err e)
      | (st, d, Ok _) => write_playables o st d outputs containers'
      end
  end.

(** Outputs without a container are written alone. *)
Fixpoint write_lone_playables (o : NativeObjectExportOptions) (st : NativeSemanticExportPathState) (d : disk)
    (outputs : list (AssetStudioFfiAssetInfo * ObjectReadOutput)) : export_result unit :=
  match outputs with
  | [] => (st, d, Ok tt)
  | (asset, out) :: outputs' =>
      match playable_container asset with
      | Some _ => write_lone_playables o st d outputs'
      | None =>
          match write_native_object_payload o st d asset out with
          | (st, d, Err e) => (st, d, Err e)
          | (st, d, Ok _) => write_lone_playables o st d outputs'
          end
      end
  end.

(** The keys of the [BTreeMap]: the distinct containers in order. *)
Definition playable_containers (outputs : list (AssetStudioFfiAssetInfo * ObjectReadOutput)) : list string :=
  merge_sort String.le (remove_dups (omap (fun e => playable_container e.1) outputs)).

Definition write_assetstudio_playable_payloads (o : NativeObjectExportOptions)
    (st : NativeSemanticExportPathState) (d : disk)
    (outputs : list (AssetStudioFfiAssetInfo * ObjectReadOutput)) : export_result unit :=
  match write_lone_playables o st d outputs with
  | (st, d, Err e) => (st, d, Err e)
  | (st, d, Ok _) => write_playables o st d outputs (playable_containers outputs)
  end.
End Objects.

(** ** Targets are well-formed paths *)

Lemma wf_app p q : wf_path p -> wf_path q -> wf_path (p ++ q).
Proof. intros Hp Hq w Hw. apply elem_of_app in Hw as [Hw|Hw]; [by apply Hp | by apply Hq]. Qed.

Lemma wf_join p q : wf_path p -> wf_path q -> wf_path (path_join p q).
Proof.
  intros Hp Hq. unfold path_join. destruct (is_absolute q); [done|]. apply wf_app; [done|].
  destruct p, q as [|[]]; try done. intros w Hw. apply Hq. by right.
Qed.

Lemma wf_join_str p s : wf_path p -> wf_path (join_str p s).
Proof. intros. apply wf_join; [done | apply wf_components]. Qed.

Lemma wf_removelast p : wf_path p -> wf_path (removelast p).
Proof.
  intros Hp. destruct p as [|c p]; [done|]. destruct (exists_last (l := c :: p)) as (i & x & E); [done|].
  rewrite E in *. rewrite removelast_snoc. intros w Hw. apply Hp, elem_of_app. by left.
Qed.

Lemma wf_parent p : wf_path p -> wf_path (parent_or_empty p).
Proof.
  intros Hp. unfold parent_or_empty, path_parent.
  destruct (last p) as [[]|]; simpl; try (by intros w Hw; inversion Hw); by apply wf_removelast.
Qed.

Lemma wf_normal w : proper_file w -> wf_path [Normal w].
Proof. intros Hw x Hx. apply list_elem_of_singleton in Hx. by simplify_eq. Qed.

Lemma wf_set_extension e p : e <> "" -> has_char "/" e = false -> wf_path p -> wf_path (set_extension e p).
Proof.
  intros He Hs Hp. unfold set_extension. destruct (file_stem_parts p Hp) as [(q & w & -> & Hw & _)|(Hf & _)].
  - rewrite file_name_snoc, removelast_snoc. apply wf_app.
    + intros x Hx. apply Hp, elem_of_app. by left.
    + apply wf_normal. apply proper_file_parts in Hw as [Hne Hsl].
      destruct (split_extension_parts w Hne Hsl) as (? & ? & _). by apply dotted_proper.
  - by rewrite Hf.
Qed.

Section Wf.
Context `{UnicodeCase} `{ExportEnv}.

Lemma wf_semantic p asset : wf_path p -> wf_path (semantic_assetstudio_object_output_path p asset).
Proof.
  intros Hp. unfold semantic_assetstudio_object_output_path, member_cutout_sprite_output_path,
    named_flat_subasset_output_path, named_subasset_output_path, subasset_file.
  repeat case_match; try done; repeat apply wf_join_str; by apply wf_parent.
Qed.

Lemma wf_object_path out ep pre cat asset kind sug :
  wf_path out -> wf_path (native_object_output_path out ep pre cat asset kind sug).
Proof.
  intros Ho. unfold native_object_output_path. cbv zeta. apply wf_semantic.
  set (p := if cat then _ else _).
  assert (Hp : wf_path p).
  { unfold p. destruct cat; [apply wf_join; [done | apply wf_components]|].
    apply wf_join; [by apply wf_join_str|]. destruct (file_name _) as [w|] eqn:E; [|apply wf_components].
    apply wf_normal. eapply components_normal_inner. unfold file_name in E.
    destruct (last _) as [[]|] eqn:El; simplify_eq. by apply last_In. }
  pose proof (output_extension_plain asset kind sug) as He. unfold plain_extension in He.
  destruct (is_empty _); [done|]. simpl in He. apply andb_true_iff in He as [H1 H2].
  apply wf_set_extension; [|by apply negb_true_iff|done]. intros E. by rewrite E in H1.
Qed.

Lemma wf_text_target target asset t :
  wf_path target -> text_asset_public_bytes_target target asset = Some t -> wf_path t.
Proof.
  intros Ht. unfold text_asset_public_bytes_target, with_file_name.
  repeat case_match; intros; simplify_eq; by apply wf_join_str, wf_parent.
Qed.

Lemma wf_safe_path name : wf_path (safe_payload_bundle_path name).
Proof.
  unfold safe_payload_bundle_path. cbv zeta.
  set (safe := filter _ _). assert (Hs : wf_path safe).
  { intros w Hw. apply list_elem_of_filter in Hw as [_ Hw]. by eapply components_normal_inner. }
  destruct safe; [|done]. apply wf_normal. by apply proper_file_dec.
Qed.

Lemma wf_typetree out ep pre cat asset kind payload t :
  wf_path out -> assetbundle_typetree_output_path typetree_from_slice out ep pre cat asset kind payload = Ok (Some t) ->
  wf_path t.
Proof.
  intros Ho. unfold assetbundle_typetree_output_path. destruct (_ || _); [done|].
  intros (data & _ & E)%result_bind_Ok. cbv zeta in E. destruct cat; simpl negb in E; cbv iota in E.
  2: { injection E as <-. apply wf_join_str, wf_join; [by apply wf_join_str | apply wf_safe_path]. }
  set (rels := map _ _) in E. set (cats := remove_dups _) in E. set (pars := remove_dups _) in E.
  assert (Hpars : Forall wf_path pars).
  { apply Forall_forall. intros x Hx. apply elem_of_remove_dups, list_elem_of_omap in Hx as (r & Hr & Ex).
    apply list_elem_of_fmap in Hr as (key & -> & _).
    assert (path_parent (components (strip_container_prefix key pre)) = Some x) as Hpar
      by (destruct (path_parent _) as [[]|]; naive_solver).
    pose proof (wf_parent _ (wf_components (strip_container_prefix key pre))) as Hw.
    unfold parent_or_empty in Hw. by rewrite Hpar in Hw. }
  injection E as <-.
  destruct cats as [|c [|]]; [destruct pars as [|x [|]]|..]; apply wf_join_str;
    (apply wf_join; [by try apply wf_join_str | try apply wf_safe_path]).
  by inversion Hpars.
Qed.

(** The claim of an object's target always returns. *)
Lemma object_target_wf o asset out t :
  wf_path (output_dir o) -> object_target o asset out = Ok t -> wf_path t.
Proof.
  intros Ho. unfold object_target. cbv zeta. intros (tt' & Et & E)%result_bind_Ok. injection E as <-.
  destruct tt' as [t'|]; simpl; [by eapply wf_typetree in Et|].
  pose proof (wf_object_path (output_dir o) (export_path o) (strip_path_prefix o) (opt_by_category o) asset
                (payload_kind (read_response out)) (suggested_extension (read_response out)) Ho) as Hp.
  destruct (text_asset_public_bytes_target _ _) eqn:E; simpl; [by eapply wf_text_target in E | done].
Qed.
End Wf.

(** ** Queued images are accounted for *)

Definition pending_total (st : NativeSemanticExportPathState) : Z :=
  sumZ (map (fun j => zlen j.2) (pending_image_writes st)).

(** The running total is the size of the queued payloads (saturating). *)
Definition pending_ok (st : NativeSemanticExportPathState) : Prop :=
  pending_image_bytes st = Z.min (pending_total st) u64_max.

Lemma pending_ok_eq st st' :
  pending_image_writes st' = pending_image_writes st -> pending_image_bytes st' = pending_image_bytes st ->
  pending_ok st -> pending_ok st'.
Proof. unfold pending_ok, pending_total. by intros -> ->. Qed.

(** [st'] queues nothing, or queues soundly. *)
Definition pending_step (st st' : NativeSemanticExportPathState) : Prop := pending_ok st -> pending_ok st'.

(** Closes the branches that queue nothing. *)
Ltac pending_done :=
  intros; simplify_eq; first [assumption | by intros ? | by apply pending_ok_eq].

Section Accounting.
Context `{UnicodeCase} `{ExportEnv}.

Lemma queue_pending st target payload o :
  pending_step st (queue_native_image_payload_final_files st target payload o).1.
Proof.
  unfold pending_step, pending_ok, pending_total. simpl. intros ->. rewrite map_app, sumZ_app. simpl.
  pose proof (zlen_nonneg payload). unfold saturating_add, u64_max, sumZ. simpl. lia.
Qed.

Lemma queue_entries_pending st d target entries o st' d' r :
  queue_entries st d target entries o = (st', d', r) -> pending_step st st'.
Proof.
  revert st d st' d' r. induction entries as [|[name data] entries IH]; intros st d st' d' r E; cbn [queue_entries] in E.
  - pending_done.
  - cbv zeta in E. destruct (io_check _ _ _) as [d1 [[]|e]]; [|pending_done].
    destruct (queue_native_image_payload_final_files _ _ _ _) as [st1 fs] eqn:Eq.
    destruct (queue_entries st1 _ _ _ _) as [[st2 d2] r2] eqn:E2. injection E as <- <- <-.
    intros Hok. eapply IH; [exact E2|].
    pose proof (queue_pending st (set_extension "png" (payload_bundle_entry_target target name)) data o) as Hq.
    rewrite Eq in Hq. by apply Hq.
Qed.

Lemma write_object_files_pending o st d target kind payload st' d' r :
  write_object_files o st d target kind payload = (st', d', r) -> pending_step st st'.
Proof.
  unfold write_object_files, queue_native_image_payload_bundle_final_files. intros E.
  destruct (String.eqb _ _).
  - destruct (parse_payload_bundle_borrowed payload); [by eapply queue_entries_pending | pending_done].
  - destruct (_ || _); [destruct (write_payload_bundle_disk _ _ _); pending_done|].
    destruct (existsb _ _).
    + pose proof (queue_pending st target payload o).
      destruct (queue_native_image_payload_final_files _ _ _ _). pending_done.
    + destruct (write_native_payload_file _ _ _). pending_done.
Qed.

Lemma write_claimed_pending o st d asset out target st' d' r :
  write_claimed_object o st d asset out target = (st', d', r) -> pending_step st st'.
Proof.
  unfold write_claimed_object. cbv zeta. intros E. destruct (io_check _ _ _) as [d1 [[]|e]]; [|pending_done].
  destruct (is_text_asset_acb_target _ _); [pending_done|].
  destruct (write_object_files _ _ _ _ _ _) as [[st1 d2] [files|e]] eqn:E1;
    apply write_object_files_pending in E1; [|pending_done].
  assert (Hp : pending_step st (push_written files st1)) by (intros Hok; by apply (pending_ok_eq st1); auto).
  destruct (is_text_asset_decoded_usm_target _ _ _ _); [pending_done|].
  match type of E with (let '(_, _) := ?x in _) = _ => destruct x end. pending_done.
Qed.

Lemma write_object_pending o st d asset out st' d' r :
  write_native_object_payload o st d asset out = (st', d', r) -> pending_step st st'.
Proof.
  unfold write_native_object_payload. destruct (_ || _); [pending_done|].
  destruct (object_target o asset out) as [t|e]; [|pending_done].
  destruct (claim_with_signature _ _ _ _) as [[c [q|q]]|]; intros E; try pending_done.
  intros Hok. eapply write_claimed_pending; [exact E|]. by apply (pending_ok_eq st).
Qed.

Lemma flush_pending o st d st' d' r :
  flush_queued_native_images_if_over_threshold o st d = (st', d', r) ->
  pending_step st st'
  /\ forall b, image_flush o = Some b -> b <= u64_max -> pending_ok st ->
       pending_image_writes st' = [] \/ pending_total st' < b.
Proof.
  unfold flush_queued_native_images_if_over_threshold, pending_step.
  destruct (image_flush o) as [b|]; [|intros; simplify_eq; split; [done | by intros]].
  destruct (bool_decide_reflect (pending_image_writes st = [])) as [E0|E0]; simpl.
  { intros; simplify_eq. split; [done|]. intros; simplify_eq. by left. }
  destruct (Z.ltb_spec (pending_image_bytes st) b).
  { intros; simplify_eq. split; [done|]. intros b' ? ? Hok; simplify_eq. right. unfold pending_ok in Hok. lia. }
  destruct (flush_pending_native_image_writes_with _ _ _). intros; simplify_eq. split; [|by intros; left].
  intros _. done.
Qed.

Lemma write_playable_pending o st d c es st' d' r :
  write_playable o st d c es = (st', d', r) -> pending_step st st'.
Proof.
  unfold write_playable. cbv zeta. intros E.
  destruct (playable_json _ _) as [doc|]; [|pending_done]. destruct (merge_sort _ _) as [|[a out] l]; [pending_done|].
  destruct (claim_with_signature _ _ _ _) as [[c' [q|q]]|]; try pending_done.
  all: destruct (io_check _ _ _) as [d1 [[]|e]]; [|pending_done];
    destruct (write_native_payload_file _ _ _) as [d2 [[]|e]]; [|pending_done];
    destruct (write_assetstudio_export_manifest_entry _ _ _ _ _); pending_done.
Qed.

Lemma write_playables_pending o st d outs cs st' d' r :
  write_playables o st d outs cs = (st', d', r) -> pending_step st st'.
Proof.
  revert st d. induction cs as [|c cs IH]; intros st d E; cbn [write_playables] in E; [pending_done|].
  destruct (write_playable _ _ _ _ _) as [[st1 d1] [[]|e]] eqn:E1; apply write_playable_pending in E1.
  - intros Hok. eapply IH; [exact E|]. by apply E1.
  - pending_done.
Qed.

Lemma write_lone_pending o st d outs st' d' r :
  write_lone_playables o st d outs = (st', d', r) -> pending_step st st'.
Proof.
  revert st d. induction outs as [|[a out] outs IH]; intros st d E; cbn [write_lone_playables] in E; [pending_done|].
  destruct (playable_container a); [by eapply IH|].
  destruct (write_native_object_payload _ _ _ _ _) as [[st1 d1] [[]|e]] eqn:E1; apply write_object_pending in E1.
  - intros Hok. eapply IH; [exact E|]. by apply E1.
  - pending_done.
Qed.

Lemma playables_pending o st d outs st' d' r :
  write_assetstudio_playable_payloads o st d outs = (st', d', r) -> pending_step st st'.
Proof.
  unfold write_assetstudio_playable_payloads. intros E.
  destruct (write_lone_playables _ _ _ _) as [[st1 d1] [[]|e]] eqn:E1; apply write_lone_pending in E1.
  - intros Hok. eapply write_playables_pending; [exact E|]. by apply E1.
  - pending_done.
Qed.

(** C37: The path state stays well-formed under every operation of the exporter: the
    running total of queued image bytes is always the size of the queued payloads,
    saturated to 64 bits, after writing an object, after writing the playables and
    after a flush, whatever fails; and a flush leaves the queue empty or below the
    configured threshold. *)
Theorem path_state_typed o st d :
  pending_ok st ->
  0 <= pending_image_bytes st <= u64_max
  /\ (forall asset out st' d' r, write_native_object_payload o st d asset out = (st', d', r) -> pending_ok st')
  /\ (forall outs st' d' r, write_assetstudio_playable_payloads o st d outs = (st', d', r) -> pending_ok st')
  /\ (forall st' d' r, flush_queued_native_images_if_over_threshold o st d = (st', d', r) ->
        pending_ok st'
        /\ forall b, image_flush o = Some b -> b <= u64_max ->
             pending_image_writes st' = [] \/ pending_total st' < b).
Proof.
  intros Hok. split; [|split_and!].
  - assert (0 <= pending_total st).
    { apply sumZ_nonneg, Forall_forall. intros z Hz. apply list_elem_of_fmap in Hz as (j & -> & _). apply zlen_nonneg. }
    unfold pending_ok in Hok. unfold u64_max, u_max in *. lia.
  - intros asset out st' d' r E. by apply write_object_pending in E; apply E.
  - intros outs st' d' r E. by apply playables_pending in E; apply E.
  - intros st' d' r E. apply flush_pending in E as [E1 E2]. split; [by apply E1|]. intros b Eb Hb. by apply E2.
Qed.
End Accounting.

(** ** Objects do not overwrite files *)

(** Every file is kept, except that the manifest [mp] may grow at its end. *)
Definition keeps (mp : path) (d d' : disk) : Prop :=
  forall q c, d_files d !! q = Some c ->
    exists s, d_files d' !! q = Some (c ++ s) /\ (q <> mp -> s = []).

Lemma keeps_refl mp d : keeps mp d d.
Proof. intros q c E. exists []. by rewrite app_nil_r. Qed.

Lemma keeps_trans mp d1 d2 d3 : keeps mp d1 d2 -> keeps mp d2 d3 -> keeps mp d1 d3.
Proof.
  intros H1 H2 q c E. apply H1 in E as (s & E & Hs). apply H2 in E as (s' & E & Hs').
  exists (s ++ s'). rewrite app_assoc. split; [done|]. intros Hq. by rewrite Hs, Hs'.
Qed.

Lemma keeps_dirs mp d p : keeps mp d (create_dir_all p d).
Proof. intros q c E. exists []. by rewrite app_nil_r. Qed.

Lemma keeps_new mp d p content : d_files d !! p = None -> keeps mp d (write_file p content d).
Proof.
  intros Hn q c E. exists []. rewrite app_nil_r. split; [|done]. simpl.
  rewrite lookup_insert_ne by congruence. done.
Qed.

Section Keeps.
Context `{UnicodeCase} `{ExportEnv}.

Lemma io_check_keeps mp p d d1 d' r : io_check p d d1 = (d', r) -> keeps mp d d1 -> keeps mp d d'.
Proof. unfold io_check. destruct (io p); intros E Hk; simplify_eq; [apply keeps_refl | done]. Qed.

Lemma manifest_entry_keeps out target asset ro d d' r :
  write_assetstudio_export_manifest_entry out target asset ro d = (d', r) -> keeps (manifest_path out) d d'.
Proof.
  unfold write_assetstudio_export_manifest_entry. cbv zeta. intros E.
  destruct (io_check out d _) as [d1 r1] eqn:E1.
  apply (io_check_keeps (manifest_path out)) in E1; [|apply keeps_dirs].
  destruct r1 as [[]|e]; [|by simplify_eq].
  destruct (assetstudio_manifest_public_target target ro) as [pt|e]; [|by simplify_eq].
  destruct (to_line _) as [line|e]; [|by simplify_eq].
  eapply keeps_trans; [exact E1|]. eapply io_check_keeps; [exact E|].
  intros q c Eq. simpl. destruct (decide (q = manifest_path out)) as [->|Hne].
  - rewrite Eq, lookup_insert_eq. simpl. by eexists.
  - rewrite lookup_insert_ne by done. exists []. by rewrite app_nil_r.
Qed.

Lemma manifest_entries_keeps o targets asset ro d d' r :
  write_manifest_entries o targets asset ro d = (d', r) -> keeps (manifest_path (output_dir o)) d d'.
Proof.
  revert d. induction targets as [|t targets IH]; intros d E; cbn [write_manifest_entries] in E.
  - simplify_eq. apply keeps_refl.
  - destruct (write_assetstudio_export_manifest_entry _ _ _ _ _) as [d1 [[]|e]] eqn:E1;
      apply manifest_entry_keeps in E1; [|by simplify_eq]. eapply keeps_trans; [exact E1|]. by eapply IH.
Qed.

Lemma queue_entries_keeps mp st d target entries o st' d' r :
  queue_entries st d target entries o = (st', d', r) -> keeps mp d d'.
Proof.
  revert st d st' d' r. induction entries as [|[name data] entries IH]; intros st d st' d' r E; cbn [queue_entries] in E.
  - simplify_eq. apply keeps_refl.
  - cbv zeta in E. destruct (io_check _ _ _) as [d1 r1] eqn:E1.
    apply (io_check_keeps mp) in E1; [|apply keeps_dirs]. destruct r1 as [[]|e]; [|by simplify_eq].
    destruct (queue_native_image_payload_final_files _ _ _ _) as [st1 fs].
    destruct (queue_entries st1 _ _ _ _) as [[st2 d2] r2] eqn:E2. injection E as <- <- <-.
    eapply keeps_trans; [exact E1|]. by eapply IH.
Qed.

(** The payload is a bundle that is unpacked into a directory. *)
Definition unpacks (kind : string) : bool :=
  negb (String.eqb kind "image_array_bundle_raw_rgba")
  && (starts_with "image_array_bundle_" kind || String.eqb kind "animator_bundle_fbx").

Lemma write_object_files_keeps mp o st d target kind payload st' d' r :
  unpacks kind = false -> d_files d !! target = None ->
  write_object_files o st d target kind payload = (st', d', r) -> keeps mp d d'.
Proof.
  unfold unpacks, write_object_files, queue_native_image_payload_bundle_final_files. intros Hk Hn E.
  destruct (String.eqb kind "image_array_bundle_raw_rgba").
  - destruct (parse_payload_bundle_borrowed payload); [by eapply queue_entries_keeps|].
    simplify_eq. apply keeps_refl.
  - simpl in Hk. rewrite Hk in E. destruct (existsb _ _).
    + destruct (queue_native_image_payload_final_files _ _ _ _). simplify_eq. apply keeps_refl.
    + destruct (write_native_payload_file _ _ _) as [d1 r1] eqn:E1. injection E as <- <- <-.
      eapply io_check_keeps; [exact E1|]. by apply keeps_new.
Qed.

Lemma write_claimed_keeps o st d asset out target st' d' r :
  unpacks (unwrap_or_default (payload_kind (read_response out))) = false -> d_files d !! target = None ->
  write_claimed_object o st d asset out target = (st', d', r) -> keeps (manifest_path (output_dir o)) d d'.
Proof.
  unfold write_claimed_object. cbv zeta. set (mp := manifest_path _). intros Hk Hn E.
  destruct (io_check _ _ _) as [d1 r1] eqn:E1.
  assert (Hn1 : d_files d1 !! target = None).
  { unfold io_check in E1. destruct (io _); by simplify_eq. }
  apply (io_check_keeps mp) in E1; [|apply keeps_dirs]. destruct r1 as [[]|e]; [|by simplify_eq].
  eapply keeps_trans; [exact E1|]. destruct (is_text_asset_acb_target _ _); [simplify_eq; apply keeps_refl|].
  destruct (write_object_files _ _ _ _ _ _) as [[st1 d2] r2] eqn:E2.
  apply (write_object_files_keeps mp) in E2; [|done..]. destruct r2 as [files|e]; [|by simplify_eq].
  eapply keeps_trans; [exact E2|]. destruct (is_text_asset_decoded_usm_target _ _ _ _); [simplify_eq; apply keeps_refl|].
  destruct (starts_with _ _).
  - destruct (write_manifest_entries _ _ _ _ _) eqn:E3. simplify_eq. by eapply manifest_entries_keeps.
  - destruct (write_assetstudio_export_manifest_entry _ _ _ _ _) eqn:E3. simplify_eq.
    by eapply manifest_entry_keeps.
Qed.

End Keeps.

(** A world without errors, in which an entry is printed as its path. *)
Definition plain_env : ExportEnv := {|
  io := fun _ => None;
  to_line := fun e => Ok (as_bytes (me_path e));
  typetree_from_slice := fun _ => Err "not json";
  encode_image := fun payload _ => Ok payload;
  playable_json := fun container _ => Ok (as_bytes container);
  image_order := fun l => l;
  image_order_perm := fun l => Permutation_refl l
|}.

Definition sample_options : NativeObjectExportOptions :=
  mkExportOptions (components "/o") "music" "assets/res" true [Png; Webp; Png] true true [] "raw_rgba" 8 (Some 100).

Definition sample_text : AssetStudioFfiAssetInfo :=
  mkAssetInfo 0 (Some "s") (Some "assets/res/music/s.txt") (Some "TextAsset") 49 7 None 1 None.


(** A queued image of two bytes. *)
Lemma path_state_typed_witness :
  let st := (queue_native_image_payload_final_files path_state_default (components "/o/a.png") [Byte.x01; Byte.x02]
               sample_options).1 in
  pending_image_bytes st = 2
  /\ 0 <= pending_image_bytes st <= u64_max
  /\ forall st' d' r, @flush_queued_native_images_if_over_threshold plain_env sample_options st (mkDisk ∅ ∅) = (st', d', r) ->
       pending_ok st'.
Proof.
  intros st. split; [reflexivity|].
  destruct (@path_state_typed ascii_case plain_env sample_options st (mkDisk ∅ ∅)) as (Hr & _ & _ & Hf); [reflexivity|].
  split; [exact Hr|]. intros st' d' r E. apply (Hf st' d' r E).
Defined.
