(* ===== verification/ObjectExport.v ===== *)
(** * Exporting the objects of a bundle

    [core/export_pipeline/implementation/assetstudio.rs]: one bundle is opened in
    an AssetStudio context, its objects are listed page by page, the readable ones
    are selected, ordered, read in batches and written, and the context is closed.
    The library is reached through a [Caller] (a pooled worker or the library
    loaded in the process), whose answers are unconstrained; every call is
    logged. *)

From Stdlib Require Import Ascii.
From S2P Require Import Prelude RustStr Errors Config Paths PayloadBundle FfiTypes ExportPaths ExportPayload.

Local Open Scope string_scope.
Local Open Scope list_scope.
Local Open Scope Z_scope.
Local Open Scope rust_scope.

Abbreviation asset := AssetStudioFfiAssetInfo.

(** Payload files of workers, by path. *)
Abbreviation spill_files := (gmap string bytes).

(** [trait AssetStudioObjectExportCaller]: a call can leave a payload file behind. *)
Class Caller (S : Type) := {
  call : AssetStudioFfiRequest -> S -> spill_files ->
         result WorkerOutput ExportPipelineError * S * spill_files
}.

(** The caller, the calls made so far, and the payload files workers spilled. *)
Record world (S : Type) : Type := mkWorld {
  w_caller : S;
  w_log : list AssetStudioFfiRequest;
  w_spill : spill_files
}.
Arguments mkWorld {S}. Arguments w_caller {S}. Arguments w_log {S}. Arguments w_spill {S}.

Definition do_call {S} `{Caller S} (w : world S) (request : AssetStudioFfiRequest)
  : world S * result WorkerOutput ExportPipelineError :=
  let '(r, s, files) := call request (w_caller w) (w_spill w) in
  (mkWorld s (w_log w ++ [request]) files, r).

(** ** Worker outputs *)

(** The message of a refused call. *)
Definition call_failed {A} (error : option string) (what : string) (output : WorkerOutput)
  : result A ExportPipelineError :=
  ffi_error (default (what +:+ " failed with status " +:+ wo_status output +:+ ": " +:+ trim (wo_stderr output)) error).

Definition parse_assetstudio_ffi_context_open_worker_output (output : WorkerOutput)
  : result OpenResponse ExportPipelineError :=
  let? response := result_map_err export_error_from (into_context_open (wo_response output)) in
  if wo_status_success output && open_success response then Ok response
  else call_failed (open_error response) "native context open" output.

Definition parse_assetstudio_ffi_context_list_objects_worker_output (output : WorkerOutput)
  : result ListResponse ExportPipelineError :=
  let? response := result_map_err export_error_from (into_context_list_objects (wo_response output)) in
  if wo_status_success output && list_success response then Ok response
  else call_failed (list_error response) "native context_list_objects" output.

Definition parse_assetstudio_ffi_context_close_worker_output (output : WorkerOutput)
  : result unit ExportPipelineError :=
  let? response := result_map_err export_error_from (into_context_close (wo_response output)) in
  if wo_status_success output && close_success response then Ok tt
  else call_failed (close_error response) "native context close" output.

(** The payload of an output: inline, or the contents of its file, which is removed. *)
Definition take_payload {S} (w : world S) (output : WorkerOutput)
  : world S * result bytes ExportPipelineError :=
  match wo_payload_file output with
  | None => (w, Ok (wo_payload output))
  | Some file =>
      let removed := mkWorld (w_caller w) (w_log w) (delete file (w_spill w)) in
      if negb (bool_decide (wo_payload output = [])) then (removed, Ok (wo_payload output))
      else match w_spill w !! file with
           | Some payload => (removed, Ok payload)
           | None => (w, Err (ExportIo file NotFound))
           end
  end.

Inductive NativeObjectReadParseResult : Type :=
| Read (out : ObjectReadOutput)
| Skipped (skipped : NativeSkippedObjectRead).

(** One read of a batch; [payloads] is the bundle as a map, later entries winning. *)
Definition parse_batch_read (payloads : gmap string bytes) (a : asset) (r : ReadResponse)
  : NativeObjectReadParseResult :=
  if negb (read_success r)
  then Skipped (skip_asset a (default ("native context_read_objects failed for path_id " +:+ pretty (path_id a))
                                (read_error r)))
  else Read (mkObjectReadOutput r (default [] (payloads !! pretty (path_id a)))).

Definition payload_map (entries : list entry) : gmap string bytes :=
  foldl (fun m e => <[e.1 := e.2]> m) ∅ entries.

(** The results, and the number of failed reads. *)
Definition parse_assetstudio_ffi_object_read_batch_worker_output_recoverable {S} (w : world S)
    (output : WorkerOutput) (assets : list asset)
  : world S * result (list NativeObjectReadParseResult * Z) ExportPipelineError :=
  match result_map_err export_error_from (into_object_read_batch (wo_response output)) with
  | Err e => (w, Err e)
  | Ok response =>
      match take_payload w output with
      | (w, Err e) => (w, Err e)
      | (w, Ok payload) =>
          (w,
           let count_ok := (length (reads response) =? length assets)%nat in
           if negb (wo_status_success output && batch_success response) && negb count_ok then
             let message :=
               default ("native context_read_objects failed with status " +:+ wo_status output +:+ ": "
                        +:+ trim (wo_stderr output)) (batch_error response) in
             Ok (map (fun a => Skipped (skip_asset a message)) assets,
                 if 0 <? batch_failed_count response then batch_failed_count response else zlen assets)
           else if negb count_ok
           then ffi_error "native context_read_objects response count mismatch"
           else
             let? payloads :=
               if bool_decide (payload = []) then Ok ∅
               else let? entries := parse_payload_bundle_borrowed payload in Ok (payload_map entries) in
             let results := zip_with (parse_batch_read payloads) assets (reads response) in
             let observed := zlen (List.filter (fun r => negb (read_success r)) (reads response)) in
             Ok (results, if batch_failed_count response =? 0 then observed else batch_failed_count response))
      end
  end.

(** ** Planning *)

(** [struct NativeObjectReadPlanStats] and [struct NativeObjectExportSummary],
    without timings. *)
Record ReadPlanStats : Type := mkPlan {
  inspected_objects : Z;
  planned_objects : Z;
  readable_objects : Z;
  successful_reads : Z;
  failed_reads : Z;
  skipped_reads : Z;
  batch_count : Z
}.

Record NativeObjectExportSummary : Type := mkSummary {
  s_written_files : list path;
  s_acb_sources : list (path * bytes);
  s_pending_image_writes : list (path * bytes);
  s_skipped : list NativeSkippedObjectRead;
  s_plan : ReadPlanStats;
  worker_crash_skipped : bool
}.

Section Planning.
Context `{UnicodeCase}.

(** The loop over the assets: readable ones and skipped ones. *)
Fixpoint select_loop (configured parents : list string) (assets : list asset)
  : list asset * list NativeSkippedObjectRead :=
  match assets with
  | [] => ([], [])
  | a :: assets' =>
      let '(readable, skipped) := select_loop configured parents assets' in
      if negb (assetstudio_object_mode_type_enabled a configured) then (readable, skipped)
      else if is_texture2d_array_image_with_parent a parents
      then (readable, skip_asset a "Texture2DArrayImage is covered by its Texture2DArray parent" :: skipped)
      else if negb (is_native_object_supported_asset a)
      then (readable, match native_skipped_unsupported_asset a with
                      | Some s => s :: skipped | None => skipped end)
      else (a :: readable, skipped)
  end.

Definition select_native_object_readable_assets (assets : list asset) (configured : list string)
    (s : NativeObjectExportSummary) : list asset * NativeObjectExportSummary :=
  let '(readable, skipped) := select_loop configured (texture2d_array_parent_containers assets) assets in
  let all_skipped := s_skipped s ++ skipped in
  let p := s_plan s in
  (readable,
   mkSummary (s_written_files s) (s_acb_sources s) (s_pending_image_writes s) all_skipped
     (mkPlan (inspected_objects p) (zlen readable) (zlen readable) (successful_reads p) (failed_reads p)
        (zlen all_skipped) (batch_count p)) (worker_crash_skipped s)).

(** [sort_by_key] with key (priority, index): a stable sort, images last. *)
Definition read_key_le (a b : asset) : bool :=
  let ka := is_native_image_asset a in let kb := is_native_image_asset b in
  if Bool.eqb ka kb then asset_index a <=? asset_index b else negb ka.

Fixpoint insert_by {A} (le : A -> A -> bool) (x : A) (l : list A) : list A :=
  match l with
  | [] => [x]
  | y :: l' => if le x y then x :: l else y :: insert_by le x l'
  end.
Definition sort_by {A} (le : A -> A -> bool) (l : list A) : list A := foldr (insert_by le) [] l.

Definition sort_native_object_reads_for_failure_isolation : list asset -> list asset := sort_by read_key_le.

Definition native_read_batch_size_for_assets (configured_size : Z) (assets : list asset) : Z :=
  let configured_size := Z.max configured_size 1 in
  if bool_decide (assets = []) then 1
  else
    let image_count := zlen (List.filter (type_is (fun t => assetstudio_type_selector_matches "Texture2D" t
                                                          || assetstudio_type_selector_matches "Sprite" t)) assets) in
    let typetree_count := zlen (List.filter (type_is (assetstudio_type_selector_matches "MonoBehaviour")) assets) in
    let tuned :=
      if zlen assets <=? image_count * 2 then Z.max configured_size 64
      else if zlen assets <=? typetree_count * 2 then Z.min configured_size 32
      else configured_size in
    Z.min (Z.max tuned 1) (Z.max (zlen assets) 1).

(** The loop of [native_object_read_subchunks] over the assets from [index] on:
    the subchunks pushed and the final [group_start]. *)
Fixpoint subchunks_loop (chunk : list asset) (fmt : string) (index group_start : Z) (rest : list asset)
  : list (list asset) * Z :=
  match rest with
  | [] => ([], group_start)
  | a :: rest' =>
      if negb (is_native_aot_non_bmp_image_read a fmt)
      then subchunks_loop chunk fmt (index + 1) group_start rest'
      else
        let '(more, start) := subchunks_loop chunk fmt (index + 1) (index + 1) rest' in
        ((if group_start <? index then [slice chunk group_start index] else [])
         ++ slice chunk index (index + 1) :: more, start)
  end.

Definition native_object_read_subchunks (chunk : list asset) (fmt : string) : list (list asset) :=
  let '(subchunks, group_start) := subchunks_loop chunk fmt 0 0 chunk in
  subchunks ++ (if group_start <? zlen chunk then [slice chunk group_start (zlen chunk)] else []).
End Planning.

(** ** Listing the objects *)

Definition NATIVE_AOT_CONTEXT_LIST_PAGE_SIZE : Z := 4096.

Section Exporting.
Context `{UnicodeCase} `{ExportEnv} {S : Type} `{Caller S}.

(** The page loop; [None] is running out of fuel ([list_pages_total] bounds it for
    a library whose offsets advance). *)
Fixpoint list_pages (fuel : nat) (w : world S) (context_id offset : Z) (assets : list asset)
  : option (world S * result (list asset) ExportPipelineError) :=
  match fuel with
  | O => None
  | Datatypes.S fuel' =>
      let '(w, r) := do_call w (ContextListObjects context_id offset NATIVE_AOT_CONTEXT_LIST_PAGE_SIZE) in
      match (let? output := r in parse_assetstudio_ffi_context_list_objects_worker_output output) with
      | Err e => Some (w, Err e)
      | Ok response =>
          let assets := assets ++ list_assets response in
          match next_offset response with
          | Some next => list_pages fuel' w context_id next assets
          | None => Some (w, Ok assets)
          end
      end
  end.

Definition list_assetstudio_ffi_context_objects_worker (fuel : nat) (w : world S) (open : OpenResponse)
  : option (world S * result (list asset) ExportPipelineError) :=
  if negb (bool_decide (open_assets open = [])) && negb (has_more_assets open)
  then Some (w, Ok (open_assets open))
  else list_pages fuel w (context_id open) 0 [].

(** ** Reading and writing a batch *)

(** The mutable state of the unpacking block. *)
Record unpack_state : Type := mkUnpack {
  u_world : world S;
  u_disk : disk;
  u_paths : NativeSemanticExportPathState;
  u_summary : NativeObjectExportSummary;
  u_playable : list (asset * ObjectReadOutput)
}.

Definition with_world (w : world S) (u : unpack_state) : unpack_state :=
  mkUnpack w (u_disk u) (u_paths u) (u_summary u) (u_playable u).
Definition with_paths (st : NativeSemanticExportPathState) (d : disk) (u : unpack_state) : unpack_state :=
  mkUnpack (u_world u) d st (u_summary u) (u_playable u).

(** [summary.skipped_object_reads.push(s); skipped_reads += 1]. *)
Definition push_skip (s : NativeSkippedObjectRead) (crash : bool) (m : NativeObjectExportSummary)
  : NativeObjectExportSummary :=
  let p := s_plan m in
  mkSummary (s_written_files m) (s_acb_sources m) (s_pending_image_writes m) (s_skipped m ++ [s])
    (mkPlan (inspected_objects p) (planned_objects p) (readable_objects p) (successful_reads p) (failed_reads p)
       (skipped_reads p + 1) (batch_count p)) (crash || worker_crash_skipped m).
Definition count_success (m : NativeObjectExportSummary) : NativeObjectExportSummary :=
  let p := s_plan m in
  mkSummary (s_written_files m) (s_acb_sources m) (s_pending_image_writes m) (s_skipped m)
    (mkPlan (inspected_objects p) (planned_objects p) (readable_objects p) (successful_reads p + 1) (failed_reads p)
       (skipped_reads p) (batch_count p)) (worker_crash_skipped m).
Definition count_batch (m : NativeObjectExportSummary) : NativeObjectExportSummary :=
  let p := s_plan m in
  mkSummary (s_written_files m) (s_acb_sources m) (s_pending_image_writes m) (s_skipped m)
    (mkPlan (inspected_objects p) (planned_objects p) (readable_objects p) (successful_reads p) (failed_reads p)
       (skipped_reads p) (batch_count p + 1)) (worker_crash_skipped m).
Definition count_failed (n : Z) (m : NativeObjectExportSummary) : NativeObjectExportSummary :=
  let p := s_plan m in
  mkSummary (s_written_files m) (s_acb_sources m) (s_pending_image_writes m) (s_skipped m)
    (mkPlan (inspected_objects p) (planned_objects p) (readable_objects p) (successful_reads p) (failed_reads p + n)
       (skipped_reads p) (batch_count p)) (worker_crash_skipped m).
Definition with_summary (f : NativeObjectExportSummary -> NativeObjectExportSummary) (u : unpack_state) : unpack_state :=
  mkUnpack (u_world u) (u_disk u) (u_paths u) (f (u_summary u)) (u_playable u).

(** The loop over the results of a batch. *)
Fixpoint handle_results (o : NativeObjectExportOptions) (results : list (asset * NativeObjectReadParseResult))
    (u : unpack_state) : unpack_state * result unit ExportPipelineError :=
  match results with
  | [] => (u, Ok tt)
  | (a, Skipped s) :: results' => handle_results o results' (with_summary (push_skip s false) u)
  | (a, Read out) :: results' =>
      let u := with_summary count_success u in
      if is_playable_mono_typetree a out
      then handle_results o results'
             (mkUnpack (u_world u) (u_disk u) (u_paths u) (u_summary u) (u_playable u ++ [(a, out)]))
      else
        let '(st, d, r) := write_native_object_payload o (u_paths u) (u_disk u) a out in
        let u := with_paths st d u in
        match r with
        | Err e => (u, Err e)
        | Ok _ => handle_results o results' u
        end
  end.

(** One subchunk: a read call, and what is made of its answer. *)
Definition read_subchunk (o : NativeObjectExportOptions) (ctx : Z) (chunk : list asset) (u : unpack_state)
  : unpack_state * result unit ExportPipelineError :=
  let u := with_summary count_batch u in
  let '(w, r) := do_call (u_world u)
                   (native_object_read_batch_request ctx chunk (opt_read_kinds o) (opt_image_format o)) in
  let u := with_world w u in
  match r with
  | Err error =>
      match chunk with
      | [a] =>
          if is_native_worker_signal_failure error && is_native_image_asset a
          then (with_summary (push_skip (skip_asset a "assetstudio ffi image read crashed worker") true) u, Ok tt)
          else (u, Err error)
      | _ => (u, Err error)
      end
  | Ok output =>
      match parse_assetstudio_ffi_object_read_batch_worker_output_recoverable (u_world u) output chunk with
      | (w, Err e) => (with_world w u, Err e)
      | (w, Ok (results, failed)) =>
          handle_results o (zip chunk results) (with_summary (count_failed failed) (with_world w u))
      end
  end.

Fixpoint read_subchunks (o : NativeObjectExportOptions) (ctx : Z) (subs : list (list asset)) (u : unpack_state)
  : unpack_state * result unit ExportPipelineError :=
  match subs with
  | [] => (u, Ok tt)
  | chunk :: subs' =>
      match read_subchunk o ctx chunk u with
      | (u, Err e) => (u, Err e)
      | (u, Ok _) => read_subchunks o ctx subs' u
      end
  end.

Definition flush_images (o : NativeObjectExportOptions) (u : unpack_state)
  : unpack_state * result unit ExportPipelineError :=
  let '(st, d, r) := flush_queued_native_images_if_over_threshold o (u_paths u) (u_disk u) in
  (with_paths st d u, r).

Fixpoint read_chunks (o : NativeObjectExportOptions) (ctx : Z) (cs : list (list asset)) (u : unpack_state)
  : unpack_state * result unit ExportPipelineError :=
  match cs with
  | [] => (u, Ok tt)
  | c :: cs' =>
      match read_subchunks o ctx (native_object_read_subchunks c (opt_image_format o)) u with
      | (u, Err e) => (u, Err e)
      | (u, Ok _) =>
          match flush_images o u with
          | (u, Err e) => (u, Err e)
          | (u, Ok _) => read_chunks o ctx cs' u
          end
      end
  end.

(** The batches of a list of readable assets. *)
Definition read_plan (o : NativeObjectExportOptions) (readable : list asset) : list (list asset) :=
  chunks (Z.to_nat (native_read_batch_size_for_assets (read_batch_size o) readable)) readable.

Definition finish_summary (u : unpack_state) : NativeObjectExportSummary :=
  let m := u_summary u in
  mkSummary (written_files (u_paths u)) (acb_sources (u_paths u)) (pending_image_writes (u_paths u))
    (s_skipped m) (s_plan m) (worker_crash_skipped m).

(** What follows the listing. *)
Definition unpack_assets (o : NativeObjectExportOptions) (types : list string) (ctx : Z)
    (m : NativeObjectExportSummary) (w : world S) (d : disk) (assets : list asset)
  : world S * disk * result NativeObjectExportSummary ExportPipelineError :=
  let '(readable, m) := select_native_object_readable_assets assets types m in
  let readable := sort_native_object_reads_for_failure_isolation readable in
  let u := mkUnpack w d path_state_default m [] in
  match read_chunks o ctx (read_plan o readable) u with
  | (u, Err e) => (u_world u, u_disk u, Err e)
  | (u, Ok _) =>
      let '(st, d, r) := write_assetstudio_playable_payloads o (u_paths u) (u_disk u) (u_playable u) in
      let u := with_paths st d u in
      match r with
      | Err e => (u_world u, u_disk u, Err e)
      | Ok _ =>
          match flush_images o u with
          | (u, Err e) => (u_world u, u_disk u, Err e)
          | (u, Ok _) => (u_world u, u_disk u, Ok (finish_summary u))
          end
      end
  end.

Definition initial_summary (open : OpenResponse) : NativeObjectExportSummary :=
  mkSummary [] [] [] [] (mkPlan (exportable_asset_count open) 0 0 0 0 0 0) false.

(** [call_assetstudio_ffi_object_export_with_caller]; [types] is
    [asset_studio_export_type_list]. *)
Definition call_assetstudio_ffi_object_export_with_caller (fuel : nat) (o : NativeObjectExportOptions)
    (types : list string) (open_request : AssetStudioFfiContextOpenRequest) (w : world S) (d : disk)
  : option (world S * disk * result NativeObjectExportSummary ExportPipelineError) :=
  let '(w, r) := do_call w (ContextOpen open_request) in
  match (let? output := r in parse_assetstudio_ffi_context_open_worker_output output) with
  | Err e => Some (w, d, Err e)
  | Ok open =>
      let ctx := context_id open in
      match list_assetstudio_ffi_context_objects_worker fuel w open with
      | None => None
      | Some (w, listed) =>
          let '(w, d, unpacked) :=
            match listed with
            | Err e => (w, d, Err e)
            | Ok assets => unpack_assets o types ctx (initial_summary open) w d assets
            end in
          let '(w, r) := do_call w (ContextClose ctx) in
          let closed := let? output := r in parse_assetstudio_ffi_context_close_worker_output output in
          Some (w, d,
            match unpacked, closed with
            | Ok m, Ok _ => Ok m
            | Err e, _ => Err e
            | Ok m, Err e => if worker_crash_skipped m then Ok m else Err e
            end)
      end
  end.
End Exporting.
Arguments unpack_state S : clear implicits.

(** ** Batches *)

Section Batches.
Context `{UnicodeCase}.

(** A subchunk is one image, or some objects none of which is an image. *)
Definition isolated (sub : list asset) : Prop :=
  sub <> [] /\ ((exists a, sub = [a]) \/ Forall (fun a => is_native_image_asset a = false) sub).

Lemma subchunks_loop_spec fmt pre group rest subs start :
  subchunks_loop (pre ++ group ++ rest) fmt (zlen (pre ++ group)) (zlen pre) rest = (subs, start) ->
  Forall (fun a => is_native_image_asset a = false) group ->
  exists tl, group ++ rest = concat subs ++ tl /\ start = zlen (pre ++ concat subs)
    /\ Forall (fun a => is_native_image_asset a = false) tl /\ Forall isolated subs.
Proof.
  revert pre group subs start. induction rest as [|a rest IH]; intros pre group subs start E Hg; cbn [subchunks_loop] in E.
  - simplify_eq. exists group. by rewrite !app_nil_r.
  - rewrite image_read_is_image in E.
    assert (Hidx : zlen (pre ++ group) + 1 = zlen (pre ++ group ++ [a])) by (rewrite !zlen_app; unfold zlen; simpl; lia).
    destruct (is_native_image_asset a) eqn:Ea; cbn [negb] in E.
    + assert (Hmid : slice (pre ++ group ++ a :: rest) (zlen (pre ++ group)) (zlen (pre ++ group) + 1) = [a]).
      { rewrite app_assoc. change (a :: rest) with ([a] ++ rest). by apply slice_mid. }
      rewrite Hmid in E. rewrite Hidx in E.
      destruct (subchunks_loop _ _ _ _ rest) as [more start'] eqn:E2. injection E as <- <-.
      assert (Hre : pre ++ group ++ a :: rest = (pre ++ group ++ [a]) ++ [] ++ rest) by (by rewrite <- !app_assoc).
      rewrite Hre in E2. replace (zlen (pre ++ group ++ [a])) with (zlen ((pre ++ group ++ [a]) ++ [])) in E2 at 1
        by (by rewrite app_nil_r).
      apply IH in E2 as (tl & Ht & -> & Hn & Hiso); [|done]. simpl in Ht. subst rest. exists tl.
      assert (Hpush : (if zlen pre <? zlen (pre ++ group)
                       then [slice (pre ++ group ++ a :: concat more ++ tl) (zlen pre) (zlen (pre ++ group))] else [])
                      = if bool_decide (group = []) then [] else [group]).
      { rewrite zlen_app. destruct group as [|b group].
        - rewrite Z.add_0_r, Z.ltb_irrefl. done.
        - rewrite (slice_mid pre (b :: group)) by done. destruct (Z.ltb_spec (zlen pre) (zlen pre + zlen (b :: group))); [done|].
          unfold zlen in *. simpl in *. lia. }
      rewrite Hpush. case_bool_decide as Hgr.
      * subst group. simpl. split_and!; [done | by rewrite <- !app_assoc | done|].
        constructor; [|done]. split; [done | left; eauto].
      * cbn [app concat]. split_and!; [by rewrite <- !app_assoc | by rewrite <- !app_assoc | done|].
        constructor; [by split; [|right]|]. constructor; [|done]. split; [done | left; eauto].
    + rewrite Hidx in E.
      assert (Hre : pre ++ group ++ a :: rest = pre ++ (group ++ [a]) ++ rest) by (by rewrite <- !app_assoc).
      rewrite Hre in E. apply IH in E as (tl & Ht & Hs & Hn & Hiso).
      * exists tl. split_and!; try done. by rewrite <- Ht, <- app_assoc.
      * apply Forall_app. split; [done | by constructor].
Qed.

(** The subchunks are the chunk, cut up. *)
Lemma subchunks_partition chunk fmt :
  concat (native_object_read_subchunks chunk fmt) = chunk
  /\ Forall isolated (native_object_read_subchunks chunk fmt).
Proof.
  unfold native_object_read_subchunks. destruct (subchunks_loop chunk fmt 0 0 chunk) as [subs start] eqn:E.
  destruct (subchunks_loop_spec fmt [] [] chunk subs start E) as (tl & Ht & -> & Hn & Hiso); [constructor|].
  clear E. simpl in Ht. subst chunk. cbn [app]. rewrite zlen_app. destruct tl as [|a tl].
  - rewrite Z.add_0_r, Z.ltb_irrefl, !app_nil_r. done.
  - destruct (Z.ltb_spec (zlen (concat subs)) (zlen (concat subs) + zlen (a :: tl))).
    2: { unfold zlen in *. simpl in *. lia. }
    rewrite <- (app_nil_r (concat subs ++ a :: tl)), <- app_assoc.
    rewrite (slice_mid (concat subs) (a :: tl) []) by done. rewrite concat_app. cbn [concat]. rewrite !app_nil_r.
    split; [done|]. apply Forall_app. split; [done|]. constructor; [|done]. by split; [|right].
Qed.

Lemma batch_size_pos n assets : 1 <= native_read_batch_size_for_assets n assets.
Proof.
  unfold native_read_batch_size_for_assets. case_bool_decide; [lia|]. repeat case_match; lia.
Qed.

(** All the read requests of a bundle. *)
Definition planned_batches (o : NativeObjectExportOptions) (readable : list asset) : list (list asset) :=
  concat (map (fun c => native_object_read_subchunks c (opt_image_format o)) (read_plan o readable)).

Lemma planned_batches_partition o readable :
  concat (planned_batches o readable) = readable /\ Forall isolated (planned_batches o readable).
Proof.
  unfold planned_batches. split.
  - rewrite <- (chunks_concat (Z.to_nat (native_read_batch_size_for_assets (read_batch_size o) readable)) readable) at 2.
    + fold (read_plan o readable). induction (read_plan o readable) as [|c cs IH]; [done|]. cbn [map concat].
      rewrite concat_app, IH. f_equal. apply subchunks_partition.
    + pose proof (batch_size_pos (read_batch_size o) readable). lia.
  - induction (read_plan o readable) as [|c cs IH]; [constructor|]. cbn [map concat]. apply Forall_app. split; [|done].
    apply subchunks_partition.
Qed.

Lemma insert_by_perm {A} le (x : A) l : Permutation (insert_by le x l) (x :: l).
Proof.
  induction l as [|y l IH]; simpl; [done|]. destruct (le x y); [done|]. rewrite IH. constructor.
Qed.

Lemma sort_by_perm {A} le (l : list A) : Permutation (sort_by le l) l.
Proof. induction l as [|x l IH]; simpl; [done|]. by rewrite insert_by_perm, IH. Qed.
End Batches.

(** ** What a whole export does *)

Section Lifecycle.
Context `{UnicodeCase} `{ExportEnv} {S : Type} `{Caller S}.

Definition request_of (o : NativeObjectExportOptions) (ctx : Z) (chunk : list asset) : AssetStudioFfiRequest :=
  native_object_read_batch_request ctx chunk (opt_read_kinds o) (opt_image_format o).

Lemma do_call_log (w w' : world S) req r : do_call w req = (w', r) -> w_log w' = w_log w ++ [req].
Proof. unfold do_call. destruct (call _ _ _) as [[??] ?]. intros; by simplify_eq. Qed.

Lemma take_payload_log (w w' : world S) out r : take_payload w out = (w', r) -> w_log w' = w_log w.
Proof. unfold take_payload. repeat case_match; intros; by simplify_eq. Qed.

Lemma parse_batch_spec (w w' : world S) output assets r :
  parse_assetstudio_ffi_object_read_batch_worker_output_recoverable w output assets = (w', r) ->
  w_log w' = w_log w /\ forall results n, r = Ok (results, n) -> length results = length assets.
Proof.
  unfold parse_assetstudio_ffi_object_read_batch_worker_output_recoverable. intros E.
  destruct (result_map_err _ _) as [response|e]; [|by simplify_eq].
  destruct (take_payload w output) as [w1 [payload|e]] eqn:Et; apply take_payload_log in Et; [|by simplify_eq].
  injection E as <- <-. split; [done|]. intros results n E. cbv zeta in E.
  destruct (negb _ && negb _) eqn:E1; [injection E as <- <-; by rewrite length_map|].
  destruct (Nat.eqb_spec (length (reads response)) (length assets)) as [El|]; [|done]. cbn [negb] in E.
  apply result_bind_Ok in E as (payloads & _ & E). injection E as <- _. rewrite length_zip_with. lia.
Qed.

(** The parts of the state the loops account for. *)
Definition u_log (u : unpack_state S) : list AssetStudioFfiRequest := w_log (u_world u).
Definition accounted (u : unpack_state S) : Z :=
  successful_reads (s_plan (u_summary u)) + skipped_reads (s_plan (u_summary u)).
Definition skips_counted (u : unpack_state S) : Prop :=
  skipped_reads (s_plan (u_summary u)) = zlen (s_skipped (u_summary u)).

(** From [u] to [u'], [n] objects were accounted for and [reqs] were sent. *)
Definition progress (u u' : unpack_state S) (n : Z) (reqs : list AssetStudioFfiRequest) : Prop :=
  accounted u' = accounted u + n /\ u_log u' = u_log u ++ reqs
  /\ (skips_counted u -> skips_counted u') /\ (pending_ok (u_paths u) -> pending_ok (u_paths u')).

Lemma progress_refl u : progress u u 0 [].
Proof. unfold progress. rewrite app_nil_r. split_and!; try done. lia. Qed.

Lemma progress_trans u1 u2 u3 n m r s :
  progress u1 u2 n r -> progress u2 u3 m s -> progress u1 u3 (n + m) (r ++ s).
Proof.
  intros (A1 & L1 & S1 & P1) (A2 & L2 & S2 & P2). unfold progress. rewrite A2, A1, L2, L1, app_assoc.
  split_and!; auto. lia.
Qed.

Lemma progress_skip u s b : progress u (with_summary (push_skip s b) u) 1 [].
Proof.
  unfold progress, accounted, u_log, skips_counted. simpl. rewrite app_nil_r. split_and!; try done; [lia|].
  intros ->. by rewrite zlen_app.
Qed.

Lemma progress_success u : progress u (with_summary count_success u) 1 [].
Proof. unfold progress, accounted, u_log, skips_counted. simpl. rewrite app_nil_r. split_and!; try done. lia. Qed.

Lemma handle_results_progress o results u u' r :
  handle_results o results u = (u', r) ->
  exists n, progress u u' n [] /\ (r = Ok tt -> n = zlen results).
Proof.
  revert u. induction results as [|[a [out|s]] results IH]; intros u E; cbn [handle_results] in E.
  - simplify_eq. exists 0. split; [apply progress_refl | done].
  - destruct (is_playable_mono_typetree a out).
    + apply IH in E as (n & Hp & Hn). exists (1 + n). split.
      * apply (progress_trans u (with_summary count_success u) u' 1 n [] []); [apply progress_success|]. done.
      * intros Hr. rewrite (Hn Hr). unfold zlen. simpl. lia.
    + destruct (write_native_object_payload _ _ _ _ _) as [[st d] rw] eqn:Ew.
      apply write_object_pending in Ew. cbn [u_paths with_summary] in Ew.
      set (u1 := with_paths st d (with_summary count_success u)) in *.
      assert (Hstep1 : progress u u1 1 []).
      { destruct (progress_success u) as (A & L & Sk & P). unfold progress. by split_and!. }
      destruct rw as [[]|e].
      * apply IH in E as (n & Hp & Hn). exists (1 + n). split; [by apply (progress_trans u u1 u' 1 n [] [])|].
        intros Hr. rewrite (Hn Hr). unfold zlen. simpl. lia.
      * simplify_eq. by exists 1.
  - apply IH in E as (n & Hp & Hn). exists (1 + n). split.
    + apply (progress_trans u (with_summary (push_skip s false) u) u' 1 n [] []); [apply progress_skip | done].
    + intros Hr. rewrite (Hn Hr). unfold zlen. simpl. lia.
Qed.

Lemma read_subchunk_progress o ctx chunk u u' r :
  read_subchunk o ctx chunk u = (u', r) ->
  exists n, progress u u' n [request_of o ctx chunk] /\ (r = Ok tt -> n = zlen chunk).
Proof.
  unfold read_subchunk. cbn [u_world with_summary]. intros E.
  destruct (do_call (u_world u) _) as [w rc] eqn:Ec. apply do_call_log in Ec.
  set (u1 := with_world w (with_summary count_batch u)) in *.
  assert (Hstep1 : progress u u1 0 [request_of o ctx chunk]).
  { unfold progress, accounted, u_log, skips_counted. simpl. split_and!; try done. lia. }
  destruct rc as [output|error].
  - destruct (parse_assetstudio_ffi_object_read_batch_worker_output_recoverable _ _ _) as [w2 rp] eqn:Ep.
    apply parse_batch_spec in Ep as [Hlog Hlen].
    assert (Hstep2 : forall u2, u2 = with_world w2 u1 -> progress u u2 0 [request_of o ctx chunk]).
    { intros u2 ->. destruct Hstep1 as (A & L & Sk & P). unfold progress, u_log in *. simpl in *. rewrite Hlog. by split_and!. }
    destruct rp as [[results failed]|e].
    + apply handle_results_progress in E as (n & Hp & Hn). exists n. split.
      * apply (progress_trans u (with_world w2 u1) u' 0 n [request_of o ctx chunk] []); [by apply Hstep2|]. done.
      * intros Hr. rewrite (Hn Hr). unfold zlen. rewrite length_zip, (Hlen _ _ eq_refl). f_equal. lia.
    + simplify_eq. exists 0. split; [by apply Hstep2 | done].
  - assert (Hfail : u' = u1 -> r = Err error -> exists n,
              progress u u' n [request_of o ctx chunk] /\ (r = Ok tt -> n = zlen chunk)).
    { intros -> ->. exists 0. by split. }
    destruct chunk as [|a [|b chunk]]; [simplify_eq; by apply Hfail| |simplify_eq; by apply Hfail].
    destruct (_ && _); [|simplify_eq; by apply Hfail]. simplify_eq. exists 1. split; [|done].
    apply (progress_trans u u1 _ 0 1 [_] []); [done | apply progress_skip].
Qed.

Lemma read_subchunks_progress o ctx subs u u' r :
  read_subchunks o ctx subs u = (u', r) ->
  exists n k, progress u u' n (map (request_of o ctx) (take k subs))
    /\ (r = Ok tt -> k = length subs /\ n = zlen (concat subs)).
Proof.
  revert u. induction subs as [|c subs IH]; intros u E; cbn [read_subchunks] in E.
  - simplify_eq. exists 0, 0%nat. split; [apply progress_refl | done].
  - destruct (read_subchunk o ctx c u) as [u1 [[]|e]] eqn:E1; apply read_subchunk_progress in E1 as (n1 & Hstep1 & Hn1).
    + apply IH in E as (n & k & Hp & Hn). exists (n1 + n), (Datatypes.S k). split.
      * apply (progress_trans u u1 u' n1 n [_] _); done.
      * intros Hr. destruct (Hn Hr) as [-> ->]. rewrite (Hn1 eq_refl). split; [done|]. cbn [concat]. by rewrite zlen_app.
    + simplify_eq. exists n1, 1%nat. by split.
Qed.

Lemma flush_images_progress o u u' r :
  flush_images o u = (u', r) -> progress u u' 0 [].
Proof.
  unfold flush_images. destruct (flush_queued_native_images_if_over_threshold _ _ _) as [[st d] rf] eqn:Ef.
  apply flush_pending in Ef as [Hp _]. intros; simplify_eq.
  destruct (progress_refl u) as (A & L & Sk & P). unfold progress. split_and!; try done.
Qed.

Lemma read_chunks_progress o ctx cs u u' r :
  read_chunks o ctx cs u = (u', r) ->
  let subs := concat (map (fun c => native_object_read_subchunks c (opt_image_format o)) cs) in
  exists n k, progress u u' n (map (request_of o ctx) (take k subs))
    /\ (r = Ok tt -> k = length subs /\ n = zlen (concat subs)).
Proof.
  revert u. induction cs as [|c cs IH]; intros u E; cbn [read_chunks] in E; cbn [map concat].
  - simplify_eq. exists 0, 0%nat. split; [apply progress_refl | done].
  - destruct (read_subchunks _ _ _ u) as [u1 [[]|e]] eqn:E1; apply read_subchunks_progress in E1 as (n1 & k1 & Hstep1 & Hn1).
    + destruct (Hn1 eq_refl) as [-> ->]. destruct (flush_images o u1) as [u2 rf] eqn:E2.
      apply flush_images_progress in E2.
      pose proof (progress_trans _ _ _ _ _ _ _ Hstep1 E2) as Hstep2. rewrite app_nil_r, Z.add_0_r in Hstep2.
      destruct rf as [[]|e].
      * apply IH in E as (n & k & Hp & Hn). eexists _, (length (native_object_read_subchunks c (opt_image_format o)) + k)%nat.
        rewrite take_app_add, map_app. split.
        -- rewrite firstn_all in Hstep2. exact (progress_trans _ _ _ _ _ _ _ Hstep2 Hp).
        -- intros Hr. destruct (Hn Hr) as [-> ->]. rewrite length_app, concat_app, zlen_app. done.
      * simplify_eq. eexists _, (length (native_object_read_subchunks c (opt_image_format o)) + 0)%nat.
        rewrite take_app_add, take_0, app_nil_r. rewrite firstn_all in Hstep2. by split.
    + simplify_eq. exists n1, (Nat.min k1 (length (native_object_read_subchunks c (opt_image_format o)))).
      rewrite take_app_le by lia.
      replace (take (Nat.min k1 _) _) with (take k1 (native_object_read_subchunks c (opt_image_format o))); [by split|].
      rewrite <- take_take. by rewrite firstn_all.
Qed.

Definition enabled (types : list string) (assets : list asset) : list asset :=
  List.filter (fun a => assetstudio_object_mode_type_enabled a types) assets.

Lemma select_loop_spec types parents assets readable skipped :
  select_loop types parents assets = (readable, skipped) ->
  zlen readable + zlen skipped = zlen (enabled types assets)
  /\ Forall (fun a => a ∈ assets /\ assetstudio_object_mode_type_enabled a types = true) readable.
Proof.
  revert readable skipped. induction assets as [|a assets IH]; intros readable skipped E; cbn [select_loop] in E.
  - by simplify_eq.
  - destruct (select_loop types parents assets) as [r1 s1]. destruct (IH _ _ eq_refl) as [Hc Hf].
    assert (Hf' : Forall (fun b => b ∈ a :: assets /\ assetstudio_object_mode_type_enabled b types = true) r1).
    { eapply Forall_impl; [exact Hf|]. intros b [Hb ?]. split; [by right | done]. }
    unfold enabled in *. cbn [List.filter].
    destruct (assetstudio_object_mode_type_enabled a types) eqn:Ea; cbn [negb] in E; [|by simplify_eq].
    assert (Hcons : forall (x : asset) l, zlen (x :: l) = 1 + zlen l) by (intros; unfold zlen; simpl; lia).
    assert (Hconk : forall (x : NativeSkippedObjectRead) l, zlen (x :: l) = 1 + zlen l) by (intros; unfold zlen; simpl; lia).
    destruct (is_texture2d_array_image_with_parent a parents).
    { simplify_eq. rewrite Hcons, Hconk. split; [lia | done]. }
    destruct (is_native_object_supported_asset a); cbn [negb] in E.
    { simplify_eq. rewrite !Hcons. split; [lia|]. constructor; [|done]. split; [by left | done]. }
    assert (exists x, native_skipped_unsupported_asset a = Some x) as [x Hx].
    { unfold native_skipped_unsupported_asset, assetstudio_object_mode_type_enabled, type_is in *.
      destruct (asset_type a); [by eexists | done]. }
    rewrite Hx in E. simplify_eq. rewrite Hcons, Hconk. split; [lia | done].
Qed.

(** The assets that are read, in the order in which they are read. *)
Definition read_order (types : list string) (assets : list asset) : list asset :=
  sort_native_object_reads_for_failure_isolation
    (select_loop types (texture2d_array_parent_containers assets) assets).1.

(** What a finished summary says about [assets]. *)
Definition summary_exact (o : NativeObjectExportOptions) (types : list string) (assets : list asset)
    (m : NativeObjectExportSummary) : Prop :=
  successful_reads (s_plan m) + skipped_reads (s_plan m) = zlen (enabled types assets)
  /\ skipped_reads (s_plan m) = zlen (s_skipped m)
  /\ forall b, image_flush o = Some b -> b <= u64_max ->
       s_pending_image_writes m = [] \/ sumZ (map (fun j => zlen j.2) (s_pending_image_writes m)) < b.

Lemma unpack_assets_spec o types ctx open (w w' : world S) d d' assets r :
  unpack_assets o types ctx (initial_summary open) w d assets = (w', d', r) ->
  let batches := planned_batches o (read_order types assets) in
  exists k, w_log w' = w_log w ++ map (request_of o ctx) (take k batches)
    /\ forall m, r = Ok m -> k = length batches /\ summary_exact o types assets m.
Proof.
  unfold unpack_assets, select_native_object_readable_assets, read_order, planned_batches.
  destruct (select_loop types (texture2d_array_parent_containers assets) assets) as [readable skipped] eqn:Es.
  apply select_loop_spec in Es as [Hcount _]. cbn [fst].
  set (sorted := sort_native_object_reads_for_failure_isolation readable).
  assert (Hlen : zlen sorted = zlen readable).
  { unfold zlen, sorted, sort_native_object_reads_for_failure_isolation. by rewrite (sort_by_perm read_key_le readable). }
  set (u0 := mkUnpack _ _ _ _ _). intros E. destruct (read_chunks _ _ _ u0) as [u1 r1] eqn:E1.
  apply read_chunks_progress in E1 as (n & k & (A & L & Sk & P) & Hn). exists k.
  assert (Hlog : forall u, u_log u = u_log u1 -> w_log (u_world u) = w_log w ++ map (request_of o ctx)
     (take k (concat (map (fun c => native_object_read_subchunks c (opt_image_format o)) (read_plan o sorted))))).
  { intros u Hu. unfold u_log in Hu. rewrite Hu. exact L. }
  destruct r1 as [[]|e]; [|injection E as <- <- <-; split; [by apply Hlog | done]].
  destruct (Hn eq_refl) as [-> Hnum]. clear Hn.
  pose proof (planned_batches_partition o sorted) as [Hpart _]. unfold planned_batches in Hpart.
  rewrite Hpart, Hlen in Hnum.
  destruct (write_assetstudio_playable_payloads _ _ _ _) as [[st d2] r2] eqn:E2. apply playables_pending in E2.
  destruct r2 as [[]|e]; [|injection E as <- <- <-; split; [by apply (Hlog (with_paths st d2 u1)) | done]].
  set (u2 := with_paths st d2 u1) in *.
  destruct (flush_images o u2) as [u3 r3] eqn:E3. pose proof E3 as E3'.
  apply flush_images_progress in E3' as (A3 & L3 & Sk3 & _). rewrite app_nil_r in L3.
  destruct r3 as [[]|e]; [|injection E as <- <- <-; split; [by apply Hlog | done]].
  injection E as <- <- <-. split; [by apply Hlog|]. intros m Em. injection Em as <-. split; [done|].
  unfold flush_images in E3. destruct (flush_queued_native_images_if_over_threshold _ _ _) as [[st3 d3] rf] eqn:Ef.
  injection E3 as <- ->. apply flush_pending in Ef as [_ Hb].
  assert (Hsk0 : skips_counted u0) by done. unfold accounted in A, A3. simpl in A, A3.
  split; [|split].
  - simpl. lia.
  - simpl. apply (Sk Hsk0).
  - intros b Eb Hle. simpl. apply (Hb b Eb Hle). apply E2, P. done.
Qed.

Definition is_list_request (ctx : Z) (req : AssetStudioFfiRequest) : Prop :=
  exists offset, req = ContextListObjects ctx offset NATIVE_AOT_CONTEXT_LIST_PAGE_SIZE.

Lemma list_pages_log fuel (w w' : world S) ctx offset assets r :
  list_pages fuel w ctx offset assets = Some (w', r) ->
  exists pages, w_log w' = w_log w ++ pages /\ Forall (is_list_request ctx) pages.
Proof.
  revert w offset assets. induction fuel as [|fuel IH]; intros w offset assets E; [done|]. cbn [list_pages] in E.
  destruct (do_call w _) as [w1 rc] eqn:Ec. apply do_call_log in Ec.
  assert (Hone : Forall (is_list_request ctx) [ContextListObjects ctx offset NATIVE_AOT_CONTEXT_LIST_PAGE_SIZE])
    by (constructor; [by exists offset | done]).
  destruct (result_bind rc _) as [resp|e]; [|simplify_eq; eauto].
  destruct (next_offset resp) as [next|]; [|simplify_eq; eauto].
  apply IH in E as (pages & Hl & Hf). rewrite Ec, <- app_assoc in Hl. eexists. split; [exact Hl|].
  by apply Forall_app.
Qed.

(** What an export does from a successful [ContextOpen] on. *)
Definition exported (o : NativeObjectExportOptions) (types : list string) (ctx : Z)
    (log : list AssetStudioFfiRequest) (r : result NativeObjectExportSummary ExportPipelineError) : Prop :=
  exists assets pages k,
    Forall (is_list_request ctx) pages
    /\ log = pages ++ map (request_of o ctx) (take k (planned_batches o (read_order types assets))) ++ [ContextClose ctx]
    /\ forall m, r = Ok m ->
         k = length (planned_batches o (read_order types assets)) /\ summary_exact o types assets m.

(** The offsets the library returns with its pages advance and stay below a bound. *)
Definition pages_advance (bound : Z) : Prop :=
  forall ctx off s files out s' files' resp next,
    call (ContextListObjects ctx off NATIVE_AOT_CONTEXT_LIST_PAGE_SIZE) s files = (Ok out, s', files') ->
    parse_assetstudio_ffi_context_list_objects_worker_output out = Ok resp ->
    next_offset resp = Some next -> off < next <= bound.

(** Then the listing ends: [n] more pages need fuel for them and the last one. *)
Lemma list_pages_total bound fuel (w : world S) ctx offset assets :
  pages_advance bound ->
  bound - offset < Z.of_nat fuel -> offset <= bound -> is_Some (list_pages fuel w ctx offset assets).
Proof.
  intros Hadv. revert w offset assets. induction fuel as [|fuel IH]; intros w offset assets Hf Ho; [lia|].
  cbn [list_pages]. unfold do_call. destruct (call _ _ _) as [[rc s'] files'] eqn:Ec.
  destruct (result_bind rc _) as [resp|e] eqn:Er; [|done].
  destruct (next_offset resp) as [next|] eqn:En; [|done].
  apply result_bind_Ok in Er as (out & -> & Hp).
  pose proof (Hadv _ _ _ _ _ _ _ _ _ Ec Hp En). apply IH; lia.
Qed.

Lemma export_returns bound fuel o types req (w : world S) d :
  pages_advance bound -> 0 <= bound < Z.of_nat fuel ->
  is_Some (call_assetstudio_ffi_object_export_with_caller fuel o types req w d).
Proof.
  intros Hadv Hb. unfold call_assetstudio_ffi_object_export_with_caller.
  destruct (do_call w _) as [w1 rc]. destruct (result_bind rc _) as [open|e]; [|done].
  assert (is_Some (list_assetstudio_ffi_context_objects_worker fuel w1 open)) as [[w2 listed] ->].
  { unfold list_assetstudio_ffi_context_objects_worker. destruct (_ && _); [done|].
    apply (list_pages_total bound); [done | lia..]. }
  destruct (match listed with Ok _ => _ | Err _ => _ end) as [[w3 d3] unpacked].
  by destruct (do_call w3 _).
Qed.

(** The calls of an export that returns. *)
Lemma export_calls fuel o types req (w w' : world S) d d' r :
  call_assetstudio_ffi_object_export_with_caller fuel o types req w d = Some (w', d', r) ->
  (w_log w' = w_log w ++ [ContextOpen req] /\ d' = d /\ is_ok r = false)
  \/ exists ctx log, w_log w' = w_log w ++ ContextOpen req :: log /\ exported o types ctx log r.
Proof.
  unfold call_assetstudio_ffi_object_export_with_caller. intros E.
  destruct (do_call w _) as [w1 rc] eqn:Ec. apply do_call_log in Ec.
  destruct (result_bind rc _) as [open|e]; [right | left; by simplify_eq].
  exists (context_id open). set (ctx := context_id open) in *.
  destruct (list_assetstudio_ffi_context_objects_worker fuel w1 open) as [[w2 listed]|] eqn:El; [|done].
  assert (Hpages : exists pages, w_log w2 = w_log w1 ++ pages /\ Forall (is_list_request ctx) pages).
  { unfold list_assetstudio_ffi_context_objects_worker in El. destruct (_ && _); [|by eapply list_pages_log].
    simplify_eq. exists []. by rewrite app_nil_r. }
  destruct Hpages as (pages & Hl2 & Hpages).
  assert (Hun : forall w3 d3 r3,
    match listed with
    | Ok assets => unpack_assets o types ctx (initial_summary open) w2 d assets
    | Err e => (w2, d, Err e)
    end = (w3, d3, r3) ->
    exists assets k, w_log w3 = w_log w2 ++ map (request_of o ctx) (take k (planned_batches o (read_order types assets)))
      /\ forall m, r3 = Ok m -> k = length (planned_batches o (read_order types assets)) /\ summary_exact o types assets m).
  { intros w3 d3 r3 Eu. destruct listed as [assets|e].
    - exists assets. by eapply unpack_assets_spec.
    - injection Eu as <- <- <-. exists [], 0%nat. simpl. rewrite app_nil_r. by split. }
  destruct (match listed with
            | Ok assets => unpack_assets o types ctx (initial_summary open) w2 d assets
            | Err e => (w2, d, Err e)
            end) as [[w3 d3] unpacked] eqn:Eu.
  destruct (Hun _ _ _ eq_refl) as (assets & k & Hl3 & Hok). clear Hun.
  destruct (do_call w3 _) as [w4 rclose] eqn:Ec2. apply do_call_log in Ec2. injection E as <- <- <-.
  eexists. split; [rewrite Ec2, Hl3, Hl2, Ec, <- !app_assoc; simpl; reflexivity|].
  exists assets, pages, k. split_and!; [done | done|]. intros m Em. apply Hok.
  destruct unpacked as [m'|e]; [|done].
  destruct (result_bind rclose _); [done|]. by destruct (worker_crash_skipped m').
Qed.


End Lifecycle.

(** ** The retry around an export

    [run_assetstudio_ffi_object_export] in pooled mode: [attempt] is
    [call_assetstudio_ffi_object_export_pooled] with its [exclusive] flag. *)
Definition run_assetstudio_ffi_object_export {W A} (attempt : bool -> W -> W * result A ExportPipelineError)
    (w : W) : W * result A ExportPipelineError :=
  match attempt false w with
  | (w, Ok summary) => (w, Ok summary)
  | (w, Err error) =>
      if is_native_worker_signal_failure error then attempt true w else (w, Err error)
  end.

(** ** A library in memory *)

Module ConcreteExport.
(** Two text objects and an image; reading the image kills the worker. *)
Definition objects : list asset :=
  [mkAssetInfo 0 (Some "pic") (Some "assets/res/pic.png") (Some "Texture2D") 28 10 None 1 None;
   mkAssetInfo 1 (Some "a") (Some "assets/res/a.txt") (Some "TextAsset") 49 11 None 1 None;
   mkAssetInfo 2 (Some "b") (Some "assets/res/b.txt") (Some "TextAsset") 49 12 None 1 None;
   mkAssetInfo 3 (Some "c") None (Some "Mesh") 43 13 None 1 None].

Definition ok_output (r : AssetStudioFfiResponse) (payload : bytes) : WorkerOutput :=
  mkWorkerOutput "0" true r "" payload None.

Definition answer (req : AssetStudioFfiRequest) : result WorkerOutput ExportPipelineError :=
  match req with
  | ContextOpen _ => Ok (ok_output (RespOpen (mkOpenResponse true 5 4 [] true None)) [])
  | ContextListObjects _ off _ =>
      Ok (ok_output (RespList (if off =? 0 then mkListResponse true (Some 2) (take 2 objects) None
                               else mkListResponse true None (drop 2 objects) None)) [])
  | ContextReadObjects _ [mkReadItem 10 _ _] =>
      Err (ExportCommandFailed "/opt/assetstudio_ffi_worker" "signal: 11 (SIGSEGV)" "")
  | ContextReadObjects _ items =>
      Ok (ok_output (RespReadBatch (mkReadBatchResponse true
            (map (fun i => mkReadResponse true (Some "text_bytes") None None) items) 0 None))
          (bundle_v2 [] (map (fun i => (pretty (item_path_id i), [Byte.x41])) items)))
  | _ => Ok (ok_output (RespClose (mkCloseResponse true None)) [])
  end.

#[export] Instance memory_caller : Caller unit := {| call := fun req s files => (answer req, s, files) |}.

Definition options : NativeObjectExportOptions :=
  mkExportOptions (components "/o") "x" "assets/res" true [Png] true true [] "raw_rgba" 8 (Some 100).
Definition open_req : AssetStudioFfiContextOpenRequest :=
  mkOpenRequest "/tmp/b" ["tex2d"; "textAsset"] None false false None None [] true false.

Definition run :=
  @call_assetstudio_ffi_object_export_with_caller ascii_case plain_env unit memory_caller 5 options
    ["tex2d"; "textAsset"] open_req (mkWorld tt [] ∅) (mkDisk ∅ ∅).

Lemma memory_pages : @pages_advance unit memory_caller 2.
Proof.
  intros ctx off s files out s' files' resp next [= <- _ _] E1 En.
  destruct (off =? 0) eqn:Eo; vm_compute in E1; injection E1 as <-; vm_compute in En; [|done].
  injection En as <-. apply Z.eqb_eq in Eo. lia.
Qed.

End ConcreteExport.
