(* ===== verification/WorkerProtocol.v ===== *)
(** * The worker protocol

    A pooled worker is a process that serves requests read from its standard input
    ([crates/assetstudio-ffi/src/bin/assetstudio_ffi_worker.rs], module [Server]);
    [PooledWorker::call] of [worker_pool.rs] is its client.  Both sides work on the
    bytes in the two pipes.  The last part shows that a bundle exported through a
    worker is exported exactly as by the library loaded in the process
    ([DirectAssetStudioCaller]). *)

From S2P Require Import Prelude RustStr Errors Frame Paths PayloadBundle FfiTypes.
From S2P Require Import ExportPaths ExportPayload ObjectExport.

Local Open Scope string_scope.
Local Open Scope list_scope.
Local Open Scope Z_scope.
Local Open Scope rust_scope.

#[local] Arguments Z.mul : simpl never.

(** ** The library and the JSON codec *)

(** [LoadedAssetStudioFfiLibrary::call_typed_request] on the library's state;
    [lib_crash] tells that the native code kills the process, and how. *)
Class Library (L : Type) := {
  lib_call : AssetStudioFfiRequest -> L -> result (Z * AssetStudioFfiResponse * bytes) AssetStudioFfiError * L;
  lib_crash : AssetStudioFfiRequest -> L -> option string
}.

Record WorkerServerRequest : Type := mkServerRequest {
  req_id : Z;
  req_request : AssetStudioFfiRequest
}.

Record WorkerServerResponse : Type := mkServerResponse {
  resp_id : Z;
  resp_status : option Z;
  resp_response : option AssetStudioFfiResponse;
  resp_payload_len : Z;
  resp_payload_file : option string;
  resp_error : option string
}.

(** [sonic_rs] on the two message types; what is written is read back. *)
Class WorkerJson := {
  request_to_vec : WorkerServerRequest -> result bytes string;
  request_from_slice : bytes -> result WorkerServerRequest string;
  response_to_vec : WorkerServerResponse -> result bytes string;
  response_from_slice : bytes -> result WorkerServerResponse string;
  request_round_trip : forall r b, request_to_vec r = Ok b -> request_from_slice b = Ok r;
  response_round_trip : forall r b, response_to_vec r = Ok b -> response_from_slice b = Ok r
}.

(** [tempfile]: a name that is not in use. *)
Class TempFiles := {
  temp_file : spill_files -> result string io_error;
  temp_file_fresh : forall files name, temp_file files = Ok name -> files !! name = None
}.

(** [AssetStudioFfiError::to_string], with the texts of its sources abbreviated. *)
Definition ffi_error_text (e : AssetStudioFfiError) : string :=
  match e with
  | FfiMessage message => message
  | FfiSerializeError source => "failed to serialize FFI request: " +:+ source
  | FfiSpawn program _ => "failed to spawn " +:+ program
  | FfiCommandFailed program status stderr =>
      "command " +:+ program +:+ " failed with status " +:+ status +:+ ": " +:+ stderr
  | FfiIo path _ => "I/O error at " +:+ path
  end.

Definition io_error_text (e : io_error) : string :=
  match e with
  | UnexpectedEof => "unexpected end of file"
  | InvalidData message => message
  | OtherIo message => message
  | _ => "i/o error"
  end.

(** ** The server *)

Module Server.
Definition MAX_FRAME_SIZE : Z := 256 * 1024 * 1024.
Definition PAYLOAD_FILE_THRESHOLD : Z := 128 * 1024 * 1024.

(** [read_frame]: the end of the input before a length is complete is the end of
    the session. *)
Definition read_frame (reader : bytes) : result (option bytes) io_error * bytes :=
  match read_exact 8 reader with
  | None => (Ok None, [])
  | Some (len_bytes, reader) =>
      let len := from_le_bytes len_bytes in
      if MAX_FRAME_SIZE <? len then (Err (InvalidData "ffi worker frame too large"), reader)
      else match read_exact (Z.to_nat len) reader with
           | None => (Err UnexpectedEof, [])
           | Some (frame, reader) => (Ok (Some frame), reader)
           end
  end.

Definition write_frame (payload : bytes) : bytes := to_le_bytes 8 (zlen payload) ++ payload.

Definition error_response (id : Z) (error : string) : WorkerServerResponse :=
  mkServerResponse id None None 0 None (Some error).

Section Server.
Context {L : Type} `{Library L} `{WorkerJson} `{TempFiles}.

(** The response, the payload that follows it, and the payload files. *)
Definition server_response_with_payload (id status : Z) (response : AssetStudioFfiResponse)
    (payload : bytes) (files : spill_files)
  : result (WorkerServerResponse * bytes) io_error * spill_files :=
  if PAYLOAD_FILE_THRESHOLD <? zlen payload then
    match temp_file files with
    | Err e => (Err e, files)
    | Ok name =>
        (Ok (mkServerResponse id (Some status) (Some response) (zlen payload) (Some name) None, []),
         <[name := payload]> files)
    end
  else (Ok (mkServerResponse id (Some status) (Some response) (zlen payload) None None, payload), files).

(** Calls the library and builds the response. *)
Definition server_answer (req : WorkerServerRequest) (l : L) (files : spill_files)
  : WorkerServerResponse * bytes * spill_files * L :=
  let '(answer, l) := lib_call (req_request req) l in
  match answer with
  | Ok (status, body, payload) =>
      match server_response_with_payload (req_id req) status body payload files with
      | (Ok (response, payload), files) => (response, payload, files, l)
      | (Err e, files) => (error_response (req_id req) (io_error_text e), [], files, l)
      end
  | Err e => (error_response (req_id req) (ffi_error_text e), [], files, l)
  end.

(** What one round of the loop of [run_server] does: the library, the rest of the
    input, the output, the payload files and, if the process ends, its status. *)
Definition serve (l : L) (stdin : bytes) (files : spill_files)
  : L * bytes * bytes * spill_files * option string :=
  match read_frame stdin with
  | (Ok None, stdin) => (l, stdin, [], files, Some "exit status: 0")
  | (Err _, stdin) => (l, stdin, [], files, Some "exit status: 2")
  | (Ok (Some frame), stdin) =>
      match request_from_slice frame with
      | Err _ => (l, stdin, [], files, Some "exit status: 2")
      | Ok req =>
          match lib_crash (req_request req) l with
          | Some status => (l, stdin, [], files, Some status)
          | None =>
              let '(response, payload, files, l) := server_answer req l files in
              match response_to_vec response with
              | Err _ => (l, stdin, [], files, Some "exit status: 2")
              | Ok frame =>
                  (l, stdin,
                   write_frame frame ++ (if bool_decide (payload = []) then [] else write_frame payload),
                   files, None)
              end
          end
      end
  end.
End Server.
End Server.

(** ** The client *)

Section Client.
Context {L : Type} `{Library L} `{WorkerJson} `{TempFiles}.

(** A worker: the state of its library, what is in its pipes, how it ended, and
    [completed_calls]. *)
Record worker : Type := mkWorker {
  wk_program : string;
  wk_lib : L;
  wk_stdin : bytes;
  wk_stdout : bytes;
  wk_exit : option string;
  wk_completed : Z
}.

(** [protocol_error]. *)
Definition protocol_error (wk : worker) (source : io_error) : AssetStudioFfiError :=
  FfiCommandFailed (wk_program wk +:+ " --server") (default "protocol error" (wk_exit wk)) (io_error_text source).

Definition set_stdout (out : bytes) (wk : worker) : worker :=
  mkWorker (wk_program wk) (wk_lib wk) (wk_stdin wk) out (wk_exit wk) (wk_completed wk).
Definition complete_call (wk : worker) : worker :=
  mkWorker (wk_program wk) (wk_lib wk) (wk_stdin wk) (wk_stdout wk) (wk_exit wk)
    (saturating_add 64 (wk_completed wk) 1).

(** [write_worker_frame] into the pipe, after which a live worker serves it. *)
Definition send (wk : worker) (frame : bytes) (files : spill_files)
  : result unit io_error * worker * spill_files :=
  match wk_exit wk with
  | Some _ => (Err (OtherIo "broken pipe"), wk, files)
  | None =>
      let '(l, stdin, out, files, exit) := Server.serve (wk_lib wk) (Worker.write_worker_frame (wk_stdin wk) frame) files in
      (Ok tt, mkWorker (wk_program wk) l stdin (wk_stdout wk ++ out) exit (wk_completed wk), files)
  end.

Definition read_reply_frame (wk : worker) : result bytes AssetStudioFfiError * worker :=
  let '(r, out) := Worker.read_worker_frame (wk_stdout wk) in
  (result_map_err (protocol_error wk) r, set_stdout out wk).

(** The payload announced by a response: its file is checked, its frame is read. *)
Definition receive_payload (wk : worker) (response : WorkerServerResponse) (files : spill_files)
  : result bytes AssetStudioFfiError * worker :=
  match resp_payload_file response with
  | Some file =>
      match files !! file with
      | None => (Err (FfiIo file NotFound), wk)
      | Some content =>
          if negb (zlen content =? resp_payload_len response)
          then (Err (FfiMessage "ffi worker payload file length mismatch"), wk)
          else (Ok [], wk)
      end
  | None =>
      if 0 <? resp_payload_len response then
        match read_reply_frame wk with
        | (Err e, wk) => (Err e, wk)
        | (Ok payload, wk) =>
            if negb (zlen payload =? resp_payload_len response)
            then (Err (FfiMessage "ffi worker payload length mismatch"), wk)
            else (Ok payload, wk)
        end
      else (Ok [], wk)
  end.

(** [status == 0] and its text. *)
Definition worker_output (status : Z) (response : AssetStudioFfiResponse) (payload : bytes)
    (file : option string) : WorkerOutput :=
  mkWorkerOutput (pretty status) (status =? 0) response "" payload file.

(** [PooledWorker::call]. *)
Definition worker_call (id : Z) (request : AssetStudioFfiRequest) (wk : worker) (files : spill_files)
  : result WorkerOutput AssetStudioFfiError * worker * spill_files :=
  match request_to_vec (mkServerRequest id request) with
  | Err e => (Err (FfiSerializeError e), wk, files)
  | Ok frame =>
      match send wk frame files with
      | (Err e, wk, files) => (Err (protocol_error wk e), wk, files)
      | (Ok _, wk, files) =>
          match read_reply_frame wk with
          | (Err e, wk) => (Err e, wk, files)
          | (Ok response_bytes, wk) =>
              match response_from_slice response_bytes with
              | Err _ => (Err (FfiMessage "failed to parse ffi worker pool response"), wk, files)
              | Ok response =>
                  if negb (resp_id response =? id)
                  then (Err (FfiMessage "ffi worker pool response id mismatch"), wk, files)
                  else match resp_error response with
                  | Some error => (Err (FfiMessage error), wk, files)
                  | None =>
                      match resp_response response with
                      | None => (Err (FfiMessage "ffi worker pool response is missing typed response"), wk, files)
                      | Some body =>
                          match receive_payload wk response files with
                          | (Err e, wk) => (Err e, wk, files)
                          | (Ok payload, wk) =>
                              (Ok (worker_output (default 100 (resp_status response)) body payload
                                     (resp_payload_file response)), complete_call wk, files)
                          end
                      end
                  end
              end
          end
      end
  end.

(** [DirectAssetStudioCaller::call]. *)
Definition direct_call (request : AssetStudioFfiRequest) (l : L)
  : result WorkerOutput AssetStudioFfiError * L :=
  match lib_call request l with
  | (Ok (status, response, payload), l) => (Ok (worker_output status response payload None), l)
  | (Err e, l) => (Err e, l)
  end.
End Client.
Arguments worker L : clear implicits.

(** ** A call is answered as by the library *)

Section Exchange.
Context {L : Type} `{Library L} `{WorkerJson} `{TempFiles}.

(** Nothing is in flight and the process is alive. *)
Definition healthy (wk : worker L) : Prop :=
  wk_stdin wk = [] /\ wk_stdout wk = [] /\ wk_exit wk = None.

(** The call can be carried by the protocol: the messages are serialized and fit
    the frames, a large payload finds a temporary file, the library neither kills
    the process nor fails with anything but a message. *)
Definition carried (id : Z) (request : AssetStudioFfiRequest) (l : L) (files : spill_files) : bool :=
  let '(response, payload, _, _) := Server.server_answer (mkServerRequest id request) l files in
  match request_to_vec (mkServerRequest id request) with
  | Ok frame => zlen frame <=? Server.MAX_FRAME_SIZE | Err _ => false end
  && match response_to_vec response with
     | Ok frame => zlen frame <=? Worker.MAX_FRAME_SIZE | Err _ => false end
  && bool_decide (lib_crash request l = None)
  && match (lib_call request l).1 with
     | Ok (_, _, payload) => (zlen payload <=? Server.PAYLOAD_FILE_THRESHOLD) || is_ok (temp_file files)
     | Err (FfiMessage _) => true
     | Err _ => false
     end.

(** The answer [out] of a worker stands for the answer [direct] of the library:
    the payload is in it, or in its file. *)
Definition same_answer (direct out : result WorkerOutput AssetStudioFfiError) (files : spill_files) : Prop :=
  match direct, out with
  | Err e, Err e' => e = e'
  | Ok o, Ok o' =>
      wo_status o = wo_status o' /\ wo_status_success o = wo_status_success o'
      /\ wo_response o = wo_response o' /\ wo_stderr o = wo_stderr o' /\ wo_payload_file o = None
      /\ (wo_payload_file o' = None /\ wo_payload o' = wo_payload o
          \/ exists file, wo_payload_file o' = Some file /\ wo_payload o' = [] /\ files !! file = Some (wo_payload o))
  | _, _ => False
  end.

Lemma server_read_frame payload :
  zlen payload <= Server.MAX_FRAME_SIZE ->
  Server.read_frame (Worker.write_worker_frame [] payload) = (Ok (Some payload), []).
Proof.
  intros Hl. unfold Server.read_frame, Worker.write_worker_frame. cbn [app].
  rewrite read_exact_app' by apply length_to_le_bytes.
  change (Z.of_nat (length payload)) with (zlen payload).
  assert (Hr : 0 <= zlen payload < 256 ^ Z.of_nat 8).
  { pose proof (zlen_nonneg payload). unfold Server.MAX_FRAME_SIZE in Hl. lia. }
  rewrite from_to_le_small by done.
  destruct (Z.ltb_spec Server.MAX_FRAME_SIZE (zlen payload)); [lia|].
  unfold zlen. rewrite Nat2Z.id. rewrite <- (app_nil_r payload) at 2. by rewrite read_exact_app.
Qed.

(** A frame the worker wrote is read, and the rest stays in the pipe. *)
Lemma read_server_frame (wk : worker L) payload rest :
  wk_stdout wk = Server.write_frame payload ++ rest -> zlen payload <= Worker.MAX_FRAME_SIZE ->
  read_reply_frame wk = (Ok payload, set_stdout rest wk).
Proof.
  intros E Hl. unfold read_reply_frame. rewrite E.
  change (Server.write_frame payload) with (Worker.write_worker_frame [] payload).
  rewrite Worker.worker_frame_round_trip.
  - change (Z.of_nat (length payload)) with (zlen payload).
    destruct (Z.leb_spec (zlen payload) Worker.MAX_FRAME_SIZE); [done | lia].
  - change (Z.of_nat (length payload)) with (zlen payload). unfold in_width, Worker.MAX_FRAME_SIZE in *.
    pose proof (zlen_nonneg payload). lia.
Qed.

(** Sending a request that is carried: the pipes hold its answer. *)
Lemma send_carried wk id request files frame :
  healthy wk -> carried id request (wk_lib wk) files = true ->
  request_to_vec (mkServerRequest id request) = Ok frame ->
  exists response payload files' l' rframe,
    Server.server_answer (mkServerRequest id request) (wk_lib wk) files = (response, payload, files', l')
    /\ response_to_vec response = Ok rframe /\ zlen rframe <= Worker.MAX_FRAME_SIZE
    /\ send wk frame files = (Ok tt, mkWorker (wk_program wk) l' []
         (Server.write_frame rframe ++ (if bool_decide (payload = []) then [] else Server.write_frame payload))
         None (wk_completed wk), files').
Proof.
  intros (Hin & Hout & Hex) Hc Ef. unfold carried in Hc.
  destruct (Server.server_answer _ _ _) as [[[response payload] files'] l'] eqn:Ea.
  rewrite Ef in Hc. apply andb_true_iff in Hc as [Hc _]. apply andb_true_iff in Hc as [Hc Hcrash].
  apply andb_true_iff in Hc as [Hf Hr]. apply Z.leb_le in Hf. apply bool_decide_eq_true in Hcrash.
  destruct (response_to_vec response) as [rframe|] eqn:Er; [|done]. apply Z.leb_le in Hr.
  exists response, payload, files', l', rframe. split_and!; try done.
  unfold send. rewrite Hex, Hin, Hout. unfold Server.serve. rewrite server_read_frame by done.
  rewrite (request_round_trip _ _ Ef). cbn [req_request]. rewrite Hcrash, Ea, Er. done.
Qed.

(** A carried call of a healthy worker answers as the library does, and leaves the
    worker healthy with the library's new state. *)
Lemma worker_call_direct id request (wk : worker L) files :
  healthy wk -> carried id request (wk_lib wk) files = true ->
  exists out wk' files', worker_call id request wk files = (out, wk', files')
    /\ healthy wk' /\ wk_lib wk' = (direct_call request (wk_lib wk)).2
    /\ same_answer (direct_call request (wk_lib wk)).1 out files'.
Proof.
  intros Hh Hc. pose proof Hc as Hc2. unfold carried in Hc2.
  destruct (request_to_vec (mkServerRequest id request)) as [frame|] eqn:Ef.
  2: { destruct (Server.server_answer _ _ _) as [[[??]?]?]. done. }
  destruct (send_carried wk id request files frame Hh Hc Ef) as (response & payload & files' & l' & rframe & Ea & Er & Hr & Es).
  rewrite Ea, Er in Hc2. apply andb_true_iff in Hc2 as [_ Hlib].
  unfold worker_call. rewrite Ef, Es. erewrite read_server_frame by done. rewrite (response_round_trip _ _ Er).
  unfold Server.server_answer in Ea. unfold direct_call. cbn [req_request req_id] in Ea.
  destruct (lib_call request (wk_lib wk)) as [[[[status body] data]|e] l2] eqn:El; cbn [fst snd] in Hlib |- *.
  - unfold Server.server_response_with_payload in Ea. destruct (Z.ltb_spec Server.PAYLOAD_FILE_THRESHOLD (zlen data)).
    + destruct (Z.leb_spec (zlen data) Server.PAYLOAD_FILE_THRESHOLD); [lia|]. cbn [orb] in Hlib.
      destruct (temp_file files) as [name|] eqn:Et; [|done]. injection Ea as <- <- <- <-.
      cbn [resp_id resp_error resp_response]. rewrite Z.eqb_refl. cbn [negb].
      unfold receive_payload. cbn [resp_payload_file resp_payload_len]. rewrite lookup_insert_eq, Z.eqb_refl. cbn [negb].
      eexists _, _, _. split; [done|]. split; [done|]. split; [done|]. cbn. split_and!; try done.
      right. exists name. split_and!; try done. by rewrite lookup_insert_eq.
    + injection Ea as <- <- <- <-. cbn [resp_id resp_error resp_response]. rewrite Z.eqb_refl. cbn [negb].
      unfold receive_payload. cbn [resp_payload_file resp_payload_len].
      destruct (bool_decide_reflect (data = [])) as [->|Hd].
      * eexists _, _, _. split; [done|]. split; [done|]. split; [done|]. cbn. split_and!; try done. by left.
      * destruct (Z.ltb_spec 0 (zlen data)).
        2: { destruct data; [done|]. unfold zlen in *. simpl in *. lia. }
        rewrite (read_server_frame _ data []);
          [|cbn; by rewrite app_nil_r | unfold Worker.MAX_FRAME_SIZE, Server.PAYLOAD_FILE_THRESHOLD in *; lia].
        rewrite Z.eqb_refl. cbn [negb].
        eexists _, _, _. split; [done|]. split; [done|]. split; [done|]. cbn. split_and!; try done. by left.
  - injection Ea as <- <- <- <-. cbn [resp_id resp_error]. rewrite Z.eqb_refl. cbn [negb].
    destruct e as [message| | | |]; try done. eexists _, _, _. split; [done|]. by split_and!.
Qed.
End Exchange.
