(* ===== verification/ExportRefinement.v ===== *)
(** * Pooled exports refine direct exports

    An export depends on its [Caller] only through the answers it gets.  The first
    part is a simulation between two callers for every function of
    [ObjectExport]; the second instantiates it with the library in the process
    ([direct_caller]) and a leased worker ([lease_caller]).  The simulation is
    stopped by a call the protocol cannot carry, which the state of the lease
    remembers. *)

From S2P Require Import Prelude RustStr Errors Paths PayloadBundle FfiTypes.
From S2P Require Import ExportPaths ExportPayload ObjectExport WorkerProtocol.

Local Open Scope string_scope.
Local Open Scope list_scope.
Local Open Scope Z_scope.
Local Open Scope rust_scope.

(** [same_answer] for the errors of the exporter. *)
Definition answers (r1 r2 : result WorkerOutput ExportPipelineError) (files : spill_files) : Prop :=
  match r1, r2 with
  | Err e, Err e' => e = e'
  | Ok o, Ok o' => same_answer (Ok o) (Ok o') files
  | _, _ => False
  end.

(** ** What the export does to the caller's state *)

Section Monotone.
Context `{UnicodeCase} `{ExportEnv} {S : Type} `{Caller S}.
Variable good : S -> Prop.
Hypothesis call_mono : forall req s files r s' files',
  call req s files = (r, s', files') -> good s' -> good s.

Definition wgood (w : world S) : Prop := good (w_caller w).

Lemma do_call_mono (w w' : world S) req r : do_call w req = (w', r) -> wgood w' -> wgood w.
Proof.
  unfold do_call, wgood. intros E. destruct (call req _ _) as [[a s'] f'] eqn:C. injection E as <- <-.
  simpl. by eapply call_mono.
Qed.

Lemma batch_caller (w w' : world S) out chunk r :
  parse_assetstudio_ffi_object_read_batch_worker_output_recoverable w out chunk = (w', r) ->
  w_caller w' = w_caller w.
Proof.
  unfold parse_assetstudio_ffi_object_read_batch_worker_output_recoverable, take_payload. intros E.
  destruct (result_map_err _ _); [|by simplify_eq].
  destruct (wo_payload_file out) as [file|]; [|by simplify_eq].
  destruct (negb _); [by simplify_eq|]. destruct (w_spill w !! file); by simplify_eq.
Qed.

Lemma handle_results_world o results (u u' : unpack_state S) r :
  handle_results o results u = (u', r) -> u_world u' = u_world u.
Proof.
  revert u. induction results as [|[a [out|s]] results IH]; intros u E; cbn [handle_results] in E.
  - by simplify_eq.
  - destruct (is_playable_mono_typetree a out); [by apply IH in E|].
    destruct (write_native_object_payload _ _ _ _ _) as [[st d] [[]|e]]; [by apply IH in E | by simplify_eq].
  - by apply IH in E.
Qed.

Lemma read_subchunk_mono o ctx chunk (u u' : unpack_state S) r :
  read_subchunk o ctx chunk u = (u', r) -> wgood (u_world u') -> wgood (u_world u).
Proof.
  unfold read_subchunk. intros E Hg. destruct (do_call _ _) as [w rc] eqn:Ec.
  eapply (do_call_mono (u_world u)); [exact Ec|]. cbn [u_world with_world with_summary] in E.
  destruct rc as [out|e].
  - destruct (parse_assetstudio_ffi_object_read_batch_worker_output_recoverable w out chunk) as [w' p] eqn:P.
    apply batch_caller in P. unfold wgood in *. rewrite <- P.
    destruct p as [[results failed]|e]; [|by simplify_eq]. apply handle_results_world in E. by rewrite E in Hg.
  - destruct chunk as [|a [|b chunk]]; [by simplify_eq| |by simplify_eq]. destruct (_ && _); by simplify_eq.
Qed.

Lemma read_subchunks_mono o ctx subs (u u' : unpack_state S) r :
  read_subchunks o ctx subs u = (u', r) -> wgood (u_world u') -> wgood (u_world u).
Proof.
  revert u. induction subs as [|c subs IH]; intros u E Hg; cbn [read_subchunks] in E; [by simplify_eq|].
  destruct (read_subchunk o ctx c u) as [u1 [[]|e]] eqn:E1; [|simplify_eq]; eapply read_subchunk_mono; eauto.
Qed.

Lemma flush_images_world o (u u' : unpack_state S) r : flush_images o u = (u', r) -> u_world u' = u_world u.
Proof. unfold flush_images. intros E. destruct (flush_queued_native_images_if_over_threshold _ _ _) as [[??]?]. by simplify_eq. Qed.

Lemma read_chunks_mono o ctx cs (u u' : unpack_state S) r :
  read_chunks o ctx cs u = (u', r) -> wgood (u_world u') -> wgood (u_world u).
Proof.
  revert u. induction cs as [|c cs IH]; intros u E Hg; cbn [read_chunks] in E; [by simplify_eq|].
  destruct (read_subchunks o ctx _ u) as [u1 [[]|e]] eqn:E1; [|simplify_eq; by eapply read_subchunks_mono].
  eapply read_subchunks_mono; [exact E1|]. destruct (flush_images o u1) as [u2 r2] eqn:E2.
  apply flush_images_world in E2. rewrite <- E2. destruct r2 as [[]|e]; [by eapply IH | by simplify_eq].
Qed.

Lemma list_pages_mono fuel (w w' : world S) ctx offset assets r :
  list_pages fuel w ctx offset assets = Some (w', r) -> wgood w' -> wgood w.
Proof.
  revert w offset assets. induction fuel as [|fuel IH]; intros w offset assets E Hg; [done|]. cbn [list_pages] in E.
  destruct (do_call w _) as [w1 rc] eqn:Ec. eapply do_call_mono; [exact Ec|].
  destruct (result_bind rc _) as [resp|e]; [|by simplify_eq].
  destruct (next_offset resp) as [next|]; [by eapply IH | by simplify_eq].
Qed.

Lemma list_worker_mono fuel (w w' : world S) open r :
  list_assetstudio_ffi_context_objects_worker fuel w open = Some (w', r) -> wgood w' -> wgood w.
Proof.
  unfold list_assetstudio_ffi_context_objects_worker.
  destruct (_ && _); intros E; [by simplify_eq | by eapply list_pages_mono].
Qed.

Lemma unpack_assets_mono o types ctx m (w w' : world S) d d' assets r :
  unpack_assets o types ctx m w d assets = (w', d', r) -> wgood w' -> wgood w.
Proof.
  unfold unpack_assets. intros E Hg. destruct (select_native_object_readable_assets _ _ _) as [readable m'].
  set (u0 := mkUnpack _ _ _ _ _) in E.
  destruct (read_chunks _ _ _ u0) as [u1 [[]|e]] eqn:E1; [|simplify_eq];
    apply (read_chunks_mono _ _ _ _ _ _ E1); [|done].
  destruct (write_assetstudio_playable_payloads _ _ _ _) as [[st d2] [[]|e]]; [|by simplify_eq].
  destruct (flush_images o _) as [u3 r3] eqn:E3. apply flush_images_world in E3. cbn [u_world with_paths] in E3.
  rewrite <- E3. destruct r3 as [[]|e]; by simplify_eq.
Qed.
End Monotone.

(** ** Simulation of callers *)

Section Simulation.
Context `{UnicodeCase} `{ExportEnv} {S1 S2 : Type} `{Caller S1} `{Caller S2}.
Variables (R : S1 -> S2 -> Prop) (good : S2 -> Prop).
Hypothesis call_mono : forall req s files r s' files',
  call req s files = (r, s', files') -> good s' -> good s.
Hypothesis call_sim : forall req s1 f1 r1 s1' f1' s2 f2 r2 s2' f2',
  R s1 s2 -> call req s1 f1 = (r1, s1', f1') -> call req s2 f2 = (r2, s2', f2') -> good s2' ->
  R s1' s2' /\ answers r1 r2 f2'.

(** The callers correspond and have received the same calls. *)
Definition related (w1 : world S1) (w2 : world S2) : Prop :=
  R (w_caller w1) (w_caller w2) /\ w_log w1 = w_log w2.

Lemma do_call_sim w1 w2 req w1' r1 w2' r2 :
  related w1 w2 -> do_call w1 req = (w1', r1) -> do_call w2 req = (w2', r2) -> wgood good w2' ->
  related w1' w2' /\ answers r1 r2 (w_spill w2').
Proof.
  intros [HR Hl] E1 E2 Hg. unfold do_call in *.
  destruct (call req (w_caller w1) _) as [[a1 s1'] f1'] eqn:C1.
  destruct (call req (w_caller w2) _) as [[a2 s2'] f2'] eqn:C2. injection E1 as <- <-. injection E2 as <- <-.
  destruct (call_sim _ _ _ _ _ _ _ _ _ _ _ HR C1 C2 Hg) as [HR' Ha].
  split; [|done]. split; simpl; [done|]. by rewrite Hl.
Qed.

(** The answers without payload are parsed alike. *)
Lemma parse_agree {A} (parse : WorkerOutput -> result A ExportPipelineError) r1 r2 files :
  (forall o1 o2, wo_status o1 = wo_status o2 -> wo_status_success o1 = wo_status_success o2 ->
     wo_response o1 = wo_response o2 -> wo_stderr o1 = wo_stderr o2 -> parse o1 = parse o2) ->
  answers r1 r2 files -> (let? output := r1 in parse output) = (let? output := r2 in parse output).
Proof.
  intros Hp Ha. destruct r1 as [o1|e1], r2 as [o2|e2]; simpl in *; try done; [|by subst].
  destruct Ha as (? & ? & ? & ? & _). by apply Hp.
Qed.

Lemma parse_open_resp o1 o2 :
  wo_status o1 = wo_status o2 -> wo_status_success o1 = wo_status_success o2 ->
  wo_response o1 = wo_response o2 -> wo_stderr o1 = wo_stderr o2 ->
  parse_assetstudio_ffi_context_open_worker_output o1 = parse_assetstudio_ffi_context_open_worker_output o2.
Proof. unfold parse_assetstudio_ffi_context_open_worker_output, call_failed. by intros -> -> -> ->. Qed.

Lemma parse_list_resp o1 o2 :
  wo_status o1 = wo_status o2 -> wo_status_success o1 = wo_status_success o2 ->
  wo_response o1 = wo_response o2 -> wo_stderr o1 = wo_stderr o2 ->
  parse_assetstudio_ffi_context_list_objects_worker_output o1
  = parse_assetstudio_ffi_context_list_objects_worker_output o2.
Proof. unfold parse_assetstudio_ffi_context_list_objects_worker_output, call_failed. by intros -> -> -> ->. Qed.

Lemma parse_close_resp o1 o2 :
  wo_status o1 = wo_status o2 -> wo_status_success o1 = wo_status_success o2 ->
  wo_response o1 = wo_response o2 -> wo_stderr o1 = wo_stderr o2 ->
  parse_assetstudio_ffi_context_close_worker_output o1 = parse_assetstudio_ffi_context_close_worker_output o2.
Proof. unfold parse_assetstudio_ffi_context_close_worker_output, call_failed. by intros -> -> -> ->. Qed.

Lemma take_payload_sim w1 w2 o1 o2 :
  related w1 w2 -> same_answer (Ok o1) (Ok o2) (w_spill w2) ->
  exists w2', take_payload w1 o1 = (w1, Ok (wo_payload o1)) /\ take_payload w2 o2 = (w2', Ok (wo_payload o1))
    /\ w_caller w2' = w_caller w2 /\ related w1 w2'.
Proof.
  intros Hr (_ & _ & _ & _ & Hn & Hp). unfold take_payload. rewrite Hn.
  destruct Hp as [[-> ->]|(file & -> & -> & Hf)]; [by exists w2|].
  cbn [bool_decide]. rewrite bool_decide_eq_true_2 by done. cbn [negb]. rewrite Hf. eexists. by split_and!.
Qed.

Lemma batch_sim w1 w2 o1 o2 chunk w1' r1 w2' r2 :
  related w1 w2 -> same_answer (Ok o1) (Ok o2) (w_spill w2) ->
  parse_assetstudio_ffi_object_read_batch_worker_output_recoverable w1 o1 chunk = (w1', r1) ->
  parse_assetstudio_ffi_object_read_batch_worker_output_recoverable w2 o2 chunk = (w2', r2) ->
  r1 = r2 /\ w_caller w2' = w_caller w2 /\ related w1' w2'.
Proof.
  intros Hr Ha E1 E2. unfold parse_assetstudio_ffi_object_read_batch_worker_output_recoverable in *.
  pose proof Ha as (Hs1 & Hs2 & Hs3 & Hs4 & _). rewrite Hs1, Hs2, Hs3, Hs4 in E1.
  destruct (take_payload_sim w1 w2 o1 o2 Hr Ha) as (w3 & T1 & T2 & Hc & Hr').
  rewrite T1 in E1. rewrite T2 in E2. destruct (result_map_err _ _) as [resp|e].
  - injection E1 as <- <-. injection E2 as <- <-. done.
  - by simplify_eq.
Qed.

(** The states of the unpacking block, apart from the world. *)
Definition usame (u1 : unpack_state S1) (u2 : unpack_state S2) : Prop :=
  u_disk u1 = u_disk u2 /\ u_paths u1 = u_paths u2 /\ u_summary u1 = u_summary u2 /\ u_playable u1 = u_playable u2.

Definition urel (u1 : unpack_state S1) (u2 : unpack_state S2) : Prop :=
  usame u1 u2 /\ related (u_world u1) (u_world u2).

Lemma urel_make w1 w2 d st m p : related w1 w2 -> urel (mkUnpack w1 d st m p) (mkUnpack w2 d st m p).
Proof. intros Hr. by split. Qed.

(** Related states differ in their worlds only. *)
Lemma urel_inv u1 u2 : urel u1 u2 ->
  exists w1 w2 d st m p, u1 = mkUnpack w1 d st m p /\ u2 = mkUnpack w2 d st m p /\ related w1 w2.
Proof.
  destruct u1 as [w1 d1 st1 m1 p1], u2 as [w2 d2 st2 m2 p2]. intros [(Hd & Hp & Hs & Hl) Hr]. simpl in *. subst.
  by exists w1, w2, d2, st2, m2, p2.
Qed.

Lemma handle_results_sim o results u1 u2 u1' r1 u2' r2 :
  urel u1 u2 -> handle_results o results u1 = (u1', r1) -> handle_results o results u2 = (u2', r2) ->
  urel u1' u2' /\ r1 = r2.
Proof.
  intros Hu. apply urel_inv in Hu as (w1 & w2 & d & st & m & p & -> & -> & Hr). revert d st m p.
  induction results as [|[a [out|s]] results IH]; intros d st m p E1 E2;
    cbn [handle_results u_world u_disk u_paths u_summary u_playable with_summary with_paths] in *.
  - simplify_eq. by split.
  - destruct (is_playable_mono_typetree a out); [by eapply IH|].
    destruct (write_native_object_payload o st d a out) as [[st' d'] [[]|e]]; [by eapply IH|].
    simplify_eq. by split.
  - by eapply IH.
Qed.

Lemma read_subchunk_sim o ctx chunk u1 u2 u1' r1 u2' r2 :
  urel u1 u2 -> read_subchunk o ctx chunk u1 = (u1', r1) -> read_subchunk o ctx chunk u2 = (u2', r2) ->
  wgood good (u_world u2') -> urel u1' u2' /\ r1 = r2.
Proof.
  intros Hu E1 E2 Hg. apply urel_inv in Hu as (w1 & w2 & d & st & m & p & -> & -> & Hr).
  unfold read_subchunk in *.
  cbn [u_world u_disk u_paths u_summary u_playable with_summary with_world] in *.
  destruct (do_call w1 _) as [v1 c1] eqn:D1. destruct (do_call w2 _) as [v2 c2] eqn:D2.
  pose proof (do_call_sim _ _ _ _ _ _ _ Hr D1 D2) as Hsim. clear D1 D2.
  destruct c2 as [o2|e2].
  - destruct (parse_assetstudio_ffi_object_read_batch_worker_output_recoverable v2 o2 chunk) as [v2' p2] eqn:P2.
    assert (Hg2 : wgood good v2).
    { unfold wgood. rewrite <- (batch_caller _ _ _ _ _ P2).
      destruct p2 as [[results failed]|e]; [|by simplify_eq]. apply handle_results_world in E2. simpl in E2. by rewrite <- E2. }
    destruct (Hsim Hg2) as [Hr' Ha]. destruct c1 as [o1|]; [|done].
    destruct (parse_assetstudio_ffi_object_read_batch_worker_output_recoverable v1 o1 chunk) as [v1' p1] eqn:P1.
    destruct (batch_sim _ _ _ _ _ _ _ _ _ Hr' Ha P1 P2) as (-> & _ & Hr'').
    destruct p2 as [[results failed]|e]; [|simplify_eq; by split; [apply urel_make|]].
    eapply handle_results_sim; [|exact E1|exact E2]. by apply urel_make.
  - assert (Hg2 : wgood good v2).
    { destruct chunk as [|a [|b chunk]]; [by simplify_eq| |by simplify_eq]. destruct (_ && _); by simplify_eq. }
    destruct (Hsim Hg2) as [Hr' Ha]. destruct c1 as [|e1]; [done|]. simpl in Ha. subst e1.
    destruct chunk as [|a [|b chunk]]; [simplify_eq; by split| |simplify_eq; by split].
    destruct (_ && _); simplify_eq; by split.
Qed.

Lemma read_subchunks_sim o ctx subs u1 u2 u1' r1 u2' r2 :
  urel u1 u2 -> read_subchunks o ctx subs u1 = (u1', r1) -> read_subchunks o ctx subs u2 = (u2', r2) ->
  wgood good (u_world u2') -> urel u1' u2' /\ r1 = r2.
Proof.
  revert u1 u2. induction subs as [|c subs IH]; intros u1 u2 Hu E1 E2 Hg; cbn [read_subchunks] in *; [by simplify_eq|].
  destruct (read_subchunk o ctx c u1) as [v1 c1] eqn:D1. destruct (read_subchunk o ctx c u2) as [v2 c2] eqn:D2.
  assert (Hg2 : wgood good (u_world v2)).
  { destruct c2 as [[]|e]; [by eapply read_subchunks_mono | by simplify_eq]. }
  destruct (read_subchunk_sim _ _ _ _ _ _ _ _ _ Hu D1 D2 Hg2) as [Hu' ->].
  destruct c2 as [[]|e]; [by eapply IH | by simplify_eq].
Qed.

Lemma flush_images_sim o u1 u2 u1' r1 u2' r2 :
  urel u1 u2 -> flush_images o u1 = (u1', r1) -> flush_images o u2 = (u2', r2) -> urel u1' u2' /\ r1 = r2.
Proof.
  intros Hu E1 E2. apply urel_inv in Hu as (w1 & w2 & d & st & m & p & -> & -> & Hr).
  unfold flush_images in *. cbn [u_disk u_paths] in *.
  destruct (flush_queued_native_images_if_over_threshold o st d) as [[st' d'] r]. simplify_eq. by split.
Qed.

Lemma read_chunks_sim o ctx cs u1 u2 u1' r1 u2' r2 :
  urel u1 u2 -> read_chunks o ctx cs u1 = (u1', r1) -> read_chunks o ctx cs u2 = (u2', r2) ->
  wgood good (u_world u2') -> urel u1' u2' /\ r1 = r2.
Proof.
  revert u1 u2. induction cs as [|c cs IH]; intros u1 u2 Hu E1 E2 Hg; cbn [read_chunks] in *; [by simplify_eq|].
  destruct (read_subchunks o ctx _ u1) as [v1 c1] eqn:D1. destruct (read_subchunks o ctx _ u2) as [v2 c2] eqn:D2.
  destruct (flush_images o v1) as [x1 f1] eqn:F1. destruct (flush_images o v2) as [x2 f2] eqn:F2.
  pose proof (flush_images_world _ _ _ _ F2) as Hw.
  assert (Hg2 : wgood good (u_world v2)).
  { destruct c2 as [[]|e]; [|by simplify_eq]. rewrite <- Hw.
    destruct f2 as [[]|e]; [by eapply read_chunks_mono | by simplify_eq]. }
  destruct (read_subchunks_sim _ _ _ _ _ _ _ _ _ Hu D1 D2 Hg2) as [Hu' ->].
  destruct c2 as [[]|e]; [|by simplify_eq].
  destruct (flush_images_sim _ _ _ _ _ _ _ Hu' F1 F2) as [Hx ->].
  destruct f2 as [[]|e]; [by eapply IH | by simplify_eq].
Qed.

Lemma list_pages_sim fuel w1 w2 ctx offset assets x2 w2' r2 :
  related w1 w2 -> list_pages fuel w2 ctx offset assets = x2 -> x2 = Some (w2', r2) -> wgood good w2' ->
  exists w1', list_pages fuel w1 ctx offset assets = Some (w1', r2) /\ related w1' w2'.
Proof.
  revert w1 w2 offset assets. induction fuel as [|fuel IH]; intros w1 w2 offset assets Hr <- E Hg; [done|].
  cbn [list_pages] in *.
  destruct (do_call w1 _) as [v1 c1] eqn:D1. destruct (do_call w2 _) as [v2 c2] eqn:D2.
  assert (Hg2 : wgood good v2).
  { destruct (result_bind c2 _) as [resp|e]; [|by simplify_eq].
    destruct (next_offset resp); [by eapply list_pages_mono | by simplify_eq]. }
  destruct (do_call_sim _ _ _ _ _ _ _ Hr D1 D2 Hg2) as [Hr' Ha].
  rewrite (parse_agree _ _ _ _ parse_list_resp Ha).
  destruct (result_bind c2 _) as [resp|e]; [|simplify_eq; eauto].
  destruct (next_offset resp) as [next|]; [by eapply IH | simplify_eq; eauto].
Qed.

Lemma list_worker_sim fuel w1 w2 open w2' r2 :
  related w1 w2 -> list_assetstudio_ffi_context_objects_worker fuel w2 open = Some (w2', r2) -> wgood good w2' ->
  exists w1', list_assetstudio_ffi_context_objects_worker fuel w1 open = Some (w1', r2) /\ related w1' w2'.
Proof.
  unfold list_assetstudio_ffi_context_objects_worker. destruct (_ && _); intros Hr E Hg.
  - simplify_eq. eauto.
  - by eapply list_pages_sim.
Qed.

Lemma unpack_assets_sim o types ctx m w1 w2 d assets w1' d1 r1 w2' d2 r2 :
  related w1 w2 -> unpack_assets o types ctx m w1 d assets = (w1', d1, r1) ->
  unpack_assets o types ctx m w2 d assets = (w2', d2, r2) -> wgood good w2' ->
  related w1' w2' /\ d1 = d2 /\ r1 = r2.
Proof.
  unfold unpack_assets. intros Hr E1 E2 Hg.
  destruct (select_native_object_readable_assets _ _ _) as [readable m'].
  set (u1 := mkUnpack w1 _ _ _ _) in E1. set (u2 := mkUnpack w2 _ _ _ _) in E2.
  assert (Hu : urel u1 u2) by (by apply urel_make).
  destruct (read_chunks _ _ _ u1) as [v1 c1] eqn:C1. destruct (read_chunks _ _ _ u2) as [v2 c2] eqn:C2.
  assert (Hsim : wgood good (u_world v2) -> urel v1 v2 /\ c1 = c2) by (by eapply read_chunks_sim).
  destruct c2 as [[]|e].
  - destruct (write_assetstudio_playable_payloads o (u_paths v2) (u_disk v2) (u_playable v2)) as [[st d'] rp] eqn:P2.
    destruct (flush_images o (with_paths st d' v2)) as [x2 f2] eqn:F2.
    pose proof (flush_images_world _ _ _ _ F2) as Hw. cbn [u_world with_paths] in Hw.
    assert (Hg2 : wgood good (u_world v2)).
    { destruct rp as [[]|e]; [|by simplify_eq]. rewrite <- Hw. destruct f2 as [[]|e]; by simplify_eq. }
    destruct (Hsim Hg2) as [Hv ->]. apply urel_inv in Hv as (y1 & y2 & d0 & st0 & m0 & p0 & -> & -> & Hy).
    cbn [u_paths u_disk u_playable u_world with_paths u_summary] in *. rewrite P2 in E1.
    destruct rp as [[]|e]; [|simplify_eq; by split_and!].
    destruct (flush_images o _) as [x1 f1] eqn:F1 in E1.
    destruct (fun Hu => flush_images_sim _ _ _ _ _ _ _ Hu F1 F2) as [Hx ->]; [by apply urel_make|].
    apply urel_inv in Hx as (z1 & z2 & d3 & st3 & m3 & p3 & -> & -> & Hz).
    destruct f2 as [[]|e]; simplify_eq; by split_and!.
  - simplify_eq. destruct (Hsim Hg) as [Hv ->]. apply urel_inv in Hv as (y1 & y2 & d0 & st0 & m0 & p0 & -> & -> & Hy).
    simplify_eq. by split_and!.
Qed.

(** The whole export: as long as every call was good, the same objects are written
    to the same disk with the same calls and the same result. *)
Lemma export_sim fuel o types req w1 w2 d w2' d' r :
  related w1 w2 ->
  call_assetstudio_ffi_object_export_with_caller fuel o types req w2 d = Some (w2', d', r) -> wgood good w2' ->
  exists w1', call_assetstudio_ffi_object_export_with_caller fuel o types req w1 d = Some (w1', d', r)
    /\ related w1' w2'.
Proof.
  unfold call_assetstudio_ffi_object_export_with_caller. intros Hr E Hg.
  destruct (do_call w1 _) as [v1 c1] eqn:D1. destruct (do_call w2 _) as [v2 c2] eqn:D2.
  pose proof (do_call_sim _ _ _ _ _ _ _ Hr D1 D2) as Hsim.
  destruct (result_bind c2 _) as [open|e] eqn:B2.
  2: { simplify_eq. destruct (Hsim Hg) as [Hr' Ha]. rewrite (parse_agree _ _ _ _ parse_open_resp Ha), B2. eauto. }
  destruct (list_assetstudio_ffi_context_objects_worker fuel v2 open) as [[l2 listed]|] eqn:L2; [|done].
  set (after := fun (S0 : Type) (C0 : Caller S0) (w0 : world S0) =>
    match listed with
    | Err e => (w0, d, Err e)
    | Ok assets => unpack_assets o types (context_id open) (initial_summary open) w0 d assets
    end).
  change (match listed with Ok _ => _ | Err _ => _ end) with (after S2 _ l2) in E.
  destruct (after S2 _ l2) as [[x2 dx] un] eqn:U2. destruct (do_call x2 _) as [y2 k2] eqn:K2.
  injection E as <- <- <-.
  assert (Hgx : wgood good x2) by (by eapply do_call_mono).
  assert (Hgl : wgood good l2).
  { unfold after in U2. destruct listed; [by eapply unpack_assets_mono | by simplify_eq]. }
  assert (Hgv : wgood good v2) by (by eapply list_worker_mono).
  destruct (Hsim Hgv) as [Hr' Ha]. rewrite (parse_agree _ _ _ _ parse_open_resp Ha), B2.
  destruct (list_worker_sim _ _ _ _ _ _ Hr' L2 Hgl) as (l1 & -> & Hl).
  change (match listed with Ok _ => _ | Err _ => _ end) with (after S1 _ l1).
  destruct (after S1 _ l1) as [[x1 dx1] un1] eqn:U1.
  assert (related x1 x2 /\ dx1 = dx /\ un1 = un) as (Hx & -> & ->).
  { unfold after in U1, U2. destruct listed; [by eapply unpack_assets_sim | by simplify_eq]. }
  destruct (do_call x1 _) as [y1 k1] eqn:K1.
  destruct (do_call_sim _ _ _ _ _ _ _ Hx K1 K2 Hg) as [Hy Hka].
  rewrite (parse_agree _ _ _ _ parse_close_resp Hka). eauto.
Qed.
End Simulation.

(** ** The two callers *)

Section Callers.
Context {L : Type} `{Library L} `{WorkerJson} `{TempFiles}.

(** [DirectAssetStudioCaller]; payloads never leave the process. *)
Definition direct_caller : Caller L := {|
  call := fun req l files =>
    let '(r, l) := direct_call req l in (result_map_err export_error_from r, l, files)
|}.

(** [WorkerLease]: the worker, and the identifiers the counter shared with the other
    leases will return.  [l_carried] remembers whether every call so far could be
    carried. *)
Record lease : Type := mkLease {
  l_worker : worker L;
  l_ids : nat -> Z;
  l_calls : nat;
  l_carried : bool
}.

(** [WorkerLease::call]. *)
Definition lease_call (request : AssetStudioFfiRequest) (s : lease) (files : spill_files)
  : result WorkerOutput AssetStudioFfiError * lease * spill_files :=
  let id := l_ids s (l_calls s) in
  let '(r, wk, files') := worker_call id request (l_worker s) files in
  (r, mkLease wk (l_ids s) (Datatypes.S (l_calls s))
        (l_carried s && carried id request (wk_lib (l_worker s)) files), files').

Definition lease_caller : Caller lease := {|
  call := fun req s files =>
    let '(r, s, files) := lease_call req s files in (result_map_err export_error_from r, s, files)
|}.

(** A healthy worker stands for the state of its library. *)
Definition stands_for (l : L) (s : lease) : Prop := healthy (l_worker s) /\ wk_lib (l_worker s) = l.
Definition all_carried (s : lease) : Prop := l_carried s = true.

Lemma lease_mono req s files r s' files' :
  @call lease lease_caller req s files = (r, s', files') -> all_carried s' -> all_carried s.
Proof.
  unfold call, lease_caller, lease_call. intros E. destruct (worker_call _ _ _ _) as [[r0 wk] f0].
  injection E as <- <- <-. unfold all_carried. cbn [l_carried]. by intros [? _]%andb_true_iff.
Qed.

Lemma lease_sim req l files r1 l' files1 s f r2 s' f' :
  stands_for l s -> @call L direct_caller req l files = (r1, l', files1) ->
  @call lease lease_caller req s f = (r2, s', f') -> all_carried s' ->
  stands_for l' s' /\ answers r1 r2 f'.
Proof.
  intros [Hh <-] E1 E2 Hg. unfold call, direct_caller, lease_caller, lease_call in E1, E2.
  set (id := l_ids s (l_calls s)) in E2.
  assert (Hc : carried id req (wk_lib (l_worker s)) f = true).
  { destruct (worker_call _ _ _ _) as [[r0 wk] f0]. injection E2 as <- <- <-.
    unfold all_carried in Hg. cbn [l_carried] in Hg. by apply andb_true_iff in Hg as [_ ?]. }
  destruct (worker_call_direct id req (l_worker s) f Hh Hc) as (out & wk & f0 & Ew & Hh' & Hl & Hs).
  rewrite Ew in E2. destruct (direct_call req _) as [rd ld]. cbn [fst snd] in Hl, Hs.
  injection E1 as <- <- <-. injection E2 as <- <- <-. split; [by split|].
  destruct rd as [o1|e1], out as [o2|e2]; simpl in *; try done. by subst.
Qed.

(** C4: Exporting a bundle through a pooled worker refines exporting it with the
    library loaded in the process: when the worker is healthy, whatever the worker
    computes ([call_assetstudio_ffi_object_export_with_caller] over the frames of
    the two pipes and spilled payload files) is what the direct caller computes on
    the same library, same calls, same files on disk, same summary or error, as
    long as every call of the export could be carried by the protocol.  The worker
    is healthy afterwards and holds the library's final state. *)
Theorem pooled_export_refines_direct `{UnicodeCase} `{ExportEnv} fuel o types req log wk ids files d
    (w : world lease) d' r :
  healthy wk ->
  @call_assetstudio_ffi_object_export_with_caller _ _ lease lease_caller fuel o types req
    (mkWorld (mkLease wk ids 0 true) log files) d = Some (w, d', r) ->
  l_carried (w_caller w) = true ->
  exists l' files',
    @call_assetstudio_ffi_object_export_with_caller _ _ L direct_caller fuel o types req
      (mkWorld (wk_lib wk) log files) d = Some (mkWorld l' (w_log w) files', d', r)
    /\ healthy (l_worker (w_caller w)) /\ wk_lib (l_worker (w_caller w)) = l'.
Proof.
  intros Hh E Hg.
  destruct (fun Hrel => @export_sim _ _ L lease direct_caller lease_caller stands_for all_carried
    lease_mono lease_sim fuel o types req (mkWorld (wk_lib wk) log files) _ d _ _ _ Hrel E Hg)
    as ([l' log' files'] & E1 & [Hl' Hlib] & Hlog); [by split; [split|]|].
  simpl in Hlog, Hlib. subst log' l'. exists (wk_lib (l_worker (w_caller w))), files'. by split_and!.
Qed.
End Callers.
Arguments lease L : clear implicits.

(** ** A worker and a library in memory *)

Module ConcreteLease.
#[local] Instance open_request_eq_dec : EqDecision AssetStudioFfiContextOpenRequest.
Proof. solve_decision. Defined.
#[local] Instance item_eq_dec : EqDecision ReadObjectItemRequest.
Proof. solve_decision. Defined.
#[local] Instance request_eq_dec : EqDecision AssetStudioFfiRequest.
Proof. solve_decision. Defined.
#[local] Instance server_request_eq_dec : EqDecision WorkerServerRequest.
Proof. solve_decision. Defined.
#[local] Instance open_response_eq_dec : EqDecision OpenResponse.
Proof. solve_decision. Defined.
#[local] Instance list_response_eq_dec : EqDecision ListResponse.
Proof. solve_decision. Defined.
#[local] Instance read_response_eq_dec : EqDecision ReadResponse.
Proof. solve_decision. Defined.
#[local] Instance batch_response_eq_dec : EqDecision ReadBatchResponse.
Proof. solve_decision. Defined.
#[local] Instance close_response_eq_dec : EqDecision CloseResponse.
Proof. solve_decision. Defined.
#[local] Instance response_eq_dec : EqDecision AssetStudioFfiResponse.
Proof. solve_decision. Defined.
#[local] Instance server_response_eq_dec : EqDecision WorkerServerResponse.
Proof. solve_decision. Defined.

(** A codec for the messages of a table: a message is as many zero bytes as its
    index. *)
Section Table.
Context {A : Type} `{EqDecision A}.
Variable table : list A.
Definition to_vec (x : A) : result bytes string :=
  match list_find (fun y => y = x) table with
  | Some (i, _) => Ok (replicate i Byte.x00)
  | None => Err "not in the table"
  end.
Definition from_slice (b : bytes) : result A string :=
  match table !! length b with Some x => Ok x | None => Err "not a message" end.
Lemma table_round_trip x b : to_vec x = Ok b -> from_slice b = Ok x.
Proof.
  unfold to_vec, from_slice. destruct (list_find _ table) as [[i y]|] eqn:E; [|done]. intros [= <-].
  apply list_find_Some in E as (E & -> & _). by rewrite length_replicate, E.
Qed.
End Table.

(** The library of [ConcreteExport] without the object that crashes it. *)
#[local] Instance memory_library : Library unit := {|
  lib_call := fun req l =>
    (match ConcreteExport.answer req with
     | Ok o => Ok (0, wo_response o, wo_payload o)
     | Err _ => Err (FfiMessage "unreadable")
     end, l);
  lib_crash := fun _ _ => None
|}.

Definition types : list string := ["textAsset"].
Definition run_direct :=
  @call_assetstudio_ffi_object_export_with_caller ascii_case plain_env unit direct_caller 5
    ConcreteExport.options types ConcreteExport.open_req (mkWorld tt [] ∅) (mkDisk ∅ ∅).

(** The messages of this export. *)
Definition requests : list WorkerServerRequest :=
  match run_direct with
  | Some (w, _, _) => imap (fun i r => mkServerRequest (Z.of_nat i) r) (w_log w)
  | None => []
  end.
Definition responses : list WorkerServerResponse :=
  map (fun q => match (lib_call (req_request q) tt).1 with
                | Ok (status, r, payload) => mkServerResponse (req_id q) (Some status) (Some r) (zlen payload) None None
                | Err e => Server.error_response (req_id q) (ffi_error_text e)
                end) requests.

#[local] Instance table_json : WorkerJson := {|
  request_to_vec := to_vec requests;
  request_from_slice := from_slice requests;
  response_to_vec := to_vec responses;
  response_from_slice := from_slice responses;
  request_round_trip := table_round_trip requests;
  response_round_trip := table_round_trip responses
|}.

#[local] Instance no_temp_files : TempFiles :=
  {| temp_file := fun _ => Err (OtherIo "no space");
     temp_file_fresh := fun files name H => ltac:(discriminate H) |}.

Definition fresh_worker : worker unit := mkWorker "/opt/assetstudio_ffi_worker" tt [] [] None 0.
Definition run_pooled :=
  @call_assetstudio_ffi_object_export_with_caller ascii_case plain_env (lease unit) lease_caller 5
    ConcreteExport.options types ConcreteExport.open_req
    (mkWorld (mkLease fresh_worker Z.of_nat 0 true) [] ∅) (mkDisk ∅ ∅).

Lemma pooled_export_refines_direct_witness :
  option_map (fun x => (l_calls (w_caller x.1.1), l_carried (w_caller x.1.1), wk_completed (l_worker (w_caller x.1.1)),
    match x.2 with Ok m => Some (s_written_files m) | Err _ => None end)) run_pooled
  = Some (5%nat, true, 5, Some [components "/o/a"; components "/o/b"])
  /\ option_map (fun x => (x.1.2, x.2)) run_direct = option_map (fun x => (x.1.2, x.2)) run_pooled.
Proof.
  split; [vm_compute; reflexivity|].
  destruct run_pooled as [[[w d] r]|] eqn:E; [|exfalso; revert E; vm_compute; discriminate].
  assert (Hc : option_map (fun x => l_carried (w_caller x.1.1)) run_pooled = Some true) by (vm_compute; reflexivity).
  rewrite E in Hc. injection Hc as Hc. unfold run_pooled in E.
  destruct (@pooled_export_refines_direct unit memory_library table_json no_temp_files ascii_case plain_env
    5 ConcreteExport.options types ConcreteExport.open_req [] fresh_worker Z.of_nat ∅ (mkDisk ∅ ∅) w d r
    ltac:(split; [reflexivity | split; reflexivity]) E Hc) as (l' & files' & E1 & _).
  unfold run_direct. change (wk_lib fresh_worker) with tt in E1. rewrite E1. reflexivity.
Defined.
End ConcreteLease.
