(* ===== verification/WorkerPool.v ===== *)
(** * The pool of AssetStudio workers

    [crates/assetstudio-ffi/src/worker_pool.rs]: exports lease worker processes from
    a pool.  A semaphore limits the leases; an exclusive lease takes all permits and
    a process of its own.  Workers that are returned wait on a stack, from which a
    reaper removes those idle for too long.  Leases of different tasks interleave
    at their await points, so the pool is a step relation over the operations of
    the source; the calls made through a lease are in [WorkerProtocol]. *)

From S2P Require Import Prelude RustStr Errors Paths FfiTypes.

Local Open Scope string_scope.
Local Open Scope list_scope.
Local Open Scope Z_scope.
Local Open Scope rust_scope.

(** ** Configuration *)

Record WorkerPoolTuning : Type := mkTuning {
  idle_timeout : Z;
  gc_heap_hard_limit_mb : Z;
  gc_conserve_memory : option Z
}.

(** [AssetStudioWorkerPool], its fixed fields. *)
Record pool_config : Type := mkPoolConfig {
  worker_path : string;
  native_library_path : string;
  process_concurrency : Z;
  max_calls_per_worker : Z;
  tuning : WorkerPoolTuning
}.

(** The environment of a spawned worker. *)
Definition spawn_env (hex : Z -> string) (t : WorkerPoolTuning) : list (string * string) :=
  (if 0 <? gc_heap_hard_limit_mb t
   then [("DOTNET_GCHeapHardLimit", hex (saturating_mul 64 (gc_heap_hard_limit_mb t) (1024 * 1024)))] else [])
  ++ match gc_conserve_memory t with
     | Some conserve => [("DOTNET_GCConserveMemory", pretty (Z.min conserve 9))]
     | None => []
     end.

Definition worker_executable_name : string := "assetstudio_ffi_worker".

(** [env_path] is the environment variable, [exe_dir] the directory of the running
    program or why it is not known. *)
Definition configured_worker_path (configured_path env_path : option string)
    (exe_dir : result (option string) io_error) : result string AssetStudioFfiError :=
  let given := fun p => match option_map trim p with
                        | Some v => if bool_decide (v = "") then None else Some v
                        | None => None end in
  match given configured_path with
  | Some p => Ok p
  | None =>
      match given env_path with
      | Some p => Ok p
      | None =>
          match exe_dir with
          | Err e => Err (FfiSpawn "current_exe" e)
          | Ok None => Err (FfiMessage "failed to infer ffi worker path from current executable")
          | Ok (Some dir) => Ok (dir +:+ "/" +:+ worker_executable_name)
          end
      end
  end.

(** ** State *)

(** [struct PooledWorker]: its process may be dead without the pool knowing. *)
Record PooledWorker : Type := mkPooled {
  worker_id : Z;
  completed_calls : Z;
  idle_since : option Z;
  alive : bool
}.

(** [struct WorkerPoolStats]. *)
Record WorkerPoolStats : Type := mkStats {
  spawned : Z;
  recycled : Z;
  killed : Z;
  idle_reaped : Z;
  protocol_errors : Z;
  stat_completed_calls : Z;
  max_call_ms : Z
}.

(** What a task that holds permits is doing: [acquire] takes a worker or spawns one,
    the lease is used, and ends before its permits are returned. *)
Inductive stage : Type :=
| Popping
| Spawning
| Leased (w : PooledWorker)
| Finishing.

(** A holder, and whether its lease is exclusive. *)
Abbreviation holder := (bool * stage)%type.

(** [queue] are the tasks waiting for the semaphore, first come first served.
    [dropped] and [exclusive] count the leases dropped without [finish_success] or
    [kill] and the exclusive acquisitions. *)
Record pool : Type := mkPool {
  permits : Z;
  queue : list bool;
  holders : list holder;
  available : list PooledWorker;
  next_worker_id : Z;
  stats : WorkerPoolStats;
  dropped : Z;
  exclusive : Z
}.

Definition no_stats : WorkerPoolStats := mkStats 0 0 0 0 0 0 0.

Section Pool.
Variable c : pool_config.

(** [shared_with_tuning] creates the pool with [process_concurrency.max(1)]. *)
Definition concurrency : Z := Z.max (process_concurrency c) 1.
Definition new_pool : pool := mkPool concurrency [] [] [] 1 no_stats 0 0.

(** The permits of a lease: [acquire_owned] or [acquire_many_owned]. *)
Definition need (ex : bool) : Z := if ex then concurrency else 1.

(** ** Operations *)

(** [Vec::pop]. *)
Fixpoint pop {A} (l : list A) : option (A * list A) :=
  match l with
  | [] => None
  | [x] => Some (x, [])
  | x :: l' => match pop l' with Some (y, rest) => Some (y, x :: rest) | None => None end
  end.

Definition record_call (ms : Z) (s : WorkerPoolStats) : WorkerPoolStats :=
  mkStats (spawned s) (recycled s) (killed s) (idle_reaped s) (protocol_errors s)
    (stat_completed_calls s + 1) (Z.max (max_call_ms s) ms).
Definition count_spawned (s : WorkerPoolStats) : WorkerPoolStats :=
  mkStats (spawned s + 1) (recycled s) (killed s) (idle_reaped s) (protocol_errors s)
    (stat_completed_calls s) (max_call_ms s).
Definition count_killed (n : Z) (s : WorkerPoolStats) : WorkerPoolStats :=
  mkStats (spawned s) (recycled s) (killed s + n) (idle_reaped s) (protocol_errors s)
    (stat_completed_calls s) (max_call_ms s).
Definition count_recycled (s : WorkerPoolStats) : WorkerPoolStats :=
  mkStats (spawned s) (recycled s + 1) (killed s) (idle_reaped s) (protocol_errors s)
    (stat_completed_calls s) (max_call_ms s).
Definition count_reaped (n : Z) (s : WorkerPoolStats) : WorkerPoolStats :=
  mkStats (spawned s) (recycled s) (killed s) (idle_reaped s + n) (protocol_errors s)
    (stat_completed_calls s) (max_call_ms s).
Definition count_protocol_error (s : WorkerPoolStats) : WorkerPoolStats :=
  mkStats (spawned s) (recycled s) (killed s) (idle_reaped s) (protocol_errors s + 1)
    (stat_completed_calls s) (max_call_ms s).

Definition with_holders (hs : list holder) (p : pool) : pool :=
  mkPool (permits p) (queue p) hs (available p) (next_worker_id p) (stats p) (dropped p) (exclusive p).
Definition with_stats (f : WorkerPoolStats -> WorkerPoolStats) (p : pool) : pool :=
  mkPool (permits p) (queue p) (holders p) (available p) (next_worker_id p) (f (stats p)) (dropped p) (exclusive p).
Definition with_available (l : list PooledWorker) (p : pool) : pool :=
  mkPool (permits p) (queue p) (holders p) l (next_worker_id p) (stats p) (dropped p) (exclusive p).

(** The semaphore hands its permits to the first waiter. *)
Definition grant (ex : bool) (rest : list bool) (p : pool) : pool :=
  mkPool (permits p - need ex) rest (holders p ++ [(ex, if ex then Spawning else Popping)])
    (available p) (next_worker_id p) (stats p) (dropped p) (exclusive p + (if ex then 1 else 0)).

(** [acquire] on the stack of available workers. *)
Definition take_available (p : pool) : stage * pool :=
  match pop (available p) with
  | Some (w, rest) => (Leased (mkPooled (worker_id w) (completed_calls w) None (alive w)), with_available rest p)
  | None => (Spawning, p)
  end.

(** [spawn_worker], when the process starts. *)
Definition spawn_worker (p : pool) : stage * pool :=
  (Leased (mkPooled (next_worker_id p) 0 None true),
   mkPool (permits p) (queue p) (holders p) (available p) (next_worker_id p + 1) (count_spawned (stats p))
     (dropped p) (exclusive p)).

Definition return_or_recycle_worker (now : Z) (w : PooledWorker) (p : pool) : pool :=
  if (0 <? max_calls_per_worker c) && (max_calls_per_worker c <=? completed_calls w)
  then with_stats (fun s => count_killed 1 (count_recycled s)) p
  else with_available (available p ++ [mkPooled (worker_id w) (completed_calls w) (Some now) (alive w)]) p.

(** The loop of [reap_idle_workers]: the workers kept and the expired ones. *)
Fixpoint reap_loop (now : Z) (l : list PooledWorker) : list PooledWorker * list PooledWorker :=
  match l with
  | [] => ([], [])
  | w :: l' =>
      let '(kept, expired) := reap_loop now l' in
      if match idle_since w with Some since => idle_timeout (tuning c) <=? now - since | None => false end
      then (kept, w :: expired) else (w :: kept, expired)
  end.

Definition reap_idle_workers (now : Z) (p : pool) : pool :=
  if idle_timeout (tuning c) =? 0 then p
  else
    let '(kept, expired) := reap_loop now (available p) in
    let n := zlen expired in
    with_stats (fun s => count_killed n (count_reaped n s)) (with_available kept p).

(** The permits of a holder are returned when its lease is dropped. *)
Definition release (ex : bool) (hs : list holder) (p : pool) : pool :=
  mkPool (permits p + need ex) (queue p) hs (available p) (next_worker_id p) (stats p) (dropped p) (exclusive p).

Definition drop_lease (p : pool) : pool :=
  mkPool (permits p) (queue p) (holders p) (available p) (next_worker_id p) (stats p) (dropped p + 1) (exclusive p).

(** ** Interleavings *)

(** The steps of tasks that are inside the pool. *)
Inductive internal : pool -> pool -> Prop :=
| step_grant p ex rest :
    queue p = ex :: rest -> need ex <= permits p -> internal p (grant ex rest p)
| step_pop p h1 h2 st p' :
    holders p = h1 ++ (false, Popping) :: h2 -> take_available p = (st, p') ->
    internal p (with_holders (h1 ++ (false, st) :: h2) p')
| step_spawn p h1 ex h2 st p' :
    holders p = h1 ++ (ex, Spawning) :: h2 -> spawn_worker p = (st, p') ->
    internal p (with_holders (h1 ++ (ex, st) :: h2) p')
| step_finish_success p h1 ex w h2 now :
    holders p = h1 ++ (ex, Leased w) :: h2 ->
    internal p (with_holders (h1 ++ (ex, Finishing) :: h2) (return_or_recycle_worker now w p))
| step_release p h1 ex h2 :
    holders p = h1 ++ (ex, Finishing) :: h2 -> internal p (release ex (h1 ++ h2) p).

(** The others: tasks come and are cancelled, processes fail and die, leases are
    used and killed, time passes. *)
Inductive step : pool -> pool -> Prop :=
| step_internal p p' : internal p p' -> step p p'
| step_request p ex :
    step p (mkPool (permits p) (queue p ++ [ex]) (holders p) (available p) (next_worker_id p) (stats p)
              (dropped p) (exclusive p))
| step_cancel_wait p q1 ex q2 :
    queue p = q1 ++ ex :: q2 ->
    step p (mkPool (permits p) (q1 ++ q2) (holders p) (available p) (next_worker_id p) (stats p)
              (dropped p) (exclusive p))
| step_spawn_failed p h1 ex h2 :
    holders p = h1 ++ (ex, Spawning) :: h2 -> step p (release ex (h1 ++ h2) p)
| step_call_ok p h1 ex w h2 ms :
    holders p = h1 ++ (ex, Leased w) :: h2 -> alive w = true ->
    step p (with_stats (record_call ms)
      (with_holders (h1 ++ (ex, Leased (mkPooled (worker_id w) (saturating_add 64 (completed_calls w) 1)
                                          (idle_since w) true)) :: h2) p))
| step_call_failed p h1 ex w h2 protocol lives :
    holders p = h1 ++ (ex, Leased w) :: h2 ->
    step p (with_stats (fun s => if (protocol : bool) then count_protocol_error s else s)
      (with_holders (h1 ++ (ex, Leased (mkPooled (worker_id w) (completed_calls w) (idle_since w) lives)) :: h2) p))
| step_kill p h1 ex w h2 :
    holders p = h1 ++ (ex, Leased w) :: h2 ->
    step p (with_stats (count_killed 1) (with_holders (h1 ++ (ex, Finishing) :: h2) p))
| step_drop p h1 ex w h2 :
    holders p = h1 ++ (ex, Leased w) :: h2 ->
    step p (drop_lease (with_holders (h1 ++ (ex, Finishing) :: h2) p))
| step_cancel p h1 h2 ex :
    holders p = h1 ++ (ex, Popping) :: h2 -> step p (release ex (h1 ++ h2) p)
| step_die p a1 w a2 :
    available p = a1 ++ w :: a2 ->
    step p (with_available (a1 ++ mkPooled (worker_id w) (completed_calls w) (idle_since w) false :: a2) p)
| step_reap p now : step p (reap_idle_workers now p).

Inductive reachable : pool -> Prop :=
| reach_new : reachable new_pool
| reach_step p p' : reachable p -> step p p' -> reachable p'.

(** ** Invariant *)

Definition leased_of (st : stage) : list PooledWorker := match st with Leased w => [w] | _ => [] end.
Definition leased (hs : list holder) : list PooledWorker := concat (map (fun h => leased_of h.2) hs).
(** The processes of the pool, on the stack or leased. *)
Definition workers (p : pool) : list PooledWorker := available p ++ leased (holders p).
Definition ids (p : pool) : list Z := map worker_id (workers p).
Definition held (hs : list holder) : Z := sumZ (map (fun h => need h.1) hs).
(** Holders that have a process or are starting one. *)
Definition busy_of (st : stage) : Z := match st with Spawning | Leased _ => 1 | _ => 0 end.
Definition busy (hs : list holder) : Z := sumZ (map (fun h => busy_of h.2) hs).

(** A worker on the stack waits since some time and may be used again. *)
Definition reusable (w : PooledWorker) : Prop :=
  is_Some (idle_since w) /\ (0 < max_calls_per_worker c -> completed_calls w < max_calls_per_worker c).

Record pool_inv (p : pool) : Prop := {
  inv_permits : permits p + held (holders p) = concurrency /\ 0 <= permits p;
  inv_ids : NoDup (ids p) /\ Forall (fun i => 1 <= i < next_worker_id p) (ids p);
  inv_available : Forall reusable (available p);
  inv_leased : Forall (fun w => idle_since w = None) (leased (holders p));
  inv_spawned : spawned (stats p) = zlen (ids p) + killed (stats p) + dropped p;
  inv_next : next_worker_id p = spawned (stats p) + 1 /\ 1 <= next_worker_id p;
  inv_busy : zlen (available p) + busy (holders p) <= concurrency + exclusive p;
  inv_exclusive : 0 <= exclusive p
}.

Lemma held_mid h1 h h2 : held (h1 ++ h :: h2) = need h.1 + held (h1 ++ h2).
Proof. apply (sumZ_mid (fun h => need h.1)). Qed.
Lemma busy_mid h1 h h2 : busy (h1 ++ h :: h2) = busy_of h.2 + busy (h1 ++ h2).
Proof. apply (sumZ_mid (fun h => busy_of h.2)). Qed.
Lemma leased_mid h1 h h2 : leased (h1 ++ h :: h2) ≡ₚ leased_of h.2 ++ leased (h1 ++ h2).
Proof. apply (concat_map_mid (fun h => leased_of h.2)). Qed.
Lemma leased_none h1 h h2 : leased_of h.2 = [] -> leased (h1 ++ h :: h2) = leased (h1 ++ h2).
Proof. intros E. unfold leased. rewrite !map_app, !concat_app. simpl. by rewrite E. Qed.

Lemma concurrency_pos : 1 <= concurrency.
Proof. unfold concurrency. lia. Qed.
Lemma need_pos ex : 1 <= need ex.
Proof. unfold need. pose proof concurrency_pos. destruct ex; lia. Qed.

Lemma busy_held hs : 0 <= busy hs <= held hs.
Proof.
  unfold busy, held. induction hs as [|[ex st] hs IH]; simpl; [lia|].
  pose proof (need_pos ex). destruct st; simpl; lia.
Qed.

Lemma pop_Some {A} (l : list A) x rest : pop l = Some (x, rest) -> l = rest ++ [x].
Proof.
  revert rest. induction l as [|y l IH]; intros rest E; [done|].
  destruct l as [|z l]; [simpl in E; by simplify_eq|]. change (pop (y :: z :: l)) with
    (match pop (z :: l) with Some (u, r) => Some (u, y :: r) | None => None end) in E.
  destruct (pop (z :: l)) as [[u r]|]; [|done]. injection E as -> <-. simpl. by rewrite (IH r eq_refl).
Qed.
Lemma pop_None {A} (l : list A) : pop l = None -> l = [].
Proof.
  induction l as [|y l IH]; [done|]. destruct l as [|z l]; [done|].
  change (pop (y :: z :: l)) with (match pop (z :: l) with Some (u, r) => Some (u, y :: r) | None => None end).
  destruct (pop (z :: l)) as [[u r]|]; [done|]. intros _. discriminate (IH eq_refl).
Qed.

(** A holder that neither has nor gets a worker. *)
Lemma inv_idle_holder p h1 h h2 st hs' d :
  pool_inv p -> holders p = h1 ++ h :: h2 -> leased_of h.2 = [] -> leased_of st = [] ->
  (hs' = h1 ++ (h.1, st) :: h2 /\ d = 0 /\ busy_of st <= busy_of h.2) \/ (hs' = h1 ++ h2 /\ d = need h.1) ->
  pool_inv (mkPool (permits p + d) (queue p) hs' (available p) (next_worker_id p) (stats p) (dropped p) (exclusive p)).
Proof.
  intros [[P1 P2] I A L N X B G] E Hn Hst Hcase. rewrite E in *. rewrite held_mid in P1. rewrite busy_mid in B.
  unfold ids, workers in *. rewrite E, leased_none in I, N by done. rewrite leased_none in L by done.
  pose proof (need_pos h.1). assert (0 <= busy_of h.2) by (by destruct h.2).
  destruct Hcase as [(-> & -> & Hb)|[-> ->]]; split; unfold ids, workers; simpl;
    rewrite ?held_mid, ?busy_mid, ?leased_none by done; simpl; try done; lia.
Qed.

(** A leased worker that stays leased under its identifier. *)
Lemma inv_call p h1 ex w w' h2 f :
  pool_inv p -> holders p = h1 ++ (ex, Leased w) :: h2 -> worker_id w' = worker_id w -> idle_since w' = None ->
  (forall s, spawned (f s) = spawned s /\ killed (f s) = killed s) ->
  pool_inv (with_stats f (with_holders (h1 ++ (ex, Leased w') :: h2) p)).
Proof.
  intros [[P1 P2] I A L N X B G] E Hid Hi Hf. destruct (Hf (stats p)) as [F1 F2]. unfold ids, workers in *.
  rewrite E in *. rewrite held_mid in P1. rewrite busy_mid in B. rewrite leased_mid in L, I, N.
  split; unfold ids, workers; simpl; rewrite ?held_mid, ?busy_mid; simpl; try done.
  - rewrite leased_mid. simpl. rewrite map_app in *. simpl in *. by rewrite Hid.
  - rewrite leased_mid. simpl in *. inversion L. by constructor.
  - rewrite leased_mid. rewrite F1, F2. rewrite map_app in *. simpl in *. by rewrite Hid.
  - by rewrite F1.
Qed.

(** A leased worker that is gone, counted by [f] and [d]. *)
Lemma inv_gone p h1 ex w h2 f d :
  pool_inv p -> holders p = h1 ++ (ex, Leased w) :: h2 ->
  spawned (f (stats p)) = spawned (stats p) -> killed (f (stats p)) + d = killed (stats p) + 1 ->
  pool_inv (mkPool (permits p) (queue p) (h1 ++ (ex, Finishing) :: h2) (available p) (next_worker_id p)
              (f (stats p)) (dropped p + d) (exclusive p)).
Proof.
  intros [[P1 P2] I A L N X B G] E F1 F2. unfold ids, workers in *.
  rewrite E in *. rewrite held_mid in P1. rewrite busy_mid in B. rewrite leased_mid in L, I, N.
  cbn [leased_of snd app] in *. rewrite map_app, map_cons in *. rewrite <- Permutation_middle in I, N.
  rewrite zlen_cons in N. destruct I as [I1 I2]. inversion I1; subst. inversion I2; subst. inversion L; subst.
  split; unfold ids, workers; simpl; rewrite ?held_mid, ?busy_mid, ?leased_none by done; simpl in *; try done; try lia.
  - rewrite map_app. done.
  - rewrite map_app. lia.
Qed.

Lemma inv_grant p ex rest :
  pool_inv p -> need ex <= permits p -> pool_inv (grant ex rest p).
Proof.
  intros [[P1 P2] I A L N X B G] Hn. unfold grant, ids, workers in *.
  assert (Hl : leased (holders p ++ [(ex, if ex then Spawning else Popping)]) = leased (holders p)).
  { rewrite leased_none, app_nil_r; [done | by destruct ex]. }
  split; unfold ids, workers; simpl; rewrite ?held_mid, ?busy_mid, ?Hl, ?app_nil_r; simpl; try done; [lia| |]; destruct ex; simpl; lia.
Qed.

Lemma inv_take p h1 h2 st p' :
  pool_inv p -> holders p = h1 ++ (false, Popping) :: h2 -> take_available p = (st, p') ->
  pool_inv (with_holders (h1 ++ (false, st) :: h2) p').
Proof.
  intros [[P1 P2] I A L N X B G] E Et. unfold take_available in Et. unfold ids, workers in *. rewrite E in *.
  rewrite held_mid in P1. rewrite busy_mid in B. rewrite leased_none in L, I, N by done.
  destruct (pop (available p)) as [[w rest]|] eqn:Ep; injection Et as <- <-.
  - apply pop_Some in Ep. rewrite Ep in *. apply Forall_app in A as [A _].
    rewrite <- app_assoc in I, N. rewrite zlen_app, (zlen_cons w []) in B.
    split; unfold ids, workers; simpl; rewrite ?held_mid, ?busy_mid; simpl in *; try done.
    + rewrite leased_mid. simpl. rewrite map_app in *. done.
    + rewrite leased_mid. simpl. by constructor.
    + rewrite leased_mid. simpl. rewrite map_app in *. done.
    + unfold zlen in B |- *. simpl in B. lia.
  - apply pop_None in Ep. rewrite Ep in *. pose proof (busy_held (h1 ++ h2)). simpl in P1.
    split; unfold ids, workers; simpl; rewrite ?held_mid, ?busy_mid, ?leased_none, ?Ep by done; simpl in *; try done.
    unfold zlen in *. simpl in *. lia.
Qed.

Lemma inv_spawn p h1 ex h2 st p' :
  pool_inv p -> holders p = h1 ++ (ex, Spawning) :: h2 -> spawn_worker p = (st, p') ->
  pool_inv (with_holders (h1 ++ (ex, st) :: h2) p').
Proof.
  intros [[P1 P2] [I1 I2] A L N X B G] E Es. unfold spawn_worker in Es. injection Es as <- <-.
  unfold ids, workers in *. rewrite E in *. rewrite held_mid in P1. rewrite busy_mid in B.
  rewrite leased_none in L, I1, I2, N by done. rewrite Forall_forall in I2.
  assert (0 <= zlen (map worker_id (available p ++ leased (h1 ++ h2)))) by apply zlen_nonneg.
  split; unfold ids, workers; simpl; rewrite ?held_mid, ?busy_mid; simpl in *; try done; try lia.
  - rewrite leased_mid. simpl. rewrite map_app, map_cons, <- Permutation_middle, <- map_app. split.
    + constructor; [|done]. intros Hin. apply I2 in Hin. simpl in Hin. lia.
    + constructor; [simpl; lia|]. apply Forall_forall. intros i Hi. apply I2 in Hi. lia.
  - rewrite leased_mid. simpl. by constructor.
  - rewrite leased_mid. simpl. rewrite map_app, map_cons, <- Permutation_middle, <- map_app, zlen_cons. lia.
Qed.

Lemma inv_return p h1 ex w h2 now :
  pool_inv p -> holders p = h1 ++ (ex, Leased w) :: h2 ->
  pool_inv (with_holders (h1 ++ (ex, Finishing) :: h2) (return_or_recycle_worker now w p)).
Proof.
  intros Hp E. unfold return_or_recycle_worker.
  destruct (_ && _) eqn:Ec.
  { pose proof (inv_gone p h1 ex w h2 (fun s => count_killed 1 (count_recycled s)) 0 Hp E) as Hg.
    rewrite !Z.add_0_r in Hg. apply Hg; simpl; lia. }
  destruct Hp as [[P1 P2] I A L N X B G]. unfold ids, workers in *. rewrite E in *.
  rewrite held_mid in P1. rewrite busy_mid in B. rewrite leased_mid in L, I, N. simpl in *.
  inversion L as [|? ? Hw L']; subst. rewrite map_app, map_cons in *.
  split; unfold ids, workers; simpl; rewrite ?held_mid, ?busy_mid, ?leased_none by done; simpl in *; try done.
  - rewrite <- app_assoc. simpl. by rewrite map_app, map_cons.
  - apply Forall_app. split; [done|]. constructor; [|done]. split; [by eexists|]. simpl. intros Hm.
    apply andb_false_iff in Ec as [Ec|Ec]; [apply Z.ltb_ge in Ec | apply Z.leb_gt in Ec]; lia.
  - rewrite <- app_assoc. simpl. by rewrite map_app, map_cons.
  - rewrite zlen_app. unfold zlen at 2. simpl. lia.
Qed.

Lemma inv_die p a1 w a2 :
  pool_inv p -> available p = a1 ++ w :: a2 ->
  pool_inv (with_available (a1 ++ mkPooled (worker_id w) (completed_calls w) (idle_since w) false :: a2) p).
Proof.
  intros [[P1 P2] I A L N X B G] E. unfold ids, workers in *. rewrite E in *.
  split; unfold ids, workers; simpl; try done.
  - rewrite !map_app in *. done.
  - apply Forall_app in A as [A1 A2]. apply Forall_app. split; [done|]. inversion A2. by constructor.
  - rewrite !map_app in *. done.
  - rewrite zlen_app, zlen_cons in *. lia.
Qed.

Lemma reap_loop_perm now l : let '(kept, expired) := reap_loop now l in l ≡ₚ kept ++ expired.
Proof.
  induction l as [|w l IH]; simpl; [done|]. destruct (reap_loop now l) as [kept expired].
  destruct (match idle_since w with Some _ => _ | None => _ end); simpl; [|by constructor].
  rewrite <- Permutation_middle. by constructor.
Qed.

Lemma inv_reap p now : pool_inv p -> pool_inv (reap_idle_workers now p).
Proof.
  intros Hp. unfold reap_idle_workers. destruct (_ =? 0); [done|].
  pose proof (reap_loop_perm now (available p)) as Hl. destruct (reap_loop now (available p)) as [kept expired].
  destruct Hp as [[P1 P2] [I1 I2] A L N X B G]. unfold ids, workers in *.
  rewrite Hl in I1, I2, A, N, B. apply Forall_app in A as [A _]. rewrite !map_app in *.
  rewrite (Permutation_app_comm (map worker_id kept)) in I1, I2, N. rewrite <- app_assoc in I1, I2, N.
  apply NoDup_app in I1 as (_ & _ & I1). apply Forall_app in I2 as [_ I2]. rewrite zlen_app in N. rewrite zlen_app in B.
  assert (Hm : zlen (map worker_id expired) = zlen expired) by (unfold zlen; by rewrite length_map).
  pose proof (zlen_nonneg expired).
  split; unfold ids, workers; simpl; rewrite ?map_app; try done; lia.
Qed.

Lemma pool_step_inv p p' : pool_inv p -> step p p' -> pool_inv p'.
Proof.
  intros Hp Hs. destruct Hs as [p p' Hi|p ex|p q1 ex q2 E|p h1 ex h2 E|p h1 ex w h2 ms E _|p h1 ex w h2 pr lv E
    |p h1 ex w h2 E|p h1 ex w h2 E|p h1 h2 ex E|p a1 w a2 E|p now].
  - destruct Hi as [p ex rest E Hn|p h1 h2 st p' E Et|p h1 ex h2 st p' E Es|p h1 ex w h2 now E|p h1 ex h2 E].
    + by apply inv_grant.
    + by eapply inv_take.
    + by eapply inv_spawn.
    + by apply inv_return.
    + eapply (inv_idle_holder _ _ (ex, Finishing) _ Finishing); [done|exact E|done|done|by right].
  - by destruct Hp; split.
  - by destruct Hp; split.
  - eapply (inv_idle_holder _ _ (ex, Spawning) _ Finishing); [done|exact E|done|done|by right].
  - eapply inv_call; [done|exact E|done| |done].
    destruct Hp as [_ _ _ L _ _ _ _]. rewrite E, leased_mid in L. by inversion L.
  - eapply inv_call; [done|exact E|done| |by destruct pr].
    destruct Hp as [_ _ _ L _ _ _ _]. rewrite E, leased_mid in L. by inversion L.
  - pose proof (inv_gone p h1 ex w h2 (count_killed 1) 0 Hp E) as Hg. rewrite !Z.add_0_r in Hg. apply Hg; simpl; lia.
  - apply (inv_gone p h1 ex w h2 (fun s => s) 1 Hp E); simpl; lia.
  - eapply (inv_idle_holder _ _ (ex, Popping) _ Finishing); [done|exact E|done|done|by right].
  - by eapply inv_die.
  - by apply inv_reap.
Qed.

Lemma pool_reachable_inv p : reachable p -> pool_inv p.
Proof.
  induction 1 as [|p p' _ IH Hs]; [|by eapply pool_step_inv].
  pose proof concurrency_pos. split; unfold ids, workers; simpl; try done; try lia.
  - unfold held. simpl. lia.
  - split; constructor.
  - unfold busy, zlen. simpl. lia.
Qed.

(** An exclusive lease leaves no permit for another. *)
Lemma exclusive_alone p st : pool_inv p -> (true, st) ∈ holders p -> holders p = [(true, st)].
Proof.
  intros [[P1 P2] _ _ _ _ _ _ _] Hin. apply list_elem_of_split in Hin as (h1 & h2 & E). rewrite E, held_mid in *.
  simpl in P1. assert (Hh : held (h1 ++ h2) <= 0) by lia.
  destruct (h1 ++ h2) as [|[ex st'] l] eqn:Eh; [by apply app_eq_nil in Eh as [-> ->]|].
  unfold held in Hh. simpl in Hh. pose proof (need_pos ex). pose proof (busy_held l). unfold held in *. lia.
Qed.


(** ** Every lease is served *)

Definition stage_weight (st : stage) : nat :=
  match st with Popping => 4 | Spawning => 3 | Leased _ => 2 | Finishing => 1 end.
Definition weight (p : pool) : nat :=
  (5 * length (queue p) + list_sum (map (fun h : holder => stage_weight h.2) (holders p)))%nat.

Lemma weight_mid h1 h h2 :
  list_sum (map (fun h : holder => stage_weight h.2) (h1 ++ h :: h2))
  = (stage_weight h.2 + list_sum (map (fun h : holder => stage_weight h.2) (h1 ++ h2)))%nat.
Proof. apply (list_sum_mid (fun h : holder => stage_weight h.2)). Qed.

Lemma internal_weight p p' : internal p p' -> (weight p' < weight p)%nat.
Proof.
  unfold weight. destruct 1 as [p ex rest E Hn|p h1 h2 st p' E Et|p h1 ex h2 st p' E Es|p h1 ex w h2 now E|p h1 ex h2 E].
  - simpl. rewrite E, weight_mid, app_nil_r. destruct ex; simpl; lia.
  - unfold take_available in Et. rewrite E. simpl. rewrite !weight_mid.
    destruct (pop (available p)) as [[w rest]|]; injection Et as <- <-; simpl; lia.
  - injection Es as <- <-. rewrite E. simpl. rewrite !weight_mid. simpl. lia.
  - rewrite E. simpl. rewrite !weight_mid. unfold return_or_recycle_worker. destruct (_ && _); simpl; lia.
  - rewrite E. simpl. rewrite !weight_mid. simpl. lia.
Qed.

(** Only a shared lease looks for a worker on the stack. *)
Lemma popping_shared p : reachable p -> Forall (fun h => h <> (true, Popping)) (holders p).
Proof.
  assert (Hmid : forall h1 h h2, Forall (fun h => h <> (true, Popping)) (h1 ++ h :: h2) ->
    Forall (fun h => h <> (true, Popping)) (h1 ++ h2)
    /\ forall h', h' <> (true, Popping) -> Forall (fun h => h <> (true, Popping)) (h1 ++ h' :: h2)).
  { intros h1 h h2 Hf. apply Forall_app in Hf as [F1 F2]. inversion F2; subst.
    split; [by apply Forall_app|]. intros h' Hh. apply Forall_app. split; [done | by constructor]. }
  induction 1 as [|p p' _ IH Hs]; [constructor|].
  destruct Hs as [p p' Hi| | |p h1 ex h2 E|p h1 ex w h2 ms E _|p h1 ex w h2 pr lv E
    |p h1 ex w h2 E|p h1 ex w h2 E|p h1 h2 ex E| |p now]; try done.
  - destruct Hi as [p ex rest E Hn|p h1 h2 st p' E Et|p h1 ex h2 st p' E Es|p h1 ex w h2 now E|p h1 ex h2 E].
    + simpl. apply Forall_app. split; [done|]. constructor; [by destruct ex | done].
    + rewrite E in IH. by apply (Hmid _ _ _ IH).
    + rewrite E in IH. injection Es as <- <-. by apply (Hmid _ _ _ IH).
    + rewrite E in IH. by apply (Hmid _ _ _ IH).
    + rewrite E in IH. by apply (Hmid _ _ _ IH).
  - rewrite E in IH. by apply (Hmid _ _ _ IH).
  - rewrite E in IH. by apply (Hmid _ _ _ IH).
  - rewrite E in IH. by apply (Hmid _ _ _ IH).
  - rewrite E in IH. by apply (Hmid _ _ _ IH).
  - rewrite E in IH. by apply (Hmid _ _ _ IH).
  - rewrite E in IH. by apply (Hmid _ _ _ IH).
  - unfold reap_idle_workers. destruct (_ =? 0); [done|]. by destruct (reap_loop now (available p)).
Qed.

Lemma internal_progress p :
  reachable p -> (exists p', internal p p') \/ (queue p = [] /\ holders p = [] /\ permits p = concurrency).
Proof.
  intros Hr. pose proof (popping_shared p Hr) as Hs. apply pool_reachable_inv in Hr as [[P1 P2] _ _ _ _ _ _ _].
  destruct (holders p) as [|[ex st] hs] eqn:E.
  - unfold held in P1. simpl in P1. destruct (queue p) as [|ex rest] eqn:Eq; [right; split_and!; [done..|lia]|].
    left. eexists. eapply step_grant; [done|]. pose proof concurrency_pos. unfold need. destruct ex; lia.
  - destruct st as [| |w|]; [destruct ex| | |].
    + by inversion Hs.
    + left. eexists. eapply (step_pop p [] hs); [exact E|]. apply surjective_pairing.
    + left. eexists. eapply (step_spawn p [] ex hs); [exact E|]. apply surjective_pairing.
    + left. eexists. by apply (step_finish_success p [] ex w hs 0).
    + left. eexists. by apply (step_release p [] ex hs).
Qed.

Lemma internal_reachable p p' n : reachable p -> nsteps internal n p p' -> reachable p'.
Proof.
  intros Hr Hn. induction Hn as [|n p p1 p2 Hi _ IH]; [done|]. apply IH. eapply reach_step; [done|]. by apply step_internal.
Qed.

(** C33: No lease waits forever on the pool itself: as long as a task waits or holds
    permits, some task can proceed (the first waiter gets its permits, a worker is
    taken or spawned, a lease ends, its permits are returned), and however these
    steps are ordered they are at most [weight p] many, after which no task waits
    and all permits are back. *)
Theorem pool_drains p n p' :
  reachable p -> nsteps internal n p p' ->
  (n <= weight p)%nat
  /\ ((exists p'', internal p' p'') \/ (queue p' = [] /\ holders p' = [] /\ permits p' = concurrency)).
Proof.
  intros Hr Hn. split; [|by apply internal_progress; eapply internal_reachable].
  clear Hr. induction Hn as [|n p p1 p2 Hi _ IH]; [lia|]. apply internal_weight in Hi. lia.
Qed.
End Pool.

(** ** Two exclusive retries *)

Module ConcretePool.
Definition config : pool_config :=
  mkPoolConfig "/opt/assetstudio_ffi_worker" "/opt/lib.so" 2 100 (mkTuning 60000 0 None).

(** An exclusive lease that is acquired, used for one call and returned. *)
Definition spawned_lease : pool :=
  with_holders [(true, Leased (mkPooled 1 0 None true))] (spawn_worker (grant config true [] (new_pool config))).2.
Definition returned (p : pool) : pool :=
  release config true []
    (with_holders [(true, Finishing)] (return_or_recycle_worker config 10 (mkPooled 1 0 None true) p)).

Lemma spawned_reachable : reachable config spawned_lease.
Proof.
  eapply reach_step; [eapply reach_step; [eapply reach_step; [apply reach_new|]|]|].
  - apply (step_request config _ true).
  - apply step_internal, (step_grant config _ true []); [reflexivity | vm_compute; discriminate].
  - apply step_internal. apply (step_spawn config _ [] true []); reflexivity.
Qed.


Lemma pool_drains_witness :
  weight spawned_lease = 2%nat
  /\ (2 <= weight spawned_lease)%nat
  /\ ((exists p'', internal config (returned spawned_lease) p'')
      \/ (queue (returned spawned_lease) = [] /\ holders (returned spawned_lease) = []
          /\ permits (returned spawned_lease) = concurrency config)).
Proof.
  split; [reflexivity|]. apply (pool_drains config spawned_lease 2 (returned spawned_lease) spawned_reachable).
  eapply nsteps_l; [apply (step_finish_success config spawned_lease [] true (mkPooled 1 0 None true) [] 10); reflexivity|].
  eapply nsteps_l; [apply (step_release config _ [] true []); reflexivity|]. constructor.
Defined.

(** An exclusive lease spawns a worker although the stack has one, and returns it: the
    pool then has two idle workers, and grows by one with every exclusive lease. *)
Definition exclusive_again (p : pool) : pool :=
  let p := grant config true [] p in
  let '(st, p) := spawn_worker p in
  match st with
  | Leased w => release config true [] (with_holders [(true, Finishing)] (return_or_recycle_worker config 20 w p))
  | _ => p
  end.

Lemma exclusive_again_reachable p :
  reachable config p -> queue p = [] -> holders p = [] -> permits p = 2 -> reachable config (exclusive_again p).
Proof.
  intros Hr Eq Eh Ep. destruct p as [pm q hs av nx st dr exc]. simpl in Eq, Eh, Ep. subst.
  eapply reach_step; [eapply reach_step; [eapply reach_step; [eapply reach_step; [eapply reach_step; [exact Hr|]|]|]|]|].
  - apply (step_request config _ true).
  - apply step_internal, (step_grant config _ true []); [reflexivity | vm_compute; discriminate].
  - apply step_internal. apply (step_spawn config _ [] true []); reflexivity.
  - apply step_internal. apply (step_finish_success config _ [] true (mkPooled nx 0 None true) [] 20). reflexivity.
  - apply step_internal. apply (step_release config _ [] true []). reflexivity.
Qed.

Example pool_outgrows_concurrency :
  let p := exclusive_again (exclusive_again (exclusive_again (new_pool config))) in
  reachable config p /\ map worker_id (available p) = [1; 2; 3] /\ process_concurrency config = 2.
Proof.
  split; [|vm_compute; split; reflexivity].
  apply exclusive_again_reachable; [|reflexivity..]. apply exclusive_again_reachable; [|reflexivity..].
  apply exclusive_again_reachable; [apply reach_new | reflexivity..].
Qed.
End ConcretePool.
