(* ===== verification/ExportTasks.v ===== *)
(** * Export types and the task pool

    [core/export_pipeline/implementation/tasks.rs]: which object types a bundle
    exports, and [run_tasks], a fixed number of threads over a queue, as a step
    relation. *)

From stdpp Require Import relations.
From S2P Require Import Prelude RustStr Errors Config Paths Regions FfiTypes ExportPaths ExportPayload.

Local Open Scope string_scope.
Local Open Scope list_scope.
Local Open Scope Z_scope.
Local Open Scope rust_scope.

(** ** Export types *)

Definition MESH_PATH_EXTRA_EXPORT_TYPES : list string := ["tex2d"; "tex2dArray"; "mesh"].

Definition append_asset_studio_export_type (export_types : list string) (asset_type : string) : list string :=
  let asset_type := trim asset_type in
  let asset_type := default asset_type (assetstudio_export_type_selector asset_type) in
  if is_empty asset_type || existsb (String.eqb asset_type) export_types then export_types
  else export_types ++ [asset_type].

Definition append_asset_studio_export_types (export_types asset_types : list string) : list string :=
  foldl append_asset_studio_export_type export_types asset_types.

(** [regex_new] is [Regex::new], [export_obj] and [path_patterns] are
    [region.export.mesh]. *)
Definition should_export_mesh_for_bundle (regex_new : string -> option (string -> bool)) (export_obj : bool)
    (path_patterns : list string) (bundle_path : string) : bool :=
  if negb export_obj || bool_decide (path_patterns = []) then false
  else matches_any (compile_patterns regex_new path_patterns) bundle_path.

Definition asset_studio_export_type_list (regex_new : string -> option (string -> bool)) (export_obj : bool)
    (path_patterns asset_studio_types : list string) (bundle_path : string) : list string :=
  let export_types := append_asset_studio_export_types [] asset_studio_types in
  let export_types :=
    if bool_decide (export_types = []) then append_asset_studio_export_types export_types DEFAULT_ASSET_STUDIO_EXPORT_TYPES
    else export_types in
  if should_export_mesh_for_bundle regex_new export_obj path_patterns bundle_path
  then append_asset_studio_export_types export_types MESH_PATH_EXTRA_EXPORT_TYPES
  else export_types.

Definition proper_types (l : list string) : Prop := NoDup l /\ Forall (fun t => t <> "") l.

Lemma append_proper l t : proper_types l -> proper_types (append_asset_studio_export_type l t).
Proof.
  intros [Hn Hf]. unfold append_asset_studio_export_type.
  set (u := default _ _). destruct (_ || _) eqn:E; [done|]. apply orb_false_iff in E as [E1 E2].
  split.
  - apply NoDup_app. split_and!; [done| |apply NoDup_singleton]. intros x Hx ->%list_elem_of_singleton.
    apply list_elem_of_In in Hx. assert (existsb (String.eqb u) l = true); [|congruence].
    apply existsb_exists. exists u. split; [done | by apply String.eqb_eq].
  - apply Forall_app. split; [done|]. constructor; [|done]. intros Eu. by rewrite Eu in E1.
Qed.

(** The types are never empty, and no type is listed twice. *)
Lemma export_types_proper regex_new obj patterns types bundle :
  let l := asset_studio_export_type_list regex_new obj patterns types bundle in proper_types l /\ l <> [].
Proof.
  assert (Hp : forall l ts, proper_types l -> proper_types (append_asset_studio_export_types l ts)).
  { intros l ts. revert l. induction ts as [|t ts IH]; intros l Hl; [done|]. apply IH. by apply append_proper. }
  assert (Hg : forall l ts, l <> [] -> append_asset_studio_export_types l ts <> []).
  { intros l ts. revert l. induction ts as [|t ts IH]; intros l Hl; [done|]. apply IH.
    unfold append_asset_studio_export_type. destruct (_ || _); [done|]. by destruct l. }
  assert (H0 : proper_types []) by (split; constructor).
  unfold asset_studio_export_type_list. set (base := if bool_decide _ then _ else _).
  assert (Hb : proper_types base /\ base <> []).
  { unfold base. destruct (bool_decide_reflect (append_asset_studio_export_types [] types = [])) as [->|Hne].
    - split; [by apply Hp | by vm_compute].
    - split; [by apply Hp | done]. }
  destruct (should_export_mesh_for_bundle _ _ _ _); [|done]. destruct Hb as [H1 H2]. split; [by apply Hp | by apply Hg].
Qed.

(** ** The task pool *)

(** A thread of [run_tasks], by where its loop stands. *)
Inductive thread (I : Type) : Type :=
| Checking
| Popping
| Running (x : I)
| Exited
| Panicked (x : I).
Arguments Checking {I}. Arguments Popping {I}. Arguments Running {I}. Arguments Exited {I}. Arguments Panicked {I}.

Section Tasks.
Context {I T : Type}.
(** How the closure may end on an input; it runs outside the locks. *)
Variable outcome : I -> result T ExportPipelineError -> Prop.

(** [queue], [results] and [first_error] behind their locks; [t_done] is what has
    been run so far, in the order of completion. *)
Record tasks : Type := mkTasks {
  t_queue : list I;
  t_results : list T;
  t_error : option ExportPipelineError;
  t_threads : list (thread I);
  t_done : list (I * result T ExportPipelineError)
}.

Definition worker_count (concurrency : Z) (paths : list I) : Z := Z.min (Z.max concurrency 1) (zlen paths).

Definition start_tasks (paths : list I) (concurrency : Z) : tasks :=
  mkTasks paths [] None (replicate (Z.to_nat (worker_count concurrency paths)) Checking) [].

Definition set_threads (l : list (thread I)) (s : tasks) : tasks :=
  mkTasks (t_queue s) (t_results s) (t_error s) l (t_done s).

(** The end of a task. *)
Definition finish_task (x : I) (r : result T ExportPipelineError) (s : tasks) : thread I * tasks :=
  match r with
  | Ok t => (Checking, mkTasks (t_queue s) (t_results s ++ [t]) (t_error s) (t_threads s) (t_done s ++ [(x, r)]))
  | Err e =>
      (Exited, mkTasks (t_queue s) (t_results s) (match t_error s with None => Some e | first => first end)
                 (t_threads s) (t_done s ++ [(x, r)]))
  end.

(** What the thread does next between two locks. *)
Inductive tasks_step : tasks -> tasks -> Prop :=
| step_check s l1 l2 :
    t_threads s = l1 ++ Checking :: l2 ->
    tasks_step s (set_threads (l1 ++ (match t_error s with Some _ => Exited | None => Popping end) :: l2) s)
| step_pop_empty s l1 l2 :
    t_threads s = l1 ++ Popping :: l2 -> t_queue s = [] ->
    tasks_step s (set_threads (l1 ++ Exited :: l2) s)
| step_pop s l1 l2 x rest :
    t_threads s = l1 ++ Popping :: l2 -> t_queue s = x :: rest ->
    tasks_step s (mkTasks rest (t_results s) (t_error s) (l1 ++ Running x :: l2) (t_done s))
| step_finish s l1 l2 x r th s' :
    t_threads s = l1 ++ Running x :: l2 -> outcome x r -> finish_task x r s = (th, s') ->
    tasks_step s (set_threads (l1 ++ th :: l2) s')
| step_panic s l1 l2 x :
    t_threads s = l1 ++ Running x :: l2 -> tasks_step s (set_threads (l1 ++ Panicked x :: l2) s).

Definition finished (s : tasks) : Prop :=
  Forall (fun th => match th with Exited | Panicked _ => True | _ => False end) (t_threads s).

(** Joining the threads, then [first_error] and [results]. *)
Definition join_tasks (s : tasks) : result (list T) ExportPipelineError :=
  if existsb (fun th => match th with Panicked _ => true | _ => false end) (t_threads s)
  then Err (ExportWorkerPanic "export task" "panicked")
  else match t_error s with Some e => Err e | None => Ok (t_results s) end.

(** What [run_tasks] may return. *)
Inductive run_tasks (paths : list I) (concurrency : Z) : result (list T) ExportPipelineError -> Prop :=
| run_empty : paths = [] -> run_tasks paths concurrency (Ok [])
| run_one x r :
    paths = [x] -> outcome x r ->
    run_tasks paths concurrency (match r with Ok t => Ok [t] | Err e => Err e end)
| run_many s :
    2 <= zlen paths -> rtc tasks_step (start_tasks paths concurrency) s -> finished s ->
    run_tasks paths concurrency (join_tasks s)
| run_spawn_failed e :
    2 <= zlen paths -> run_tasks paths concurrency (Err (ExportWorkerSpawn "export-task" e)).

(** ** Every input once *)

Definition input_of (th : thread I) : list I := match th with Running x | Panicked x => [x] | _ => [] end.
Definition inputs_of (l : list (thread I)) : list I := concat (map input_of l).
Definition oks (l : list (I * result T ExportPipelineError)) : list T :=
  omap (fun p => match p.2 with Ok t => Some t | Err _ => None end) l.
Definition first_err (l : list (I * result T ExportPipelineError)) : option ExportPipelineError :=
  head (omap (fun p => match p.2 with Ok _ => None | Err e => Some e end) l).

Record tasks_inv (paths : list I) (s : tasks) : Prop := {
  ti_inputs : paths ≡ₚ t_queue s ++ inputs_of (t_threads s) ++ map fst (t_done s);
  ti_results : t_results s = oks (t_done s);
  ti_error : t_error s = first_err (t_done s);
  ti_outcome : Forall (fun p => outcome p.1 p.2) (t_done s);
  ti_exited : Exited ∈ t_threads s -> t_queue s = [] \/ t_error s <> None
}.

Lemma inputs_mid l1 th l2 : inputs_of (l1 ++ th :: l2) ≡ₚ input_of th ++ inputs_of (l1 ++ l2).
Proof. apply concat_map_mid. Qed.

(** A thread leaves the others as they were. *)
Lemma exited_mid (l1 l2 : list (thread I)) th th' :
  th' <> Exited -> Exited ∈ l1 ++ th' :: l2 -> Exited ∈ l1 ++ th :: l2.
Proof. intros Hn. rewrite !elem_of_app, !elem_of_cons. intros [?|[<-|?]]; [by left | done | by right; right]. Qed.

Lemma tasks_step_inv paths s s' : tasks_inv paths s -> tasks_step s s' -> tasks_inv paths s'.
Proof.
  intros [Hi Hr He Ho Hx] Hs. destruct Hs as [s l1 l2 E|s l1 l2 E Eq|s l1 l2 x rest E Eq|s l1 l2 x r th s' E Hout Ef|s l1 l2 x E];
    rewrite E, inputs_mid in Hi; rewrite E in Hx; simpl in Hi.
  - split; simpl; try done.
    + rewrite inputs_mid. by destruct (t_error s).
    + intros Hin. destruct (t_error s) as [e|] eqn:Ee; [by right|]. apply Hx. by eapply exited_mid; [|exact Hin].
  - split; simpl; try done.
    + by rewrite inputs_mid.
    + by left.
  - rewrite Eq in Hi, Hx. split; simpl; try done.
    + rewrite inputs_mid, Hi. simpl. by rewrite Permutation_middle.
    + intros Hin. destruct Hx as [Hx|Hx]; [by eapply exited_mid; [|exact Hin] | done | by right].
  - assert (Hin' : paths ≡ₚ t_queue s ++ inputs_of (l1 ++ l2) ++ map fst (t_done s) ++ [x]).
    { rewrite Hi. rewrite (app_assoc (inputs_of _)), (app_assoc (t_queue s)). rewrite (Permutation_app_comm _ [x]).
      simpl. rewrite <- Permutation_middle. by rewrite app_assoc. }
    destruct r as [t|e]; injection Ef as <- <-; split; simpl.
    + rewrite inputs_mid, map_app. done.
    + unfold oks. by rewrite Hr, omap_app.
    + rewrite He. unfold first_err. rewrite omap_app. simpl. by rewrite app_nil_r.
    + apply Forall_app. split; [done | by constructor].
    + intros Hin. apply Hx. by eapply exited_mid; [|exact Hin].
    + rewrite inputs_mid, map_app. done.
    + unfold oks. rewrite Hr, omap_app. simpl. by rewrite app_nil_r.
    + rewrite He. unfold first_err. rewrite omap_app. simpl. by destruct (omap _ (t_done s)).
    + apply Forall_app. split; [done | by constructor].
    + intros _. right. by destruct (t_error s).
  - split; simpl; try done.
    + by rewrite inputs_mid.
    + intros Hin. apply Hx. by eapply exited_mid; [|exact Hin].
Qed.

Lemma start_tasks_inv paths concurrency : tasks_inv paths (start_tasks paths concurrency).
Proof.
  unfold start_tasks. split; simpl; try done.
  - assert (Hn : forall n, inputs_of (replicate n Checking) = []) by (intros n; by induction n).
    by rewrite Hn, app_nil_r.
  - intros Hin. by apply elem_of_replicate in Hin as [[=] _].
Qed.

Lemma tasks_rtc_inv paths s s' : tasks_inv paths s -> rtc tasks_step s s' -> tasks_inv paths s'.
Proof. intros Hi Hs. induction Hs as [|s s1 s2 Hst _ IH]; [done|]. by eapply IH, tasks_step_inv. Qed.

Lemma threads_length s s' : rtc tasks_step s s' -> length (t_threads s') = length (t_threads s).
Proof.
  induction 1 as [|s s1 s2 Hst _ IH]; [done|]. rewrite IH. clear IH.
  destruct Hst as [s l1 l2 E|s l1 l2 E _|s l1 l2 x rest E _|s l1 l2 x r th s' E _ Ef|s l1 l2 x E];
    rewrite E; simpl; rewrite !length_app; simpl; try done.
Qed.

(** When all threads have exited without an error, the queue was drained. *)
Lemma finished_ok paths s ts :
  tasks_inv paths s -> finished s -> t_threads s <> [] -> join_tasks s = Ok ts ->
  exists outs, Forall2 (fun x t => outcome x (Ok t)) paths outs /\ ts ≡ₚ outs.
Proof.
  intros [Hi Hr He Ho Hx] Hf Hne Hj. unfold join_tasks in Hj.
  destruct (existsb _ _) eqn:Ep; [done|]. destruct (t_error s) as [e|] eqn:Ee; [done|]. injection Hj as <-.
  assert (Hall : Forall (eq Exited) (t_threads s)).
  { unfold finished in Hf. rewrite Forall_forall in *. intros th Hth. specialize (Hf th Hth). destruct th; try done.
    assert (existsb (fun th => match th with Panicked _ => true | _ => false end) (t_threads s) = true); [|congruence].
    apply existsb_exists. exists (Panicked x). by rewrite <- list_elem_of_In. }
  assert (Hin : inputs_of (t_threads s) = []).
  { clear - Hall. unfold inputs_of. induction (t_threads s) as [|th l IH]; [done|]. inversion Hall; subst. simpl. by apply IH. }
  destruct Hx as [Hq|Hq]; [|rewrite Hq, Hin in Hi; simpl in Hi|done].
  { destruct (t_threads s) as [|th l]; [done|]. inversion Hall; subst. by left. }
  symmetry in He. unfold first_err in He. rewrite Hr.
  assert (Hd : Forall2 (fun x t => outcome x (Ok t)) (map fst (t_done s)) (oks (t_done s))).
  { clear - He Ho. induction (t_done s) as [|[x [t|e]] l IH]; simpl in *; [constructor| |done].
    inversion Ho; subst. constructor; [done | by apply IH]. }
  symmetry in Hi. destruct (Permutation_Forall2 Hi Hd) as (outs & Hp & Hf2). by exists outs.
Qed.

Lemma finished_err paths s e :
  tasks_inv paths s -> join_tasks s = Err e ->
  (exists x, x ∈ paths /\ outcome x (Err e)) \/ e = ExportWorkerPanic "export task" "panicked".
Proof.
  intros [Hi Hr He Ho Hx] Hj. unfold join_tasks in Hj. destruct (existsb _ _); [right; by injection Hj|].
  destruct (t_error s) as [e'|] eqn:Ee; [|done]. injection Hj as ->. left.
  symmetry in He. unfold first_err in He. apply head_Some_elem_of in He.
  apply list_elem_of_omap in He as ([x r] & Hd & Hs). simpl in Hs. destruct r as [|e'']; [done|]. injection Hs as ->.
  exists x. rewrite Forall_forall in Ho. split; [|by apply (Ho (x, Err e))].
  rewrite Hi, !elem_of_app. right. right. apply list_elem_of_fmap. by exists (x, Err e).
Qed.

(** [run_tasks] returns the outputs of all its inputs, each task run exactly once
    (in some order, since threads finish in any order), or an error: that of one of
    its inputs, a thread that panicked or one that could not be started. *)
Theorem run_tasks_exact paths concurrency r :
  run_tasks paths concurrency r ->
  match r with
  | Ok ts => exists outs, Forall2 (fun x t => outcome x (Ok t)) paths outs /\ ts ≡ₚ outs
  | Err e => (exists x, x ∈ paths /\ outcome x (Err e))
             \/ e = ExportWorkerPanic "export task" "panicked"
             \/ exists source, e = ExportWorkerSpawn "export-task" source
  end.
Proof.
  intros Hr. destruct Hr as [->|x r -> Ho|s Hl Hs Hf|e Hl].
  - by exists [].
  - destruct r as [t|e]; [exists [t]; split; [by repeat constructor | done]|].
    left. exists x. split; [by left | done].
  - pose proof (tasks_rtc_inv paths _ _ (start_tasks_inv paths concurrency) Hs) as Hi.
    destruct (join_tasks s) as [ts|e] eqn:Ej.
    + eapply finished_ok; [exact Hi | done| |done]. intros E0.
      apply threads_length in Hs. rewrite E0 in Hs. unfold start_tasks, worker_count in Hs. simpl in Hs.
      rewrite length_replicate in Hs. lia.
    + destruct (finished_err _ _ _ Hi Ej) as [?|?]; [by left | by right; left].
  - right. right. by exists e.
Qed.

(** The threads end: every step uses up some of this. *)
Definition thread_weight (th : thread I) : nat :=
  match th with Running _ => 4 | Checking => 3 | Popping => 2 | _ => 0 end.
Definition tasks_weight (s : tasks) : nat :=
  (4 * length (t_queue s) + list_sum (map thread_weight (t_threads s)))%nat.

Lemma tasks_step_weight s s' : tasks_step s s' -> (tasks_weight s' < tasks_weight s)%nat.
Proof.
  unfold tasks_weight.
  destruct 1 as [s l1 l2 E|s l1 l2 E Eq|s l1 l2 x rest E Eq|s l1 l2 x r th s' E _ Ef|s l1 l2 x E]; rewrite E; simpl; rewrite !list_sum_mid.
  - destruct (t_error s); simpl; lia.
  - simpl. lia.
  - rewrite Eq. simpl. lia.
  - destruct r; injection Ef as <- <-; simpl; lia.
  - simpl. lia.
Qed.

(** However the threads are scheduled, they finish within [tasks_weight] steps. *)
Lemma run_tasks_terminates paths concurrency n s :
  (forall x, x ∈ paths -> exists r, outcome x r) -> nsteps tasks_step n (start_tasks paths concurrency) s ->
  (n <= tasks_weight (start_tasks paths concurrency))%nat /\ (finished s \/ exists s', tasks_step s s').
Proof.
  intros Ht Hn. split.
  - clear Ht. induction Hn as [|n s s1 s2 Hs _ IH]; [lia|]. apply tasks_step_weight in Hs. lia.
  - assert (Hi : tasks_inv paths s).
    { eapply tasks_rtc_inv; [apply start_tasks_inv|]. by eapply rtc_nsteps_2. }
    destruct Hi as [Hi _ _ _ _].
    set (ended := fun th : thread I => match th with Exited | Panicked _ => true | _ => false end).
    destruct (find_split (fun th => negb (ended th)) (t_threads s)) as [(l1 & th & l2 & E & He)|Ha].
    2: { left. eapply Forall_impl; [exact Ha|]. by intros []. }
    right. destruct th as [| |x| |x]; try done.
    + eexists. by eapply step_check.
    + destruct (t_queue s) as [|x rest] eqn:Eq; eexists; [by eapply step_pop_empty | by eapply step_pop].
    + destruct (Ht x) as [r Hr].
      { rewrite E, inputs_mid in Hi. rewrite Hi, !elem_of_app. right. left. left. simpl. by left. }
      eexists. eapply step_finish; [exact E | exact Hr | apply surjective_pairing].
Qed.
End Tasks.

(** ** A pool of one thread *)

Module ConcreteTasks.
Definition twice (x : Z) (r : result Z ExportPipelineError) : Prop := r = Ok (2 * x).

(** One thread takes the two inputs in turn. *)
Definition final : tasks := mkTasks [] [6; 10] None [Exited] [(3, Ok 6); (5, Ok 10)].

Lemma run_twice : rtc (tasks_step twice) (start_tasks [3; 5] 1) final.
Proof.
  eapply rtc_l; [apply (step_check _ _ [] []); reflexivity|].
  eapply rtc_l; [eapply (step_pop _ _ [] [] 3); reflexivity|].
  eapply rtc_l; [eapply (step_finish _ _ [] [] 3 (Ok 6)); reflexivity|].
  eapply rtc_l; [apply (step_check _ _ [] []); reflexivity|].
  eapply rtc_l; [eapply (step_pop _ _ [] [] 5); reflexivity|].
  eapply rtc_l; [eapply (step_finish _ _ [] [] 5 (Ok 10)); reflexivity|].
  eapply rtc_l; [apply (step_check _ _ [] []); reflexivity|].
  eapply rtc_l; [apply (step_pop_empty _ _ [] []); reflexivity|]. apply rtc_refl.
Qed.

Lemma run_tasks_exact_witness :
  run_tasks twice [3; 5] 1 (Ok [6; 10])
  /\ exists outs, Forall2 (fun x t => twice x (Ok t)) [3; 5] outs /\ [6; 10] ≡ₚ outs.
Proof.
  assert (Hr : run_tasks twice [3; 5] 1 (join_tasks final)).
  { apply run_many; [vm_compute; discriminate | exact run_twice | repeat constructor]. }
  split; [exact Hr|]. exact (run_tasks_exact twice [3; 5] 1 _ Hr).
Defined.
End ConcreteTasks.
