(* ===== verification/UsmInputs.v ===== *)
(** * Merging USM segments

    [prepare_usm_processing_inputs], [merge_usm_segment_files] and
    [merge_usm_inputs] of [core/export_pipeline/implementation/tasks.rs]: the files
    [name-1.usm], [name-2.usm], ... of a directory are appended to [name.usm] in
    order and removed.  Every call of the operating system can fail. *)

From Stdlib Require Import Ascii.
From S2P Require Import Prelude RustStr Errors Paths ExportPaths ExportPayload ObjectExport.

Local Open Scope string_scope.
Local Open Scope list_scope.
Local Open Scope Z_scope.
Local Open Scope rust_scope.

(** ** Segment names *)

(** [str::parse::<usize>] on a string of digits. *)
Definition parse_usize (s : string) : option Z :=
  if is_empty s then None
  else
    let v := foldl (fun n a => n * 10 + (Z.of_nat (nat_of_ascii a) - 48)) 0 (String.list_ascii_of_string s) in
    if v <=? u64_max then Some v else None.

Definition usm_segment_key (p : path) : option (path * string * Z) :=
  match file_stem p with
  | None => None
  | Some stem =>
      match rsplit_once "-" stem with
      | None => None
      | Some (pre, raw_segment) =>
          let segment :=
            match rsplit_once "__dup" raw_segment with
            | Some (segment, duplicate) =>
                if negb (is_empty duplicate) && all_digits duplicate then segment else raw_segment
            | None => raw_segment
            end in
          if is_empty pre || is_empty segment || negb (all_digits segment) then None
          else match parse_usize segment with
               | None => None
               | Some n => if n =? 0 then None else Some (default (components ".") (path_parent p), pre, n)
               end
      end
  end.

(** ** Order of paths *)

Definition component_rank (c : component) : Z :=
  match c with RootDir => 0 | CurDir => 1 | ParentDir => 2 | Normal _ => 3 end.
Definition compare_component (a b : component) : comparison :=
  match a, b with
  | Normal x, Normal y => String.compare x y
  | _, _ => Z.compare (component_rank a) (component_rank b)
  end.
(** [Ord] of [PathBuf]: component by component. *)
Fixpoint compare_path (p q : path) : comparison :=
  match p, q with
  | [], [] => Eq
  | [], _ => Lt
  | _, [] => Gt
  | a :: p', b :: q' => match compare_component a b with Eq => compare_path p' q' | c => c end
  end.

(** [UsmSegmentGroupKey]: [None] comes first. *)
Abbreviation group_key := (option (path * string)).
Definition compare_key (a b : group_key) : comparison :=
  match a, b with
  | None, None => Eq
  | None, _ => Lt
  | _, None => Gt
  | Some (p, s), Some (q, t) => match compare_path p q with Eq => String.compare s t | c => c end
  end.

(** ** Inputs *)

Inductive UsmProcessingInput : Type :=
| UsmPath (p : path)
| UsmBytes (output_dir : path) (output_name fallback_name : string) (data : bytes) (source_files : list path).

Record UsmProcessingInputs : Type := mkUsmInputs {
  usm_files : list UsmProcessingInput;
  merged_count : Z
}.

Definition input_path (i : UsmProcessingInput) : option path :=
  match i with UsmPath p => Some p | UsmBytes _ _ _ _ _ => None end.
Definition output_dir (i : UsmProcessingInput) : path :=
  match i with
  | UsmPath p => default (components ".") (path_parent p)
  | UsmBytes dir _ _ _ _ => dir
  end.
Definition output_name (i : UsmProcessingInput) : result string ExportPipelineError :=
  match i with
  | UsmPath p =>
      match file_stem p with
      | Some stem => Ok stem
      | None => Err (ExportIo (path_str p) (InvalidData "invalid usm file name"))
      end
  | UsmBytes _ name _ _ _ => Ok name
  end.
Definition output_sort_key (i : UsmProcessingInput) : path :=
  match i with
  | UsmPath p => p
  | UsmBytes dir name _ _ _ => join_str dir (name +:+ ".usm")
  end.

(** A group of the map: its entries are segment, index and path. *)
Abbreviation group_entry := (Z * Z * path)%type.
Fixpoint insert_group (k : group_key) (e : group_entry) (groups : list (group_key * list group_entry))
  : list (group_key * list group_entry) :=
  match groups with
  | [] => [(k, [e])]
  | (k', es) :: rest =>
      match compare_key k k' with
      | Eq => (k', es ++ [e]) :: rest
      | Lt => (k, [e]) :: groups
      | Gt => (k', es) :: insert_group k e rest
      end
  end.

Definition group_usm_files (files : list path) : list (group_key * list group_entry) :=
  foldl (fun groups ip =>
           let '(index, p) := ip in
           match usm_segment_key p with
           | Some (dir, stem, segment) => insert_group (Some (dir, stem)) (segment, index, p) groups
           | None => insert_group None (u64_max, index, p) groups
           end) [] (imap (fun i p => (Z.of_nat i, p)) files).

Definition entry_le (a b : group_entry) : bool :=
  let '(s, i, _) := a in let '(t, j, _) := b in (s <? t) || ((s =? t) && (i <=? j)).

Definition is_contiguous_segmented_usm (group : list group_entry) : bool :=
  (1 <? zlen group)
  && forallb (fun x => x.2.1.1 =? x.1 + 1) (imap (fun i e => (Z.of_nat i, e)) group).

(** ** Merging on disk *)

Inductive os_op : Type := OpCreate | OpOpen | OpCopy | OpRemove.

Section Merge.
(** Which operation fails on which path; a failing copy has written some prefix. *)
Variable os_error : os_op -> path -> option io_error.
Variable copied : path -> nat.

Abbreviation merge_result A := (disk * result A ExportPipelineError)%type.

Definition append_to (target : path) (data : bytes) (d : disk) : disk :=
  write_file target (default [] (d_files d !! target) ++ data) d.

Definition remove_export_file_if_exists (p : path) (d : disk) : merge_result unit :=
  match os_error OpRemove p with
  | Some e => (d, Err (ExportIo (path_str p) e))
  | None => (mkDisk (delete p (d_files d)) (d_dirs d), Ok tt)
  end.

(** Opens a source, copies it to the end of the target and removes it. *)
Definition append_source (target source : path) (d : disk) : merge_result unit :=
  match os_error OpOpen source, d_files d !! source with
  | Some e, _ => (d, Err (ExportIo (path_str source) e))
  | None, None => (d, Err (ExportIo (path_str source) NotFound))
  | None, Some content =>
      match os_error OpCopy source with
      | Some e => (append_to target (take (copied source) content) d, Err (ExportIo (path_str source) e))
      | None => remove_export_file_if_exists source (append_to target content d)
      end
  end.

Fixpoint append_sources (target : path) (sources : list path) (d : disk) : merge_result unit :=
  match sources with
  | [] => (d, Ok tt)
  | source :: rest =>
      if bool_decide (source = target) then append_sources target rest d
      else match append_source target source d with
           | (d, Err e) => (d, Err e)
           | (d, Ok _) => append_sources target rest d
           end
  end.

Definition create_file (p : path) (d : disk) : merge_result unit :=
  match os_error OpCreate p with
  | Some e => (d, Err (ExportIo (path_str p) e))
  | None => (write_file p [] d, Ok tt)
  end.

Definition merge_usm_segment_files (dir : path) (stem : string) (files : list path) (d : disk)
  : merge_result UsmProcessingInput :=
  let merged_file := join_str dir (stem +:+ ".usm") in
  match create_file merged_file d with
  | (d, Err e) => (d, Err e)
  | (d, Ok _) =>
      match append_sources merged_file files d with
      | (d, Err e) => (d, Err e)
      | (d, Ok _) => (d, Ok (UsmPath merged_file))
      end
  end.

Fixpoint remove_sources (files : list path) (d : disk) : merge_result unit :=
  match files with
  | [] => (d, Ok tt)
  | f :: rest =>
      match remove_export_file_if_exists f d with
      | (d, Err e) => (d, Err e)
      | (d, Ok _) => remove_sources rest d
      end
  end.

Definition cleanup_sources (i : UsmProcessingInput) (d : disk) : merge_result unit :=
  match i with
  | UsmPath p => remove_export_file_if_exists p d
  | UsmBytes _ _ _ _ source_files => remove_sources source_files d
  end.

Fixpoint merge_inputs_loop (merged_file : path) (inputs : list UsmProcessingInput) (d : disk) : merge_result unit :=
  match inputs with
  | [] => (d, Ok tt)
  | UsmPath source :: rest =>
      if bool_decide (source = merged_file) then merge_inputs_loop merged_file rest d
      else match append_source merged_file source d with
           | (d, Err e) => (d, Err e)
           | (d, Ok _) => merge_inputs_loop merged_file rest d
           end
  | UsmBytes _ _ _ data source_files :: rest =>
      match os_error OpCopy merged_file with
      | Some e => (append_to merged_file (take (copied merged_file) data) d, Err (ExportIo (path_str merged_file) e))
      | None =>
          match remove_sources source_files (append_to merged_file data d) with
          | (d, Err e) => (d, Err e)
          | (d, Ok _) => merge_inputs_loop merged_file rest d
          end
      end
  end.

Definition merge_usm_inputs (dir : path) (inputs : list UsmProcessingInput) (d : disk) : merge_result path :=
  let merged_file := join_str dir (default "merged" (file_name dir) +:+ ".usm") in
  match create_file merged_file d with
  | (d, Err e) => (d, Err e)
  | (d, Ok _) =>
      match merge_inputs_loop merged_file inputs d with
      | (d, Err e) => (d, Err e)
      | (d, Ok _) => (d, Ok merged_file)
      end
  end.

(** The loop over the groups. *)
Fixpoint prepare_groups (groups : list (group_key * list group_entry)) (prepared : list UsmProcessingInput)
    (count : Z) (d : disk) : merge_result (list UsmProcessingInput * Z) :=
  match groups with
  | [] => (d, Ok (prepared, count))
  | (key, group) :: rest =>
      let group := sort_by entry_le group in
      match key with
      | Some (dir, stem) =>
          if is_contiguous_segmented_usm group then
            let sources := map snd group in
            match merge_usm_segment_files dir stem sources d with
            | (d, Err e) => (d, Err e)
            | (d, Ok merged) => prepare_groups rest (prepared ++ [merged]) (count + zlen sources) d
            end
          else prepare_groups rest (prepared ++ map (fun e => UsmPath e.2) group) count d
      | None => prepare_groups rest (prepared ++ map (fun e => UsmPath e.2) group) count d
      end
  end.

Definition prepare_usm_processing_inputs (files : list path) (d : disk) : merge_result UsmProcessingInputs :=
  if zlen files <=? 1 then (d, Ok (mkUsmInputs (map UsmPath files) 0))
  else match prepare_groups (group_usm_files files) [] 0 d with
       | (d, Err e) => (d, Err e)
       | (d, Ok (prepared, count)) =>
           (d, Ok (mkUsmInputs
             (sort_by (fun a b => match compare_path (output_sort_key a) (output_sort_key b) with Gt => false | _ => true end)
                prepared) count))
       end.

(** ** No segment is lost *)

(** What is on disk after appending [files], whose contents were [contents], to
    [target], which held [m]: everything, or the first [k] and a part of the next
    with the others untouched. *)
Definition appended (target : path) (m : bytes) (files : list path) (contents : list bytes) (d : disk)
    (ok : bool) : Prop :=
  if ok
  then d_files d !! target = Some (m ++ concat contents) /\ Forall (fun f => d_files d !! f = None) files
  else exists k part, d_files d !! target = Some (m ++ concat (take k contents) ++ part)
       /\ forall i f c, (k <= i)%nat -> files !! i = Some f -> contents !! i = Some c -> d_files d !! f = Some c.

Definition same_elsewhere (target : path) (files : list path) (d d' : disk) : Prop :=
  forall p, p <> target -> p ∉ files -> d_files d' !! p = d_files d !! p.

(** One source: copied and removed, or the loop stops with the source in place. *)
Lemma append_source_spec target source d d' r m c :
  source <> target -> d_files d !! target = Some m -> d_files d !! source = Some c ->
  append_source target source d = (d', r) ->
  same_elsewhere target [source] d d' /\
  match r with
  | Ok _ => d_files d' !! target = Some (m ++ c) /\ d_files d' !! source = None
  | Err _ => exists part, d_files d' !! target = Some (m ++ part)
             /\ (d_files d' !! source = Some c)
  end.
Proof.
  intros Hne Ht Hs E. unfold append_source in E. rewrite Hs in E. unfold same_elsewhere.
  destruct (os_error OpOpen source) as [e|].
  { simplify_eq. split; [done|]. exists []. by rewrite app_nil_r. }
  unfold append_to, write_file in E. rewrite Ht in E. cbn [default] in E.
  destruct (os_error OpCopy source) as [e|].
  { simplify_eq. simpl. split.
    - intros p Hp _. by rewrite lookup_insert_ne.
    - exists (take (copied source) c). by rewrite lookup_insert_eq, lookup_insert_ne. }
  unfold remove_export_file_if_exists in E. destruct (os_error OpRemove source) as [e|]; simplify_eq; simpl.
  - split; [intros p Hp _; by rewrite lookup_insert_ne|]. exists c. by rewrite lookup_insert_eq, lookup_insert_ne.
  - split.
    + intros p Hp Hn. rewrite lookup_delete_ne by set_solver. by rewrite lookup_insert_ne.
    + by rewrite lookup_delete_ne, lookup_insert_eq, lookup_delete_eq.
Qed.

Lemma contents_kept target f files contents d d' :
  same_elsewhere target [f] d d' -> f ∉ files -> target ∉ files ->
  Forall2 (fun g c => d_files d !! g = Some c) files contents ->
  Forall2 (fun g c => d_files d' !! g = Some c) files contents.
Proof.
  intros He Hf Ht H2. induction H2 as [|g c files contents Hg _ IH]; [constructor|].
  apply not_elem_of_cons in Hf as [Hf1 Hf2]. apply not_elem_of_cons in Ht as [Ht1 Ht2].
  constructor; [|by apply IH]. rewrite He; [done | congruence | set_solver].
Qed.

Lemma append_sources_spec target files contents m d d' r :
  NoDup files -> target ∉ files -> Forall2 (fun f c => d_files d !! f = Some c) files contents ->
  d_files d !! target = Some m -> append_sources target files d = (d', r) ->
  same_elsewhere target files d d' /\ appended target m files contents d' (is_ok r).
Proof.
  intros Hn Ht Hf. revert m d Ht Hf. revert contents.
  induction Hn as [|f files Hnf Hn IH]; intros contents m d Ht Hf Hm E; inversion Hf as [|? c ? cs Hc Hcs]; subst;
    cbn [append_sources] in E.
  { simplify_eq. split; [done|]. simpl. by rewrite app_nil_r. }
  apply not_elem_of_cons in Ht as [Hft Ht]. rewrite bool_decide_eq_false_2 in E by congruence.
  destruct (append_source target f d) as [d1 r1] eqn:E1.
  apply (append_source_spec _ _ _ _ _ m c) in E1 as [Hel Hr]; [|congruence|done|done].
  destruct r1 as [[]|e].
  - destruct Hr as [Hm1 Hf1].
    assert (Hcs1 : Forall2 (fun f c => d_files d1 !! f = Some c) files cs).
    { by eapply contents_kept. }
    destruct (IH cs (m ++ c) d1 Ht Hcs1 Hm1 E) as [Hel2 Happ]. split.
    + intros p Hp Hnp. apply not_elem_of_cons in Hnp as [Hp1 Hp2]. rewrite Hel2 by done. apply Hel; [done | set_solver].
    + destruct r as [u|e]; simpl in *.
      * destruct Happ as [Hd Hnone]. rewrite <- app_assoc in Hd. split; [done|]. constructor; [|done].
        rewrite Hel2; [done | congruence | done].
      * destruct Happ as (k & part & Hd & Hrest). exists (S k), part. rewrite <- app_assoc in Hd. simpl. rewrite <- app_assoc.
        split; [done|]. intros [|i] f' c' Hk Ef Ec; [lia|]. eapply (Hrest i); [lia | done | done].
  - injection E as <- <-. destruct Hr as (part & Hd & Hfd). split.
    + intros p Hp Hnp. apply Hel; [done | set_solver].
    + simpl. exists 0%nat, part. split; [done|]. intros [|i] f' c' _ Ef Ec; simpl in Ef, Ec; [by simplify_eq|].
      by apply (Forall2_lookup_lr _ _ _ _ _ _ (contents_kept _ _ _ _ _ _ Hel Hnf Ht Hcs) Ef Ec).
Qed.

(** Merging the segments of a USM never loses data, whatever system call fails:
    on success the merged file holds the segments one after the other in their
    order and the segments are gone; on an error, the merged file holds the first
    [k] segments and part of the next one, and every segment from the [k]th on is
    still on disk as it was.  No other file changes. *)
Theorem usm_merge_keeps_data dir stem files contents d d' r :
  let merged := join_str dir (stem +:+ ".usm") in
  NoDup files -> merged ∉ files -> Forall2 (fun f c => d_files d !! f = Some c) files contents ->
  merge_usm_segment_files dir stem files d = (d', r) ->
  same_elsewhere merged files d d'
  /\ match r with
     | Ok i => i = UsmPath merged /\ appended merged [] files contents d' true
     | Err _ => d' = d \/ appended merged [] files contents d' false
     end.
Proof.
  intros merged Hn Ht Hf E. unfold merge_usm_segment_files, create_file in E. fold merged in E.
  destruct (os_error OpCreate merged) as [e|]; [simplify_eq; split; [done | by left]|].
  set (d0 := write_file merged [] d) in E.
  assert (Hel0 : same_elsewhere merged [] d d0) by (intros p Hp _; unfold d0; simpl; by rewrite lookup_insert_ne).
  assert (Hf0 : Forall2 (fun f c => d_files d0 !! f = Some c) files contents).
  { eapply (contents_kept merged merged); [|done|done|exact Hf]. intros p Hp _. apply Hel0; [done | set_solver]. }
  destruct (append_sources merged files d0) as [d1 r1] eqn:E1.
  apply (append_sources_spec _ _ contents []) in E1 as [Hel Happ]; [|done|done|done|apply lookup_insert_eq].
  assert (Hel' : same_elsewhere merged files d d1).
  { intros p Hp Hnp. rewrite Hel by done. apply Hel0; [done | set_solver]. }
  destruct r1 as [[]|e]; injection E as <- <-; (split; [done|]); [done | by right].
Qed.
End Merge.

(** ** Files on a small disk *)

Module ConcreteUsm.
Definition no_errors (_ : os_op) (_ : path) : option io_error := None.
Definition none_copied (_ : path) : nat := 0.
Definition full_disk (op : os_op) (p : path) : option io_error :=
  match op with
  | OpCopy => if bool_decide (p = components "/o/op-2.usm") then Some (OtherIo "no space") else None
  | _ => None
  end.

Definition segments : list path := [components "/o/op-1.usm"; components "/o/op-2.usm"].
Definition d0 : disk :=
  mkDisk (list_to_map [(components "/o/op-1.usm", [Byte.x01; Byte.x02]); (components "/o/op-2.usm", [Byte.x03])])
         {[components "/o"]}.

(** The second segment does not fit: nothing of it is written, and it stays. *)
Definition failing := merge_usm_segment_files full_disk (fun _ => 0%nat) (components "/o") "op" segments d0.

Lemma usm_merge_keeps_data_witness :
  is_ok failing.2 = false
  /\ appended (components "/o/op.usm") [] segments [[Byte.x01; Byte.x02]; [Byte.x03]] failing.1 false.
Proof.
  split; [vm_compute; reflexivity|].
  destruct (usm_merge_keeps_data full_disk (fun _ => 0%nat) (components "/o") "op" segments
    [[Byte.x01; Byte.x02]; [Byte.x03]] d0 failing.1 failing.2) as [_ Hr].
  - apply (bool_decide_unpack _). vm_compute. exact I.
  - apply (bool_decide_unpack _). vm_compute. exact I.
  - repeat constructor.
  - unfold failing. apply surjective_pairing.
  - assert (Hf : is_ok failing.2 = false) by (vm_compute; reflexivity).
    destruct (failing.2) as [i|e]; [exfalso; simpl in Hf; congruence|].
    destruct Hr as [Hr|Hr]; [exfalso|exact Hr].
    assert (Hm : d_files failing.1 !! components "/o/op.usm" = Some [Byte.x01; Byte.x02]) by (vm_compute; reflexivity).
    rewrite Hr in Hm. vm_compute in Hm. congruence.
Defined.

(** Numbered segments are merged, with a duplicate suffix ignored; a gap is not. *)
Example prepare_segments :
  usm_segment_key (components "/o/op-2__dup3.usm") = Some (components "/o", "op", 2)
  /\ usm_segment_key (components "/o/op-0.usm") = None
  /\ (prepare_usm_processing_inputs no_errors none_copied segments d0).2
     = Ok (mkUsmInputs [UsmPath (components "/o/op.usm")] 2)
  /\ d_files (prepare_usm_processing_inputs no_errors none_copied segments d0).1 !! components "/o/op.usm"
     = Some [Byte.x01; Byte.x02; Byte.x03].
Proof. vm_compute. repeat split; reflexivity. Qed.

(** The merged file is created over an unnumbered file of the same name, which is
    itself one of the inputs: its data is gone and the name is listed twice. *)
Definition d1 : disk := write_file (components "/o/op.usm") [Byte.xff] d0.
Example merge_overwrites_input :
  (prepare_usm_processing_inputs no_errors none_copied (components "/o/op.usm" :: segments) d1).2
  = Ok (mkUsmInputs [UsmPath (components "/o/op.usm"); UsmPath (components "/o/op.usm")] 2)
  /\ d_files (prepare_usm_processing_inputs no_errors none_copied (components "/o/op.usm" :: segments) d1).1
       !! components "/o/op.usm" = Some [Byte.x01; Byte.x02; Byte.x03].
Proof. vm_compute. split; reflexivity. Qed.

(** Merging all inputs of a directory into a file that is one of them truncates it. *)
Definition d2 : disk :=
  mkDisk (list_to_map [(components "/movie/a.usm", [Byte.x01]); (components "/movie/movie.usm", [Byte.x02])])
         {[components "/movie"]}.
Example merge_truncates_itself :
  d_files (merge_usm_inputs no_errors none_copied (components "/movie")
             [UsmPath (components "/movie/a.usm"); UsmPath (components "/movie/movie.usm")] d2).1
  !! components "/movie/movie.usm" = Some [Byte.x01].
Proof. vm_compute. reflexivity. Qed.
End ConcreteUsm.
