(* ===== verification/CpuLimits.v ===== *)
(** * The CPU budget

    [core/export_pipeline/implementation/limits.rs] and the media encode limiter of
    [media_postprocess.rs].  The first part is the measure of the process tree's CPU
    time; the second the two counting limiters as a step relation over the threads
    that use them. *)

From stdpp Require Import relations.
From Stdlib Require Import Ascii.
From S2P Require Import Prelude RustStr Errors UsmInputs.

Local Open Scope string_scope.
Local Open Scope list_scope.
Local Open Scope Z_scope.
Local Open Scope rust_scope.

(** ** CPU time of the process tree *)

(** [str::split_whitespace]. *)
Fixpoint split_ws (fuel : nat) (word s : string) : list string :=
  let flush := if is_empty word then [] else [word] in
  match fuel with
  | O => flush
  | S fuel' =>
      match s with
      | EmptyString => flush
      | String a rest =>
          match strip_any white_space s with
          | Some rest' => flush ++ split_ws fuel' "" rest'
          | None => split_ws fuel' (word +:+ String a "") rest
          end
      end
  end.
Definition split_whitespace (s : string) : list string := split_ws (String.length s) "" s.

Definition parse_linux_proc_stat (stat : string) : option (Z * Z) :=
  match rsplit_once ") " stat with
  | None => None
  | Some (_, after_name) =>
      let fields := split_whitespace after_name in
      match fields !! 1%nat ≫= parse_unsigned 32, fields !! 11%nat ≫= parse_unsigned 64,
            fields !! 12%nat ≫= parse_unsigned 64 with
      | Some ppid, Some user_ticks, Some system_ticks => Some (ppid, saturating_add 64 user_ticks system_ticks)
      | _, _, _ => None
      end
  end.

(** A row: process, parent, ticks. *)
Record proc_row : Type := mkRow { row_pid : Z; row_ppid : Z; row_ticks : Z }.

(** The inner loop over the rows for one process: the total and the stack, whose top
    is the end of the list in the source and the head here. *)
Fixpoint visit_rows (pid : Z) (rows : list proc_row) (total : Z) (stack : list Z) : Z * list Z :=
  match rows with
  | [] => (total, stack)
  | row :: rows' =>
      let total := if row_pid row =? pid then saturating_add 64 total (row_ticks row) else total in
      let stack := if row_ppid row =? pid then row_pid row :: stack else stack in
      visit_rows pid rows' total stack
  end.

Fixpoint tree_loop (fuel : nat) (rows : list proc_row) (stack : list Z) (seen : gset Z) (total : Z) : option Z :=
  match fuel with
  | O => None
  | S fuel' =>
      match stack with
      | [] => Some total
      | pid :: stack =>
          if bool_decide (pid ∈ seen) then tree_loop fuel' rows stack seen total
          else
            let '(total, stack) := visit_rows pid rows total stack in
            tree_loop fuel' rows stack ({[pid]} ∪ seen) total
      end
  end.

(** A row is pushed at most once, so the loop ends within this fuel. *)
Definition sum_process_tree_cpu_ticks (root_pid : Z) (rows : list proc_row) : option Z :=
  tree_loop (length rows + 2) rows [root_pid] ∅ 0.

(** [current_process_tree_cpu_ticks] over the entries of [/proc]: name and, if it
    can be read, the contents of its [stat]. *)
Definition proc_rows (entries : list (string * option string)) : list proc_row :=
  omap (fun e => match parse_unsigned 32 e.1, e.2 with
                 | Some pid, Some stat =>
                     match parse_linux_proc_stat stat with
                     | Some (ppid, ticks) => Some (mkRow pid ppid ticks)
                     | None => None
                     end
                 | _, _ => None
                 end) entries.

Definition current_process_tree_cpu_ticks (root_pid : Z) (entries : list (string * option string)) : option Z :=
  sum_process_tree_cpu_ticks root_pid (proc_rows entries).

Example parse_stat :
  parse_linux_proc_stat "1234 (name with spaces) S 42 1 1 0 -1 4194304 10 0 0 0 25 7 0 0 20 0 1 0 1" = Some (42, 32).
Proof. vm_compute. reflexivity. Qed.
Example sum_tree :
  sum_process_tree_cpu_ticks 10 [mkRow 10 1 3; mkRow 11 10 5; mkRow 12 10 7; mkRow 13 11 11; mkRow 14 99 13] = Some 26.
Proof. vm_compute. reflexivity. Qed.

(** *** The measure is that of the whole tree *)

Section Tree.
Variable rows : list proc_row.
Hypothesis ticks_nonneg : Forall (fun r => 0 <= row_ticks r) rows.

(** [child p q]: some row makes [q] a child of [p]. *)
Definition child (p q : Z) : Prop := exists r, r ∈ rows /\ row_ppid r = p /\ row_pid r = q.

(** The ticks of the rows of a set of processes. *)
Definition ticks_of (l : list proc_row) (s : gset Z) : Z :=
  sumZ (map row_ticks (List.filter (fun r => bool_decide (row_pid r ∈ s)) l)).

Definition sat (n : Z) : Z := Z.min n u64_max.

Lemma visit_rows_spec pid l total a stack :
  Forall (fun r => 0 <= row_ticks r) l -> total = sat a ->
  visit_rows pid l total stack
  = (sat (a + ticks_of l {[pid]}),
     rev (map row_pid (List.filter (fun r => row_ppid r =? pid) l)) ++ stack).
Proof.
  intros Hl. revert total a stack. induction Hl as [|r l Hr _ IH]; intros total a stack ->; cbn [visit_rows].
  { unfold ticks_of. simpl. by rewrite Z.add_0_r. }
  assert (Ht : ticks_of (r :: l) {[pid]} = (if row_pid r =? pid then row_ticks r else 0) + ticks_of l {[pid]}).
  { unfold ticks_of. cbn [List.filter]. destruct (Z.eqb_spec (row_pid r) pid) as [->|Hne].
    - by rewrite bool_decide_eq_true_2 by set_solver.
    - by rewrite bool_decide_eq_false_2 by set_solver. }
  rewrite (IH _ (a + if row_pid r =? pid then row_ticks r else 0)).
  - rewrite Ht. f_equal; [f_equal; lia|]. cbn [List.filter]. destruct (row_ppid r =? pid); [|done].
    simpl. by rewrite <- app_assoc.
  - unfold sat, saturating_add, u64_max. destruct (row_pid r =? pid); lia.
Qed.

(** The rows whose parent has not been visited can still be pushed. *)
Definition unvisited (s : gset Z) : list proc_row := List.filter (fun r => bool_decide (row_ppid r ∉ s)) rows.

Lemma ticks_of_union l s pid : pid ∉ s -> ticks_of l ({[pid]} ∪ s) = ticks_of l s + ticks_of l {[pid]}.
Proof.
  intros Hn. unfold ticks_of. induction l as [|r l IH]; [done|]. cbn [List.filter].
  destruct (decide (row_pid r = pid)) as [->|Hne].
  - rewrite (bool_decide_eq_true_2 (pid ∈ {[pid]} ∪ s)), (bool_decide_eq_true_2 (pid ∈ {[pid]})) by set_solver.
    rewrite (bool_decide_eq_false_2 (pid ∈ s)) by done. simpl. lia.
  - rewrite (bool_decide_eq_false_2 (row_pid r ∈ {[pid]})) by set_solver.
    rewrite (bool_decide_ext (row_pid r ∈ {[pid]} ∪ s) (row_pid r ∈ s)) by set_solver.
    destruct (bool_decide (row_pid r ∈ s)); simpl; lia.
Qed.

Lemma unvisited_step (s : gset Z) (pid : Z) :
  pid ∉ s ->
  (length (List.filter (fun r => Z.eqb (row_ppid r) pid) rows) + length (unvisited ({[pid]} ∪ s)) = length (unvisited s))%nat.
Proof.
  intros Hn. unfold unvisited. clear ticks_nonneg. induction rows as [|r l IH]; [done|]. cbn [List.filter].
  destruct (Z.eqb_spec (row_ppid r) pid) as [->|Hne].
  - rewrite (bool_decide_eq_false_2 (pid ∉ {[pid]} ∪ s)) by set_solver.
    rewrite (bool_decide_eq_true_2 (pid ∉ s)) by done. simpl. lia.
  - rewrite (bool_decide_ext (row_ppid r ∉ {[pid]} ∪ s) (row_ppid r ∉ s)) by set_solver.
    destruct (bool_decide (row_ppid r ∉ s)); simpl; lia.
Qed.

Lemma tree_loop_spec root fuel stack seen total :
  (forall p, p ∈ seen \/ p ∈ stack -> rtc child root p) ->
  (root ∈ seen \/ root ∈ stack) ->
  (forall p q, p ∈ seen -> child p q -> q ∈ seen \/ q ∈ stack) ->
  total = sat (ticks_of rows seen) ->
  (length stack + length (unvisited seen) < fuel)%nat ->
  exists tree : gset Z, (forall p, p ∈ tree <-> rtc child root p)
    /\ tree_loop fuel rows stack seen total = Some (sat (ticks_of rows tree)).
Proof.
  revert stack seen total. induction fuel as [|fuel IH]; intros stack seen total Hsub Hroot Hcl Ht Hf; [lia|].
  cbn [tree_loop]. destruct stack as [|pid stack].
  { exists seen. split; [|by rewrite Ht]. intros p. split; [by intros; apply Hsub; left|].
    intros Hr. destruct Hroot as [Hroot|Hroot]; [|set_solver].
    clear Hsub IH Ht Hf. induction Hr as [|p q r Hc _ IHr]; [done|]. apply IHr. destruct (Hcl _ _ Hroot Hc); [done | set_solver]. }
  destruct (bool_decide_reflect (pid ∈ seen)) as [Hin|Hnin].
  - apply IH; [..|simpl in Hf; lia]; try done.
    + intros p Hp. apply Hsub. set_solver.
    + set_solver.
    + intros p q Hp Hc. destruct (Hcl p q Hp Hc) as [?|Hq]; [by left|]. apply elem_of_cons in Hq as [->|?]; [by left | by right].
  - rewrite (visit_rows_spec pid rows total _ stack ticks_nonneg Ht).
    assert (Hpush : forall q, q ∈ rev (map row_pid (List.filter (fun r => row_ppid r =? pid) rows)) <-> child pid q).
    { intros q. rewrite list_elem_of_In, <- in_rev, in_map_iff. unfold child.
      split; intros (r & H1 & H2); exists r.
      - apply filter_In in H2 as [H2 H3]. rewrite list_elem_of_In. split_and!; [done|by apply Z.eqb_eq in H3|done].
      - destruct H2 as [H2 H3]. split; [done|]. apply filter_In. rewrite <- list_elem_of_In. split; [done | by apply Z.eqb_eq]. }
    apply IH.
    + intros p Hp. rewrite elem_of_app in Hp. destruct Hp as [Hp|[Hp|Hp]].
      * apply elem_of_union in Hp as [Hp%elem_of_singleton|Hp]; [subst|]; apply Hsub; [right; by left | by left].
      * eapply rtc_r; [apply (Hsub pid); right; by left|]. by apply Hpush.
      * apply Hsub. right. by right.
    + destruct Hroot as [?|Hr%elem_of_cons]; [set_solver|]. destruct Hr as [->|?]; [left; set_solver|].
      right. apply elem_of_app. by right.
    + intros p q Hp Hc. apply elem_of_union in Hp as [Hp%elem_of_singleton|Hp].
      * subst p. right. apply elem_of_app. left. by apply Hpush.
      * destruct (Hcl p q Hp Hc) as [?|Hq%elem_of_cons]; [left; set_solver|].
        destruct Hq as [->|?]; [left; set_solver|]. right. apply elem_of_app. by right.
    + f_equal. by rewrite ticks_of_union.
    + rewrite length_app, length_rev, length_map. pose proof (unvisited_step seen pid Hnin). simpl in Hf. lia.
Qed.

(** The CPU time of the process tree is exactly that of the processes reachable
    from the root through parent links: the stack loop ends, visits no process
    twice even when the listing has cycles or repeated rows, and the total is the
    sum of their ticks, saturated at 64 bits. *)
Theorem process_tree_exact root :
  exists tree : gset Z, (forall p, p ∈ tree <-> rtc child root p)
    /\ sum_process_tree_cpu_ticks root rows = Some (Z.min (ticks_of rows tree) u64_max).
Proof.
  apply tree_loop_spec.
  - intros p [?|Hp%list_elem_of_singleton]; [set_solver|]. by subst.
  - right. by left.
  - set_solver.
  - unfold sat, ticks_of. rewrite (filter_ext_in _ (fun _ => false)).
    + by rewrite List.filter_false.
    + intros r _. by apply bool_decide_eq_false_2.
  - assert (Hle : (length (unvisited ∅) <= length rows)%nat) by apply filter_length_le. simpl. lia.
Qed.
End Tree.

(** A listing with a cycle and a repeated row. *)
Module ConcreteTree.
Definition rows : list proc_row := [mkRow 10 12 3; mkRow 11 10 5; mkRow 12 11 7; mkRow 12 11 1; mkRow 14 99 13].
Lemma rows_nonneg : Forall (fun r => 0 <= row_ticks r) rows.
Proof. repeat (constructor; [simpl; lia|]). constructor. Qed.

Lemma process_tree_exact_witness :
  sum_process_tree_cpu_ticks 10 rows = Some 16
  /\ exists tree : gset Z, (forall p, p ∈ tree <-> rtc (child rows) 10 p)
     /\ sum_process_tree_cpu_ticks 10 rows = Some (Z.min (ticks_of rows tree) u64_max).
Proof. split; [vm_compute; reflexivity|]. exact (process_tree_exact rows rows_nonneg 10). Defined.
End ConcreteTree.

(** ** The limiters *)

(** Where a thread that uses the CPU budget, and possibly an encode slot ([enc]),
    stands in [acquire_media_encode_permit] and [acquire_cpu_budget_permit_blocking]. *)
Inductive lstage : Type :=
| WantEncode
| WantCpu (enc : bool)
| SoftThrottle (enc : bool)
| FirstWait (enc : bool)
| HardThrottle (enc : bool)
| SecondWait (enc : bool)
| Working (enc cpu : bool)
| CpuDropped (enc : bool)
| Over
| Refused.

(** [hard_cap] is [cpu_budget_hard_cap_enabled], the two counters are the states of
    the limiters; [leaked] counts encode slots nobody holds any more. *)
Record limits : Type := mkLimits {
  hard_cap : bool;
  cpu_active : Z;
  enc_active : Z;
  leaked : Z;
  lthreads : list lstage
}.

Section Limits.
Variables cpu_budget concurrency : Z.

(** [cpu_budget_limiter] and [media_encode_limiter]. *)
Definition cpu_max : Z := Z.max cpu_budget 1.
Definition enc_max : Z := Z.max concurrency 1.

Definition holds_cpu (st : lstage) : Z := match st with Working _ true => 1 | _ => 0 end.
Definition b2z (b : bool) : Z := if b then 1 else 0.
Definition holds_enc (st : lstage) : Z :=
  match st with
  | WantCpu enc | SoftThrottle enc | FirstWait enc | HardThrottle enc | SecondWait enc | Working enc _ | CpuDropped enc => b2z enc
  | _ => 0
  end.

(** What one thread does: its next stage and the new counters. *)
Definition saturating_dec (n : Z) : Z := Z.max (n - 1) 0.

Inductive advance (cap : bool) (cpu enc : Z) : lstage -> lstage -> Z -> Z -> Z -> Prop :=
| adv_encode : enc < enc_max -> advance cap cpu enc WantEncode (WantCpu true) cpu (enc + 1) 0
| adv_soft e : cap = false -> advance cap cpu enc (WantCpu e) (SoftThrottle e) cpu enc 0
| adv_hard e : cap = true -> advance cap cpu enc (WantCpu e) (FirstWait e) cpu enc 0
| adv_soft_ok e : advance cap cpu enc (SoftThrottle e) (Working e false) cpu enc 0
| adv_first e : cpu < cpu_max -> advance cap cpu enc (FirstWait e) (HardThrottle e) cpu enc 0
| adv_hard_ok e : advance cap cpu enc (HardThrottle e) (SecondWait e) cpu enc 0
| adv_second e : cpu < cpu_max -> advance cap cpu enc (SecondWait e) (Working e true) (cpu + 1) enc 0
| adv_refused e st : st = SoftThrottle e \/ st = HardThrottle e ->
    advance cap cpu enc st Refused cpu enc (b2z e)
| adv_drop_cpu e c :
    advance cap cpu enc (Working e c) (CpuDropped e) (if c then saturating_dec cpu else cpu) enc 0
| adv_drop_enc e :
    advance cap cpu enc (CpuDropped e) Over cpu (if e then saturating_dec enc else enc) 0.

Inductive limits_step : limits -> limits -> Prop :=
| step_advance s l1 st l2 st' cpu enc lost :
    lthreads s = l1 ++ st :: l2 -> advance (hard_cap s) (cpu_active s) (enc_active s) st st' cpu enc lost ->
    limits_step s (mkLimits (hard_cap s) cpu enc (leaked s + lost) (l1 ++ st' :: l2))
| step_configure s cap :
    limits_step s (mkLimits cap (cpu_active s) (enc_active s) (leaked s) (lthreads s))
| step_arrive s st :
    st = WantEncode \/ st = WantCpu false ->
    limits_step s (mkLimits (hard_cap s) (cpu_active s) (enc_active s) (leaked s) (lthreads s ++ [st])).

Inductive limits_reachable : limits -> Prop :=
| limits_new cap : limits_reachable (mkLimits cap 0 0 0 [])
| limits_next s s' : limits_reachable s -> limits_step s s' -> limits_reachable s'.

Definition count (f : lstage -> Z) (l : list lstage) : Z := sumZ (map f l).

Record limits_inv (s : limits) : Prop := {
  li_cpu : cpu_active s = count holds_cpu (lthreads s);
  li_cpu_max : cpu_active s <= cpu_max;
  li_enc : enc_active s = count holds_enc (lthreads s) + leaked s;
  li_enc_max : enc_active s <= enc_max;
  li_leaked : 0 <= leaked s
}.

Lemma count_mid f l1 st l2 : count f (l1 ++ st :: l2) = f st + count f (l1 ++ l2).
Proof. apply sumZ_mid. Qed.
Lemma count_nonneg f l : (forall st, 0 <= f st) -> 0 <= count f l.
Proof. intros Hf. unfold count. apply sumZ_nonneg. apply Forall_forall. intros z Hz. apply list_elem_of_fmap in Hz as (st & -> & _). done. Qed.
Lemma holds_cpu_nonneg st : 0 <= holds_cpu st.
Proof. destruct st as [| | | | | |enc []| | |]; simpl; lia. Qed.
Lemma holds_enc_nonneg st : 0 <= holds_enc st.
Proof. destruct st as [|[]|[]|[]|[]|[]|[] ?|[]| |]; simpl; lia. Qed.

(** The counters follow the threads through every advance. *)
Lemma advance_counts cap cpu enc st st' cpu' enc' lost restc reste lk :
  advance cap cpu enc st st' cpu' enc' lost ->
  cpu = holds_cpu st + restc -> enc = holds_enc st + reste + lk -> 0 <= restc -> 0 <= reste -> 0 <= lk ->
  cpu <= cpu_max -> enc <= enc_max ->
  cpu' = holds_cpu st' + restc /\ enc' = holds_enc st' + reste + (lk + lost) /\ 0 <= lost
  /\ cpu' <= cpu_max /\ enc' <= enc_max.
Proof.
  intros Ha. destruct Ha as [?|e ?|e ?|e|e ?|e|e ?|e st [->| ->]|e c|e]; simpl; unfold saturating_dec; intros; subst;
    try destruct e; try destruct c; simpl in *; lia.
Qed.

Lemma limits_inv_reachable s : limits_reachable s -> limits_inv s.
Proof.
  induction 1 as [cap|s s' _ [C1 C2 E1 E2 L] Hs].
  { split; simpl; unfold cpu_max, enc_max, count; simpl; lia. }
  destruct Hs as [s l1 st l2 st' cpu enc lost E Ha|s cap|s st Hst].
  - rewrite E, count_mid in C1. rewrite E, count_mid in E1.
    destruct (advance_counts _ _ _ _ _ _ _ _ _ _ _ Ha C1 E1) as (P1 & P2 & P3 & P4 & P5);
      try done; [apply count_nonneg, holds_cpu_nonneg | apply count_nonneg, holds_enc_nonneg|].
    split; simpl; rewrite ?count_mid; lia.
  - by split.
  - split; simpl; try done; unfold count in *; rewrite map_app, sumZ_app; destruct Hst as [->| ->]; simpl; lia.
Qed.

Lemma count_all_zero f l : Forall (fun st => f st = 0) l -> count f l = 0.
Proof. unfold count. induction 1 as [|st l Hst _ IH]; [done|]. simpl. lia. Qed.

(** Stages that wait for nobody, and those that wait for the CPU budget. *)
Definition unblocked (st : lstage) : bool :=
  match st with WantCpu _ | SoftThrottle _ | HardThrottle _ | Working _ _ | CpuDropped _ => true | _ => false end.
Definition waits_cpu (st : lstage) : bool := match st with FirstWait _ | SecondWait _ => true | _ => false end.

Lemma unblocked_advances cap cpu enc st :
  unblocked st = true -> exists st' cpu' enc' lost, advance cap cpu enc st st' cpu' enc' lost.
Proof.
  intros Hu. destruct st as [|e|e|e|e|e|e c|e| |]; try done.
  - destruct cap; eexists _, _, _, _; [by apply adv_hard | by apply adv_soft].
  - eexists _, _, _, _. by apply adv_soft_ok.
  - eexists _, _, _, _. by apply adv_hard_ok.
  - eexists _, _, _, _. by apply adv_drop_cpu.
  - eexists _, _, _, _. by apply adv_drop_enc.
Qed.

Lemma limits_progress s :
  limits_inv s -> leaked s < enc_max ->
  Forall (fun st => st = Over \/ st = Refused) (lthreads s)
  \/ exists l1 st l2 st' cpu enc lost, lthreads s = l1 ++ st :: l2
     /\ advance (hard_cap s) (cpu_active s) (enc_active s) st st' cpu enc lost.
Proof.
  intros [C1 C2 E1 E2 L] Hl.
  destruct (find_split unblocked (lthreads s)) as [(l1 & st & l2 & E & Hu)|Hnu].
  { right. destruct (unblocked_advances (hard_cap s) (cpu_active s) (enc_active s) st Hu) as (st' & c & e & lo & Ha).
    by exists l1, st, l2, st', c, e, lo. }
  rewrite count_all_zero in C1.
  2: { eapply Forall_impl; [exact Hnu|]. by intros [| | | | | |? []| | |]. }
  destruct (find_split waits_cpu (lthreads s)) as [(l1 & st & l2 & E & Hw)|Hnw].
  { right. assert (cpu_active s < cpu_max) by (unfold cpu_max; lia).
    destruct st as [|e|e|e|e|e|e c|e| |]; try done; eexists l1, _, l2, _, _, _, _; (split; [exact E|]);
      [by apply adv_first | by apply adv_second]. }
  rewrite count_all_zero in E1.
  2: { apply Forall_forall. intros st Hst. rewrite Forall_forall in Hnu, Hnw.
       specialize (Hnu st Hst). specialize (Hnw st Hst). by destruct st. }
  destruct (find_split (fun st => match st with WantEncode => true | _ => false end) (lthreads s))
    as [(l1 & st & l2 & E & Hw)|Hne].
  { right. destruct st; try done. eexists l1, _, l2, _, _, _, _. split; [exact E|]. apply adv_encode. lia. }
  left. apply Forall_forall. intros st Hst. rewrite Forall_forall in Hnu, Hnw, Hne.
  specialize (Hnu st Hst). specialize (Hnw st Hst). specialize (Hne st Hst). destruct st; try done; auto.
Qed.

End Limits.

(** ** One encode slot and a throttle that fails *)

Module ConcreteLimits.
(** A thread encodes while another waits for the slot. *)
Definition busy : limits := mkLimits true 1 1 0 [Working true true; WantEncode].

Lemma one_thread b n cap st st' cpu enc lk cpu' enc' lost :
  advance b n cap cpu enc st st' cpu' enc' lost ->
  limits_step b n (mkLimits cap cpu enc lk [st]) (mkLimits cap cpu' enc' (lk + lost) [st']).
Proof. intros Ha. by apply (step_advance b n (mkLimits cap cpu enc lk [st]) [] st []). Qed.

Lemma busy_reachable : limits_reachable 4 1 busy.
Proof.
  apply (limits_next 4 1 (mkLimits true 1 1 0 [Working true true])); [|by apply (step_arrive 4 1 (mkLimits true 1 1 0 [Working true true])); left].
  apply (limits_next 4 1 (mkLimits true 0 1 0 [SecondWait true])); [|by apply (one_thread 4 1 true _ _ 0 1 0 1 1 0), adv_second].
  apply (limits_next 4 1 (mkLimits true 0 1 0 [HardThrottle true])); [|apply (one_thread 4 1 true _ _ 0 1 0 0 1 0), adv_hard_ok].
  apply (limits_next 4 1 (mkLimits true 0 1 0 [FirstWait true])); [|by apply (one_thread 4 1 true _ _ 0 1 0 0 1 0), adv_first].
  apply (limits_next 4 1 (mkLimits true 0 1 0 [WantCpu true])); [|by apply (one_thread 4 1 true _ _ 0 1 0 0 1 0), adv_hard].
  apply (limits_next 4 1 (mkLimits true 0 0 0 [WantEncode])); [|by apply (one_thread 4 1 true _ _ 0 0 0 0 1 0), adv_encode].
  apply (limits_next 4 1 (mkLimits true 0 0 0 [])); [apply limits_new|].
  by apply (step_arrive 4 1 (mkLimits true 0 0 0 [])); left.
Qed.


(** The throttle fails after the slot was taken: the slot is lost, and a later thread
    waits forever although nobody encodes. *)
Definition starved : limits := mkLimits false 0 1 1 [Refused; WantEncode].
Example encode_slot_lost :
  limits_reachable 4 1 starved
  /\ forall l1 st l2 st' cpu enc lost, lthreads starved = l1 ++ st :: l2 ->
       ~ advance 4 1 (hard_cap starved) (cpu_active starved) (enc_active starved) st st' cpu enc lost.
Proof.
  split.
  - apply (limits_next 4 1 (mkLimits false 0 1 1 [Refused])); [|by apply (step_arrive 4 1 (mkLimits false 0 1 1 [Refused])); left].
    apply (limits_next 4 1 (mkLimits false 0 1 0 [SoftThrottle true]));
      [|by apply (one_thread 4 1 false _ _ 0 1 0 0 1 1), (adv_refused _ _ _ _ _ true); left].
    apply (limits_next 4 1 (mkLimits false 0 1 0 [WantCpu true])); [|by apply (one_thread 4 1 false _ _ 0 1 0 0 1 0), adv_soft].
    apply (limits_next 4 1 (mkLimits false 0 0 0 [WantEncode])); [|by apply (one_thread 4 1 false _ _ 0 0 0 0 1 0), adv_encode].
    apply (limits_next 4 1 (mkLimits false 0 0 0 [])); [apply limits_new|].
    by apply (step_arrive 4 1 (mkLimits false 0 0 0 [])); left.
  - intros l1 st l2 st' cpu enc lost E Ha. destruct l1 as [|x [|y l1]]; simpl in E; simplify_eq.
    + inversion Ha as [| | | | | | |e st0 [?|?]| |]; congruence.
    + inversion Ha as [Hlt| | | | | | |e st0 [?|?]| |]; [|congruence..]. vm_compute in Hlt. congruence.
    + destruct l1; done.
Qed.
End ConcreteLimits.
