(* ===== verification/AcbStreaming.v ===== *)
(** * The ACB to HCA pipeline

    [handle_acb_files_streaming] of
    [core/export_pipeline/implementation/media_postprocess.rs]: extraction threads take
    ACB inputs from a queue and send the tracks they find through a bounded channel
    to threads that decode and encode them; the first error stops everybody.  The
    threads interleave freely, so the pipeline is a step relation. *)

From stdpp Require Import relations.
From S2P Require Import Prelude Errors Paths ExportPayload UsmInputs.

Local Open Scope string_scope.
Local Open Scope list_scope.
Local Open Scope Z_scope.

(** The threads, by where their loops stand. *)
Inductive acb_thread (I T : Type) : Type :=
| ACheck
| APop
| AExtract (i : I)
| ASending (tracks : list T)
| AExited
| APanicked (i : I).
Arguments ACheck {I T}. Arguments APop {I T}. Arguments AExtract {I T}. Arguments ASending {I T}.
Arguments AExited {I T}. Arguments APanicked {I T}.

Inductive hca_thread (T : Type) : Type :=
| HCheck
| HRecv
| HProcess (t : T)
| HExited
| HPanicked (t : T).
Arguments HCheck {T}. Arguments HRecv {T}. Arguments HProcess {T}. Arguments HExited {T}. Arguments HPanicked {T}.

(** [AcbTrackExtractionOutput]: files written by the extraction, tracks, and the
    file to remove in the end. *)
Record extraction (T : Type) : Type := mkExtraction {
  x_generated : list path;
  x_tracks : list T;
  x_source : option path
}.
Arguments mkExtraction {T}. Arguments x_generated {T}. Arguments x_tracks {T}. Arguments x_source {T}.

Section Streaming.
Context {I T : Type}.
(** How extracting an input and processing a track may end. *)
Variable extract : I -> result (extraction T) ExportPipelineError -> Prop.
Variable process : T -> result (list path) ExportPipelineError -> Prop.
Variable hca_concurrency acb_concurrency : Z.

(** [queue_capacity]. *)
Definition hca_worker_count : Z := Z.max hca_concurrency 1.
Definition queue_capacity : Z := Z.max (saturating_mul 64 hca_worker_count 2) 1.

(** The shared state; [p_extracted], [p_failed], [p_processed] and [p_lost] record what
    became of the inputs and of the tracks. *)
Record pipeline : Type := mkPipeline {
  p_queue : list I;
  p_channel : list T;
  p_results : list path;
  p_sources : list path;
  p_error : option ExportPipelineError;
  p_acb : list (acb_thread I T);
  p_hca : list (hca_thread T);
  p_extracted : list (I * extraction T);
  p_failed : list I;
  p_processed : list (T * list path);
  p_lost : list T
}.

Definition start_pipeline (inputs : list I) : pipeline :=
  mkPipeline inputs [] [] [] None
    (replicate (Z.to_nat (Z.min (Z.max acb_concurrency 1) (zlen inputs))) ACheck)
    (replicate (Z.to_nat hca_worker_count) HCheck) [] [] [] [].

Definition set_first_error (e : ExportPipelineError) (first : option ExportPipelineError) : option ExportPipelineError :=
  match first with None => Some e | Some _ => first end.

(** All senders are dropped: the extraction threads are gone. *)
Definition sender_gone (th : acb_thread I T) : bool :=
  match th with AExited | APanicked _ => true | _ => false end.
Definition disconnected (s : pipeline) : bool := forallb sender_gone (p_acb s).

Definition set_acb (l : list (acb_thread I T)) (s : pipeline) : pipeline :=
  mkPipeline (p_queue s) (p_channel s) (p_results s) (p_sources s) (p_error s) l (p_hca s)
    (p_extracted s) (p_failed s) (p_processed s) (p_lost s).
Definition set_hca (l : list (hca_thread T)) (s : pipeline) : pipeline :=
  mkPipeline (p_queue s) (p_channel s) (p_results s) (p_sources s) (p_error s) (p_acb s) l
    (p_extracted s) (p_failed s) (p_processed s) (p_lost s).

(** The end of an extraction. *)
Definition end_extract (i : I) (r : result (extraction T) ExportPipelineError) (s : pipeline)
  : acb_thread I T * pipeline :=
  match r with
  | Ok x =>
      (ASending (x_tracks x),
       mkPipeline (p_queue s) (p_channel s) (p_results s ++ x_generated x)
         (p_sources s ++ option_list (x_source x)) (p_error s) (p_acb s) (p_hca s)
         (p_extracted s ++ [(i, x)]) (p_failed s) (p_processed s) (p_lost s))
  | Err e =>
      (AExited,
       mkPipeline (p_queue s) (p_channel s) (p_results s) (p_sources s) (set_first_error e (p_error s))
         (p_acb s) (p_hca s) (p_extracted s) (p_failed s ++ [i]) (p_processed s) (p_lost s))
  end.

(** The end of a track. *)
Definition end_process (t : T) (r : result (list path) ExportPipelineError) (s : pipeline)
  : hca_thread T * pipeline :=
  match r with
  | Ok files =>
      (HCheck, mkPipeline (p_queue s) (p_channel s) (p_results s ++ files) (p_sources s) (p_error s) (p_acb s) (p_hca s)
         (p_extracted s) (p_failed s) (p_processed s ++ [(t, files)]) (p_lost s))
  | Err e =>
      (HExited, mkPipeline (p_queue s) (p_channel s) (p_results s) (p_sources s) (set_first_error e (p_error s))
         (p_acb s) (p_hca s) (p_extracted s) (p_failed s) (p_processed s) (p_lost s ++ [t]))
  end.

(** The steps of the extraction threads. *)
Inductive acb_step : pipeline -> pipeline -> Prop :=
| acb_check s l1 l2 :
    p_acb s = l1 ++ ACheck :: l2 ->
    acb_step s (set_acb (l1 ++ (match p_error s with Some _ => AExited | None => APop end) :: l2) s)
| acb_pop_empty s l1 l2 :
    p_acb s = l1 ++ APop :: l2 -> p_queue s = [] -> acb_step s (set_acb (l1 ++ AExited :: l2) s)
| acb_pop s l1 l2 i rest :
    p_acb s = l1 ++ APop :: l2 -> p_queue s = i :: rest ->
    acb_step s (mkPipeline rest (p_channel s) (p_results s) (p_sources s) (p_error s) (l1 ++ AExtract i :: l2)
                  (p_hca s) (p_extracted s) (p_failed s) (p_processed s) (p_lost s))
| acb_extract s l1 l2 i r th s' :
    p_acb s = l1 ++ AExtract i :: l2 -> extract i r -> end_extract i r s = (th, s') ->
    acb_step s (set_acb (l1 ++ th :: l2) s')
| acb_panic s l1 l2 i :
    p_acb s = l1 ++ AExtract i :: l2 -> acb_step s (set_acb (l1 ++ APanicked i :: l2) s)
| acb_sent_all s l1 l2 :
    p_acb s = l1 ++ ASending [] :: l2 -> acb_step s (set_acb (l1 ++ ACheck :: l2) s)
| acb_send s l1 l2 t ts :
    p_acb s = l1 ++ ASending (t :: ts) :: l2 -> p_error s = None -> zlen (p_channel s) < queue_capacity ->
    acb_step s (mkPipeline (p_queue s) (p_channel s ++ [t]) (p_results s) (p_sources s) (p_error s)
                  (l1 ++ ASending ts :: l2) (p_hca s) (p_extracted s) (p_failed s) (p_processed s) (p_lost s))
| acb_send_stop s l1 l2 t ts :
    p_acb s = l1 ++ ASending (t :: ts) :: l2 -> p_error s <> None ->
    acb_step s (mkPipeline (p_queue s) (p_channel s) (p_results s) (p_sources s) (p_error s)
                  (l1 ++ ACheck :: l2) (p_hca s) (p_extracted s) (p_failed s) (p_processed s) (p_lost s ++ t :: ts)).

(** The steps of the decoding threads. *)
Inductive hca_step : pipeline -> pipeline -> Prop :=
| hca_check s l1 l2 :
    p_hca s = l1 ++ HCheck :: l2 ->
    hca_step s (set_hca (l1 ++ (match p_error s with Some _ => HExited | None => HRecv end) :: l2) s)
| hca_recv s l1 l2 t rest :
    p_hca s = l1 ++ HRecv :: l2 -> p_channel s = t :: rest ->
    hca_step s (mkPipeline (p_queue s) rest (p_results s) (p_sources s) (p_error s) (p_acb s)
                  (l1 ++ HProcess t :: l2) (p_extracted s) (p_failed s) (p_processed s) (p_lost s))
| hca_recv_closed s l1 l2 :
    p_hca s = l1 ++ HRecv :: l2 -> p_channel s = [] -> disconnected s = true ->
    hca_step s (set_hca (l1 ++ HExited :: l2) s)
| hca_process s l1 l2 t r th s' :
    p_hca s = l1 ++ HProcess t :: l2 -> process t r -> end_process t r s = (th, s') ->
    hca_step s (set_hca (l1 ++ th :: l2) s')
| hca_panic s l1 l2 t :
    p_hca s = l1 ++ HProcess t :: l2 -> hca_step s (set_hca (l1 ++ HPanicked t :: l2) s).

Definition pipeline_step (s s' : pipeline) : Prop := acb_step s s' \/ hca_step s s'.

Definition acb_over (th : acb_thread I T) : bool := sender_gone th.
Definition hca_over (th : hca_thread T) : bool := match th with HExited | HPanicked _ => true | _ => false end.
Definition all_over (s : pipeline) : bool := forallb acb_over (p_acb s) && forallb hca_over (p_hca s).

Definition acb_panicked (th : acb_thread I T) : bool := match th with APanicked _ => true | _ => false end.
Definition hca_panicked (th : hca_thread T) : bool := match th with HPanicked _ => true | _ => false end.

(** Joining the threads: the files generated and the sources to remove. *)
Definition join_pipeline (s : pipeline) : result (list path * list path) ExportPipelineError :=
  if existsb acb_panicked (p_acb s) then Err (ExportWorkerPanic "acb track extract" "panicked")
  else if existsb hca_panicked (p_hca s) then Err (ExportWorkerPanic "hca memory export" "panicked")
  else match p_error s with
       | Some e => Err e
       | None => Ok (p_results s, p_sources s)
       end.

(** ** Nothing is lost, nothing runs twice *)

Definition acb_input (th : acb_thread I T) : list I := match th with AExtract i | APanicked i => [i] | _ => [] end.
Definition acb_tracks (th : acb_thread I T) : list T := match th with ASending ts => ts | _ => [] end.
Definition hca_track (th : hca_thread T) : list T := match th with HProcess t | HPanicked t => [t] | _ => [] end.

Definition tracks_of (l : list (I * extraction T)) : list T := concat (map (fun p => x_tracks p.2) l).
Definition generated_of (l : list (I * extraction T)) : list path := concat (map (fun p => x_generated p.2) l).
Definition sources_of (l : list (I * extraction T)) : list path := concat (map (fun p => option_list (x_source p.2)) l).
Definition files_of (l : list (T * list path)) : list path := concat (map snd l).

(** An error that was reported by an extraction or a track of one. *)
Definition explained (inputs : list I) (e : ExportPipelineError) : Prop :=
  (exists i, i ∈ inputs /\ extract i (Err e))
  \/ exists i x t, i ∈ inputs /\ extract i (Ok x) /\ t ∈ x_tracks x /\ process t (Err e).

Record pipeline_inv (inputs : list I) (s : pipeline) : Prop := {
  pi_inputs : inputs ≡ₚ p_queue s ++ concat (map acb_input (p_acb s)) ++ map fst (p_extracted s) ++ p_failed s;
  pi_tracks : tracks_of (p_extracted s) ≡ₚ concat (map acb_tracks (p_acb s)) ++ p_channel s
                ++ concat (map hca_track (p_hca s)) ++ map fst (p_processed s) ++ p_lost s;
  pi_results : p_results s ≡ₚ generated_of (p_extracted s) ++ files_of (p_processed s);
  pi_sources : p_sources s = sources_of (p_extracted s);
  pi_extract : Forall (fun p => extract p.1 (Ok p.2)) (p_extracted s);
  pi_process : Forall (fun p => process p.1 (Ok p.2)) (p_processed s);
  pi_error : match p_error s with
             | None => p_failed s = [] /\ p_lost s = []
             | Some e => explained inputs e
             end;
  pi_acb_exit : AExited ∈ p_acb s -> p_queue s = [] \/ p_error s <> None;
  pi_hca_exit : HExited ∈ p_hca s -> p_error s <> None \/ (p_channel s = [] /\ disconnected s = true)
}.

(** Replacing one thread by another that has not exited. *)
Lemma still_there {A} (x : A) l1 y z l2 : z <> x -> x ∈ l1 ++ z :: l2 -> x ∈ l1 ++ y :: l2.
Proof. intros Hn. rewrite !elem_of_app, !elem_of_cons. intros [?|[<-|?]]; [by left | done | by right; right]. Qed.

(** The error kept is the first one, or is explained by the new one. *)
Lemma error_explained inputs e first (failed : list I) (lost : list T) :
  explained inputs e ->
  match first with None => failed = [] /\ lost = [] | Some e' => explained inputs e' end ->
  match set_first_error e first with None => False | Some e' => explained inputs e' end.
Proof. by destruct first. Qed.

Lemma disconnected_mid l1 th l2 (s : pipeline) :
  p_acb s = l1 ++ th :: l2 -> disconnected s = true -> sender_gone th = true.
Proof. unfold disconnected. intros ->. rewrite forallb_app. simpl. intros [_ [? _]%andb_true_iff]%andb_true_iff. done. Qed.

Lemma acb_step_inv inputs s s' : pipeline_inv inputs s -> acb_step s s' -> pipeline_inv inputs s'.
Proof.
  intros [Pi Pt Pr Ps Pe Pp Pf Pa Ph] Hs.
  assert (Hlive : forall l1 th l2, p_acb s = l1 ++ th :: l2 -> sender_gone th = false ->
    HExited ∈ p_hca s -> p_error s <> None).
  { intros l1 th l2 E Hg Hin. destruct (Ph Hin) as [?|[_ Hd]]; [done|]. apply (disconnected_mid _ _ _ _ E) in Hd. congruence. }
  destruct Hs as [s l1 l2 E|s l1 l2 E Eq|s l1 l2 i rest E Eq|s l1 l2 i r th s' E Hx Ef|s l1 l2 i E|s l1 l2 E
    |s l1 l2 t ts E Ee Hc|s l1 l2 t ts E Ee];
    specialize (Hlive _ _ _ E eq_refl); rewrite E, concat_map_mid in Pi; rewrite E, concat_map_mid in Pt; rewrite E in Pa; simpl in Pi, Pt.
  - split; simpl; rewrite ?concat_map_mid; try done; try (by destruct (p_error s)).
    + destruct (p_error s) eqn:Ee; [by right|]. intros Hin. by apply Pa; eapply still_there; [|exact Hin].
    + intros Hin. left. by apply Hlive.
  - split; simpl; rewrite ?concat_map_mid; try done; [by left|]. intros Hin. left. by apply Hlive.
  - rewrite Eq in Pi, Pa. split; simpl; rewrite ?concat_map_mid; try done.
    + rewrite Pi. simpl. perm_solve.
    + intros Hin. destruct Pa as [|]; [by eapply still_there; [|exact Hin]|done|by right].
    + intros Hin. left. by apply Hlive.
  - destruct r as [x|e]; injection Ef as <- <-.
    + split; simpl; rewrite ?concat_map_mid; simpl; try done.
      * rewrite Pi, (map_app fst). simpl. perm_solve.
      * unfold tracks_of in *. rewrite map_app, concat_app. simpl. rewrite Pt. perm_solve.
      * unfold generated_of in *. rewrite Pr, map_app, concat_app. simpl. perm_solve.
      * unfold sources_of in *. rewrite Ps, map_app, concat_app. simpl. by rewrite app_nil_r.
      * apply Forall_app. split; [done | by constructor].
      * intros Hin. by apply Pa; eapply still_there; [|exact Hin].
      * intros Hin. left. by apply Hlive.
    + assert (He : explained inputs e).
      { left. exists i. split; [|done]. rewrite Pi, !elem_of_app. right. by left. }
      split; simpl; rewrite ?concat_map_mid; simpl; try done.
      * rewrite Pi. perm_solve.
      * apply (error_explained inputs e _ (p_failed s) (p_lost s)) in Pf; [|done]. by destruct (set_first_error e (p_error s)).
      * intros _. right. by destruct (p_error s).
      * intros _. left. by destruct (p_error s).
  - split; simpl; rewrite ?concat_map_mid; simpl; try done.
    + intros Hin. by apply Pa; eapply still_there; [|exact Hin].
    + intros Hin. left. by apply Hlive.
  - split; simpl; rewrite ?concat_map_mid; simpl; try done.
    + intros Hin. by apply Pa; eapply still_there; [|exact Hin].
    + intros Hin. left. by apply Hlive.
  - split; simpl; rewrite ?concat_map_mid; simpl; try done.
    + rewrite Pt. perm_solve.
    + intros Hin. by apply Pa; eapply still_there; [|exact Hin].
    + intros Hin. left. by apply Hlive.
  - split; simpl; rewrite ?concat_map_mid; simpl; try done.
    + rewrite Pt. perm_solve.
    + by destruct (p_error s).
    + intros Hin. by apply Pa; eapply still_there; [|exact Hin].
    + intros Hin. left. by apply Hlive.
Qed.

Lemma hca_step_inv inputs s s' : pipeline_inv inputs s -> hca_step s s' -> pipeline_inv inputs s'.
Proof.
  intros [Pi Pt Pr Ps Pe Pp Pf Pa Ph] Hs.
  destruct Hs as [s l1 l2 E|s l1 l2 t rest E Eq|s l1 l2 E Eq Hd|s l1 l2 t r th s' E Hx Ef|s l1 l2 t E];
    rewrite E, concat_map_mid in Pt; rewrite E in Ph; simpl in Pt.
  - split; simpl; rewrite ?concat_map_mid; try done; try (by destruct (p_error s)).
    destruct (p_error s) eqn:Ee; [by left|]. intros Hin. by apply Ph; eapply still_there; [|exact Hin].
  - rewrite Eq in Pt, Ph. split; simpl; rewrite ?concat_map_mid; simpl; try done.
    + rewrite Pt. perm_solve.
    + intros Hin. destruct Ph as [|[? _]]; [by eapply still_there; [|exact Hin]|by left|done].
  - split; simpl; rewrite ?concat_map_mid; try done. by right.
  - assert (Ht : t ∈ tracks_of (p_extracted s)) by (rewrite Pt, !elem_of_app; right; right; by left).
    destruct r as [files|e]; injection Ef as <- <-; split; simpl; rewrite ?concat_map_mid; simpl; try done.
    + rewrite Pt, (map_app fst). simpl. perm_solve.
    + unfold files_of in *. rewrite Pr, map_app, concat_app. simpl. perm_solve.
    + apply Forall_app. split; [done | by constructor].
    + intros Hin. by apply Ph; eapply still_there; [|exact Hin].
    + rewrite Pt. perm_solve.
    + assert (He : explained inputs e).
      { right. unfold tracks_of in Ht. apply list_elem_of_In, in_concat in Ht as (ts & Hts & Ht).
        apply in_map_iff in Hts as ([i x] & <- & Hix). apply list_elem_of_In in Hix, Ht. rewrite Forall_forall in Pe.
        exists i, x, t. split_and!; [|exact (Pe (i, x) Hix)|exact Ht|done].
        rewrite Pi, !elem_of_app. right. right. left. apply list_elem_of_fmap. by exists (i, x). }
      apply (error_explained inputs e _ (p_failed s) (p_lost s)) in Pf; [|done]. by destruct (set_first_error e (p_error s)).
    + intros Hin. right. by destruct (p_error s).
    + intros _. left. by destruct (p_error s).
  - split; simpl; rewrite ?concat_map_mid; simpl; try done.
    intros Hin. by apply Ph; eapply still_there; [|exact Hin].
Qed.

Lemma start_pipeline_inv inputs : pipeline_inv inputs (start_pipeline inputs).
Proof.
  assert (Ha : forall n, concat (map acb_input (replicate n ACheck)) = []) by (intros n; by induction n).
  assert (Ht : forall n, concat (map acb_tracks (replicate n ACheck)) = []) by (intros n; by induction n).
  assert (Hh : forall n, concat (map hca_track (replicate n HCheck)) = []) by (intros n; by induction n).
  split; simpl; rewrite ?Ha, ?Ht, ?Hh, ?app_nil_r; try done.
  - intros Hin. by apply elem_of_replicate in Hin as [[=] _].
  - intros Hin. by apply elem_of_replicate in Hin as [[=] _].
Qed.

Lemma pipeline_reach_inv inputs s : rtc pipeline_step (start_pipeline inputs) s -> pipeline_inv inputs s.
Proof.
  assert (Hr : forall s0 s, rtc pipeline_step s0 s -> pipeline_inv inputs s0 -> pipeline_inv inputs s).
  { induction 1 as [|s0 s1 s2 [Hs|Hs] _ IH]; intros Hi; [done| |]; apply IH; [by eapply acb_step_inv | by eapply hca_step_inv]. }
  intros Hs. eapply Hr; [done | apply start_pipeline_inv].
Qed.

(** The number of threads does not change. *)
Lemma threads_kept s s' :
  rtc pipeline_step s s' -> length (p_acb s') = length (p_acb s) /\ length (p_hca s') = length (p_hca s).
Proof.
  induction 1 as [|s s1 s2 Hst _ [IH1 IH2]]; [done|]. rewrite IH1, IH2. clear IH1 IH2.
  destruct Hst as [Hs|Hs]; destruct Hs;
    repeat match goal with
    | H : end_extract _ ?r _ = _ |- _ => destruct r; injection H as <- <-
    | H : end_process _ ?r _ = _ |- _ => destruct r; injection H as <- <-
    end; simpl; repeat match goal with H : p_acb _ = _ ++ _ |- _ => rewrite H | H : p_hca _ = _ ++ _ |- _ => rewrite H end;
    rewrite ?length_app; simpl; done.
Qed.

Lemma over_no_panic {A} (over panicked : A -> bool) (exited : A) l :
  (forall x, over x = true -> panicked x = false -> x = exited) ->
  forallb over l = true -> existsb panicked l = false -> Forall (eq exited) l.
Proof.
  intros Hx. induction l as [|x l IH]; intros Ho Hp; [constructor|]. simpl in *.
  apply andb_true_iff in Ho as [Ho1 Ho2]. apply orb_false_iff in Hp as [Hp1 Hp2].
  constructor; [by rewrite (Hx x) | by apply IH].
Qed.

Lemma exited_empty {A B} (f : A -> list B) x l : f x = [] -> Forall (eq x) l -> concat (map f l) = [].
Proof. intros Hf. induction 1 as [|? l <- _ IH]; [done|]. simpl. by rewrite Hf. Qed.


(** ** The pipeline ends *)

(** What is left to extract, and what is left to do with what was extracted. *)
Definition acb_pending (th : acb_thread I T) : nat := match th with AExtract _ => 1 | _ => 0 end.
Definition acb_weight (th : acb_thread I T) : nat :=
  match th with ACheck => 3 | APop => 2 | AExtract _ => 1 | ASending ts => 4 + 6 * length ts | _ => 0 end.
Definition hca_weight (th : hca_thread T) : nat := match th with HCheck => 3 | HRecv => 2 | HProcess _ => 4 | _ => 0 end.
Definition to_extract (s : pipeline) : nat := length (p_queue s) + list_sum (map acb_pending (p_acb s)).
Definition to_do (s : pipeline) : nat :=
  list_sum (map acb_weight (p_acb s)) + 3 * length (p_channel s) + list_sum (map hca_weight (p_hca s)).

Lemma step_weight s s' :
  pipeline_step s s' ->
  (to_extract s' < to_extract s)%nat \/ (to_extract s' = to_extract s /\ (to_do s' < to_do s)%nat).
Proof.
  unfold to_extract, to_do. intros [Hs|Hs]; destruct Hs;
    repeat match goal with
    | H : end_extract _ ?r _ = _ |- _ => destruct r; injection H as <- <-
    | H : end_process _ ?r _ = _ |- _ => destruct r; injection H as <- <-
    end; simpl;
    repeat match goal with H : p_acb _ = _ ++ _ |- _ => rewrite H | H : p_hca _ = _ ++ _ |- _ => rewrite H
      | H : p_queue _ = _ |- _ => rewrite H | H : p_channel _ = _ |- _ => rewrite H end;
    rewrite ?list_sum_mid, ?length_app; simpl; try lia; destruct (p_error s); simpl; lia.
Qed.

Lemma pipeline_terminates s : Acc (fun s' s => pipeline_step s s') s.
Proof.
  remember (to_extract s) as a eqn:Ea. revert s Ea. induction a as [a IHa] using lt_wf_ind.
  intros s. remember (to_do s) as b eqn:Eb. revert s Eb. induction b as [b IHb] using lt_wf_ind.
  intros s Eb Ea. constructor. intros s' Hs. destruct (step_weight _ _ Hs) as [Hlt|[Heq Hlt]].
  - apply (IHa (to_extract s')); [lia | done].
  - apply (IHb (to_do s')); [lia | done | lia].
Qed.

(** Threads that wait for nobody. *)
Definition acb_free (th : acb_thread I T) : bool :=
  match th with ACheck | APop | AExtract _ | ASending [] => true | _ => false end.
Definition hca_free (th : hca_thread T) : bool := match th with HCheck | HProcess _ => true | _ => false end.
Definition is_sending (th : acb_thread I T) : bool := match th with ASending _ => true | _ => false end.
Definition is_recv (th : hca_thread T) : bool := match th with HRecv => true | _ => false end.

Lemma acb_free_steps s l1 th l2 :
  (forall i, i ∈ concat (map acb_input (p_acb s)) -> exists r, extract i r) ->
  p_acb s = l1 ++ th :: l2 -> acb_free th = true -> exists s', acb_step s s'.
Proof.
  intros Ht E Hf. destruct th as [| |i|[|]| |]; try done.
  - eexists. by eapply acb_check.
  - destruct (p_queue s) as [|i rest] eqn:Eq; eexists; [by eapply acb_pop_empty | by eapply acb_pop].
  - destruct (Ht i) as [r Hr]; [rewrite E, concat_map_mid; by left|].
    eexists. eapply acb_extract; [exact E | exact Hr | apply surjective_pairing].
  - eexists. by eapply acb_sent_all.
Qed.

Lemma hca_free_steps s l1 th l2 :
  (forall t, t ∈ concat (map hca_track (p_hca s)) -> exists r, process t r) ->
  p_hca s = l1 ++ th :: l2 -> hca_free th = true -> exists s', hca_step s s'.
Proof.
  intros Ht E Hf. destruct th as [| |t| |]; try done.
  - eexists. by eapply hca_check.
  - destruct (Ht t) as [r Hr]; [rewrite E, concat_map_mid; by left|].
    eexists. eapply hca_process; [exact E | exact Hr | apply surjective_pairing].
Qed.

Lemma recv_steps s l1 th l2 :
  p_hca s = l1 ++ th :: l2 -> is_recv th = true -> p_channel s <> [] \/ disconnected s = true ->
  exists s', hca_step s s'.
Proof.
  intros E Hr Hc. destruct th; try done. destruct (p_channel s) as [|t rest] eqn:Ec.
  - destruct Hc as [?|Hd]; [done|]. eexists. by eapply hca_recv_closed.
  - eexists. by eapply hca_recv.
Qed.

Lemma not_free_hca th : hca_free th = false -> is_recv th = false -> hca_over th = true.
Proof. by destruct th. Qed.

(** A sender that waits: the channel is full, so a receiver can take a track, unless
    all of them have panicked. *)
Lemma sending_steps inputs s l1 th l2 :
  pipeline_inv inputs s -> existsb (fun th => negb (hca_panicked th)) (p_hca s) = true ->
  Forall (fun th => hca_free th = false) (p_hca s) ->
  p_acb s = l1 ++ th :: l2 -> is_sending th = true -> acb_free th = false -> exists s', pipeline_step s s'.
Proof.
  intros [_ _ _ _ _ _ _ _ Ph] Hp Hnf E Hs Hf. destruct th as [| | |[|t ts]| |]; try done.
  destruct (p_error s) as [e|] eqn:Ee; [eexists; left; eapply acb_send_stop; [done | by rewrite Ee]|].
  destruct (Z.lt_ge_cases (zlen (p_channel s)) queue_capacity) as [Hlt|Hge]; [eexists; left; by eapply acb_send|].
  assert (Hc : p_channel s <> []) by (intros Hc; rewrite Hc in Hge; unfold queue_capacity, zlen in Hge; simpl in Hge; lia).
  destruct (find_split is_recv (p_hca s)) as [(h1 & th & h2 & Eh & Hr)|Hnr].
  { destruct (recv_steps _ _ _ _ Eh Hr) as [s' Hs']; [by left|]. exists s'. by right. }
  exfalso. apply existsb_exists in Hp as (th & Hin & Hnp). apply list_elem_of_In in Hin.
  rewrite Forall_forall in Hnf, Hnr. specialize (Hnf th Hin). specialize (Hnr th Hin).
  destruct th; try done. destruct (Ph Hin) as [?|[? _]]; done.
Qed.

(** C32: The pipeline neither deadlocks nor runs forever: from every reachable state no
    infinite run exists, and as long as some thread is not finished, some thread can
    proceed, provided extraction and decoding return and not all decoding threads
    have panicked. *)
Theorem streaming_completes inputs s :
  (forall i, i ∈ inputs -> exists r, extract i r) ->
  (forall t, exists r, process t r) ->
  rtc pipeline_step (start_pipeline inputs) s ->
  existsb (fun th => negb (hca_panicked th)) (p_hca s) = true ->
  Acc (fun s' s => pipeline_step s s') s /\ (all_over s = true \/ exists s', pipeline_step s s').
Proof.
  intros He Hp Hs Hnp. split; [apply pipeline_terminates|].
  pose proof (pipeline_reach_inv inputs s Hs) as Hi.
  assert (He' : forall i, i ∈ concat (map acb_input (p_acb s)) -> exists r, extract i r).
  { intros i Hin. apply He. destruct Hi as [Pi _ _ _ _ _ _ _ _]. rewrite Pi, !elem_of_app. by right; left. }
  destruct (find_split acb_free (p_acb s)) as [(l1 & th & l2 & E & Hf)|Hna].
  { right. destruct (acb_free_steps _ _ _ _ He' E Hf) as [s' ?]. exists s'. by left. }
  destruct (find_split hca_free (p_hca s)) as [(l1 & th & l2 & E & Hf)|Hnh].
  { right. destruct (hca_free_steps s l1 th l2 ltac:(by intros) E Hf) as [s' ?]. exists s'. by right. }
  destruct (find_split is_sending (p_acb s)) as [(l1 & th & l2 & E & Hf)|Hns].
  { right. eapply (sending_steps inputs); [done..|exact E|done|].
    rewrite Forall_forall in Hna. apply Hna. rewrite E. apply elem_of_app. right. by left. }
  assert (Hd : disconnected s = true).
  { unfold disconnected. apply forallb_forall. intros th Hth. apply list_elem_of_In in Hth.
    rewrite Forall_forall in Hna, Hns. specialize (Hna th Hth). specialize (Hns th Hth). by destruct th. }
  destruct (find_split is_recv (p_hca s)) as [(l1 & th & l2 & E & Hf)|Hnr].
  { right. destruct (recv_steps _ _ _ _ E Hf) as [s' ?]; [by right|]. exists s'. by right. }
  left. unfold all_over. apply andb_true_iff. split; [exact Hd|]. apply forallb_forall. intros th Hth.
  apply list_elem_of_In in Hth. rewrite Forall_forall in Hnh, Hnr. by apply not_free_hca; [apply Hnh | apply Hnr].
Qed.
End Streaming.

(** [handle_acb_files_streaming] after the threads are joined: the sources are removed
    only when everything succeeded. *)
Definition finish_streaming {I T : Type} (os_error : os_op -> path -> option io_error) (s : @pipeline I T) (d : disk)
  : disk * result (list path) ExportPipelineError :=
  match join_pipeline s with
  | Err e => (d, Err e)
  | Ok (files, sources) =>
      match remove_sources os_error sources d with
      | (d, Err e) => (d, Err e)
      | (d, Ok _) => (d, Ok files)
      end
  end.

(** ** One bank, one thread of each kind *)

Module ConcreteStreaming.
(** Input 7 has the tracks 1 and 2; track [t] is written to one file. *)
Definition file (t : Z) : path := components (if t =? 1 then "/o/1.wav" else "/o/2.wav").
Definition bank : extraction Z := mkExtraction [] [1; 2] (Some (components "/o/7.acb")).
Definition extract (i : Z) (r : result (extraction Z) ExportPipelineError) : Prop := r = Ok bank.
Definition process (t : Z) (r : result (list path) ExportPipelineError) : Prop := r = Ok [file t].

Definition final : pipeline :=
  mkPipeline [] [] [file 1; file 2] [components "/o/7.acb"] None [AExited] [HExited] [(7, bank)] []
    [(1, [file 1]); (2, [file 2])] [].

(** One step, after which the state is evaluated. *)
Ltac go t := eapply rtc_l; [t; solve [reflexivity | vm_compute; reflexivity]|]; cbn -[file components].

Lemma run_bank : rtc (pipeline_step extract process 1) (start_pipeline 1 1 [7]) final.
Proof.
  go ltac:(left; eapply (acb_check _ _ _ [] [])).
  go ltac:(left; eapply (acb_pop _ _ _ [] [] 7)).
  go ltac:(left; eapply (acb_extract _ _ _ [] [] 7 (Ok bank))).
  go ltac:(left; eapply (acb_send _ _ _ [] [] 1)).
  go ltac:(right; eapply (hca_check _ _ [] [])).
  go ltac:(right; eapply (hca_recv _ _ [] [] 1)).
  go ltac:(left; eapply (acb_send _ _ _ [] [] 2)).
  go ltac:(left; eapply (acb_sent_all _ _ _ [] [])).
  go ltac:(right; eapply (hca_process _ _ [] [] 1 (Ok [file 1]))).
  go ltac:(left; eapply (acb_check _ _ _ [] [])).
  go ltac:(left; eapply (acb_pop_empty _ _ _ [] [])).
  go ltac:(right; eapply (hca_check _ _ [] [])).
  go ltac:(right; eapply (hca_recv _ _ [] [] 2)).
  go ltac:(right; eapply (hca_process _ _ [] [] 2 (Ok [file 2]))).
  go ltac:(right; eapply (hca_check _ _ [] [])).
  go ltac:(right; eapply (hca_recv_closed _ _ [] [])). apply rtc_refl.
Qed.


Lemma streaming_completes_witness :
  all_over final = true
  /\ (all_over (start_pipeline 1 1 [7] : @pipeline Z Z) = true \/ exists s', pipeline_step extract process 1 (start_pipeline 1 1 [7]) s').
Proof.
  split; [reflexivity|].
  apply (streaming_completes extract process 1 1 [7] (start_pipeline 1 1 [7])).
  - intros i _. exists (Ok bank). reflexivity.
  - intros t. exists (Ok [file t]). reflexivity.
  - apply rtc_refl.
  - reflexivity.
Defined.

(** The only decoding thread panics while a bank of four tracks is sent: the channel is
    full and its receiver is still owned by the caller, so the sender never learns. *)
Definition big : extraction Z := mkExtraction [] [1; 2; 3; 4] None.
Definition extract_big (i : Z) (r : result (extraction Z) ExportPipelineError) : Prop := r = Ok big.
Definition stuck : pipeline :=
  mkPipeline [] [2; 3] [] [] None [ASending [4]] [HPanicked 1] [(7, big)] [] [] [].

Example sender_hangs :
  rtc (pipeline_step extract_big process 1) (start_pipeline 1 1 [7]) stuck
  /\ all_over stuck = false /\ forall s', ~ pipeline_step extract_big process 1 stuck s'.
Proof.
  split; [|split; [reflexivity|]].
  - go ltac:(left; eapply (acb_check _ _ _ [] [])).
    go ltac:(left; eapply (acb_pop _ _ _ [] [] 7)).
    go ltac:(left; eapply (acb_extract _ _ _ [] [] 7 (Ok big))).
    go ltac:(left; eapply (acb_send _ _ _ [] [] 1)).
    go ltac:(right; eapply (hca_check _ _ [] [])).
    go ltac:(right; eapply (hca_recv _ _ [] [] 1)).
    go ltac:(right; eapply (hca_panic _ _ [] [] 1)).
    go ltac:(left; eapply (acb_send _ _ _ [] [] 2)).
    go ltac:(left; eapply (acb_send _ _ _ [] [] 3)). apply rtc_refl.
  - assert (Hone : forall A (x y : A) l1 l2, [x] = l1 ++ y :: l2 -> x = y).
    { intros A x y [|? []] l2 Hl; simpl in Hl; congruence. }
    intros s' [Hs|Hs]; inversion Hs as
      [? ? ? E|? ? ? E|? ? ? ? ? E|? ? ? ? ? ? ? E|? ? ? ? E|? ? ? E|? ? ? ? ? E _ Hc|? ? ? ? ? E Hn] ||
      inversion Hs as [? ? ? E|? ? ? ? ? E|? ? ? E|? ? ? ? ? ? ? E|? ? ? ? E]; simpl in E; apply Hone in E; try congruence.
    + vm_compute in Hc. congruence.
    + by apply Hn.
Qed.
End ConcreteStreaming.
