(* ===== verification/Media.v ===== *)
(** * Media conversion

    [core/media.rs] and the parts of [core/codec.rs] the exporter uses: a conversion
    runs in the process through the FFmpeg libraries, through the [ffmpeg] command,
    or through the command after the libraries failed; both are retried.  The
    libraries ([media/ffi.rs]), the [ffmpeg] program and the CRI decoders are
    reached through [MediaEnv]. *)

From stdpp Require Import pretty.
From S2P Require Import Prelude RustStr Errors Retry Config Paths ExportPaths ExportPayload UsmInputs.

Local Open Scope string_scope.
Local Open Scope list_scope.
Local Open Scope Z_scope.
Local Open Scope rust_scope.

Record FrameRate : Type := mkFrameRate { numerator : Z; denominator : Z }.

(** [impl Display for FrameRate]. *)
Definition frame_rate_text (r : FrameRate) : string :=
  if denominator r <=? 1 then pretty (numerator r)
  else pretty (numerator r) +:+ "/" +:+ pretty (denominator r).

(** The functions of [media_ffi], with their last argument the file they write. *)
Inductive ffi_op : Type :=
| FfiUsmToMp4 (usm mp4 : path)
| FfiM2vToMp4 (m2v : path) (rate : option FrameRate) (mp4 : path)
| FfiM2vBytesToMp4 (m2v : bytes) (rate : option FrameRate) (mp4 : path)
| FfiWavToMp3 (wav mp3 : path)
| FfiWavBytesToMp3 (wav : bytes) (mp3 : path)
| FfiHcaBytesToMp3 (hca : bytes) (mp3 : path)
| FfiWavToFlac (wav flac : path)
| FfiWavBytesToFlac (wav : bytes) (flac : path)
| FfiHcaBytesToFlac (hca : bytes) (flac : path).

(** [std::process::Output]. *)
Record command_output : Type := mkOutput { out_success : bool; out_status : string; out_stderr : string }.

(** A stream of a USM and a track of an ACB ([cridecoder]). *)
Record stream : Type := mkStream { s_name : string; s_extension : string; s_data : bytes }.

(** What the conversions get from outside the modelled code. *)
Class MediaEnv := {
  ffi_run : ffi_op -> disk -> result unit ExportPipelineError * disk;
  ffmpeg_run : list string -> disk -> result command_output io_error * disk;
  hca_header : bytes -> result unit string;
  decode_hca : bytes -> result bytes string;
  extract_usm_file : path -> path -> disk -> result (list path) string * disk;
  extract_usm_to_memory : bytes -> string -> bool -> result (list stream) string;
  extract_acb_to_memory : bytes -> path -> result (list stream) string;
  usm_frame_rate : bytes -> option (Z * Z);
  temp_file_path : string -> disk -> result path io_error;
  media_os_error : os_op -> path -> option io_error;
  media_copied : path -> nat
}.

Section Media.
Context `{MediaEnv}.

Abbreviation media_result A := (disk * result A ExportPipelineError)%type.

(** ** Commands *)

Definition ffmpeg_quiet_args : list string := ["-hide_banner"; "-loglevel"; "error"].

Definition is_retryable_command_error (err : ExportPipelineError) : bool :=
  match err with
  | ExportSpawn _ source =>
      match source with
      | Interrupted | WouldBlock => true
      | OtherIo kind => existsb (String.eqb kind)
          ["timed out"; "broken pipe"; "connection reset"; "connection aborted"; "connection refused"]
      | _ => false
      end
  | ExportCommandFailed _ _ _ => true
  | _ => false
  end.

Definition map_command_output (program : string) (output : command_output) : result unit ExportPipelineError :=
  if out_success output then Ok tt
  else Err (ExportCommandFailed program (out_status output) (trim (out_stderr output))).

(** [run_ffmpeg] and [run_ffmpeg_sync]. *)
Definition run_ffmpeg (ffmpeg_path : string) (args : list string) (d : disk) : result unit ExportPipelineError * disk :=
  match ffmpeg_run (ffmpeg_quiet_args ++ args) d with
  | (Err source, d) => (Err (ExportSpawn ffmpeg_path source), d)
  | (Ok output, d) => (map_command_output ffmpeg_path output, d)
  end.

(** [retry_sync] and [retry_async]; the loop always returns ([retried_run]). *)
Definition retried (retry : RetryConfig) (op : disk -> result unit ExportPipelineError * disk) (d : disk)
  : result unit ExportPipelineError * disk :=
  let '(r, d, _) := retry_sync (fun _ => op) is_retryable_command_error retry d in
  (default (Err (ExportMedia "retry loop always returns")) r, d).

Definition retried_ffmpeg (ffmpeg_path : string) (retry : RetryConfig) (args : list string) (d : disk)
  : result unit ExportPipelineError * disk :=
  retried retry (run_ffmpeg ffmpeg_path args) d.

(** [run_media_backend] and [run_media_backend_sync]. *)
Definition run_media_backend (backend : MediaBackend) (retry : RetryConfig) (ffi : ffi_op)
    (cli : disk -> result unit ExportPipelineError * disk) (d : disk) : result unit ExportPipelineError * disk :=
  match backend with
  | BackendCli => cli d
  | BackendFfi => retried retry (ffi_run ffi) d
  | BackendAuto =>
      match retried retry (ffi_run ffi) d with
      | (Ok _, d) => (Ok tt, d)
      | (Err _, d) => cli d
      end
  end.

(** ** Conversions through the command *)

(** [remove_file_if_exists] as the conversions use it. *)
Definition remove_media_file (p : path) (d : disk) : result unit ExportPipelineError * disk :=
  let '(d, r) := remove_export_file_if_exists media_os_error p d in (r, d).

Definition write_cli_input_temp_file (suffix : string) (data : bytes) (d : disk)
  : result path ExportPipelineError * disk :=
  match temp_file_path suffix d with
  | Err source => (Err (ExportIo "/tmp" source), d)
  | Ok p =>
      match media_os_error OpCopy p with
      | Some e => (Err (ExportIo (path_str p) e), d)
      | None => (Ok p, write_file p data d)
      end
  end.

(** Runs a command on a temporary file, which is removed after a success. *)
Definition with_cli_input (suffix : string) (data : bytes) (cmd : path -> disk -> result unit ExportPipelineError * disk)
    (d : disk) : result unit ExportPipelineError * disk :=
  match write_cli_input_temp_file suffix data d with
  | (Err e, d) => (Err e, d)
  | (Ok temp_path, d) =>
      match cmd temp_path d with
      | (Err e, d) => (Err e, d)
      | (Ok _, d) => remove_media_file temp_path d
      end
  end.

Variables (ffmpeg_path : string) (backend : MediaBackend) (retry : RetryConfig).

Definition usm_to_mp4_args (usm mp4 : path) : list string :=
  ["-i"; path_str usm; "-c:v"; "libx264"; "-c:a"; "aac"; "-b:a"; "192k"; "-movflags"; "+faststart"; "-y"; path_str mp4].
Definition rate_args (frame_rate : option FrameRate) : list string :=
  match frame_rate with Some rate => ["-r"; frame_rate_text rate] | None => [] end.
Definition m2v_to_mp4_args (frame_rate : option FrameRate) (m2v mp4 : path) : list string :=
  rate_args frame_rate ++ ["-i"; path_str m2v; "-c:v"; "libx264"] ++ rate_args frame_rate ++ ["-y"; path_str mp4].
Definition wav_to_mp3_args (wav mp3 : path) : list string := ["-i"; path_str wav; "-b:a"; "320k"; "-y"; path_str mp3].
Definition wav_to_flac_args (wav flac : path) : list string :=
  ["-i"; path_str wav; "-compression_level"; "12"; "-y"; path_str flac].

Definition convert_usm_to_mp4_cli (usm mp4 : path) : disk -> result unit ExportPipelineError * disk :=
  retried_ffmpeg ffmpeg_path retry (usm_to_mp4_args usm mp4).

Definition convert_m2v_to_mp4_cli (m2v mp4 : path) (delete_original : bool) (frame_rate : option FrameRate) (d : disk)
  : result unit ExportPipelineError * disk :=
  match retried_ffmpeg ffmpeg_path retry (m2v_to_mp4_args frame_rate m2v mp4) d with
  | (Err e, d) => (Err e, d)
  | (Ok _, d) => if delete_original then remove_media_file m2v d else (Ok tt, d)
  end.

Definition convert_wav_to_mp3_cli (wav mp3 : path) := retried_ffmpeg ffmpeg_path retry (wav_to_mp3_args wav mp3).
Definition convert_wav_to_flac_cli (wav flac : path) := retried_ffmpeg ffmpeg_path retry (wav_to_flac_args wav flac).
Definition convert_wav_bytes_to_mp3_cli (wav : bytes) (mp3 : path) :=
  with_cli_input ".wav" wav (fun temp => convert_wav_to_mp3_cli temp mp3).
Definition convert_wav_bytes_to_flac_cli (wav : bytes) (flac : path) :=
  with_cli_input ".wav" wav (fun temp => convert_wav_to_flac_cli temp flac).

(** [codec::decode_hca_bytes_to_wav_bytes]: opens the decoder, then decodes. *)
Definition decode_hca_bytes_to_wav_bytes (input : bytes) : result bytes ExportPipelineError :=
  result_map_err (fun m => ExportCodec (Hca m))
    (let? _ := hca_header input in decode_hca input).

(** The command on decoded HCA bytes. *)
Definition hca_bytes_cli (hca : bytes) (cli : bytes -> disk -> result unit ExportPipelineError * disk) (d : disk)
  : result unit ExportPipelineError * disk :=
  match decode_hca_bytes_to_wav_bytes hca with
  | Err e => (Err e, d)
  | Ok wav => cli wav d
  end.

(** ** Conversions with a backend *)

Definition convert_usm_to_mp4_with_backend (usm mp4 : path) :=
  run_media_backend backend retry (FfiUsmToMp4 usm mp4) (convert_usm_to_mp4_cli usm mp4).

Definition convert_m2v_to_mp4_with_backend (m2v mp4 : path) (delete_original : bool) (frame_rate : option FrameRate)
    (d : disk) : result unit ExportPipelineError * disk :=
  match run_media_backend backend retry (FfiM2vToMp4 m2v frame_rate mp4)
          (convert_m2v_to_mp4_cli m2v mp4 delete_original frame_rate) d with
  | (Err e, d) => (Err e, d)
  | (Ok _, d) => if delete_original then remove_media_file m2v d else (Ok tt, d)
  end.

Definition convert_m2v_bytes_to_mp4_with_backend (m2v : bytes) (mp4 : path) (frame_rate : option FrameRate) :=
  run_media_backend backend retry (FfiM2vBytesToMp4 m2v frame_rate mp4)
    (with_cli_input ".m2v" m2v (fun temp => convert_m2v_to_mp4_cli temp mp4 false frame_rate)).

Definition convert_wav_to_mp3_with_backend (wav mp3 : path) :=
  run_media_backend backend retry (FfiWavToMp3 wav mp3) (convert_wav_to_mp3_cli wav mp3).
Definition convert_wav_bytes_to_mp3_with_backend (wav : bytes) (mp3 : path) :=
  run_media_backend backend retry (FfiWavBytesToMp3 wav mp3) (convert_wav_bytes_to_mp3_cli wav mp3).
Definition convert_hca_bytes_to_mp3_with_backend (hca : bytes) (mp3 : path) :=
  run_media_backend backend retry (FfiHcaBytesToMp3 hca mp3) (hca_bytes_cli hca (fun wav => convert_wav_bytes_to_mp3_cli wav mp3)).
Definition convert_wav_to_flac_with_backend (wav flac : path) :=
  run_media_backend backend retry (FfiWavToFlac wav flac) (convert_wav_to_flac_cli wav flac).
Definition convert_wav_bytes_to_flac_with_backend (wav : bytes) (flac : path) :=
  run_media_backend backend retry (FfiWavBytesToFlac wav flac) (convert_wav_bytes_to_flac_cli wav flac).
Definition convert_hca_bytes_to_flac_with_backend (hca : bytes) (flac : path) :=
  run_media_backend backend retry (FfiHcaBytesToFlac hca flac) (hca_bytes_cli hca (fun wav => convert_wav_bytes_to_flac_cli wav flac)).
End Media.

(** ** What a conversion does to the disk *)

(** Only [target] may differ; files that exist elsewhere are kept. *)
Definition frame (target : path) (d d' : disk) : Prop :=
  forall q, path_str q <> path_str target -> d_files d' !! q = d_files d !! q.
Definition kept (target : path) (d d' : disk) : Prop :=
  forall q c, path_str q <> path_str target -> d_files d !! q = Some c -> d_files d' !! q = Some c.

Definition target_of (op : ffi_op) : path :=
  match op with
  | FfiUsmToMp4 _ t | FfiM2vToMp4 _ _ t | FfiM2vBytesToMp4 _ _ t | FfiWavToMp3 _ t | FfiWavBytesToMp3 _ t
  | FfiHcaBytesToMp3 _ t | FfiWavToFlac _ t | FfiWavBytesToFlac _ t | FfiHcaBytesToFlac _ t => t
  end.

(** The encoders write their output file and nothing else; [ffmpeg] is told to with
    [-y] and the file as its last argument.  Temporary files have fresh names. *)
Class MediaLaws `{MediaEnv} := {
  ffi_frame : forall op d r d', ffi_run op d = (r, d') -> frame (target_of op) d d';
  ffi_writes : forall op d d', ffi_run op d = (Ok tt, d') -> is_Some (d_files d' !! target_of op);
  ffmpeg_frame : forall args out d r d', ffmpeg_run (args ++ ["-y"; path_str out]) d = (r, d') -> frame out d d';
  ffmpeg_writes : forall args out d o d',
    ffmpeg_run (args ++ ["-y"; path_str out]) d = (Ok o, d') -> out_success o = true -> is_Some (d_files d' !! out);
  temp_fresh : forall suffix d p, temp_file_path suffix d = Ok p ->
    d_files d !! p = None /\ starts_with "/tmp/" (path_str p) = true
}.

Section MediaFacts.
Context `{MediaLaws}.
Abbreviation op_t := (disk -> result unit ExportPipelineError * disk).

Lemma frame_refl t d : frame t d d.
Proof. by intros q _. Qed.
Lemma frame_trans t d1 d2 d3 : frame t d1 d2 -> frame t d2 d3 -> frame t d1 d3.
Proof. intros H1 H2 q Hq. by rewrite H2, H1. Qed.
Lemma frame_kept t d d' : frame t d d' -> kept t d d'.
Proof. intros Hf q c Hq Hc. by rewrite Hf. Qed.
Lemma kept_trans t d1 d2 d3 : kept t d1 d2 -> kept t d2 d3 -> kept t d1 d3.
Proof. intros H1 H2 q c Hq Hc. by apply H2, H1. Qed.

(** [op] writes [t]: framed whatever happens, and there after a success. *)
Definition writes (t : path) (op : op_t) : Prop :=
  forall d r d', op d = (r, d') -> frame t d d' /\ (r = Ok tt -> is_Some (d_files d' !! t)).
(** The same, except that a failure may leave a new file behind. *)
Definition converts (t : path) (op : op_t) : Prop :=
  forall d r d', op d = (r, d') -> kept t d d' /\ (r = Ok tt -> frame t d d' /\ is_Some (d_files d' !! t)).

Lemma writes_converts t op : writes t op -> converts t op.
Proof. intros Hw d r d' E. destruct (Hw d r d' E) as [Hf Ht]. split; [by apply frame_kept|]. intros Hr. split; [done | by apply Ht]. Qed.

(** Retrying ends with the last attempt. *)
Lemma retried_run retry (op : op_t) d :
  exists k r d', retried retry op d = (r, d')
    /\ attempt_run (fun _ => op) is_retryable_command_error (Z.max (attempts retry) 1) 1 d k r d'
    /\ Z.of_nat k < Z.max (attempts retry) 1.
Proof.
  unfold retried, retry_sync.
  destruct (retry_loop_run (fun _ => op) is_retryable_command_error retry (Z.max (attempts retry) 1) 1
    (Z.to_nat (Z.max (attempts retry) 1)) d) as (r & d' & ds & -> & Hrun & _ & Hl); [lia..|].
  exists (length ds), r, d'. split_and!; [done | done | lia].
Qed.

Lemma retried_writes t retry op : writes t op -> writes t (retried retry op).
Proof.
  intros Hw d r d' E. destruct (retried_run retry op d) as (k & r0 & d0 & E0 & Hrun & _). rewrite E0 in E. injection E as -> ->.
  clear E0. induction Hrun as [a d v d' E|a d e d' E _|a d e d1 k r d' E _ _ _ [IH1 IH2]].
  - apply Hw in E as [? Hok]. split; [done|]. intros Hr. apply Hok. by destruct v.
  - apply Hw in E as [? _]. split; [done|]. intros [=].
  - apply Hw in E as [? _]. split; [by eapply frame_trans|]. done.
Qed.

Lemma ffi_op_writes op : writes (target_of op) (ffi_run op).
Proof. intros d r d' E. split; [by eapply ffi_frame|]. intros ->. by eapply ffi_writes. Qed.

Lemma ffmpeg_writes_target program args out : writes out (run_ffmpeg program (args ++ ["-y"; path_str out])).
Proof.
  intros d r d' E. unfold run_ffmpeg in E. rewrite app_assoc in E.
  destruct (ffmpeg_run _ d) as [[o|e] d1] eqn:Er; injection E as <- <-.
  - split; [by eapply ffmpeg_frame|]. unfold map_command_output. destruct (out_success o) eqn:Es; [|done].
    intros _. by eapply ffmpeg_writes.
  - split; [by eapply ffmpeg_frame | done].
Qed.

Lemma backend_converts backend retry ffi cli :
  converts (target_of ffi) cli -> converts (target_of ffi) (run_media_backend backend retry ffi cli).
Proof.
  intros Hc d r d' E. pose proof (retried_writes _ retry _ (ffi_op_writes ffi)) as Hf.
  destruct backend; cbn [run_media_backend] in E.
  - destruct (retried retry (ffi_run ffi) d) as [[[]|e] d1] eqn:E1; apply Hf in E1 as [F1 T1].
    + injection E as <- <-. split; [by apply frame_kept|]. intros _. split; [done | by apply T1].
    + apply Hc in E as [K Hok]. split; [eapply kept_trans; [by apply frame_kept | done]|].
      intros Hr. destruct (Hok Hr) as [F2 T2]. split; [by eapply frame_trans | done].
  - by apply (writes_converts _ _ Hf).
  - by apply Hc.
Qed.

(** A temporary input: removed after a success, left behind by a failure. *)
Lemma cli_input_converts t suffix data cmd :
  starts_with "/tmp/" (path_str t) = false ->
  (forall temp, writes t (cmd temp)) -> converts t (with_cli_input suffix data cmd).
Proof.
  intros Ht Hw d r d' E. unfold with_cli_input, write_cli_input_temp_file in E.
  destruct (temp_file_path suffix d) as [temp|e] eqn:Et; [|injection E as <- <-; split; [by intros q c _ ?|done]].
  apply temp_fresh in Et as [Hfresh Htmp].
  destruct (media_os_error OpCopy temp) as [e|]; [injection E as <- <-; split; [by intros q c _ ?|done]|].
  assert (Hk : kept t d (write_file temp data d)).
  { intros q c _ Hc. simpl. rewrite lookup_insert_ne; [done|]. congruence. }
  destruct (cmd temp (write_file temp data d)) as [[[]|e] d1] eqn:Ec; apply Hw in Ec as [F1 T1].
  - unfold remove_media_file, remove_export_file_if_exists in E.
    destruct (media_os_error OpRemove temp) as [e|]; injection E as <- <-.
    + split; [|done]. eapply kept_trans; [exact Hk | by apply frame_kept].
    + split.
      * intros q c Hq Hc. simpl. rewrite lookup_delete_ne by congruence. by apply (kept_trans t _ _ _ Hk (frame_kept _ _ _ F1)).
      * intros _. destruct (T1 eq_refl) as [x Hx]. split.
        -- intros q Hq. simpl. destruct (decide (q = temp)) as [->|Hne].
           ++ by rewrite lookup_delete_eq, Hfresh.
           ++ rewrite lookup_delete_ne by done. rewrite F1 by done. simpl. by rewrite lookup_insert_ne.
        -- exists x. simpl. rewrite lookup_delete_ne; [done|]. intros ->. congruence.
  - injection E as <- <-. split; [|done]. eapply kept_trans; [exact Hk | by apply frame_kept].
Qed.
End MediaFacts.
