(* ===== verification/MediaPostProcess.v ===== *)
(** * Post-processing of exported media

    [core/export_pipeline/implementation/media_postprocess.rs]: what is done with one
    HCA track, one ACB bank and one USM file.  The limits on concurrent encodes are
    in [CpuLimits], the threads over many tracks in [AcbStreaming] and
    [ExportTasks]. *)

From S2P Require Import Prelude RustStr Errors Retry Config Paths ExportPaths ExportPayload.
From S2P Require Import UsmInputs AcbStreaming Media.

Local Open Scope string_scope.
Local Open Scope list_scope.
Local Open Scope Z_scope.
Local Open Scope rust_scope.

(** The options of the region and of the backends. *)
Record media_options : Type := mkMediaOptions {
  audio_formats : list AudioOutputFormat;
  video_formats : list VideoOutputFormat;
  direct_mp4 : bool;
  hca_decode : bool;
  acb_export : bool;
  acb_decode : bool;
  usm_export : bool;
  usm_decode : bool;
  opt_ffmpeg_path : string;
  opt_backend : MediaBackend;
  opt_retry : RetryConfig
}.

Definition audio_output_formats (o : media_options) : list AudioOutputFormat := dedupe_formats [] (audio_formats o).
Definition video_output_formats (o : media_options) : list VideoOutputFormat := dedupe_formats [] (video_formats o).
Definition has_format {A} `{EqDecision A} (f : A) (l : list A) : bool := existsb (fun g => bool_decide (f = g)) l.
Definition writes_m2v (o : media_options) : bool := has_format M2v (video_output_formats o).
Definition writes_mp4 (o : media_options) : bool := has_format Mp4 (video_output_formats o).

Definition ends_with (suffix s : string) : bool := match strip_suffix suffix s with Some _ => true | None => false end.

(** [codec::has_usm_magic] and [codec::file_has_usm_magic]. *)
Definition has_usm_magic (data : bytes) : bool := bool_decide (take 4 data = as_bytes "CRID").

Section PostProcess.
Context `{UnicodeCase} `{MediaEnv}.
Variable o : media_options.
(** [acquire_cpu_budget_permit_blocking] and [acquire_media_encode_permit] before the
    work on a file: they only fail when the throttle cannot measure. *)
Variable acquire : path -> result unit ExportPipelineError.

Abbreviation media_result A := (disk * result A ExportPipelineError)%type.

Definition os_write (p : path) (data : bytes) (d : disk) : media_result unit :=
  match media_os_error OpCreate p, media_os_error OpCopy p with
  | Some e, _ => (d, Err (ExportIo (path_str p) e))
  | None, Some e => (write_file p (take (media_copied p) data) d, Err (ExportIo (path_str p) e))
  | None, None => (write_file p data d, Ok tt)
  end.

Definition file_has_usm_magic (p : path) (d : disk) : result bool ExportPipelineError :=
  match media_os_error OpOpen p, d_files d !! p with
  | Some e, _ => Err (ExportCodec (CodecIo (path_str p) e))
  | None, None => Err (ExportCodec (CodecIo (path_str p) NotFound))
  | None, Some data => Ok (has_usm_magic data)
  end.

(** ** HCA tracks *)

(** [codec::decode_hca_bytes_to_wav]: a failure while decoding leaves the file. *)
Definition decode_hca_bytes_to_wav (input : bytes) (output : path) (d : disk) : media_result unit :=
  match hca_header input with
  | Err m => (d, Err (ExportCodec (Hca m)))
  | Ok _ =>
      match media_os_error OpCreate output with
      | Some e => (d, Err (ExportCodec (CodecIo (path_str output) e)))
      | None =>
          match decode_hca input with
          | Err m => (write_file output [] d, Err (ExportCodec (Hca m)))
          | Ok wav => (write_file output wav d, Ok tt)
          end
      end
  end.

(** One encode with its slot: the target is generated. *)
Definition encode (target : path) (op : disk -> result unit ExportPipelineError * disk) (d : disk) : media_result (list path) :=
  match acquire target with
  | Err e => (d, Err e)
  | Ok _ => let '(r, d) := op d in
            (d, match r with Ok _ => Ok [target] | Err e => Err e end)
  end.

(** Runs two parts after each other, collecting their files. *)
Definition and_then (first second : disk -> media_result (list path)) (d : disk) : media_result (list path) :=
  match first d with
  | (d, Err e) => (d, Err e)
  | (d, Ok files) =>
      match second d with
      | (d, Err e) => (d, Err e)
      | (d, Ok more) => (d, Ok (files ++ more))
      end
  end.

Definition nothing (d : disk) : media_result (list path) := (d, Ok []).

Definition to_mp3 (wav_bytes : option bytes) (track : stream) (mp3 : path) : disk -> result unit ExportPipelineError * disk :=
  match wav_bytes with
  | Some wav => convert_wav_bytes_to_mp3_with_backend (opt_ffmpeg_path o) (opt_backend o) (opt_retry o) wav mp3
  | None => convert_hca_bytes_to_mp3_with_backend (opt_ffmpeg_path o) (opt_backend o) (opt_retry o) (s_data track) mp3
  end.
Definition to_flac (wav_bytes : option bytes) (track : stream) (flac : path) : disk -> result unit ExportPipelineError * disk :=
  match wav_bytes with
  | Some wav => convert_wav_bytes_to_flac_with_backend (opt_ffmpeg_path o) (opt_backend o) (opt_retry o) wav flac
  | None => convert_hca_bytes_to_flac_with_backend (opt_ffmpeg_path o) (opt_backend o) (opt_retry o) (s_data track) flac
  end.

(** The MP3 and then the FLAC. *)
Definition encode_audio (dir : path) (track : stream) (encode_mp3 encode_flac : bool) (wav_bytes : option bytes)
  : disk -> media_result (list path) :=
  let mp3 := join_str dir (s_name track +:+ ".mp3") in
  let flac := join_str dir (s_name track +:+ ".flac") in
  and_then (if encode_mp3 then encode mp3 (to_mp3 wav_bytes track mp3) else nothing)
           (if encode_flac then encode flac (to_flac wav_bytes track flac) else nothing).

Definition write_output (target : path) (data : bytes) (d : disk) : media_result (list path) :=
  let '(d, r) := os_write target data d in
  (d, match r with Ok _ => Ok [target] | Err e => Err e end).

(** What follows the choice of formats. *)
Definition process_formats (dir : path) (track : stream) (keep_wav encode_mp3 encode_flac : bool) (d : disk)
  : media_result (list path) :=
  let needs_wav_bytes := (keep_wav && (encode_mp3 || encode_flac)) || (encode_mp3 && encode_flac) in
  let wav_file := join_str dir (s_name track +:+ ".wav") in
  if keep_wav && negb encode_mp3 && negb encode_flac
  then encode wav_file (fun d => let '(d, r) := decode_hca_bytes_to_wav (s_data track) wav_file d in (r, d)) d
  else if negb encode_mp3 && negb encode_flac then (d, Ok [])
  else if needs_wav_bytes then
    match acquire wav_file with
    | Err e => (d, Err e)
    | Ok _ =>
        match decode_hca_bytes_to_wav_bytes (s_data track) with
        | Err e => (d, Err e)
        | Ok wav_bytes =>
            and_then (if keep_wav then write_output wav_file wav_bytes else nothing)
                     (encode_audio dir track encode_mp3 encode_flac (Some wav_bytes)) d
        end
    end
  else encode_audio dir track encode_mp3 encode_flac None d.

Definition process_hca_track (dir : path) (track : stream) (d : disk) : media_result (list path) :=
  if negb (eq_ignore_ascii_case (s_extension track) "hca")
  then write_output (join_str dir (s_name track +:+ "." +:+ s_extension track)) (s_data track) d
  else
    let formats := audio_output_formats o in
    if bool_decide (formats = []) then (d, Ok [])
    else process_formats dir track (has_format Wav formats) (has_format Mp3 formats) (has_format Flac formats) d.

(** ** ACB banks *)

Definition should_keep_music_long_hca_track (name ext : string) : bool :=
  let lower := str_to_lowercase (name +:+ "." +:+ ext) in
  negb (ends_with "_vr.hca" lower || ends_with "_screen.hca" lower).

(** [extract_acb_tracks_from_reader]: the directory of the tracks and what was found. *)
Definition extract_acb_tracks_from_reader (root : path) (data : bytes) (source_hint : path) (source_file : option path)
  : result (path * extraction stream) ExportPipelineError :=
  let dir := default root (path_parent source_hint) in
  let? tracks := result_map_err (fun m => ExportCodec (Acb m)) (extract_acb_to_memory data source_hint) in
  let acb_path_lower := str_to_lowercase (replace "\" "/" (path_str source_hint)) in
  let tracks :=
    if contains "music/long" acb_path_lower
    then List.filter (fun t => should_keep_music_long_hca_track (s_name t) (s_extension t)) tracks
    else tracks in
  Ok (dir, mkExtraction [] (if hca_decode o then tracks else []) source_file).

Inductive AcbExtractionInput : Type := AcbFile (p : path) | AcbMemory (target : path) (payload : bytes).

Definition acb_extraction_inputs (files : list path) (sources : list (path * bytes)) : list AcbExtractionInput :=
  map AcbFile files ++ map (fun s => AcbMemory s.1 s.2) sources.

(** [extract_acb_tracks_from_input]. *)
Definition extract_acb_tracks_from_input (root : path) (input : AcbExtractionInput) (d : disk)
  : result (path * extraction stream) ExportPipelineError :=
  match input with
  | AcbFile p =>
      match media_os_error OpOpen p, d_files d !! p with
      | Some e, _ => Err (ExportIo (path_str p) e)
      | None, None => Err (ExportIo (path_str p) NotFound)
      | None, Some data => extract_acb_tracks_from_reader root data p (Some p)
      end
  | AcbMemory target payload => extract_acb_tracks_from_reader root payload target None
  end.

(** ** USM files *)

(** [codec::normalize_usm_output_names]: every output is renamed after the input. *)
Fixpoint normalize_usm_output_names (stem : string) (outputs : list path) (d : disk) : media_result (list path) :=
  match outputs with
  | [] => (d, Ok [])
  | output :: rest =>
      match extension output with
      | None => (d, Err (ExportCodec (NonUtf8Path (path_str output))))
      | Some ext =>
          let target := with_file_name output (stem +:+ "." +:+ ext) in
          let renamed :=
            if bool_decide (output = target) then (d, Ok tt)
            else match media_os_error OpCreate target, d_files d !! output with
                 | Some e, _ => (d, Err (ExportCodec (CodecIo (path_str target) e)))
                 | None, None => (d, Err (ExportCodec (CodecIo (path_str target) NotFound)))
                 | None, Some data => (mkDisk (<[target := data]> (delete output (d_files d))) (d_dirs d), Ok tt)
                 end in
          match renamed with
          | (d, Err e) => (d, Err e)
          | (d, Ok _) =>
              match normalize_usm_output_names stem rest d with
              | (d, Err e) => (d, Err e)
              | (d, Ok more) => (d, Ok (target :: more))
              end
          end
      end
  end.

(** [codec::export_usm]. *)
Definition export_usm (input dir : path) (d : disk) : media_result (list path) :=
  match extract_usm_file input dir d with
  | (Err m, d) => (d, Err (ExportCodec (Usm m)))
  | (Ok outputs, d) =>
      match file_stem input with
      | None => (d, Err (ExportCodec (NonUtf8Path (path_str input))))
      | Some stem => normalize_usm_output_names stem outputs d
      end
  end.

Definition usm_input_has_crid_magic (input : UsmProcessingInput) (d : disk) : result bool ExportPipelineError :=
  match input with
  | UsmPath p => file_has_usm_magic p d
  | UsmBytes _ _ _ data _ => Ok (has_usm_magic data)
  end.

Fixpoint write_usm_streams (dir : path) (streams : list stream) (d : disk) : media_result (list path) :=
  match streams with
  | [] => (d, Ok [])
  | s :: rest =>
      and_then (write_output (join_str dir (s_name s +:+ "." +:+ s_extension s)) (s_data s))
               (write_usm_streams dir rest) d
  end.

Definition is_m2v (ext : string) : bool := eq_ignore_ascii_case ext "m2v".
Definition m2v_path (p : path) : bool := match extension p with Some e => is_m2v e | None => false end.

(** The loop over the extracted files: every M2V is encoded; unless M2V files are
    wanted they are removed and no longer listed. *)
Fixpoint convert_extracted (mp4 : path) (rate : option FrameRate) (extracted generated : list path) (d : disk)
  : media_result (list path) :=
  match extracted with
  | [] => (d, Ok generated)
  | f :: rest =>
      if m2v_path f then
        match acquire mp4 with
        | Err e => (d, Err e)
        | Ok _ =>
            match convert_m2v_to_mp4_with_backend (opt_ffmpeg_path o) (opt_backend o) (opt_retry o) f mp4
                    (negb (writes_m2v o)) rate d with
            | (Err e, d) => (d, Err e)
            | (Ok _, d) =>
                let generated := generated ++ [mp4] in
                let generated := if writes_m2v o then generated else List.filter (fun p => negb (bool_decide (p = f))) generated in
                convert_extracted mp4 rate rest generated d
            end
        end
      else convert_extracted mp4 rate rest generated d
  end.

Definition then_cleanup (input : UsmProcessingInput) (r : media_result (list path)) : media_result (list path) :=
  match r with
  | (d, Err e) => (d, Err e)
  | (d, Ok files) =>
      match cleanup_sources media_os_error input d with
      | (d, Err e) => (d, Err e)
      | (d, Ok _) => (d, Ok files)
      end
  end.

Definition frame_rate_of (input : UsmProcessingInput) (d : disk) : option FrameRate :=
  match input with
  | UsmPath p =>
      match d_files d !! p ≫= usm_frame_rate with
      | Some (n, den) => if 0 <? den then Some (mkFrameRate n den) else None
      | None => None
      end
  | UsmBytes _ _ _ _ _ => None
  end.

(** The branches for USM data in memory. *)
Definition process_usm_bytes (name fallback : string) (data : bytes) (dir : path) (d : disk) : media_result (list path) :=
  let mp4 := join_str dir (name +:+ ".mp4") in
  let encode_m2v := fun video : stream =>
    encode mp4 (convert_m2v_bytes_to_mp4_with_backend (opt_ffmpeg_path o) (opt_backend o) (opt_retry o) (s_data video) mp4 None) in
  let usm_error := fun m => ExportCodec (Usm m) in
  let with_streams := fun d =>
    match extract_usm_to_memory data fallback true with
    | Err m => (d, Err (usm_error m))
    | Ok streams =>
        match write_usm_streams dir streams d with
        | (d, Err e) => (d, Err e)
        | (d, Ok generated) =>
            match (if writes_mp4 o then find (fun s => is_m2v (s_extension s)) streams else None) with
            | None => (d, Ok generated)
            | Some video =>
                match encode_m2v video d with
                | (d, Err e) => (d, Err e)
                | (d, Ok more) =>
                    let generated := generated ++ more in
                    if writes_m2v o then (d, Ok generated)
                    else
                      let generated := List.filter (fun p => negb (m2v_path p)) generated in
                      match remove_export_file_if_exists media_os_error (join_str dir (s_name video +:+ ".m2v")) d with
                      | (d, Err e) => (d, Err e)
                      | (d, Ok _) => (d, Ok generated)
                      end
                end
            end
        end
    end in
  if writes_mp4 o && negb (writes_m2v o) then
    match extract_usm_to_memory data fallback false with
    | Err m => (d, Err (usm_error m))
    | Ok streams =>
        match find (fun s => is_m2v (s_extension s)) streams with
        | Some video => encode_m2v video d
        | None => with_streams d
        end
    end
  else with_streams d.

(** [process_usm_input_with_metrics], the files generated. *)
Definition process_usm_input (input : UsmProcessingInput) (dir : path) (d : disk) : media_result (list path) :=
  match output_name input with
  | Err e => (d, Err e)
  | Ok name =>
      match usm_input_has_crid_magic input d with
      | Err e => (d, Err e)
      | Ok false =>
          match input with
          | UsmPath p => (d, Ok [p])
          | UsmBytes _ _ _ _ _ => then_cleanup input (d, Ok [])
          end
      | Ok true =>
          let mp4 := join_str dir (name +:+ ".mp4") in
          match input with
          | UsmPath p =>
              if writes_mp4 o && negb (writes_m2v o) && direct_mp4 o
              then then_cleanup input
                     (encode mp4 (convert_usm_to_mp4_with_backend (opt_ffmpeg_path o) (opt_backend o) (opt_retry o) p mp4) d)
              else
                let rate := frame_rate_of input d in
                then_cleanup input
                  match export_usm p dir d with
                  | (d, Err e) => (d, Err e)
                  | (d, Ok extracted) =>
                      if writes_mp4 o then convert_extracted mp4 rate extracted extracted d else (d, Ok extracted)
                  end
          | UsmBytes _ _ fallback data _ => then_cleanup input (process_usm_bytes name fallback data dir d)
          end
      end
  end.
End PostProcess.

(** ** What a track and a video leave on disk *)

Section PostProcessFacts.
Context `{UnicodeCase} `{MediaLaws}.
Variable o : media_options.
Variable acquire : path -> result unit ExportPipelineError.

Abbreviation part := (disk -> disk * result (list path) ExportPipelineError)%type.

(** None of [ts] is [q]. *)
Definition apart (q : path) (ts : list path) : Prop := Forall (fun t => path_str q <> path_str t) ts.

(** A part that generates exactly [ts]: existing files elsewhere are kept in any case;
    on success the files are there and nothing else changed. *)
Definition produces (ts : list path) (p : part) : Prop :=
  forall d d' r, p d = (d', r) ->
    (forall q c, apart q ts -> d_files d !! q = Some c -> d_files d' !! q = Some c)
    /\ forall files, r = Ok files ->
         files = ts /\ Forall (fun t => is_Some (d_files d' !! t)) ts
         /\ forall q, apart q ts -> d_files d' !! q = d_files d !! q.

Lemma produces_nothing : produces [] nothing.
Proof. intros d d' r E. injection E as <- <-. split; [done|]. intros files [= <-]. by split_and!. Qed.

Lemma produces_encode t op : converts t op -> produces [t] (encode acquire t op).
Proof.
  intros Hc d d' r E. unfold encode in E. destruct (acquire t); [|injection E as <- <-; by split].
  destruct (op d) as [r0 d1] eqn:Eo. apply Hc in Eo as [Hk Hok]. injection E as <- <-.
  split; [intros q c Hq; inversion Hq; subst; by apply Hk|].
  intros files Hf. destruct r0 as [[]|]; [|done]. injection Hf as <-. destruct (Hok eq_refl) as [Hfr Hs].
  split_and!; [done | by constructor|]. intros q Hq. inversion Hq; subst. by apply Hfr.
Qed.

Lemma produces_write t data : produces [t] (write_output t data).
Proof.
  intros d d' r E. unfold write_output, os_write in E.
  destruct (media_os_error OpCreate t); [injection E as <- <-; by split|].
  assert (Hw : forall data' q, apart q [t] -> d_files (write_file t data' d) !! q = d_files d !! q).
  { intros data' q Hq. inversion Hq; subst. simpl. rewrite lookup_insert_ne; [done | congruence]. }
  destruct (media_os_error OpCopy t); injection E as <- <-; (split; [intros q c Hq Hd; by rewrite Hw|]); [done|].
  intros files [= <-]. split_and!; [done| |by apply Hw]. constructor; [|done]. simpl. rewrite lookup_insert_eq. by eexists.
Qed.

Lemma produces_then ts1 ts2 p1 p2 :
  Forall (fun t => apart t ts2) ts1 -> produces ts1 p1 -> produces ts2 p2 -> produces (ts1 ++ ts2) (and_then p1 p2).
Proof.
  intros Hdis Hp1 Hp2 d d' r E. unfold and_then in E.
  destruct (p1 d) as [d1 [files1|e]] eqn:E1; apply Hp1 in E1 as [K1 O1].
  - destruct (O1 _ eq_refl) as (-> & X1 & F1). destruct (p2 d1) as [d2 [files2|e]] eqn:E2; apply Hp2 in E2 as [K2 O2]; injection E as <- <-.
    + destruct (O2 _ eq_refl) as (-> & X2 & F2). split.
      * intros q c Hq Hc. apply Forall_app in Hq as [Hq1 Hq2]. by apply K2, K1.
      * intros files [= <-]. split; [done|]. split.
        -- apply Forall_app. split; [|done]. apply Forall_forall. intros t Ht. rewrite Forall_forall in X1, Hdis.
           destruct (X1 t Ht) as [c Hc]. exists c. apply K2; [by apply Hdis | done].
        -- intros q Hq. apply Forall_app in Hq as [Hq1 Hq2]. by rewrite F2, F1.
    + split; [|done]. intros q c Hq Hc. apply Forall_app in Hq as [Hq1 Hq2]. by apply K2, K1.
  - injection E as <- <-. split; [|done]. intros q c Hq Hc. apply Forall_app in Hq as [Hq1 _]. by apply K1.
Qed.

(** *** Audio *)

(** A directory whose files are not temporary files. *)
Definition not_temp (t : path) : Prop := starts_with "/tmp/" (path_str t) = false.

Lemma retried_ffmpeg_writes program args out :
  writes out (retried_ffmpeg program (opt_retry o) (args ++ ["-y"; path_str out])).
Proof. apply retried_writes, ffmpeg_writes_target. Qed.

Lemma wav_bytes_cli_converts wav t args :
  not_temp t ->
  converts t (with_cli_input ".wav" wav (fun temp =>
    retried_ffmpeg (opt_ffmpeg_path o) (opt_retry o) (args temp ++ ["-y"; path_str t]))).
Proof. intros Ht. apply cli_input_converts; [done|]. intros temp. apply retried_ffmpeg_writes. Qed.

Lemma failed_converts t d (e : ExportPipelineError) :
  kept t d d /\ (Err e = Ok tt -> frame t d d /\ is_Some (d_files d !! t)).
Proof. split; [by intros q c _ ?|done]. Qed.

Lemma hca_cli_converts hca t cli : (forall wav, converts t (cli wav)) -> converts t (hca_bytes_cli hca cli).
Proof.
  intros Hc d r d' E. unfold hca_bytes_cli in E. destruct (decode_hca_bytes_to_wav_bytes hca); [by eapply Hc|].
  injection E as <- <-. apply failed_converts.
Qed.

Lemma to_mp3_converts wav track t : not_temp t -> converts t (to_mp3 o wav track t).
Proof.
  intros Ht. assert (Hcli : forall w, converts t (convert_wav_bytes_to_mp3_cli (opt_ffmpeg_path o) (opt_retry o) w t)).
  { intros w. apply (wav_bytes_cli_converts w t (fun temp => ["-i"; path_str temp; "-b:a"; "320k"]) Ht). }
  destruct wav as [w|]; simpl.
  - by apply (backend_converts _ _ (FfiWavBytesToMp3 w t)).
  - apply (backend_converts _ _ (FfiHcaBytesToMp3 (s_data track) t)). by apply hca_cli_converts.
Qed.

Lemma to_flac_converts wav track t : not_temp t -> converts t (to_flac o wav track t).
Proof.
  intros Ht. assert (Hcli : forall w, converts t (convert_wav_bytes_to_flac_cli (opt_ffmpeg_path o) (opt_retry o) w t)).
  { intros w. apply (wav_bytes_cli_converts w t (fun temp => ["-i"; path_str temp; "-compression_level"; "12"]) Ht). }
  destruct wav as [w|]; simpl.
  - by apply (backend_converts _ _ (FfiWavBytesToFlac w t)).
  - apply (backend_converts _ _ (FfiHcaBytesToFlac (s_data track) t)). by apply hca_cli_converts.
Qed.

Lemma decode_wav_converts data t :
  converts t (fun d => let '(d, r) := decode_hca_bytes_to_wav data t d in (r, d)).
Proof.
  intros d r d' E. unfold decode_hca_bytes_to_wav in E.
  assert (Hw : forall c, frame t d (write_file t c d)).
  { intros c q Hq. simpl. rewrite lookup_insert_ne; [done | congruence]. }
  destruct (hca_header data); [|injection E as <- <-; apply failed_converts].
  destruct (media_os_error OpCreate t); [injection E as <- <-; apply failed_converts|].
  destruct (decode_hca data) as [wav|m]; injection E as <- <-; (split; [by apply frame_kept|]); [|done].
  intros _. split; [done|]. simpl. rewrite lookup_insert_eq. by eexists.
Qed.

(** The files of a track: what the formats ask for, in the order WAV, MP3, FLAC. *)
Definition audio_targets (wav mp3 flac : bool) (dir : path) (name : string) : list path :=
  (if wav then [join_str dir (name +:+ ".wav")] else [])
  ++ (if mp3 then [join_str dir (name +:+ ".mp3")] else [])
  ++ (if flac then [join_str dir (name +:+ ".flac")] else []).

Definition hca_outputs (dir : path) (track : stream) : list path :=
  if eq_ignore_ascii_case (s_extension track) "hca" then
    let asked := fun f => has_format f (audio_formats o) in
    audio_targets (asked Wav) (asked Mp3) (asked Flac) dir (s_name track)
  else [join_str dir (s_name track +:+ "." +:+ s_extension track)].

Lemma has_format_app {A} `{EqDecision A} (f : A) l1 l2 : has_format f (l1 ++ l2) = has_format f l1 || has_format f l2.
Proof. apply existsb_app. Qed.

Lemma dedupe_has {A} `{EqDecision A} (f : A) seen l : has_format f (dedupe_formats seen l) = has_format f seen || has_format f l.
Proof.
  revert seen. induction l as [|g l IH]; intros seen; cbn [dedupe_formats]; [by rewrite orb_false_r|].
  change (has_format f (g :: l)) with (bool_decide (f = g) || has_format f l).
  change (existsb (fun h => bool_decide (g = h)) seen) with (has_format g seen).
  destruct (has_format g seen) eqn:Eg; rewrite IH.
  - destruct (bool_decide_reflect (f = g)) as [->|]; [by rewrite Eg | done].
  - rewrite has_format_app. unfold has_format at 2. simpl. by rewrite orb_false_r, orb_assoc.
Qed.

Lemma format_has_empty (f : AudioOutputFormat) l : l = [] -> has_format f l = false.
Proof. by intros ->. Qed.

Lemma produces_ext ts p1 p2 : (forall d, p1 d = p2 d) -> produces ts p1 -> produces ts p2.
Proof. intros He Hp d d' r E. rewrite <- He in E. by apply Hp. Qed.

Lemma fail_produces ts e : produces ts (fun d => (d, Err e)).
Proof. intros d d' r E. injection E as <- <-. by split. Qed.

Lemma apart_of_NoDup ts1 ts2 :
  NoDup (map path_str (ts1 ++ ts2)) -> Forall (fun t => apart t ts2) ts1.
Proof.
  rewrite map_app. intros (_ & Hd & _)%NoDup_app. apply Forall_forall. intros t Ht. apply Forall_forall. intros u Hu Heq.
  apply (Hd (path_str t)); apply list_elem_of_fmap; [by exists t | exists u; by rewrite Heq].
Qed.

Lemma encode_audio_produces dir track (m f : bool) wav :
  let ts := (if m then [join_str dir (s_name track +:+ ".mp3")] else [])
            ++ (if f then [join_str dir (s_name track +:+ ".flac")] else []) in
  NoDup (map path_str ts) -> Forall not_temp ts -> produces ts (encode_audio o acquire dir track m f wav).
Proof.
  intros ts Hn Ht. unfold encode_audio. unfold ts in *. clear ts.
  apply Forall_app in Ht as [T1 T2]. apply produces_then; [by apply apart_of_NoDup| |].
  - destruct m; [|apply produces_nothing]. inversion T1; subst. by apply produces_encode, to_mp3_converts.
  - destruct f; [|apply produces_nothing]. inversion T2; subst. by apply produces_encode, to_flac_converts.
Qed.

Lemma process_formats_produces dir track (k m f : bool) :
  let ts := audio_targets k m f dir (s_name track) in
  NoDup (map path_str ts) -> Forall not_temp ts -> produces ts (process_formats o acquire dir track k m f).
Proof.
  intros ts Hn Ht. unfold ts, audio_targets in *. clear ts. set (wav := join_str dir (s_name track +:+ ".wav")) in *.
  set (ts := (if m then [join_str dir (s_name track +:+ ".mp3")] else [])
             ++ (if f then [join_str dir (s_name track +:+ ".flac")] else [])) in *.
  assert (Ha : forall w, produces ts (encode_audio o acquire dir track m f w)).
  { intros w. apply encode_audio_produces.
    - rewrite map_app in Hn. by apply NoDup_app in Hn as (_ & _ & ?).
    - by apply Forall_app in Ht as [_ ?]. }
  assert (Hw : forall w, produces ((if k then [wav] else []) ++ ts)
    (and_then (if k then write_output wav w else nothing) (encode_audio o acquire dir track m f (Some w)))).
  { intros w. apply produces_then; [by apply apart_of_NoDup| |apply Ha].
    destruct k; [apply produces_write | apply produces_nothing]. }
  intros d d' r E. unfold process_formats in E. fold wav in E.
  destruct (k && negb m && negb f) eqn:Ek.
  { destruct k, m, f; try done. by apply (produces_encode wav _ (decode_wav_converts (s_data track) wav)) in E. }
  destruct (negb m && negb f) eqn:Emf.
  { destruct k, m, f; try done. by apply produces_nothing in E. }
  destruct ((k && (m || f)) || (m && f)) eqn:En.
  - destruct (acquire wav); [|exact (fail_produces _ _ _ _ _ E)].
    destruct (decode_hca_bytes_to_wav_bytes (s_data track)) as [w|e]; [by apply Hw in E | exact (fail_produces _ _ _ _ _ E)].
  - destruct k; [destruct m, f; done|]. by apply Ha in E.
Qed.

(** Processing a track generates exactly the files its formats ask for (a track
    that is not HCA is written as it is), whichever backend and fallback was used:
    on success the list is that specification, every file is on disk, and no other
    file has changed; intermediate WAV data and temporary inputs are gone.  On an
    error every other file that existed is still there unchanged. *)
Theorem hca_track_exact dir track :
  NoDup (map path_str (hca_outputs dir track)) -> Forall not_temp (hca_outputs dir track) ->
  produces (hca_outputs dir track) (process_hca_track o acquire dir track).
Proof.
  unfold hca_outputs. intros Hn Ht d d' r E. unfold process_hca_track in E.
  destruct (eq_ignore_ascii_case (s_extension track) "hca"); cbn [negb] in E; [|by apply produces_write in E].
  assert (Hf : forall f, has_format f (audio_output_formats o) = has_format f (audio_formats o))
    by (intros f; apply (dedupe_has f [])).
  destruct (bool_decide_reflect (audio_output_formats o = [])) as [E0|E0].
  - rewrite <- !Hf, !format_has_empty by done. by apply produces_nothing in E.
  - rewrite !Hf in E. by eapply process_formats_produces.
Qed.

(** *** Video *)

(** [p] is one of the files at most: another file, untouched by conversions to [t]. *)
Lemma usm_to_mp4_converts usm t :
  converts t (convert_usm_to_mp4_with_backend (opt_ffmpeg_path o) (opt_backend o) (opt_retry o) usm t).
Proof.
  apply (backend_converts _ _ (FfiUsmToMp4 usm t)). apply writes_converts.
  apply (retried_ffmpeg_writes _ ["-i"; path_str usm; "-c:v"; "libx264"; "-c:a"; "aac"; "-b:a"; "192k"; "-movflags"; "+faststart"]).
Qed.

(** A file [q] other than [t] and [f] is untouched by converting [f] to [t]. *)
Lemma m2v_to_mp4_kept f t del rate d r d' q c :
  path_str q <> path_str t -> q <> f -> d_files d !! q = Some c ->
  convert_m2v_to_mp4_with_backend (opt_ffmpeg_path o) (opt_backend o) (opt_retry o) f t del rate d = (r, d') ->
  d_files d' !! q = Some c.
Proof.
  intros Ht Hf Hc E.
  assert (Hrm : forall d1 r1 d2, remove_media_file f d1 = (r1, d2) -> d_files d1 !! q = Some c -> d_files d2 !! q = Some c).
  { intros d1 r1 d2 E1 Hd. unfold remove_media_file, remove_export_file_if_exists in E1.
    destruct (media_os_error OpRemove f); injection E1 as <- <-; [done|]. simpl. by rewrite lookup_delete_ne. }
  assert (Hcli : forall d1 r1 d2, convert_m2v_to_mp4_cli (opt_ffmpeg_path o) (opt_retry o) f t del rate d1 = (r1, d2) ->
    d_files d1 !! q = Some c -> d_files d2 !! q = Some c).
  { intros d1 r1 d2 E1 Hd. unfold convert_m2v_to_mp4_cli, m2v_to_mp4_args in E1. rewrite !app_assoc in E1.
    destruct (retried_ffmpeg _ _ _ d1) as [rr dd] eqn:Er. apply retried_ffmpeg_writes in Er as [Fr _].
    assert (Hdd : d_files dd !! q = Some c) by (by rewrite Fr).
    destruct rr as [[]|]; [|injection E1 as <- <-; done].
    destruct del; [by eapply Hrm | injection E1 as <- <-; done]. }
  unfold convert_m2v_to_mp4_with_backend, run_media_backend in E.
  pose proof (retried_writes _ (opt_retry o) _ (ffi_op_writes (FfiM2vToMp4 f rate t))) as Hffi.
  destruct (opt_backend o).
  - destruct (retried _ _ d) as [[[]|e] d1] eqn:E1; apply Hffi in E1 as [F1 _];
      assert (Hd1 : d_files d1 !! q = Some c) by (by rewrite F1).
    + destruct del; [by eapply Hrm | injection E as <- <-; done].
    + destruct (convert_m2v_to_mp4_cli _ _ _ _ _ _ d1) as [[[]|e'] d2] eqn:E2; apply Hcli in E2; try done;
        [|injection E as <- <-; done]. destruct del; [by eapply Hrm | injection E as <- <-; done].
  - destruct (retried _ _ d) as [[[]|e] d1] eqn:E1; apply Hffi in E1 as [F1 _];
      assert (Hd1 : d_files d1 !! q = Some c) by (by rewrite F1); [|injection E as <- <-; done].
    destruct del; [by eapply Hrm | injection E as <- <-; done].
  - destruct (convert_m2v_to_mp4_cli _ _ _ _ _ _ d) as [[[]|e'] d2] eqn:E2; apply Hcli in E2; try done;
      [|injection E as <- <-; done]. destruct del; [by eapply Hrm | injection E as <- <-; done].
Qed.

Lemma convert_extracted_kept mp4 rate extracted generated d d' r q c :
  path_str q <> path_str mp4 -> q ∉ extracted -> d_files d !! q = Some c ->
  convert_extracted o acquire mp4 rate extracted generated d = (d', r) -> d_files d' !! q = Some c.
Proof.
  revert generated d. induction extracted as [|f rest IH]; intros generated d Hm Hn Hc E; cbn [convert_extracted] in E.
  - by injection E as <- <-.
  - apply not_elem_of_cons in Hn as [Hn1 Hn2]. destruct (m2v_path f); [|by eapply IH].
    destruct (acquire mp4); [|by injection E as <- <-].
    destruct (convert_m2v_to_mp4_with_backend _ _ _ _ _ _ _ d) as [rc d1] eqn:E1.
    eapply m2v_to_mp4_kept in E1; [|done..]. destruct rc; [by eapply IH | by injection E as <- <-].
Qed.

(** Renaming the outputs after the input touches their old and new names only. *)
Lemma normalize_kept stem outputs d d' r q c :
  q ∉ outputs -> (forall f e, f ∈ outputs -> extension f = Some e -> q <> with_file_name f (stem +:+ "." +:+ e)) ->
  d_files d !! q = Some c -> normalize_usm_output_names stem outputs d = (d', r) ->
  d_files d' !! q = Some c /\ forall files, r = Ok files -> q ∉ files.
Proof.
  revert d d' r. induction outputs as [|f rest IH]; intros d d' r Hn Ht Hc E; cbn [normalize_usm_output_names] in E.
  { injection E as <- <-. split; [done|]. intros files [= <-]. set_solver. }
  apply not_elem_of_cons in Hn as [Hn1 Hn2].
  destruct (extension f) as [e|] eqn:Ee; [|by injection E as <- <-].
  pose proof (Ht f e (list_elem_of_here _ _) Ee) as Hne. set (t := with_file_name f _) in *.
  assert (Hrest : forall d1 d2 r2, d_files d1 !! q = Some c -> normalize_usm_output_names stem rest d1 = (d2, r2) ->
    d_files d2 !! q = Some c /\ forall files, r2 = Ok files -> q ∉ files).
  { intros d1 d2 r2 Hc1 E1. eapply IH; [done| |done|done]. intros g e' Hg. apply Ht. by right. }
  assert (Hgo : forall d1, d_files d1 !! q = Some c ->
    match normalize_usm_output_names stem rest d1 with
    | (d, Err e) => (d, Err e) | (d, Ok more) => (d, Ok (t :: more)) end = (d', r) ->
    d_files d' !! q = Some c /\ forall files, r = Ok files -> q ∉ files).
  { intros d1 Hc1 E1. destruct (normalize_usm_output_names stem rest d1) as [d2 r2] eqn:E2.
    apply Hrest in E2 as [K2 N2]; [|done]. destruct r2 as [more|e2]; injection E1 as <- <-; split; try done.
    intros files [= <-]. apply not_elem_of_cons. split; [done | by apply N2]. }
  destruct (bool_decide (f = t)); [by eapply Hgo|].
  destruct (media_os_error OpCreate t); [by injection E as <- <-|].
  destruct (d_files d !! f) as [data|]; [|by injection E as <- <-].
  eapply Hgo; [|exact E]. simpl. by rewrite lookup_insert_ne, lookup_delete_ne.
Qed.

(** After the work, the source is removed or the result is an error. *)
Lemma then_cleanup_source p d1 r1 d' r c :
  d_files d1 !! p = Some c -> then_cleanup (UsmPath p) (d1, r1) = (d', r) ->
  match r with Ok _ => d_files d' !! p = None | Err _ => d_files d' !! p = Some c end.
Proof.
  intros Hc E. unfold then_cleanup, cleanup_sources, remove_export_file_if_exists in E.
  destruct r1 as [files|e]; [|by injection E as <- <-].
  destruct (media_os_error OpRemove p); injection E as <- <-; [done|]. simpl. apply lookup_delete_eq.
Qed.

(** The extractor leaves its input alone: none of its outputs is, or is renamed to, the
    input. *)
Definition extracts_beside (p dir : path) : Prop :=
  forall d r d', extract_usm_file p dir d = (r, d') ->
    d_files d' !! p = d_files d !! p
    /\ forall outs, r = Ok outs -> p ∉ outs
       /\ forall f e stem, f ∈ outs -> extension f = Some e -> file_stem p = Some stem ->
            p <> with_file_name f (stem +:+ "." +:+ e).

End PostProcessFacts.

(** ** A small studio *)

Module ConcreteMedia.
(** The libraries encode to one byte; the [ffmpeg] command is not installed. *)
#[local] Instance small_media : MediaEnv := {|
  ffi_run := fun op d => (Ok tt, write_file (target_of op) [Byte.x01] d);
  ffmpeg_run := fun _ d => (Err NotFound, d);
  hca_header := fun _ => Ok tt;
  decode_hca := fun b => Ok b;
  extract_usm_file := fun _ dir d =>
    (Ok [join_str dir "video.m2v"], write_file (join_str dir "video.m2v") [Byte.x02] d);
  extract_usm_to_memory := fun _ _ _ => Err "not used";
  extract_acb_to_memory := fun _ _ => Ok [];
  usm_frame_rate := fun _ => Some (30, 1);
  temp_file_path := fun _ _ => Err NotFound;
  media_os_error := fun op p =>
    match op with OpRemove => if bool_decide (p = components "/o/locked.usm") then Some PermissionDenied else None | _ => None end;
  media_copied := fun _ => 0%nat
|}.

#[local] Instance small_laws : MediaLaws.
Proof.
  split; simpl.
  - intros op d r d' E q Hq. injection E as <- <-. simpl. rewrite lookup_insert_ne; [done | congruence].
  - intros op d d' E. injection E as <-. simpl. rewrite lookup_insert_eq. by eexists.
  - intros args out d r d' E q Hq. by injection E as <- <-.
  - done.
  - done.
Defined.

Definition options : media_options :=
  mkMediaOptions [Flac; Mp3; Flac] [Mp4] false true true true true true "ffmpeg" BackendAuto RetryConfig_default.
Definition free (_ : path) : result unit ExportPipelineError := Ok tt.
Definition voice : stream := mkStream "voice" "hca" [Byte.x07].
Definition d0 : disk := mkDisk (list_to_map [(components "/o/op.usm", as_bytes "CRID1")]) {[components "/o"]}.

Lemma hca_track_exact_witness :
  hca_outputs options (components "/o") voice = [components "/o/voice.mp3"; components "/o/voice.flac"]
  /\ produces (hca_outputs options (components "/o") voice) (process_hca_track options free (components "/o") voice).
Proof.
  split; [vm_compute; reflexivity|]. apply (hca_track_exact options free (components "/o") voice).
  - apply (bool_decide_unpack _). vm_compute. exact I.
  - repeat constructor.
Defined.

Definition done_usm := process_usm_input options free (UsmPath (components "/o/op.usm")) (components "/o") d0.


(** Two outputs of the same type are renamed to the same file: one is lost, and the
    file is listed twice. *)
Definition d2 : disk := mkDisk (list_to_map [(components "/o/a.m2v", [Byte.x0a]); (components "/o/b.m2v", [Byte.x0b])]) ∅.
Example outputs_collide :
  (normalize_usm_output_names "op" [components "/o/a.m2v"; components "/o/b.m2v"] d2).2
  = Ok [components "/o/op.m2v"; components "/o/op.m2v"]
  /\ map_to_list (d_files (normalize_usm_output_names "op" [components "/o/a.m2v"; components "/o/b.m2v"] d2).1)
     = [(components "/o/op.m2v", [Byte.x0b])].
Proof. vm_compute. split; reflexivity. Qed.

(** A failing command leaves its temporary input behind. *)
Definition failing_media : MediaEnv := {|
  ffi_run := fun _ d => (Err (ExportMedia "ffi disabled"), d);
  ffmpeg_run := fun _ d => (Ok (mkOutput false "exit status: 1" "bad input"), d);
  hca_header := fun _ => Ok tt;
  decode_hca := fun b => Ok b;
  extract_usm_file := fun _ _ d => (Ok [], d);
  extract_usm_to_memory := fun _ _ _ => Ok [];
  extract_acb_to_memory := fun _ _ => Ok [];
  usm_frame_rate := fun _ => None;
  temp_file_path := fun suffix _ => Ok (components ("/tmp/.tmpA" +:+ suffix));
  media_os_error := fun _ _ => None;
  media_copied := fun _ => 0%nat
|}.
Example temp_input_leaks :
  let r := @convert_wav_bytes_to_mp3_with_backend failing_media "ffmpeg" BackendAuto RetryConfig_default [Byte.x07]
             (components "/o/voice.mp3") (mkDisk ∅ ∅) in
  is_ok r.1 = false /\ d_files r.2 !! components "/tmp/.tmpA.wav" = Some [Byte.x07].
Proof. vm_compute. split; reflexivity. Qed.
End ConcreteMedia.
