(* ===== verification/ConfigEnv.v ===== *)
(** * Configuration: references to and overrides from the environment

    [load_from_str] of [core/config.rs] works on the YAML value before it is read into
    the structs: [expand_env_references] replaces [${env:NAME}] in every string, then
    [apply_env_overrides] sets what the variables [HARUKI__A__B] name.  A YAML mapping
    keeps its entries in order, an insertion under an existing key replaces the value
    in place ([yaml_serde::Mapping]); the YAML parser is a parameter.  Names and values of
    variables are Unicode: [env::vars] panics on others. *)

From Stdlib Require Import Ascii.
From S2P Require Import Prelude RustStr Errors Config.

Local Open Scope string_scope.
Local Open Scope list_scope.
Local Open Scope Z_scope.
Local Open Scope rust_scope.

(** [yaml_serde::Value]; a number is its text. *)
Inductive Value : Type :=
| Null
| VBool (b : bool)
| VNumber (text : string)
| VString (s : string)
| VSequence (items : list Value)
| VMapping (entries : list (Value * Value))
| VTagged (tag : string) (v : Value).

(** Induction with the values inside sequences and mappings. *)
Fixpoint Value_nested_ind (P : Value -> Prop)
    (Hnull : P Null) (Hbool : forall b, P (VBool b)) (Hnum : forall t, P (VNumber t)) (Hstr : forall s, P (VString s))
    (Hseq : forall l, Forall P l -> P (VSequence l))
    (Hmap : forall l, Forall (fun e => P e.2) l -> P (VMapping l))
    (Htag : forall t v, P v -> P (VTagged t v)) (v : Value) : P v :=
  let go := Value_nested_ind P Hnull Hbool Hnum Hstr Hseq Hmap Htag in
  match v with
  | Null => Hnull
  | VBool b => Hbool b
  | VNumber t => Hnum t
  | VString s => Hstr s
  | VSequence l =>
      Hseq l ((fix all (l : list Value) : Forall P l := match l with [] => Forall_nil_2 _ | x :: l' => Forall_cons_2 _ x l' (go x) (all l') end) l)
  | VMapping l =>
      Hmap l ((fix all (l : list (Value * Value)) : Forall (fun e => P e.2) l := match l with [] => Forall_nil_2 _ | e :: l' => Forall_cons_2 _ e l' (go e.2) (all l') end) l)
  | VTagged t x => Htag t x (go x)
  end.

(** The variables of the process with a Unicode value ([env::var], [env::vars]). *)
Abbreviation environment := (gmap string string).

(** ** References *)

Definition env_mark : string := "${env:".

(** The loop of [expand_env_references_in_string] from the cursor on; every round
    consumes a reference, so the length of the text is enough fuel. *)
Fixpoint expand_loop (env : environment) (fuel : nat) (rest expanded : string) : result string ConfigError :=
  match fuel with
  | O => Ok (expanded +:+ rest)
  | S fuel' =>
      match split_once env_mark rest with
      | None => Ok (expanded +:+ rest)
      | Some (before, after) =>
          match split_once "}" after with
          | None => Ok (expanded +:+ before +:+ env_mark +:+ after)
          | Some (name, rest) =>
              match env !! trim name with
              | None => Err (MissingEnvironmentVariable "config file" (trim name))
              | Some value => expand_loop env fuel' rest (expanded +:+ before +:+ value)
              end
          end
      end
  end.

Definition expand_env_references_in_string (env : environment) (raw : string) : result (option string) ConfigError :=
  if negb (contains env_mark raw) then Ok None
  else let? expanded := expand_loop env (String.length raw) raw "" in Ok (Some expanded).

Fixpoint expand_env_references (env : environment) (v : Value) : result Value ConfigError :=
  match v with
  | VString raw =>
      let? expanded := expand_env_references_in_string env raw in Ok (VString (default raw expanded))
  | VSequence items =>
      let? items := (fix each l :=
        match l with
        | [] => Ok []
        | x :: l' => let? x := expand_env_references env x in let? l' := each l' in Ok (x :: l')
        end) items in
      Ok (VSequence items)
  | VMapping entries =>
      let? entries := (fix each l :=
        match l with
        | [] => Ok []
        | (k, x) :: l' => let? x := expand_env_references env x in let? l' := each l' in Ok ((k, x) :: l')
        end) entries in
      Ok (VMapping entries)
  | VTagged tag x => let? x := expand_env_references env x in Ok (VTagged tag x)
  | Null | VBool _ | VNumber _ => Ok v
  end.

(** ** What a text with references means

    A text is read as literal parts, each followed by the name of a reference, and a
    last literal part. *)
Record template : Type := mkTemplate { t_refs : list (string * string); t_last : string }.

Definition print_ref (p : string * string) : string := p.1 +:+ env_mark +:+ p.2 +:+ "}".
Definition print_template (t : template) : string := foldr (fun p s => print_ref p +:+ s) (t_last t) (t_refs t).

(** Literal parts contain no reference; the last one may open one it does not close. *)
Definition unopened (l : string) : Prop := contains env_mark l = false.
Definition unclosed (l : string) : Prop :=
  exists before after, l = before +:+ env_mark +:+ after /\ unopened before /\ contains "}" after = false.
Definition template_ok (t : template) : Prop :=
  Forall (fun p => unopened p.1 /\ contains "}" p.2 = false) (t_refs t) /\ (unopened (t_last t) \/ unclosed (t_last t)).

Fixpoint parse_loop (fuel : nat) (s : string) : template :=
  match fuel with
  | O => mkTemplate [] s
  | S fuel' =>
      match split_once env_mark s with
      | None => mkTemplate [] s
      | Some (before, after) =>
          match split_once "}" after with
          | None => mkTemplate [] s
          | Some (name, rest) =>
              let t := parse_loop fuel' rest in mkTemplate ((before, name) :: t_refs t) (t_last t)
          end
      end
  end.
Definition parse_template (s : string) : template := parse_loop (String.length s) s.

Definition missing (env : environment) (name : string) : bool := bool_decide (env !! name = None).
Definition names_of (t : template) : list string := map (fun p => trim p.2) (t_refs t).
Definition substitute (env : environment) (t : template) : string :=
  foldr (fun p s => p.1 +:+ default "" (env !! trim p.2) +:+ s) (t_last t) (t_refs t).

(** The references of a document, in its order, and the document with all of them
    replaced. *)
Fixpoint references (v : Value) : list string :=
  match v with
  | VString s => names_of (parse_template s)
  | VSequence items => concat (map references items)
  | VMapping entries => concat (map (fun e => references e.2) entries)
  | VTagged _ x => references x
  | Null | VBool _ | VNumber _ => []
  end.

Fixpoint substituted (env : environment) (v : Value) : Value :=
  match v with
  | VString s => VString (substitute env (parse_template s))
  | VSequence items => VSequence (map (substituted env) items)
  | VMapping entries => VMapping (map (fun e => (e.1, substituted env e.2)) entries)
  | VTagged tag x => VTagged tag (substituted env x)
  | Null | VBool _ | VNumber _ => v
  end.

(** ** Reading and printing *)

Lemma length_mark l r : (String.length (l +:+ env_mark +:+ r) = String.length l + 6 + String.length r)%nat.
Proof. rewrite !length_string_app. simpl. lia. Qed.

Lemma parse_loop_ok fuel s :
  (String.length s <= fuel)%nat -> template_ok (parse_loop fuel s) /\ print_template (parse_loop fuel s) = s.
Proof.
  revert s. induction fuel as [|fuel IH]; intros s Hl; cbn [parse_loop].
  - destruct s; [|simpl in Hl; lia]. split; [|done]. split; [constructor | by left].
  - destruct (split_once env_mark s) as [[before after]|] eqn:E.
    2:{ split; [|done]. split; [constructor|]. left. by apply split_once_None. }
    pose proof (split_once_first _ _ _ _ E ltac:(done)) as Hb. apply split_once_Some in E as ->.
    destruct (split_once "}" after) as [[name rest]|] eqn:E2.
    2:{ split; [|done]. split; [constructor|]. right. exists before, after. split_and!; [done | done|].
        by apply split_once_None. }
    pose proof (split_once_first _ _ _ _ E2 ltac:(done)) as Hn. apply split_once_Some in E2 as ->.
    destruct (IH rest) as [[Hr Hlast] Hp].
    { rewrite length_mark, !length_string_app in Hl. simpl in Hl. lia. }
    split; [split; [by constructor | done]|].
    unfold print_template, print_ref in *. cbn [t_refs t_last foldr fst snd]. rewrite Hp, !string_app_assoc. done.
Qed.

Lemma parse_print_loop fuel refs last :
  template_ok (mkTemplate refs last) -> (String.length (print_template (mkTemplate refs last)) <= fuel)%nat ->
  parse_loop fuel (print_template (mkTemplate refs last)) = mkTemplate refs last.
Proof.
  revert refs. induction fuel as [|fuel IH]; intros refs [Hr Hl] Hf.
  - destruct refs as [|p refs]; [done|]. unfold print_template in Hf. cbn [t_refs foldr] in Hf.
    unfold print_ref in Hf. rewrite !length_string_app in Hf. simpl in Hf. lia.
  - destruct refs as [|[before name] refs].
    + unfold print_template. cbn [t_refs t_last foldr parse_loop]. cbn [t_last] in Hl. destruct Hl as [Hu|(b & a & -> & Hb & Ha)].
      * by rewrite (proj2 (split_once_None _ _) Hu).
      * unfold env_mark at 1 2. rewrite split_once_app; [|done..]. by rewrite (proj2 (split_once_None _ _) Ha).
    + apply Forall_cons in Hr as [[Hb Hn] Hr]. cbn [fst snd] in Hb, Hn.
      unfold print_template in *. cbn [t_refs t_last foldr] in *. unfold print_ref in *. cbn [fst snd] in *.
      rewrite !string_app_assoc in *. cbn [parse_loop]. unfold env_mark at 1 2.
      rewrite split_once_app; [|done..]. rewrite (split_once_app "}"%char ""); [|done..].
      rewrite IH; [done | by split |]. rewrite length_mark, !length_string_app in Hf. simpl in Hf. lia.
Qed.

(** ** Expansion is substitution *)

Lemma expand_loop_exact env fuel s acc :
  (String.length s <= fuel)%nat ->
  expand_loop env fuel s acc =
  match find (missing env) (names_of (parse_loop fuel s)) with
  | Some n => Err (MissingEnvironmentVariable "config file" n)
  | None => Ok (acc +:+ substitute env (parse_loop fuel s))
  end.
Proof.
  revert s acc. induction fuel as [|fuel IH]; intros s acc Hl; cbn [expand_loop parse_loop]; [done|].
  destruct (split_once env_mark s) as [[before after]|] eqn:E; [|done]. apply split_once_Some in E as ->.
  destruct (split_once "}" after) as [[name rest]|] eqn:E2; [|done]. apply split_once_Some in E2 as ->.
  unfold names_of, substitute. cbn [t_refs t_last map foldr find fst snd]. unfold missing at 1.
  destruct (env !! trim name) as [value|] eqn:Ee; [|done]. cbn [default].
  rewrite bool_decide_eq_false_2 by done. rewrite IH.
  - unfold names_of, substitute. destruct (find _ _); [done|]. by rewrite !string_app_assoc.
  - rewrite length_mark, !length_string_app in Hl. simpl in Hl. lia.
Qed.

Lemma expand_string_exact env s :
  (let? e := expand_env_references_in_string env s in Ok (default s e)) =
  match find (missing env) (names_of (parse_template s)) with
  | Some n => Err (MissingEnvironmentVariable "config file" n)
  | None => Ok (substitute env (parse_template s))
  end.
Proof.
  unfold expand_env_references_in_string, parse_template. destruct (contains env_mark s) eqn:Ec; simpl negb; cbv iota.
  - rewrite expand_loop_exact by done. by destruct (find _ _).
  - apply split_once_None in Ec. destruct (String.length s); cbn [parse_loop]; [done|]. by rewrite Ec.
Qed.

Lemma find_app_first {A} (f : A -> bool) l l' :
  find f (l ++ l') = match find f l with Some x => Some x | None => find f l' end.
Proof. induction l as [|x l IH]; [done|]. simpl. by destruct (f x). Qed.

Lemma expand_value_exact env v :
  expand_env_references env v =
  match find (missing env) (references v) with
  | Some n => Err (MissingEnvironmentVariable "config file" n)
  | None => Ok (substituted env v)
  end.
Proof.
  induction v as [| | |s|l IH|l IH|t v IH] using Value_nested_ind; try done.
  - cbn [expand_env_references references substituted]. pose proof (expand_string_exact env s) as E.
    destruct (expand_env_references_in_string env s); destruct (find _ _); simpl in *; congruence.
  - cbn [expand_env_references references substituted].
    match goal with |- context [result_bind ?r _] =>
      assert (E : r = match find (missing env) (concat (map references l)) with
                      | Some n => Err (MissingEnvironmentVariable "config file" n)
                      | None => Ok (map (substituted env) l) end) end.
    { induction IH as [|x l Hx _ IHl]; [done|]. simpl. rewrite Hx, find_app_first.
      destruct (find _ (references x)); [done|]. simpl. rewrite IHl. by destruct (find _ _). }
    rewrite E. by destruct (find _ _).
  - cbn [expand_env_references references substituted].
    match goal with |- context [result_bind ?r _] =>
      assert (E : r = match find (missing env) (concat (map (fun e => references e.2) l)) with
                      | Some n => Err (MissingEnvironmentVariable "config file" n)
                      | None => Ok (map (fun e => (e.1, substituted env e.2)) l) end) end.
    { induction IH as [|[k x] l Hx _ IHl]; [done|]. simpl in *. rewrite Hx, find_app_first.
      destruct (find _ (references x)); [done|]. simpl. rewrite IHl. by destruct (find _ _). }
    rewrite E. by destruct (find _ _).
  - cbn [expand_env_references references substituted]. rewrite IH. by destruct (find _ _).
Qed.

(** Expanding the environment references of a configuration is substitution: if a
    variable is missing, the first missing one of the document is reported; otherwise
    every [${env:NAME}] of every string, and nothing else, is replaced by the value.
    The references of a text are exactly what was written as such: reading a text
    back from its parts gives the parts, and every text has such parts. *)
Theorem env_references_exact env v :
  expand_env_references env v =
    match find (missing env) (references v) with
    | Some n => Err (MissingEnvironmentVariable "config file" n)
    | None => Ok (substituted env v)
    end
  /\ (forall t, template_ok t -> parse_template (print_template t) = t)
  /\ (forall s, template_ok (parse_template s) /\ print_template (parse_template s) = s).
Proof.
  split_and!; [apply expand_value_exact | |].
  - intros [refs last] Ht. by apply parse_print_loop.
  - intros s. by apply parse_loop_ok.
Qed.

(** ** Overrides *)

(** [Mapping]: the value under a string key, and insertion. *)
Definition is_key (segment : string) (k : Value) : bool :=
  match k with VString s => String.eqb s segment | _ => false end.

Fixpoint mapping_get (segment : string) (m : list (Value * Value)) : option Value :=
  match m with
  | [] => None
  | (k, x) :: m' => if is_key segment k then Some x else mapping_get segment m'
  end.

Fixpoint mapping_insert (segment : string) (v : Value) (m : list (Value * Value)) : list (Value * Value) :=
  match m with
  | [] => [(VString segment, v)]
  | (k, x) :: m' => if is_key segment k then (k, v) :: m' else (k, x) :: mapping_insert segment v m'
  end.

(** [raw.split("__")]. *)
Fixpoint split_path (fuel : nat) (s : string) : list string :=
  match fuel with
  | O => [s]
  | S fuel' =>
      match split_once "__" s with
      | None => [s]
      | Some (segment, rest) => segment :: split_path fuel' rest
      end
  end.

Definition parse_env_override_path (name : string) : result (list string) ConfigError :=
  let? raw_path := ok_or (strip_prefix "HARUKI__" name)
    (InvalidConfigBootstrap name "override names must start with HARUKI__") in
  if is_empty raw_path then Err (InvalidConfigBootstrap name "override path is empty")
  else collect_results
    (fun segment =>
       if is_empty segment then Err (InvalidConfigBootstrap name "override path contains an empty segment")
       else Ok (to_ascii_lowercase segment))
    (split_path (String.length raw_path) raw_path).

Section Overrides.
(** The YAML parser, and the number of values a vector can hold: growing one beyond
    it ends the process, which is [None] below. *)
Variable from_str : string -> option Value.
Variable max_items : Z.

Definition parse_env_override_value (raw : string) : Value :=
  if is_empty raw then VString "" else default (VString raw) (from_str raw).

Definition segment_index (segment : string) : option Z := parse_unsigned 64 segment.

(** [if items.len() <= index { items.resize(index + 1, Null) }]. *)
Definition grow (items : list Value) (index : Z) : option (list Value) :=
  if index <? zlen items then Some items
  else if max_items <=? index then None
  else Some (items ++ replicate (Z.to_nat (index + 1 - zlen items)) Null).

(** The entries a segment selects in anything that is not addressed by index. *)
Definition as_mapping (v : Value) : list (Value * Value) := match v with VMapping m => m | _ => [] end.

(** The sequence a numeric segment selects in: [Null] becomes one. *)
Definition indexed (segment : string) (v : Value) : option (Z * list Value) :=
  match segment_index segment, v with
  | Some index, VSequence items => Some (index, items)
  | Some index, Null => Some (index, [])
  | _, _ => None
  end.

Definition set_env_override_leaf (current : Value) (segment : string) (value : Value) : option Value :=
  match indexed segment current with
  | Some (index, items) =>
      match grow items index with
      | Some items => Some (VSequence (<[Z.to_nat index := value]> items))
      | None => None
      end
  | None => Some (VMapping (mapping_insert segment value (as_mapping current)))
  end.

Definition default_child (next : string) : Value :=
  match segment_index next with Some _ => VSequence [] | None => VMapping [] end.

(** The child the returned reference points to, and what writing through it makes of
    [current]. *)
Definition descend_env_override_path (current : Value) (segment next : string) : option (Value * (Value -> Value)) :=
  match indexed segment current with
  | Some (index, items) =>
      match grow items index with
      | Some items =>
          let child := match items !! Z.to_nat index with
                       | Some Null | None => default_child next
                       | Some c => c
                       end in
          Some (child, fun c => VSequence (<[Z.to_nat index := c]> items))
      | None => None
      end
  | None =>
      let map := as_mapping current in
      Some (default (default_child next) (mapping_get segment map), fun c => VMapping (mapping_insert segment c map))
  end.

(** The loop of [apply_env_override]. *)
Fixpoint override_at (path : list string) (value current : Value) : option Value :=
  match path with
  | [] => Some current
  | segment :: rest =>
      match rest with
      | [] => set_env_override_leaf current segment value
      | next :: _ =>
          match descend_env_override_path current segment next with
          | None => None
          | Some (child, put) =>
              match override_at rest value child with Some c => Some (put c) | None => None end
          end
      end
  end.

Definition apply_env_override (root : Value) (name : string) (path : list string) (value : Value)
  : option (result Value ConfigError) :=
  match path with
  | [] => Some (Err (InvalidConfigBootstrap name "override path is empty"))
  | _ => match override_at path value root with Some root => Some (Ok root) | None => None end
  end.

Fixpoint apply_all (overrides : list (string * string)) (root : Value) : option (result Value ConfigError) :=
  match overrides with
  | [] => Some (Ok root)
  | (name, raw) :: rest =>
      match parse_env_override_path name with
      | Err e => Some (Err e)
      | Ok path =>
          match apply_env_override root name path (parse_env_override_value raw) with
          | Some (Ok root) => apply_all rest root
          | r => r
          end
      end
  end.

(** The variables in the order of a [BTreeMap]. *)
Definition apply_env_overrides (env : environment) (root : Value) : option (result Value ConfigError) :=
  apply_all (List.filter (fun e => starts_with "HARUKI__" e.1) (btree_entries env)) root.
End Overrides.

(** ** What an override does to a document *)

(** The value a path leads to. *)
Definition child_at (segment : string) (v : Value) : option Value :=
  match v with
  | VMapping m => mapping_get segment m
  | VSequence items => match segment_index segment with Some i => items !! Z.to_nat i | None => None end
  | _ => None
  end.

Fixpoint value_at (path : list string) (v : Value) : option Value :=
  match path with
  | [] => Some v
  | segment :: rest => match child_at segment v with Some c => value_at rest c | None => None end
  end.

(** The path does not ask for a key in a sequence, nor for anything in a tagged value. *)
Fixpoint fits (path : list string) (v : Value) : Prop :=
  match path with
  | [] => True
  | segment :: rest =>
      match v with
      | VSequence items => (items = [] \/ is_Some (segment_index segment))
      | VTagged _ _ => False
      | _ => True
      end /\ match child_at segment v with Some c => fits rest c | None => True end
  end.

Definition same_child (v : Value) (s t : string) : bool :=
  match v with
  | VSequence _ => bool_decide (segment_index s = segment_index t)
  | _ => String.eqb s t
  end.

(** The paths part at some place of the document. *)
Fixpoint parted (p q : list string) (v : Value) : Prop :=
  match p, q with
  | s :: p', t :: q' =>
      if same_child v s t then match child_at s v with Some c => parted p' q' c | None => True end else True
  | _, _ => False
  end.

Lemma mapping_get_insert s v m : mapping_get s (mapping_insert s v m) = Some v.
Proof.
  induction m as [|[k x] m IH]; simpl; [by rewrite String.eqb_refl|].
  destruct (is_key s k) eqn:E; simpl; by rewrite E.
Qed.

Lemma is_key_inj s t k : is_key s k = true -> is_key t k = true -> s = t.
Proof. destruct k; try done. simpl. intros <-%String.eqb_eq <-%String.eqb_eq. done. Qed.

Lemma mapping_get_other s t v m : s <> t -> mapping_get t (mapping_insert s v m) = mapping_get t m.
Proof.
  intros Hne. induction m as [|[k x] m IH]; simpl.
  - destruct (String.eqb_spec s t); done.
  - destruct (is_key s k) eqn:Es; simpl; destruct (is_key t k) eqn:Et; try done.
    destruct Hne. by eapply is_key_inj.
Qed.

(** The sequence after growing: nothing moved, and the index is inside. *)
Lemma grow_spec max_items items i items' :
  grow max_items items i = Some items' -> 0 <= i ->
  (Z.to_nat i < length items')%nat /\ (forall j x, items !! j = Some x -> items' !! j = Some x)
  /\ (items !! Z.to_nat i = None -> items' !! Z.to_nat i = Some Null).
Proof.
  unfold grow, zlen. intros E Hi. destruct (Z.ltb_spec i (Z.of_nat (length items))).
  - injection E as <-. split_and!; [lia | done|]. intros Hn%lookup_ge_None. lia.
  - destruct (max_items <=? i); [done|]. injection E as <-. rewrite length_app, length_replicate. split_and!; [lia | |].
    + intros j x. apply lookup_app_l_Some.
    + intros _. rewrite lookup_app_r by lia. apply lookup_replicate_2. lia.
Qed.

Lemma indexed_Some s v i items :
  indexed s v = Some (i, items) ->
  0 <= i /\ segment_index s = Some i /\ (v = VSequence items \/ v = Null /\ items = []).
Proof.
  unfold indexed. destruct (segment_index s) as [k|] eqn:Es; [|done].
  pose proof (parse_unsigned_range _ _ _ Es). destruct v; try done; intros [= <- <-]; split_and!; try lia; auto.
Qed.

(** Writing through the reference changes the child it points to and no other. *)
Lemma descend_spec max_items v s next child put :
  descend_env_override_path max_items v s next = Some (child, put) ->
  (forall c, child_at s (put c) = Some c)
  /\ (match child_at s v with Some c => child = c \/ c = Null | None => True end)
  /\ (forall t c x, fits [s] v -> same_child v s t = false -> child_at t v = Some x -> child_at t (put c) = Some x)
  /\ (forall t c, same_child v s t = true -> child_at t v = child_at s v /\ (is_Some (child_at t v) -> child_at t (put c) = Some c)).
Proof.
  unfold descend_env_override_path. destruct (indexed s v) as [[i items]|] eqn:Ei.
  - apply indexed_Some in Ei as (Hi & Es & Hv). destruct (grow max_items items i) as [items'|] eqn:Eg; [|done].
    intros [= <- <-]. apply grow_spec in Eg as (Hlen & Hkeep & Hnew); [|done].
    assert (Hput : forall t c, segment_index t = Some i -> child_at t (VSequence (<[Z.to_nat i:=c]> items')) = Some c).
    { intros t c Et. simpl. rewrite Et. by apply list_lookup_insert_eq. }
    split_and!.
    + intros c. by apply Hput.
    + destruct Hv as [->|[-> ->]]; [|done]. simpl. rewrite Es. destruct (items !! Z.to_nat i) as [c|] eqn:Ec; [|done].
      rewrite (Hkeep _ _ Ec). destruct c; auto.
    + intros t c x _ Hs Ht. destruct Hv as [->|[-> ->]]; [|done]. simpl in Hs, Ht |- *.
      apply bool_decide_eq_false in Hs. destruct (segment_index t) as [j|] eqn:Et; [|done].
      pose proof (parse_unsigned_range _ _ _ Et). rewrite list_lookup_insert_ne; [by apply Hkeep|].
      intros E. apply Hs. rewrite Es. f_equal. lia.
    + intros t c Hs. destruct Hv as [->|[-> ->]]; simpl in Hs |- *; [|by split; [|intros [? ?]]].
      apply bool_decide_eq_true in Hs. rewrite <- Hs, Es. split; [done|]. intros _. by apply list_lookup_insert_eq.
  - intros [= <- <-]. split_and!.
    + intros c. apply mapping_get_insert.
    + unfold child_at. destruct v; try done.
      * unfold indexed in Ei. by destruct (segment_index s).
      * simpl. destruct (mapping_get s entries); [by left | done].
    + intros t c x Hf Hs Ht. destruct v as [| | | |l|m|]; try done.
      * exfalso. simpl in Hf, Ht. unfold indexed in Ei. destruct (segment_index s); [done|].
        destruct Hf as [[->|[? ?]] _]; [|done]. by destruct (segment_index t).
      * simpl in Hs, Ht |- *. rewrite mapping_get_other; [done|]. by apply String.eqb_neq.
    + intros t c Hs. assert (Hkey : s = t -> child_at t v = child_at s v
        /\ (is_Some (child_at t v) -> child_at t (VMapping (mapping_insert s c (as_mapping v))) = Some c)).
      { intros ->. split; [done|]. intros _. apply mapping_get_insert. }
      destruct v as [| | | |l|m|]; try (apply Hkey; by apply String.eqb_eq).
      apply bool_decide_eq_true in Hs. unfold indexed in Ei. simpl. rewrite <- Hs. destruct (segment_index s); [done|].
      split; [done | by intros [? ?]].
Qed.

(** Setting the leaf is writing the value through the reference. *)
Lemma leaf_descend max_items v s value next :
  set_env_override_leaf max_items v s value =
  match descend_env_override_path max_items v s next with Some (_, put) => Some (put value) | None => None end.
Proof.
  unfold set_env_override_leaf, descend_env_override_path. destruct (indexed s v) as [[i items]|]; [|done].
  by destruct (grow max_items items i).
Qed.

(** An override writes its value at its path and keeps what other paths lead to. *)
Lemma override_at_spec max_items path value root root' :
  path <> [] -> override_at max_items path value root = Some root' ->
  value_at path root' = Some value
  /\ (fits path root -> forall q x, parted path q root -> value_at q root = Some x -> value_at q root' = Some x).
Proof.
  revert root root'. induction path as [|s rest IH]; intros root root' Hp E; [done|].
  assert (exists child put c, descend_env_override_path max_items root s (default "" (head rest)) = Some (child, put)
            /\ root' = put c /\ value_at rest c = Some value
            /\ (fits rest child -> forall q x, parted rest q child -> value_at q child = Some x -> value_at q c = Some x))
    as (child & put & c & Ed & -> & Hc & Hkeep).
  { destruct rest as [|next rest]; cbn [override_at] in E.
    - rewrite (leaf_descend _ _ _ _ "") in E. simpl. destruct (descend_env_override_path _ _ _ _) as [[child put]|] eqn:Ed; [|done].
      injection E as <-. exists child, put, value. by split_and!.
    - simpl. destruct (descend_env_override_path _ _ _ _) as [[child put]|]; [|done].
      change (match override_at max_items (next :: rest) value child with Some c => Some (put c) | None => None end = Some root') in E.
      destruct (override_at max_items (next :: rest) value child) as [c|] eqn:Eo; [|done]. injection E as <-.
      destruct (IH child c ltac:(done) Eo). by exists child, put, c. }
  apply descend_spec in Ed as (Hput & Hold & Hother & Hsame). split.
  - cbn [value_at]. by rewrite Hput.
  - intros [Hf Hfr] [|t q] x Hpart Hx; [done|]. cbn [value_at parted] in *. destruct (same_child root s t) eqn:Es.
    + destruct (Hsame t c Es) as [Et Hin]. rewrite Et in *. destruct (child_at s root) as [c0|]; [|done].
      rewrite Hin by done. destruct Hold as [->| ->]; [by apply Hkeep|].
      destruct q; [by destruct rest | done].
    + destruct (child_at t root) as [c0|] eqn:Et; [|done].
      rewrite (Hother t c c0); [done | | done | done]. split; [done|]. by destruct (child_at s root).
Qed.

Definition small_index (max_items : Z) (segment : string) : Prop :=
  match segment_index segment with Some i => i < max_items | None => True end.

Lemma descend_total max_items v s next :
  small_index max_items s -> is_Some (descend_env_override_path max_items v s next).
Proof.
  unfold small_index, descend_env_override_path. intros Hs. destruct (indexed s v) as [[i items]|] eqn:Ei; [|by eexists].
  apply indexed_Some in Ei as (_ & Es & _). rewrite Es in Hs. unfold grow.
  destruct (i <? zlen items); [by eexists|]. destruct (Z.leb_spec max_items i); [lia|]. by eexists.
Qed.

Lemma override_total max_items path value root :
  Forall (small_index max_items) path -> is_Some (override_at max_items path value root).
Proof.
  intros H. revert root. induction H as [|s rest Hs _ IH]; intros root; [by eexists|]. destruct rest as [|next rest].
  - cbn [override_at]. rewrite (leaf_descend _ _ _ _ ""). destruct (descend_total max_items root s "" Hs) as [[? ?] ->]. by eexists.
  - destruct (descend_total max_items root s next Hs) as [[child put] E]. destruct (IH child) as [c Ec].
    cbn [override_at] in *. rewrite E, Ec. by eexists.
Qed.

(** An environment override does what its name says: it succeeds when its indices
    can be allocated, afterwards its path leads to its value, and as long as it asks
    for no key inside a sequence, everything another path led to, up to where the
    paths part, is still there. *)
Theorem env_override_exact max_items root name path value :
  path <> [] -> Forall (small_index max_items) path ->
  exists root', apply_env_override max_items root name path value = Some (Ok root')
    /\ value_at path root' = Some value
    /\ (fits path root -> forall q x, parted path q root -> value_at q root = Some x -> value_at q root' = Some x).
Proof.
  intros Hp Hs. destruct (override_total max_items path value root Hs) as [root' E]. exists root'.
  destruct (override_at_spec _ _ _ _ _ Hp E) as [Hv Hk]. split_and!; [|done..].
  unfold apply_env_override. rewrite E. by destruct path.
Qed.

(** The document of the witness: a mapping with a region and a list of providers. *)
Definition demo_document : Value :=
  VMapping [(VString "regions", VMapping [(VString "jp", VMapping [(VString "enabled", VBool true)])]);
            (VString "providers", VSequence [VString "a"; VString "b"])].

Lemma env_override_exact_witness :
  exists root', apply_env_override 64 demo_document "HARUKI__PROVIDERS__3" ["providers"; "3"] (VString "d") = Some (Ok root')
    /\ value_at ["providers"; "3"] root' = Some (VString "d")
    /\ value_at ["providers"; "2"] root' = Some Null
    /\ value_at ["providers"; "1"] root' = Some (VString "b")
    /\ value_at ["regions"; "jp"; "enabled"] root' = Some (VBool true).
Proof.
  destruct (env_override_exact 64 demo_document "HARUKI__PROVIDERS__3" ["providers"; "3"] (VString "d"))
    as (root' & E & Hv & Hk).
  { done. }
  { repeat constructor; vm_compute; reflexivity. }
  exists root'. assert (Hf : fits ["providers"; "3"] demo_document).
  { split; [exact I|]. split; [right; by eexists | exact I]. }
  split_and!; [done | done | | apply Hk; [done | exact I | done] | apply Hk; [done | exact I | done]].
  vm_compute in E. by injection E as <-.
Defined.

(** A key asked of a list replaces the list. *)
Example key_in_sequence :
  override_at 64 ["providers"; "name"] (VString "x") demo_document
  = Some (VMapping [(VString "regions", VMapping [(VString "jp", VMapping [(VString "enabled", VBool true)])]);
                    (VString "providers", VMapping [(VString "name", VString "x")])]).
Proof. reflexivity. Qed.
