(* ===== verification/ConfigLoad.v ===== *)
(** * Configuration: loading and validation

    [AppConfig::load_default] of [core/config.rs]: the document is found in object
    storage or in one of the candidate files, its environment references and overrides
    are applied ([ConfigEnv]), it is read into the structs, the named environment
    variables and the secrets are resolved, and the result is validated.  The YAML
    library, the parsing and printing of an [f64], and the object storage are
    parameters. *)

From Stdlib Require Import Ascii.
From Corelib Require Import SpecFloat.
From S2P Require Import Prelude RustStr Errors Config ConfigEnv.

Local Open Scope string_scope.
Local Open Scope list_scope.
Local Open Scope Z_scope.
Local Open Scope rust_scope.

(** ** Values read from a variable *)

Definition non_empty_option (value : string) : option string := if blank value then None else Some value.

Definition parse_positive_usize (field value : string) : result Z ConfigError :=
  let trimmed := trim value in
  let? parsed := ok_or (parse_unsigned 64 trimmed) (InvalidValue field trimmed "a positive integer") in
  if parsed =? 0 then Err (InvalidValue field trimmed "a positive integer") else Ok parsed.

Definition parse_usize_env (field value : string) : result Z ConfigError :=
  ok_or (parse_unsigned 64 (trim value)) (InvalidValue field (trim value) "a non-negative integer").

Definition ratio_expected : string := "a number greater than 0 and less than or equal to 1".

(** One of the names of a table, or the error with the text that is in none. *)
Fixpoint choose {A} (names : list (list string * A)) (text : string) (e : ConfigError) : result A ConfigError :=
  match names with
  | [] => Err e
  | (accepted, v) :: names' => if existsb (String.eqb text) accepted then Ok v else choose names' text e
  end.

Section Parsing.
Context `{UnicodeCase}.

Definition lower (value : string) : string := str_to_lowercase (trim value).

Definition parse_bool_env (field value : string) : result bool ConfigError :=
  choose [(["1"; "true"; "yes"; "on"], true); (["0"; "false"; "no"; "off"], false)] (lower value)
    (InvalidValue field (trim value) "true or false").

(** [FromStr] of the enums. *)
Definition AssetHttpVersion_from_str (value : string) : result AssetHttpVersion ConfigError :=
  choose [(["auto"], HttpAuto); (["http1"; "http1_only"; "http/1"; "http/1.1"], Http1)] (lower value)
    (InvalidValue "server.asset_http_version" (lower value) "auto or http1").

Definition AssetStudioFfiMode_from_str (value : string) : result AssetStudioFfiMode ConfigError :=
  let text := to_ascii_lowercase (trim value) in
  choose [(["direct"], ModeDirect); (["worker_pool"; "worker-pool"; "worker"; "pool"], ModeWorkerPool)] text
    (InvalidValue "backends.asset_studio.mode" text "direct or worker_pool").

Definition ImageBackend_from_str (value : string) : result ImageBackend ConfigError :=
  choose [(["rust"], ImageRust)] (lower value) (InvalidValue "backends.image.backend" (lower value) "rust").

Definition ImagePngCompression_from_str (value : string) : result ImagePngCompression ConfigError :=
  choose [(["fast"], PngFast); (["default"], PngDefault); (["best"], PngBest)] (lower value)
    (InvalidValue "backends.image.png_compression" (lower value) "fast, default, or best").

Definition ImageOutputFormat_from_str (value : string) : result ImageOutputFormat ConfigError :=
  choose [(["png"], Png); (["jpg"; "jpeg"], Jpg); (["webp"], Webp)] (lower value)
    (InvalidValue "export.images.formats" (lower value) "png, jpg, or webp").

Definition VideoOutputFormat_from_str (value : string) : result VideoOutputFormat ConfigError :=
  choose [(["m2v"], M2v); (["mp4"], Mp4)] (lower value) (InvalidValue "export.video.formats" (lower value) "m2v or mp4").

Definition AudioOutputFormat_from_str (value : string) : result AudioOutputFormat ConfigError :=
  choose [(["wav"], Wav); (["flac"], Flac); (["mp3"], Mp3)] (lower value)
    (InvalidValue "export.audio.formats" (lower value) "wav, flac, or mp3").

Definition MediaBackend_from_str (value : string) : result MediaBackend ConfigError :=
  choose [(["auto"], BackendAuto); (["ffi"], BackendFfi); (["cli"], BackendCli)] (lower value)
    (InvalidValue "backends.media.backend" (lower value) "auto, ffi, or cli").

Definition validate_asset_studio_ffi_image_format (value : string) : result unit ConfigError :=
  choose [(["raw_rgba"], tt)] (lower value) (InvalidValue "backends.asset_studio.image_format" (lower value) "raw_rgba").

Definition normalize_asset_studio_ffi_image_format (value : string) : result string ConfigError :=
  let? _ := validate_asset_studio_ffi_image_format (lower value) in Ok (lower value).

Definition read_kind_names : list string :=
  ["auto"; "raw"; "typetree_json"; "image"; "image_archive"; "audio"; "video"; "font"; "shader"; "text"; "text_bytes";
   "mesh"; "obj"; "animator"; "fbx"; "pjsk_model_package"; "pjsk_animation_clip_decoded"].

Definition validate_asset_studio_ffi_read_kind (field value : string) : result unit ConfigError :=
  choose [(read_kind_names, tt)] (lower value)
    (InvalidValue field (lower value) ("auto, raw, typetree_json, image, image_archive, audio, video, font, shader, text, "
       +:+ "text_bytes, mesh, obj, animator, fbx, pjsk_model_package, or pjsk_animation_clip_decoded")).
End Parsing.

(** [storage_option_value_to_string]; a number is kept as its text. *)
Definition storage_option_value_to_string (v : Value) : result string string :=
  match v with
  | Null => Ok ""
  | VBool b => Ok (if b then "true" else "false")
  | VNumber text => Ok text
  | VString s => Ok s
  | VSequence _ | VMapping _ | VTagged _ _ => Err "storage provider options must be scalar values"
  end.

(** ** Variables and secrets *)

(** [if let Ok(value) = env::var(name) { field = parse(value)?; }]. *)
Definition setting {A} (env : environment) (name : string) (parse : string -> result A ConfigError) (old : A)
  : result A ConfigError :=
  match env !! name with Some value => parse value | None => Ok old end.

(** The name in a secret that is written as a reference. *)
Definition secret_reference (value : option string) : option string :=
  match value with
  | None => None
  | Some raw =>
      match strip_prefix "${env:" (trim raw) with
      | None => None
      | Some rest => match strip_suffix "}" rest with Some name => Some (trim name) | None => None end
      end
  end.

Definition resolve_secret_env (env : environment) (field : string) (value : option string) : result (option string) ConfigError :=
  match secret_reference value with
  | None => Ok value
  | Some name => let? resolved := ok_or (env !! name) (MissingEnvironmentVariable field name) in Ok (Some resolved)
  end.

Definition resolve_provider (env : environment) (e : nat * StorageProviderConfig) : result StorageProviderConfig ConfigError :=
  let '(idx, p) := e in
  let? access := resolve_secret_env env ("storage.providers[" +:+ pretty idx +:+ "].access_key") (access_key p) in
  let? secret := resolve_secret_env env ("storage.providers[" +:+ pretty idx +:+ "].secret_key") (secret_key p) in
  Ok (mkStorageProviderConfig (provider_name p) (scheme p) (provider_root p) (public_base_url p) (provider_options p)
        (provider_endpoint p) (provider_tls p) (provider_bucket p) (provider_prefix p) (provider_path_style p)
        (provider_region p) (provider_public_read p) access secret).

Definition resolve_region (env : environment) (e : string * RegionConfig) : result (string * RegionConfig) ConfigError :=
  let '(name, r) := e in
  let? key := resolve_secret_env env ("regions." +:+ name +:+ ".crypto.aes_key_hex") (aes_key_hex (crypto r)) in
  let? iv := resolve_secret_env env ("regions." +:+ name +:+ ".crypto.aes_iv_hex") (aes_iv_hex (crypto r)) in
  Ok (name, mkRegionConfig (region_enabled r) (provider r) (mkCryptoConfig key iv) (unity_version r) (paths r) (filters r)
              (export r) (upload r)).

Definition with_password (g : ChartHashConfig) (password : option string) : ChartHashConfig :=
  mkChartHashConfig (chart_enabled g) (repository_dir g) (chart_username g) (chart_email g) password (sign_commits g)
    (signing_format g) (signing_key g) (signing_program g).

Section Resolve.
Context `{UnicodeCase}.
Variable parse_f64 : string -> option spec_float.

Definition parse_cpu_ratio_env (field value : string) : result spec_float ConfigError :=
  ok_or (parse_f64 (trim value)) (InvalidValue field (trim value) ratio_expected).

Definition parse_gc_conserve (value : string) : result (option Z) ConfigError :=
  let? parsed := parse_usize_env "backends.asset_studio.worker_gc_conserve_memory" value in
  if parsed >? 9 then Err (InvalidValue "backends.asset_studio.worker_gc_conserve_memory" value "an integer from 0 to 9")
  else Ok (Some parsed).

Definition parse_image_format (value : string) : result (option string) ConfigError :=
  let? format := normalize_asset_studio_ffi_image_format value in Ok (non_empty_option format).

(** The settings of [backends.asset_studio]. *)
Definition resolve_asset_studio (env : environment) (a : AssetStudioBackendConfig) : result AssetStudioBackendConfig ConfigError :=
  let? library_path := setting env "HARUKI_ASSET_STUDIO_FFI_LIBRARY_PATH" (fun v => Ok (non_empty_option v)) (as_library_path a) in
  let? mode := setting env "HARUKI_ASSET_STUDIO_FFI_MODE" AssetStudioFfiMode_from_str (as_mode a) in
  let? worker_path := setting env "HARUKI_ASSET_STUDIO_FFI_WORKER_PATH" (fun v => Ok (non_empty_option v)) (as_worker_path a) in
  let? process_concurrency := setting env "HARUKI_ASSET_STUDIO_FFI_PROCESS_CONCURRENCY"
    (parse_usize_env "backends.asset_studio.process_concurrency") (as_process_concurrency a) in
  let? worker_max_calls := setting env "HARUKI_ASSET_STUDIO_FFI_WORKER_MAX_CALLS"
    (parse_usize_env "backends.asset_studio.worker_max_calls") (as_worker_max_calls a) in
  let? read_batch_size := setting env "HARUKI_ASSET_STUDIO_FFI_READ_BATCH_SIZE"
    (parse_positive_usize "backends.asset_studio.read_batch_size") (as_read_batch_size a) in
  let? idle := setting env "HARUKI_ASSET_STUDIO_FFI_WORKER_IDLE_TIMEOUT_SECONDS"
    (parse_usize_env "backends.asset_studio.worker_idle_timeout_seconds") (as_worker_idle_timeout_seconds a) in
  let? hard_limit := setting env "HARUKI_ASSET_STUDIO_FFI_WORKER_GC_HEAP_HARD_LIMIT_MB"
    (parse_usize_env "backends.asset_studio.worker_gc_heap_hard_limit_mb") (as_worker_gc_heap_hard_limit_mb a) in
  let? conserve := setting env "HARUKI_ASSET_STUDIO_FFI_WORKER_GC_CONSERVE_MEMORY" parse_gc_conserve
    (as_worker_gc_conserve_memory a) in
  let? flush := setting env "HARUKI_ASSET_STUDIO_FFI_IMAGE_FLUSH_BYTES"
    (parse_usize_env "backends.asset_studio.image_flush_bytes") (as_image_flush_bytes a) in
  let? image_format := setting env "HARUKI_ASSET_STUDIO_FFI_IMAGE_FORMAT" parse_image_format (as_image_format a) in
  Ok (mkAssetStudioBackendConfig library_path mode worker_path process_concurrency worker_max_calls read_batch_size
        image_format (as_read_kinds a) idle hard_limit conserve flush).

(** The settings of [concurrency]; one variable sets the three encoders. *)
Definition resolve_concurrency (env : environment) (c : ConcurrencyConfig) : result ConcurrencyConfig ConfigError :=
  let media := setting env "HARUKI_MEDIA_ENCODE_CONCURRENCY" (parse_positive_usize "concurrency.media_encode") in
  let? media_encode' := media (media_encode c) in
  let? audio := media (audio_encode c) in
  let? video := media (video_encode c) in
  let? audio := setting env "HARUKI_AUDIO_ENCODE_CONCURRENCY" (parse_positive_usize "concurrency.audio_encode") audio in
  let? video := setting env "HARUKI_VIDEO_ENCODE_CONCURRENCY" (parse_positive_usize "concurrency.video_encode") video in
  let? download' := setting env "HARUKI_DOWNLOAD_CONCURRENCY" (parse_positive_usize "concurrency.download") (download c) in
  let? post := setting env "HARUKI_POST_PROCESS_CONCURRENCY" (parse_positive_usize "concurrency.post_process") (post_process c) in
  let? tune := setting env "HARUKI_CONCURRENCY_AUTO_TUNE" (parse_bool_env "concurrency.auto_tune") (auto_tune c) in
  Ok (mkConcurrencyConfig tune download' (upload_concurrency c) post (acb_concurrency c) (usm_concurrency c)
        (hca_concurrency c) media_encode' audio video (images_concurrency c)).

(** The settings of [resources]. *)
Definition resolve_resources (env : environment) (r : ResourcesConfig) : result ResourcesConfig ConfigError :=
  let? auto := setting env "HARUKI_CPU_BUDGET_AUTO" (parse_bool_env "resources.cpu.budget_auto") (budget_auto (cpu r)) in
  let? ratio := setting env "HARUKI_CPU_BUDGET_RATIO" (parse_cpu_ratio_env "resources.cpu.budget_ratio") (budget_ratio (cpu r)) in
  let? reserved' := setting env "HARUKI_CPU_RESERVED" (parse_usize_env "resources.cpu.reserved") (reserved (cpu r)) in
  let? enabled := setting env "HARUKI_CPU_THROTTLE_ENABLED" (parse_bool_env "resources.cpu.throttle.enabled")
    (throttle_enabled (throttle (cpu r))) in
  let? sample := setting env "HARUKI_CPU_THROTTLE_SAMPLE_MS" (parse_positive_usize "resources.cpu.throttle.sample_ms")
    (sample_ms (throttle (cpu r))) in
  let? in_flight := setting env "HARUKI_MAX_IN_FLIGHT_BUNDLE_BYTES"
    (parse_usize_env "resources.memory.max_in_flight_bundle_bytes") (max_in_flight_bundle_bytes (memory r)) in
  Ok (mkResourcesConfig (mkCpuResourceConfig auto ratio reserved' (mkCpuThrottleConfig enabled sample))
        (mkMemoryResourceConfig in_flight)).

Definition resolve_env_overrides (env : environment) (c : AppConfig) : result AppConfig ConfigError :=
  let? media := setting env "HARUKI_MEDIA_BACKEND" MediaBackend_from_str (media_backend (backend_media (backends c))) in
  let? studio := resolve_asset_studio env (asset_studio (backends c)) in
  let? http := setting env "HARUKI_ASSET_HTTP_VERSION" AssetHttpVersion_from_str (asset_http_version (server c)) in
  let? conc := resolve_concurrency env (concurrency c) in
  let? res := resolve_resources env (resources c) in
  let? password := resolve_secret_env env "git_sync.chart_hashes.password" (chart_password (chart_hashes c)) in
  let? provs := collect_results (resolve_provider env) (imap pair (providers (storage c))) in
  let? regs := collect_results (resolve_region env) (btree_entries (regions c)) in
  Ok (mkAppConfig (config_version c)
        (mkServerConfig (host (server c)) (port (server c)) (proxy (server c)) http (auth (server c)) (server_tls (server c)))
        (execution c)
        (mkBackendsConfig studio (mkMediaBackendConfig media (media_ffmpeg_path (backend_media (backends c))))
           (backend_image (backends c)))
        res conc (mkStorageConfig provs) (with_password (chart_hashes c) password) (poller c) (hip c) (list_to_map regs)).
End Resolve.

(** ** Validation *)

Definition CURRENT_CONFIG_VERSION : Z := 3.

(** [if bad { return Err(..) }]. *)
Definition reject (bad : bool) (e : ConfigError) : result unit ConfigError := if bad then Err e else Ok tt.

(** A loop whose body returns early on an error. *)
Fixpoint each {A} (f : A -> result unit ConfigError) (l : list A) : result unit ConfigError :=
  match l with
  | [] => Ok tt
  | x :: l' => let? _ := f x in each f l'
  end.

Definition validate_image_backend (image : ImageBackendConfig) : result unit ConfigError :=
  reject (negb ((1 <=? jpeg_quality image) && (jpeg_quality image <=? 100)))
    (InvalidValue "backends.image.jpeg_quality" (pretty (jpeg_quality image)) "an integer from 1 to 100").

(** The [validate_image_export_config], [validate_video_export_config] and
    [validate_audio_export_config] of a region. *)
Definition validate_image_export_config (region : string) (formats : list ImageOutputFormat) : result unit ConfigError :=
  reject (bool_decide (dedupe_formats [] formats = []))
    (InvalidValue ("regions." +:+ region +:+ ".export.images.formats") "[]" "at least one of png, jpg, or webp").
Definition validate_video_export_config (region : string) (video : VideoExportConfig) : result unit ConfigError :=
  reject (bool_decide (dedupe_formats [] (video_export_formats video) = []))
    (InvalidValue ("regions." +:+ region +:+ ".export.video.formats") "[]" "at least one of m2v or mp4").
Definition validate_audio_export_config (region : string) (formats : list AudioOutputFormat) : result unit ConfigError :=
  reject (bool_decide (dedupe_formats [] formats = []))
    (InvalidValue ("regions." +:+ region +:+ ".export.audio.formats") "[]" "at least one of wav, flac, or mp3").

Definition validate_haruki_3d_export_config (region : string) (h : Haruki3dExportConfig) : result unit ConfigError :=
  let at_field field := "regions." +:+ region +:+ ".export.haruki_3d." +:+ field in
  if negb (h3d_enabled h) then Ok tt else
  let? _ := each (fun '(field, value) => reject (blank value) (InvalidValue (at_field field) value "a non-empty path"))
    [("exporter_path", exporter_path h); ("master_dir", master_dir h); ("output_dir", h3d_output_dir h);
     ("manifest_file", manifest_file h)] in
  let? _ := reject (blank (work_dir h) && blank (staging_dir h)) (InvalidValue (at_field "work_dir") (work_dir h) "a non-empty path") in
  let? _ := reject (bool_decide (h3d_include h = [])) (InvalidValue (at_field "include") "[]" "at least one include pattern") in
  match find (fun id => id <=? 0) (role_character3d_ids h) with
  | Some id => Err (InvalidValue (at_field "role_character3d_ids") (pretty id) "positive character3d ids")
  | None => Ok tt
  end.

Section Validate.
Context `{UnicodeCase}.
(** [f64::to_string]. *)
Variable f64_to_string : spec_float -> string.

Definition validate_asset_studio_ffi_read_kinds (read_kinds : gmap string string) : result unit ConfigError :=
  each (fun '(asset_type, kind) =>
          let? _ := reject (blank asset_type)
            (InvalidValue "backends.asset_studio.read_kinds" asset_type "non-empty AssetStudio type selector") in
          validate_asset_studio_ffi_read_kind ("backends.asset_studio.read_kinds." +:+ asset_type) kind)
    (btree_entries read_kinds).

(** [!(0.0..=1.0).contains(&ratio) || ratio == 0.0]. *)
Definition bad_ratio (ratio : spec_float) : bool :=
  negb (SFleb (S754_zero false) ratio && SFleb ratio (f64_of_Z 1)) || SFeqb ratio (S754_zero false).

Definition positive_field (field : string) (value : Z) : result unit ConfigError :=
  reject (value =? 0) (InvalidValue field "0" "a positive integer").

Definition validate_region (e : string * RegionConfig) : result unit ConfigError :=
  let '(name, region) := e in
  let? _ := validate_image_export_config name (export_images (export region)) in
  let? _ := validate_video_export_config name (export_video (export region)) in
  let? _ := validate_audio_export_config name (export_audio (export region)) in
  validate_haruki_3d_export_config name (haruki_3d (export region)).

Definition validate (c : AppConfig) : result unit ConfigError :=
  let studio := asset_studio (backends c) in
  let? _ := reject (negb (config_version c =? CURRENT_CONFIG_VERSION)) (UnsupportedVersion (config_version c)) in
  let? _ := each (fun '(name, _) => reject (negb (String.eqb (str_to_lowercase name) name)) (InvalidRegionName name))
    (btree_entries (regions c)) in
  let? _ := reject (bad_ratio (budget_ratio (cpu (resources c))))
    (InvalidValue "resources.cpu.budget_ratio" (f64_to_string (budget_ratio (cpu (resources c)))) ratio_expected) in
  let? _ := positive_field "backends.asset_studio.read_batch_size" (as_read_batch_size studio) in
  let? _ := positive_field "concurrency.media_encode" (media_encode (concurrency c)) in
  let? _ := positive_field "concurrency.audio_encode" (audio_encode (concurrency c)) in
  let? _ := positive_field "concurrency.video_encode" (video_encode (concurrency c)) in
  let? _ := match as_image_format studio with
            | Some format => validate_asset_studio_ffi_image_format format
            | None => Ok tt
            end in
  let? _ := match as_worker_gc_conserve_memory studio with
            | Some conserve =>
                reject (conserve >? 9)
                  (InvalidValue "backends.asset_studio.worker_gc_conserve_memory" (pretty conserve) "an integer from 0 to 9")
            | None => Ok tt
            end in
  let? _ := validate_image_backend (backend_image (backends c)) in
  let? _ := each validate_region (btree_entries (regions c)) in
  validate_asset_studio_ffi_read_kinds (as_read_kinds studio).
End Validate.

(** ** Finding the document *)

(** [struct ConfigStorageUri]. *)
Record ConfigStorageUri : Type := mkConfigStorageUri { uri_provider : string; uri_path : string }.

Definition parse_config_storage_uri (uri : string) : result ConfigStorageUri ConfigError :=
  let? raw := ok_or (strip_prefix "opendal://" uri)
    (InvalidConfigUri uri "only opendal:// config URIs are supported; use HARUKI_CONFIG_PATH for local files") in
  let? parts := ok_or (split_once "/" (trim_start_matches "/" raw)) (InvalidConfigUri uri "expected opendal://<provider>/<path>") in
  let provider := trim parts.1 in
  let path := replace_char "\" "/" (trim_matches "/" (trim parts.2)) in
  if is_empty provider then Err (InvalidConfigUri uri "provider is empty")
  else if is_empty path then Err (InvalidConfigUri uri "path is empty")
  else Ok (mkConfigStorageUri provider path).

Definition option_prefix : string := "HARUKI_CONFIG_OPENDAL_OPTION_".

(** One variable that [config_storage_provider_options] keeps as an option; its check
    for an empty key repeats the filter's and cannot fail. *)
Definition option_of_variable (e : string * string) : option (string * string) :=
  match strip_prefix option_prefix e.1 with
  | Some key => if is_empty key || blank e.2 then None else Some (to_ascii_lowercase key, e.2)
  | None => None
  end.

(** [vars] is what [env::vars()] yields, in its order; a later option replaces an
    earlier one of the same key. *)
Definition config_storage_provider_options (env : environment) (vars : list (string * string))
  : result (string * gmap string string) ConfigError :=
  let? scheme := ok_or (non_empty (option_map (fun s => to_ascii_lowercase (trim s)) (env !! "HARUKI_CONFIG_OPENDAL_SCHEME")))
    (MissingEnvironmentVariable "HARUKI_CONFIG_URI" "HARUKI_CONFIG_OPENDAL_SCHEME") in
  let root : gmap string string :=
    match non_empty (option_map trim (env !! "HARUKI_CONFIG_OPENDAL_ROOT")) with
    | Some root => {[ "root" := root ]}
    | None => ∅
    end in
  Ok (scheme, foldl (fun options '(key, value) => <[key := value]> options) root (omap option_of_variable vars)).

Definition candidate_paths (env : environment) : list string :=
  option_list (env !! "HARUKI_CONFIG_PATH")
  ++ ["haruki-asset-configs.yaml"; "../haruki-asset-configs.yaml"; "../../haruki-asset-configs.yaml"].

(** ** Loading *)

Section Load.
Context `{UnicodeCase}.
(** [yaml_serde::from_str] and [yaml_serde::from_value]; [f64] as text; the vector
    lengths that can be allocated. *)
Variable yaml_from_str : string -> result Value string.
Variable yaml_from_value : Value -> result AppConfig string.
Variable parse_f64 : string -> option spec_float.
Variable f64_to_string : spec_float -> string.
Variable max_items : Z.
(** [Operator::via_iter] and [Operator::read] of the object storage library. *)
Variable operator : Type.
Variable via_iter : string -> gmap string string -> result operator string.
Variable storage_read : operator -> string -> result bytes string.
(** The disk: [None] where [Path::exists] is false, else what [fs::read_to_string]
    gives. *)
Variable disk : string -> option (result string io_error).
(** The environment, and its variables in the order of [env::vars()]. *)
Variable env : environment.
Variable vars : list (string * string).

Definition yaml_ok (raw : string) : option Value := match yaml_from_str raw with Ok v => Some v | Err _ => None end.

(** [None] is the end of the process in an override that cannot be allocated. *)
Definition load_from_str (path raw : string) : option (result AppConfig ConfigError) :=
  match yaml_from_str raw with
  | Err source => Some (Err (ConfigParse path source))
  | Ok value =>
      match expand_env_references env value with
      | Err e => Some (Err e)
      | Ok value =>
          match apply_env_overrides yaml_ok max_items env value with
          | None => None
          | Some (Err e) => Some (Err e)
          | Some (Ok value) =>
              Some (let? config := result_map_err (ConfigParse path) (yaml_from_value value) in
                    let? config := resolve_env_overrides parse_f64 env config in
                    let? _ := validate f64_to_string config in
                    Ok config)
          end
      end
  end.

Definition load_from_path (path : string) : option (result AppConfig ConfigError) :=
  match default (Err NotFound) (disk path) with
  | Err source => Some (Err (ConfigRead path source))
  | Ok raw => load_from_str path raw
  end.

(** The text [load_from_opendal_uri] reads. *)
Definition fetch_config (uri : string) : result string ConfigError :=
  let? storage_uri := parse_config_storage_uri uri in
  let? so := config_storage_provider_options env vars in
  let? op := result_map_err (ConfigStorageProvider (uri_provider storage_uri)) (via_iter so.1 so.2) in
  let? bytes := result_map_err (ConfigStorageRead uri) (storage_read op (uri_path storage_uri)) in
  ok_or (from_utf8 bytes) (ConfigInvalidUtf8 uri).

Definition load_from_opendal_uri (uri : string) : option (result AppConfig ConfigError) :=
  match fetch_config uri with
  | Err e => Some (Err e)
  | Ok raw => load_from_str uri raw
  end.

Definition load_default : option (result AppConfig ConfigError) :=
  match trimmed_non_empty (env !! "HARUKI_CONFIG_URI") with
  | Some uri => load_from_opendal_uri uri
  | None =>
      match find (fun path => bool_decide (is_Some (disk path))) (candidate_paths env) with
      | Some path => load_from_path path
      | None => Some (Err (MissingConfigFile (String.concat ", " (candidate_paths env))))
      end
  end.
End Load.

(** ** What a valid configuration is *)

Definition has_text (s : string) : Prop := blank s = false.

Record valid_3d (h : Haruki3dExportConfig) : Prop := {
  v3_paths : Forall has_text [exporter_path h; master_dir h; h3d_output_dir h; manifest_file h];
  v3_work : has_text (work_dir h) \/ has_text (staging_dir h);
  v3_include : h3d_include h <> [];
  v3_ids : Forall (fun id => 0 < id) (role_character3d_ids h)
}.

Record valid_export (e : RegionExportConfig) : Prop := {
  ve_images : export_images e <> [];
  ve_video : video_export_formats (export_video e) <> [];
  ve_audio : export_audio e <> [];
  ve_3d : h3d_enabled (haruki_3d e) = true -> valid_3d (haruki_3d e)
}.

Record valid_config `{UnicodeCase} (c : AppConfig) : Prop := {
  vc_version : config_version c = 3;
  vc_names : forall name r, regions c !! name = Some r -> str_to_lowercase name = name;
  vc_ratio : SFltb (S754_zero false) (budget_ratio (cpu (resources c))) = true
             /\ SFleb (budget_ratio (cpu (resources c))) (f64_of_Z 1) = true;
  vc_batch : as_read_batch_size (asset_studio (backends c)) <> 0;
  vc_encode : Forall (fun n => n <> 0) [media_encode (concurrency c); audio_encode (concurrency c); video_encode (concurrency c)];
  vc_format : forall f, as_image_format (asset_studio (backends c)) = Some f -> lower f = "raw_rgba";
  vc_conserve : forall n, as_worker_gc_conserve_memory (asset_studio (backends c)) = Some n -> n <= 9;
  vc_jpeg : 1 <= jpeg_quality (backend_image (backends c)) <= 100;
  vc_export : forall name r, regions c !! name = Some r -> valid_export (export r);
  vc_kinds : forall ty kind, as_read_kinds (asset_studio (backends c)) !! ty = Some kind ->
               has_text ty /\ lower kind ∈ read_kind_names
}.

(** ** Validation accepts exactly the valid configurations *)

Lemma reject_Ok bad e : reject bad e = Ok tt <-> bad = false.
Proof. by destruct bad. Qed.

Lemma bind_unit_Ok {A} (r : result unit ConfigError) (k : result A ConfigError) x :
  (let? _ := r in k) = Ok x <-> r = Ok tt /\ k = Ok x.
Proof. destruct r as [[]|e]; simpl; [tauto|]. split; [done | by intros []]. Qed.

Lemma each_Ok {A} (f : A -> result unit ConfigError) l : each f l = Ok tt <-> Forall (fun x => f x = Ok tt) l.
Proof.
  induction l as [|x l IH]; simpl; [done|]. by rewrite bind_unit_Ok, IH, Forall_cons.
Qed.

Lemma each_entries {A} (f : string * A -> result unit ConfigError) (m : gmap string A) :
  each f (btree_entries m) = Ok tt <-> forall k v, m !! k = Some v -> f (k, v) = Ok tt.
Proof.
  rewrite each_Ok, Forall_forall. split.
  - intros Hall k v Hk. apply Hall. by apply elem_of_btree_entries.
  - intros Hall [k v] Hin. apply Hall. by apply elem_of_btree_entries.
Qed.

Lemma choose_unit_Ok names text e : choose [(names, tt)] text e = Ok tt <-> text ∈ names.
Proof.
  simpl. destruct (existsb (String.eqb text) names) eqn:E.
  - split; [|done]. intros _. apply existsb_exists in E as (x & Hx & ->%String.eqb_eq). by apply list_elem_of_In.
  - split; [done|]. intros Hin. assert (existsb (String.eqb text) names = true); [|congruence].
    apply existsb_exists. exists text. split; [by apply list_elem_of_In | apply String.eqb_refl].
Qed.

Lemma dedupe_nonempty {A} `{EqDecision A} (seen l : list A) : dedupe_formats seen l = [] <-> seen = [] /\ l = [].
Proof.
  revert seen. induction l as [|x l IH]; intros seen; simpl; [tauto|].
  destruct (existsb _ seen) eqn:E; rewrite IH.
  - destruct seen; [done|]. split; by intros [].
  - split; [by intros [H0%app_eq_nil _]; destruct H0 | by intros []].
Qed.

Lemma formats_Ok {A} `{EqDecision A} (l : list A) e :
  reject (bool_decide (dedupe_formats [] l = [])) e = Ok tt <-> l <> [].
Proof. rewrite reject_Ok, bool_decide_eq_false, dedupe_nonempty. tauto. Qed.

Lemma bad_ratio_spec x :
  bad_ratio x = false <-> SFltb (S754_zero false) x = true /\ SFleb x (f64_of_Z 1) = true.
Proof.
  unfold bad_ratio. generalize (SFleb x (f64_of_Z 1)). intros b.
  rewrite orb_false_iff, negb_false_iff, andb_true_iff.
  destruct x as [[]|[]| |[] m e]; cbv [SFleb SFltb SFeqb SFcompare]; intuition congruence.
Qed.

Lemma find_ids_None l : find (fun id => id <=? 0) l = None <-> Forall (fun id => 0 < id) l.
Proof.
  induction l as [|x l IH]; simpl; [done|]. rewrite Forall_cons. destruct (Z.leb_spec x 0).
  - split; [done|]. intros [? _]. lia.
  - rewrite IH. tauto.
Qed.

Lemma validate_3d_Ok region h :
  validate_haruki_3d_export_config region h = Ok tt <-> (h3d_enabled h = true -> valid_3d h).
Proof.
  unfold validate_haruki_3d_export_config. destruct (h3d_enabled h); simpl negb; cbv iota; [|done].
  rewrite !bind_unit_Ok, each_Ok, !Forall_cons, !reject_Ok, andb_false_iff, bool_decide_eq_false.
  split.
  - intros (Hp & Hw & Hi & Hf) _. constructor; [|done|done|].
    + destruct Hp as (? & ? & ? & ? & _). by repeat constructor.
    + apply find_ids_None. by destruct (find _ _).
  - intros Hv. destruct (Hv eq_refl) as [Hp Hw Hi Hids]. rewrite !Forall_cons in Hp. apply find_ids_None in Hids as ->.
    destruct Hp as (? & ? & ? & ? & _). split_and!; done.
Qed.

Lemma validate_region_Ok name r : validate_region (name, r) = Ok tt <-> valid_export (export r).
Proof.
  unfold validate_region, validate_image_export_config, validate_video_export_config, validate_audio_export_config.
  rewrite !bind_unit_Ok, !formats_Ok, validate_3d_Ok. split; [intros (? & ? & ? & ?) | intros []]; by split_and?.
Qed.

Lemma validate_Ok `{UnicodeCase} f64_to_string c : validate f64_to_string c = Ok tt <-> valid_config c.
Proof.
  unfold validate, validate_image_backend, positive_field, validate_asset_studio_ffi_image_format,
    validate_asset_studio_ffi_read_kinds, validate_asset_studio_ffi_read_kind.
  rewrite !bind_unit_Ok, !reject_Ok, !each_entries, !negb_false_iff, !Z.eqb_eq, !Z.eqb_neq, bad_ratio_spec, andb_true_iff, !Z.leb_le.
  split.
  - intros (? & Hn & Hr & ? & ? & ? & ? & Hf & Hc & Hj & He & Hk). constructor; try done.
    + intros name r Hname. specialize (Hn name r Hname). simpl in Hn. apply reject_Ok, negb_false_iff in Hn. by apply String.eqb_eq.
    + rewrite !Forall_cons. by split_and!.
    + intros f Ef. rewrite Ef in Hf. by apply choose_unit_Ok, list_elem_of_singleton in Hf.
    + intros n En. rewrite En in Hc. apply reject_Ok in Hc. lia.
    + intros name r Hr'. by eapply validate_region_Ok, He.
    + intros ty kind Ht. specialize (Hk ty kind Ht). cbn beta iota in Hk. by rewrite bind_unit_Ok, reject_Ok, choose_unit_Ok in Hk.
  - intros [? Hn [? ?] ? He Hf Hc [? ?] Hx Hk]. rewrite !Forall_cons in He. destruct He as (? & ? & ? & _). split_and!; try done.
    + intros name r Hname. apply reject_Ok, negb_false_iff. apply String.eqb_eq. by eapply Hn.
    + destruct (as_image_format _); [|done]. apply choose_unit_Ok, list_elem_of_singleton. by apply Hf.
    + destruct (as_worker_gc_conserve_memory _) as [n|]; [|done]. apply reject_Ok. specialize (Hc n eq_refl). lia.
    + intros name r Hname. by eapply validate_region_Ok, Hx.
    + intros ty kind Ht. rewrite bind_unit_Ok, reject_Ok, choose_unit_Ok. by apply Hk.
Qed.

(** ** What the environment sets

    A setting is a field of the configuration with the variables that decide it, the
    strongest first. *)
Record Setting : Type := mkSetting {
  s_type : Type;
  s_get : AppConfig -> s_type;
  s_sources : list (string * (string -> result s_type ConfigError))
}.

Definition one {A} (get : AppConfig -> A) (name : string) (parse : string -> result A ConfigError) : Setting :=
  mkSetting A get [(name, parse)].

Section Settings.
Context `{UnicodeCase}.
Variable parse_f64 : string -> option spec_float.

Definition studio_settings : list Setting :=
  let field {A} (get : AssetStudioBackendConfig -> A) name := one (fun c => get (asset_studio (backends c))) ("HARUKI_ASSET_STUDIO_FFI_" +:+ name) in
  [ field as_library_path "LIBRARY_PATH" (fun v => Ok (non_empty_option v));
    field as_mode "MODE" AssetStudioFfiMode_from_str;
    field as_worker_path "WORKER_PATH" (fun v => Ok (non_empty_option v));
    field as_process_concurrency "PROCESS_CONCURRENCY" (parse_usize_env "backends.asset_studio.process_concurrency");
    field as_worker_max_calls "WORKER_MAX_CALLS" (parse_usize_env "backends.asset_studio.worker_max_calls");
    field as_read_batch_size "READ_BATCH_SIZE" (parse_positive_usize "backends.asset_studio.read_batch_size");
    field as_worker_idle_timeout_seconds "WORKER_IDLE_TIMEOUT_SECONDS" (parse_usize_env "backends.asset_studio.worker_idle_timeout_seconds");
    field as_worker_gc_heap_hard_limit_mb "WORKER_GC_HEAP_HARD_LIMIT_MB" (parse_usize_env "backends.asset_studio.worker_gc_heap_hard_limit_mb");
    field as_worker_gc_conserve_memory "WORKER_GC_CONSERVE_MEMORY" parse_gc_conserve;
    field as_image_flush_bytes "IMAGE_FLUSH_BYTES" (parse_usize_env "backends.asset_studio.image_flush_bytes");
    field as_image_format "IMAGE_FORMAT" parse_image_format ].

Definition concurrency_settings : list Setting :=
  let media := ("HARUKI_MEDIA_ENCODE_CONCURRENCY", parse_positive_usize "concurrency.media_encode") in
  [ mkSetting _ (fun c => media_encode (concurrency c)) [media];
    mkSetting _ (fun c => audio_encode (concurrency c))
      [("HARUKI_AUDIO_ENCODE_CONCURRENCY", parse_positive_usize "concurrency.audio_encode"); media];
    mkSetting _ (fun c => video_encode (concurrency c))
      [("HARUKI_VIDEO_ENCODE_CONCURRENCY", parse_positive_usize "concurrency.video_encode"); media];
    one (fun c => download (concurrency c)) "HARUKI_DOWNLOAD_CONCURRENCY" (parse_positive_usize "concurrency.download");
    one (fun c => post_process (concurrency c)) "HARUKI_POST_PROCESS_CONCURRENCY" (parse_positive_usize "concurrency.post_process");
    one (fun c => auto_tune (concurrency c)) "HARUKI_CONCURRENCY_AUTO_TUNE" (parse_bool_env "concurrency.auto_tune") ].

Definition resource_settings : list Setting :=
  [ one (fun c => budget_auto (cpu (resources c))) "HARUKI_CPU_BUDGET_AUTO" (parse_bool_env "resources.cpu.budget_auto");
    one (fun c => budget_ratio (cpu (resources c))) "HARUKI_CPU_BUDGET_RATIO" (parse_cpu_ratio_env parse_f64 "resources.cpu.budget_ratio");
    one (fun c => reserved (cpu (resources c))) "HARUKI_CPU_RESERVED" (parse_usize_env "resources.cpu.reserved");
    one (fun c => throttle_enabled (throttle (cpu (resources c)))) "HARUKI_CPU_THROTTLE_ENABLED" (parse_bool_env "resources.cpu.throttle.enabled");
    one (fun c => sample_ms (throttle (cpu (resources c)))) "HARUKI_CPU_THROTTLE_SAMPLE_MS" (parse_positive_usize "resources.cpu.throttle.sample_ms");
    one (fun c => max_in_flight_bundle_bytes (memory (resources c))) "HARUKI_MAX_IN_FLIGHT_BUNDLE_BYTES"
      (parse_usize_env "resources.memory.max_in_flight_bundle_bytes") ].

Definition settings : list Setting :=
  [ one (fun c => media_backend (backend_media (backends c))) "HARUKI_MEDIA_BACKEND" MediaBackend_from_str;
    one (fun c => asset_http_version (server c)) "HARUKI_ASSET_HTTP_VERSION" AssetHttpVersion_from_str ]
  ++ studio_settings ++ concurrency_settings ++ resource_settings.
End Settings.

(** The strongest variable that is set decides; without one the field is the
    document's. *)
Definition first_set {A} (env : environment) (sources : list (string * (string -> A))) : option A :=
  head (omap (fun s => option_map s.2 (env !! s.1)) sources).

Definition obeys (env : environment) (c c' : AppConfig) (s : Setting) : Prop :=
  match first_set env (s_sources s) with
  | Some r => r = Ok (s_get s c')
  | None => s_get s c' = s_get s c
  end.

(** Every variable that is set has a value its field accepts. *)
Definition reads {A} (env : environment) (src : string * (string -> result A ConfigError)) : Prop :=
  forall v, env !! src.1 = Some v -> is_ok (src.2 v) = true.
Definition readable (env : environment) (s : Setting) : Prop :=
  Forall (reads env) (s_sources s).

(** A secret with its reference followed. *)
Definition secret_value (env : environment) (value : option string) : option string :=
  match secret_reference value with Some name => env !! name | None => value end.
Definition followable (env : environment) (value : option string) : Prop :=
  forall name, secret_reference value = Some name -> is_Some (env !! name).

Definition provider_secrets (p : StorageProviderConfig) : list (option string) := [access_key p; secret_key p].
Definition region_secrets (r : RegionConfig) : list (option string) := [aes_key_hex (crypto r); aes_iv_hex (crypto r)].

Definition provider_resolved (env : environment) (p : StorageProviderConfig) : StorageProviderConfig :=
  mkStorageProviderConfig (provider_name p) (scheme p) (provider_root p) (public_base_url p) (provider_options p)
    (provider_endpoint p) (provider_tls p) (provider_bucket p) (provider_prefix p) (provider_path_style p)
    (provider_region p) (provider_public_read p) (secret_value env (access_key p)) (secret_value env (secret_key p)).
Definition region_resolved (env : environment) (r : RegionConfig) : RegionConfig :=
  mkRegionConfig (region_enabled r) (provider r)
    (mkCryptoConfig (secret_value env (aes_key_hex (crypto r))) (secret_value env (aes_iv_hex (crypto r))))
    (unity_version r) (paths r) (filters r) (export r) (upload r).

(** All the secrets of a configuration. *)
Definition all_secrets (c : AppConfig) (P : option string -> Prop) : Prop :=
  P (chart_password (chart_hashes c))
  /\ Forall (fun p => Forall P (provider_secrets p)) (providers (storage c))
  /\ map_Forall (fun _ r => Forall P (region_secrets r)) (regions c).

(** What no variable and no secret decides. *)
Definition rest_of (c : AppConfig) :=
  (config_version c, (host (server c), port (server c), proxy (server c), auth (server c), server_tls (server c)),
   execution c, media_ffmpeg_path (backend_media (backends c)), backend_image (backends c),
   as_read_kinds (asset_studio (backends c)),
   (upload_concurrency (concurrency c), acb_concurrency (concurrency c), usm_concurrency (concurrency c),
    hca_concurrency (concurrency c), images_concurrency (concurrency c)),
   poller c, hip c).

(** Inversion of a chain of [let?]. *)
Ltac invert_binds H :=
  repeat (let x := fresh "x" in let E := fresh "E" in apply result_bind_Ok in H as (x & E & H); cbv beta in H).

Lemma setting_obeys {A} env n (p : string -> result A ConfigError) old x (get : AppConfig -> A) c c' :
  get c = old -> get c' = x -> setting env n p old = Ok x -> obeys env c c' (one get n p).
Proof. unfold setting, obeys, first_set. simpl. intros <- <- E. destruct (env !! n); simpl in *; congruence. Qed.

Lemma setting2_obeys {A} env n1 n2 (p1 p2 : string -> result A ConfigError) old x y (get : AppConfig -> A) c c' :
  get c = old -> get c' = y -> setting env n2 p2 old = Ok x -> setting env n1 p1 x = Ok y ->
  obeys env c c' (mkSetting A get [(n1, p1); (n2, p2)]).
Proof.
  unfold setting, obeys, first_set. simpl. intros <- <- E1 E2.
  destruct (env !! n1), (env !! n2); simpl in *; congruence.
Qed.

(** A setting is read exactly when its variable is readable. *)
Lemma setting_reads {A} env n (p : string -> result A ConfigError) old x : setting env n p old = Ok x -> reads env (n, p).
Proof. unfold setting. intros E v Hv. simpl in Hv. rewrite Hv in E. simpl. by rewrite E. Qed.

Lemma bind_total {A B E} (r : result A E) (k : A -> result B E) :
  (exists x, r = Ok x) -> (forall x, exists y, k x = Ok y) -> exists y, result_bind r k = Ok y.
Proof. intros [x ->] Hk. apply Hk. Qed.

Lemma setting_total {A} env n (p : string -> result A ConfigError) old : reads env (n, p) -> exists x, setting env n p old = Ok x.
Proof.
  intros Hp. unfold setting. destruct (env !! n) as [v|] eqn:Ev; [|by eexists].
  specialize (Hp v Ev). simpl in Hp. destruct (p v); [by eexists | done].
Qed.

(** Secrets. *)
Lemma resolve_secret_Ok env field value r :
  resolve_secret_env env field value = Ok r <-> followable env value /\ r = secret_value env value.
Proof.
  unfold resolve_secret_env, followable, secret_value. destruct (secret_reference value) as [name|].
  - destruct (env !! name) as [v|] eqn:E; simpl.
    + split; [intros [= <-]; split; [|done] | by intros [_ ->]]. intros ? [= <-]. rewrite E. by eexists.
    + split; [done|]. intros [Hf _]. destruct (Hf name eq_refl). congruence.
  - split; [intros [= <-]; by split | by intros [_ ->]].
Qed.

Lemma resolve_provider_Ok env i p p' :
  resolve_provider env (i, p) = Ok p' <-> Forall (followable env) (provider_secrets p) /\ p' = provider_resolved env p.
Proof.
  unfold resolve_provider, provider_secrets. rewrite !Forall_cons. split.
  - intros H. invert_binds H. rewrite resolve_secret_Ok in *. destruct E as [? ->], E0 as [? ->]. injection H as <-. by split_and!.
  - intros [(Ha & Hs & _) ->].
    rewrite (proj2 (resolve_secret_Ok env _ _ _) (conj Ha eq_refl)). simpl.
    by rewrite (proj2 (resolve_secret_Ok env _ _ _) (conj Hs eq_refl)).
Qed.

Lemma resolve_region_Ok env name r e' :
  resolve_region env (name, r) = Ok e' <-> Forall (followable env) (region_secrets r) /\ e' = (name, region_resolved env r).
Proof.
  unfold resolve_region, region_secrets. rewrite !Forall_cons. split.
  - intros H. invert_binds H. rewrite resolve_secret_Ok in *. destruct E as [? ->], E0 as [? ->]. injection H as <-. by split_and!.
  - intros [(Ha & Hs & _) ->].
    rewrite (proj2 (resolve_secret_Ok env _ _ _) (conj Ha eq_refl)). simpl.
    by rewrite (proj2 (resolve_secret_Ok env _ _ _) (conj Hs eq_refl)).
Qed.

(** A loop that transforms every element, when each step has such a description. *)
Lemma collect_described {A B E} (f : A -> result B E) (P : A -> Prop) (g : A -> B) l ys :
  (forall x y, f x = Ok y <-> P x /\ y = g x) -> collect_results f l = Ok ys <-> Forall P l /\ ys = map g l.
Proof.
  intros Hf. rewrite collect_results_ok. revert ys. induction l as [|x l IH]; intros ys.
  - split; [by inversion 1 | by intros [_ ->]].
  - rewrite Forall_cons. split.
    + inversion 1 as [|? y ? ys' Hx Hl]; subst. apply Hf in Hx as [? ->]. apply IH in Hl as [? ->]. done.
    + intros [[? ?] ->]. simpl. constructor; [by apply Hf | by apply IH].
Qed.

Lemma resolve_providers_Ok env ps ps' :
  collect_results (resolve_provider env) (imap pair ps) = Ok ps'
  <-> Forall (fun p => Forall (followable env) (provider_secrets p)) ps /\ ps' = map (provider_resolved env) ps.
Proof.
  rewrite (collect_described _ (fun e => Forall (followable env) (provider_secrets e.2)) (fun e => provider_resolved env e.2)).
  2:{ intros [i p] p'. apply resolve_provider_Ok. }
  assert (Hsnd : map snd (imap pair ps) = ps).
  { apply list_eq. intros i. change (map snd) with (fmap (M:=list) (@snd nat StorageProviderConfig)).
    rewrite list_lookup_fmap, list_lookup_imap. by destruct (ps !! i). }
  rewrite <- (map_map snd (provider_resolved env)), Hsnd. split; intros [HF ->]; (split; [|done]).
  - rewrite <- Hsnd. by apply List.Forall_map.
  - rewrite <- Hsnd in HF. by apply (proj1 (List.Forall_map snd (fun p => Forall (followable env) (provider_secrets p)) _)) in HF.
Qed.

Lemma resolve_regions_Ok env (m : gmap string RegionConfig) l :
  collect_results (resolve_region env) (btree_entries m) = Ok l
  <-> map_Forall (fun _ r => Forall (followable env) (region_secrets r)) m
      /\ l = map (fun e => (e.1, region_resolved env e.2)) (btree_entries m).
Proof.
  rewrite (collect_described _ (fun e => Forall (followable env) (region_secrets e.2)) (fun e => (e.1, region_resolved env e.2))).
  2:{ intros [n r] e'. apply resolve_region_Ok. }
  rewrite btree_entries_perm at 1. rewrite map_Forall_to_list.
  assert (HF : Forall (fun e => Forall (followable env) (region_secrets e.2)) (map_to_list m)
               <-> Forall (uncurry (fun (_ : string) r => Forall (followable env) (region_secrets r))) (map_to_list m)).
  { apply Forall_iff. by intros [n r]. }
  tauto.
Qed.

Lemma list_to_map_entries {A} (m : gmap string A) : list_to_map (btree_entries m) =@{gmap string A} m.
Proof.
  rewrite <- (list_to_map_to_list m) at 2. apply list_to_map_proper; [|apply btree_entries_perm].
  rewrite btree_entries_perm. apply NoDup_fst_map_to_list.
Qed.

Lemma regions_resolved env (m : gmap string RegionConfig) :
  list_to_map (map (fun e => (e.1, region_resolved env e.2)) (btree_entries m)) =@{gmap string RegionConfig} region_resolved env <$> m.
Proof.
  rewrite <- (list_to_map_entries m) at 2. rewrite <- list_to_map_fmap. f_equal.
Qed.

Section ResolveSpec.
Context `{UnicodeCase}.
Variables (parse_f64 : string -> option spec_float) (env : environment).

Lemma resolve_env_overrides_Ok c c' :
  resolve_env_overrides parse_f64 env c = Ok c' ->
  Forall (fun s => obeys env c c' s /\ readable env s) (settings parse_f64) /\ rest_of c' = rest_of c
  /\ all_secrets c (followable env)
  /\ chart_hashes c' = with_password (chart_hashes c) (secret_value env (chart_password (chart_hashes c)))
  /\ providers (storage c') = map (provider_resolved env) (providers (storage c))
  /\ regions c' = region_resolved env <$> regions c.
Proof.
  unfold resolve_env_overrides. intros H0. invert_binds H0.
  apply resolve_secret_Ok in E4 as [? ->]. apply resolve_providers_Ok in E5 as [? ->]. apply resolve_regions_Ok in E6 as [? ->].
  rewrite regions_resolved in H0. unfold resolve_asset_studio in E0. unfold resolve_concurrency in E2. unfold resolve_resources in E3.
  invert_binds E0. invert_binds E2. invert_binds E3. simplify_eq/=. split_and!; try done.
  unfold settings, studio_settings, concurrency_settings, resource_settings. simpl app. unfold one at 1 2.
  repeat apply Forall_cons_2; try apply Forall_nil_2;
    (split; [first [eapply setting_obeys; [reflexivity|reflexivity|eassumption]
                   | eapply setting2_obeys; [reflexivity|reflexivity|eassumption|eassumption]]
            | repeat apply Forall_cons_2; try apply Forall_nil_2; eapply setting_reads; eassumption]).
Qed.

Lemma resolve_total c :
  Forall (readable env) (settings parse_f64) -> all_secrets c (followable env) ->
  exists c', resolve_env_overrides parse_f64 env c = Ok c'.
Proof.
  intros Hr (Hp & Hs & Hg). unfold settings, studio_settings, concurrency_settings, resource_settings, readable in Hr.
  simpl app in Hr. repeat (apply Forall_cons in Hr as [? Hr]). clear Hr. cbn [s_sources one] in *.
  repeat match goal with
  | HF : Forall (reads env) (_ :: _) |- _ => apply Forall_cons in HF as [? HF]
  | HF : Forall (reads env) [] |- _ => clear HF
  end.
  unfold resolve_env_overrides.
  repeat (apply bind_total; [|intros ?]).
  all: try (apply setting_total; assumption).
  - unfold resolve_asset_studio. repeat (apply bind_total; [apply setting_total; assumption | intros ?]). by eexists.
  - unfold resolve_concurrency. repeat (apply bind_total; [apply setting_total; assumption | intros ?]). by eexists.
  - unfold resolve_resources. repeat (apply bind_total; [apply setting_total; assumption | intros ?]). by eexists.
  - eexists. by apply resolve_secret_Ok.
  - eexists. by apply resolve_providers_Ok.
  - eexists. by apply resolve_regions_Ok.
  - by eexists.
Qed.
End ResolveSpec.

(** ** The claims *)

(** Resolving the environment succeeds exactly when every variable that is set has
    a value its field accepts and every secret written as a reference names a set
    variable.  Then each setting has the value of its strongest variable and is the
    document's where none is set, each secret has the value it refers to, and nothing
    else of the configuration changes. *)
Theorem env_variables_exact `{UnicodeCase} parse_f64 env c :
  ((exists c', resolve_env_overrides parse_f64 env c = Ok c')
   <-> Forall (readable env) (settings parse_f64) /\ all_secrets c (followable env))
  /\ forall c', resolve_env_overrides parse_f64 env c = Ok c' ->
     Forall (obeys env c c') (settings parse_f64) /\ rest_of c' = rest_of c
     /\ chart_hashes c' = with_password (chart_hashes c) (secret_value env (chart_password (chart_hashes c)))
     /\ providers (storage c') = map (provider_resolved env) (providers (storage c))
     /\ regions c' = region_resolved env <$> regions c.
Proof.
  split.
  - split; [|by intros [? ?]; apply resolve_total].
    intros [c' (Hs & _ & ? & _)%resolve_env_overrides_Ok]. split; [|done]. eapply Forall_impl; [exact Hs|]. by intros s [_ ?].
  - intros c' (Hs & ? & _ & ? & ? & ?)%resolve_env_overrides_Ok. split_and!; [|done..].
    eapply Forall_impl; [exact Hs|]. by intros s [? _].
Qed.

Section LoadSpec.
Context `{UnicodeCase}.
Context (yaml_from_str : string -> result Value string) (yaml_from_value : Value -> result AppConfig string).
Context (parse_f64 : string -> option spec_float) (f64_to_string : spec_float -> string) (max_items : Z).
Context (operator : Type) (via_iter : string -> gmap string string -> result operator string).
Context (storage_read : operator -> string -> result bytes string).
Context (disk : string -> option (result string io_error)) (env : environment) (vars : list (string * string)).

(** The text a configuration is read from: the object storage when a URI is given,
    else the first candidate file there is. *)
Definition document (raw : string) : Prop :=
  match trimmed_non_empty (env !! "HARUKI_CONFIG_URI") with
  | Some uri => fetch_config operator via_iter storage_read env vars uri = Ok raw
  | None => exists before path after, candidate_paths env = before ++ path :: after
              /\ Forall (fun p => disk p = None) before /\ disk path = Some (Ok raw)
  end.

(** The configuration the document gives once its references and overrides are in
    place. *)
Definition reads_as (raw : string) (c : AppConfig) : Prop :=
  exists value value',
    yaml_from_str raw = Ok value /\ find (missing env) (references value) = None
    /\ apply_env_overrides (yaml_ok yaml_from_str) max_items env (substituted env value) = Some (Ok value')
    /\ yaml_from_value value' = Ok c.

Lemma load_from_str_sound path raw c :
  load_from_str yaml_from_str yaml_from_value parse_f64 f64_to_string max_items env path raw = Some (Ok c) ->
  exists c0, reads_as raw c0 /\ resolve_env_overrides parse_f64 env c0 = Ok c /\ valid_config c.
Proof.
  unfold load_from_str, reads_as. destruct (yaml_from_str raw) as [value|]; [|done]. rewrite expand_value_exact.
  destruct (find _ _) eqn:Ef; [done|]. destruct (apply_env_overrides _ _ _ _) as [[value'|]|] eqn:Eo; [|done..].
  intros [= E]. apply result_bind_Ok in E as (c0 & Ec & E). apply result_bind_Ok in E as (c1 & Er & E).
  apply bind_unit_Ok in E as [Hv [= <-]]. exists c0. split_and!; [|done|by eapply validate_Ok].
  exists value, value'. split_and!; [done..|]. by destruct (yaml_from_value value'); simplify_eq/=.
Qed.

Lemma find_candidate l path :
  find (fun p => bool_decide (is_Some (disk p))) l = Some path ->
  exists before after, l = before ++ path :: after /\ Forall (fun p => disk p = None) before /\ is_Some (disk path).
Proof.
  induction l as [|p l IH]; simpl; [done|]. case_bool_decide as Hp.
  - intros [= <-]. by exists [], l.
  - intros (before & after & -> & ? & ?)%IH. exists (p :: before), after. split_and!; [done| |done].
    constructor; [|done]. by apply eq_None_not_Some.
Qed.

(** C8: A configuration that is loaded is valid; it was read from the configured object
    storage, or from the first candidate file that exists; every environment
    reference in it was set; and the variables of the environment decide the
    settings. *)
Theorem load_default_sound c :
  load_default yaml_from_str yaml_from_value parse_f64 f64_to_string max_items operator via_iter storage_read disk env vars
    = Some (Ok c) ->
  valid_config c
  /\ exists raw c0, document raw /\ reads_as raw c0 /\ Forall (obeys env c0 c) (settings parse_f64)
     /\ regions c = region_resolved env <$> regions c0.
Proof.
  intros E. assert (exists raw path, document raw
      /\ load_from_str yaml_from_str yaml_from_value parse_f64 f64_to_string max_items env path raw = Some (Ok c)) as (raw & path & Hd & El).
  { unfold load_default in E. unfold document. destruct (trimmed_non_empty _) as [uri|].
    - unfold load_from_opendal_uri in E. destruct (fetch_config _ _ _ _ _ uri) as [raw|]; [|done]. by exists raw, uri.
    - destruct (find _ _) as [path|] eqn:Ef; [|done]. apply find_candidate in Ef as (before & after & Hl & Hb & [r Hr]).
      unfold load_from_path in E. rewrite Hr in E. simpl in E. destruct r as [raw|]; [|done].
      exists raw, path. split; [|done]. by exists before, path, after. }
  apply load_from_str_sound in El as (c0 & Hread & Hres & Hv). split; [done|]. exists raw, c0.
  apply resolve_env_overrides_Ok in Hres as (Hs & _ & _ & _ & _ & ?). split_and!; [done..| |done].
  eapply Forall_impl; [exact Hs|]. by intros s [? _].
Qed.
End LoadSpec.

(** C30: Validation accepts exactly the valid configurations. *)
Theorem validate_exact `{UnicodeCase} f64_to_string c : validate f64_to_string c = Ok tt <-> valid_config c.
Proof. apply validate_Ok. Qed.

(** A run: a document with one region and a reference in it, found at the second
    candidate path, and a variable for the downloads. *)
Definition demo_env : environment := {[ "HARUKI_DOWNLOAD_CONCURRENCY" := " 7 "; "JP_KEY" := "00ff" ]}.
Definition demo_yaml (raw : string) : result Value string :=
  if String.eqb raw "key: ${env:JP_KEY}" then Ok (VMapping [(VString "key", VString "${env:JP_KEY}")]) else Err "not demo".
Definition demo_config (v : Value) : result AppConfig string :=
  match v with
  | VMapping [(_, VString key)] =>
      let c := AppConfig_default in
      let r := RegionConfig_default in
      Ok (mkAppConfig (config_version c) (server c) (execution c) (backends c) (resources c) (concurrency c) (storage c)
            (chart_hashes c) (poller c) (hip c)
            {[ "jp" := mkRegionConfig true (provider r) (mkCryptoConfig (Some key) (Some " ${env:JP_KEY}")) (unity_version r) (paths r)
                         (filters r) (export r) (upload r) ]})
  | _ => Err "not demo"
  end.
Definition demo_disk (path : string) : option (result string io_error) :=
  if String.eqb path "../haruki-asset-configs.yaml" then Some (Ok "key: ${env:JP_KEY}") else None.
Definition demo_load : option (result AppConfig ConfigError) :=
  @load_default ascii_case demo_yaml demo_config (fun _ => None) (fun _ => "") 1024 unit (fun _ _ => Ok tt) (fun _ _ => Err "none")
    demo_disk demo_env [].
Definition demo_result : AppConfig := match demo_load with Some (Ok c) => c | _ => AppConfig_default end.

Lemma load_default_sound_witness :
  @valid_config ascii_case demo_result /\ download (concurrency demo_result) = 7
  /\ (option_map crypto (regions demo_result !! "jp")) = Some (mkCryptoConfig (Some "00ff") (Some "00ff")).
Proof.
  destruct (@load_default_sound ascii_case demo_yaml demo_config (fun _ => None) (fun _ => "") 1024 unit (fun _ _ => Ok tt)
              (fun _ _ => Err "none") demo_disk demo_env [] demo_result) as [Hv _].
  { vm_compute. reflexivity. }
  split_and!; [exact Hv | vm_compute; reflexivity..].
Defined.
