(* ===== verification/AssetFetch.v ===== *)
(** * Asset execution: versions, URLs and the bundle index

    The part of [core/asset_execution.rs] that talks to the game's servers before any
    bundle is downloaded: the HTTP client of a context, the cookie bootstrap, the
    resolution of the versions, the rendering of URLs, and the fetch and decryption of
    the bundle index.  [reqwest] is the function [send] on the state of the network;
    JSON, MessagePack, hexadecimal and AES are parameters; the model keeps the list of
    the requests that were sent. *)

From Stdlib Require Import Ascii.
From S2P Require Import Prelude RustStr Errors Retry Config Models Regions AssetInfo AssetTasks.

Local Open Scope string_scope.
Local Open Scope list_scope.
Local Open Scope Z_scope.
Local Open Scope rust_scope.

(** ** Requests *)

Inductive Method : Type := Get | Post.

(** A request with the headers it sets itself, besides the client's defaults. *)
Record Request : Type := mkRequest {
  rq_method : Method;
  rq_url : string;
  rq_headers : list (string * string);
}.

(** A response: the status, the [Set-Cookie] header when it is there and is visible
    ASCII, and what reading the body gives. *)
Record Response : Type := mkResponse {
  status : Z;
  set_cookie : option string;
  body : result bytes string;
}.

Definition is_success (r : Response) : bool := (200 <=? status r) && (status r <? 300).

(** The network and the requests sent so far. *)
Record world (N : Type) : Type := mkWorld { net : N; sent : list Request }.
Arguments mkWorld {N}.
Arguments net {N}.
Arguments sent {N}.

(** Computations that send requests and may fail. *)
Definition M (N T : Type) : Type := world N -> result T AssetExecutionError * world N.
Definition ret {N T} (x : T) : M N T := fun w => (Ok x, w).
Definition throw {N T} (e : AssetExecutionError) : M N T := fun w => (Err e, w).
Definition of_result {N T} (r : result T AssetExecutionError) : M N T := fun w => (r, w).
Definition bind {N A B} (m : M N A) (k : A -> M N B) : M N B :=
  fun w => match m w with
           | (Ok x, w') => k x w'
           | (Err e, w') => (Err e, w')
           end.

Declare Scope fetch_scope.
Notation "'let!' x := m 'in' k" := (bind m (fun x => k))
  (at level 10, x pattern, m at level 100, k at level 200) : fetch_scope.
Local Open Scope fetch_scope.

(** [is_retryable_http_error]. *)
Definition is_retryable_http_error (err : AssetExecutionError) : bool :=
  match err with
  | AxHttp _ => true
  | AxHttpStatus _ s => 500 <=? s
  | _ => false
  end.

(** ** The context *)

(** [struct AssetExecutionContext]; the client is [send]. *)
Record AssetExecutionContext : Type := mkContext {
  region_name : string;
  region : RegionConfig;
  ctx_retry : RetryConfig;
  runtime_cookie : option string;
  resolved_app_version : option string;
  resolved_app_hash : option string;
  resolved_asset_version : option string;
  resolved_asset_hash : option string;
  resolved_profile : option string;
  resolved_assetbundle_host_hash : option string;
}.

(** The options given to [reqwest::Client::builder]. *)
Record ClientOptions : Type := mkClientOptions {
  default_headers : list (string * string);
  http1_only : bool;
  client_proxy : option string;
}.

(** [AssetExecutionContext::new]; the checks of [HeaderValue::from_str], [Proxy::all] and
    [ClientBuilder::build] are parameters. *)
Definition context_new (header_value proxy_all : string -> result unit string) (build : ClientOptions -> result unit string)
    (app : AppConfig) (name : string) (reg : RegionConfig) (request : AssetUpdateRequest)
  : result (AssetExecutionContext * ClientOptions) AssetExecutionError :=
  let? _ := result_map_err AxHttpClient (header_value (unity_version reg)) in
  let headers := [("accept", "*/*"); ("user-agent", "ProductName/134 CFNetwork/1408.0.4 Darwin/22.5.0");
                  ("accept-encoding", "identity"); ("accept-language", "zh-CN,zh-Hans;q=0.9");
                  ("x-unity-version", unity_version reg)] in
  let only1 := match asset_http_version (server app) with Http1 => true | HttpAuto => false end in
  let proxy' := non_empty (proxy (server app)) in
  let? _ := match proxy' with
            | Some p => result_map_err AxHttpClient (proxy_all p)
            | None => Ok tt
            end in
  let options := mkClientOptions headers only1 proxy' in
  let? _ := result_map_err AxHttpClient (build options) in
  Ok (mkContext name reg (retry (execution app)) None None None (req_asset_version request) (req_asset_hash request) None None, options).

(** [requires_cookies]. *)
Definition requires_cookies (c : AssetExecutionContext) : bool :=
  match provider (region c) with
  | ColorfulPalette _ _ _ _ _ _ required _ => required
  | Nuverse _ _ _ _ _ required _ => required
  end.

(** [struct GameVersionInfo]. *)
Record GameVersionInfo : Type := mkGameVersionInfo {
  gv_profile : option string;
  gv_assetbundle_host_hash : option string;
  gv_domain : option string;
}.

Definition current_version_url (p : RegionProviderConfig) : option string :=
  match p with
  | ColorfulPalette url _ _ _ _ _ _ _ => url
  | Nuverse url _ _ _ _ _ _ => url
  end.

Definition bootstrap_url (p : RegionProviderConfig) : string :=
  let default_url := "https://issue.sekai.colorfulpalette.org/api/signature" in
  match p with
  | ColorfulPalette _ _ _ _ _ _ _ url => default default_url url
  | Nuverse _ _ _ _ _ _ url => default default_url url
  end.

(** Contexts with some fields set. *)
Definition with_cookie (c : AssetExecutionContext) (cookie : option string) : AssetExecutionContext :=
  mkContext (region_name c) (region c) (ctx_retry c) cookie (resolved_app_version c) (resolved_app_hash c)
    (resolved_asset_version c) (resolved_asset_hash c) (resolved_profile c) (resolved_assetbundle_host_hash c).
Definition with_app (c : AssetExecutionContext) (version hash : option string) : AssetExecutionContext :=
  mkContext (region_name c) (region c) (ctx_retry c) (runtime_cookie c) version hash (resolved_asset_version c)
    (resolved_asset_hash c) (resolved_profile c) (resolved_assetbundle_host_hash c).
Definition with_asset (c : AssetExecutionContext) (version hash : option string) : AssetExecutionContext :=
  mkContext (region_name c) (region c) (ctx_retry c) (runtime_cookie c) (resolved_app_version c) (resolved_app_hash c) version hash
    (resolved_profile c) (resolved_assetbundle_host_hash c).
Definition with_profile (c : AssetExecutionContext) (profile host_hash : option string) : AssetExecutionContext :=
  mkContext (region_name c) (region c) (ctx_retry c) (runtime_cookie c) (resolved_app_version c) (resolved_app_hash c)
    (resolved_asset_version c) (resolved_asset_hash c) profile host_hash.

Definition cookie_header (c : AssetExecutionContext) : list (string * string) :=
  match runtime_cookie c with Some cookie => [("cookie", cookie)] | None => [] end.

(** ** Decryption *)

Section Decrypt.
Variable hex_decode : string -> result bytes string.
(** AES in CBC mode with PKCS 7 padding: the key, the IV and the content. *)
Variable aes_cbc_decrypt : bytes -> bytes -> bytes -> result bytes string.

(** The free function [decrypt_region_msgpack]. *)
Definition decrypt_region_msgpack {T} (decode : bytes -> result T string) (aes_key_hex aes_iv_hex : string) (content : bytes)
  : result T AssetExecutionError :=
  if zlen content =? 0 then Err EmptyEncryptedContent
  else if negb (zlen content mod 16 =? 0) then Err InvalidEncryptedBlockSize
  else
    let? key := result_map_err InvalidAesKeyHex (hex_decode aes_key_hex) in
    let? iv := result_map_err InvalidAesIvHex (hex_decode aes_iv_hex) in
    if negb (zlen iv =? 16) then Err (InvalidAesIvLength (zlen iv))
    else if (zlen key =? 16) || (zlen key =? 24) || (zlen key =? 32) then
      let? decrypted := result_map_err AssetInfoDecode (aes_cbc_decrypt key iv content) in
      result_map_err AssetInfoDecode (decode decrypted)
    else Err (AssetInfoDecode ("unsupported AES key length " +:+ pretty (zlen key))).

(** The method [decrypt_region_msgpack]. *)
Definition decrypt_with_region {T} (decode : bytes -> result T string) (c : AssetExecutionContext) (content : bytes)
  : result T AssetExecutionError :=
  let? key := ok_or (aes_key_hex (crypto (region c))) (MissingCryptoConfig (region_name c)) in
  let? iv := ok_or (aes_iv_hex (crypto (region c))) (MissingCryptoConfig (region_name c)) in
  decrypt_region_msgpack decode key iv content.
End Decrypt.

(** ** Rendering URLs *)

(** What the URLs of a ColorfulPalette region are made of. *)
Record PaletteParts : Type := mkPaletteParts {
  pp_asset_version : string;
  pp_asset_hash : string;
  pp_profile : string;
  pp_profile_hash : string;
}.

Definition palette_parts (c : AssetExecutionContext) (profile : string) (profile_hashes : gmap string string)
  : result PaletteParts AssetExecutionError :=
  let? asset_version := ok_or (resolved_asset_version c) (MissingAssetVersionOrHash (region_name c)) in
  let? asset_hash := ok_or (resolved_asset_hash c) (MissingAssetVersionOrHash (region_name c)) in
  let profile := default profile (resolved_profile c) in
  let? profile_hash := ok_or (match resolved_assetbundle_host_hash c with
                              | Some h => Some h
                              | None => profile_hashes !! profile
                              end) (MissingProfileHash (region_name c) profile) in
  Ok (mkPaletteParts asset_version asset_hash profile profile_hash).

(** [time_arg_jst] at the time [now], a text of fourteen digits. *)
Definition time_arg (now : string) : string := "?t=" +:+ now.

Definition palette_info_url (template : string) (p : PaletteParts) : string :=
  fill_palette template (pp_profile p) (pp_profile_hash p) (pp_asset_version p) (pp_asset_hash p).

Definition palette_bundle_url (template path : string) (p : PaletteParts) : string :=
  replace "{hash}" (pp_profile_hash p)
    (replace "{env}" (pp_profile p)
       (replace "{asset_hash}" (pp_asset_hash p)
          (replace "{asset_version}" (pp_asset_version p) (replace "{bundle_path}" path template)))).

Definition nuverse_info_url (template app_version asset_version : string) : string :=
  replace "{asset_version}" asset_version (replace "{app_version}" app_version template).

Definition nuverse_bundle_url (template path app_version asset_version : string) : string :=
  replace "{asset_version}" asset_version (replace "{app_version}" app_version (replace "{bundle_path}" path template)).

(** [render_bundle_url]. *)
Definition render_bundle_url (c : AssetExecutionContext) (now : string) (t : DownloadTask) : result string AssetExecutionError :=
  match provider (region c) with
  | ColorfulPalette _ _ _ template profile profile_hashes _ _ =>
      let? parts := palette_parts c profile profile_hashes in
      Ok (palette_bundle_url template (task_download_path t) parts +:+ time_arg now)
  | Nuverse _ _ app_version _ template _ _ =>
      Ok (nuverse_bundle_url template (task_download_path t) (default app_version (resolved_app_version c))
            (default "<resolved-asset-version>" (resolved_asset_version c)) +:+ time_arg now)
  end.

(** ** Fetching *)

Section Fetch.
Context {N : Type}.
(** [RequestBuilder::send], the Japanese time as [%Y%m%d%H%M%S], [sonic_rs::from_slice]
    and [rmp_serde::from_slice] at the types that are read. *)
Variable send : Request -> N -> result Response string * N.
Variable jst_now : N -> string.
Variable parse_version : bytes -> result CurrentVersionInfo string.
Variable decode_game : bytes -> result GameVersionInfo string.
Variable decode_info : bytes -> result AssetBundleInfo string.
Variable hex_decode : string -> result bytes string.
Variable aes_cbc_decrypt : bytes -> bytes -> bytes -> result bytes string.

Definition exchange (rq : Request) : M N Response :=
  fun w => match send rq (net w) with
           | (Ok response, n) => (Ok response, mkWorld n (sent w ++ [rq]))
           | (Err message, n) => (Err (AxHttp message), mkWorld n (sent w ++ [rq]))
           end.

(** One attempt to read a body. *)
Definition get_attempt (rq : Request) : M N bytes :=
  let! response := exchange rq in
  if is_success response then of_result (result_map_err AxHttp (body response))
  else throw (AxHttpStatus (rq_url rq) (status response)).

Definition retried {T} (c : AssetExecutionContext) (op : M N T) : M N T :=
  fun w => let '(r, w', _) := retry_async (fun _ => op) is_retryable_http_error (ctx_retry c) w in
           (default (Err (AxBlockingTask "retry loop always returns")) r, w').

Definition get_request (c : AssetExecutionContext) (url : string) : Request := mkRequest Get url (cookie_header c).

Definition get_with_retry (c : AssetExecutionContext) (url : string) : M N bytes :=
  retried c (get_attempt (get_request c url)).

Definition bootstrap_attempt (url : string) : M N (option string) :=
  let! response := exchange (mkRequest Post url []) in
  if is_success response then ret (set_cookie response) else throw (AxHttpStatus url (status response)).

Definition fetch_runtime_cookies (c : AssetExecutionContext) : M N AssetExecutionContext :=
  let! cookie := retried c (bootstrap_attempt (bootstrap_url (provider (region c)))) in
  ret (with_cookie c cookie).

Definition game_version_request (c : AssetExecutionContext) (url app_version app_hash : string) : Request :=
  mkRequest Get url
    ([("accept", "application/octet-stream"); ("content-type", "application/octet-stream"); ("accept-encoding", "identity");
      ("user-agent", "UnityPlayer/" +:+ unity_version (region c)); ("x-platform", "iOS");
      ("x-devicemodel", "HarukiAssetUpdater/1.0"); ("x-operatingsystem", "iOS");
      ("x-unity-version", unity_version (region c)); ("x-app-version", app_version); ("x-app-hash", app_hash)]
     ++ cookie_header c).

Definition fetch_game_version (c : AssetExecutionContext) (url app_version app_hash : string) : M N GameVersionInfo :=
  let! content := retried c (get_attempt (game_version_request c url app_version app_hash)) in
  of_result (decrypt_with_region hex_decode aes_cbc_decrypt decode_game c content).

Definition read_version (content : bytes) : M N CurrentVersionInfo :=
  of_result (result_map_err AssetInfoDecode (parse_version content)).

(** The current version of a ColorfulPalette region, when it has a URL for it. *)
Definition palette_current (c : AssetExecutionContext) : M N (AssetExecutionContext * option CurrentVersionInfo) :=
  match trimmed_non_empty (current_version_url (provider (region c))) with
  | Some url =>
      let! content := get_with_retry c url in
      let! current := read_version content in
      ret (with_asset (with_app c (cv_app_version current) (cv_app_hash current)) (cv_asset_version current) (cv_asset_hash current),
           Some current)
  | None => ret (c, None)
  end.

(** [resolved.or(current.and_then(field))]. *)
Definition or_current (current : option CurrentVersionInfo) (resolved : option string) (field : CurrentVersionInfo -> option string)
  : option string :=
  match resolved with Some v => Some v | None => match current with Some cur => field cur | None => None end end.

Definition resolve_provider_versions (c : AssetExecutionContext) : M N AssetExecutionContext :=
  match provider (region c) with
  | ColorfulPalette _ game_template _ _ profile profile_hashes _ _ =>
      let! (c, current) := palette_current c in
      match trimmed_non_empty game_template, or_current current (resolved_app_version c) cv_app_version,
            or_current current (resolved_app_hash c) cv_app_hash with
      | Some template, Some app_version, Some app_hash =>
          let url := replace "{app_hash}" app_hash (replace "{app_version}" app_version template) in
          let! game := fetch_game_version c url app_version app_hash in
          ret (with_profile c (Some (default profile (gv_profile game))) (gv_assetbundle_host_hash game))
      | _, _, _ =>
          ret (with_profile c (Some profile)
                 (match profile_hashes !! profile with Some h => Some h | None => resolved_assetbundle_host_hash c end))
      end
  | Nuverse _ _ app_version _ _ _ _ =>
      let c := with_app c (Some app_version) (resolved_app_hash c) in
      match trimmed_non_empty (current_version_url (provider (region c))) with
      | Some url =>
          let! content := get_with_retry c url in
          let! current := read_version content in
          let version := match cv_app_version current with Some v => Some v | None => resolved_app_version c end in
          ret (with_asset (with_app c version (cv_app_hash current)) (resolved_asset_version c) (cv_asset_hash current))
      | None => ret c
      end
  end.

Definition read_clock : M N string := fun w => (Ok (jst_now (net w)), w).

Definition render_asset_info_url (c : AssetExecutionContext) : M N (string * AssetExecutionContext) :=
  match provider (region c) with
  | ColorfulPalette _ _ template _ profile profile_hashes _ _ =>
      let! parts := of_result (palette_parts c profile profile_hashes) in
      let! now := read_clock in
      ret (palette_info_url template parts +:+ time_arg now, c)
  | Nuverse _ version_url app_version template _ _ _ =>
      let app_version := default app_version (resolved_app_version c) in
      let! content := get_with_retry c (replace "{app_version}" app_version version_url) in
      let resolved_version := trim (from_utf8_lossy content) in
      let! now := read_clock in
      ret (nuverse_info_url template app_version resolved_version +:+ time_arg now,
           with_asset c (Some resolved_version) (resolved_asset_hash c))
  end.

Definition fetch_asset_bundle_info (c : AssetExecutionContext) : M N (AssetBundleInfo * AssetExecutionContext) :=
  let! (url, c) := render_asset_info_url c in
  let! content := get_with_retry c url in
  let! info := of_result (decrypt_with_region hex_decode aes_cbc_decrypt decode_info c content) in
  ret (info, c).

(** What [execute_with_filter] and [prefetch_asset_bundles] do with their context to get
    the index; the checks of the cancel flag in between are the scheduler's. *)
Definition execution_index (c : AssetExecutionContext) : M N (AssetBundleInfo * AssetExecutionContext) :=
  let! c := (if requires_cookies c then fetch_runtime_cookies c else ret c) in
  fetch_asset_bundle_info c.

(** The steps of [fetch_live_asset_bundle_info] on its context;
    [run_haruki_3d_background_export] begins the same way. *)
Definition open_index (c : AssetExecutionContext) : M N (AssetBundleInfo * AssetExecutionContext) :=
  let! c := (if requires_cookies c then fetch_runtime_cookies c else ret c) in
  let! c := resolve_provider_versions c in
  fetch_asset_bundle_info c.

Definition fetch_live_asset_bundle_info (header_value proxy_all : string -> result unit string)
    (build : ClientOptions -> result unit string) (app : AppConfig) (name : string) (reg : RegionConfig)
    (request : AssetUpdateRequest) : M N AssetBundleInfo :=
  let! (c, _) := of_result (context_new header_value proxy_all build app name reg request) in
  let! (info, _) := open_index c in
  ret info.

(** [fetch_current_version_info]: one attempt, with a client of the caller's. *)
Definition fetch_current_version_info (name : string) (reg : RegionConfig) : M N CurrentVersionInfo :=
  let! url := of_result (ok_or (trimmed_non_empty (current_version_url (provider reg))) (MissingAssetVersionOrHash name)) in
  let! content := get_attempt (mkRequest Get url []) in
  read_version content.
End Fetch.

(** ** Which requests are sent *)

(** The computation sends between [lo] and [hi] requests, all of the kind [P]. *)
Definition sends {N T} (lo hi : nat) (P : Request -> Prop) (m : M N T) : Prop :=
  forall w, exists l, sent (m w).2 = sent w ++ l /\ Forall P l /\ (lo <= length l <= hi)%nat.

Lemma sends_pure {N T} P (m : M N T) : (forall w, (m w).2 = w) -> sends 0 0 P m.
Proof. intros Hm w. exists []. rewrite Hm, app_nil_r. simpl. split_and!; [done|constructor|lia|lia]. Qed.

Lemma sends_bind {N A B} lo h1 h2 P (m : M N A) (k : A -> M N B) :
  sends lo h1 P m -> (forall x w w', m w = (Ok x, w') -> sends 0 h2 P (k x)) -> sends lo (h1 + h2) P (bind m k).
Proof.
  intros Hm Hk w. unfold bind. destruct (Hm w) as (l & E & Hl & Hlen). destruct (m w) as [[x|e] w'] eqn:Em; simpl in *.
  - destruct (Hk x w w' Em w') as (l' & E' & Hl' & Hlen'). exists (l ++ l'). rewrite E', E, app_assoc, length_app.
    split_and!; [done|by apply Forall_app|lia|lia].
  - exists l. split_and!; [done|done|lia|lia].
Qed.

Lemma sends_mono {N T} lo lo' hi hi' P (m : M N T) : sends lo hi P m -> (lo' <= lo)%nat -> (hi <= hi')%nat -> sends lo' hi' P m.
Proof. intros Hm H1 H2 w. destruct (Hm w) as (l & E & Hl & Hlen). exists l. split_and!; [done|done|lia|lia]. Qed.

Lemma sends_impl {N T} lo hi (P Q : Request -> Prop) (m : M N T) : sends lo hi P m -> (forall rq, P rq -> Q rq) -> sends lo hi Q m.
Proof. intros Hm HPQ w. destruct (Hm w) as (l & E & Hl & Hlen). exists l. split_and!; [done| |lia|lia]. by eapply Forall_impl. Qed.

Section Sends.
Context {N : Type} (send : Request -> N -> result Response string * N).

Lemma sends_exchange rq : sends 1 1 (eq rq) (exchange send rq).
Proof.
  intros w. exists [rq]. unfold exchange. destruct (send rq (net w)) as [[r|e] n]; simpl; split_and!; auto.
Qed.

(** A retried operation: at least one attempt, at most those configured. *)
Definition max_attempts (c : AssetExecutionContext) : nat := Z.to_nat (Z.max (attempts (ctx_retry c)) 1).

Lemma sends_retry_loop {T} (P : Request -> Prop) config total a n (op : M N T) w :
  sends 1 1 P op -> exists l, sent (retry_loop (fun _ => op) is_retryable_http_error config total a n w).1.2 = sent w ++ l
    /\ Forall P l /\ (length l <= n)%nat /\ (0 < n -> 1 <= length l)%nat.
Proof.
  intros Hop. revert a w. induction n as [|n IH]; intros a w; simpl.
  - exists []. rewrite app_nil_r. split_and!; [done|constructor|simpl; lia|lia].
  - destruct (Hop w) as (l & E & Hl & Hlen). destruct (op w) as [[v|e] w'] eqn:Eo; simpl in *.
    + exists l. split_and!; [done|done|lia|lia].
    + destruct ((a <? total) && is_retryable_http_error e); simpl.
      * destruct (IH (a + 1) w') as (l' & E' & Hl' & Hlen' & _).
        destruct (retry_loop _ _ _ _ _ n w') as [[r w''] ds]. simpl in *. exists (l ++ l').
        rewrite E', E, app_assoc, length_app. split_and!; [done|by apply Forall_app|lia|lia].
      * exists l. split_and!; [done|done|lia|lia].
Qed.

Lemma sends_retried {T} P c (op : M N T) : sends 1 1 P op -> sends 1 (max_attempts c) P (retried c op).
Proof.
  intros Hop w. unfold retried, retry_async.
  destruct (sends_retry_loop P (ctx_retry c) (Z.max (attempts (ctx_retry c)) 1) 1 (max_attempts c) op w Hop)
    as (l & E & Hl & Hhi & Hlo).
  unfold max_attempts in *. destruct (retry_loop _ _ _ _ _ _ w) as [[r w'] ds]. simpl in *. exists l.
  split_and!; [done|done|lia|lia].
Qed.

Lemma sends_get c url : sends 1 (max_attempts c) (eq (get_request c url)) (get_with_retry send c url).
Proof.
  apply sends_retried. unfold get_attempt. apply (sends_bind 1 1 0); [apply sends_exchange|].
  intros r _ _ _. destruct (is_success r); by apply sends_pure.
Qed.
End Sends.

(** A GET with the cookie of the context, or without any. *)
Definition carries (cookie : option string) (rq : Request) : Prop :=
  rq_method rq = Get /\ List.filter (fun h => String.eqb h.1 "cookie") (rq_headers rq)
                       = match cookie with Some v => [("cookie", v)] | None => [] end.

Lemma get_request_carries c url : carries (runtime_cookie c) (get_request c url).
Proof. split; [done|]. unfold get_request, cookie_header. simpl. by destruct (runtime_cookie c). Qed.

Lemma game_request_carries c url v h : carries (runtime_cookie c) (game_version_request c url v h).
Proof. split; [done|]. unfold game_version_request, cookie_header. simpl. by destruct (runtime_cookie c). Qed.

(** What the resolution of versions leaves alone. *)
Definition same (c c' : AssetExecutionContext) : Prop :=
  runtime_cookie c' = runtime_cookie c /\ ctx_retry c' = ctx_retry c /\ region c' = region c /\ region_name c' = region_name c.

#[export] Instance same_preorder : PreOrder same.
Proof. split; [done|]. intros a b c (? & ? & ? & ?) (? & ? & ? & ?). repeat split; congruence. Qed.

Lemma bind_Ok {N A B} (m : M N A) (k : A -> M N B) w y w' :
  bind m k w = (Ok y, w') <-> exists x w1, m w = (Ok x, w1) /\ k x w1 = (Ok y, w').
Proof.
  unfold bind. destruct (m w) as [[x|e] w1]; split; [by eauto | | done |].
  - by intros (? & ? & [= -> ->] & ?).
  - by intros (? & ? & [=] & _).
Qed.

Ltac invert_fetch H :=
  repeat (let x := fresh "x" in let w := fresh "w" in let E := fresh "E" in apply bind_Ok in H as (x & w & E & H); cbv beta in H).

Section Resolve.
Context {N : Type} (send : Request -> N -> result Response string * N) (jst_now : N -> string).
Context (parse_version : bytes -> result CurrentVersionInfo string) (decode_game : bytes -> result GameVersionInfo string).
Context (decode_info : bytes -> result AssetBundleInfo string).
Context (hex_decode : string -> result bytes string) (aes : bytes -> bytes -> bytes -> result bytes string).

Abbreviation get_with_retry := (get_with_retry send).
Abbreviation palette_current := (palette_current send parse_version).
Abbreviation resolve_provider_versions := (resolve_provider_versions send parse_version decode_game hex_decode aes).
Abbreviation render_asset_info_url := (render_asset_info_url send jst_now).
Abbreviation fetch_asset_bundle_info := (fetch_asset_bundle_info send jst_now decode_info hex_decode aes).

Lemma sends_get_carries c url : sends 0 (max_attempts c) (carries (runtime_cookie c)) (get_with_retry c url).
Proof.
  eapply sends_mono; [eapply sends_impl; [apply sends_get|]|lia|reflexivity].
  intros rq <-. apply get_request_carries.
Qed.

Lemma sends_read_version P content : sends 0 0 P (read_version (N:=N) parse_version content).
Proof. by apply sends_pure. Qed.

Lemma palette_current_same c w c' cur w' : palette_current c w = (Ok (c', cur), w') -> same c c'.
Proof.
  unfold AssetFetch.palette_current. destruct (trimmed_non_empty _) as [url|].
  - intros H. invert_fetch H. by injection H as <- <- <-.
  - by intros [= <- <- <-].
Qed.

Lemma palette_current_sends c : sends 0 (max_attempts c) (carries (runtime_cookie c)) (palette_current c).
Proof.
  unfold AssetFetch.palette_current. destruct (trimmed_non_empty _) as [url|].
  - rewrite <- (Nat.add_0_r (max_attempts c)). apply sends_bind; [apply sends_get_carries|]. intros content _ _ _.
    apply (sends_bind 0 0 0); [apply sends_read_version|]. intros. by apply sends_pure.
  - eapply sends_mono; [by apply sends_pure|lia|lia].
Qed.

Lemma game_version_sends c url v h :
  sends 0 (max_attempts c) (carries (runtime_cookie c)) (fetch_game_version send decode_game hex_decode aes c url v h).
Proof.
  unfold fetch_game_version. rewrite <- (Nat.add_0_r (max_attempts c)). apply sends_bind.
  - eapply sends_mono; [eapply sends_impl; [apply sends_retried|]|lia|reflexivity].
    + apply (sends_bind 1 1 0); [apply sends_exchange|]. intros r _ _ _. destruct (is_success r); by apply sends_pure.
    + intros rq <-. apply game_request_carries.
  - intros. by apply sends_pure.
Qed.

(** How many URLs the resolution may ask for; the index takes what is left of three. *)
Definition lookups (p : RegionProviderConfig) : nat := match p with ColorfulPalette _ _ _ _ _ _ _ _ => 2 | _ => 1 end.

Lemma resolve_sends c :
  sends 0 (lookups (provider (region c)) * max_attempts c) (carries (runtime_cookie c)) (resolve_provider_versions c).
Proof.
  unfold AssetFetch.resolve_provider_versions. destruct (provider (region c)) as [? game ?? profile hashes ??|? vu av ????] eqn:Ep; simpl lookups.
  - rewrite Nat.mul_comm. replace (max_attempts c * 2)%nat with (max_attempts c + max_attempts c)%nat by lia.
    apply sends_bind; [apply palette_current_sends|]. intros [c' cur] w w' Hsame%palette_current_same.
    destruct Hsame as (Hc & Hr & _ & _). assert (Hm : max_attempts c = max_attempts c') by (unfold max_attempts; congruence).
    case_match; [case_match; [case_match|]|]; try (eapply sends_mono; [by apply sends_pure|lia|lia]).
    rewrite Hm, <- Hc, <- (Nat.add_0_r (max_attempts c')). apply sends_bind; [apply game_version_sends|]. intros. by apply sends_pure.
  - rewrite Nat.mul_1_l. case_match; [|eapply sends_mono; [by apply sends_pure|lia|lia]].
    rewrite <- (Nat.add_0_r (max_attempts c)). apply sends_bind.
    { apply (sends_get_carries (with_app c (Some av) (resolved_app_hash c))). }
    intros content _ _ _. apply (sends_bind 0 0 0); [apply sends_read_version|]. intros. by apply sends_pure.
Qed.

Lemma resolve_same c w c' w' : resolve_provider_versions c w = (Ok c', w') -> same c c'.
Proof.
  unfold AssetFetch.resolve_provider_versions. destruct (provider (region c)) as [? game ?? profile hashes ??|? vu av ????] eqn:Ep.
  - intros H. invert_fetch H. destruct x as [c1 cur]. apply palette_current_same in E. etrans; [exact E|].
    case_match; [case_match; [case_match|]|]; try by injection H as <- <-.
    invert_fetch H. by injection H as <- <-.
  - case_match; intros HR; [invert_fetch HR|]; by injection HR as <- <-.
Qed.

Lemma fetch_info_sends c :
  sends 0 ((3 - lookups (provider (region c))) * max_attempts c) (carries (runtime_cookie c)) (fetch_asset_bundle_info c).
Proof.
  unfold AssetFetch.fetch_asset_bundle_info.
  assert (Htail : forall url c', same c c' -> sends 0 (max_attempts c) (carries (runtime_cookie c))
            (bind (get_with_retry c' url) (fun content => bind (of_result (decrypt_with_region hex_decode aes decode_info c' content))
               (fun info => ret (N:=N) (info, c'))))).
  { intros url c' (Hc & Hr & _ & _). assert (Hm : max_attempts c = max_attempts c') by (unfold max_attempts; congruence).
    rewrite Hm, <- Hc, <- (Nat.add_0_r (max_attempts c')). apply sends_bind; [apply sends_get_carries|]. intros content _ _ _.
    apply (sends_bind 0 0 0); [by apply sends_pure|]. intros. by apply sends_pure. }
  unfold AssetFetch.render_asset_info_url. destruct (provider (region c)) as [? game ?? profile hashes ??|? vu av ????]; simpl lookups.
  - rewrite Nat.mul_1_l. apply (sends_bind 0 0 (max_attempts c)).
    { apply (sends_bind 0 0 0); [by apply sends_pure|]. intros. apply (sends_bind 0 0 0); [by apply sends_pure|]. intros. by apply sends_pure. }
    intros [url c'] w w' H. invert_fetch H. injection H as <- <- <-. by apply Htail.
  - replace ((3 - 1) * max_attempts c)%nat with (max_attempts c + 0 + max_attempts c)%nat by lia. apply sends_bind.
    { apply sends_bind; [apply sends_get_carries|]. intros. apply (sends_bind 0 0 0); [by apply sends_pure|]. intros. by apply sends_pure. }
    intros [url c'] w w' H. invert_fetch H. injection H as <- <- <-. by apply Htail.
Qed.
End Resolve.

(** A retried operation succeeds with what one attempt gave. *)
Lemma retry_loop_Ok {S T E} (op : S -> result T E * S) should config total a n s x s' ds :
  retry_loop (fun _ => op) should config total a n s = (Some (Ok x), s', ds) -> exists s0, op s0 = (Ok x, s').
Proof.
  revert a s ds. induction n as [|n IH]; intros a s ds; simpl; [done|]. destruct (op s) as [[v|e] s1] eqn:Eo.
  - intros [= <- <- <-]. by exists s.
  - destruct ((a <? total) && should e); [|done]. destruct (retry_loop _ _ _ _ _ n s1) as [[r s2] ds'] eqn:El.
    intros [= -> -> _]. by eapply IH.
Qed.

Lemma retried_Ok {N T} c (op : M N T) w x w' : retried c op w = (Ok x, w') -> exists w0, op w0 = (Ok x, w').
Proof.
  unfold retried, retry_async. destruct (retry_loop _ _ _ _ _ _ w) as [[r w1] ds] eqn:E.
  destruct r as [r|]; [|done]. simpl. intros [= -> ->]. by eapply retry_loop_Ok.
Qed.

Section Trace.
Context {N : Type} (send : Request -> N -> result Response string * N) (jst_now : N -> string).
Context (parse_version : bytes -> result CurrentVersionInfo string) (decode_game : bytes -> result GameVersionInfo string).
Context (decode_info : bytes -> result AssetBundleInfo string).
Context (hex_decode : string -> result bytes string) (aes : bytes -> bytes -> bytes -> result bytes string).

Abbreviation open_index := (open_index send jst_now parse_version decode_game decode_info hex_decode aes).

Definition bootstrap_request (c : AssetExecutionContext) : Request := mkRequest Post (bootstrap_url (provider (region c))) [].

(** The cookie is the one a successful answer to the bootstrap request set. *)
Definition granted (c : AssetExecutionContext) (cookie : option string) : Prop :=
  exists n n' response, send (bootstrap_request c) n = (Ok response, n') /\ is_success response = true /\ cookie = set_cookie response.

Lemma cookies_spec c w c' w' : fetch_runtime_cookies send c w = (Ok c', w') -> granted c (runtime_cookie c') /\ c' = with_cookie c (runtime_cookie c').
Proof.
  unfold fetch_runtime_cookies. intros H. apply bind_Ok in H as (cookie & w1 & E & [= <- <-]). split; [|done]. simpl.
  apply retried_Ok in E as [w0 E]. apply bind_Ok in E as (response & w2 & E & E2). unfold exchange in E.
  fold (bootstrap_request c) in E. destruct (send (bootstrap_request c) (net w0)) as [[r|e] n'] eqn:Es; [|done].
  injection E as -> _. destruct (is_success response) eqn:Eok; [|done]. injection E2 as <- _. by exists (net w0), n', response.
Qed.

Lemma cookies_sends c : sends 1 (max_attempts c) (eq (bootstrap_request c)) (fetch_runtime_cookies send c).
Proof.
  unfold fetch_runtime_cookies. rewrite <- (Nat.add_0_r (max_attempts c)). apply sends_bind.
  - apply sends_retried. apply (sends_bind 1 1 0); [apply sends_exchange|]. intros r _ _ _. destruct (is_success r); by apply sends_pure.
  - intros. by apply sends_pure.
Qed.

Lemma index_sends c :
  sends 0 (3 * max_attempts c) (carries (runtime_cookie c))
    (bind (resolve_provider_versions send parse_version decode_game hex_decode aes c)
       (fun c => fetch_asset_bundle_info send jst_now decode_info hex_decode aes c)).
Proof.
  assert (Hl : (lookups (provider (region c)) <= 3)%nat) by (destruct (provider (region c)); simpl; lia).
  replace (3 * max_attempts c)%nat
    with (lookups (provider (region c)) * max_attempts c + (3 - lookups (provider (region c))) * max_attempts c)%nat by nia.
  apply sends_bind; [apply resolve_sends|]. intros c' w w' (Hc & Hr & Hreg & _)%resolve_same.
  assert (Hm : max_attempts c = max_attempts c') by (unfold max_attempts; congruence).
  rewrite Hm, <- Hc, <- Hreg. apply fetch_info_sends.
Qed.

(** C20: The requests behind the bundle index: first, and only for a region that needs
    cookies, the bootstrap request; then GET requests that all carry the cookie the
    bootstrap granted (or, without a bootstrap, the context's); and at most four times
    the configured attempts, whatever the servers answer. *)
Theorem index_requests c w :
  exists boots rest cookie,
    sent (open_index c w).2 = sent w ++ boots ++ rest
    /\ Forall (eq (bootstrap_request c)) boots /\ Forall (carries cookie) rest
    /\ (length (boots ++ rest) <= 4 * max_attempts c)%nat
    /\ if requires_cookies c then (1 <= length boots)%nat /\ (rest <> [] -> granted c cookie)
       else boots = [] /\ cookie = runtime_cookie c.
Proof.
  unfold AssetFetch.open_index. destruct (requires_cookies c).
  - unfold bind at 1. destruct (cookies_sends c w) as (boots & E & Hb & Hlen).
    destruct (fetch_runtime_cookies send c w) as [[c'|e] w1] eqn:Ec; simpl in E.
    + apply cookies_spec in Ec as [Hg Hc']. destruct (index_sends c' w1) as (rest & E' & Hr & Hlen').
      exists boots, rest, (runtime_cookie c'). cbn [snd] in *. rewrite E', E, <- app_assoc, length_app.
      assert (max_attempts c' = max_attempts c) by by rewrite Hc'. split_and!; [done..|lia|lia|done].
    + exists boots, [], None. cbn [snd]. rewrite E, app_nil_r. split_and!; [done|done|constructor|lia|lia|done].
  - unfold bind at 1. simpl. destruct (index_sends c w) as (rest & E' & Hr & Hlen').
    exists [], rest, (runtime_cookie c). split_and!; [done|constructor|done|simpl; lia|done|done].
Qed.
End Trace.

(** ** Templates

    The URL templates are filled one placeholder after the other.  When no value
    contains an opening brace, that is the same as filling them all at once. *)
Inductive chunk : Type := Lit (text : string) | Hole (name : string).

Definition show_chunk (c : chunk) : string := match c with Lit s => s | Hole n => String "{"%char (n +:+ "}") end.
Definition show (t : list chunk) : string := foldr (fun c s => show_chunk c +:+ s) "" t.

Definition name_ok (n : string) : Prop := has_char "{" n = false /\ has_char "}" n = false.
Definition chunk_ok (c : chunk) : Prop := match c with Lit s => has_char "{" s = false | Hole n => name_ok n end.

(** The value of the first entry for a name. *)
Fixpoint value_of (n : string) (values : list (string * string)) : option string :=
  match values with
  | [] => None
  | (k, v) :: values' => if String.eqb k n then Some v else value_of n values'
  end.

Definition fill (values : list (string * string)) (c : chunk) : chunk :=
  match c with
  | Hole n => match value_of n values with Some v => Lit v | None => c end
  | Lit _ => c
  end.

Definition placeholder (n : string) : string := String "{"%char (n +:+ "}").
Definition fill_in_turn (values : list (string * string)) (s : string) : string :=
  fold_left (fun s e => replace (placeholder e.1) e.2 s) values s.

Lemma replace_past_text k v l s :
  has_char "{" l = false -> replace (placeholder k) v (l +:+ s) = l +:+ replace (placeholder k) v s.
Proof.
  induction l as [|a l IH]; [done|]. intros Hl. cbn [has_char] in Hl. apply orb_false_iff in Hl as [Ha Hl].
  change (String a l +:+ s) with (String a (l +:+ s)). unfold replace in *. cbn [replace_aux].
  assert (Hs : starts_with (placeholder k) (String a (l +:+ s)) = false).
  { unfold starts_with, placeholder. cbn [String.prefix]. destruct (ascii_dec _ _) as [E|]; [subst a; discriminate Ha | reflexivity]. }
  rewrite Hs. by rewrite IH.
Qed.

Lemma string_app_cons a s t : String a s +:+ t = String a (s +:+ t).
Proof. done. Qed.

Lemma brace_cut k n s t :
  has_char "}" k = false -> has_char "}" n = false -> k +:+ String "}"%char s = n +:+ String "}"%char t -> k = n.
Proof.
  revert n. induction k as [|a k IH]; intros [|b n] Hk Hn E.
  - done.
  - injection E as <- _. discriminate Hn.
  - injection E as -> _. discriminate Hk.
  - cbn [has_char] in Hk, Hn. apply orb_false_iff in Hk as [_ Hk], Hn as [_ Hn]. injection E as -> E. f_equal. by apply IH.
Qed.

Lemma placeholder_prefix k n s : name_ok k -> name_ok n -> starts_with (placeholder k) (placeholder n +:+ s) = true -> k = n.
Proof.
  intros [_ Hk] [_ Hn] (t & E)%starts_with_spec. unfold placeholder in E. rewrite !string_app_cons in E. injection E as E.
  rewrite !string_app_assoc in E. symmetry in E. by eapply brace_cut.
Qed.

Lemma replace_hole k v n s :
  name_ok k -> name_ok n -> k <> n ->
  replace (placeholder k) v (placeholder n +:+ s) = placeholder n +:+ replace (placeholder k) v s.
Proof.
  intros Hk Hn Hne. unfold placeholder at 2 3. unfold replace. rewrite !string_app_cons. cbn [replace_aux].
  assert (Hs : starts_with (placeholder k) (String "{"%char ((n +:+ "}") +:+ s)) = false).
  { destruct (starts_with _ _) eqn:E; [|done]. exfalso. apply Hne. eapply (placeholder_prefix k n s); [done|done|exact E]. }
  rewrite Hs. f_equal. apply (replace_past_text k v (n +:+ "}")). rewrite has_char_app. destruct Hn as [-> _]. reflexivity.
Qed.

Lemma replace_chunks k v t :
  name_ok k -> Forall chunk_ok t -> replace (placeholder k) v (show t) = show (map (fill [(k, v)]) t).
Proof.
  intros Hk. induction 1 as [|c t Hc _ IH]; [done|]. cbn [show foldr map]. fold (show t). fold (show (map (fill [(k, v)]) t)).
  destruct c as [l|n]; simpl in Hc; cbn [show_chunk fill value_of].
  - by rewrite replace_past_text, IH.
  - fold (placeholder n). destruct (String.eqb_spec k n) as [<-|Hne].
    + by rewrite replace_head, IH.
    + by rewrite replace_hole, IH.
Qed.

Lemma fill_ok values c : Forall (fun e => has_char "{" e.2 = false) values -> chunk_ok c -> chunk_ok (fill values c).
Proof.
  intros Hv Hc. destruct c as [l|n]; [done|]. simpl. destruct (value_of n values) as [v|] eqn:E; [|done]. simpl.
  clear Hc. induction Hv as [|[k x] values Hx _ IH]; [done|]. simpl in E. destruct (String.eqb k n); [by injection E as <-|by apply IH].
Qed.

Lemma fill_cons k v values c : fill ((k, v) :: values) c = fill values (fill [(k, v)] c).
Proof. destruct c as [l|n]; [done|]. simpl. by destruct (String.eqb k n). Qed.

Lemma fill_in_turn_show values t :
  Forall (fun e => name_ok e.1 /\ has_char "{" e.2 = false) values -> Forall chunk_ok t ->
  fill_in_turn values (show t) = show (map (fill values) t).
Proof.
  intros Hv. revert t. induction Hv as [|[k v] values [Hk Hv0] Hv IH]; intros t Ht; unfold fill_in_turn; cbn [fold_left fst snd].
  - f_equal. rewrite <- (map_id t) at 1. apply map_ext. by intros [].
  - rewrite replace_chunks by done. fold (fill_in_turn values (show (map (fill [(k, v)]) t))). rewrite IH.
    + rewrite map_map. f_equal. apply map_ext. intros c. symmetry. apply fill_cons.
    + apply List.Forall_map. eapply Forall_impl; [exact Ht|]. intros c Hc. apply fill_ok; [|done]. constructor; [exact Hv0 | constructor].
Qed.

(** The URL functions fill their placeholders in turn. *)
Definition info_values (p : PaletteParts) : list (string * string) :=
  [("env", pp_profile p); ("hash", pp_profile_hash p); ("asset_version", pp_asset_version p); ("asset_hash", pp_asset_hash p)].
Definition bundle_values (path : string) (p : PaletteParts) : list (string * string) :=
  [("bundle_path", path); ("asset_version", pp_asset_version p); ("asset_hash", pp_asset_hash p); ("env", pp_profile p);
   ("hash", pp_profile_hash p)].
Definition nuverse_values (path app_version asset_version : string) : list (string * string) :=
  [("bundle_path", path); ("app_version", app_version); ("asset_version", asset_version)].

Definition brace_free (values : list (string * string)) : Prop := Forall (fun e => has_char "{" e.2 = false) values.

(** Only the values are to be checked for braces: the placeholders' names have none. *)
Lemma names_checked values :
  forallb (fun e => negb (has_char "{" e.1) && negb (has_char "}" e.1)) values = true -> brace_free values ->
  Forall (fun e => name_ok e.1 /\ has_char "{" e.2 = false) values.
Proof.
  unfold brace_free. intros Hn Hv. rewrite forallb_forall in Hn. apply Forall_forall. intros e He. rewrite Forall_forall in Hv.
  specialize (Hn e (proj1 (list_elem_of_In _ _) He)). apply andb_true_iff in Hn as [?%negb_true_iff ?%negb_true_iff].
  split; [by split | by apply Hv].
Qed.

Lemma filled_at_once values t :
  forallb (fun e => negb (has_char "{" e.1) && negb (has_char "}" e.1)) values = true -> brace_free values -> Forall chunk_ok t ->
  fill_in_turn values (show t) = show (map (fill values) t).
Proof. intros. apply fill_in_turn_show; [by apply names_checked | done]. Qed.

(** The preview's order of the placeholders gives the same bundle URL. *)
Lemma preview_order path p t :
  brace_free (bundle_values path p) -> Forall chunk_ok t ->
  replace "{bundle_path}" path (palette_info_url (show t) p) = palette_bundle_url (show t) path p.
Proof.
  intros Hv Ht. change (fill_in_turn (info_values p ++ [("bundle_path", path)]) (show t) = fill_in_turn (bundle_values path p) (show t)).
  assert (Hv' : brace_free (info_values p ++ [("bundle_path", path)])).
  { unfold brace_free, bundle_values, info_values in *. rewrite !Forall_cons in Hv. simpl. rewrite !Forall_cons. naive_solver. }
  rewrite !filled_at_once by done. f_equal. apply map_ext. intros [l|n]; [done|]. unfold fill, bundle_values, info_values.
  cbn [app value_of fst snd].
  repeat match goal with |- context [String.eqb ?k n] => destruct (String.eqb_spec k n); [subst n; reflexivity|] end. done.
Qed.

(** Filling a URL template placeholder by placeholder is filling all placeholders at
    once, for the index and the bundle URLs of both providers, as long as no value
    contains an opening brace: in particular the order does not matter. *)
Theorem urls_filled_at_once t path p app_version asset_version :
  Forall chunk_ok t -> brace_free (bundle_values path p) -> brace_free (nuverse_values path app_version asset_version) ->
  palette_info_url (show t) p = show (map (fill (info_values p)) t)
  /\ palette_bundle_url (show t) path p = show (map (fill (bundle_values path p)) t)
  /\ nuverse_info_url (show t) app_version asset_version
     = show (map (fill [("app_version", app_version); ("asset_version", asset_version)]) t)
  /\ nuverse_bundle_url (show t) path app_version asset_version = show (map (fill (nuverse_values path app_version asset_version)) t)
  /\ replace "{bundle_path}" path (palette_info_url (show t) p) = palette_bundle_url (show t) path p.
Proof.
  intros Ht Hv Hn. assert (Hi : brace_free (info_values p)).
  { unfold brace_free, bundle_values, info_values in *. rewrite !Forall_cons in *. naive_solver. }
  assert (Ha : brace_free [("app_version", app_version); ("asset_version", asset_version)]).
  { unfold brace_free, nuverse_values in *. rewrite !Forall_cons in *. naive_solver. }
  split_and!; [by apply (filled_at_once (info_values p)) | by apply (filled_at_once (bundle_values path p))
    | by apply (filled_at_once [("app_version", app_version); ("asset_version", asset_version)])
    | by apply (filled_at_once (nuverse_values path app_version asset_version)) | by apply preview_order].
Qed.

Definition demo_parts : PaletteParts := mkPaletteParts "6.0.0" "ab12" "production" "cf2d2388".
Definition demo_template : list chunk :=
  [Lit "https://"; Hole "env"; Lit "-"; Hole "hash"; Lit "/"; Hole "asset_version"; Lit "/"; Hole "bundle_path"; Hole "x"].

Lemma urls_filled_at_once_witness :
  palette_bundle_url (show demo_template) "music/1" demo_parts = "https://production-cf2d2388/6.0.0/music/1{x}".
Proof.
  destruct (urls_filled_at_once demo_template "music/1" demo_parts "5.2.0" "1.0") as (_ & E & _).
  - repeat constructor; reflexivity.
  - repeat constructor; reflexivity.
  - repeat constructor; reflexivity.
  - rewrite E. reflexivity.
Defined.

(** ** The preview and the index of an execution *)

Section Preview.
Context {N : Type} (send : Request -> N -> result Response string * N) (jst_now : N -> string).
Context (parse_version : bytes -> result CurrentVersionInfo string) (decode_game : bytes -> result GameVersionInfo string).
Context (decode_info : bytes -> result AssetBundleInfo string).
Context (hex_decode : string -> result bytes string) (aes : bytes -> bytes -> bytes -> result bytes string).
Context (header_value proxy_all : string -> result unit string) (build : ClientOptions -> result unit string).

Abbreviation render_asset_info_url := (render_asset_info_url send jst_now).

Lemma context_new_Ok app name reg request c o :
  context_new header_value proxy_all build app name reg request = Ok (c, o) ->
  region c = reg /\ region_name c = name /\ runtime_cookie c = None
  /\ resolved_asset_version c = req_asset_version request /\ resolved_asset_hash c = req_asset_hash request
  /\ resolved_profile c = None /\ resolved_assetbundle_host_hash c = None.
Proof.
  unfold context_new. intros H. apply result_bind_Ok in H as (u & _ & H). apply result_bind_Ok in H as (u' & _ & H).
  apply result_bind_Ok in H as (u'' & _ & H). injection H as <- <-. done.
Qed.


(** An execution does not resolve the versions: a ColorfulPalette region whose profile
    hash is not in the configuration never gets its index, whatever the servers
    answer. *)
Theorem execution_needs_profile_hash app name reg request c o cv gv it bt profile hashes ck cb w :
  context_new header_value proxy_all build app name reg request = Ok (c, o) ->
  provider reg = ColorfulPalette cv gv it bt profile hashes ck cb -> hashes !! profile = None ->
  is_ok (execution_index send jst_now decode_info hex_decode aes c w).1 = false.
Proof.
  clear decode_game parse_version. intros (Hreg & Hname & _ & Hv & Hh & Hp & Hhash)%context_new_Ok Hprov Hnone.
  assert (Hrender : forall cookie w, is_ok (fetch_asset_bundle_info send jst_now decode_info hex_decode aes (with_cookie c cookie) w).1 = false).
  { intros cookie w1. unfold fetch_asset_bundle_info, AssetFetch.render_asset_info_url, palette_parts. simpl.
    rewrite Hreg, Hprov, Hp, Hhash. simpl. rewrite Hnone. unfold bind, of_result.
    by destruct (resolved_asset_version c), (resolved_asset_hash c). }
  assert (Hc : c = with_cookie c (runtime_cookie c)) by by destruct c.
  unfold execution_index, bind at 1. destruct (requires_cookies c).
  - destruct (fetch_runtime_cookies send c w) as [[c'|e] w1] eqn:Ec; [|done].
    apply cookies_spec in Ec as [_ Hc']. rewrite Hc'. apply Hrender.
  - simpl. rewrite Hc. apply Hrender.
Qed.
End Preview.

(** ** Examples *)
Module FetchDemo.
(** A server that knows the current version, the game version and the index. *)
Definition respond (rq : Request) (n : nat) : result Response string * nat :=
  let ok := mkResponse 200 None (Ok (replicate 16 Byte.x61)) in
  (if String.eqb (rq_url rq) "https://v/current" then Ok (mkResponse 200 None (Ok []))
   else if String.eqb (rq_url rq) "https://game/6/9f" then Ok ok
   else if starts_with "https://production-cf2d/6.0.1/ab" (rq_url rq) then Ok ok
   else Ok (mkResponse 404 None (Ok [])), S n).
Definition parse_version (_ : bytes) : result CurrentVersionInfo string :=
  Ok (mkCurrentVersionInfo (Some "6") (Some "9f") (Some "6.0.1") (Some "ab")).
Definition decode_game (_ : bytes) : result GameVersionInfo string := Ok (mkGameVersionInfo None (Some "cf2d") None).
Definition decode_info (_ : bytes) : result AssetBundleInfo string := Ok (mkAssetBundleInfo (Some "6.0.1") None ∅).
Definition hex (_ : string) : result bytes string := Ok (replicate 16 Byte.x00).
Definition aes (_ _ content : bytes) : result bytes string := Ok content.
Definition checked {A} (_ : A) : result unit string := Ok tt.

Definition reg (hashes : gmap string string) (current game : option string) : RegionConfig :=
  let r := RegionConfig_default in
  mkRegionConfig true
    (ColorfulPalette current game "https://{env}-{hash}/{asset_version}/{asset_hash}" "https://{env}-{hash}/{bundle_path}"
       "production" hashes false None)
    (mkCryptoConfig (Some "00") (Some "00")) (unity_version r) (paths r) (filters r) (export r) (upload r).
Definition request : AssetUpdateRequest := mkAssetUpdateRequest "jp" (Some "6.0.1") (Some "ab") false Update.
Definition context (r : RegionConfig) : AssetExecutionContext :=
  mkContext "jp" r (retry (execution AppConfig_default)) None None None (Some "6.0.1") (Some "ab") None None.
Definition now (_ : nat) : string := "20240101090000".
Definition w0 : world nat := mkWorld 0%nat [].

(** The region as in the example configuration: the hash comes from the game version. *)
Definition looked_up : RegionConfig := reg ∅ (Some "https://v/current") (Some "https://game/{app_version}/{app_hash}").

Lemma execution_needs_profile_hash_witness :
  is_ok (open_index respond now parse_version decode_game decode_info hex aes (context looked_up) w0).1 = true
  /\ is_ok (execution_index respond now decode_info hex aes (context looked_up) w0).1 = false.
Proof.
  split; [vm_compute; reflexivity|].
  apply (execution_needs_profile_hash respond now decode_info hex aes checked checked checked AppConfig_default "jp" looked_up request
           (context looked_up)
           (mkClientOptions [("accept", "*/*"); ("user-agent", "ProductName/134 CFNetwork/1408.0.4 Darwin/22.5.0");
              ("accept-encoding", "identity"); ("accept-language", "zh-CN,zh-Hans;q=0.9"); ("x-unity-version", "2022.3.21f1")] false None)
           (Some "https://v/current") (Some "https://game/{app_version}/{app_hash}")
           "https://{env}-{hash}/{asset_version}/{asset_hash}" "https://{env}-{hash}/{bundle_path}" "production" ∅ false None);
    vm_compute; reflexivity.
Defined.

Definition configured : RegionConfig := reg {[ "production" := "cf2d" ]} None None.
Definition bundle_template : list chunk := [Lit "https://"; Hole "env"; Lit "-"; Hole "hash"; Lit "/"; Hole "bundle_path"].
Definition music : DownloadTask := mkDownloadTask "music/1" "music/1" "h" StartApp 1 0.

End FetchDemo.
