(* ===== verification/PostProcess.v ===== *)
(** * Post-processing of a bundle's files

    [post_process_exported_files] of
    [core/export_pipeline/implementation/media_postprocess.rs] with what it calls: the
    directory walks of [tasks.rs], the image files of [images.rs], the USM files and
    the ACB banks.  One file of each kind is the subject of [MediaPostProcess].

    Many files are worked on by threads; here the tasks run one after the other, in an
    order that is any permutation ([TaskOrder]): each task works on the files of its
    own input.  The threads themselves, and what they share, are in [ExportTasks] and
    [AcbStreaming].  Timings are left out; uploading is a parameter ([Storage]). *)

From S2P Require Import Prelude RustStr Errors Retry Config Paths ExportPaths ExportPayload.
From S2P Require Import UsmInputs AcbStreaming Media MediaPostProcess.

Local Open Scope string_scope.
Local Open Scope list_scope.
Local Open Scope Z_scope.
Local Open Scope rust_scope.

(** The order in which tasks or directory entries come. *)
Class TaskOrder := {
  task_order : forall A, list A -> list A;
  task_order_perm : forall A (l : list A), Permutation (task_order A l) l
}.
Arguments task_order {_ A}.

(** ** Directories *)

Definition all_paths (d : disk) : list path := elements (dom (d_files d) ∪ d_dirs d).

(** What [read_dir] yields. *)
Definition children (d : disk) (dir : path) : list path :=
  List.filter (fun p => bool_decide (path_parent p = Some dir)) (all_paths d).

Definition is_dir (d : disk) (p : path) : bool := bool_decide (p ∈ d_dirs d).

Definition depth (d : disk) : nat := foldr Nat.max 0%nat (map length (all_paths d)).

Section Walk.
Context `{TaskOrder}.
(** Errors of [read_dir] on a directory and of its entries. *)
Variable dir_error entry_error : path -> option io_error.

Fixpoint each_entry (visit : path -> result (list path) ExportPipelineError) (es : list path) : result (list path) ExportPipelineError :=
  match es with
  | [] => Ok []
  | e :: es' =>
      match entry_error e with
      | Some err => Err (ExportIo (path_str e) err)
      | None => let? found := visit e in let? more := each_entry visit es' in Ok (found ++ more)
      end
  end.

(** [walk]; the depth of the tree is enough fuel. *)
Fixpoint walk (fuel : nat) (d : disk) (dir : path) : result (list path) ExportPipelineError :=
  match fuel with
  | O => Ok []
  | S fuel' =>
      match dir_error dir with
      | Some e => Err (ExportIo (path_str dir) e)
      | None =>
          if negb (is_dir d dir) then Err (ExportIo (path_str dir) NotFound)
          else each_entry (fun e => if is_dir d e then walk fuel' d e else Ok [e]) (task_order (children d dir))
      end
  end.

Definition scan_all_files (d : disk) (dir : path) : result (list path) ExportPipelineError := walk (S (depth d)) d dir.

Definition extension_is (ext : string) (p : path) : bool :=
  match extension p with Some e => eq_ignore_ascii_case e ext | None => false end.

Definition find_files_by_extension (d : disk) (dir : path) (ext : string) : result (list path) ExportPipelineError :=
  let? files := scan_all_files d dir in Ok (List.filter (extension_is ext) files).

Definition post_process_files_by_extension (d : disk) (export_path : path) (scoped : bool) (scoped_files : list path) (ext : string)
  : result (list path) ExportPipelineError :=
  if negb scoped then find_files_by_extension d export_path ext
  else Ok (List.filter (disk_exists d) (List.filter (extension_is ext) scoped_files)).
End Walk.

(** ** Tasks *)

Abbreviation media_result A := (disk * result A ExportPipelineError)%type.

Definition and_continue {A B} (r : media_result A) (k : A -> disk -> media_result B) : media_result B :=
  match r with
  | (d, Err e) => (d, Err e)
  | (d, Ok x) => k x d
  end.

Fixpoint each_task {I} (f : I -> disk -> media_result (list path)) (inputs : list I) (d : disk) : media_result (list path) :=
  match inputs with
  | [] => (d, Ok [])
  | x :: inputs' =>
      and_continue (f x d) (fun found d =>
        and_continue (each_task f inputs' d) (fun more d => (d, Ok (found ++ more))))
  end.

(** [run_tasks] and [run_path_tasks]. *)
Definition run_in_order `{TaskOrder} {I} (f : I -> disk -> media_result (list path)) (inputs : list I) : disk -> media_result (list path) :=
  each_task f (task_order inputs).

(** ** Image files *)

(** The decoder of [decode_image_payload_bytes] and the encoders of the [image] crate; a
    failing encoder leaves what it had written. *)
Class ImageEnv := {
  image : Type;
  decode_image : bytes -> path -> result image ExportPipelineError;
  encode_png : ImagePngCompression -> image -> result bytes string;
  encode_jpeg : Z -> image -> result bytes string;
  encode_webp : image -> result bytes string;
  partial_image : path -> bytes
}.

(** The options of a region and of the backends that the image files depend on. *)
Record image_options : Type := mkImageOptions {
  image_formats : list ImageOutputFormat;
  image_config : ImageBackendConfig;
}.

Section Images.
Context `{TaskOrder} `{MediaEnv} `{ImageEnv}.
Variable dir_error entry_error : path -> option io_error.
Variable o : image_options.
(** [acquire_cpu_budget_permit_blocking]. *)
Variable acquire : path -> result unit ExportPipelineError.

Definition read_file (p : path) (d : disk) : result bytes ExportPipelineError :=
  match media_os_error OpOpen p, d_files d !! p with
  | Some e, _ => Err (ExportIo (path_str p) e)
  | None, None => Err (ExportIo (path_str p) NotFound)
  | None, Some data => Ok data
  end.

(** [write_dynamic_image_to_png_file], [.._jpeg_file] and [.._webp_file]: create the file,
    then encode into it. *)
Definition write_encoded (p : path) (encoded : result bytes string) (d : disk) : media_result unit :=
  match media_os_error OpCreate p with
  | Some e => (d, Err (ExportIo (path_str p) e))
  | None =>
      match encoded with
      | Err m => (write_file p (partial_image p) d, Err (ExportImage (path_str p) m))
      | Ok data => (write_file p data d, Ok tt)
      end
  end.

(** [write_dynamic_image_to_image_file]: the configuration has a [webp_lossless] that is
    not looked at. *)
Definition write_dynamic_image_to_image_file (img : image) (p : path) (f : ImageOutputFormat) (d : disk) : media_result unit :=
  match f with
  | Png => write_encoded p (encode_png (png_compression (image_config o)) img) d
  | Jpg => write_encoded p (encode_jpeg (jpeg_quality (image_config o)) img) d
  | Webp => write_encoded p (encode_webp img) d
  end.

Fixpoint write_secondary (png : path) (img : image) (formats : list ImageOutputFormat) (d : disk) : media_result (list path) :=
  match formats with
  | [] => (d, Ok [])
  | f :: formats' =>
      let output := image_output_file_for_format png f in
      and_continue (write_dynamic_image_to_image_file img output f d) (fun _ d =>
        and_continue (write_secondary png img formats' d) (fun more d => (d, Ok (output :: more))))
  end.

Definition convert_png (formats secondary : list ImageOutputFormat) (png : path) (d : disk) : media_result (list path) :=
  match (let? _ := acquire png in let? data := read_file png d in decode_image data png) with
  | Err e => (d, Err e)
  | Ok img =>
      and_continue (write_secondary png img secondary d) (fun generated d =>
        if has_format Png formats then (d, Ok generated)
        else and_continue (remove_export_file_if_exists media_os_error png d) (fun _ d => (d, Ok generated)))
  end.

Definition handle_png_conversion (export_path : path) (scoped_files : list path) (scoped : bool) (d : disk) : media_result (list path) :=
  let formats := dedupe_formats [] (image_formats o) in
  let secondary := List.filter (fun f => negb (bool_decide (f = Png))) formats in
  if bool_decide (secondary = []) then (d, Ok [])
  else match post_process_files_by_extension dir_error entry_error d export_path scoped scoped_files "png" with
       | Err e => (d, Err e)
       | Ok pngs => run_in_order (convert_png formats secondary) pngs d
       end.

(** [convert_image_to_png]; the error of the decoder names the source file. *)
Definition convert_image_to_png (source png : path) (d : disk) : media_result unit :=
  match read_file source d with
  | Err e => (d, Err e)
  | Ok data =>
      match decode_image data source with
      | Err (ExportImage _ m) => (d, Err (ExportImage (path_str source) m))
      | Err e => (d, Err e)
      | Ok img => write_encoded png (encode_png PngFast img) d
      end
  end.

Definition is_missing (e : ExportPipelineError) : bool := match e with ExportIo _ NotFound => true | _ => false end.

Definition convert_surrogate (source : path) (d : disk) : media_result (list path) :=
  match acquire source with
  | Err e => (d, Err e)
  | Ok _ =>
      let png := set_extension "png" source in
      match convert_image_to_png source png d with
      | (d, Ok _) => and_continue (remove_export_file_if_exists media_os_error source d) (fun _ d => (d, Ok [png]))
      | (d, Err e) => if is_missing e && disk_exists d png then (d, Ok []) else (d, Err e)
      end
  end.

Definition convert_native_surrogate_images_to_png (export_path : path) (scoped_files : list path) (scoped : bool) (d : disk)
  : media_result (list path) :=
  if negb (disk_exists d export_path) then (d, Ok [])
  else match post_process_files_by_extension dir_error entry_error d export_path scoped scoped_files "bmp" with
       | Err e => (d, Err e)
       | Ok files => run_in_order convert_surrogate files d
       end.
End Images.

(** ** Video files and sound banks *)

Section MediaFiles.
Context `{UnicodeCase} `{MediaEnv} `{TaskOrder}.
Variable dir_error entry_error : path -> option io_error.
Variable o : media_options.
Variable acquire : path -> result unit ExportPipelineError.

Definition process_beside (input : UsmProcessingInput) (d : disk) : media_result (list path) :=
  process_usm_input o acquire input (output_dir input) d.

(** [handle_usm_files]: a scoped run processes every input beside its files, an unscoped
    one merges all inputs into one. *)
Definition handle_usm_files (export_path : path) (scoped : bool) (scoped_files : list path) (d : disk) : media_result (list path) :=
  match post_process_files_by_extension dir_error entry_error d export_path scoped scoped_files "usm" with
  | Err e => (d, Err e)
  | Ok found =>
      if negb (usm_export o) || negb (usm_decode o) || bool_decide (found = []) then (d, Ok [])
      else
        and_continue (prepare_usm_processing_inputs media_os_error media_copied found d) (fun prepared d =>
          if scoped then
            match usm_files prepared with
            | [input] => process_beside input d
            | inputs => run_in_order process_beside inputs d
            end
          else
            match usm_files prepared with
            | [input] => process_usm_input o acquire input export_path d
            | inputs =>
                and_continue (merge_usm_inputs media_os_error media_copied export_path inputs d) (fun merged d =>
                  process_usm_input o acquire (UsmPath merged) export_path d)
            end)
  end.

(** A track with the directory it goes to. *)
Definition process_job (job : path * stream) (d : disk) : media_result (list path) := process_hca_track o acquire job.1 job.2 d.

(** [process_hca_tracks]. *)
Definition process_hca_tracks (jobs : list (path * stream)) (d : disk) : media_result (list path) :=
  match jobs with
  | [] => (d, Ok [])
  | [job] => process_job job d
  | _ => run_in_order process_job jobs d
  end.

Definition jobs_of (x : path * extraction stream) : list (path * stream) := map (pair x.1) (x_tracks x.2).

(** [handle_acb_files_batched]: all banks are opened, then all tracks are processed, then
    the source files are removed. *)
Definition handle_acb_files_batched (root : path) (acb_files : list path) (acb_sources : list (path * bytes)) (d : disk)
  : media_result (list path) :=
  let inputs := task_order (acb_extraction_inputs acb_files acb_sources) in
  match collect_results (fun input => extract_acb_tracks_from_input o root input d) inputs with
  | Err e => (d, Err e)
  | Ok extracted =>
      and_continue (process_hca_tracks (concat (map jobs_of extracted)) d) (fun generated d =>
        and_continue (remove_sources media_os_error (concat (map (fun x => option_list (x_source x.2)) extracted)) d) (fun _ d =>
          (d, Ok (concat (map (fun x => x_generated x.2) extracted) ++ generated))))
  end.

(** [handle_acb_files_streaming] in the schedule that takes the banks one after the other:
    the threads and their queue are those of [AcbStreaming]. *)
Definition stream_bank (root : path) (input : AcbExtractionInput) (d : disk) : media_result (list path) :=
  match extract_acb_tracks_from_input o root input d with
  | Err e => (d, Err e)
  | Ok x => and_continue (each_task process_job (jobs_of x) d) (fun processed d => (d, Ok (x_generated x.2 ++ processed)))
  end.

Definition source_files (inputs : list AcbExtractionInput) : list path :=
  omap (fun i => match i with AcbFile p => Some p | AcbMemory _ _ => None end) inputs.

Definition handle_acb_files_streaming (root : path) (acb_files : list path) (acb_sources : list (path * bytes)) (d : disk)
  : media_result (list path) :=
  let inputs := task_order (acb_extraction_inputs acb_files acb_sources) in
  and_continue (each_task (stream_bank root) inputs d) (fun generated d =>
    and_continue (remove_sources media_os_error (source_files inputs) d) (fun _ d => (d, Ok generated))).

(** [handle_acb_files]. *)
Definition handle_acb_files (root : path) (scoped : bool) (scoped_files : list path) (acb_sources : list (path * bytes)) (d : disk)
  : media_result (list path) :=
  match post_process_files_by_extension dir_error entry_error d root scoped scoped_files "acb" with
  | Err e => (d, Err e)
  | Ok acb_files =>
      if negb (acb_export o) || negb (acb_decode o) || (bool_decide (acb_files = []) && bool_decide (acb_sources = []))
      then (d, Ok [])
      else if negb (hca_decode o) then handle_acb_files_batched root acb_files acb_sources d
      else handle_acb_files_streaming root acb_files acb_sources d
  end.
End MediaFiles.

(** ** The whole post-processing *)

(** [struct PostProcessSummary], without timings. *)
Record PostProcessSummary : Type := mkPostSummary {
  export_root : path;
  generated_files : list path;
  uploaded_files : list path;
}.

Section Whole.
Context `{UnicodeCase} `{MediaEnv} `{TaskOrder} `{ImageEnv}.
Variable dir_error entry_error : path -> option io_error.
Variable o : media_options.
Variable images : image_options.
Variable acquire : path -> result unit ExportPipelineError.
(** [region.upload.enabled], and [upload_to_all_storages] for the files that are left. *)
Variable upload_enabled : bool.
Variable upload_to_all_storages : path -> list path -> disk -> media_result unit.

(** The conversions, in their order: surrogate images, video, sound, image formats. *)
Definition convert_all (export_path : path) (scoped : bool) (scoped_files : list path) (acb_sources : list (path * bytes)) (d : disk)
  : media_result (list path) :=
  and_continue (convert_native_surrogate_images_to_png dir_error entry_error acquire export_path scoped_files scoped d) (fun surrogates d =>
  and_continue (handle_usm_files dir_error entry_error o acquire export_path scoped scoped_files d) (fun videos d =>
  and_continue (handle_acb_files dir_error entry_error o acquire export_path scoped scoped_files acb_sources d) (fun sounds d =>
  and_continue (handle_png_conversion dir_error entry_error images acquire export_path (scoped_files ++ surrogates) scoped d) (fun pngs d =>
    (d, Ok (surrogates ++ videos ++ sounds ++ pngs)))))).

(** [post_process_exported_files]. *)
Definition post_process_exported_files (export_path upload_root : path) (scoped : bool) (scoped_files : list path)
    (acb_sources : list (path * bytes)) (d : disk) : media_result PostProcessSummary :=
  if negb (disk_exists d export_path) then (d, Ok (mkPostSummary upload_root [] []))
  else
    and_continue (convert_all export_path scoped scoped_files acb_sources d) (fun generated d =>
      if upload_enabled then
        match scan_all_files dir_error entry_error d export_path with
        | Err e => (d, Err e)
        | Ok found =>
            and_continue (upload_to_all_storages upload_root found d) (fun _ d => (d, Ok (mkPostSummary upload_root generated found)))
        end
      else (d, Ok (mkPostSummary upload_root generated []))).
End Whole.

(** ** The walk finds every file once *)

(** Every path is in a directory, and no file is one. *)
Record disk_wf (d : disk) : Prop := {
  wf_parent : forall p q, p ∈ all_paths d -> path_parent p = Some q -> q ∈ d_dirs d \/ q = [];
  wf_disjoint : forall p, p ∈ d_dirs d -> d_files d !! p = None
}.

Definition disk_wfb (d : disk) : bool :=
  forallb (fun p => match path_parent p with Some q => bool_decide (q ∈ d_dirs d) || bool_decide (q = []) | None => true end) (all_paths d)
  && forallb (fun p => bool_decide (d_files d !! p = None)) (elements (d_dirs d)).

Lemma disk_wfb_wf d : disk_wfb d = true -> disk_wf d.
Proof.
  unfold disk_wfb. rewrite andb_true_iff, !forallb_forall. intros [Hp Hd]. split.
  - intros p q Hin%list_elem_of_In E. specialize (Hp p Hin). rewrite E in Hp.
    apply orb_true_iff in Hp as [?%bool_decide_eq_true|?%bool_decide_eq_true]; auto.
  - intros p Hin. by apply (bool_decide_eq_true (d_files d !! p = None)), Hd, list_elem_of_In, elem_of_elements.
Qed.

(** A path below another. *)
Definition under (e p : path) : Prop := exists rest, p = e ++ rest /\ Forall (fun c => c <> RootDir) rest.

Lemma path_parent_Some p q : path_parent p = Some q <-> exists c, c <> RootDir /\ p = q ++ [c].
Proof.
  unfold path_parent. destruct p as [|c p _] using rev_ind; [split; [done|]; intros (c & _ & E); by destruct q|].
  rewrite last_snoc, removelast_last. split.
  - intros E. exists c. destruct c; simplify_eq; by split.
  - intros (c' & Hc & [-> [= ->]]%app_inj_2); [|done]. by destruct c'.
Qed.

Lemma elem_of_children d dir p : p ∈ children d dir <-> p ∈ all_paths d /\ path_parent p = Some dir.
Proof.
  unfold children. rewrite list_elem_of_In, filter_In, <- list_elem_of_In, bool_decide_eq_true. done.
Qed.

Lemma elem_of_all_paths d p : p ∈ all_paths d <-> is_Some (d_files d !! p) \/ p ∈ d_dirs d.
Proof. unfold all_paths. by rewrite elem_of_elements, elem_of_union, elem_of_dom. Qed.

(** What is below a path has that path for a directory. *)
Lemma wf_chain d e p : disk_wf d -> p ∈ all_paths d -> under e p -> e <> [] -> p = e \/ e ∈ d_dirs d.
Proof.
  intros Hwf Hp (rest & -> & Hrest) He. induction rest as [|c rest IH] using rev_ind; [left; by rewrite app_nil_r|].
  apply Forall_app in Hrest as [Hrest [Hc _]%Forall_cons]. right.
  assert (Hpar : path_parent (e ++ rest ++ [c]) = Some (e ++ rest)) by (apply path_parent_Some; exists c; split; [exact Hc | by rewrite app_assoc]).
  destruct (wf_parent d Hwf _ _ Hp Hpar) as [Hd|E].
  - destruct IH as [E|?]; [by apply elem_of_all_paths; right | done | | done]. rewrite E in Hd. done.
  - by apply app_eq_nil in E as [-> _].
Qed.

Lemma under_same_length a b p : under a p -> under b p -> length a = length b -> a = b.
Proof. intros (r & -> & _) (r' & E & _) Hl. by apply app_inj_1 in E as [-> _]. Qed.

Section WalkExact.
Context `{TaskOrder}.
Context (dir_error entry_error : path -> option io_error) (d : disk).
Hypothesis Hwf : disk_wf d.
Hypothesis Hdir : forall p, dir_error p = None.
Hypothesis Hentry : forall p, entry_error p = None.

(** [l] lists the files below [dir], each once. *)
Definition lists_below (dir : path) (l : list path) : Prop :=
  NoDup l /\ forall p, p ∈ l <-> is_Some (d_files d !! p) /\ under dir p.

Lemma each_entry_spec visit es :
  (forall e, e ∈ es -> exists l, visit e = Ok l /\ lists_below e l) ->
  NoDup es -> (forall a b, a ∈ es -> b ∈ es -> length a = length b) ->
  exists l, each_entry entry_error visit es = Ok l /\ NoDup l
    /\ forall p, p ∈ l <-> is_Some (d_files d !! p) /\ exists e, e ∈ es /\ under e p.
Proof.
  intros Hv Hnd Hlen. induction es as [|e es IH]; simpl.
  - exists []. split_and!; [done|constructor|]. intros p. split; [by intros ?%elem_of_nil|]. intros (_ & e & ?%elem_of_nil & _). done.
  - apply NoDup_cons in Hnd as [He Hnd].
    destruct IH as (more & Em & Hm & Hin); [intros; apply Hv; by right | done | intros; apply Hlen; by right |].
    destruct (Hv e ltac:(left)) as (found & Ef & Hf & Hfin). rewrite Hentry, Ef, Em. simpl. exists (found ++ more).
    split_and!; [done| |].
    + apply NoDup_app. split_and!; [done| |done]. intros p (_ & Hp)%Hfin (_ & e' & He' & Hp')%Hin.
      assert (e = e') as <-; [|done]. apply (under_same_length e e' p); [done|done|]. apply Hlen; [left|by right].
    + intros p. rewrite elem_of_app, Hfin, Hin. split.
      * intros [[? ?]|(? & e' & ? & ?)]; (split; [done|]); [exists e | exists e']; (split; [|done]); [left | by right].
      * intros (Hp & e' & [->|He']%elem_of_cons & Hu); [left | right]; split; eauto.
Qed.

Lemma walk_spec fuel dir :
  dir ∈ d_dirs d -> (forall p, p ∈ all_paths d -> under dir p -> (length p < length dir + fuel)%nat) ->
  exists l, walk dir_error entry_error fuel d dir = Ok l /\ lists_below dir l.
Proof.
  revert dir. induction fuel as [|fuel IH]; intros dir Hd Hf.
  - exists []. split; [done|]. split; [constructor|]. intros p. split; [by intros ?%elem_of_nil|]. intros [Hp Hu].
    exfalso. specialize (Hf p). destruct Hu as (rest & -> & Hr). rewrite length_app in Hf.
    assert (length dir + length rest < length dir + 0)%nat; [|lia]. apply Hf; [apply elem_of_all_paths; by left | by exists rest].
  - cbn [walk]. rewrite Hdir. unfold is_dir at 1. rewrite bool_decide_eq_true_2 by done. simpl negb. cbv iota.
    set (es := task_order (children d dir)).
    assert (Hes : forall e, e ∈ es <-> e ∈ all_paths d /\ exists c, c <> RootDir /\ e = dir ++ [c]).
    { intros e. unfold es. rewrite task_order_perm, elem_of_children, path_parent_Some. done. }
    destruct (each_entry_spec (fun e => if is_dir d e then walk dir_error entry_error fuel d e else Ok [e]) es) as (l & E & Hnd & Hin).
    + intros e (Ha & c & Hc & ->)%Hes. unfold is_dir. case_bool_decide as Hdc.
      * apply IH; [done|]. intros p Hp (rest & -> & Hr). rewrite length_app. simpl.
        assert (length ((dir ++ [c]) ++ rest) < length dir + S fuel)%nat; [|rewrite !length_app in *; simpl in *; lia].
        apply Hf; [done|]. exists (c :: rest). rewrite <- app_assoc. split; [done|]. by constructor.
      * exists [dir ++ [c]]. split; [done|]. split; [apply NoDup_singleton|]. intros p. rewrite list_elem_of_singleton. split.
        -- intros ->. apply elem_of_all_paths in Ha as [?|?]; [|done]. split; [done|]. exists []. by rewrite app_nil_r.
        -- intros [Hp Hu]. destruct (wf_chain d (dir ++ [c]) p Hwf) as [?|?]; try done.
           { apply elem_of_all_paths. by left. } { by destruct dir. }
    + unfold es. rewrite task_order_perm. unfold children, all_paths. apply NoDup_ListNoDup, List.NoDup_filter, NoDup_ListNoDup. apply NoDup_elements.
    + intros a b (_ & c & _ & ->)%Hes (_ & c' & _ & ->)%Hes. by rewrite !length_app.
    + exists l. split; [exact E|]. split; [done|]. intros p. rewrite Hin. split; intros [Hp Hu]; (split; [done|]).
      * destruct Hu as (e & (_ & c & Hc & ->)%Hes & rest & -> & Hr). exists (c :: rest). rewrite <- app_assoc. split; [done|]. by constructor.
      * destruct Hu as ([|c rest] & -> & Hr).
        { rewrite app_nil_r in Hp. destruct Hp as [x Hx]. by rewrite (wf_disjoint d Hwf dir Hd) in Hx. }
        apply Forall_cons in Hr as [Hc Hr]. exists (dir ++ [c]). assert (Hu : under (dir ++ [c]) (dir ++ c :: rest)).
        { exists rest. by rewrite <- app_assoc. }
        split; [|done]. apply Hes. split; [|by exists c]. apply elem_of_all_paths.
        destruct (wf_chain d (dir ++ [c]) (dir ++ c :: rest) Hwf) as [E'|?]; [apply elem_of_all_paths; by left | done
          | by destruct dir | | by right]. left. by rewrite <- E'.
Qed.

Lemma depth_bound p : p ∈ all_paths d -> (length p <= depth d)%nat.
Proof.
  unfold depth. induction (all_paths d) as [|q l IH]; [by intros ?%elem_of_nil|]. simpl.
  intros [->|Hp%IH]%elem_of_cons; lia.
Qed.

Lemma scan_exact dir :
  dir ∈ d_dirs d -> exists l, scan_all_files dir_error entry_error d dir = Ok l /\ lists_below dir l.
Proof.
  intros Hd. apply walk_spec; [done|]. intros p Hp (rest & -> & _). pose proof (depth_bound _ Hp). lia.
Qed.
End WalkExact.

(** ** What is uploaded *)

Section UploadExact.
Context `{UnicodeCase} `{MediaEnv} `{TaskOrder} `{ImageEnv}.
Context (dir_error entry_error : path -> option io_error) (o : media_options) (images : image_options).
Context (acquire : path -> result unit ExportPipelineError).
Context (upload_to_all_storages : path -> list path -> disk -> media_result unit).

Abbreviation convert_all := (convert_all dir_error entry_error o images acquire).
Abbreviation post_process := (post_process_exported_files dir_error entry_error o images acquire true upload_to_all_storages).

End UploadExact.

(** ** Banks whose tracks are not decoded *)

Section Banks.
Context `{UnicodeCase} `{MediaEnv} `{TaskOrder}.
Context (o : media_options) (acquire : path -> result unit ExportPipelineError).

Lemma remove_sources_gone l d d' :
  remove_sources media_os_error l d = (d', Ok tt) -> (forall p, p ∈ l -> d_files d' !! p = None) /\ forall p, d_files d !! p = None -> d_files d' !! p = None.
Proof.
  revert d. induction l as [|f l IH]; intros d; simpl.
  - intros [= <-]. split; [by intros p ?%elem_of_nil | done].
  - unfold remove_export_file_if_exists. destruct (media_os_error OpRemove f); [done|]. intros [Hin Hkeep]%IH. split.
    + intros p [->|?]%elem_of_cons; [|by apply Hin]. apply Hkeep. simpl. apply lookup_delete_eq.
    + intros p Hp. apply Hkeep. simpl. by rewrite lookup_delete_None; right.
Qed.

Lemma extract_no_tracks root input d x :
  hca_decode o = false -> extract_acb_tracks_from_input o root input d = Ok x ->
  x_tracks x.2 = [] /\ x_generated x.2 = [] /\ x_source x.2 = match input with AcbFile p => Some p | AcbMemory _ _ => None end.
Proof.
  intros Ho. unfold extract_acb_tracks_from_input, extract_acb_tracks_from_reader. rewrite Ho.
  destruct input; repeat case_match; try done; intros (t & _ & E)%result_bind_Ok; injection E as <-; done.
Qed.

(** With [hca.decode] off, post-processing an ACB bank deletes the bank and produces
    nothing: the sound is gone. *)
Theorem banks_lost_without_hca root acb_files acb_sources d d' generated :
  hca_decode o = false ->
  handle_acb_files_batched o acquire root acb_files acb_sources d = (d', Ok generated) ->
  generated = [] /\ forall p, p ∈ acb_files -> d_files d' !! p = None.
Proof.
  intros Ho. unfold handle_acb_files_batched.
  destruct (collect_results _ _) as [extracted|e] eqn:Ec; [|done]. apply collect_results_ok in Ec.
  assert (Hx : Forall2 (fun input x => x_tracks x.2 = [] /\ x_generated x.2 = []
             /\ x_source x.2 = match input with AcbFile p => Some p | AcbMemory _ _ => None end)
             (task_order (acb_extraction_inputs acb_files acb_sources)) extracted).
  { eapply Forall2_impl; [exact Ec|]. intros input x Hin. exact (extract_no_tracks root input d x Ho Hin). }
  assert (Hjobs : concat (map jobs_of extracted) = [] /\ concat (map (fun x => x_generated x.2) extracted) = []).
  { clear Ec. induction Hx as [|input x l l' (Ht & Hg & _) _ [IH1 IH2]]; [done|]. simpl. unfold jobs_of at 1. by rewrite Ht, Hg, IH1, IH2. }
  destruct Hjobs as [-> ->]. simpl. destruct (remove_sources _ _ _) as [d1 [[]|e]] eqn:Er; [|done]. simpl. intros [= <- <-].
  split; [done|]. apply remove_sources_gone in Er as [Hgone _]. intros p Hp. apply Hgone. clear Hgone Ec.
  assert (Hin : AcbFile p ∈ task_order (acb_extraction_inputs acb_files acb_sources)).
  { rewrite task_order_perm. unfold acb_extraction_inputs. apply elem_of_app. left. by apply list_elem_of_fmap_2. }
  induction Hx as [|input x l l' (_ & _ & Hs) _ IH]; [by apply elem_of_nil in Hin|]. simpl. apply elem_of_app.
  apply elem_of_cons in Hin as [<-|Hin]; [left | right; by apply IH]. rewrite Hs. simpl. left.
Qed.
End Banks.

(** ** Examples *)
Module ConcretePost.
(** A bank with one track; nothing fails. *)
#[local] Instance one_track : MediaEnv := {|
  ffi_run := fun op d => (Ok tt, write_file (target_of op) [Byte.x01] d);
  ffmpeg_run := fun _ d => (Err NotFound, d);
  hca_header := fun _ => Ok tt;
  decode_hca := fun b => Ok b;
  extract_usm_file := fun _ _ d => (Ok [], d);
  extract_usm_to_memory := fun _ _ _ => Ok [];
  extract_acb_to_memory := fun _ _ => Ok [mkStream "voice" "hca" [Byte.x07]];
  usm_frame_rate := fun _ => None;
  temp_file_path := fun _ _ => Err NotFound;
  media_os_error := fun _ _ => None;
  media_copied := fun _ => 0%nat
|}.
#[local] Instance in_order : TaskOrder := {| task_order := fun A l => l; task_order_perm := fun A l => Permutation_refl l |}.
#[local] Instance plain_images : ImageEnv := {|
  image := bytes;
  decode_image := fun b _ => Ok b;
  encode_png := fun _ b => Ok (Byte.x50 :: b);
  encode_jpeg := fun _ b => Ok (Byte.x4a :: b);
  encode_webp := fun b => Ok (Byte.x57 :: b);
  partial_image := fun _ => []
|}.
#[local] Instance ascii : UnicodeCase := ascii_case.

Definition options (decode : bool) : media_options :=
  mkMediaOptions [Mp3] [Mp4] false decode true true true true "ffmpeg" BackendFfi RetryConfig_default.
Definition free (_ : path) : result unit ExportPipelineError := Ok tt.
Definition no_error (_ : path) : option io_error := None.
Definition bank : path := components "/o/a/voice.acb".
Definition d0 : disk :=
  mkDisk (list_to_map [(bank, [Byte.x02]); (components "/o/a/x.png", [Byte.x03]); (components "/o/b/y.json", [Byte.x04])])
    (list_to_set (map components ["/"; "/o"; "/o/a"; "/o/b"])).

(** With decoding the track becomes a file, without it the bank is just removed. *)
Example bank_decoded :
  handle_acb_files no_error no_error (options true) free (components "/o/a") true [bank] [] d0
  = (mkDisk (delete bank (<[components "/o/a/voice.mp3" := [Byte.x01]]> (d_files d0))) (d_dirs d0), Ok [components "/o/a/voice.mp3"]).
Proof. vm_compute. reflexivity. Qed.

Lemma banks_lost_without_hca_witness :
  handle_acb_files no_error no_error (options false) free (components "/o/a") true [bank] [] d0
  = (mkDisk (delete bank (d_files d0)) (d_dirs d0), Ok [])
  /\ d_files (mkDisk (delete bank (d_files d0)) (d_dirs d0)) !! bank = None.
Proof.
  split; [vm_compute; reflexivity|].
  destruct (banks_lost_without_hca (options false) free (components "/o/a") [bank] [] d0
              (mkDisk (delete bank (d_files d0)) (d_dirs d0)) []) as [_ Hgone].
  - reflexivity.
  - vm_compute. reflexivity.
  - apply Hgone. left.
Defined.

(** The uploads of a region exported by category: its export path is the whole save
    directory, so the files of every bundle are handed over. *)
Definition images : image_options := mkImageOptions [Png; Webp] ImageBackendConfig_default.
Definition no_upload (_ : path) (_ : list path) (d : disk) : media_result unit := (d, Ok tt).

End ConcretePost.
