(* ===== verification/BundleWork.v ===== *)
(** * Asset execution: the work on one bundle

    What [core/asset_execution.rs] does with a bundle between the scheduler's
    acquisitions: download, deobfuscate, keep the raw bundle, export through a temporary
    file ([download_and_export_bundle_payloads]), post-process and announce the artefacts
    ([finish_native_bundle_post_process]); the prefetch of raw bundles; and the
    background export of 3D models.  The object export, the image flush and the
    post-processing are the components [ObjectExport], [ExportPayload] and
    [PostProcess], reached through [BundleEnv].  Timings and metrics are left out. *)

From Stdlib Require Import Ascii.
From S2P Require Import Prelude RustStr Errors Retry Config Models Regions AssetInfo Paths AssetTasks AssetFetch.
From S2P Require Import ExportPaths ExportPayload PostProcess.

Local Open Scope string_scope.
Local Open Scope list_scope.
Local Open Scope Z_scope.
Local Open Scope rust_scope.

(** [struct UnityAssetBundlePayloadExport]: where the bundle's files are and what is still
    to be done with them. *)
Record PayloadExport : Type := mkPayloadExport {
  pe_export_path : path;
  pe_export_root : path;
  pe_scoped : bool;
  pe_written_files : list path;
  pe_acb_sources : list (path * bytes);
  pe_pending_images : list (path * bytes);
  pe_skipped_reads : nat;
  pe_read_plan_empty : bool;
}.

(** What the object export of a bundle returns ([NativeObjectExportSummary]). *)
Record ObjectSummary : Type := mkObjectSummary {
  os_written_files : list path;
  os_acb_sources : list (path * bytes);
  os_pending_images : list (path * bytes);
  os_skipped_reads : nat;
  os_read_plan_empty : bool;
}.

(** The file system's errors (a failing write keeps some bytes), the other components,
    the temporary directory and the exporter program. *)
Class BundleEnv := {
  mkdir_error : path -> option io_error;
  write_error : path -> option (io_error * nat);
  remove_error : path -> option io_error;
  temp_dir : path;
  object_export : AppConfig -> RegionConfig -> path -> path -> string -> string -> string -> disk -> disk * result ObjectSummary ExportPipelineError;
  flush_images : list (path * bytes) -> disk -> disk * result unit ExportPipelineError;
  post_process : RegionConfig -> path -> path -> bool -> list path -> list (path * bytes) -> disk -> disk * result PostProcessSummary ExportPipelineError;
  run_exporter : string -> list string -> disk -> result (bool * string * bytes) io_error * disk;
  regex_new : string -> option (string -> bool)
}.

(** [struct NativeBundlePostProcessJob], without its permits. *)
Record PostProcessJob : Type := mkJob {
  job_bundle_path : string;
  job_bundle_hash : string;
  job_export : PayloadExport;
}.

(** The network, the disk and the progress events. *)
Record work (N : Type) : Type := mkWork {
  wk_world : world N;
  wk_disk : disk;
  wk_events : list ExecutionProgressUpdate;
}.
Arguments mkWork {N}.
Arguments wk_world {N}.
Arguments wk_disk {N}.
Arguments wk_events {N}.

Definition W (N T : Type) : Type := work N -> result T AssetExecutionError * work N.
Definition wret {N T} (x : T) : W N T := fun s => (Ok x, s).
Definition wfail {N T} (r : result T AssetExecutionError) : W N T := fun s => (r, s).
Definition wbind {N A B} (m : W N A) (k : A -> W N B) : W N B :=
  fun s => match m s with
           | (Ok x, s') => k x s'
           | (Err e, s') => (Err e, s')
           end.

Declare Scope work_scope.
Notation "'let!' x := m 'in' k" := (wbind m (fun x => k))
  (at level 10, x pattern, m at level 100, k at level 200) : work_scope.
Local Open Scope work_scope.

Definition fetch {N T} (m : M N T) : W N T :=
  fun s => let '(r, w) := m (wk_world s) in (r, mkWork w (wk_disk s) (wk_events s)).
Definition on_disk {N T} (f : disk -> disk * result T AssetExecutionError) : W N T :=
  fun s => let '(d, r) := f (wk_disk s) in (r, mkWork (wk_world s) d (wk_events s)).
Definition send_progress {N} (e : ExecutionProgressUpdate) : W N unit :=
  fun s => (Ok tt, mkWork (wk_world s) (wk_disk s) (wk_events s ++ [e])).

Section Work.
Context `{UnicodeCase} `{BundleEnv}.

(** [create_dir_all] of the parent, then [fs::write]. *)
Definition write_below (mkdir_err write_err : string -> io_error -> AssetExecutionError) (p : path) (data : bytes) (d : disk)
  : disk * result unit AssetExecutionError :=
  let made := match path_parent p with
              | None => (d, Ok tt)
              | Some parent =>
                  match mkdir_error parent with
                  | Some e => (d, Err (mkdir_err (path_str parent) e))
                  | None => (create_dir_all parent d, Ok tt)
                  end
              end in
  match made with
  | (d, Err e) => (d, Err e)
  | (d, Ok _) =>
      match write_error p with
      | Some (e, n) => (write_file p (take n data) d, Err (write_err (path_str p) e))
      | None => (write_file p data d, Ok tt)
      end
  end.

Definition write_raw_bundle : path -> bytes -> disk -> disk * result unit AssetExecutionError := write_below CreateRawBundleDir WriteRawBundle.
Definition write_haruki_3d_work_bundle : path -> bytes -> disk -> disk * result unit AssetExecutionError :=
  write_below CreateHaruki3dStagingDir WriteHaruki3dStagingBundle.
Definition write_temp_file : path -> bytes -> disk -> disk * result unit AssetExecutionError := write_below CreateTempDir WriteTempFile.

(** [let _ = remove_file_if_exists(..)]: the outcome is ignored. *)
Definition discard_file (p : path) (d : disk) : disk :=
  match remove_error p with Some _ => d | None => mkDisk (delete p (d_files d)) (d_dirs d) end.

(** [export_unity_asset_bundle_payloads]. *)
Definition exclude_path_prefix (by_cat : bool) (export_path category : string) : string :=
  if by_cat then "assets/sekai/assetbundle/resources"
  else if starts_with "mysekai" export_path then "assets/sekai/assetbundle/resources/ondemand"
  else "assets/sekai/assetbundle/resources/" +:+ str_to_lowercase category.

Definition export_unity_asset_bundle_payloads (app : AppConfig) (reg : RegionConfig) (bundle_file : path) (export_path : string)
    (output_dir : path) (category : string) (d : disk) : disk * result PayloadExport ExportPipelineError :=
  let by_cat := by_category (export reg) in
  match trimmed_non_empty (as_library_path (asset_studio (backends app))) with
  | None => (d, Err (ExportAssetStudioFfi "backends.asset_studio.library_path is required"))
  | Some library =>
      match object_export app reg bundle_file output_dir export_path (exclude_path_prefix by_cat export_path category) library d with
      | (d, Err e) => (d, Err e)
      | (d, Ok s) =>
          (d, Ok (mkPayloadExport (if by_cat then output_dir else path_join output_dir (components export_path)) output_dir true
                    (os_written_files s) (os_acb_sources s) (os_pending_images s) (os_skipped_reads s) (os_read_plan_empty s)))
      end
  end.

Definition category_name (c : AssetCategory) : string :=
  match c with StartApp => "StartApp" | OnDemand | OtherCategory _ => "OnDemand" end.

Definition temp_file (region_name bundle : string) : path := path_join (path_join temp_dir (components region_name)) (components bundle).

Section Net.
Context {N : Type}.
Variable send : Request -> N -> result Response string * N.
Variable jst_now : N -> string.

Definition fetch_bundle (c : AssetExecutionContext) (t : DownloadTask) : W N bytes :=
  let! url := (fun s => (render_bundle_url c (jst_now (net (wk_world s))) t, s)) in
  let! body := fetch (get_with_retry send c url) in
  let! _ := send_progress (BundleDownloaded (bundle_path t) (length body)) in
  let! _ := send_progress (BundleFetchDetails (bundle_path t) "network") in
  let data := deobfuscate body in
  let! _ := send_progress (BundleDeobfuscated (bundle_path t)) in
  wret data.

Definition save_dir (c : AssetExecutionContext) : result string AssetExecutionError :=
  ok_or (asset_save_dir (paths (region c))) (MissingAssetSaveDir (region_name c)).

Definition lift_export {A} (r : disk * result A ExportPipelineError) : disk * result A AssetExecutionError :=
  (r.1, result_map_err AxExportPipeline r.2).

(** The copies that are kept of a bundle. *)
Definition keep_copies (c : AssetExecutionContext) (dir : string) (work_root : option path) (t : DownloadTask) (data : bytes) : W N unit :=
  let! _ := (if matches_raw_bundle_filters regex_new (region c) (bundle_path t) then
               let! p := wfail (region_raw_bundle_output_path (region c) dir (bundle_path t)) in on_disk (write_raw_bundle p data)
             else wret tt) in
  if matches_haruki_3d_filters regex_new (region c) (bundle_path t) then
    match work_root with
    | Some root => let! p := wfail (raw_bundle_output_path root (bundle_path t)) in on_disk (write_haruki_3d_work_bundle p data)
    | None => wret tt
    end
  else wret tt.

(** The export through the temporary file, which is removed whatever the outcome. *)
Definition export_from_temp (app : AppConfig) (c : AssetExecutionContext) (dir : string) (t : DownloadTask) (temp : path) (d : disk)
  : disk * result PayloadExport AssetExecutionError :=
  let '(d, r) := lift_export (export_unity_asset_bundle_payloads app (region c) temp (bundle_path t) (components dir)
                                (category_name (task_category t)) d) in
  (discard_file temp d, r).

Definition flush_export (x : PayloadExport) (d : disk) : disk * result PayloadExport AssetExecutionError :=
  if bool_decide (pe_pending_images x = []) then (d, Ok x)
  else match flush_images (pe_pending_images x) d with
       | (d, Err e) => (d, Err (AxExportPipeline e))
       | (d, Ok _) => (d, Ok (mkPayloadExport (pe_export_path x) (pe_export_root x) (pe_scoped x) (pe_written_files x) (pe_acb_sources x) []
                                (pe_skipped_reads x) (pe_read_plan_empty x)))
       end.

Definition download_and_export_bundle_payloads (app : AppConfig) (c : AssetExecutionContext) (t : DownloadTask) (work_root : option path)
  : W N PostProcessJob :=
  let! dir := wfail (save_dir c) in
  let! data := fetch_bundle c t in
  let! _ := keep_copies c dir work_root t data in
  let temp := temp_file (region_name c) (bundle_path t) in
  let! _ := on_disk (write_temp_file temp data) in
  let! _ := send_progress (BundleTempWritten (bundle_path t)) in
  let! x := on_disk (export_from_temp app c dir t temp) in
  let! x := on_disk (flush_export x) in
  wret (mkJob (bundle_path t) (bundle_hash t) x).

(** [prefetch_bundle]. *)
Definition prefetch_bundle (c : AssetExecutionContext) (t : DownloadTask) : W N unit :=
  let! dir := wfail (save_dir c) in
  let! data := fetch_bundle c t in
  let! p := wfail (region_raw_bundle_output_path (region c) dir (bundle_path t)) in
  on_disk (write_raw_bundle p data).

(** The files announced: those of the export, then those generated, each once. *)
Definition dedupe_files (l : list path) : list path :=
  fold_left (fun seen f => if bool_decide (f ∈ seen) then seen else seen ++ [f]) l [].

(** [finish_native_bundle_post_process]. *)
Definition finish_native_bundle_post_process (reg : RegionConfig) (job : PostProcessJob) : W N unit :=
  let x := job_export job in
  let! _ := on_disk (fun d => lift_export (flush_images (pe_pending_images x) d)) in
  let! summary := on_disk (fun d => lift_export (post_process reg (pe_export_path x) (pe_export_root x) (pe_scoped x) (pe_written_files x)
                                                   (pe_acb_sources x) d)) in
  let! _ := send_progress (BundleFfiExportPhases (job_bundle_path job)) in
  let! _ := (if (pe_skipped_reads x =? 0)%nat then wret tt
             else send_progress (BundleFfiSkippedObjectReads (job_bundle_path job) (pe_skipped_reads x))) in
  let! _ := (if pe_read_plan_empty x then wret tt else send_progress (BundleFfiObjectReadPlan (job_bundle_path job))) in
  let! _ := send_progress (BundleArtefactsProduced (job_bundle_path job) (job_bundle_hash job) (path_str (export_root summary))
                             (map path_str (dedupe_files (pe_written_files x ++ generated_files summary)))) in
  send_progress (BundleExported (job_bundle_path job)).

(** ** Prefetching raw bundles *)

Definition ensure_not_cancelled (flag : bool) : W N unit := if flag then wfail (Err Cancelled) else wret tt.

(** [err.to_string()]. *)
Variable error_text : AssetExecutionError -> string.

(** The tasks and the join loop of [prefetch_asset_bundles], in the schedule that runs and
    joins them one after the other; [cancelled i] is the flag when task [i] starts. *)
Fixpoint prefetch_loop (c : AssetExecutionContext) (cancelled : nat -> bool) (i : nat) (tasks : list DownloadTask) (completed failed : nat)
  : W N (nat * nat) :=
  match tasks with
  | [] => wret (completed, failed)
  | t :: tasks' =>
      if cancelled i then wfail (Err Cancelled)
      else
        let! _ := send_progress (BundleStarted (bundle_path t)) in
        fun s =>
          match prefetch_bundle c t s with
          | (Ok _, s) =>
              (let! _ := send_progress (BundleCompleted (bundle_path t)) in prefetch_loop c cancelled (S i) tasks' (S completed) failed) s
          | (Err e, s) =>
              if is_cancelled e then (Err Cancelled, s)
              else (let! _ := send_progress (BundleFailed (bundle_path t) (error_text e)) in
                    prefetch_loop c cancelled (S i) tasks' completed (S failed)) s
          end
  end.

Variable decode_info : bytes -> result AssetBundleInfo string.
Variable hex_decode : string -> result bytes string.
Variable aes_cbc_decrypt : bytes -> bytes -> bytes -> result bytes string.

Definition fetch_cookies (c : AssetExecutionContext) : W N AssetExecutionContext :=
  if requires_cookies c then fetch (fetch_runtime_cookies send c) else wret c.

Definition fetch_index (c : AssetExecutionContext) : W N (AssetBundleInfo * AssetExecutionContext) :=
  fetch (fetch_asset_bundle_info send jst_now decode_info hex_decode aes_cbc_decrypt c).

(** [prefetch_asset_bundles]; [cancel_first], [cancel_then] and [cancelled] are the flag at its
    checks. *)
Definition prefetch_asset_bundles `{TaskOrder} (c : AssetExecutionContext) (cancel_first cancel_then : bool) (cancelled : nat -> bool)
  : W N ExecutionSummary :=
  let! _ := ensure_not_cancelled cancel_first in
  let! _ := send_progress (Phase FetchingAssetInfo "fetching asset bundle info") in
  let! c := fetch_cookies c in
  let! _ := ensure_not_cancelled cancel_then in
  let! (info, c) := fetch_index c in
  let! _ := send_progress (Phase PlanningDownloads "building prefetch task list") in
  let tasks := filter_raw_bundle_tasks regex_new (region c) (build_download_tasks regex_new (region c) info ∅) in
  let! _ := send_progress (DownloadsPlanned (length tasks)) in
  let discovered := size (bundles info) in
  match tasks with
  | [] => wret (mkExecutionSummary discovered 0 0 0 0 false)
  | _ =>
      let! _ := send_progress (Phase DownloadingBundles ("prefetching " +:+ pretty (length tasks) +:+ " bundle(s)")) in
      let! (completed, failed) := prefetch_loop c cancelled 0 (task_order tasks) 0 0 in
      wret (mkExecutionSummary discovered (length tasks) completed failed 0 false)
  end.

(** ** The export of 3D models *)

Variable parse_version : bytes -> result CurrentVersionInfo string.
Variable decode_game : bytes -> result GameVersionInfo string.

(** [remove_dir_all]: the directory with everything in it. *)
Definition below_b (dir p : path) : bool := match path_strip_prefix dir p with Some _ => true | None => false end.
Definition remove_dir_all (dir : path) (d : disk) : disk :=
  mkDisk (filter (fun e => below_b dir e.1 = false) (d_files d)) (filter (fun p => below_b dir p = false) (d_dirs d)).

Definition remove_haruki_3d_work_dir (dir : path) (d : disk) : disk * result unit AssetExecutionError :=
  if negb (disk_exists d dir) then (d, Ok tt)
  else match remove_error dir with
       | Some e => (d, Err (RemoveHaruki3dStagingDir (path_str dir) e))
       | None => (remove_dir_all dir d, Ok tt)
       end.

(** The download loop of [run_haruki_3d_background_export]: a bundle whose file is there is
    not fetched again. *)
Fixpoint haruki_3d_downloads (c : AssetExecutionContext) (cancelled : nat -> bool) (asset_root : path) (i : nat) (tasks : list DownloadTask)
    (downloaded : nat) : W N nat :=
  match tasks with
  | [] => wret downloaded
  | t :: tasks' =>
      let! _ := ensure_not_cancelled (cancelled i) in
      let! _ := send_progress (BundleStarted (bundle_path t)) in
      let! output := wfail (raw_bundle_output_path asset_root (bundle_path t)) in
      fun s =>
        if disk_exists (wk_disk s) output then haruki_3d_downloads c cancelled asset_root (S i) tasks' downloaded s
        else
          (let! url := (fun s => (render_bundle_url c (jst_now (net (wk_world s))) t, s)) in
           let! body := fetch (get_with_retry send c url) in
           let! _ := on_disk (write_haruki_3d_work_bundle output (deobfuscate body)) in
           let! _ := send_progress (BundleCompleted (bundle_path t)) in
           haruki_3d_downloads c cancelled asset_root (S i) tasks' (S downloaded)) s
  end.

(** The exporter commands; the first that fails ends the run, after the clean-up that is
    configured for a failure. *)
Fixpoint run_exporters (h : Haruki3dExportConfig) (run_dir : path) (commands : list (list string)) : W N unit :=
  match commands with
  | [] => wret tt
  | args :: commands' =>
      fun s =>
        let '(r, d) := run_exporter (exporter_path h) args (wk_disk s) in
        let s := mkWork (wk_world s) d (wk_events s) in
        match r with
        | Err e => (Err (Haruki3dExporterSpawn (exporter_path h) e), s)
        | Ok (true, _, _) => run_exporters h run_dir commands' s
        | Ok (false, status, stderr) =>
            (let! _ := (if cleanup_work_dir_after_failure h then on_disk (remove_haruki_3d_work_dir run_dir) else wret tt) in
             wfail (Err (Haruki3dExporterFailed (exporter_path h) status (trim (from_utf8_lossy stderr))))) s
        end
  end.

(** [load_download_record] of the path in the configuration. *)
Variable load_record : string -> result DownloadRecord DownloadRecordError.

(** [run_haruki_3d_background_export]: the numbers of matched and downloaded bundles. *)
Definition run_haruki_3d_background_export (c : AssetExecutionContext) (cancel_first cancel_then : bool) (cancelled : nat -> bool)
  : W N (nat * nat) :=
  let h := haruki_3d (export (region c)) in
  if negb (h3d_enabled h) then wret (0, 0)%nat
  else
    let! _ := ensure_not_cancelled cancel_first in
    let! _ := send_progress (Phase FetchingAssetInfo "fetching asset bundle info for Haruki 3D export") in
    let! c := fetch_cookies c in
    let! c := fetch (resolve_provider_versions send parse_version decode_game hex_decode aes_cbc_decrypt c) in
    let! _ := ensure_not_cancelled cancel_then in
    let! (info, c) := fetch_index c in
    let! record_path := wfail (ok_or (downloaded_asset_record_file (paths (region c))) (MissingAssetSaveDir (region_name c))) in
    let! record := wfail (result_map_err AxDownloadRecord (load_record record_path)) in
    let tasks := build_haruki_3d_tasks regex_new (region c) info record in
    let! _ := send_progress (DownloadsPlanned (length tasks)) in
    match haruki_3d_work_asset_root (region c) (region_name c) (resolved_asset_version c) with
    | None => wret (0, 0)%nat
    | Some asset_root =>
        let run_dir := default asset_root (path_parent asset_root) in
        let! downloaded := haruki_3d_downloads c cancelled asset_root 0 tasks 0 in
        let! _ := run_exporters h run_dir (build_haruki_3d_exporter_commands h (path_str asset_root)) in
        let! _ := (if cleanup_work_dir_after_success h then on_disk (remove_haruki_3d_work_dir run_dir) else wret tt) in
        wret (length tasks, downloaded)
    end.
End Net.
End Work.

(** ** Steps and their traces *)

Lemma wbind_inv {N A B} (m : W N A) (k : A -> W N B) s r s' :
  wbind m k s = (r, s') -> (exists e, m s = (Err e, s') /\ r = Err e) \/ exists x s1, m s = (Ok x, s1) /\ k x s1 = (r, s').
Proof.
  unfold wbind. destruct (m s) as [[x|e] s1]; intros E; [right; eauto|left].
  injection E as <- <-. by exists e.
Qed.

(** A step that adds events, all of the kind [P], and takes the disk from [d] to [d'] as
    [R] says. *)
Definition traced {N} (P : ExecutionProgressUpdate -> Prop) (R : disk -> disk -> Prop) (s s' : work N) : Prop :=
  R (wk_disk s) (wk_disk s') /\ exists l, wk_events s' = wk_events s ++ l /\ Forall P l.

Lemma traced_refl {N} P R (s : work N) : R (wk_disk s) (wk_disk s) -> traced P R s s.
Proof. split; [done|]. exists []. by rewrite app_nil_r. Qed.

Lemma traced_trans {N} P R (s1 s2 s3 : work N) : Transitive R -> traced P R s1 s2 -> traced P R s2 s3 -> traced P R s1 s3.
Proof.
  intros HR [H1 (l & E & Hl)] [H2 (l' & E' & Hl')]. split; [by etransitivity|]. exists (l ++ l'). rewrite E', E, app_assoc.
  split; [done | by apply Forall_app].
Qed.

(** The events of a download, none of which announces an outcome. *)
Definition fetching (e : ExecutionProgressUpdate) : Prop :=
  match e with BundleDownloaded _ _ | BundleFetchDetails _ _ | BundleDeobfuscated _ => True | _ => False end.

(** Opens the steps of a computation one after the other. *)
Ltac open_step E :=
  lazymatch type of E with
  | wbind _ _ _ = _ => apply wbind_inv in E as [(?e & E & ?Hr)|(?x & ?s & ?E & E)]
  end.

(** No file disappears. *)
Definition grows (d d' : disk) : Prop := forall p, is_Some (d_files d !! p) -> is_Some (d_files d' !! p).
#[export] Instance grows_preorder : PreOrder grows.
Proof. split; [by intros ? ? ?|]. intros d1 d2 d3 H1 H2 p Hp. by apply H2, H1. Qed.

Section WorkExact.
Context `{UnicodeCase} `{BundleEnv}.

Lemma write_below_spec e1 e2 p data d d' r :
  write_below e1 e2 p data d = (d', r) ->
  (is_ok r = false /\ d_files d' = d_files d)
  \/ (is_ok r = false /\ exists e n, write_error p = Some (e, n) /\ d_files d' = <[p := take n data]> (d_files d))
  \/ (r = Ok tt /\ write_error p = None /\ d_files d' = <[p := data]> (d_files d)).
Proof.
  unfold write_below. intros E.
  destruct (path_parent p) as [parent|]; [destruct (mkdir_error parent)|]; cbn in E; try (simplify_eq; by left);
    (destruct (write_error p) as [[e n]|] eqn:Ew; simplify_eq; right; [left; split; [done|]; by exists e, n | by right]).
Qed.

Lemma write_below_grows e1 e2 p data d d' r : write_below e1 e2 p data d = (d', r) -> grows d d'.
Proof.
  intros [[_ E]|[(_ & e & n & _ & E)|(_ & _ & E)]]%write_below_spec q Hq; rewrite E; [done| |];
    (destruct (decide (q = p)) as [->|]; [rewrite lookup_insert_eq; by eexists | by rewrite lookup_insert_ne]).
Qed.

(** ** Prefetched bundles *)
Section Prefetch.
Context {N : Type} (send : Request -> N -> result Response string * N) (jst_now : N -> string).

(** The body that the network gives for a bundle, deobfuscated. *)
Definition received (c : AssetExecutionContext) (t : DownloadTask) (data : bytes) : Prop :=
  exists now url body w w', render_bundle_url c now t = Ok url /\ get_with_retry send c url w = (Ok body, w') /\ data = deobfuscate body.

Lemma fetch_bundle_spec c t s r s' :
  fetch_bundle send jst_now c t s = (r, s') -> traced fetching eq s s' /\ (forall data, r = Ok data -> received c t data).
Proof.
  unfold fetch_bundle. intros E. open_step E.
  { injection E as E <-. subst. split; [by apply traced_refl | done]. }
  injection E0 as E0 <-. open_step E.
  { unfold fetch in E. destruct (get_with_retry send c x (wk_world s)) as [r1 w1]. injection E as -> <-. subst.
    split; [|done]. split; [done|]. exists []. by rewrite app_nil_r. }
  unfold fetch in E1. destruct (get_with_retry send c x (wk_world s)) as [r1 w1] eqn:Eg. injection E1 as -> <-.
  cbn in E. injection E as <- <-. split.
  - split; [done|]. eexists. split; [cbn; rewrite <- !app_assoc; reflexivity | by repeat constructor].
  - intros data [= <-]. unfold received. by eauto 10.
Qed.

(** Where the prefetch keeps a bundle. *)
Definition raw_path (c : AssetExecutionContext) (t : DownloadTask) (p : path) : Prop :=
  exists dir, asset_save_dir (paths (region c)) = Some dir /\ region_raw_bundle_output_path (region c) dir (bundle_path t) = Ok p.

(** The file of a bundle is there; where its writes do not fail, it is what the network
    gave for a bundle of [tasks] that is kept in this file. *)
Definition prefetched (c : AssetExecutionContext) (tasks : list DownloadTask) (d : disk) (t : DownloadTask) : Prop :=
  exists p data, raw_path c t p /\ d_files d !! p = Some data
    /\ (write_error p = None -> exists t', t' ∈ tasks /\ raw_path c t' p /\ received c t' data).

(** What a prefetch does to the files. *)
Definition prefetch_files (c : AssetExecutionContext) (t : DownloadTask) (ok : bool) (f f' : gmap path bytes) : Prop :=
  (ok = false /\ f' = f)
  \/ exists p data, raw_path c t p /\ received c t data
       /\ ((ok = true /\ f' = <[p := data]> f) \/ (ok = false /\ write_error p <> None /\ exists n, f' = <[p := take n data]> f)).

Lemma prefetch_bundle_spec c t s r s' :
  prefetch_bundle send jst_now c t s = (r, s') ->
  traced fetching (fun d d' => prefetch_files c t (is_ok r) (d_files d) (d_files d')) s s'.
Proof.
  unfold prefetch_bundle. intros E. open_step E.
  { unfold wfail in E. injection E as _ <-. subst. apply traced_refl. by left. }
  unfold wfail, save_dir in E0. injection E0 as Ed <-.
  destruct (asset_save_dir (paths (region c))) as [dir|] eqn:Hdir; [|done]. injection Ed as ->.
  open_step E.
  { apply fetch_bundle_spec in E as [[Hd Ht] _]. subst r. split; [left; by rewrite Hd | done]. }
  apply fetch_bundle_spec in E0 as [[Hd Ht] Hrec]. open_step E.
  { unfold wfail in E. injection E as _ <-. subst. split; [left; by rewrite Hd | done]. }
  unfold wfail in E0. injection E0 as Ep <-. assert (Hp : raw_path c t x1) by (by exists x).
  unfold on_disk in E. destruct (write_raw_bundle x1 _ _) as [d' r'] eqn:Ew. injection E as -> <-. unfold traced. cbn [wk_disk wk_events].
  split; [|done]. rewrite Hd. specialize (Hrec _ eq_refl).
  apply write_below_spec in Ew as [[Hr Ew]|[(Hr & e & n & He & Ew)|(-> & He & Ew)]]; rewrite Ew.
  - by left.
  - right. exists x1, x0. split_and!; [done..|]. right. split_and!; [done | by rewrite He | by exists n].
  - right. exists x1, x0. split_and!; [done..|]. by left.
Qed.

Lemma prefetched_kept c tasks t t' ok d d' :
  t' ∈ tasks -> prefetch_files c t' ok (d_files d) (d_files d') -> prefetched c tasks d t -> prefetched c tasks d' t.
Proof.
  intros Ht' [[_ E]|(p' & data' & Hp' & Hr' & Hf)] (p & data & Hp & Hd & Hw).
  { exists p, data. by rewrite E. }
  destruct (decide (p' = p)) as [->|Hne].
  - destruct Hf as [[_ E]|(_ & He & n & E)].
    + exists p, data'. rewrite E, lookup_insert_eq. split_and!; eauto.
    + exists p, (take n data'). rewrite E, lookup_insert_eq. split_and!; [done..|]. by intros.
  - exists p, data. split_and!; [done| |done]. destruct Hf as [[_ E]|(_ & _ & n & E)]; by rewrite E, lookup_insert_ne.
Qed.

Lemma prefetched_new c tasks t d d' :
  t ∈ tasks -> prefetch_files c t true (d_files d) (d_files d') -> prefetched c tasks d' t.
Proof.
  intros Ht [[? _]|(p & data & Hp & Hr & [[_ E]|[? _]])]; [done| |done]. exists p, data. rewrite E, lookup_insert_eq. by eauto 6.
Qed.

(** The bundles announced as completed and as failed. *)
Definition completions (l : list ExecutionProgressUpdate) : list string :=
  omap (fun e => match e with BundleCompleted b => Some b | _ => None end) l.
Definition failures (l : list ExecutionProgressUpdate) : list string :=
  omap (fun e => match e with BundleFailed b _ => Some b | _ => None end) l.

Lemma completions_cons e l : completions (e :: l) = match e with BundleCompleted b => [b] | _ => [] end ++ completions l.
Proof. by destruct e. Qed.
Lemma failures_cons e l : failures (e :: l) = match e with BundleFailed b _ => [b] | _ => [] end ++ failures l.
Proof. by destruct e. Qed.
Lemma completions_app l l' : completions (l ++ l') = completions l ++ completions l'.
Proof. apply omap_app. Qed.
Lemma failures_app l l' : failures (l ++ l') = failures l ++ failures l'.
Proof. apply omap_app. Qed.
Lemma fetching_silent l : Forall fetching l -> completions l = [] /\ failures l = [].
Proof. induction 1 as [|e l He _ [IH1 IH2]]; [done|]. by destruct e. Qed.

(** What a run over [tasks] that added the events [l] reports. *)
Definition accounts (c : AssetExecutionContext) (all tasks : list DownloadTask) (d : disk) (l : list ExecutionProgressUpdate)
    (completed failed : nat) : Prop :=
  exists oks, sublist oks tasks /\ completions l = map bundle_path oks /\ completed = length oks /\ failed = length (failures l)
    /\ (completed + failed = length tasks)%nat /\ Forall (prefetched c all d) oks.

Lemma accounts_ok c all t tasks d l1 l a b :
  completions l1 = [] -> failures l1 = [] -> accounts c all tasks d l a b -> prefetched c all d t ->
  accounts c all (t :: tasks) d (BundleStarted (bundle_path t) :: l1 ++ BundleCompleted (bundle_path t) :: l) (S a) b.
Proof.
  intros Hc Hf (oks & Hs & Ho & -> & -> & Hn & Hp) Ht. exists (t :: oks).
  rewrite !completions_cons, !failures_cons, completions_app, failures_app, completions_cons, failures_cons, Hc, Hf.
  cbn [app]. rewrite Ho. split_and!; [by constructor|done|done|done|simpl; lia|by constructor].
Qed.

Lemma accounts_failed c all t tasks d l1 l a b e :
  completions l1 = [] -> failures l1 = [] -> accounts c all tasks d l a b ->
  accounts c all (t :: tasks) d (BundleStarted (bundle_path t) :: l1 ++ BundleFailed (bundle_path t) e :: l) a (S b).
Proof.
  intros Hc Hf (oks & Hs & Ho & -> & -> & Hn & Hp). exists oks.
  rewrite !completions_cons, !failures_cons, completions_app, failures_app, completions_cons, failures_cons, Hc, Hf.
  cbn [app]. split_and!; [by constructor|done|done|done|simpl; lia|done].
Qed.

Variable error_text : AssetExecutionError -> string.

Lemma prefetch_loop_spec c all cancelled tasks : forall i k m s r s',
  (forall t, t ∈ tasks -> t ∈ all) ->
  prefetch_loop send jst_now error_text c cancelled i tasks k m s = (r, s') ->
  (forall t, prefetched c all (wk_disk s) t -> prefetched c all (wk_disk s') t)
  /\ exists l, wk_events s' = wk_events s ++ l
      /\ match r with
         | Ok (k', m') => exists a b, (k' = k + a)%nat /\ (m' = m + b)%nat /\ accounts c all tasks (wk_disk s') l a b
         | Err e => e = Cancelled
         end.
Proof.
  induction tasks as [|t tasks IH]; intros i k m s r s' Hall; cbn [prefetch_loop].
  { intros [= <- <-]. split; [done|]. exists []. rewrite app_nil_r. split; [done|]. exists 0%nat, 0%nat.
    split_and!; [lia..|]. exists []. by split_and!. }
  destruct (cancelled i).
  { intros [= <- <-]. split; [done|]. exists []. by rewrite app_nil_r. }
  unfold wbind at 1. cbn [send_progress].
  destruct (prefetch_bundle _ _ _ _ _) as [rt s1] eqn:Et. apply prefetch_bundle_spec in Et as [Hf (l1 & El & Hl)].
  cbn [wk_disk wk_events] in Hf, El. apply fetching_silent in Hl as [Hc1 Hf1].
  assert (Ht : t ∈ all) by (apply Hall; left). assert (Hall' : forall t, t ∈ tasks -> t ∈ all) by (intros; apply Hall; by right).
  assert (Hkept : forall u, prefetched c all (wk_disk s) u -> prefetched c all (wk_disk s1) u) by (intros u; by eapply prefetched_kept).
  destruct rt as [[]|e]; [|destruct (is_cancelled e)].
  - intros E. apply IH in E as (Hk2 & l2 & E2 & Hr); [|done]. cbn [wk_disk wk_events] in Hk2, E2. split; [by eauto|].
    exists (BundleStarted (bundle_path t) :: l1 ++ BundleCompleted (bundle_path t) :: l2).
    split; [rewrite E2, El, <- !app_assoc; done|]. destruct r as [[k' m']|e]; [|done].
    destruct Hr as (a & b & -> & -> & Ha). exists (S a), b. split_and!; [lia..|]. apply accounts_ok; [done..|].
    apply Hk2. by eapply prefetched_new.
  - intros [= <- <-]. split; [done|]. exists (BundleStarted (bundle_path t) :: l1). by rewrite El, <- app_assoc.
  - intros E. apply IH in E as (Hk2 & l2 & E2 & Hr); [|done]. cbn [wk_disk wk_events] in Hk2, E2. split; [by eauto|].
    exists (BundleStarted (bundle_path t) :: l1 ++ BundleFailed (bundle_path t) (error_text e) :: l2).
    split; [rewrite E2, El, <- !app_assoc; done|]. destruct r as [[k' m']|e']; [|done].
    destruct Hr as (a & b & -> & -> & Ha). exists a, (S b). split_and!; [lia..|]. by apply accounts_failed.
Qed.

Context `{TaskOrder}.
Variables (decode_info : bytes -> result AssetBundleInfo string) (hex_decode : string -> result bytes string)
  (aes_cbc_decrypt : bytes -> bytes -> bytes -> result bytes string).

(** The plan of a prefetch: every raw bundle of the index. *)
Definition prefetch_plan (c : AssetExecutionContext) (info : AssetBundleInfo) : list DownloadTask :=
  filter_raw_bundle_tasks regex_new (region c) (build_download_tasks regex_new (region c) info ∅).

(** The network steps leave the disk and the events alone. *)
Lemma fetch_silent {T} (m : M N T) s r s' : fetch m s = (r, s') -> wk_disk s' = wk_disk s /\ wk_events s' = wk_events s.
Proof. unfold fetch. destruct (m (wk_world s)). by intros [= <- <-]. Qed.

Lemma fetch_cookies_silent c s r s' : fetch_cookies send c s = (r, s') -> wk_disk s' = wk_disk s /\ wk_events s' = wk_events s.
Proof. unfold fetch_cookies. destruct (requires_cookies c); [apply fetch_silent|]. by intros [= <- <-]. Qed.

Lemma guard_inv flag (s : work N) r s' : ensure_not_cancelled flag s = (r, s') -> s' = s /\ r = (if flag then Err Cancelled else Ok tt).
Proof. destruct flag; by intros [= <- <-]. Qed.

Lemma not_planned_nil : forall n, DownloadsPlanned n ∉ [].
Proof. intros n Hn. by apply elem_of_nil in Hn. Qed.
Lemma not_planned_phase ph msg : forall n, DownloadsPlanned n ∉ [Phase ph msg].
Proof. intros n Hn%list_elem_of_singleton. done. Qed.

Lemma accounts_prefix c all tasks d l0 l a b :
  completions l0 = [] -> failures l0 = [] -> accounts c all tasks d l a b -> accounts c all tasks d (l0 ++ l) a b.
Proof. intros Hc Hf (oks & Hacc). exists oks. by rewrite completions_app, failures_app, Hc, Hf. Qed.

End Prefetch.

(** ** Exported bundles *)
Section Exported.
Context {N : Type} (send : Request -> N -> result Response string * N) (jst_now : N -> string).

(** A step on the disk, without events. *)
Lemma on_disk_silent {T} f (s : work N) (r : result T AssetExecutionError) s' :
  on_disk f s = (r, s') -> f (wk_disk s) = (wk_disk s', r) /\ wk_events s' = wk_events s.
Proof. unfold on_disk. destruct (f (wk_disk s)). by intros [= <- <-]. Qed.

Lemma keep_copies_silent c dir root t data (s : work N) r s' : keep_copies c dir root t data s = (r, s') -> wk_events s' = wk_events s.
Proof.
  assert (Hcopy : forall (m : result path AssetExecutionError) (w : path -> disk -> disk * result unit AssetExecutionError) (s : work N) r s',
    wbind (wfail m) (fun p => on_disk (w p)) s = (r, s') -> wk_events s' = wk_events s).
  { intros m w s0 r0 s0' E. open_step E; [by injection E as _ <-|]. injection E0 as _ <-. by apply on_disk_silent in E as [_ ->]. }
  assert (Hfirst : forall b (m : W N unit) s r s', (forall s r s', m s = (r, s') -> wk_events s' = wk_events s) ->
    (if b : bool then m else wret tt) s = (r, s') -> wk_events s' = wk_events s).
  { intros [] m s0 r0 s0' Hm; [by apply Hm|]. by intros [= <- <-]. }
  unfold keep_copies. intros E. open_step E.
  - eapply Hfirst; [|exact E]. intros *. apply Hcopy.
  - apply Hfirst in E0 as E0'; [|intros *; apply Hcopy]. rewrite <- E0'. eapply Hfirst; [|exact E].
    intros *. destruct root; [apply Hcopy|]. by intros [= <- <-].
Qed.

Lemma discard_gone p d : remove_error p = None -> d_files (discard_file p d) !! p = None.
Proof. intros E. unfold discard_file. rewrite E. simpl. apply lookup_delete_eq. Qed.

(** The images still to be written when a job is handed on. *)
Lemma flush_export_spec x d d' r :
  flush_export x d = (d', r) -> (forall q, r = Ok q -> pe_pending_images q = [])
  /\ (d' = d \/ d' = (flush_images (pe_pending_images x) d).1).
Proof.
  unfold flush_export. case_bool_decide as Hx.
  - intros [= <- <-]. split; [by intros q [= <-] | by left].
  - destruct (flush_images (pe_pending_images x) d) as [d1 [u|e]]; intros [= <- <-]; (split; [by intros q [= <-] | by right]).
Qed.

(** The steps from the export on: the temporary file is removed first. *)
Lemma export_tail app c dir t temp (s : work N) r s' :
  remove_error temp = None ->
  (forall images d, d_files d !! temp = None -> d_files (flush_images images d).1 !! temp = None) ->
  (let! x := on_disk (export_from_temp app c dir t temp) in
   let! x := on_disk (flush_export x) in wret (mkJob (bundle_path t) (bundle_hash t) x)) s = (r, s') ->
  wk_events s' = wk_events s /\ d_files (wk_disk s') !! temp = None
  /\ (forall job, r = Ok job -> job_bundle_path job = bundle_path t /\ job_bundle_hash job = bundle_hash t
                               /\ pe_pending_images (job_export job) = []).
Proof.
  intros Hrm Hflush E.
  assert (Hgone : forall s r s', on_disk (N:=N) (export_from_temp app c dir t temp) s = (r, s') ->
    wk_events s' = wk_events s /\ d_files (wk_disk s') !! temp = None).
  { intros s0 r0 s0' [Ed Ee]%on_disk_silent. split; [done|]. unfold export_from_temp in Ed.
    destruct (lift_export _) as [d1 r1]. injection Ed as <- _. by apply discard_gone. }
  open_step E; [apply Hgone in E as [He Hg]; split_and!; [done|done|]; intros job; by subst r|].
  apply Hgone in E0 as [He Hg]. open_step E.
  - apply on_disk_silent in E as [Ef Ee]. apply flush_export_spec in Ef as [_ Hd]. rewrite Ee. split_and!; [done| |intros job; by subst r].
    destruct Hd as [-> | ->]; [done | by apply Hflush].
  - injection E as <- <-. apply on_disk_silent in E0 as [Ef Ee]. apply flush_export_spec in Ef as [Hp Hd]. rewrite Ee. split_and!; [done| |].
    + destruct Hd as [-> | ->]; [done | by apply Hflush].
    + intros job [= <-]. cbn. split_and!; [done..|]. by apply Hp.
Qed.

(** How a run leaves the temporary file [temp] of a bundle: once written it is gone, and
    without it there is no result. *)
Definition disposed (t : DownloadTask) (temp : path) (s : work N) (r : result PostProcessJob AssetExecutionError) (s' : work N) : Prop :=
  exists l, wk_events s' = wk_events s ++ l
    /\ (BundleTempWritten (bundle_path t) ∈ l -> d_files (wk_disk s') !! temp = None)
    /\ (is_ok r = true -> BundleTempWritten (bundle_path t) ∈ l)
    /\ (forall job, r = Ok job -> job_bundle_path job = bundle_path t /\ job_bundle_hash job = bundle_hash t
                                 /\ pe_pending_images (job_export job) = []).

Lemma disposed_early t temp s e s' l : Forall fetching l -> wk_events s' = wk_events s ++ l -> disposed t temp s (Err e) s'.
Proof. intros Hl El. exists l. split_and!; [done| |done|done]. intros Hin. by apply (proj1 (Forall_forall _ _) Hl) in Hin. Qed.

(** The temporary file of a bundle does not survive its export.  Whatever the outcome of
    [download_and_export_bundle_payloads], once the temporary file is written it is gone at
    the end, if it can be removed and the image flush does not write it again; and without it
    there is no result.  The job handed to the post-processing is the bundle's, and has no
    image left to write. *)
Theorem temp_file_removed app c t work_root (s : work N) r s' :
  let temp := temp_file (region_name c) (bundle_path t) in
  remove_error temp = None ->
  (forall images d, d_files d !! temp = None -> d_files (flush_images images d).1 !! temp = None) ->
  download_and_export_bundle_payloads send jst_now app c t work_root s = (r, s') -> disposed t temp s r s'.
Proof.
  intros temp Hrm Hflush. unfold download_and_export_bundle_payloads. intros E.
  open_step E; [injection E as _ <-; subst r; apply (disposed_early _ _ _ _ _ []); [done|by rewrite app_nil_r]|]. injection E0 as _ <-.
  open_step E; [apply fetch_bundle_spec in E as [[_ (l & El & Hl)] _]; subst r; by eapply disposed_early|].
  apply fetch_bundle_spec in E0 as [[_ (l & El & Hl)] _].
  open_step E; [apply keep_copies_silent in E; subst r; eapply disposed_early; [done|congruence]|].
  apply keep_copies_silent in E0. rewrite El in E0.
  open_step E; [apply on_disk_silent in E as [_ E]; subst r; eapply disposed_early; [done|congruence]|].
  apply on_disk_silent in E1 as [_ E1]. rewrite E0 in E1. open_step E; [done|]. injection E2 as _ <-.
  apply export_tail in E as (He & Hg & Hj); [|done|done]. cbn [wk_events] in He. rewrite E1, <- app_assoc in He.
  eexists. split_and!; [exact He|done| |done]. intros _. apply elem_of_app. right. left.
Qed.

(** ** Announced artefacts *)

Lemma dedupe_spec l : forall seen, NoDup seen ->
  let out := fold_left (fun seen f => if bool_decide (f ∈ seen) then seen else seen ++ [f]) l seen in
  NoDup out /\ (exists rest, out = seen ++ rest /\ sublist rest l) /\ (forall p : path, p ∈ out <-> p ∈ seen \/ p ∈ l).
Proof.
  induction l as [|f l IH]; intros seen Hnd; cbn [fold_left].
  - split_and!; [done| |]; [exists []; by rewrite app_nil_r|]. intros p. by rewrite elem_of_nil; intuition.
  - case_bool_decide as Hf.
    + destruct (IH seen Hnd) as (H1 & (rest & E & Hs) & H3). split_and!; [done| |].
      * exists rest. split; [done | by constructor].
      * intros p. rewrite H3, elem_of_cons. split; [tauto|]. intros [?|[->|?]]; tauto.
    + destruct (IH (seen ++ [f])) as (H1 & (rest & E & Hs) & H3).
      { apply NoDup_app. split_and!; [done| |apply NoDup_singleton]. intros p Hp ->%list_elem_of_singleton. done. }
      split_and!; [done| |].
      * exists (f :: rest). rewrite E, <- app_assoc. split; [done | by constructor].
      * intros p. rewrite H3, elem_of_app, list_elem_of_singleton, elem_of_cons. tauto.
Qed.

(** What a bundle announces is what it produced.  [finish_native_bundle_post_process]
    either ends with the two events [BundleArtefactsProduced], for the bundle's path and hash,
    and [BundleExported], or fails and adds no event.  The files it announces are those the
    export wrote and the post-processing generated: each of them, once, in that order. *)
Theorem announced_artefacts_exact reg job (s : work N) r s' :
  finish_native_bundle_post_process reg job s = (r, s') ->
  match r with
  | Err _ => wk_events s' = wk_events s
  | Ok _ =>
      exists d summary l files, post_process reg (pe_export_path (job_export job)) (pe_export_root (job_export job)) (pe_scoped (job_export job))
          (pe_written_files (job_export job)) (pe_acb_sources (job_export job)) d = (wk_disk s', Ok summary)
        /\ wk_events s' = wk_events s ++ l
             ++ [BundleArtefactsProduced (job_bundle_path job) (job_bundle_hash job) (path_str (export_root summary)) (map path_str files);
                 BundleExported (job_bundle_path job)]
        /\ (forall e, e ∈ l -> match e with BundleArtefactsProduced _ _ _ _ | BundleExported _ => False | _ => True end)
        /\ NoDup files /\ sublist files (pe_written_files (job_export job) ++ generated_files summary)
        /\ (forall p, p ∈ files <-> p ∈ pe_written_files (job_export job) \/ p ∈ generated_files summary)
  end.
Proof.
  unfold finish_native_bundle_post_process. intros E.
  apply wbind_inv in E as [(e & E & ->)|([] & s1 & E0 & E)]; [by apply on_disk_silent in E as [_ E]|]. apply on_disk_silent in E0 as [_ E0].
  apply wbind_inv in E as [(e & E & ->)|(summary & s2 & Ep & E)]; [apply on_disk_silent in E as [_ E]; congruence|].
  apply on_disk_silent in Ep as [Ep Ee]. rewrite E0 in Ee. set (x := job_export job) in *.
  assert (Hpost : exists d, post_process reg (pe_export_path x) (pe_export_root x) (pe_scoped x) (pe_written_files x) (pe_acb_sources x) d
    = (wk_disk s2, Ok summary)).
  { eexists. unfold lift_export in Ep. destruct (post_process reg _ _ _ _ _ _) as [d1 [y|e]] eqn:Epp; [|done].
    injection Ep as <- <-. exact Epp. }
  destruct Hpost as [d Hpost]. pose proof (dedupe_spec (pe_written_files x ++ generated_files summary) [] (NoDup_nil_2 (A:=path)))
    as (Hnd & (rest & Er & Hs) & Hin). fold (dedupe_files (pe_written_files x ++ generated_files summary)) in Hnd, Er, Hin.
  cbn [app] in Er. rewrite <- Er in Hs.
  assert (Hsplit : exists l, (r, s') = (Ok tt, mkWork (wk_world s2) (wk_disk s2) (wk_events s2 ++ l
      ++ [BundleArtefactsProduced (job_bundle_path job) (job_bundle_hash job) (path_str (export_root summary))
            (map path_str (dedupe_files (pe_written_files x ++ generated_files summary))); BundleExported (job_bundle_path job)]))
    /\ (forall e, e ∈ l -> match e with BundleArtefactsProduced _ _ _ _ | BundleExported _ => False | _ => True end)).
  { exists (BundleFfiExportPhases (job_bundle_path job)
              :: (if (pe_skipped_reads x =? 0)%nat then [] else [BundleFfiSkippedObjectReads (job_bundle_path job) (pe_skipped_reads x)])
              ++ (if pe_read_plan_empty x then [] else [BundleFfiObjectReadPlan (job_bundle_path job)])).
    rewrite <- E. clear E. generalize (dedupe_files (pe_written_files x ++ generated_files summary)). intros files.
    destruct (pe_skipped_reads x =? 0)%nat, (pe_read_plan_empty x); (split;
      [unfold wbind, send_progress, wret; cbn [wk_events wk_world wk_disk app]; rewrite <- !app_assoc; reflexivity|]);
      intros e He; (repeat (apply elem_of_cons in He as [->|He]; [done|])); by apply elem_of_nil in He. }
  destruct Hsplit as (l & [= -> ->] & Hl). exists d, summary, l. eexists. cbn [wk_events wk_disk]. rewrite <- Ee.
  split_and!; [exact Hpost|reflexivity|done|exact Hnd|exact Hs|]. intros p. rewrite Hin, elem_of_app, elem_of_nil. tauto.
Qed.
End Exported.

(** ** The export of 3D models *)
Section Models3d.
Context {N : Type} (send : Request -> N -> result Response string * N) (jst_now : N -> string).

(** The file is there, or the directory. *)
Definition present (root : path) (d : disk) (t : DownloadTask) : Prop :=
  exists p, raw_bundle_output_path root (bundle_path t) = Ok p /\ disk_exists d p = true.

(** Nothing is lost: the files keep their contents and the directories stay. *)
Definition preserves (d d' : disk) : Prop := d_files d ⊆ d_files d' /\ d_dirs d ⊆ d_dirs d'.
#[export] Instance preserves_preorder : PreOrder preserves.
Proof. split; [by intros d|]. intros d1 d2 d3 [] []. split; by etransitivity. Qed.

Lemma preserves_present root d d' t : preserves d d' -> present root d t -> present root d' t.
Proof.
  intros [Hf Hd] (p & Ep & Hp). exists p. split; [done|]. apply disk_exists_iff in Hp. apply disk_exists_iff.
  apply subseteq_dom in Hf. set_solver.
Qed.

Lemma write_work_spec p data d d' r :
  disk_exists d p = false -> write_haruki_3d_work_bundle p data d = (d', r) ->
  preserves d d' /\ (r = Ok tt -> d_files d' !! p = Some data).
Proof.
  intros Hn E. assert (Hnone : d_files d !! p = None).
  { unfold disk_exists in Hn. apply orb_false_iff in Hn as [Hn%bool_decide_eq_false _]. by apply eq_None_not_Some. }
  unfold write_haruki_3d_work_bundle, write_below in E.
  assert (Hwrite : forall d1, preserves d d1 -> d_files d1 = d_files d ->
    (match write_error p with
     | Some (e, n) => (write_file p (take n data) d1, Err (WriteHaruki3dStagingBundle (path_str p) e))
     | None => (write_file p data d1, Ok tt)
     end) = (d', r) -> preserves d d' /\ (r = Ok tt -> d_files d' !! p = Some data)).
  { intros d1 [_ Hd1] Hf1 Ew. destruct (write_error p) as [[e n]|]; injection Ew as <- <-;
      (split; [split; cbn; [rewrite Hf1; by apply insert_subseteq | done]|]); [done | intros _; apply lookup_insert_eq]. }
  destruct (path_parent p) as [parent|]; [|by eapply Hwrite].
  destruct (mkdir_error parent); cbn in E; [injection E as <- <-; by split|].
  eapply Hwrite; [|..|exact E]; [|done]. split; [done|]. simpl. set_solver.
Qed.

Lemma haruki_3d_downloads_spec c cancelled root tasks : forall i k (s : work N) r s',
  haruki_3d_downloads send jst_now c cancelled root i tasks k s = (r, s') ->
  preserves (wk_disk s) (wk_disk s')
  /\ exists l, wk_events s' = wk_events s ++ l
      /\ forall k', r = Ok k' -> (k' = k + length (completions l))%nat /\ Forall (present root (wk_disk s')) tasks
           /\ sublist (completions l) (map bundle_path tasks).
Proof.
  induction tasks as [|t tasks IH]; intros i k s r s'; cbn [haruki_3d_downloads].
  { intros [= <- <-]. split; [done|]. exists []. rewrite app_nil_r. split; [done|]. intros k' [= <-]. split_and!; [simpl; lia|done|done]. }
  intros E. apply wbind_inv in E as [(e & E & ->)|(u & s1 & E0 & E)].
  { apply guard_inv in E as [-> _]. split; [done|]. exists []. by rewrite app_nil_r. }
  apply guard_inv in E0 as [-> _]. open_step E; [done|]. injection E0 as _ <-.
  open_step E. { injection E as _ <-. subst r. split; [done|]. by eexists. }
  injection E0 as Ep <-. cbn [wk_disk] in E. destruct (disk_exists (wk_disk s) x0) eqn:Ex.
  { apply IH in E as (Hp & l & El & Hr). cbn [wk_disk wk_events] in *. split; [done|]. exists (BundleStarted (bundle_path t) :: l).
    rewrite El, <- app_assoc. split; [done|]. intros k' Hk. destruct (Hr k' Hk) as (-> & Hall & Hs). rewrite completions_cons. cbn [app].
    split_and!; [done| |by constructor]. constructor; [|done]. eapply preserves_present; [exact Hp|]. by exists x0. }
  apply wbind_inv in E as [(e & E & ->)|(url & s1 & E0 & E)].
  { injection E as _ <-. split; [done|]. by eexists. }
  injection E0 as _ <-. apply wbind_inv in E as [(e & E & ->)|(body & s1 & E0 & E)].
  { apply fetch_silent in E as [-> Ee]. split; [done|]. by eexists. }
  apply fetch_silent in E0 as [Hd1 He1]. cbn [wk_disk wk_events] in Hd1, He1. apply wbind_inv in E as [(e & E & ->)|([] & s2 & E0 & E)].
  { apply on_disk_silent in E as [Ew Ee]. rewrite Hd1 in Ew. apply write_work_spec in Ew as [Hp _]; [|done]. rewrite Ee, He1.
    split; [done|]. by eexists. }
  apply on_disk_silent in E0 as [Ew Ee]. rewrite Hd1 in Ew. apply write_work_spec in Ew as [Hp Hw]; [|done]. rewrite He1 in Ee.
  open_step E; [done|]. injection E0 as _ <-. apply IH in E as (Hp' & l & El & Hr). cbn [wk_disk wk_events] in *.
  split; [by etransitivity|]. exists (BundleStarted (bundle_path t) :: BundleCompleted (bundle_path t) :: l).
  rewrite El, Ee, <- !app_assoc. split; [done|]. intros k' Hk. destruct (Hr k' Hk) as (-> & Hall & Hs). rewrite !completions_cons. cbn [app map].
  split_and!; [simpl; lia| |by constructor]. constructor; [|done]. eapply preserves_present; [exact Hp'|]. exists x0. split; [done|].
  unfold disk_exists. by rewrite (Hw eq_refl).
Qed.

Lemma remove_work_dir_gone dir d d' r :
  remove_haruki_3d_work_dir dir d = (d', r) -> r = Ok tt -> disk_exists d' dir = false /\ (disk_exists d dir = true ->
    forall p rest, p = dir ++ rest -> disk_exists d' p = false).
Proof.
  unfold remove_haruki_3d_work_dir. destruct (disk_exists d dir) eqn:Ex; cbn [negb].
  - destruct (remove_error dir); intros [= <- <-] Hr; [done|].
    assert (Hgone : forall rest, disk_exists (remove_dir_all dir d) (dir ++ rest) = false).
    { intros rest. apply not_true_iff_false. rewrite disk_exists_iff. unfold remove_dir_all. cbn [d_files d_dirs].
      assert (Hb : below_b dir (dir ++ rest) = true) by (unfold below_b; by rewrite (proj2 (path_strip_prefix_Some dir (dir ++ rest) rest) eq_refl)).
      rewrite elem_of_union, elem_of_dom, elem_of_filter. intros [[x Hx%map_lookup_filter_Some]|[Hx _]]; [destruct Hx as [_ Hx]; cbn in Hx|]; congruence. }
    split; [|intros _ p rest ->; apply Hgone]. specialize (Hgone []). by rewrite app_nil_r in Hgone.
  - intros [= <- <-] _. by split.
Qed.

Lemma run_exporters_spec h run_dir commands : forall (s : work N) r s',
  run_exporters h run_dir commands s = (r, s') -> wk_events s' = wk_events s
  /\ (forall program status stderr, r = Err (Haruki3dExporterFailed program status stderr) -> cleanup_work_dir_after_failure h = true ->
        disk_exists (wk_disk s') run_dir = false).
Proof.
  induction commands as [|args commands IH]; intros s r s'; cbn [run_exporters]; [by intros [= <- <-]|].
  destruct (run_exporter (exporter_path h) args (wk_disk s)) as [[[[ok status] stderr]|e] d]; [|by intros [= <- <-]].
  destruct ok; [intros E; by apply IH in E|]. unfold wbind. destruct (cleanup_work_dir_after_failure h); [|by intros [= <- <-]].
  unfold on_disk at 1. cbn [wk_disk]. destruct (remove_haruki_3d_work_dir run_dir d) as [d1 [[]|e]] eqn:Er; cbn.
  - intros [= <- <-]. split; [done|]. intros. by eapply remove_work_dir_gone in Er as [Hg _].
  - intros [= <- <-]. split; [done|]. intros ? ? ? [= ->]. unfold remove_haruki_3d_work_dir in Er.
    destruct (negb _); [done|]. by destruct (remove_error run_dir).
Qed.

(** What a run leaves: [d] is the disk the exporter was started on, [run_dir] the directory of
    the run. *)
Definition run_outcome (h : Haruki3dExportConfig) (root : path) (tasks : list DownloadTask) (r : result (nat * nat) AssetExecutionError)
    (l : list ExecutionProgressUpdate) (d d' : disk) : Prop :=
  let run_dir := default root (path_parent root) in
  match r with
  | Ok (matched, downloaded) =>
      matched = length tasks /\ downloaded = length (completions l) /\ sublist (completions l) (map bundle_path tasks)
      /\ Forall (present root d) tasks /\ (cleanup_work_dir_after_success h = true -> disk_exists d' run_dir = false)
  | Err (Haruki3dExporterFailed _ _ _) => cleanup_work_dir_after_failure h = true -> disk_exists d' run_dir = false
  | Err _ => True
  end.

(** An error that is not the exporter's. *)
Definition not_exporter (e : AssetExecutionError) : Prop := match e with Haruki3dExporterFailed _ _ _ => False | _ => True end.

Lemma retry_loop_errors {S T E} (P : E -> Prop) (op : S -> result T E * S) should config total a n s e s' ds :
  (forall s e s', op s = (Err e, s') -> P e) ->
  retry_loop (fun _ => op) should config total a n s = (Some (Err e), s', ds) -> P e.
Proof.
  intros Hop. revert a s ds. induction n as [|n IH]; intros a s ds; simpl; [done|]. destruct (op s) as [[v|e0] s1] eqn:Eo; [done|].
  destruct ((a <? total) && should e0); [|intros [= -> -> _]; by eapply Hop].
  destruct (retry_loop _ _ _ _ _ n s1) as [[r s2] ds'] eqn:El. intros [= -> -> _]. by eapply IH.
Qed.

Lemma get_errors c url w e w' : get_with_retry send c url w = (Err e, w') -> not_exporter e.
Proof.
  unfold get_with_retry, retried, retry_async. destruct (retry_loop _ _ _ _ _ _ w) as [[r w1] ds] eqn:E.
  destruct r as [r|]; [|by intros [= <- _]]. simpl. intros [= -> _]. eapply (retry_loop_errors not_exporter) in E; [done|].
  clear. intros w e w'. unfold get_attempt, bind, exchange. destruct (send _ _) as [[x|m] n]; [|by intros [= <- _]].
  destruct (is_success x); [|by intros [= <- _]]. unfold of_result. destruct (body x); [done|]. by intros [= <- _].
Qed.

Lemma url_errors c now t e : render_bundle_url c now t = Err e -> not_exporter e.
Proof.
  unfold render_bundle_url. destruct (provider (region c)) as [?? ?? profile hashes ??|]; [|done]. unfold palette_parts.
  destruct (resolved_asset_version c); [|by intros [= <-]]. destruct (resolved_asset_hash c); [|by intros [= <-]].
  destruct (resolved_assetbundle_host_hash c); [done|]. cbn. destruct (hashes !! _); [done|]. by intros [= <-].
Qed.

Lemma downloads_errors c cancelled root tasks : forall i k (s : work N) e s',
  haruki_3d_downloads send jst_now c cancelled root i tasks k s = (Err e, s') -> not_exporter e.
Proof.
  induction tasks as [|t tasks IH]; intros i k s e s'; cbn [haruki_3d_downloads]; [done|]. unfold wbind at 1.
  destruct (cancelled i); cbn [ensure_not_cancelled wfail wret]; [by intros [= <- _]|].
  unfold wbind at 1. cbn [send_progress]. unfold wbind at 1, wfail at 1. rewrite raw_path_shape.
  destruct (forallb proper_name _); [|destruct (is_empty _); by intros [= <- _]].
  cbn [wk_disk]. destruct (disk_exists _ _); [apply IH|]. intros E.
  apply wbind_inv in E as [(e0 & E & [= ->])|(url & s1 & E0 & E)]; [injection E as E _; by eapply url_errors|].
  apply wbind_inv in E as [(e0 & E & [= ->])|(body & s2 & E1 & E)].
  { unfold fetch in E. destruct (get_with_retry send c url (wk_world s1)) as [r w] eqn:Eg. injection E as -> _. by eapply get_errors. }
  apply wbind_inv in E as [(e0 & E & [= ->])|(u & s3 & E2 & E)].
  { apply on_disk_silent in E as [E _]. unfold write_haruki_3d_work_bundle, write_below in E.
    destruct (path_parent _) as [parent|]; [destruct (mkdir_error parent)|]; cbn in E; try (by injection E as _ <-);
      destruct (write_error _) as [[]|]; by simplify_eq. }
  open_step E; [done|]. by eapply IH.
Qed.

Lemma run_tail c h cancelled root tasks commands (s : work N) r s' :
  let run_dir := default root (path_parent root) in
  (let! downloaded := haruki_3d_downloads send jst_now c cancelled root 0 tasks 0 in
   let! _ := run_exporters h run_dir commands in
   let! _ := (if cleanup_work_dir_after_success h then on_disk (remove_haruki_3d_work_dir run_dir) else wret tt) in
   wret (length tasks, downloaded)) s = (r, s') ->
  exists l d, wk_events s' = wk_events s ++ l /\ preserves (wk_disk s) d /\ run_outcome h root tasks r l d (wk_disk s').
Proof.
  intros run_dir E. apply wbind_inv in E as [(e & E & ->)|(n & s1 & E0 & E)].
  { pose proof (downloads_errors _ _ _ _ _ _ _ _ _ E) as He. apply haruki_3d_downloads_spec in E as (Hp & l & El & _).
    exists l, (wk_disk s'). split_and!; [done..|]. by destruct e. }
  apply haruki_3d_downloads_spec in E0 as (Hp & l & El & Hn). destruct (Hn n eq_refl) as (-> & Hall & Hs). exists l, (wk_disk s1). rewrite <- El.
  apply wbind_inv in E as [(e & E & ->)|(u & s2 & E0 & E)].
  { apply run_exporters_spec in E as [Ee Hc]. split_and!; [done..|]. destruct e; try done. cbn. by eapply Hc. }
  apply run_exporters_spec in E0 as [Ee _].
  apply wbind_inv in E as [(e & E & ->)|(u2 & s3 & E0 & E)].
  - destruct (cleanup_work_dir_after_success h); [|done]. apply on_disk_silent in E as [Er Ee']. rewrite Ee', Ee. split_and!; [done..|].
    unfold remove_haruki_3d_work_dir in Er. destruct (negb _); [done|]. destruct (remove_error run_dir); [|done]. by injection Er as _ <-.
  - injection E as <- <-. cbn. destruct (cleanup_work_dir_after_success h).
    + apply on_disk_silent in E0 as [Er Ee']. rewrite Ee', Ee. split_and!; try done. intros _.
      destruct u2. by apply remove_work_dir_gone in Er as [Hg _].
    + injection E0 as _ <-. rewrite Ee. by split_and!.
Qed.

Variables (decode_info : bytes -> result AssetBundleInfo string) (hex_decode : string -> result bytes string)
  (aes_cbc_decrypt : bytes -> bytes -> bytes -> result bytes string) (parse_version : bytes -> result CurrentVersionInfo string)
  (decode_game : bytes -> result GameVersionInfo string) (load_record : string -> result DownloadRecord DownloadRecordError).

Lemma index_region c w info c' w' :
  fetch_asset_bundle_info send jst_now decode_info hex_decode aes_cbc_decrypt c w = (Ok (info, c'), w') -> same c c'.
Proof.
  unfold fetch_asset_bundle_info. intros E. apply bind_Ok in E as ([url c1] & w1 & E1 & E). invert_fetch E. injection E as _ <- _.
  unfold render_asset_info_url in E1. destruct (provider (region c)); invert_fetch E1; by injection E1 as _ <- _.
Qed.

Lemma fetch_Ok {T} (m : M N T) s x s' : fetch m s = (Ok x, s') -> exists w, m (wk_world s) = (Ok x, w).
Proof. unfold fetch. destruct (m (wk_world s)) as [r w]. intros [= -> _]. by exists w. Qed.

Lemma fetch_cookies_region c s c' s' : fetch_cookies send c s = (Ok c', s') -> region c' = region c /\ region_name c' = region_name c.
Proof.
  unfold fetch_cookies. destruct (requires_cookies c); [|by intros [= <- _]].
  intros (w & Ew)%fetch_Ok. apply cookies_spec in Ew as [_ ->]. done.
Qed.

(** A run that ends before its plan. *)
Ltac before_plan He := eexists; split; [exact He | left; split; [done | apply not_planned_phase]].

(** A background export of 3D models that is enabled.  Once the plan is announced, the
    exporter is started only on a work directory that holds every planned bundle, and nothing
    that was on the disk before is lost or overwritten by the downloads; a bundle that was
    there already is not fetched again.  The summary counts the planned bundles and those
    announced as downloaded.  After a success the directory of the run is gone if it is to be
    cleaned up after a success, and after a failure of the exporter if it is to be cleaned up
    after a failure. *)
Theorem haruki_3d_run_exact c flag1 flag2 cancelled (s : work N) r s' :
  h3d_enabled (haruki_3d (export (region c))) = true ->
  run_haruki_3d_background_export send jst_now decode_info hex_decode aes_cbc_decrypt parse_version decode_game load_record
    c flag1 flag2 cancelled s = (r, s') ->
  exists l, wk_events s' = wk_events s ++ l
    /\ ((is_ok r = false /\ forall n, DownloadsPlanned n ∉ l)
        \/ exists info c' record root l' d, region c' = region c
              /\ haruki_3d_work_asset_root (region c) (region_name c) (resolved_asset_version c') = Some root
              /\ let tasks := build_haruki_3d_tasks regex_new (region c) info record in
                 l = [Phase FetchingAssetInfo "fetching asset bundle info for Haruki 3D export"; DownloadsPlanned (length tasks)] ++ l'
                 /\ preserves (wk_disk s) d /\ run_outcome (haruki_3d (export (region c))) root tasks r l' d (wk_disk s')).
Proof.
  intros Hen. unfold run_haruki_3d_background_export. rewrite Hen. cbn [negb]. intros E.
  apply wbind_inv in E as [(e & E & ->)|(u & s0 & E0 & E)].
  { apply guard_inv in E as [-> _]. exists []. rewrite app_nil_r. split; [done|]. left. split; [done|apply not_planned_nil]. }
  apply guard_inv in E0 as [-> _]. open_step E; [done|]. injection E0 as _ <-.
  apply wbind_inv in E as [(e & E & ->)|(c1 & s1 & E1 & E)]; [apply fetch_cookies_silent in E as [_ He]; before_plan He|].
  pose proof (fetch_cookies_silent _ _ _ _ _ E1) as [Hd1 He1]. cbn [wk_disk wk_events] in Hd1, He1.
  apply fetch_cookies_region in E1 as [Hreg1 Hn1].
  apply wbind_inv in E as [(e & E & ->)|(c2 & s2 & E2 & E)]; [apply fetch_silent in E as [_ He]; rewrite He1 in He; before_plan He|].
  pose proof (fetch_silent _ _ _ _ E2) as [Hd2 He2]. apply fetch_Ok in E2 as (w2 & E2). apply resolve_same in E2 as (_ & _ & Hreg2 & Hn2).
  rewrite He1 in He2. apply wbind_inv in E as [(e & E & ->)|(u3 & s3 & E3 & E)]; [apply guard_inv in E as [-> _]; before_plan He2|].
  apply guard_inv in E3 as [-> _].
  apply wbind_inv in E as [(e & E & ->)|([info c'] & s4 & E4 & E)]; [apply fetch_silent in E as [_ He]; rewrite He2 in He; before_plan He|].
  pose proof (fetch_silent _ _ _ _ E4) as [Hd4 He4]. apply fetch_Ok in E4 as (w4 & E4). apply index_region in E4 as (_ & _ & Hreg4 & Hn4).
  rewrite He2 in He4. rewrite Hreg4, Hreg2, Hreg1, Hn4, Hn2, Hn1 in E.
  apply wbind_inv in E as [(e & E & ->)|(rp & s5 & E5 & E)]; [injection E as _ <-; before_plan He4|]. injection E5 as _ <-.
  apply wbind_inv in E as [(e & E & ->)|(record & s5 & E5 & E)]; [injection E as _ <-; before_plan He4|]. injection E5 as _ <-.
  open_step E; [done|]. injection E0 as _ <-. destruct (haruki_3d_work_asset_root (region c) (region_name c) (resolved_asset_version c')) as [root|] eqn:Er.
  2: { unfold haruki_3d_work_asset_root in Er. by rewrite Hen in Er. }
  apply run_tail in E as (l' & d & El & Hp & Ho). cbn [wk_events wk_disk] in El, Hp. rewrite He4, <- !app_assoc in El.
  rewrite Hd4, Hd2, Hd1 in Hp. eexists. split; [exact El|]. right. exists info, c', record, root, l', d.
  split; [congruence|]. split; [done|]. by split_and!.
Qed.
End Models3d.
End WorkExact.

(** ** Temporary files *)

(** A bundle name that is accepted for raw bundles has its temporary file below the temporary
    directory of its region. *)
Lemma temp_file_confined `{BundleEnv} name bundle root p :
  temp_dir <> [] -> components name = [Normal name] -> raw_bundle_output_path root bundle = Ok p ->
  temp_file name bundle = temp_dir ++ Normal name :: map Normal (split_on "/"%char bundle).
Proof.
  intros Ht Hn Hp. rewrite raw_path_shape in Hp. destruct (forallb proper_name _) eqn:E; [|by destruct (is_empty bundle)].
  unfold temp_file, path_join. rewrite Hn, (components_proper bundle E). cbn [is_absolute].
  pose proof (split_on_not_nil "/"%char bundle) as Hnil. destruct temp_dir as [|a rest]; [done|].
  destruct (split_on "/"%char bundle) as [|w ws]; [done|]. cbn. by rewrite <- app_assoc.
Qed.

Module BundleDemo.
(** Nothing fails but the temporary file [broken]; the exporter fails when told to. *)
Definition env (broken : bool) (exporter_ok : bool) : BundleEnv := {|
  mkdir_error := fun _ => None;
  write_error := fun p => if broken && bool_decide (p = components "/tmp/jp/model/a") then Some (OtherIo "no space left", 2%nat) else None;
  remove_error := fun _ => None;
  temp_dir := components "/tmp";
  object_export := fun _ _ _ out _ _ _ d =>
    (write_file (out ++ [Normal "a.png"]) [Byte.x01] d, Ok (mkObjectSummary [out ++ [Normal "a.png"]] [] [(out ++ [Normal "b.png"], [Byte.x02])] 0 true));
  flush_images := fun images d => (fold_left (fun d i => if below_b (components "/o") i.1 then write_file i.1 i.2 d else d) images d, Ok tt);
  post_process := fun _ _ root _ _ _ d => (d, Ok (mkPostSummary root [root ++ [Normal "a.png"]; root ++ [Normal "a.webp"]] []));
  run_exporter := fun _ _ d => (Ok (exporter_ok, "exit status: 1", []), d);
  regex_new := fun p => Some (contains p)
|}.
#[local] Instance ascii : UnicodeCase := ascii_case.
#[local] Instance in_order : TaskOrder := {| task_order := fun A l => l; task_order_perm := fun A l => Permutation_refl l |}.

(** Bundles of one byte, obfuscated; no answer for the second. *)
Definition respond (rq : Request) (n : nat) : result Response string * nat :=
  (if starts_with "https://production-cf2d/6.0.1/ab" (rq_url rq) then Ok (mkResponse 200 None (Ok (replicate 16 Byte.x61)))
   else if starts_with "https://production-cf2d/model/a" (rq_url rq) then Ok (mkResponse 200 None (Ok (SIMPLE ++ [Byte.x2a])))
   else Ok (mkResponse 404 None (Ok [])), S n).
Definition now (_ : nat) : string := "20240101090000".
Definition decode_info (_ : bytes) : result AssetBundleInfo string :=
  Ok (mkAssetBundleInfo None None (list_to_map [("model/a", sample_detail 1 1); ("model/b", sample_detail 2 1)])).
Definition reg (by_cat : bool) : RegionConfig :=
  mkRegionConfig true
    (ColorfulPalette None None "https://{env}-{hash}/{asset_version}/{asset_hash}" "https://{env}-{hash}/{bundle_path}" "production"
       {[ "production" := "cf2d" ]} false None)
    (mkCryptoConfig (Some "00") (Some "00")) "2022.3.21f1" (mkRegionPathsConfig (Some "/o") (Some "/r.json"))
    (mkRegionFiltersConfig ["model"] [] [] [])
    (RegionExportConfig_with by_cat (Some (mkRawBundleExportConfig None [] []))
       (mkHaruki3dExportConfig true "exporter" "" "/w" "" "" "" 1 [] ["model/a"] [] true true true false))
    (upload RegionConfig_default).
Definition context (by_cat : bool) : AssetExecutionContext := FetchDemo.context (reg by_cat).
Definition task (name : string) : DownloadTask := mkDownloadTask name name "h" StartApp 1 0.
Definition s0 : work nat := mkWork (mkWorld 0%nat []) (mkDisk ∅ ∅) [].
Definition text (_ : AssetExecutionError) : string := "failed".
Definition app : AppConfig :=
  let d := AppConfig_default in
  let a := AssetStudioBackendConfig_default in
  mkAppConfig (config_version d) (server d) (execution d)
    (mkBackendsConfig
       (mkAssetStudioBackendConfig (Some "libassetstudio.so") (as_mode a) (as_worker_path a) (as_process_concurrency a) (as_worker_max_calls a)
          (as_read_batch_size a) (as_image_format a) (as_read_kinds a) (as_worker_idle_timeout_seconds a) (as_worker_gc_heap_hard_limit_mb a)
          (as_worker_gc_conserve_memory a) (as_image_flush_bytes a)) MediaBackendConfig_default ImageBackendConfig_default)
    (resources d) (concurrency d) (storage d) (chart_hashes d) (poller d) (hip d) (regions d).

Definition prefetch (e : BundleEnv) : result ExecutionSummary AssetExecutionError * work nat :=
  prefetch_asset_bundles respond now text decode_info FetchDemo.hex FetchDemo.aes (context false) false false (fun _ => false) s0.


Definition exported (e : BundleEnv) (by_cat : bool) (name : string) : result PostProcessJob AssetExecutionError * work nat :=
  download_and_export_bundle_payloads respond now app (context by_cat) (task name) None s0.

Lemma flush_below images d p :
  below_b (components "/o") p = false -> d_files d !! p = None -> d_files (flush_images (BundleEnv := env false true) images d).1 !! p = None.
Proof.
  intros Hp. revert d. induction images as [|[q b] images IH]; intros d Hd; [exact Hd|]. simpl. apply IH.
  destruct (below_b (components "/o") q) eqn:Eq; [|done]. simpl. rewrite lookup_insert_ne; [done|]. congruence.
Qed.

Lemma temp_file_removed_witness :
  let e := env false true in
  exists job s', exported e false "model/a" = (Ok job, s') /\ d_files (wk_disk s') !! temp_file "jp" "model/a" = None.
Proof.
  intros e. destruct (exported e false "model/a") as [r s'] eqn:E.
  assert (Hok : is_ok (exported e false "model/a").1 = true) by (vm_compute; reflexivity).
  rewrite E in Hok. destruct r as [job|]; [|discriminate Hok]. exists job, s'. split; [reflexivity|].
  destruct (temp_file_removed respond now app (context false) (task "model/a") None s0 (Ok job) s') as (l & El & Hgone & Hno & _).
  - reflexivity.
  - intros images d. apply flush_below. reflexivity.
  - exact E.
  - apply Hgone, Hno. reflexivity.
Defined.

(** A temporary file whose write fails stays, with what was written of it. *)
Example broken_temp_stays :
  let r := exported (env true true) false "model/a" in
  is_ok r.1 = false /\ d_files (wk_disk r.2) !! components "/tmp/jp/model/a" = Some [Byte.x2a].
Proof. vm_compute. by split. Qed.

(** A name that is absolute, or climbs, has its temporary file anywhere. *)
Example temp_file_escapes :
  let e := env false true in
  map (fun b => path_str (temp_file "jp" b)) ["model/a"; "/etc/passwd"; "../../etc/passwd"]
  = ["/tmp/jp/model/a"; "/etc/passwd"; "/tmp/jp/../../etc/passwd"].
Proof. vm_compute. reflexivity. Qed.

(** By category, the directory handed to the post-processing is the whole save directory. *)
Example export_paths :
  map (fun by_cat => match (exported (env false true) by_cat "model/a").1 with
                     | Ok job => path_str (pe_export_path (job_export job))
                     | Err _ => "" end) [false; true] = ["/o/model/a"; "/o"].
Proof. vm_compute. reflexivity. Qed.

Definition job : PostProcessJob :=
  mkJob "model/a" "h" (mkPayloadExport (components "/o/model/a") (components "/o") true [components "/o/a.png"] [] [] 0 true).

(** The image that the export and the post-processing both name is announced once. *)
Lemma announced_artefacts_exact_witness :
  let e := env false true in
  exists s' l files, finish_native_bundle_post_process (reg false) job s0 = (Ok tt, s')
    /\ wk_events s' = l ++ [BundleArtefactsProduced "model/a" "h" "/o" (map path_str files); BundleExported "model/a"]
    /\ NoDup files /\ components "/o/a.png" ∈ files /\ components "/o/a.webp" ∈ files.
Proof.
  intros e. pose proof (announced_artefacts_exact (reg false) job s0) as Hth.
  destruct (finish_native_bundle_post_process (reg false) job s0) as [r s'] eqn:E.
  specialize (Hth r s' eq_refl). vm_compute in E. injection E as <- <-. destruct Hth as (d & summary & l & files & Ep & Ee & _ & Hnd & _ & Hin).
  vm_compute in Ep. injection Ep as _ <-. eexists _, l, files. split; [reflexivity|]. split; [exact Ee|]. split; [exact Hnd|].
  split; apply Hin; [left; left | right; right; left].
Defined.

Definition load_record (_ : string) : result DownloadRecord DownloadRecordError := Ok {[ "model/a" := "" ]}.
Definition run_3d (e : BundleEnv) (s : work nat) : result (nat * nat) AssetExecutionError * work nat :=
  run_haruki_3d_background_export respond now decode_info FetchDemo.hex FetchDemo.aes FetchDemo.parse_version FetchDemo.decode_game load_record
    (context false) false false (fun _ => false) s.
Definition work_file : path := components "/w/jp/6.0.1/AssetBundles/model/a.bundle".

Lemma haruki_3d_run_exact_witness :
  let e := env false true in
  exists s', run_3d e s0 = (Ok (1, 1)%nat, s') /\ exists c' root,
    haruki_3d_work_asset_root (reg false) "jp" (resolved_asset_version c') = Some root
    /\ disk_exists (wk_disk s') (default root (path_parent root)) = false.
Proof.
  intros e. destruct (run_3d e s0) as [r s'] eqn:E.
  assert (Hr : (run_3d e s0).1 = Ok (1, 1)%nat) by (vm_compute; reflexivity). rewrite E in Hr. cbn in Hr. subst r.
  exists s'. split; [reflexivity|].
  destruct (haruki_3d_run_exact respond now decode_info FetchDemo.hex FetchDemo.aes FetchDemo.parse_version FetchDemo.decode_game load_record
              (context false) false false (fun _ => false) s0 (Ok (1, 1)%nat) s') as (l & _ & [[Hf _]|Ho]).
  - reflexivity.
  - exact E.
  - discriminate Hf.
  - destruct Ho as (info & c' & record & root & l' & d & _ & Hroot & _ & _ & _ & _ & _ & _ & Hclean).
    exists c', root. split; [exact Hroot | exact (Hclean eq_refl)].
Defined.

(** A bundle that an interrupted run left incomplete is taken as it is: one planned, none
    downloaded, and the exporter reads the truncated file. *)
Example truncated_bundle_kept :
  let s := mkWork (mkWorld 0%nat []) (write_file work_file [] (mkDisk ∅ ∅)) [] in
  (run_3d (env false true) s).1 = Ok (1, 0)%nat.
Proof. vm_compute. reflexivity. Qed.
End BundleDemo.
