(* ===== verification/NativeLibrary.v ===== *)
(** * The AssetStudio library

    [crates/assetstudio-ffi/src/native.rs]: loading the native library, checking that its
    structures and versions are those of the crate, and the calls behind
    [call_typed_request].  The library is an interface of functions on structures; a pointer
    it returns is null or stands for the memory that may be read from it, and a read beyond
    that memory is [Undefined].  Of the structures the fields that are written or read are
    kept; counters and timings that are only reported are left out, as in [FfiTypes]. *)

From Stdlib Require Import Ascii.
From S2P Require Import Prelude RustStr Errors Paths PayloadBundle FfiTypes WorkerProtocol.

Local Open Scope string_scope.
Local Open Scope list_scope.
Local Open Scope Z_scope.
Local Open Scope rust_scope.

(** ** Memory *)

Inductive access (T : Type) : Type :=
| Safe (x : T)
| Undefined.
Arguments Safe {T}.
Arguments Undefined {T}.

Definition access_bind {A B} (a : access A) (k : A -> access B) : access B := match a with Safe x => k x | Undefined => Undefined end.
Notation "'let*' x := m 'in' k" := (access_bind m (fun x => k)) (at level 10, x pattern, m at level 100, k at level 200).

Fixpoint access_all {A B} (f : A -> access B) (l : list A) : access (list B) :=
  match l with
  | [] => Safe []
  | x :: l' => let* y := f x in let* ys := access_all f l' in Safe (y :: ys)
  end.

(** A pointer: [None] is null. *)
Abbreviation pointer A := (option (list A)).

(** [slice::from_raw_parts(p.add(offset), len)]. *)
Definition from_raw_parts {A} (memory : list A) (offset len : Z) : access (list A) :=
  if offset + len <=? zlen memory then Safe (slice memory offset (offset + len)) else Undefined.

(** [x as c_int]. *)
Definition as_c_int (x : Z) : Z := truncate 32 (x + 2 ^ 31) - 2 ^ 31.
Definition c_int_max : Z := 2 ^ 31 - 1.

(** ** Layout of structures *)

Inductive ctype : Type := CInt | CLong | CPointer.
Definition csize (t : ctype) : Z := match t with CInt => 4 | CLong | CPointer => 8 end.

Definition round_up (x align : Z) : Z := (x + align - 1) / align * align.

(** [size_of] of a [repr(C)] structure: every field at a multiple of its size, and the whole
    a multiple of the largest. *)
Definition field_end (offset : Z) (t : ctype) : Z := round_up offset (csize t) + csize t.
Definition size_of (fields : list ctype) : Z := round_up (fold_left field_end fields 0) (foldr Z.max 1 (map csize fields)).

Definition ints (n : nat) : list ctype := replicate n CInt.
Definition CapabilitiesResponse : list ctype := ints 36.
Definition AbiLayoutResponse : list ctype := ints 22.
Definition LimitsResponse : list ctype := ints 9 ++ [CLong; CLong] ++ ints 8.
Definition ContextOpenRequest : list ctype := [CInt; CPointer; CInt; CPointer; CInt; CPointer; CInt; CPointer; CInt] ++ ints 3.
Definition ContextOpenResponse : list ctype := ints 6 ++ [CLong] ++ ints 4 ++ [CPointer; CInt; CPointer; CLong; CLong; CInt; CInt].
Definition ContextCloseRequest : list ctype := [CInt; CLong; CInt; CInt].
Definition ContextCloseResponse : list ctype := ints 6 ++ [CLong; CLong; CInt; CInt].
Definition ObjectListRequest : list ctype := [CInt; CLong; CInt; CInt; CPointer; CInt; CInt; CInt].
Definition ObjectListIntoRequest : list ctype := [CInt; CLong; CInt; CInt; CPointer; CInt; CInt; CInt; CPointer; CLong].
Definition ObjectTableLayout : list ctype := ints 6 ++ [CLong] ++ ints 6 ++ [CPointer; CPointer; CInt; CPointer; CLong; CLong; CInt; CInt].
Definition AssetObjectLayout : list ctype := [CInt; CInt] ++ replicate 6 CLong ++ ints 12.
Definition ReadItemRequestLayout : list ctype := [CLong; CPointer; CInt; CPointer; CInt].
Definition ReadBatchIntoRequest : list ctype := [CInt; CLong; CPointer; CInt; CInt; CPointer; CLong; CPointer; CLong; CInt].
Definition ReadItemResponseLayout : list ctype := ints 3 ++ [CLong; CInt; CLong; CLong; CLong] ++ ints 6.
Definition ReadBatchRetryResponse : list ctype :=
  ints 8 ++ [CLong] ++ ints 3 ++ [CPointer; CPointer; CInt; CPointer; CLong; CPointer; CLong; CLong; CInt; CLong; CLong; CLong] ++ ints 3.

(** ** Structures *)

(** [AssetStudioTypedCapabilitiesResponse]. *)
Record Capabilities : Type := mkCapabilities {
  cap_struct_size : Z; cap_abi : Z; cap_schema : Z; cap_status : Z; cap_error_code : Z; cap_context : Z; cap_object_table : Z;
  cap_object_table_into : Z; cap_read_batch : Z; cap_read_batch_into : Z; cap_direct_retry : Z
}.

(** [AssetStudioTypedAbiLayoutResponse]. *)
Record AbiLayout : Type := mkAbiLayout {
  lay_struct_size : Z; lay_abi : Z; lay_schema : Z; lay_status : Z; lay_error_code : Z; lay_version : Z; lay_open_request : Z;
  lay_open_response : Z; lay_close_request : Z; lay_close_response : Z; lay_limits : Z; lay_capabilities : Z; lay_list_request : Z;
  lay_list_into : Z; lay_object_table : Z; lay_asset_object : Z; lay_item_request : Z; lay_batch_into : Z; lay_item_response : Z;
  lay_retry_response : Z
}.

(** [AssetStudioTypedLimitsResponse]. *)
Record Limits : Type := mkLimits { lim_struct_size : Z; lim_abi : Z; lim_schema : Z; lim_limits : Z; lim_status : Z; lim_error_code : Z }.

(** A string argument: the text and the length given for it. *)
Record text_arg : Type := mkText { text : string; text_len : Z }.

(** [AssetStudioTypedContextOpenRequest]. *)
Record OpenArgs : Type := mkOpenArgs {
  arg_input_path : text_arg; arg_unity_version : option text_arg; arg_asset_types : text_arg; arg_load_all : Z
}.

(** [AssetStudioTypedContextOpenResponse]; [cor_buffer] is the address of the buffer. *)
Record OpenResult : Type := mkOpenResult {
  cor_status : Z; cor_error_code : Z; cor_context_id : Z; cor_exportable_count : Z; cor_has_more : Z;
  cor_unity_version : pointer Byte.byte; cor_unity_version_len : Z; cor_buffer : option Z
}.

(** [AssetStudioTypedContextCloseResponse]. *)
Record CloseResult : Type := mkCloseResult { ccr_status : Z; ccr_error_code : Z }.

(** [AssetStudioTypedAssetObject]. *)
Record AssetObject : Type := mkAssetObject {
  ao_index : Z; ao_type_id : Z; ao_path_id : Z; ao_size : Z; ao_name_offset : Z; ao_name_len : Z; ao_container_offset : Z;
  ao_container_len : Z; ao_type_offset : Z; ao_type_len : Z; ao_unique_offset : Z; ao_unique_len : Z; ao_source_offset : Z; ao_source_len : Z
}.

(** [AssetStudioTypedObjectTable]. *)
Record ObjectTable : Type := mkObjectTable {
  ot_status : Z; ot_error_code : Z; ot_next_offset : Z; ot_has_more : Z; ot_returned_count : Z; ot_objects : pointer AssetObject;
  ot_string_data : pointer Byte.byte; ot_string_data_len : Z; ot_buffer_len : Z
}.

(** [AssetStudioTypedObjectReadItemRequest]. *)
Record ReadItemArgs : Type := mkReadItemArgs { ria_path_id : Z; ria_kind : text_arg; ria_image_format : text_arg }.

(** [AssetStudioTypedObjectReadItemResponse]. *)
Record ReadItem : Type := mkReadItemResult {
  ri_index : Z; ri_status : Z; ri_error_code : Z; ri_path_id : Z; ri_payload_offset : Z; ri_payload_len : Z; ri_kind_offset : Z;
  ri_kind_len : Z; ri_extension_offset : Z; ri_extension_len : Z; ri_error_offset : Z; ri_error_len : Z
}.

(** [AssetStudioTypedObjectReadBatchRetryResponse]. *)
Record ReadResult : Type := mkReadResult {
  rr_status : Z; rr_error_code : Z; rr_returned_count : Z; rr_failed_count : Z; rr_items : pointer ReadItem;
  rr_string_data : pointer Byte.byte; rr_string_data_len : Z; rr_payload : pointer Byte.byte; rr_payload_len : Z; rr_result_handle : Z
}.

(** The functions of the library, on its state; [free_buffer] and [result_free] release what
    an answer refers to. *)
Class NativeLibrary (L : Type) := {
  capabilities_v1 : L -> Z * Capabilities * L;
  abi_layout_v1 : L -> Z * AbiLayout * L;
  limits_v1 : L -> Z * Limits * L;
  context_open_v1 : OpenArgs -> L -> Z * OpenResult * L;
  context_list_objects_size_v1 : Z -> Z -> Z -> L -> Z * ObjectTable * L;
  context_list_objects_into_v1 : Z -> Z -> Z -> Z -> L -> Z * ObjectTable * L;
  context_close_v1 : Z -> L -> Z * CloseResult * L;
  context_read_objects_direct_retry_v1 : Z -> list ReadItemArgs -> Z -> L -> Z * ReadResult * L;
  free_buffer : Z -> L -> L;
  result_free : Z -> L -> L
}.

(** ** Checking the library *)

Definition message {A} (m : string) : result A AssetStudioFfiError := Err (FfiMessage m).

Definition check_typed_abi_version (name : string) (native expected : Z) : result unit AssetStudioFfiError :=
  if native =? expected then Ok tt
  else message ("AssetStudioFFI " +:+ name +:+ " version mismatch: native=" +:+ pretty native +:+ " rust=" +:+ pretty expected).

Definition check_typed_struct_size (fields : list ctype) (native : Z) (name : string) : result unit AssetStudioFfiError :=
  if (0 <=? native) && (native =? size_of fields) then Ok tt
  else message ("AssetStudioFFI ABI layout mismatch for " +:+ name +:+ ": native=" +:+ pretty native +:+ " rust=" +:+ pretty (size_of fields)).

Definition check_own_size (fields : list ctype) (native : Z) (name : string) : result unit AssetStudioFfiError :=
  if native =? as_c_int (size_of fields) then Ok tt
  else message ("AssetStudioFFI " +:+ name +:+ " struct size mismatch: native=" +:+ pretty native +:+ " rust=" +:+ pretty (size_of fields)).

Definition check_status (name : string) (status response_status error_code : Z) : result unit AssetStudioFfiError :=
  if negb (status =? 0) || negb (response_status =? 0)
  then message ("AssetStudioFFI " +:+ name +:+ " failed: status=" +:+ pretty status +:+ " response_status=" +:+ pretty response_status
                +:+ " error_code=" +:+ pretty error_code)
  else Ok tt.

Definition check_capabilities (status : Z) (c : Capabilities) : result unit AssetStudioFfiError :=
  let? _ := check_status "capabilities_v1" status (cap_status c) (cap_error_code c) in
  let? _ := check_own_size CapabilitiesResponse (cap_struct_size c) "capabilities_v1" in
  let? _ := check_typed_abi_version "capabilities_v1 abi" (cap_abi c) 1 in
  let? _ := check_typed_abi_version "capabilities_v1 schema" (cap_schema c) 1 in
  let? _ := check_typed_abi_version "context" (cap_context c) 1 in
  let? _ := check_typed_abi_version "object_table" (cap_object_table c) 1 in
  let? _ := check_typed_abi_version "object_table_into" (cap_object_table_into c) 1 in
  let? _ := check_typed_abi_version "object_read_batch" (cap_read_batch c) 1 in
  let? _ := check_typed_abi_version "object_read_batch_into" (cap_read_batch_into c) 1 in
  check_typed_abi_version "object_read_batch_direct_retry" (cap_direct_retry c) 1.

Definition check_layout (status : Z) (l : AbiLayout) : result unit AssetStudioFfiError :=
  let? _ := check_status "abi_layout_v1" status (lay_status l) (lay_error_code l) in
  let? _ := check_own_size AbiLayoutResponse (lay_struct_size l) "abi_layout_v1" in
  let? _ := check_typed_abi_version "abi_layout_v1 abi" (lay_abi l) 1 in
  let? _ := check_typed_abi_version "abi_layout_v1 schema" (lay_schema l) 1 in
  let? _ := check_typed_abi_version "abi_layout_v1 layout" (lay_version l) 1 in
  let? _ := check_typed_struct_size CapabilitiesResponse (lay_capabilities l) "haruki_assetstudio_capabilities_response" in
  let? _ := check_typed_struct_size ContextOpenRequest (lay_open_request l) "haruki_assetstudio_context_open_request" in
  let? _ := check_typed_struct_size ContextOpenResponse (lay_open_response l) "haruki_assetstudio_context_open_response" in
  let? _ := check_typed_struct_size ContextCloseRequest (lay_close_request l) "haruki_assetstudio_context_close_request" in
  let? _ := check_typed_struct_size ContextCloseResponse (lay_close_response l) "haruki_assetstudio_context_close_response" in
  let? _ := check_typed_struct_size LimitsResponse (lay_limits l) "haruki_assetstudio_limits_response" in
  let? _ := check_typed_struct_size ObjectListRequest (lay_list_request l) "haruki_assetstudio_object_list_request" in
  let? _ := check_typed_struct_size ObjectListIntoRequest (lay_list_into l) "haruki_assetstudio_object_list_into_request_v1" in
  let? _ := check_typed_struct_size ObjectTableLayout (lay_object_table l) "haruki_assetstudio_object_table" in
  let? _ := check_typed_struct_size AssetObjectLayout (lay_asset_object l) "haruki_assetstudio_asset_object" in
  let? _ := check_typed_struct_size ReadItemRequestLayout (lay_item_request l) "haruki_assetstudio_object_read_item_request" in
  let? _ := check_typed_struct_size ReadBatchIntoRequest (lay_batch_into l) "haruki_assetstudio_object_read_batch_into_request_v1" in
  let? _ := check_typed_struct_size ReadItemResponseLayout (lay_item_response l) "haruki_assetstudio_object_read_item_response_v1" in
  check_typed_struct_size ReadBatchRetryResponse (lay_retry_response l) "haruki_assetstudio_object_read_batch_retry_response_v1".

Definition check_limits (status : Z) (l : Limits) : result unit AssetStudioFfiError :=
  let? _ := check_status "limits_v1" status (lim_status l) (lim_error_code l) in
  let? _ := check_own_size LimitsResponse (lim_struct_size l) "limits_v1" in
  let? _ := check_typed_abi_version "limits_v1 abi" (lim_abi l) 1 in
  let? _ := check_typed_abi_version "limits_v1 schema" (lim_schema l) 1 in
  check_typed_abi_version "limits_v1 limits" (lim_limits l) 1.

(** [verify_typed_abi]: the second check of [capabilities.status] repeats that of
    [call_typed_capabilities]. *)
Definition verify_typed_abi `{NativeLibrary L} (lib : L) : result unit AssetStudioFfiError * L :=
  let '(status, capabilities, lib) := capabilities_v1 lib in
  match check_capabilities status capabilities with
  | Err e => (Err e, lib)
  | Ok _ =>
      let '(status, layout, lib) := abi_layout_v1 lib in
      match check_layout status layout with
      | Err e => (Err e, lib)
      | Ok _ => let '(status, limits, lib) := limits_v1 lib in (check_limits status limits, lib)
      end
  end.

(** The symbols in the order in which they are looked up. *)
Definition SYMBOLS : list string :=
  map (fun name => "haruki_assetstudio_" +:+ name)
    ["free_string"; "free_buffer"; "result_free"; "capabilities_v1"; "abi_layout_v1"; "limits_v1"; "context_open_v1";
     "context_list_objects_size_v1"; "context_list_objects_into_v1"; "context_close_v1"; "context_read_objects_direct_retry_v1"].

Fixpoint load_symbols (symbol_error : string -> option string) (names : list string) : result unit AssetStudioFfiError :=
  match names with
  | [] => Ok tt
  | name :: names' =>
      match symbol_error name with
      | Some source => message ("missing required typed AssetStudioFFI symbol `" +:+ name +:+ "`: " +:+ source)
      | None => load_symbols symbol_error names'
      end
  end.

(** ** Environment *)

(** [EnvVarGuard]: a variable set for as long as the guard lives. *)
Definition guard_set (name value : string) (env : gmap string string) : option string * gmap string string := (env !! name, <[name := value]> env).
Definition guard_drop (name : string) (previous : option string) (env : gmap string string) : gmap string string :=
  match previous with Some value => <[name := value]> env | None => delete name env end.
Definition LIBRARY_PATH_VARIABLE : string := "HARUKI_ASSET_STUDIO_FFI_LIBRARY_PATH".

(** [preload_assetstudio_ffi_dependencies], with the names for Linux; a library that cannot be
    opened is skipped (the warning is not modelled). *)
Definition assetstudio_ffi_dependency_names : list string := ["libTexture2DDecoderNative.so"; "libAssetStudioFBXNative.so"].

Section Load.
Context `{NativeLibrary L} {D : Type}.
Variable exists_at : path -> bool.
Variable open_dependency : path -> result D string.
Variable open_library : string -> result L string.
Variable symbol_error : string -> option string.

Definition preload_dependency (dir : path) (name : string) : option D :=
  let dependency_path := path_join dir (components name) in
  if exists_at dependency_path then match open_dependency dependency_path with Ok library => Some library | Err _ => None end else None.

Definition preload_assetstudio_ffi_dependencies (library_path : string) : list D :=
  match path_parent (components library_path) with
  | None => []
  | Some dir => omap (preload_dependency dir) assetstudio_ffi_dependency_names
  end.

(** [LoadedAssetStudioFfiLibrary]; the guard is its saved value. *)
Record LoadedLibrary : Type := mkLoaded { loaded_library : L; dependency_handles : list D; env_guard : option string }.

(** [LoadedAssetStudioFfiLibrary::load]: the guard is dropped when it fails and kept by the
    loaded library otherwise. *)
Definition load (library_path : string) (env : gmap string string) : result LoadedLibrary AssetStudioFfiError * gmap string string :=
  let '(previous, env) := guard_set LIBRARY_PATH_VARIABLE library_path env in
  let dropped := guard_drop LIBRARY_PATH_VARIABLE previous env in
  let handles := preload_assetstudio_ffi_dependencies library_path in
  match open_library library_path with
  | Err source => (message ("failed to load native library `" +:+ library_path +:+ "`: " +:+ source), dropped)
  | Ok lib =>
      match load_symbols symbol_error SYMBOLS with
      | Err e => (Err e, dropped)
      | Ok _ =>
          let '(r, lib) := verify_typed_abi lib in
          match r with
          | Err e => (Err e, dropped)
          | Ok _ => (Ok (mkLoaded lib handles previous), env)
          end
      end
  end.
End Load.

(** ** Reading what the library returned *)

Definition cstring_new (what : string) (s : string) : result text_arg AssetStudioFfiError :=
  match nul_position s with
  | Some n => message (nul_error what n)
  | None => Ok (mkText s (as_c_int (zlen (as_bytes s))))
  end.

Definition optional_native_cstring (value : option string) : result (option text_arg) AssetStudioFfiError :=
  match value with
  | None => Ok None
  | Some s => let? t := cstring_new "native string contains nul byte" s in Ok (Some t)
  end.

Definition checked_c_int (value : Z) (name : string) : result Z AssetStudioFfiError :=
  if value <=? c_int_max then Ok value else message (name +:+ " is too large for typed AssetStudio ABI").

(** [typed_response_string], at an offset of the pointer. *)
Definition typed_response_string (p : pointer Byte.byte) (offset len : Z) : access (option string) :=
  match p with
  | None => Safe None
  | Some memory =>
      if len <=? 0 then Safe None
      else let* bs := from_raw_parts memory offset len in Safe (Some (from_utf8_lossy bs))
  end.

Definition typed_table_string (table : ObjectTable) (offset len : Z) : access (option string) :=
  match ot_string_data table with
  | None => Safe None
  | Some _ =>
      if (offset <? 0) || (len <=? 0) then Safe None
      else let* s := typed_response_string (ot_string_data table) offset len in Safe (non_empty s)
  end.

(** [slice::from_raw_parts] of an array of structures with a count. *)
Definition returned_array {A} (p : pointer A) (count : Z) : access (list A) :=
  match p with
  | None => Safe []
  | Some memory => if count <=? 0 then Safe [] else from_raw_parts memory 0 count
  end.

Definition asset_info (table : ObjectTable) (o : AssetObject) : access AssetStudioFfiAssetInfo :=
  let* name := typed_table_string table (ao_name_offset o) (ao_name_len o) in
  let* container := typed_table_string table (ao_container_offset o) (ao_container_len o) in
  let* atype := typed_table_string table (ao_type_offset o) (ao_type_len o) in
  let* unique := typed_table_string table (ao_unique_offset o) (ao_unique_len o) in
  let* source := typed_table_string table (ao_source_offset o) (ao_source_len o) in
  Safe (mkAssetInfo (Z.max (ao_index o) 0) name container atype (ao_type_id o) (ao_path_id o) unique (ao_size o) source).

Definition typed_list_success_response (response : ObjectTable) : access ListResponse :=
  let* objects := returned_array (ot_objects response) (ot_returned_count response) in
  let* assets := access_all (asset_info response) objects in
  Safe (mkListResponse true
          (if negb (ot_has_more response =? 0) && (0 <=? ot_next_offset response) then Some (ot_next_offset response) else None) assets None).

Definition failure (what : string) (status response_status error_code : Z) : string :=
  what +:+ " failed: status=" +:+ pretty status +:+ " response_status=" +:+ pretty response_status +:+ " error_code=" +:+ pretty error_code.

Definition typed_list_error_response (status : Z) (response : ObjectTable) : ListResponse :=
  mkListResponse false None [] (Some (failure "typed context_list_objects_v1" status (ot_status response) (ot_error_code response))).

(** [typed_read_string]. *)
Definition typed_read_string (response : ReadResult) (offset len : Z) : access (option string) :=
  match rr_string_data response with
  | None => Safe None
  | Some memory =>
      if (offset <? 0) || (len <=? 0) then Safe None
      else let* bs := from_raw_parts memory offset len in Safe (Some (from_utf8_lossy bs))
  end.

(** [typed_read_payload]. *)
Definition typed_read_payload (response : ReadResult) (item : ReadItem) : access bytes :=
  match rr_payload response with
  | None => Safe []
  | Some memory =>
      if (ri_payload_offset item <? 0) || (ri_payload_len item <=? 0) then Safe []
      else
        let stop := ri_payload_offset item + ri_payload_len item in
        if usize_max <? stop then Safe []
        else if Z.max (rr_payload_len response) 0 <? stop then Safe []
        else from_raw_parts memory (ri_payload_offset item) (ri_payload_len item)
  end.

Definition typed_read_items (response : ReadResult) : access (list ReadItem) := returned_array (rr_items response) (rr_returned_count response).

Definition read_response (response : ReadResult) (item : ReadItem) : access ReadResponse :=
  let ok := ri_status item =? 0 in
  let* kind := typed_read_string response (ri_kind_offset item) (ri_kind_len item) in
  let* extension := typed_read_string response (ri_extension_offset item) (ri_extension_len item) in
  let* error := (if ok then Safe None
                 else let* text := typed_read_string response (ri_error_offset item) (ri_error_len item) in
                      Safe (Some (default ("typed object read failed: path_id=" +:+ pretty (ri_path_id item) +:+ " status="
                                           +:+ pretty (ri_status item) +:+ " error_code=" +:+ pretty (ri_error_code item)) text))) in
  Safe (mkReadResponse ok kind extension error).

Definition read_ok (status : Z) (response : ReadResult) : bool :=
  ((status =? 0) && (rr_status response =? 0)) || (status =? 9) || (rr_status response =? 9).

Definition typed_read_objects_response (requested : nat) (status : Z) (response : ReadResult) : access ReadBatchResponse :=
  let* items := typed_read_items response in
  let* reads := access_all (read_response response) items in
  Safe (mkReadBatchResponse (read_ok status response) reads (Z.max (rr_failed_count response) 0)
          (if read_ok status response then None
           else Some ("typed context_read_objects_direct_retry_v1 failed: requested=" +:+ pretty requested +:+ " status=" +:+ pretty status
                      +:+ " response_status=" +:+ pretty (rr_status response) +:+ " error_code=" +:+ pretty (rr_error_code response)))).

(** [write_native_payload_bundle]. *)
Definition total_len (entries : list entry) : option Z :=
  fold_left (fun total e => total ≫= fun t => checked_usize (t + 4) ≫= fun t => checked_usize (t + 8)
               ≫= fun t => checked_usize (t + zlen (as_bytes e.1)) ≫= fun t => checked_usize (t + zlen e.2))
    entries (Some NATIVE_AOT_PAYLOAD_BUNDLE_V2_HEADER_LEN).

Fixpoint write_entries (entries : list entry) : result bytes AssetStudioFfiError :=
  match entries with
  | [] => Ok []
  | (name, payload) :: entries' =>
      if u32_max <? zlen (as_bytes name) then message "native payload bundle entry name is too large"
      else
        let? rest := write_entries entries' in
        Ok (to_le_bytes 4 (zlen (as_bytes name)) ++ to_le_bytes 8 (zlen payload) ++ as_bytes name ++ payload ++ rest)
  end.

Definition write_native_payload_bundle (entries : list entry) : result bytes AssetStudioFfiError :=
  if bool_decide (entries = []) then Ok []
  else
    match total_len entries with
    | None => message "native payload bundle is too large"
    | Some _ =>
        let? body := write_entries entries in
        Ok (to_le_bytes 4 NATIVE_AOT_PAYLOAD_BUNDLE_V2_MAGIC ++ to_le_bytes 2 NATIVE_AOT_PAYLOAD_BUNDLE_V2_VERSION
            ++ to_le_bytes 2 NATIVE_AOT_PAYLOAD_BUNDLE_V2_HEADER_LEN ++ to_le_bytes 4 (truncate 32 (zlen entries))
            ++ to_le_bytes 8 (sumZ (map (fun e => zlen e.2) entries)) ++ body)
    end.

Definition has_payload (item : ReadItem) : bool := (ri_status item =? 0) && (0 <? ri_payload_len item).

Definition bundle_entries (response : ReadResult) (items : list ReadItem) : access (list entry) :=
  access_all (fun item => let* payload := typed_read_payload response item in Safe (pretty (ri_path_id item), payload))
    (List.filter has_payload items).

Definition typed_read_objects_payload_bundle (response : ReadResult) : access (result bytes AssetStudioFfiError) :=
  let* items := typed_read_items response in
  let* entries := bundle_entries response items in
  Safe (write_native_payload_bundle entries).

(** ** Calls *)

Inductive native_call : Type :=
| CallOpen (args : OpenArgs)
| CallListSize (context_id offset limit : Z)
| CallListInto (context_id offset limit buffer_len : Z)
| CallClose (context_id : Z)
| CallRead (context_id : Z) (items : list ReadItemArgs) (count : Z)
| FreeBuffer (address : Z)
| FreeResult (handle : Z).

Section Calls.
Context `{NativeLibrary L}.

Record session : Type := mkSession { library : L; calls : list native_call }.

(** An outcome together with the library after it. *)
Abbreviation outcome T := (access (result T AssetStudioFfiError) * session)%type.

Definition free_if_any (address : option Z) (s : session) : session :=
  match address with
  | Some a => mkSession (free_buffer a (library s)) (calls s ++ [FreeBuffer a])
  | None => s
  end.

(** [join] of the asset types, as [CString]s of [open_context]. *)
Definition open_args (request : AssetStudioFfiContextOpenRequest) : result OpenArgs AssetStudioFfiError :=
  let? input := cstring_new "native context_open input path contains nul byte" (input_path request) in
  let? version := optional_native_cstring (open_unity_version request) in
  let? types := cstring_new "native context_open asset types contain nul byte" (join_with "," (open_asset_types request)) in
  Ok (mkOpenArgs input version types (if load_all_assets request then 1 else 0)).

Definition open_response (status : Z) (r : OpenResult) : OpenResponse :=
  let ok := (status =? 0) && (cor_status r =? 0) in
  mkOpenResponse ok (cor_context_id r) (Z.max (cor_exportable_count r) 0) []
    (negb (cor_has_more r =? 0) || (0 <? cor_exportable_count r))
    (if ok then None else Some (failure "typed context_open_v1" status (cor_status r) (cor_error_code r))).

(** [open_context]: the version text is read, then the buffer is freed. *)
Definition open_context (request : AssetStudioFfiContextOpenRequest) (s : session) : outcome OpenResponse :=
  match open_args request with
  | Err e => (Safe (Err e), s)
  | Ok args =>
      let '(status, r, lib) := context_open_v1 args (library s) in
      let s := mkSession lib (calls s ++ [CallOpen args]) in
      match typed_response_string (cor_unity_version r) 0 (cor_unity_version_len r) with
      | Undefined => (Undefined, s)
      | Safe _ => (Safe (Ok (open_response status r)), free_if_any (cor_buffer r) s)
      end
  end.

Definition list_context_objects (context_id offset limit : Z) (s : session) : outcome ListResponse :=
  match (let? offset := checked_c_int offset "context_list_objects offset" in
         let? limit := checked_c_int limit "context_list_objects limit" in Ok (offset, limit)) with
  | Err e => (Safe (Err e), s)
  | Ok (offset, limit) =>
      let '(status, size, lib) := context_list_objects_size_v1 context_id offset limit (library s) in
      let s := mkSession lib (calls s ++ [CallListSize context_id offset limit]) in
      if negb (status =? 0) || negb (ot_status size =? 0) then (Safe (Ok (typed_list_error_response status size)), s)
      else
        let buffer_len := Z.max (ot_buffer_len size) 0 in
        let '(status, response, lib) := context_list_objects_into_v1 context_id offset limit buffer_len (library s) in
        let s := mkSession lib (calls s ++ [CallListInto context_id offset limit buffer_len]) in
        if (status =? 0) && (ot_status response =? 0)
        then (let* r := typed_list_success_response response in Safe (Ok r), s)
        else (Safe (Ok (typed_list_error_response status response)), s)
  end.

Definition close_context (context_id : Z) (s : session) : outcome CloseResponse :=
  let '(status, r, lib) := context_close_v1 context_id (library s) in
  let ok := (status =? 0) && (ccr_status r =? 0) in
  (Safe (Ok (mkCloseResponse ok (if ok then None else Some (failure "typed context_close_v1" status (ccr_status r) (ccr_error_code r))))),
   mkSession lib (calls s ++ [CallClose context_id])).

Fixpoint read_items (objects : list ReadObjectItemRequest) : result (list ReadItemArgs) AssetStudioFfiError :=
  match objects with
  | [] => Ok []
  | o :: objects' =>
      let? kind := cstring_new "native read kind contains nul byte" (item_kind o) in
      let? format := cstring_new "native read image format contains nul byte" (item_image_format o) in
      let? rest := read_items objects' in
      Ok (mkReadItemArgs (item_path_id o) kind format :: rest)
  end.

(** [read_context_objects]: the response and its payloads are copied, then the result is
    freed, and only then a failure to build the bundle is returned. *)
Definition read_context_objects (context_id : Z) (objects : list ReadObjectItemRequest) (s : session)
  : outcome (Z * ReadBatchResponse * bytes) :=
  match read_items objects with
  | Err e => (Safe (Err e), s)
  | Ok items =>
      let count := as_c_int (zlen items) in
      let '(status, response, lib) := context_read_objects_direct_retry_v1 context_id items count (library s) in
      let s := mkSession lib (calls s ++ [CallRead context_id items count]) in
      match (let* output := typed_read_objects_response (length objects) status response in
             let* payload := typed_read_objects_payload_bundle response in Safe (output, payload)) with
      | Undefined => (Undefined, s)
      | Safe (output, payload) =>
          let handle := rr_result_handle response in
          let s := if handle =? 0 then s else mkSession (result_free handle (library s)) (calls s ++ [FreeResult handle]) in
          (Safe (let? payload := payload in
                 Ok (if batch_success output then 0 else Z.max status (rr_status response), output, payload)), s)
      end
  end.

Definition and_then {A B} (x : outcome A) (k : A -> B) : outcome B :=
  (let* r := x.1 in Safe (let? v := r in Ok (k v)), x.2).

Definition no_read_item : ReadResponse := mkReadResponse false None None (Some "typed context_read_object returned no read item").

(** [call_typed_request]. *)
Definition call_typed_request (request : AssetStudioFfiRequest) (s : session) : outcome (Z * AssetStudioFfiResponse * bytes) :=
  match request with
  | ContextOpen request =>
      and_then (open_context request s) (fun r => (if open_success r then 0 else 100, RespOpen r, []))
  | ContextListObjects context_id offset limit =>
      and_then (list_context_objects context_id offset limit s) (fun r => (if list_success r then 0 else 100, RespList r, []))
  | ContextClose context_id =>
      and_then (close_context context_id s) (fun r => (if close_success r then 0 else 100, RespClose r, []))
  | ContextReadObject context_id item =>
      and_then (read_context_objects context_id [item] s) (fun '(status, batch, payload) =>
        (status, RespRead (default no_read_item (head (reads batch))), payload))
  | ContextReadObjects context_id objects =>
      and_then (read_context_objects context_id objects s) (fun '(status, batch, payload) => (status, RespReadBatch batch, payload))
  end.
End Calls.

(** ** The checks are exact *)

(** The sizes of the structures, on the 64-bit targets. *)
Example structure_sizes :
  map size_of [CapabilitiesResponse; ContextOpenRequest; ContextOpenResponse; ContextCloseRequest; ContextCloseResponse; LimitsResponse;
               ObjectListRequest; ObjectListIntoRequest; ObjectTableLayout; AssetObjectLayout; ReadItemRequestLayout; ReadBatchIntoRequest;
               ReadItemResponseLayout; ReadBatchRetryResponse; AbiLayoutResponse]
  = [144; 80; 96; 24; 48; 88; 48; 64; 112; 104; 40; 72; 80; 168; 88].
Proof. vm_compute. reflexivity. Qed.

Definition capabilities_match (status : Z) (c : Capabilities) : Prop :=
  status = 0 /\ cap_status c = 0 /\ cap_struct_size c = 144 /\ cap_abi c = 1 /\ cap_schema c = 1 /\ cap_context c = 1 /\ cap_object_table c = 1
  /\ cap_object_table_into c = 1 /\ cap_read_batch c = 1 /\ cap_read_batch_into c = 1 /\ cap_direct_retry c = 1.

Definition layout_matches (status : Z) (l : AbiLayout) : Prop :=
  status = 0 /\ lay_status l = 0 /\ lay_struct_size l = 88 /\ lay_abi l = 1 /\ lay_schema l = 1 /\ lay_version l = 1 /\ lay_capabilities l = 144
  /\ lay_open_request l = 80 /\ lay_open_response l = 96 /\ lay_close_request l = 24 /\ lay_close_response l = 48 /\ lay_limits l = 88
  /\ lay_list_request l = 48 /\ lay_list_into l = 64 /\ lay_object_table l = 112 /\ lay_asset_object l = 104 /\ lay_item_request l = 40
  /\ lay_batch_into l = 72 /\ lay_item_response l = 80 /\ lay_retry_response l = 168.

Definition limits_match (status : Z) (l : Limits) : Prop :=
  status = 0 /\ lim_status l = 0 /\ lim_struct_size l = 88 /\ lim_abi l = 1 /\ lim_schema l = 1 /\ lim_limits l = 1.

Lemma check_version_Ok name native expected : check_typed_abi_version name native expected = Ok tt <-> native = expected.
Proof. unfold check_typed_abi_version. destruct (Z.eqb_spec native expected); by split. Qed.

Lemma check_size_Ok fields native name : 0 <= size_of fields -> check_typed_struct_size fields native name = Ok tt <-> native = size_of fields.
Proof.
  intros Hs. unfold check_typed_struct_size. destruct (Z.leb_spec 0 native), (Z.eqb_spec native (size_of fields)); simpl; split; try done; lia.
Qed.

Lemma check_own_Ok fields native name : check_own_size fields native name = Ok tt <-> native = as_c_int (size_of fields).
Proof. unfold check_own_size. destruct (Z.eqb_spec native (as_c_int (size_of fields))); by split. Qed.

Lemma check_status_Ok name status response code : check_status name status response code = Ok tt <-> status = 0 /\ response = 0.
Proof. unfold check_status. destruct (Z.eqb_spec status 0), (Z.eqb_spec response 0); simpl; split; try done; by intros []. Qed.

Lemma and_check (r : result unit AssetStudioFfiError) k : result_bind r (fun _ => k) = Ok tt <-> r = Ok tt /\ k = Ok tt.
Proof. destruct r as [[]|e]; simpl; split; [done|by intros [_ ?]|done|by intros [? _]]. Qed.

Ltac open_checks := rewrite ?and_check, ?check_status_Ok, ?check_own_Ok, ?check_version_Ok, ?check_size_Ok by (vm_compute; discriminate).

Lemma check_capabilities_Ok status c : check_capabilities status c = Ok tt <-> capabilities_match status c.
Proof.
  unfold check_capabilities, capabilities_match. open_checks. change (as_c_int (size_of CapabilitiesResponse)) with 144. tauto.
Qed.

Lemma check_layout_Ok status l : check_layout status l = Ok tt <-> layout_matches status l.
Proof.
  unfold check_layout, layout_matches. open_checks.
  repeat match goal with |- context [size_of ?f] => let n := eval vm_compute in (size_of f) in change (size_of f) with n end.
  change (as_c_int 88) with 88. tauto.
Qed.

Lemma check_limits_Ok status l : check_limits status l = Ok tt <-> limits_match status l.
Proof.
  unfold check_limits, limits_match. open_checks. change (as_c_int (size_of LimitsResponse)) with 88. tauto.
Qed.

(** The handshake with the native library is exact.  [verify_typed_abi] succeeds exactly when
    every query succeeds, every version is the one the crate was written for, and every
    structure has in the library the size it has in the crate; a later query is made only when
    the earlier ones matched. *)
Theorem abi_check_exact `{NativeLibrary L} (lib : L) :
  let '(status1, capabilities, lib1) := capabilities_v1 lib in
  let '(status2, layout, lib2) := abi_layout_v1 lib1 in
  let '(status3, limits, lib3) := limits_v1 lib2 in
  ((verify_typed_abi lib).1 = Ok tt
     <-> capabilities_match status1 capabilities /\ layout_matches status2 layout /\ limits_match status3 limits)
  /\ (verify_typed_abi lib).2 = (if decide (check_capabilities status1 capabilities = Ok tt) then
                                  if decide (check_layout status2 layout = Ok tt) then lib3 else lib2
                                else lib1).
Proof.
  unfold verify_typed_abi. destruct (capabilities_v1 lib) as [[status1 capabilities] lib1].
  destruct (abi_layout_v1 lib1) as [[status2 layout] lib2]. destruct (limits_v1 lib2) as [[status3 limits] lib3].
  rewrite <- check_capabilities_Ok, <- check_layout_Ok, <- check_limits_Ok.
  destruct (check_capabilities status1 capabilities) as [[]|e]; [|simpl; split; [split; [done|by intros []]|done]].
  destruct (check_layout status2 layout) as [[]|e]; [|simpl; split; [split; [done|by intros (_ & ? & _)]|done]].
  simpl. split; [|done]. split; [done|]. by intros (_ & _ & ?).
Qed.

(** ** The payload bundle of a batch is read back *)

Lemma checked_usize_Some z v : checked_usize z = Some v -> v = z /\ z <= usize_max.
Proof. unfold checked_usize. destruct (Z.leb_spec z usize_max); [|done]. by intros [= <-]. Qed.

Lemma total_len_spec entries t0 t :
  fold_left (fun total e => total ≫= fun t => checked_usize (t + 4) ≫= fun t => checked_usize (t + 8)
               ≫= fun t => checked_usize (t + zlen (as_bytes e.1)) ≫= fun t => checked_usize (t + zlen e.2)) entries (Some t0) = Some t ->
  t = t0 + zlen (interleaved entries) /\ (t0 <= usize_max -> t <= usize_max).
Proof.
  revert t0. induction entries as [|e entries IH]; intros t0; cbn [fold_left].
  { intros [= <-]. unfold interleaved. simpl. change (zlen []) with 0. lia. }
  cbn [mbind option_bind]. intros E.
  assert (Hnone : fold_left (fun total e => total ≫= fun t => checked_usize (t + 4) ≫= fun t => checked_usize (t + 8)
               ≫= fun t => checked_usize (t + zlen (as_bytes e.1)) ≫= fun t => checked_usize (t + zlen e.2)) entries None = None)
    by (clear; by induction entries).
  destruct (checked_usize (t0 + 4)) as [t1|] eqn:E1; cbn [mbind option_bind] in E; [|congruence].
  destruct (checked_usize (t1 + 8)) as [t2|] eqn:E2; cbn [mbind option_bind] in E; [|congruence].
  destruct (checked_usize (t2 + _)) as [t3|] eqn:E3; cbn [mbind option_bind] in E; [|congruence].
  destruct (checked_usize (t3 + _)) as [t4|] eqn:E4; [|congruence].
  apply checked_usize_Some in E1 as [-> _], E2 as [-> _], E3 as [-> _], E4 as [-> H4]. apply IH in E as [-> Hmax].
  unfold interleaved. cbn [map concat]. rewrite zlen_app. unfold encode_entry, encode_header. cbn [fst snd].
  rewrite !zlen_app. rewrite !zlen_to_le_bytes. split; [lia|].
  intros _. apply Hmax. done.
Qed.

Lemma is_ascii_valid s : is_ascii s = true -> utf8_valid (as_bytes s) = true.
Proof.
  induction s as [|a s IH]; [done|]. intros Hs. apply andb_true_iff in Hs as [Ha Hs].
  change (as_bytes (String a s)) with (byte_of_ascii a :: as_bytes s). cbn [utf8_valid].
  assert (byte_in 0 127 (byte_of_ascii a) = true) as ->; [|by apply IH].
  revert Ha. clear. destruct a as [[] [] [] [] [] [] [] []]; by vm_compute.
Qed.

Lemma pretty_N_ascii x s : is_ascii s = true -> is_ascii (pretty_N_go x s) = true.
Proof.
  revert s. induction (N.lt_wf_0 x) as [x _ IH]; intros s Hs.
  destruct (decide (x = 0%N)) as [->|]; [by rewrite pretty_N_go_0|].
  rewrite pretty_N_go_step by lia. apply IH; [apply N.div_lt; lia|].
  cbn [is_ascii]. rewrite Hs, andb_true_r. unfold pretty_N_char. by repeat case_match.
Qed.

(** The text of an integer. *)
Lemma pretty_Z_valid (z : Z) : utf8_valid (as_bytes (pretty z)) = true.
Proof.
  assert (HN : forall n : N, is_ascii (pretty n) = true).
  { intros n. unfold pretty, pretty_N. case_decide; [done|]. by apply pretty_N_ascii. }
  apply is_ascii_valid. unfold pretty, pretty_Z. destruct z; [done|apply (HN (N.pos p))|apply (HN (N.pos p))].
Qed.

Lemma write_entries_spec entries body :
  write_entries entries = Ok body -> body = interleaved entries /\ Forall (fun e => zlen (as_bytes e.1) <= u32_max) entries.
Proof.
  revert body. induction entries as [|[name payload] entries IH]; intros body; cbn [write_entries].
  { intros [= <-]. by split. }
  destruct (Z.ltb_spec u32_max (zlen (as_bytes name))); [done|].
  destruct (write_entries entries) as [rest|]; [|done]. cbn [result_bind]. intros [= <-].
  destruct (IH rest eq_refl) as [-> Hall]. split; [|by constructor].
  unfold interleaved. cbn [map concat]. unfold encode_entry, encode_header. cbn [fst snd]. by rewrite <- !app_assoc.
Qed.

(** A bundle that was written is read back. *)
Lemma bundle_round_trip entries b :
  entries <> [] -> Forall (fun e => utf8_valid (as_bytes e.1) = true) entries -> in_width 32 (zlen entries) ->
  write_native_payload_bundle entries = Ok b -> parse_payload_bundle_borrowed b = Ok entries.
Proof.
  intros Hne Hutf Hn E. unfold write_native_payload_bundle in E. rewrite bool_decide_eq_false_2 in E by done.
  destruct (total_len entries) as [t|] eqn:Et; [|done]. apply total_len_spec in Et as [-> Hmax].
  destruct (write_entries entries) as [body|] eqn:Eb; [|done]. apply write_entries_spec in Eb as [-> Hnames]. cbn [result_bind] in E.
  rewrite truncate_small in E by done.
  assert (b = bundle_v2 [] entries) as ->.
  { unfold bundle_v2, header_v2, data_bytes. cbn [app]. rewrite <- !app_assoc. change (zlen (@nil Byte.byte)) with 0. rewrite Z.add_0_r. congruence. }
  clear E.
  assert (Hlen : 20 + zlen (interleaved entries) <= usize_max) by (apply Hmax; vm_compute; discriminate).
  assert (Hsize : zlen (bundle_v2 [] entries) <= usize_max).
  { unfold bundle_v2. rewrite !zlen_app, zlen_header_v2. change (zlen (@nil Byte.byte)) with 0. lia. }
  destruct (parse_v2_iff (drop 4 (bundle_v2 [] entries)) entries) as [_ Hparse].
  { exact Hsize. }
  apply Hparse. clear Hparse.
  split; [split; [|done]|].
  - rewrite Forall_forall in *. intros e He. split; [by apply Hutf|]. specialize (Hnames e He). pose proof (data_bytes_bound entries) as Hd.
    split; [split; [apply zlen_nonneg|]; cbn [header_of fst]; unfold u32_max, u_max in Hnames; lia|]. split; [apply zlen_nonneg|].
    cbn [header_of snd]. assert (zlen e.2 <= data_bytes entries).
    { clear -He. unfold data_bytes. induction entries as [|x l IH]; [by apply elem_of_nil in He|]. cbn [map sumZ foldr].
      assert (Hrest : 0 <= sumZ (map (fun e => zlen e.2) l)) by (apply sumZ_nonneg; rewrite Forall_map; apply Forall_true; intros; apply zlen_nonneg).
      pose proof (zlen_nonneg x.2). unfold sumZ in *. apply elem_of_cons in He as [->|He]; [lia|]. specialize (IH He). lia. }
    unfold usize_max, u64_max, u_max in Hlen. lia.
  - by exists [].
Qed.

Lemma access_all_Forall2 {A B} (f : A -> access B) l ys : access_all f l = Safe ys <-> Forall2 (fun x y => f x = Safe y) l ys.
Proof.
  revert ys. induction l as [|x l IH]; intros ys; cbn [access_all].
  - split; [by intros [= <-] | by inversion 1].
  - destruct (f x) as [y|] eqn:E; simpl.
    + destruct (access_all f l) as [zs|]; simpl; split.
      * intros [= <-]. constructor; [done | by apply IH].
      * inversion 1 as [|? ? ? ? Ey Hl]; subst. apply IH in Hl. congruence.
      * done.
      * inversion 1 as [|? ? ? ? Ey Hl]; subst. apply IH in Hl. congruence.
    + split; [done|]. inversion 1; congruence.
Qed.

Lemma access_all_Safe {A B} (f : A -> access B) l : (exists ys, access_all f l = Safe ys) <-> Forall (fun x => exists y, f x = Safe y) l.
Proof.
  split.
  - intros [ys Hys%access_all_Forall2]. induction Hys; constructor; eauto.
  - induction 1 as [|x l [y E] _ [ys IH]]; cbn [access_all]; [by eexists|]. rewrite E, IH. by eexists.
Qed.

(** C18: The payloads of a batch survive the bundle.  What [typed_read_objects_payload_bundle]
    builds from an answer of the library, the exporter's parser reads back as one entry for
    every object that was read with a payload, in order, named by its path id and with the
    bytes of its payload; without such objects there is no bundle. *)
Theorem batch_payloads_read_back response b :
  rr_returned_count response <= c_int_max ->
  typed_read_objects_payload_bundle response = Safe (Ok b) ->
  exists items entries, typed_read_items response = Safe items
    /\ Forall2 (fun item e => e.1 = pretty (ri_path_id item) /\ typed_read_payload response item = Safe e.2) (List.filter has_payload items) entries
    /\ (if decide (entries = []) then b = [] else parse_payload_bundle_borrowed b = Ok entries).
Proof.
  intros Hc E. unfold typed_read_objects_payload_bundle in E. destruct (typed_read_items response) as [items|] eqn:Ei; [|done]. cbn in E.
  destruct (bundle_entries response items) as [entries|] eqn:Ee; [|done]. cbn in E. injection E as E. exists items, entries. split; [done|].
  apply access_all_Forall2 in Ee. assert (Hes : Forall2 (fun item e => e.1 = pretty (ri_path_id item) /\ typed_read_payload response item = Safe e.2)
    (List.filter has_payload items) entries).
  { eapply Forall2_impl; [exact Ee|]. intros item e. cbn beta. destruct (typed_read_payload response item); [|done]. by intros [= <-]. }
  split; [done|]. case_decide as Hn; [by rewrite Hn in E; injection E as <-|]. apply bundle_round_trip; [done| | |done].
  - clear -Hes. induction Hes as [|item e l l' [He _] _ IH]; constructor; [|done]. rewrite He. apply pretty_Z_valid.
  - assert (Hlen : zlen items <= c_int_max).
    { unfold typed_read_items, returned_array in Ei. destruct (rr_items response) as [mem|]; [|injection Ei as <-; vm_compute; discriminate].
      destruct (Z.leb_spec (rr_returned_count response) 0) as [|Hpos]; [injection Ei as <-; vm_compute; discriminate|].
      unfold from_raw_parts in Ei. destruct (Z.leb_spec (0 + rr_returned_count response) (zlen mem)); [|done]. injection Ei as <-.
      rewrite zlen_slice by lia. lia. }
    apply Forall2_length in Hes. pose proof (List.filter_length_le has_payload items) as Hf. unfold in_width, c_int_max, zlen in *. lia.
Qed.

(** ** Which reads are defined *)

(** The memory behind the pointers is as long as the answer says. *)
Definition backed (response : ReadResult) : Prop :=
  (forall m, rr_items response = Some m -> rr_returned_count response <= zlen m)
  /\ (forall m, rr_payload response = Some m -> rr_payload_len response <= zlen m)
  /\ (forall m, rr_string_data response = Some m -> rr_string_data_len response = zlen m).

Definition string_inside (response : ReadResult) (offset len : Z) : Prop :=
  rr_string_data response = None \/ offset < 0 \/ len <= 0 \/ offset + len <= rr_string_data_len response.

(** The strings that are read of an item lie in the string data. *)
Definition item_inside (response : ReadResult) (item : ReadItem) : Prop :=
  string_inside response (ri_kind_offset item) (ri_kind_len item)
  /\ string_inside response (ri_extension_offset item) (ri_extension_len item)
  /\ (ri_status item <> 0 -> string_inside response (ri_error_offset item) (ri_error_len item)).

Lemma read_string_Safe response offset len :
  backed response -> (exists s, typed_read_string response offset len = Safe s) <-> string_inside response offset len.
Proof.
  intros (_ & _ & Hs). unfold typed_read_string, string_inside. destruct (rr_string_data response) as [m|]; [|split; [by left|by eexists]].
  specialize (Hs m eq_refl). unfold from_raw_parts. destruct (Z.ltb_spec offset 0), (Z.leb_spec len 0); cbn [orb];
    try (split; [intros _; lia|intros _; by eexists]).
  rewrite Hs. destruct (Z.leb_spec (offset + len) (zlen m)); cbn; split; try (intros _; by eexists); try (intros _; lia).
  - by intros [].
  - intros [?|[?|[?|?]]]; [done|lia..].
Qed.

Lemma read_payload_Safe response item : backed response -> exists p, typed_read_payload response item = Safe p.
Proof.
  intros (_ & Hp & _). unfold typed_read_payload. destruct (rr_payload response) as [m|]; [|by eexists]. specialize (Hp m eq_refl).
  destruct (Z.ltb_spec (ri_payload_offset item) 0), (Z.leb_spec (ri_payload_len item) 0); cbn [orb]; try by eexists.
  case_match; [by eexists|]. destruct (Z.ltb_spec (Z.max (rr_payload_len response) 0) (ri_payload_offset item + ri_payload_len item)); [by eexists|].
  unfold from_raw_parts. destruct (Z.leb_spec (ri_payload_offset item + ri_payload_len item) (zlen m)); [by eexists | lia].
Qed.

Lemma read_items_Safe response : backed response -> exists items, typed_read_items response = Safe items.
Proof.
  intros (Hi & _ & _). unfold typed_read_items, returned_array. destruct (rr_items response) as [m|]; [|by eexists]. specialize (Hi m eq_refl).
  case_match; [by eexists|]. unfold from_raw_parts. destruct (Z.leb_spec (0 + rr_returned_count response) (zlen m)); [by eexists | lia].
Qed.

Lemma read_response_Safe response item : backed response -> (exists r, read_response response item = Safe r) <-> item_inside response item.
Proof.
  intros Hb. unfold read_response, item_inside. rewrite <- !read_string_Safe by done.
  destruct (typed_read_string response (ri_kind_offset item) (ri_kind_len item)); cbn; [|split; [by intros []|by intros [[] _]]].
  destruct (typed_read_string response (ri_extension_offset item) (ri_extension_len item)); cbn; [|split; [by intros []|by intros (_ & [] & _)]].
  destruct (Z.eqb_spec (ri_status item) 0) as [Hz|Hz]; cbn.
  { split; [|by eexists]. intros _. split_and!; [by eexists|by eexists|done]. }
  destruct (typed_read_string response (ri_error_offset item) (ri_error_len item)); cbn; split; try (intros; by eauto 6).
  - by intros [].
  - intros (_ & _ & He). by destruct (He Hz).
Qed.

(** C36: Which reads of an answer are defined.  When the memory behind an answer is as long as
    the answer says, building the payload bundle never reads outside it, whatever offsets and
    lengths the items have.  Building the response does so exactly when some item has a string
    outside the string data: its length is not consulted. *)
Theorem answer_reads_defined requested status response :
  backed response ->
  (exists r, typed_read_objects_payload_bundle response = Safe r)
  /\ exists items, typed_read_items response = Safe items
     /\ ((exists r, typed_read_objects_response requested status response = Safe r) <-> Forall (item_inside response) items).
Proof.
  intros Hb. destruct (read_items_Safe response Hb) as [items Ei]. unfold typed_read_objects_payload_bundle, typed_read_objects_response.
  rewrite Ei. cbn [access_bind]. split.
  - assert (Hes : exists es, bundle_entries response items = Safe es).
    { apply access_all_Safe, Forall_true. intros item. destruct (read_payload_Safe response item Hb) as [p ->]. by eexists. }
    destruct Hes as [es ->]. by eexists.
  - exists items. split; [done|].
    assert (Hiff : Forall (item_inside response) items <-> Forall (fun item => exists r, read_response response item = Safe r) items)
      by (split; (intros Hf; eapply Forall_impl; [exact Hf|]); intros item; by rewrite read_response_Safe).
    rewrite Hiff, <- access_all_Safe. destruct (access_all (read_response response) items); cbn; split; intros []; by eauto.
Qed.

(** ** What is called *)

Section CallsExact.
Context `{NativeLibrary L}.

(** What has to be released after a call, by the answer the library gives to it. *)
Definition released (call : native_call) (lib : L) : list native_call :=
  match call with
  | CallOpen args => match cor_buffer (context_open_v1 args lib).1.2 with Some a => [FreeBuffer a] | None => [] end
  | CallRead context_id items count =>
      let handle := rr_result_handle (context_read_objects_direct_retry_v1 context_id items count lib).1.2 in
      if handle =? 0 then [] else [FreeResult handle]
  | _ => []
  end.

Definition list_calls (context_id offset limit : Z) (lib : L) : list native_call :=
  if (c_int_max <? offset) || (c_int_max <? limit) then []
  else
    let '(status, size, _) := context_list_objects_size_v1 context_id offset limit lib in
    CallListSize context_id offset limit ::
      if (status =? 0) && (ot_status size =? 0) then [CallListInto context_id offset limit (Z.max (ot_buffer_len size) 0)] else [].

Definition read_calls (context_id : Z) (objects : list ReadObjectItemRequest) (lib : L) : list native_call :=
  match read_items objects with
  | Err _ => []
  | Ok items => let call := CallRead context_id items (as_c_int (zlen items)) in call :: released call lib
  end.

(** The calls a request makes. *)
Definition request_calls (request : AssetStudioFfiRequest) (lib : L) : list native_call :=
  match request with
  | ContextOpen request => match open_args request with Err _ => [] | Ok args => CallOpen args :: released (CallOpen args) lib end
  | ContextListObjects context_id offset limit => list_calls context_id offset limit lib
  | ContextClose context_id => [CallClose context_id]
  | ContextReadObject context_id item => read_calls context_id [item] lib
  | ContextReadObjects context_id objects => read_calls context_id objects lib
  end.

Lemma and_then_Safe {A B} (x : access (result A AssetStudioFfiError) * session (L := L)) (k : A -> B) r s :
  and_then x k = (Safe r, s) -> exists r', x = (Safe r', s) /\ r = (let? v := r' in Ok (k v)).
Proof. destruct x as [[r'|] s']; unfold and_then; cbn; [|done]. intros [= <- <-]. eauto. Qed.

Lemma open_context_calls request s r s' :
  open_context request s = (Safe r, s') -> calls s' = calls s ++ request_calls (ContextOpen request) (library s).
Proof.
  unfold open_context. cbn [request_calls]. destruct (open_args request) as [args|e]; [|intros [= _ <-]; by rewrite app_nil_r].
  cbn [released]. destruct (context_open_v1 args (library s)) as [[status answer] lib]. cbn [fst snd].
  case_match; [|done]. intros [= _ <-]. unfold free_if_any. destruct (cor_buffer answer); cbn [calls]; [by rewrite <- app_assoc | done].
Qed.

Lemma list_context_calls context_id offset limit s r s' :
  list_context_objects context_id offset limit s = (Safe r, s') -> calls s' = calls s ++ list_calls context_id offset limit (library s).
Proof.
  unfold list_context_objects, list_calls, checked_c_int. rewrite (Z.ltb_antisym offset), (Z.ltb_antisym limit).
  destruct (offset <=? c_int_max); cbn; [|intros [= _ <-]; by rewrite app_nil_r].
  destruct (limit <=? c_int_max); cbn; [|intros [= _ <-]; by rewrite app_nil_r].
  destruct (context_list_objects_size_v1 context_id offset limit (library s)) as [[status size] lib].
  destruct (status =? 0), (ot_status size =? 0); cbn; try by intros [= _ <-].
  destruct (context_list_objects_into_v1 _ _ _ _ lib) as [[status' response] lib'].
  case_match; intros [= _ <-]; cbn; by rewrite <- app_assoc.
Qed.

Lemma read_context_calls context_id objects s r s' :
  read_context_objects context_id objects s = (Safe r, s') -> calls s' = calls s ++ read_calls context_id objects (library s).
Proof.
  unfold read_context_objects, read_calls. destruct (read_items objects) as [items|e]; [|intros [= _ <-]; by rewrite app_nil_r].
  cbn [released]. destruct (context_read_objects_direct_retry_v1 _ _ _ (library s)) as [[status response] lib]. cbn [fst snd].
  case_match eqn:E; [|done]. destruct x as [output payload]. intros [= _ <-].
  case_match; cbn [calls]; [done | by rewrite <- app_assoc].
Qed.

End CallsExact.

(** ** One call *)

Section OneCall.
Context `{NativeLibrary L} {D : Type}.
Variable exists_at : path -> bool.
Variable open_dependency : path -> result D string.
Variable open_library : string -> result L string.
Variable symbol_error : string -> option string.

(** [call_assetstudio_ffi_typed_request], holding the lock: load, call, and drop the library
    with its guard.  A read outside the memory is taken to end the process. *)
Definition call_assetstudio_ffi_typed_request (library_path : string) (request : AssetStudioFfiRequest) (env : gmap string string)
  : access (result (Z * AssetStudioFfiResponse * bytes) AssetStudioFfiError) * list native_call * gmap string string :=
  let '(loaded, env) := load exists_at open_dependency open_library symbol_error library_path env in
  match loaded with
  | Err e => (Safe (Err e), [], env)
  | Ok loaded =>
      let '(r, s) := call_typed_request request (mkSession (loaded_library loaded) []) in
      (r, calls s, guard_drop LIBRARY_PATH_VARIABLE (env_guard loaded) env)
  end.

Lemma guard_restores name value (env : gmap string string) : guard_drop name (env !! name) (<[name := value]> env) = env.
Proof.
  unfold guard_drop. destruct (env !! name) eqn:E.
  - rewrite insert_insert_eq. by apply insert_id.
  - by apply delete_insert_id.
Qed.

(** The variable is back at its old value when loading fails, and when the library that keeps
    the guard is dropped. *)
Lemma load_environment library_path env r env' :
  load exists_at open_dependency open_library symbol_error library_path env = (r, env') ->
  match r with
  | Err _ => env' = env
  | Ok loaded => env' !! LIBRARY_PATH_VARIABLE = Some library_path /\ guard_drop LIBRARY_PATH_VARIABLE (env_guard loaded) env' = env
  end.
Proof.
  unfold load, guard_set. destruct (open_library library_path) as [lib|]; [|intros [= <- <-]; apply guard_restores].
  destruct (load_symbols symbol_error SYMBOLS); [|intros [= <- <-]; apply guard_restores].
  destruct (verify_typed_abi lib) as [[[]|e] lib']; intros [= <- <-]; [|apply guard_restores].
  split; [apply lookup_insert_eq | apply guard_restores].
Qed.

(** A single call leaves the environment as it was, whatever happened. *)
Lemma single_call_environment library_path request env :
  (call_assetstudio_ffi_typed_request library_path request env).2 = env.
Proof.
  unfold call_assetstudio_ffi_typed_request.
  destruct (load exists_at open_dependency open_library symbol_error library_path env) as [[loaded|e] env'] eqn:E; apply load_environment in E; [|done].
  destruct (call_typed_request request _) as [r s]. apply E.
Qed.
End OneCall.

(** The library as the interface of the exporter and of the worker: a read outside the memory
    is taken to end the process with [fault]. *)
Definition native_library `{NativeLibrary L} (fault : string) : Library (session (L := L)) := {|
  lib_call request s :=
    match call_typed_request request s with
    | (Safe r, s') => (r, s')
    | (Undefined, s') => (Err (FfiMessage fault), s')
    end;
  lib_crash request s := match (call_typed_request request s).1 with Safe _ => None | Undefined => Some fault end
|}.

(** ** A small library *)

Module NativeDemo.
(** An answer with three objects: a texture with a payload, one that failed and one without
    a payload. *)
Definition strings : bytes := as_bytes "imagepngunsupported".
Definition texture : ReadItem := mkReadItemResult 0 0 0 42 0 4 0 5 5 3 (-1) 0.
Definition failed : ReadItem := mkReadItemResult 1 5 7 43 4 2 (-1) 0 (-1) 0 8 11.
Definition empty : ReadItem := mkReadItemResult 2 0 0 (-44) 4 0 0 5 (-1) 0 (-1) 0.
Definition answer : ReadResult :=
  mkReadResult 0 0 3 1 (Some [texture; failed; empty]) (Some strings) 19 (Some (as_bytes "RGBAxy")) 6 77.

(** The same with a kind that ends after the strings. *)
Definition outside : ReadItem := mkReadItemResult 0 0 0 42 0 4 15 5 5 3 (-1) 0.
Definition answer_outside : ReadResult := mkReadResult 0 0 1 0 (Some [outside]) (Some strings) 19 None 0 78.

(** The state is the number of results that are alive. *)
#[local] Instance small : NativeLibrary Z := {
  capabilities_v1 lib := (0, mkCapabilities 144 1 1 0 0 1 1 1 1 1 1, lib);
  abi_layout_v1 lib := (0, mkAbiLayout 88 1 1 0 0 1 80 96 24 48 88 144 48 64 112 104 40 72 80 168, lib);
  limits_v1 lib := (0, mkLimits 88 1 1 1 0 0, lib);
  context_open_v1 _ lib := (0, mkOpenResult 0 0 5 3 0 (Some (as_bytes "2022.3")) 6 (Some 4096), lib + 1);
  context_list_objects_size_v1 _ _ _ lib := (0, mkObjectTable 0 0 0 0 0 None None 0 512, lib);
  context_list_objects_into_v1 _ _ _ _ lib := (0, mkObjectTable 0 0 0 0 0 None None 0 512, lib);
  context_close_v1 _ lib := (0, mkCloseResult 0 0, lib);
  context_read_objects_direct_retry_v1 id _ _ lib := if id =? 5 then (0, answer, lib + 1) else ((-1), mkReadResult 0 3 0 0 None None 0 None 0 0, lib);
  free_buffer _ lib := lib - 1;
  result_free _ lib := lib - 1
}.

Example small_verifies : verify_typed_abi 0 = (Ok tt, 0).
Proof. vm_compute. reflexivity. Qed.

(** A listing of the wrong size of one structure is refused. *)
Example layout_refused :
  check_layout 0 (mkAbiLayout 88 1 1 0 0 1 80 96 24 48 88 144 48 64 112 104 40 72 80 160)
  = Err (FfiMessage "AssetStudioFFI ABI layout mismatch for haruki_assetstudio_object_read_batch_retry_response_v1: native=160 rust=168").
Proof. vm_compute. reflexivity. Qed.

Definition items : list ReadObjectItemRequest := [mkReadItem 42 "image" "png"].

(** A failed read whose call status is negative has the call status 0, and its response says
    that it failed. *)
Example negative_status_is_zero :
  (call_typed_request (ContextReadObjects 6 items) (mkSession 0 [])).1
  = Safe (Ok (0, RespReadBatch (mkReadBatchResponse false [] 0
      (Some "typed context_read_objects_direct_retry_v1 failed: requested=1 status=-1 response_status=0 error_code=3")), [])).
Proof. vm_compute. reflexivity. Qed.

Lemma batch_payloads_read_back_witness :
  exists b items entries, typed_read_objects_payload_bundle answer = Safe (Ok b)
    /\ typed_read_items answer = Safe items
    /\ Forall2 (fun item e => e.1 = pretty (ri_path_id item) /\ typed_read_payload answer item = Safe e.2) (List.filter has_payload items) entries
    /\ (if decide (entries = []) then b = [] else parse_payload_bundle_borrowed b = Ok entries).
Proof.
  destruct (typed_read_objects_payload_bundle answer) as [[b|]|] eqn:E; [|vm_compute in E; discriminate E..].
  exists b. destruct (batch_payloads_read_back answer b ltac:(vm_compute; discriminate) E) as (items & entries & Hrest).
  exists items, entries. by split.
Defined.

Lemma answer_reads_defined_witness :
  (exists r, typed_read_objects_payload_bundle answer_outside = Safe r)
  /\ ~ exists r, typed_read_objects_response 1 0 answer_outside = Safe r.
Proof.
  assert (Hb : backed answer_outside).
  { split; [|split]; [intros m Hm|done|intros m Hm]; injection Hm as <-; vm_compute; [discriminate | reflexivity]. }
  destruct (answer_reads_defined 1 0 answer_outside Hb) as (Hbundle & items & Hitems & Hiff). split; [exact Hbundle|].
  rewrite Hiff. injection Hitems as <-. intros Hinside. inversion Hinside as [|? ? [[Hk|[Hk|[Hk|Hk]]] _] _]; vm_compute in Hk; by try apply Hk.
Defined.

End NativeDemo.
