(* ===== verification/ExportRun.v ===== *)
(** * Running the export of a bundle

    The first part of [implementation/assetstudio.rs]: the request and the options of an
    export, built from the configuration; the export with the library of the process or with
    a leased worker; and the second attempt after a worker crashed.  The worker pool and the
    limiter of the CPU budget are an interface ([WorkerPool] and [CpuLimits] model them); the
    host records what was taken and given back. *)

From S2P Require Import Prelude RustStr Errors Paths Fs Config PayloadBundle FfiTypes.
From S2P Require Import ExportPaths ExportPayload ObjectExport WorkerProtocol ExportRefinement ExportTasks.

Local Open Scope string_scope.
Local Open Scope list_scope.
Local Open Scope Z_scope.
Local Open Scope rust_scope.

(** ** Request and options *)

(** [image_flush_config]: the threshold; nothing else of it can be observed here. *)
Definition image_flush_config (app : AppConfig) : option Z :=
  let bytes := as_image_flush_bytes (asset_studio (backends app)) in if bytes =? 0 then None else Some bytes.

Definition unity_version_of (reg : RegionConfig) : option string := if is_empty (unity_version reg) then None else Some (unity_version reg).

Definition export_types (regex_new : string -> option (string -> bool)) (reg : RegionConfig) (bundle : string) : list string :=
  let mesh := export_mesh (export reg) in
  asset_studio_export_type_list regex_new (mesh_export_obj mesh) (mesh_path_patterns mesh) (asset_studio_types (export reg)) bundle.

Definition context_open_request (regex_new : string -> option (string -> bool)) (reg : RegionConfig) (bundle_file : path) (bundle : string)
  : AssetStudioFfiContextOpenRequest :=
  mkOpenRequest (path_str bundle_file) (export_types regex_new reg bundle) (unity_version_of reg) false false None None [] true false.

Definition object_export_options (app : AppConfig) (reg : RegionConfig) (dir : path) (bundle strip : string) : NativeObjectExportOptions :=
  let studio := asset_studio (backends app) in
  mkExportOptions dir bundle strip (by_category (export reg)) (export_images (export reg))
    (usm_export_files (export_usm_config (export reg))) (usm_decode_files (export_usm_config (export reg)))
    (btree_entries (as_read_kinds studio)) (default NATIVE_AOT_DEFAULT_IMAGE_FORMAT (as_image_format studio))
    (as_read_batch_size studio) (image_flush_config app).

(** [configured_worker_path], with [worker_executable_name] of the platforms other than
    Windows. *)
Definition WORKER_PATH_VARIABLE : string := "HARUKI_ASSET_STUDIO_FFI_WORKER_PATH".
Definition worker_executable_name : string := "assetstudio_ffi_worker".

Definition configured_worker_path (configured variable : option string) (current_exe : result path io_error)
  : result path AssetStudioFfiError :=
  match trimmed_non_empty configured with
  | Some p => Ok (components p)
  | None =>
      match trimmed_non_empty variable with
      | Some p => Ok (components p)
      | None =>
          let? exe := result_map_err (FfiSpawn "current_exe") current_exe in
          match path_parent exe with
          | None => Err (FfiMessage ("failed to infer ffi worker path from current executable `" +:+ path_str exe +:+ "`"))
          | Some dir => Ok (path_join dir (components worker_executable_name))
          end
      end
  end.

(** [WorkerPoolTuning], and what selects a pool in [shared_with_tuning]. *)
Record WorkerPoolTuning : Type := mkTuning { idle_timeout : Z; gc_heap_hard_limit_mb : Z; gc_conserve_memory : option Z }.
Record PoolKey : Type := mkPoolKey {
  key_concurrency : Z; key_max_calls : Z; key_worker_path : path; key_library_path : string; key_tuning : WorkerPoolTuning
}.

Definition shared_with_tuning (worker_path : path) (library_path : string) (process_concurrency max_calls : Z) (tuning : WorkerPoolTuning) : PoolKey :=
  mkPoolKey (Z.max process_concurrency 1) max_calls worker_path library_path tuning.

Definition pool_of (app : AppConfig) (cpus : Z) (worker_path : path) (library_path : string) : PoolKey :=
  let studio := asset_studio (backends app) in
  shared_with_tuning worker_path library_path (effective_asset_studio_ffi_process_concurrency_for_cpus app cpus) (as_worker_max_calls studio)
    (mkTuning (as_worker_idle_timeout_seconds studio) (as_worker_gc_heap_hard_limit_mb studio) (as_worker_gc_conserve_memory studio)).

(** ** The host *)

(** What [assetstudio.rs] uses of the pool and of the limiter of the CPU budget; [P] is
    their state and [S] that of a lease. *)
Class LeasePool (P S : Type) := {
  acquire_permit : Z -> P -> result unit ExportPipelineError * P;
  drop_permit : P -> P;
  acquire_lease : PoolKey -> bool -> P -> result S AssetStudioFfiError * P;
  finish_success : PoolKey -> S -> P -> P;
  kill_lease : PoolKey -> S -> P -> P
}.

Inductive run_event : Type :=
| PermitTaken
| PermitDropped
| Leased (exclusive : bool)
| Finished
| Killed
| LibraryLoaded (library_path : string).

Section Run.
Context `{UnicodeCase} `{ExportEnv} {P S L : Type} `{LeasePool P S} `{Caller S} `{Library L}.
Variable regex_new : string -> option (string -> bool).
Variable current_exe : result path io_error.
Variable worker_path_variable : option string.
(** [LoadedAssetStudioFfiLibrary::load], and the failure of a Tokio runtime to start. *)
Variable load_library : string -> result L AssetStudioFfiError.
Variable runtime_error : option string.

Record host : Type := mkHost {
  h_pool : P;
  h_libraries : gmap string L;
  h_disk : disk;
  h_spill : spill_files;
  h_requests : list AssetStudioFfiRequest;
  h_events : list run_event
}.

Definition with_pool (p : P) (e : list run_event) (h : host) : host :=
  mkHost p (h_libraries h) (h_disk h) (h_spill h) (h_requests h) (h_events h ++ e).
Definition with_libraries (l : gmap string L) (e : list run_event) (h : host) : host :=
  mkHost (h_pool h) l (h_disk h) (h_spill h) (h_requests h) (h_events h ++ e).
Definition with_export {T} (w : world T) (d : disk) (h : host) : host :=
  mkHost (h_pool h) (h_libraries h) d (w_spill w) (w_log w) (h_events h).

Abbreviation outcome := (result NativeObjectExportSummary ExportPipelineError * host)%type.

(** [call_assetstudio_ffi_object_export_pooled]: the permit is dropped on every return, a
    lease is finished or killed.  [None]: the listing of the objects does not end within
    [fuel] pages. *)
Definition call_assetstudio_ffi_object_export_pooled (fuel : nat) (key : PoolKey) (exclusive : bool) (cpu_budget : Z) (types : list string)
    (open_request : AssetStudioFfiContextOpenRequest) (options : NativeObjectExportOptions) (h : host) : option outcome :=
  match acquire_permit cpu_budget (h_pool h) with
  | (Err e, p) => Some (Err e, with_pool p [] h)
  | (Ok _, p) =>
      let h := with_pool p [PermitTaken] h in
      match acquire_lease key exclusive (h_pool h) with
      | (Err e, p) => Some (Err (export_error_from e), with_pool (drop_permit p) [PermitDropped] h)
      | (Ok lease, p) =>
          let h := with_pool p [Leased exclusive] h in
          match call_assetstudio_ffi_object_export_with_caller fuel options types open_request (mkWorld lease (h_requests h) (h_spill h)) (h_disk h) with
          | None => None
          | Some (w, d, r) =>
              let h := with_export w d h in
              match r with
              | Ok summary =>
                  Some (Ok summary, with_pool (drop_permit (finish_success key (w_caller w) (h_pool h))) [Finished; PermitDropped] h)
              | Err error => Some (Err error, with_pool (drop_permit (kill_lease key (w_caller w) (h_pool h))) [Killed; PermitDropped] h)
              end
          end
      end
  end.

(** [shared_direct_assetstudio_library]: a library that was loaded is kept. *)
Definition shared_direct_assetstudio_library (library_path : string) (h : host) : result L AssetStudioFfiError * host :=
  match h_libraries h !! library_path with
  | Some library => (Ok library, h)
  | None =>
      match load_library library_path with
      | Err e => (Err e, h)
      | Ok library => (Ok library, with_libraries (<[library_path := library]> (h_libraries h)) [LibraryLoaded library_path] h)
      end
  end.

(** The body of the blocking task of [call_assetstudio_ffi_object_export_direct]. *)
Definition export_with_library (fuel : nat) (library_path : string) (types : list string) (open_request : AssetStudioFfiContextOpenRequest)
    (options : NativeObjectExportOptions) (h : host) : option outcome :=
  match shared_direct_assetstudio_library library_path h with
  | (Err e, h) => Some (Err (export_error_from e), h)
  | (Ok library, h) =>
      match runtime_error with
      | Some source => Some (Err (ExportAssetStudioFfi ("failed to create assetstudio direct runtime: " +:+ source)), h)
      | None =>
          match @call_assetstudio_ffi_object_export_with_caller _ _ L direct_caller fuel options types open_request
                  (mkWorld library (h_requests h) (h_spill h)) (h_disk h) with
          | None => None
          | Some (w, d, r) => Some (r, with_libraries (<[library_path := w_caller w]> (h_libraries h)) [] (with_export w d h))
          end
      end
  end.

Definition call_assetstudio_ffi_object_export_direct (fuel : nat) (library_path : string) (cpu_budget : Z) (types : list string)
    (open_request : AssetStudioFfiContextOpenRequest) (options : NativeObjectExportOptions) (h : host) : option outcome :=
  match acquire_permit cpu_budget (h_pool h) with
  | (Err e, p) => Some (Err e, with_pool p [] h)
  | (Ok _, p) =>
      match export_with_library fuel library_path types open_request options (with_pool p [PermitTaken] h) with
      | None => None
      | Some (r, h) => Some (r, with_pool (drop_permit (h_pool h)) [PermitDropped] h)
      end
  end.

(** [run_assetstudio_ffi_object_export]: a crash of the worker is answered once, with an
    exclusive lease. *)
Definition run_assetstudio_ffi_object_export (fuel : nat) (app : AppConfig) (cpus : Z) (reg : RegionConfig) (bundle_file dir : path)
    (bundle strip library_path : string) (h : host) : option outcome :=
  let types := export_types regex_new reg bundle in
  let open_request := context_open_request regex_new reg bundle_file bundle in
  let options := object_export_options app reg dir bundle strip in
  let budget := effective_budget_for_cpus (cpu (resources app)) cpus in
  match as_mode (asset_studio (backends app)) with
  | ModeDirect => call_assetstudio_ffi_object_export_direct fuel library_path budget types open_request options h
  | ModeWorkerPool =>
      match configured_worker_path (as_worker_path (asset_studio (backends app))) worker_path_variable current_exe with
      | Err e => Some (Err (export_error_from e), h)
      | Ok worker_path =>
          let key := pool_of app cpus worker_path library_path in
          match call_assetstudio_ffi_object_export_pooled fuel key false budget types open_request options h with
          | Some (Err error, h') =>
              if is_native_worker_signal_failure error
              then call_assetstudio_ffi_object_export_pooled fuel key true budget types open_request options h'
              else Some (Err error, h')
          | x => x
          end
      end
  end.
End Run.
Arguments host P L : clear implicits.

(** ** What a run takes is given back *)

(** The events of one attempt with a worker. *)
Inductive attempt (exclusive : bool) (r : result NativeObjectExportSummary ExportPipelineError) : list run_event -> Prop :=
| no_permit : is_ok r = false -> attempt exclusive r []
| no_lease : is_ok r = false -> attempt exclusive r [PermitTaken; PermitDropped]
| exported_with_lease : attempt exclusive r [PermitTaken; Leased exclusive; if is_ok r then Finished else Killed; PermitDropped].

(** The events of one export with the library. *)
Inductive direct_attempt (library_path : string) (r : result NativeObjectExportSummary ExportPipelineError) : list run_event -> Prop :=
| direct_no_permit : is_ok r = false -> direct_attempt library_path r []
| direct_loaded loads : loads = [] \/ loads = [LibraryLoaded library_path] ->
    direct_attempt library_path r (PermitTaken :: loads ++ [PermitDropped]).

Definition crashed (r : result NativeObjectExportSummary ExportPipelineError) : bool :=
  match r with Err e => is_native_worker_signal_failure e | Ok _ => false end.

(** The events of a run, as they follow from its mode and its result. *)
Inductive run_events (mode : AssetStudioFfiMode) (library_path : string) (r : result NativeObjectExportSummary ExportPipelineError)
  : list run_event -> Prop :=
| run_direct evs : mode = ModeDirect -> direct_attempt library_path r evs -> run_events mode library_path r evs
| run_no_worker : mode = ModeWorkerPool -> is_ok r = false -> run_events mode library_path r []
| run_once evs : mode = ModeWorkerPool -> crashed r = false -> attempt false r evs -> run_events mode library_path r evs
| run_twice first evs evs' : mode = ModeWorkerPool -> crashed first = true -> attempt false first evs -> attempt true r evs' ->
    run_events mode library_path r (evs ++ evs').

Section Exact.
Context `{UnicodeCase} `{ExportEnv} {P S L : Type} `{LeasePool P S} `{Caller S} `{Library L}.
Variable regex_new : string -> option (string -> bool).
Variable current_exe : result path io_error.
Variable worker_path_variable : option string.
Variable load_library : string -> result L AssetStudioFfiError.
Variable runtime_error : option string.
Abbreviation run := (run_assetstudio_ffi_object_export regex_new current_exe worker_path_variable load_library runtime_error).

Lemma pooled_attempt fuel key exclusive budget types req o (h : host P L) r h' :
  call_assetstudio_ffi_object_export_pooled fuel key exclusive budget types req o h = Some (r, h') ->
  exists evs, h_events h' = h_events h ++ evs /\ attempt exclusive r evs /\ h_libraries h' = h_libraries h.
Proof.
  unfold call_assetstudio_ffi_object_export_pooled. destruct (acquire_permit budget (h_pool h)) as [[[]|e] p].
  2: { intros [= <- <-]. eexists. split_and!; [done|by constructor|done]. }
  destruct (acquire_lease key exclusive _) as [[lease|e] p'].
  2: { intros [= <- <-]. eexists. cbn. rewrite <- app_assoc. split_and!; [done|by constructor|done]. }
  destruct (call_assetstudio_ffi_object_export_with_caller _ _ _ _ _ _) as [[[w d] [s|e]]|]; [..|done]; intros [= <- <-];
    eexists; cbn; rewrite <- !app_assoc; split_and!; [done|apply exported_with_lease|done|done|apply exported_with_lease|done].
Qed.

Lemma library_attempt fuel library_path types req o (h : host P L) r h' :
  export_with_library load_library runtime_error fuel library_path types req o h = Some (r, h') ->
  exists loads, (loads = [] \/ loads = [LibraryLoaded library_path]) /\ h_events h' = h_events h ++ loads.
Proof.
  unfold export_with_library, shared_direct_assetstudio_library.
  assert (Hrun : forall library (h1 : host P L),
    match runtime_error with
    | Some source => Some (Err (ExportAssetStudioFfi ("failed to create assetstudio direct runtime: " +:+ source)), h1)
    | None => match @call_assetstudio_ffi_object_export_with_caller _ _ L direct_caller fuel o types req
                      (mkWorld library (h_requests h1) (h_spill h1)) (h_disk h1) with
              | None => None
              | Some (w, d, r) => Some (r, with_libraries (<[library_path := w_caller w]> (h_libraries h1)) [] (with_export w d h1))
              end
    end = Some (r, h') -> h_events h' = h_events h1).
  { intros library h1. destruct runtime_error; [by intros [= _ <-]|].
    destruct (call_assetstudio_ffi_object_export_with_caller _ _ _ _ _ _) as [[[w d] r']|]; [|done]. intros [= _ <-]. apply app_nil_r. }
  destruct (h_libraries h !! library_path) as [library|].
  { intros ->%Hrun. exists []. rewrite app_nil_r. by split; [left|]. }
  destruct (load_library library_path) as [library|e].
  - intros ->%Hrun. exists [LibraryLoaded library_path]. by split; [right|].
  - intros [= _ <-]. exists []. rewrite app_nil_r. by split; [left|].
Qed.

End Exact.

(** ** Both modes export the same *)

Definition with_mode (mode : AssetStudioFfiMode) (app : AppConfig) : AppConfig :=
  let b := backends app in
  let a := asset_studio b in
  mkAppConfig (config_version app) (server app) (execution app)
    (mkBackendsConfig
       (mkAssetStudioBackendConfig (as_library_path a) mode (as_worker_path a) (as_process_concurrency a) (as_worker_max_calls a)
          (as_read_batch_size a) (as_image_format a) (as_read_kinds a) (as_worker_idle_timeout_seconds a) (as_worker_gc_heap_hard_limit_mb a)
          (as_worker_gc_conserve_memory a) (as_image_flush_bytes a)) (backend_media b) (backend_image b))
    (resources app) (concurrency app) (storage app) (chart_hashes app) (poller app) (hip app) (regions app).

Section Modes.
Context `{UnicodeCase} `{ExportEnv} {L P : Type} `{Library L} `{WorkerJson} `{TempFiles} `{LeasePool P (lease L)}.
Variable regex_new : string -> option (string -> bool).
Variable current_exe : result path io_error.
Variable worker_path_variable : option string.
Variable load_library : string -> result L AssetStudioFfiError.
#[local] Instance leased : Caller (lease L) := lease_caller.
Abbreviation run := (run_assetstudio_ffi_object_export regex_new current_exe worker_path_variable load_library None).

(** The export of the bundle with a lease, as the run makes it. *)
Definition leased_export (fuel : nat) (app : AppConfig) (reg : RegionConfig) (bundle_file dir : path) (bundle strip : string) (l : lease L)
    (h : host P L) : option (world (lease L) * disk * result NativeObjectExportSummary ExportPipelineError) :=
  call_assetstudio_ffi_object_export_with_caller fuel (object_export_options app reg dir bundle strip) (export_types regex_new reg bundle)
    (context_open_request regex_new reg bundle_file bundle) (mkWorld l (h_requests h) (h_spill h)) (h_disk h).

(** The pool grants the run a healthy worker, and the protocol carries its calls. *)
Record granted (fuel : nat) (app : AppConfig) (cpus : Z) (reg : RegionConfig) (bundle_file dir : path) (bundle strip library_path : string)
    (wk : worker L) (ids : nat -> Z) (h : host P L) : Prop := mkGranted {
  granted_worker : exists worker_path p p',
    configured_worker_path (as_worker_path (asset_studio (backends app))) worker_path_variable current_exe = Ok worker_path
    /\ acquire_permit (effective_budget_for_cpus (cpu (resources app)) cpus) (h_pool h) = (Ok tt, p)
    /\ acquire_lease (pool_of app cpus worker_path library_path) false p = (Ok (mkLease wk ids 0 true), p');
  granted_healthy : healthy wk;
  granted_carried : exists w d r, leased_export fuel app reg bundle_file dir bundle strip (mkLease wk ids 0 true) h = Some (w, d, r)
    /\ l_carried (w_caller w) = true /\ crashed r = false
}.

(** The two modes of the exporter agree.  When the pool grants a healthy worker and the
    protocol carries its calls, a run with the worker pool and a run with the library in the
    process, loaded in the state the worker's library has, return the same summary or error,
    leave the same files and send the same requests. *)
Theorem modes_agree fuel app cpus reg bundle_file dir bundle strip library_path wk ids (h : host P L) :
  granted fuel app cpus reg bundle_file dir bundle strip library_path wk ids h ->
  h_libraries h !! library_path = Some (wk_lib wk) ->
  exists r h1 h2,
    run fuel (with_mode ModeWorkerPool app) cpus reg bundle_file dir bundle strip library_path h = Some (r, h1)
    /\ run fuel (with_mode ModeDirect app) cpus reg bundle_file dir bundle strip library_path h = Some (r, h2)
    /\ h_disk h1 = h_disk h2 /\ h_requests h1 = h_requests h2.
Proof.
  intros [(worker_path & p & p' & Hpath & Hpermit & Hlease) Hh (w & d & r & E & Hc & Hr)] Hlib. unfold leased_export in E.
  destruct (fun Hrel => @export_sim _ _ L (lease L) direct_caller lease_caller stands_for all_carried lease_mono lease_sim fuel _ _ _
    (mkWorld (wk_lib wk) (h_requests h) (h_spill h)) _ _ _ _ _ Hrel E Hc) as ([l' log' files'] & E1 & _ & Hlog); [by split; [split|]|].
  simpl in Hlog. subst log'.
  unfold run_assetstudio_ffi_object_export, call_assetstudio_ffi_object_export_pooled, call_assetstudio_ffi_object_export_direct,
    export_with_library, shared_direct_assetstudio_library.
  change (as_mode (asset_studio (backends (with_mode ModeWorkerPool app)))) with ModeWorkerPool.
  change (as_mode (asset_studio (backends (with_mode ModeDirect app)))) with ModeDirect.
  change (as_worker_path (asset_studio (backends (with_mode ModeWorkerPool app)))) with (as_worker_path (asset_studio (backends app))).
  change (resources (with_mode ?m app)) with (resources app).
  change (pool_of (with_mode ModeWorkerPool app)) with (pool_of app).
  change (object_export_options (with_mode ?m app)) with (object_export_options app).
  cbn iota. rewrite Hpath, Hpermit. cbn [with_pool h_pool h_requests h_spill h_disk h_libraries].
  rewrite Hlease, Hlib. cbn [with_pool h_pool h_requests h_spill h_disk h_libraries]. rewrite E, E1.
  destruct r as [s|e]; [|cbn in Hr; rewrite Hr]; by eexists _, _, _.
Qed.
End Modes.

(** ** A pool in memory *)

Module RunDemo.
(** Two text objects; a lease that is [armed] dies of the second. *)
Definition objects : list AssetStudioFfiAssetInfo :=
  [mkAssetInfo 0 (Some "a") (Some "assets/res/a.txt") (Some "TextAsset") 49 11 None 1 None;
   mkAssetInfo 1 (Some "b") (Some "assets/res/b.txt") (Some "TextAsset") 49 12 None 1 None].

Definition answer (armed : bool) (req : AssetStudioFfiRequest) : result WorkerOutput ExportPipelineError :=
  match req with
  | ContextListObjects _ _ _ => Ok (ConcreteExport.ok_output (RespList (mkListResponse true None objects None)) [])
  | ContextReadObjects _ [mkReadItem 12 _ _] =>
      if armed then Err (ExportCommandFailed "/opt/assetstudio_ffi_worker" "signal: 11 (SIGSEGV)" "") else ConcreteExport.answer req
  | _ => ConcreteExport.answer req
  end.

#[local] Instance armed_caller : Caller bool := {| call := fun req armed files => (answer armed req, armed, files) |}.
#[local] Instance no_library : Library unit :=
  {| lib_call := fun _ l => (Err (FfiMessage "no library"), l); lib_crash := fun _ _ => None |}.

(** The pool counts its leases; the first is armed when [unlucky]. *)
#[local] Instance counting_pool (unlucky : bool) : LeasePool nat bool := {
  acquire_permit _ p := (Ok tt, p);
  drop_permit p := p;
  acquire_lease _ _ p := (Ok (unlucky && (p =? 0)%nat), Datatypes.S p);
  finish_success _ _ p := p;
  kill_lease _ _ p := p
}.

Definition studio : AssetStudioBackendConfig :=
  mkAssetStudioBackendConfig None ModeWorkerPool (Some " /opt/assetstudio_ffi_worker ") 1 1 1 None ∅ 0 0 None 0.
Definition app : AppConfig :=
  let d := AppConfig_default in
  mkAppConfig (config_version d) (server d) (execution d) (mkBackendsConfig studio (backend_media (backends d)) (backend_image (backends d)))
    (resources d) (concurrency d) (storage d) (chart_hashes d) (poller d) (hip d) (regions d).
Definition reg : RegionConfig :=
  let d := RegionConfig_default in
  mkRegionConfig (region_enabled d) (provider d) (crypto d) (unity_version d) (paths d) (filters d)
    (RegionExportConfig_with true None (haruki_3d (export d))) (upload d).

Definition h0 (d : disk) : host nat unit := mkHost 0%nat ∅ d ∅ [] [].
Definition run (unlucky : bool) (d : disk) : option (result NativeObjectExportSummary ExportPipelineError * host nat unit) :=
  @run_assetstudio_ffi_object_export ascii_case plain_env nat bool unit (counting_pool unlucky) armed_caller no_library
    (fun _ => None) (Err NotFound) None (fun _ => Err (FfiMessage "no library")) None
    5 app 4 reg (components "/tmp/b") (components "/o") "x" "assets/res" "/lib/libassetstudio.so" (h0 d).

Definition written (r : result NativeObjectExportSummary ExportPipelineError) : list path :=
  match r with Ok s => s_written_files s | Err _ => [] end.
Definition summary (x : option (result NativeObjectExportSummary ExportPipelineError * host nat unit)) : option (list string * list run_event) :=
  option_map (fun x => (map path_str (written x.1), h_events x.2)) x.

(** A worker crashed after the first object was written.  The second attempt finds that file
    and exports the object again under another name, which is what the summary lists. *)
Example retry_duplicates :
  summary (run false (mkDisk ∅ ∅)) = Some (["/o/a"; "/o/b"], [PermitTaken; Leased false; Finished; PermitDropped])
  /\ summary (run true (mkDisk ∅ ∅))
     = Some (["/o/a__dup2"; "/o/b"],
             [PermitTaken; Leased false; Killed; PermitDropped; PermitTaken; Leased true; Finished; PermitDropped]).
Proof. split; vm_compute; reflexivity. Qed.

(** The same happens to a bundle that is exported again, after it changed, to a directory
    that was kept. *)
Example reexport_renames :
  match run false (mkDisk ∅ ∅) with
  | Some (_, h) => summary (run false (h_disk h))
  | None => None
  end = Some (["/o/a__dup2"; "/o/b__dup2"], [PermitTaken; Leased false; Finished; PermitDropped]).
Proof. vm_compute. reflexivity. Qed.

(** The recovery looks for the name of the worker in the program that failed, so a worker
    that was installed under another name is not given a second attempt. *)
Example renamed_worker_not_retried :
  crashed (Err (ExportCommandFailed "/opt/ffi-worker --server" "signal: 11 (SIGSEGV)" "")) = false.
Proof. reflexivity. Qed.


(** A library with these objects, and the messages of the export. *)
#[local] Instance text_library : Library unit := {|
  lib_call := fun req l =>
    (match answer false req with Ok o => Ok (0, wo_response o, wo_payload o) | Err _ => Err (FfiMessage "unreadable") end, l);
  lib_crash := fun _ _ => None
|}.

Definition text_requests : list WorkerServerRequest :=
  match @call_assetstudio_ffi_object_export_with_caller ascii_case plain_env unit (@direct_caller unit text_library) 5
          (object_export_options app reg (components "/o") "x" "assets/res") (export_types (fun _ => None) reg "x")
          (context_open_request (fun _ => None) reg (components "/tmp/b") "x") (mkWorld tt [] ∅) (mkDisk ∅ ∅) with
  | Some (w, _, _) => imap (fun i r => mkServerRequest (Z.of_nat i) r) (w_log w)
  | None => []
  end.
Definition text_responses : list WorkerServerResponse :=
  map (fun q => match (lib_call (req_request q) tt).1 with
                | Ok (status, r, payload) => mkServerResponse (req_id q) (Some status) (Some r) (zlen payload) None None
                | Err e => Server.error_response (req_id q) (ffi_error_text e)
                end) text_requests.

Import ConcreteLease.
#[local] Existing Instances server_request_eq_dec server_response_eq_dec no_temp_files.
#[local] Instance text_json : WorkerJson := {|
  request_to_vec := to_vec text_requests;
  request_from_slice := from_slice text_requests;
  response_to_vec := to_vec text_responses;
  response_from_slice := from_slice text_responses;
  request_round_trip := table_round_trip text_requests;
  response_round_trip := table_round_trip text_responses
|}.

Definition first_lease : lease unit := mkLease fresh_worker Z.of_nat 0 true.
#[local] Instance worker_pool : LeasePool nat (lease unit) := {
  acquire_permit _ p := (Ok tt, p);
  drop_permit p := p;
  acquire_lease _ _ p := (Ok first_lease, Datatypes.S p);
  finish_success _ _ p := p;
  kill_lease _ _ p := p
}.

Definition h1 : host nat unit := mkHost 0%nat {[ "/lib/libassetstudio.so" := tt ]} (mkDisk ∅ ∅) ∅ [] [].
Definition demo_export :=
  @leased_export ascii_case plain_env unit nat text_library text_json no_temp_files (fun _ => None) 5 app reg (components "/tmp/b")
    (components "/o") "x" "assets/res" first_lease h1.
Definition run_mode (mode : AssetStudioFfiMode) :=
  @run_assetstudio_ffi_object_export ascii_case plain_env nat (lease unit) unit worker_pool lease_caller text_library
    (fun _ => None) (Err NotFound) None (fun _ => Err (FfiMessage "no library")) None
    5 (with_mode mode app) 4 reg (components "/tmp/b") (components "/o") "x" "assets/res" "/lib/libassetstudio.so" h1.

Lemma modes_agree_witness :
  option_map (fun x => map path_str (written x.1)) (run_mode ModeWorkerPool) = Some ["/o/a"; "/o/b"]
  /\ exists r h h', run_mode ModeWorkerPool = Some (r, h) /\ run_mode ModeDirect = Some (r, h') /\ h_disk h = h_disk h'.
Proof.
  split; [vm_compute; reflexivity|].
  destruct (@modes_agree ascii_case plain_env unit nat text_library text_json no_temp_files worker_pool (fun _ => None) (Err NotFound) None
    (fun _ => Err (FfiMessage "no library")) 5 app 4 reg (components "/tmp/b") (components "/o") "x" "assets/res" "/lib/libassetstudio.so"
    fresh_worker Z.of_nat h1) as (r & h & h' & E1 & E2 & Hd & _).
  - split.
    + exists (components "/opt/assetstudio_ffi_worker"), 0%nat, 1%nat. split; [vm_compute; reflexivity | split; reflexivity].
    + split; [reflexivity | split; reflexivity].
    + destruct demo_export as [[[w d] r]|] eqn:E; [|exfalso; revert E; vm_compute; discriminate].
      assert (Hf : option_map (fun x => (l_carried (w_caller x.1.1), crashed x.2)) demo_export = Some (true, false)) by (vm_compute; reflexivity).
      rewrite E in Hf. injection Hf as Hc Hcr. exists w, d, r. split; [exact E | split; [exact Hc | exact Hcr]].
  - reflexivity.
  - exists r, h, h'. split; [exact E1 | split; [exact E2 | exact Hd]].
Defined.
End RunDemo.
