(* ===== verification/Ffmpeg.v ===== *)
(** * Conversions with the FFmpeg libraries

    [core/media/ffi.rs]: reading from memory, the queue between decoder and encoder of an
    audio stream, and the loops that decode, encode and write.  FFmpeg is an interface
    ([FFmpeg]): a function of the C API is a call with its code, [Alloc] and [Free] record what
    it allocates for the code.  The samples of a frame are a list whose elements hold one
    sample of every channel; the content of an image is an opaque list.  The order in which
    the resources of one function are released is that of their acquisition, reversed. *)

From Stdlib Require Import Ascii.
From S2P Require Import Prelude RustStr Errors Paths Media.

Local Open Scope string_scope.
Local Open Scope list_scope.
Local Open Scope Z_scope.
Local Open Scope rust_scope.

(** ** Input from memory *)

Definition AVERROR_EOF : Z := -541478725.
Definition AVERROR_EAGAIN : Z := -11.

Record MemoryInput : Type := mkMemoryInput { mi_data : bytes; mi_position : Z }.

(** [read_memory_packet]: the code and what was copied to the buffer. *)
Definition read_memory_packet (buf_size : Z) (input : MemoryInput) : Z * bytes * MemoryInput :=
  if zlen (mi_data input) <=? mi_position input then (AVERROR_EOF, [], input)
  else
    let len := Z.min (zlen (mi_data input) - mi_position input) buf_size in
    (len, slice (mi_data input) (mi_position input) (mi_position input + len), mkMemoryInput (mi_data input) (mi_position input + len)).

Inductive seek_whence : Type := SeekSet | SeekCur | SeekEnd | SeekSize | SeekOther.

Definition i64_min : Z := - 2 ^ 63.
Definition i64_max : Z := 2 ^ 63 - 1.
Definition in_i64 (z : Z) : bool := (i64_min <=? z) && (z <=? i64_max).

Definition seek_memory (offset : Z) (whence : seek_whence) (input : MemoryInput) : Z * MemoryInput :=
  let len := zlen (mi_data input) in
  let from base :=
    let position := base + offset in
    if negb (in_i64 position) then (-1, input)
    else if (position <? 0) || (len <? position) then (-1, input)
    else (position, mkMemoryInput (mi_data input) position) in
  match whence with
  | SeekSize => (len, input)
  | SeekSet => from 0
  | SeekCur => from (mi_position input)
  | SeekEnd => from len
  | SeekOther => (-1, input)
  end.

(** ** Codecs, streams and frames *)

Inductive AVMediaType : Type := MediaVideo | MediaAudio | MediaOther (number : Z).
#[export] Instance AVMediaType_eq_dec : EqDecision AVMediaType.
Proof. solve_decision. Defined.

Definition media_number (t : AVMediaType) : Z := match t with MediaVideo => 0 | MediaAudio => 1 | MediaOther n => n end.

Inductive OutputCodec : Type := CodecH264 | CodecAac | CodecMp3 | CodecFlac.
#[export] Instance OutputCodec_eq_dec : EqDecision OutputCodec.
Proof. solve_decision. Defined.

(** [OutputCodec::codec_id], with the numbers of [libavcodec]. *)
Definition codec_id (c : OutputCodec) : Z :=
  match c with CodecH264 => 27 | CodecAac => 86018 | CodecMp3 => 86017 | CodecFlac => 86028 end.
Definition media_type (c : OutputCodec) : AVMediaType := match c with CodecH264 => MediaVideo | _ => MediaAudio end.

(** [AVChannelLayout]: its order may be unspecified. *)
Inductive ChannelLayout : Type :=
| LayoutUnspec (channels : Z)
| LayoutOf (channels mask : Z).
#[export] Instance ChannelLayout_eq_dec : EqDecision ChannelLayout.
Proof. solve_decision. Defined.

Record AVRational : Type := mkRational { num : Z; den : Z }.

Definition valid_rational (value : AVRational) : option AVRational := if (0 <? num value) && (0 <? den value) then Some value else None.

(** [choose_pixel_format] and [choose_sample_format]: the list up to its end mark; [none] is
    that mark. *)
Definition choose_format (none : Z) (formats : option (list Z)) (wanted : Z) : Z :=
  match formats with
  | None => wanted
  | Some l => if bool_decide (wanted ∈ l) then wanted else hd none l
  end.
Definition AV_FMT_NONE : Z := -1.
Definition AV_SAMPLE_FMT_S16 : Z := 1.

(** What is read of an opened decoder, of its stream and of an opened encoder. *)
Record DecoderInfo : Type := mkDecoderInfo {
  dec_width : Z; dec_height : Z; dec_pix_fmt : Z; dec_aspect_ratio : AVRational; dec_sample_rate : Z; dec_sample_fmt : Z; dec_layout : ChannelLayout; avg_frame_rate : AVRational
}.
Record EncoderInfo : Type := mkEncoderInfo {
  enc_type : AVMediaType; enc_codec_id : Z; enc_frame_size : Z; enc_sample_fmt : Z; enc_sample_rate : Z; enc_layout : ChannelLayout;
  enc_pix_fmt : Z; enc_width : Z; enc_height : Z
}.

(** What [configure_encoder] and [configure_pcm16_encoder] set. *)
Record EncoderSettings : Type := mkSettings {
  set_width : Z; set_height : Z; set_pix_fmt : Z; set_sample_rate : Z; set_sample_fmt : Z; set_layout : option ChannelLayout;
  set_aspect_ratio : option AVRational; set_gop_size : option Z; set_max_b_frames : option Z; set_bit_rate : option Z; set_framerate : option AVRational; set_time_base : AVRational; set_global_header : bool
}.

Definition AVFMT_GLOBALHEADER : Z := 64.
Definition AVFMT_NOFILE : Z := 1.
Definition global_header (oformat_flags : option Z) : bool :=
  match oformat_flags with Some flags => negb (Z.land flags AVFMT_GLOBALHEADER =? 0) | None => false end.

Section Frames.
Context {X : Type}.

Record AVFrame : Type := mkFrame {
  f_data : list X; f_pts : Z; f_format : Z; f_sample_rate : Z; f_layout : ChannelLayout; f_width : Z; f_height : Z
}.
Definition nb_samples (f : AVFrame) : Z := zlen (f_data f).
Definition with_pts (t : Z) (f : AVFrame) : AVFrame := mkFrame (f_data f) t (f_format f) (f_sample_rate f) (f_layout f) (f_width f) (f_height f).
Definition with_layout (l : ChannelLayout) (f : AVFrame) : AVFrame := mkFrame (f_data f) (f_pts f) (f_format f) (f_sample_rate f) l (f_width f) (f_height f).
Definition with_data (d : list X) (f : AVFrame) : AVFrame := mkFrame d (f_pts f) (f_format f) (f_sample_rate f) (f_layout f) (f_width f) (f_height f).
End Frames.
Arguments AVFrame X : clear implicits.

Record AVPacket : Type := mkPacket { p_stream : Z; p_content : bytes }.

(** ** FFmpeg *)

Inductive resource : Type :=
| RInput | RAvioBuffer | RAvio | ROutput | ROutputFile | RDecoder (s : Z) | REncoder (s : Z) | RPacket | RFrame | RFifo | RSwr | RSws.

#[export] Instance resource_eq_dec : EqDecision resource.
Proof. solve_decision. Defined.

Inductive input_source : Type := FromFile (url : string) | FromMemory (data : bytes).

(** The calls that return nothing but a code. *)
Inductive ff_call (X : Type) : Type :=
| OpenInput (source : input_source) (format : option string)
| FindStreamInfo
| ParametersToContext (s : Z)
| OpenDecoder (s : Z)
| AllocOutput (url : string)
| OpenEncoder (s : Z) (settings : EncoderSettings)
| ParametersFromContext (s : Z)
| AvioOpen (url : string)
| WriteHeader
| WriteTrailer
| SendPacket (s : Z) (p : option AVPacket)
| SendFrame (s : Z) (f : option (AVFrame X))
| WriteFrame (s : Z) (p : AVPacket)
| LayoutCopy (l : ChannelLayout)
| FrameBuffer (f : AVFrame X)
| SetSilence (offset count : Z)
| SwrAlloc
| SwrInit.
Arguments OpenInput {X}. Arguments FindStreamInfo {X}. Arguments ParametersToContext {X}. Arguments OpenDecoder {X}.
Arguments AllocOutput {X}. Arguments OpenEncoder {X}. Arguments ParametersFromContext {X}. Arguments AvioOpen {X}.
Arguments WriteHeader {X}. Arguments WriteTrailer {X}. Arguments SendPacket {X}. Arguments SendFrame {X}. Arguments WriteFrame {X}.
Arguments LayoutCopy {X}. Arguments FrameBuffer {X}. Arguments SetSilence {X}. Arguments SwrAlloc {X}. Arguments SwrInit {X}.

(** [F] is the state of the libraries and [Q] that of an [AVAudioFifo]. *)
Class FFmpeg (F Q X : Type) := {
  ff_versions : F -> Z * Z;
  ff_code : ff_call X -> F -> Z * F;
  ff_alloc : resource -> F -> bool * F;
  ff_free : resource -> F -> F;
  av_strerror : Z -> option string;
  av_find_input_format : string -> bool;
  av_find_best_stream : AVMediaType -> F -> Z;
  avcodec_find_decoder : Z -> F -> bool;
  avcodec_find_encoder : OutputCodec -> bool;
  pix_fmts : OutputCodec -> option (list Z);
  sample_fmts : OutputCodec -> option (list Z);
  decoder_info : Z -> F -> DecoderInfo;
  encoder_info : Z -> F -> EncoderInfo;
  oformat_flags : F -> option Z;
  avformat_new_stream : F -> bool * F;
  av_read_frame : F -> Z * AVPacket * F;
  avcodec_receive_frame : Z -> F -> Z * AVFrame X * F;
  avcodec_receive_packet : Z -> F -> Z * AVPacket * F;
  swr_convert_frame : AVFrame X -> AVFrame X -> F -> Z * list X * F;
  sws_scale : AVFrame X -> AVFrame X -> F -> list X;
  av_channel_layout_default : Z -> ChannelLayout;
  silence : X;
  pcm16 : list Z -> X;
  av_audio_fifo_alloc : Q;
  av_audio_fifo_size : Q -> Z;
  av_audio_fifo_write : list X -> Q -> Z * Q;
  av_audio_fifo_read : Z -> Q -> Z * list X * Q
}.

(** ** Effects *)

Inductive event (X : Type) : Type :=
| Called (c : ff_call X) (code : Z)
| Received (s : Z) (p : AVPacket)
| Decoded (s : Z) (f : AVFrame X)
| Alloc (r : resource)
| Free (r : resource).
Arguments Called {X}. Arguments Received {X}. Arguments Decoded {X}. Arguments Alloc {X}. Arguments Free {X}.

Section Conversions.
Context {F Q X : Type} `{FFmpeg F Q X}.

(** The libraries, what happened, and [io_opened] of the output. *)
Record ff_world : Type := mkFf { ff_state : F; ff_log : list (event X); io_opened : bool }.

(** A step that may not return: [None]. *)
Definition FM (T : Type) : Type := ff_world -> option (result T ExportPipelineError * ff_world).
Definition fret {T} (x : T) : FM T := fun w => Some (Ok x, w).
Definition fres {T} (r : result T ExportPipelineError) : FM T := fun w => Some (r, w).
Definition fbind {A B} (m : FM A) (k : A -> FM B) : FM B :=
  fun w => match m w with
           | Some (Ok x, w) => k x w
           | Some (Err e, w) => Some (Err e, w)
           | None => None
           end.
#[local] Notation "'let!' x := m 'in' k" := (fbind m (fun x => k)) (at level 10, x pattern, m at level 100, k at level 200).

Definition media_error {T} (message : string) : FM T := fres (Err (ExportMedia message)).
Definition logged (st : F) (e : list (event X)) (w : ff_world) : ff_world := mkFf st (ff_log w ++ e) (io_opened w).

Definition ffmpeg_error (code : Z) : string := match av_strerror code with Some text => text | None => "FFmpeg error " +:+ pretty code end.

(** [check]. *)
Definition check (ret : Z) (operation : string) : FM unit :=
  fres (if 0 <=? ret then Ok tt else Err (ExportMedia (operation +:+ " failed: " +:+ ffmpeg_error ret))).

(** Reading the state of the libraries, changing it, and events. *)
Definition asking {T} (k : F -> FM T) : FM T := fun w => k (ff_state w) w.
Definition stepping {Y} (f : F -> Y * F) : FM Y := fun w => let '(y, st) := f (ff_state w) in Some (Ok y, logged st [] w).
Definition note (e : event X) : FM unit := fun w => Some (Ok tt, logged (ff_state w) [e] w).

Definition call (c : ff_call X) : FM Z := let! code := stepping (ff_code c) in let! _ := note (Called c code) in fret code.
Definition checked (c : ff_call X) (operation : string) : FM unit := let! code := call c in check code operation.

(** A wrapper with [Drop]: allocated, used and freed however its use ends. *)
Definition allocate (r : resource) (null_message : string) : FM unit :=
  let! ok := stepping (ff_alloc r) in if ok then note (Alloc r) else media_error null_message.
Definition release (r : resource) (w : ff_world) : ff_world := logged (ff_free r (ff_state w)) [Free r] w.
Definition finally {T} (r : resource) (body : FM T) : FM T := fun w => option_map (fun x => (x.1, release r x.2)) (body w).
Definition owning {T} (r : resource) (null_message : string) (body : FM T) : FM T := let! _ := allocate r null_message in finally r body.

Definition with_packet {T} : FM T -> FM T := owning RPacket "av_packet_alloc failed".
Definition with_frame {T} : FM T -> FM T := owning RFrame "av_frame_alloc failed".
Definition with_codec {T} (r : resource) : FM T -> FM T := owning r "avcodec_alloc_context3 failed".

Definition path_cstring (p : path) : FM string :=
  match nul_position (path_str p) with
  | Some n => media_error (nul_error "path contains NUL byte" n)
  | None => fret (path_str p)
  end.

(** [input_format_ptr]. *)
Definition input_format_ptr (format : option string) : FM unit :=
  match format with
  | None => fret tt
  | Some f =>
      match nul_position f with
      | Some n => media_error (nul_error "FFmpeg string contains NUL byte" n)
      | None => if av_find_input_format f then fret tt else media_error ("FFmpeg input format is unavailable: " +:+ f)
      end
  end.

(** [InputContext::open_file] and the use of the context. *)
Definition with_input_file {T} (url : string) (format : option string) (body : FM T) : FM T :=
  let! _ := input_format_ptr format in
  let! _ := checked (OpenInput (FromFile url) format) "avformat_open_input" in
  let! _ := note (Alloc RInput) in
  finally RInput body.

(** [CustomAvio::new]: the buffer is freed when the context cannot be allocated. *)
Definition custom_avio : FM unit :=
  let! _ := allocate RAvioBuffer "av_malloc failed for AVIO buffer" in
  fun w => match allocate RAvio "avio_alloc_context failed" w with
           | Some (Err e, w) => Some (Err e, release RAvioBuffer w)
           | x => x
           end.

(** [InputContext::open_memory] and the use of the context: [avformat_open_input] frees the
    context it was given when it fails; the errors before it do not.  Dropping the [CustomAvio]
    frees its context ([avio_context_free]) and nothing frees the buffer. *)
Definition with_input_memory {T} (data : bytes) (format : option string) (body : FM T) : FM T :=
  let! _ := allocate RInput "avformat_alloc_context failed" in
  let! _ := custom_avio in
  finally RAvio
    (let! _ := input_format_ptr format in
     let! code := call (OpenInput (FromMemory data) format) in
     finally RInput (let! _ := check code "avformat_open_input memory" in body)).

(** [OutputContext]: [create], [open_io] and [Drop]. *)
Definition with_output {T} (url : string) (body : FM T) : FM T :=
  let! _ := checked (AllocOutput url) "avformat_alloc_output_context2" in
  let! _ := allocate ROutput "avformat_alloc_output_context2 returned null" in
  fun w => option_map (fun x => let w' := release ROutput (if io_opened x.2 then release ROutputFile x.2 else x.2) in
                                (x.1, mkFf (ff_state w') (ff_log w') (io_opened w)))
             (body (mkFf (ff_state w) (ff_log w) false)).

Definition open_io (url : string) : FM unit :=
  asking (fun st =>
    if Z.land (default 0 (oformat_flags st)) AVFMT_NOFILE =? 0
    then let! _ := checked (AvioOpen url) "avio_open" in
         fun w => Some (Ok tt, mkFf (ff_state w) (ff_log w ++ [Alloc ROutputFile]) true)
    else fret tt).

Definition find_best_stream (type : AVMediaType) : FM Z :=
  asking (fun st => let index := av_find_best_stream type st in
                    if index <? 0 then media_error ("could not find FFmpeg stream type " +:+ pretty (media_number type)) else fret index).
Definition find_optional_best_stream (type : AVMediaType) : FM (option Z) :=
  asking (fun st => let index := av_find_best_stream type st in fret (if 0 <=? index then Some index else None)).

(** [ChannelLayout::default_or_copy] and [ChannelLayout::default_for_channels]. *)
Definition default_or_copy (source : ChannelLayout) : FM ChannelLayout :=
  match source with
  | LayoutUnspec channels => fret (av_channel_layout_default channels)
  | LayoutOf _ _ => let! _ := checked (LayoutCopy source) "av_channel_layout_copy" in fret source
  end.
Definition default_for_channels (channels : Z) : FM ChannelLayout :=
  if channels <=? 0 then media_error "invalid audio channel count" else fret (av_channel_layout_default channels).

Definition specified (l : ChannelLayout) : ChannelLayout :=
  match l with LayoutUnspec channels => av_channel_layout_default channels | _ => l end.

(** ** Configuring an encoder *)

Definition configure_encoder (codec : OutputCodec) (d : DecoderInfo) (frame_rate : option FrameRate) (flags : option Z) : EncoderSettings :=
  match media_type codec with
  | MediaVideo =>
      let rate := match frame_rate with
                  | Some r => mkRational (numerator r) (denominator r)
                  | None => default (mkRational 30 1) (valid_rational (avg_frame_rate d))
                  end in
      mkSettings (dec_width d) (dec_height d) (choose_format AV_FMT_NONE (pix_fmts codec) (dec_pix_fmt d)) 0 AV_FMT_NONE None (Some (dec_aspect_ratio d)) (Some 12)
        (Some 2) (Some 4000000) (Some rate) (mkRational (den rate) (num rate)) (global_header flags)
  | _ =>
      mkSettings 0 0 AV_FMT_NONE (dec_sample_rate d) (choose_format AV_FMT_NONE (sample_fmts codec) (dec_sample_fmt d))
        (Some (specified (dec_layout d))) None None None
        (match codec with CodecAac => Some 192000 | CodecMp3 => Some 320000 | _ => None end)
        None (mkRational 1 (dec_sample_rate d)) (global_header flags)
  end.

Definition configure_pcm16_encoder (codec : OutputCodec) (sample_rate channels : Z) (flags : option Z) : EncoderSettings :=
  mkSettings 0 0 AV_FMT_NONE sample_rate (choose_format AV_FMT_NONE (sample_fmts codec) AV_SAMPLE_FMT_S16) (Some (av_channel_layout_default channels))
    None None None (if bool_decide (codec = CodecMp3) then Some 320000 else None) None (mkRational 1 sample_rate) (global_header flags).

(** ** Encoding and writing *)

(** The loop of [drain_encoder]; the packet is moved to the time base and the index of the
    output stream before it is written. *)
Fixpoint drain_loop (fuel : nat) (s : Z) : FM unit :=
  match fuel with
  | O => fun _ => None
  | S fuel =>
      let! (ret, p) := stepping (avcodec_receive_packet s) in
      if (ret =? AVERROR_EAGAIN) || (ret =? AVERROR_EOF) then fret tt
      else
        let! _ := check ret "avcodec_receive_packet" in
        let! _ := note (Received s p) in
        let! _ := checked (WriteFrame s p) "av_interleaved_write_frame" in
        drain_loop fuel s
  end.
Definition drain_encoder (fuel : nat) (s : Z) : FM unit := with_packet (drain_loop fuel s).

(** [AudioFifo]; the frame it owns is in [with_fifo]. *)
Record AudioFifo : Type := mkFifo {
  queue : Q; frame_size : Z; pad_final_frame : bool; fifo_sample_fmt : Z; fifo_sample_rate : Z; fifo_layout : ChannelLayout
}.
Definition with_queue (q' : Q) (q : AudioFifo) : AudioFifo :=
  mkFifo q' (frame_size q) (pad_final_frame q) (fifo_sample_fmt q) (fifo_sample_rate q) (fifo_layout q).

(** The part of a stream that the loops change. *)
Record stream_state : Type := mkStreamState { audio_fifo : option AudioFifo; frame_index : Z }.

(** [AudioFifo::new] and the use of the queue; when its frame cannot be allocated the queue
    itself is not freed. *)
Definition with_fifo {T} (s : Z) (body : option AudioFifo -> FM T) : FM T :=
  asking (fun st =>
    let e := encoder_info s st in
    if negb (bool_decide (enc_type e = MediaAudio)) || (enc_frame_size e <=? 0) then body None
     else
       let! layout := default_or_copy (enc_layout e) in
       let! _ := allocate RFifo "av_audio_fifo_alloc failed" in
       let! _ := allocate RFrame "av_frame_alloc failed" in
       finally RFrame (finally RFifo
         (body (Some (mkFifo av_audio_fifo_alloc (enc_frame_size e) (enc_codec_id e =? codec_id CodecMp3) (enc_sample_fmt e) (enc_sample_rate e) layout))))).

Definition fifo_push (f : AVFrame X) (q : AudioFifo) : FM AudioFifo :=
  let '(written, queue') := av_audio_fifo_write (f_data f) (queue q) in
  if written =? nb_samples f then fret (with_queue queue' q)
  else if written <? 0 then media_error ("av_audio_fifo_write failed: " +:+ ffmpeg_error written)
  else media_error "av_audio_fifo_write wrote fewer samples than requested".

(** [encode_available]; [fuel'] is that of [drain_encoder]. *)
Fixpoint encode_available (fuel fuel' : nat) (s : Z) (flush : bool) (q : AudioFifo) (index : Z) : FM (AudioFifo * Z) :=
  match fuel with
  | O => fun _ => None
  | S fuel =>
      let available := av_audio_fifo_size (queue q) in
      if (available <=? 0) || (negb flush && (available <? frame_size q)) then fret (q, index)
      else
        let samples := if flush && pad_final_frame q && (available <? frame_size q) then frame_size q
                       else if flush then Z.min available (frame_size q) else frame_size q in
        let empty := mkFrame (replicate (Z.to_nat samples) silence) 0 (fifo_sample_fmt q) (fifo_sample_rate q) (fifo_layout q) 0 0 in
        let! _ := checked (LayoutCopy (fifo_layout q)) "av_channel_layout_copy audio fifo frame" in
        let! _ := checked (FrameBuffer empty) "av_frame_get_buffer audio fifo frame" in
        let expected := Z.min available samples in
        let '(read, data, queue') := av_audio_fifo_read expected (queue q) in
        if negb (read =? expected) then
          (if read <? 0 then media_error ("av_audio_fifo_read failed: " +:+ ffmpeg_error read)
           else media_error "av_audio_fifo_read read fewer samples than requested")
        else
          let! _ := (if read <? samples then checked (SetSilence read (samples - read)) "av_samples_set_silence audio fifo padding" else fret tt) in
          let frame := with_pts index (with_data (data ++ replicate (Z.to_nat (samples - read)) silence) empty) in
          let! _ := checked (SendFrame s (Some frame)) "avcodec_send_frame" in
          let! _ := drain_encoder fuel' s in
          encode_available fuel fuel' s flush (with_queue queue' q) (index + samples)
  end.

(** ** From the decoder to the encoder *)

(** [SwrContext::new]: a context that cannot be initialized is not freed. *)
Definition swr_new : FM unit :=
  let! _ := checked SwrAlloc "swr_alloc_set_opts2" in
  let! _ := allocate RSwr "swr_alloc_set_opts2 returned null" in
  checked SwrInit "swr_init".

Definition resample_audio_frame (e : EncoderInfo) (decoded : AVFrame X) : FM (AVFrame X) :=
  let converted := mkFrame (replicate (length (f_data decoded)) silence) 0 (enc_sample_fmt e) (enc_sample_rate e) (enc_layout e) 0 0 in
  let! _ := checked (LayoutCopy (enc_layout e)) "av_channel_layout_copy audio resample output" in
  let! _ := checked (FrameBuffer converted) "av_frame_get_buffer audio resample" in
  let decoded := with_layout (specified (f_layout decoded)) decoded in
  let! _ := default_or_copy (f_layout decoded) in
  let! _ := swr_new in
  finally RSwr
    (let! (ret, data) := stepping (swr_convert_frame converted decoded) in
     let! _ := check ret "swr_convert_frame" in
     fret (with_data data converted)).

Definition scale_video_frame (e : EncoderInfo) (decoded : AVFrame X) : FM (AVFrame X) :=
  let converted := mkFrame [] 0 (enc_pix_fmt e) 0 (LayoutUnspec 0) (enc_width e) (enc_height e) in
  let! _ := checked (FrameBuffer converted) "av_frame_get_buffer" in
  owning RSws "sws_getContext failed" (asking (fun st => fret (with_data (sws_scale converted decoded st) converted))).

(** [prepare_frame_for_encoder]. *)
Definition prepare_frame_for_encoder (e : EncoderInfo) (decoded : AVFrame X) (index : Z) : FM (AVFrame X * Z) :=
  match enc_type e with
  | MediaVideo =>
      let needs_scale := negb (f_format decoded =? enc_pix_fmt e) || negb (f_width decoded =? enc_width e) || negb (f_height decoded =? enc_height e) in
      let! f := (if needs_scale then scale_video_frame e decoded else fret decoded) in
      fret (with_pts index f, index + 1)
  | MediaAudio =>
      let needs_resample := negb (f_format decoded =? enc_sample_fmt e) || negb (f_sample_rate decoded =? enc_sample_rate e)
                            || negb (bool_decide (f_layout decoded = enc_layout e)) in
      let! f := (if needs_resample then resample_audio_frame e decoded else fret decoded) in
      fret (f, index)
  | MediaOther _ => media_error "unsupported decoded frame type"
  end.

(** What follows [prepare_frame_for_encoder], and the same in [encode_samples]. *)
Definition submit (fuel : nat) (s : Z) (audio : bool) (operation : string) (f : AVFrame X) (st : stream_state) : FM stream_state :=
  match audio_fifo st with
  | Some q =>
      let! q := fifo_push f q in
      let! (q, index) := encode_available fuel fuel s false q (frame_index st) in
      fret (mkStreamState (Some q) index)
  | None =>
      let f' := if audio then with_pts (frame_index st) f else f in
      let index := if audio then frame_index st + nb_samples f else frame_index st in
      let! _ := checked (SendFrame s (Some f')) operation in
      let! _ := drain_encoder fuel s in
      fret (mkStreamState None index)
  end.

Fixpoint drain_decoder_to_encoder (fuel fuel' : nat) (s : Z) (st : stream_state) : FM stream_state :=
  match fuel with
  | O => fun _ => None
  | S fuel =>
      let! (ret, decoded) := stepping (avcodec_receive_frame s) in
      if (ret =? AVERROR_EAGAIN) || (ret =? AVERROR_EOF) then fret st
      else
        let! _ := check ret "avcodec_receive_frame" in
        let! _ := note (Decoded s decoded) in
        asking (fun ff =>
          let e := encoder_info s ff in
          let! (f, index) := prepare_frame_for_encoder e decoded (frame_index st) in
          let! st := submit fuel' s (bool_decide (enc_type e = MediaAudio)) "avcodec_send_frame" f (mkStreamState (audio_fifo st) index) in
          drain_decoder_to_encoder fuel fuel' s st)
  end.

Definition send_packet_and_encode (fuel : nat) (s : Z) (p : AVPacket) (st : stream_state) : FM stream_state :=
  let! _ := checked (SendPacket s (Some p)) "avcodec_send_packet" in drain_decoder_to_encoder fuel fuel s st.

(** The end of an encoder: what is queued, the flush and the last packets. *)
Definition finish_encoder (fuel : nat) (s : Z) (tag : string) (st : stream_state) : FM unit :=
  let! _ := (match audio_fifo st with
             | Some q => let! _ := encode_available fuel fuel s true q (frame_index st) in fret tt
             | None => fret tt
             end) in
  let! _ := checked (SendFrame s None) ("avcodec_send_frame " +:+ tag) in
  drain_encoder fuel s.

(** [TranscodeStream::flush], and the same in [transcode_open_input_to_file]. *)
Definition flush_stream (fuel : nat) (s : Z) (tag : string) (st : stream_state) : FM unit :=
  let! _ := checked (SendPacket s None) ("avcodec_send_packet " +:+ tag) in
  let! st := drain_decoder_to_encoder fuel fuel s st in
  finish_encoder fuel s tag st.

(** ** Conversions *)

Definition with_decoder {T} (s : Z) (tag : string) (body : FM T) : FM T :=
  asking (fun st =>
    if negb (avcodec_find_decoder s st) then media_error "could not find FFmpeg decoder"
     else
       with_codec (RDecoder s)
         (let! _ := checked (ParametersToContext s) ("avcodec_parameters_to_context" +:+ tag) in
          let! _ := checked (OpenDecoder s) ("avcodec_open2 decoder" +:+ tag) in
          body)).

(** The encoder of stream [s] with its output stream. *)
Definition with_encoder {T} (s : Z) (codec : OutputCodec) (settings : F -> EncoderSettings) (open_name stream_name tag : string) (body : FM T) : FM T :=
  if negb (avcodec_find_encoder codec) then media_error ("could not find FFmpeg encoder for codec id " +:+ pretty (codec_id codec))
  else
    with_codec (REncoder s)
      (asking (fun st =>
         let! _ := checked (OpenEncoder s (settings st)) open_name in
         let! ok := stepping avformat_new_stream in
         if negb ok then media_error (stream_name +:+ " failed")
         else
           let! _ := checked (ParametersFromContext s) ("avcodec_parameters_from_context" +:+ tag) in
           body)).

Definition transcode_settings (s : Z) (codec : OutputCodec) (frame_rate : option FrameRate) (st : F) : EncoderSettings :=
  configure_encoder codec (decoder_info s st) frame_rate (oformat_flags st).

(** The reading loop of [transcode_open_input_to_file]. *)
Fixpoint read_loop (fuel fuel' : nat) (s : Z) (st : stream_state) : FM stream_state :=
  match fuel with
  | O => fun _ => None
  | S fuel =>
      let! (read, p) := stepping av_read_frame in
      if read =? AVERROR_EOF then fret st
      else
        let! _ := check read "av_read_frame" in
        let! st := (if p_stream p =? s then send_packet_and_encode fuel' s p st else fret st) in
        read_loop fuel fuel' s st
  end.

(** From the opening of the output to its trailer. *)
Definition transcode_body (fuel : nat) (url : string) (s : Z) : FM unit :=
  let! _ := open_io url in
  let! _ := checked WriteHeader "avformat_write_header" in
  with_packet (with_frame (with_frame (with_fifo s (fun fifo =>
    let! _ := (let! st := read_loop fuel fuel s (mkStreamState fifo 0) in flush_stream fuel s "flush" st) in
    checked WriteTrailer "av_write_trailer")))).

Definition transcode_open_input_to_file (fuel : nat) (output : path) (codec : OutputCodec) (frame_rate : option FrameRate) : FM unit :=
  let! _ := checked FindStreamInfo "avformat_find_stream_info" in
  let! s := find_best_stream (media_type codec) in
  with_decoder s ""
    (let! url := path_cstring output in
     with_output url
       (with_encoder s codec (transcode_settings s codec frame_rate) "avcodec_open2 encoder" "avformat_new_stream" ""
          (transcode_body fuel url s))).

Definition transcode_file_to_file (fuel : nat) (input : path) (format : option string) (output : path) (codec : OutputCodec)
    (frame_rate : option FrameRate) : FM unit :=
  let! url := path_cstring input in with_input_file url format (transcode_open_input_to_file fuel output codec frame_rate).

Definition transcode_memory_to_file (fuel : nat) (input : bytes) (format : option string) (output : path) (codec : OutputCodec)
    (frame_rate : option FrameRate) : FM unit := with_input_memory input format (transcode_open_input_to_file fuel output codec frame_rate).

(** [TranscodeStream::new] and the use of the stream. *)
Definition with_stream {T} (s : Z) (codec : OutputCodec) (body : stream_state -> FM T) : FM T :=
  with_decoder s " usm"
    (with_encoder s codec (transcode_settings s codec None) "avcodec_open2 encoder usm" "avformat_new_stream usm" " usm"
       (with_frame (with_frame (with_fifo s (fun fifo => body (mkStreamState fifo 0)))))).

(** The reading loop of [transcode_usm_file_to_mp4], with the state of the audio stream if
    there is one. *)
Fixpoint usm_loop (fuel fuel' : nat) (v : Z) (a : option Z) (video audio : stream_state) : FM (stream_state * stream_state) :=
  match fuel with
  | O => fun _ => None
  | S fuel =>
      let! (read, p) := stepping av_read_frame in
      if read =? AVERROR_EOF then fret (video, audio)
      else
        let! _ := check read "av_read_frame usm" in
        let! (video, audio) :=
          (if p_stream p =? v then let! video := send_packet_and_encode fuel' v p video in fret (video, audio)
           else if bool_decide (a = Some (p_stream p)) then
             let! audio := send_packet_and_encode fuel' (p_stream p) p audio in fret (video, audio)
           else fret (video, audio)) in
        usm_loop fuel fuel' v a video audio
  end.

Definition usm_body (fuel : nat) (url : string) (v : Z) (a : option Z) (video audio : stream_state) : FM unit :=
  let! _ := open_io url in
  let! _ := checked WriteHeader "avformat_write_header usm" in
  with_packet
    (let! _ := (let! (video, audio) := usm_loop fuel fuel v a video audio in
                let! _ := flush_stream fuel v "flush usm" video in
                match a with Some a => flush_stream fuel a "flush usm" audio | None => fret tt end) in
     checked WriteTrailer "av_write_trailer usm").

Definition transcode_usm_file_to_mp4 (fuel : nat) (input output : path) : FM unit :=
  let! input_url := path_cstring input in
  with_input_file input_url None
    (let! _ := checked FindStreamInfo "avformat_find_stream_info usm" in
     let! v := find_best_stream MediaVideo in
     let! a := find_optional_best_stream MediaAudio in
     let! url := path_cstring output in
     with_output url
       (with_stream v CodecH264 (fun video =>
          match a with
          | Some a' => with_stream a' CodecAac (fun audio => usm_body fuel url v a video audio)
          | None => usm_body fuel url v a video (mkStreamState None 0)
          end))).

(** ** PCM audio *)

(** [Pcm16Encoder::encode_samples]; [layout] is [input_layout]. *)
Definition encode_samples (fuel : nat) (s sample_rate channels : Z) (layout : ChannelLayout) (samples : list Z) (st : stream_state)
  : FM stream_state :=
  if bool_decide (samples = []) then fret st
  else if (channels =? 0) || negb (zlen samples mod truncate 64 channels =? 0) then media_error "PCM16 sample chunk is not aligned to channel count"
  else
    let input := mkFrame (map pcm16 (chunks (Z.to_nat channels) samples)) 0 AV_SAMPLE_FMT_S16 sample_rate layout 0 0 in
    let! _ := checked (LayoutCopy layout) "av_channel_layout_copy pcm input frame" in
    let! _ := checked (FrameBuffer input) "av_frame_get_buffer pcm input frame" in
    asking (fun ff =>
      let e := encoder_info s ff in
      let needs_resample := negb (enc_sample_fmt e =? AV_SAMPLE_FMT_S16) || negb (enc_sample_rate e =? sample_rate)
                            || negb (bool_decide (enc_layout e = layout)) in
      let! f := (if needs_resample then resample_audio_frame e input else fret input) in
      submit fuel s true "avcodec_send_frame pcm" f st).

Definition pcm16_body (fuel : nat) (url : string) (channels : Z) (produce : ChannelLayout -> stream_state -> FM stream_state) : FM unit :=
  let! _ := open_io url in
  let! _ := checked WriteHeader "avformat_write_header pcm" in
  with_frame (with_frame (with_fifo 0 (fun fifo =>
    let! _ := (let! layout := default_for_channels channels in
               let! st := produce layout (mkStreamState fifo 0) in
               finish_encoder fuel 0 "pcm flush" st) in
    checked WriteTrailer "av_write_trailer pcm"))).

(** [encode_pcm16_to_file] with what [produce] does to the state of the stream. *)
Definition encode_pcm16_to_file (fuel : nat) (output : path) (codec : OutputCodec) (sample_rate channels : Z)
    (produce : ChannelLayout -> stream_state -> FM stream_state) : FM unit :=
  let! url := path_cstring output in
  with_output url
    (with_encoder 0 codec (fun st => configure_pcm16_encoder codec sample_rate channels (oformat_flags st)) "avcodec_open2 pcm encoder"
       "avformat_new_stream" " pcm"
       (pcm16_body fuel url channels produce)).

(** An HCA stream as [cridecoder] decodes it: its format, the chunks of samples it hands out,
    and whether decoding fails after them. *)
Record hca_stream : Type := mkHca { hca_rate : Z; hca_channels : Z; hca_chunks : list (list Z); hca_error : option string }.

(** The closure of [convert_hca_bytes_to_audio]: after the first failure of the encoder the
    remaining chunks are decoded and dropped. *)
Fixpoint feed (fuel : nat) (rate channels : Z) (layout : ChannelLayout) (cs : list (list Z)) (st : stream_state)
  : ff_world -> option (option ExportPipelineError * stream_state * ff_world) :=
  match cs with
  | [] => fun w => Some (None, st, w)
  | c :: cs =>
      fun w => match encode_samples fuel 0 rate channels layout c st w with
               | None => None
               | Some (Err e, w) => Some (Some e, st, w)
               | Some (Ok st, w) => feed fuel rate channels layout cs st w
               end
  end.

Definition produce_hca (fuel : nat) (hca : hca_stream) (rate channels : Z) (layout : ChannelLayout) (st : stream_state) : FM stream_state :=
  fun w => match feed fuel rate channels layout (hca_chunks hca) st w with
           | None => None
           | Some (encode_error, st, w) =>
               Some (match hca_error hca, encode_error with
                     | Some err, _ => Err (ExportMedia ("HCA decode failed: " +:+ err))
                     | None, Some e => Err e
                     | None, None => Ok st
                     end, w)
           end.

Variable hca_open : bytes -> result hca_stream string.

Definition ensure_ffmpeg_loaded : FM unit :=
  asking (fun st => let '(avformat_version, avcodec_version) := ff_versions st in
                    if (avformat_version =? 0) || (avcodec_version =? 0) then media_error "FFmpeg libraries are unavailable" else fret tt).

(** [x as i32] of an unsigned 32-bit number. *)
Definition as_i32 (x : Z) : Z := truncate 32 (x + 2 ^ 31) - 2 ^ 31.

Definition convert_hca_bytes_to_audio (fuel : nat) (hca_bytes : bytes) (output : path) (codec : OutputCodec) : FM unit :=
  let! _ := ensure_ffmpeg_loaded in
  match hca_open hca_bytes with
  | Err err => media_error ("HCA decode init failed: " +:+ err)
  | Ok hca =>
      let rate := as_i32 (hca_rate hca) in
      let channels := as_i32 (hca_channels hca) in
      encode_pcm16_to_file fuel output codec rate channels (produce_hca fuel hca rate channels)
  end.

(** The functions of the module, by their names in [Media.ffi_op]. *)
Definition run_ffi_op (fuel : nat) (op : ffi_op) : FM unit :=
  match op with
  | FfiUsmToMp4 usm mp4 => let! _ := ensure_ffmpeg_loaded in transcode_usm_file_to_mp4 fuel usm mp4
  | FfiM2vToMp4 m2v rate mp4 => let! _ := ensure_ffmpeg_loaded in transcode_file_to_file fuel m2v (Some "mpegvideo") mp4 CodecH264 rate
  | FfiM2vBytesToMp4 m2v rate mp4 => let! _ := ensure_ffmpeg_loaded in transcode_memory_to_file fuel m2v (Some "mpegvideo") mp4 CodecH264 rate
  | FfiWavToMp3 wav mp3 => let! _ := ensure_ffmpeg_loaded in transcode_file_to_file fuel wav None mp3 CodecMp3 None
  | FfiWavBytesToMp3 wav mp3 => let! _ := ensure_ffmpeg_loaded in transcode_memory_to_file fuel wav (Some "wav") mp3 CodecMp3 None
  | FfiHcaBytesToMp3 hca mp3 => convert_hca_bytes_to_audio fuel hca mp3 CodecMp3
  | FfiWavToFlac wav flac => let! _ := ensure_ffmpeg_loaded in transcode_file_to_file fuel wav None flac CodecFlac None
  | FfiWavBytesToFlac wav flac => let! _ := ensure_ffmpeg_loaded in transcode_memory_to_file fuel wav (Some "wav") flac CodecFlac None
  | FfiHcaBytesToFlac hca flac => convert_hca_bytes_to_audio fuel hca flac CodecFlac
  end.
End Conversions.

(** The same functions in a build without FFmpeg. *)
Definition ffi_disabled (op : ffi_op) : result unit ExportPipelineError :=
  Err (ExportMedia "FFmpeg FFI backend was not compiled; enable the `media-ffi` feature").

(** ** Input from memory refines a cursor *)

(** The specification: the bytes before and after the cursor. *)
Inductive memory_op : Type := ReadOp (buf_size : Z) | SeekOp (offset : Z) (whence : seek_whence).

Definition cursor : Type := bytes * bytes.
Definition cursor_data (c : cursor) : bytes := c.1 ++ c.2.

Definition cursor_seek (c : cursor) (target : Z) : Z * bytes * cursor :=
  if (0 <=? target) && (target <=? zlen (cursor_data c))
  then (target, [], (take (Z.to_nat target) (cursor_data c), drop (Z.to_nat target) (cursor_data c)))
  else (-1, [], c).

Definition cursor_op (op : memory_op) (c : cursor) : Z * bytes * cursor :=
  match op with
  | ReadOp n =>
      if bool_decide (c.2 = []) then (AVERROR_EOF, [], c)
      else let bs := take (Z.to_nat n) c.2 in (zlen bs, bs, (c.1 ++ bs, drop (Z.to_nat n) c.2))
  | SeekOp offset SeekSet => cursor_seek c offset
  | SeekOp offset SeekCur => cursor_seek c (zlen c.1 + offset)
  | SeekOp offset SeekEnd => cursor_seek c (zlen (cursor_data c) + offset)
  | SeekOp _ SeekSize => (zlen (cursor_data c), [], c)
  | SeekOp _ SeekOther => (-1, [], c)
  end.

Definition run_memory_op (op : memory_op) (input : MemoryInput) : Z * bytes * MemoryInput :=
  match op with
  | ReadOp n => read_memory_packet n input
  | SeekOp offset whence => let '(r, input) := seek_memory offset whence input in (r, [], input)
  end.

Fixpoint run_memory_ops {C} (step : memory_op -> C -> Z * bytes * C) (ops : list memory_op) (c : C) : list (Z * bytes) * C :=
  match ops with
  | [] => ([], c)
  | op :: ops => let '(code, bs, c) := step op c in let '(answers, c) := run_memory_ops step ops c in ((code, bs) :: answers, c)
  end.

Definition represents (input : MemoryInput) (c : cursor) : Prop := mi_data input = cursor_data c /\ mi_position input = zlen c.1.

(** The buffers FFmpeg offers are not empty. *)
Definition op_ok (op : memory_op) : Prop := match op with ReadOp n => 0 < n | SeekOp _ _ => True end.

Lemma cursor_seek_sim input c position :
  represents input c -> zlen (mi_data input) <= i64_max ->
  exists input', (if negb (in_i64 position) then (-1, input)
                  else if (position <? 0) || (zlen (mi_data input) <? position) then (-1, input)
                  else (position, mkMemoryInput (mi_data input) position))
                 = ((cursor_seek c position).1.1, input') /\ (cursor_seek c position).1.2 = [] /\ represents input' (cursor_seek c position).2.
Proof.
  intros [Hd Hp] Hlen. unfold cursor_seek. rewrite <- Hd. unfold in_i64, i64_min, i64_max in *.
  destruct (Z.leb_spec 0 position), (Z.leb_spec position (zlen (mi_data input))); cbn [andb fst snd].
  - replace (- 2 ^ 63 <=? position) with true by lia. replace (position <=? 2 ^ 63 - 1) with true by lia. cbn [negb andb].
    replace (position <? 0) with false by lia. replace (zlen (mi_data input) <? position) with false by lia. cbn [orb].
    eexists. split; [done|]. split; [done|]. split; cbn [mi_data mi_position fst].
    + unfold cursor_data. cbn. by rewrite take_drop.
    + unfold zlen in *. rewrite length_take. lia.
  - exists input. split; [|by split]. replace (position <? 0) with false by lia. replace (zlen (mi_data input) <? position) with true by lia.
    cbn. by destruct (negb _).
  - exists input. split; [|by split]. replace (position <? 0) with true by lia. cbn. by destruct (negb _).
  - exists input. split; [|by split]. replace (position <? 0) with true by lia. cbn. by destruct (negb _).
Qed.

Lemma seek_op_sim input c position :
  represents input c -> zlen (mi_data input) <= i64_max ->
  exists input', (let '(r, i) := if negb (in_i64 position) then (-1, input)
                  else if (position <? 0) || (zlen (mi_data input) <? position) then (-1, input)
                  else (position, mkMemoryInput (mi_data input) position) in (r, [], i)) = ((cursor_seek c position).1, input')
    /\ represents input' (cursor_seek c position).2 /\ mi_data input' = mi_data input.
Proof.
  intros Hr Hlen. destruct (cursor_seek_sim input c position Hr Hlen) as (i & E & Eb & Hr'). rewrite E.
  destruct (cursor_seek c position) as [[z bs] c']. cbn in *. subst bs. exists i. split; [done|]. split; [done|].
  revert E. repeat case_match; by intros [= _ <-].
Qed.

Lemma memory_op_sim op input c :
  op_ok op -> represents input c -> zlen (mi_data input) <= i64_max ->
  exists input', run_memory_op op input = ((cursor_op op c).1, input') /\ represents input' (cursor_op op c).2 /\ mi_data input' = mi_data input.
Proof.
  intros Hok Hr Hlen. destruct op as [n|offset []]; cbn [run_memory_op cursor_op op_ok seek_memory] in *.
  - destruct Hr as [Hd Hp]. unfold read_memory_packet. rewrite Hd, Hp. unfold cursor_data. rewrite zlen_app.
    destruct c as [b [|x a]]; cbn [fst snd].
    + rewrite bool_decide_eq_true_2 by done. change (zlen (@nil Byte.byte)) with 0.
      replace (zlen b + 0 <=? zlen b) with true by lia. exists input. split; [done|]. by split.
    + rewrite bool_decide_eq_false_2 by done. assert (0 < zlen (x :: a)) by (rewrite zlen_cons; pose proof (zlen_nonneg a); lia).
      replace (zlen b + zlen (x :: a) <=? zlen b) with false by lia.
      assert (Hmin : Z.min (zlen b + zlen (x :: a) - zlen b) n = zlen (take (Z.to_nat n) (x :: a)))
        by (unfold zlen in *; rewrite length_take; lia).
      assert (Hs : slice (b ++ x :: a) (zlen b) (zlen b + zlen (take (Z.to_nat n) (x :: a))) = take (Z.to_nat n) (x :: a)).
      { rewrite <- (take_drop (Z.to_nat n) (x :: a)) at 1. by apply slice_mid. }
      rewrite Hmin, Hs. eexists. split; [done|]. split; [|done]. split; cbn [mi_data mi_position fst snd cursor_data].
      * unfold cursor_data. cbn [fst snd]. by rewrite <- app_assoc, take_drop.
      * by rewrite zlen_app.
  - apply (seek_op_sim _ _ offset Hr Hlen).
  - replace (mi_position input) with (zlen c.1) by (symmetry; apply Hr). apply (seek_op_sim _ _ _ Hr Hlen).
  - replace (zlen (cursor_data c)) with (zlen (mi_data input)) by (f_equal; apply Hr). apply (seek_op_sim _ _ _ Hr Hlen).
  - exists input. destruct Hr as [Hd Hp]. unfold seek_memory. rewrite Hd. by split.
  - exists input. by split.
Qed.

(** C13: Input from memory refines a cursor over its bytes.  Whatever reads and seeks FFmpeg
    makes, with buffers that are not empty, the answers and the bytes handed out are those of
    a cursor: a read returns the next bytes, as many as fit, and the end of the file exactly
    when none is left; a seek moves exactly to the positions from 0 to the length, and fails
    without moving otherwise. *)
Theorem memory_input_refines_cursor ops input c :
  represents input c -> zlen (mi_data input) <= i64_max -> Forall op_ok ops ->
  (run_memory_ops run_memory_op ops input).1 = (run_memory_ops cursor_op ops c).1
  /\ represents (run_memory_ops run_memory_op ops input).2 (run_memory_ops cursor_op ops c).2.
Proof.
  intros Hr Hlen Hops. revert input c Hr Hlen. induction Hops as [|op ops Hop _ IH]; intros input c Hr Hlen; [done|].
  destruct (memory_op_sim op input c Hop Hr Hlen) as (input' & E & Hr' & Hd). cbn [run_memory_ops]. rewrite E.
  destruct (cursor_op op c) as [[code bs] c']. cbn in Hr'. specialize (IH input' c' Hr' ltac:(by rewrite Hd)).
  destruct (run_memory_ops run_memory_op ops input') as [answers i2], (run_memory_ops cursor_op ops c') as [answers' c2].
  cbn in *. destruct IH as [-> IH]. by split.
Qed.


(** ** Libraries in which every function works *)

Module Demo.
(** A stream 0 of audio and a stream 1 of video; a packet holds the samples of one frame. *)
Record demo : Type := mkDemo { d_input : list AVPacket; d_frames : list (Z * AVFrame Z); d_packets : list (Z * AVPacket) }.

Definition stereo : ChannelLayout := LayoutOf 2 3.
Definition sample_of (b : Byte.byte) : Z := Z.of_N (Byte.to_N b).
Definition frame_of (p : AVPacket) : AVFrame Z := mkFrame (map sample_of (p_content p)) 0 AV_SAMPLE_FMT_S16 48000 stereo 8 8.
Definition packet_of (s : Z) (f : AVFrame Z) : AVPacket := mkPacket s (map (fun _ => Byte.x00) (f_data f)).

Definition tape : list AVPacket :=
  [mkPacket 0 [Byte.x01; Byte.x02; Byte.x03]; mkPacket 1 [Byte.x09]; mkPacket 2 []; mkPacket 0 [Byte.x04; Byte.x05; Byte.x06]].

Fixpoint pop {A} (s : Z) (l : list (Z * A)) : option (A * list (Z * A)) :=
  match l with
  | [] => None
  | (s', x) :: l => if s' =? s then Some (x, l) else (fun y => (y.1, (s', x) :: y.2)) <$> pop s l
  end.

Definition demo_code (c : ff_call Z) (d : demo) : Z * demo :=
  match c with
  | OpenInput _ _ => (0, mkDemo tape [] [])
  | SendPacket s (Some p) => (0, mkDemo (d_input d) (d_frames d ++ [(s, frame_of p)]) (d_packets d))
  | SendFrame s (Some f) => (0, mkDemo (d_input d) (d_frames d) (d_packets d ++ [(s, packet_of s f)]))
  | _ => (0, d)
  end.

(** Audio wants frames of four samples. *)
Definition demo_encoder (s : Z) : EncoderInfo :=
  if s =? 0 then mkEncoderInfo MediaAudio (codec_id CodecFlac) 4 AV_SAMPLE_FMT_S16 48000 stereo 0 0 0
  else mkEncoderInfo MediaVideo (codec_id CodecH264) 0 0 0 stereo 1 4 4.

#[export] Instance demo_ffmpeg : FFmpeg demo (list Z) Z := {
  ff_versions := fun _ => (61, 61);
  ff_code := demo_code;
  ff_alloc := fun _ d => (true, d);
  ff_free := fun _ d => d;
  av_strerror := fun _ => None;
  av_find_input_format := fun _ => true;
  av_find_best_stream := fun t _ => match t with MediaAudio => 0 | MediaVideo => 1 | MediaOther _ => -1 end;
  avcodec_find_decoder := fun _ _ => true;
  avcodec_find_encoder := fun _ => true;
  pix_fmts := fun _ => None;
  sample_fmts := fun _ => Some [AV_SAMPLE_FMT_S16];
  decoder_info := fun _ _ => mkDecoderInfo 8 8 1 (mkRational 1 1) 48000 AV_SAMPLE_FMT_S16 stereo (mkRational 30 1);
  encoder_info := fun s _ => demo_encoder s;
  oformat_flags := fun _ => Some 0;
  avformat_new_stream := fun d => (true, d);
  av_read_frame := fun d => match d_input d with
                            | [] => (AVERROR_EOF, mkPacket 0 [], d)
                            | p :: l => (0, p, mkDemo l (d_frames d) (d_packets d))
                            end;
  avcodec_receive_frame := fun s d => match pop s (d_frames d) with
                                      | None => (AVERROR_EAGAIN, mkFrame [] 0 0 0 stereo 0 0, d)
                                      | Some (f, l) => (0, f, mkDemo (d_input d) l (d_packets d))
                                      end;
  avcodec_receive_packet := fun s d => match pop s (d_packets d) with
                                       | None => (AVERROR_EAGAIN, mkPacket 0 [], d)
                                       | Some (p, l) => (0, p, mkDemo (d_input d) (d_frames d) l)
                                       end;
  swr_convert_frame := fun _ f d => (0, f_data f, d);
  sws_scale := fun _ f _ => f_data f;
  av_channel_layout_default := fun n => LayoutOf n (2 ^ n - 1);
  silence := 0;
  pcm16 := fun c => hd 0 c;
  av_audio_fifo_alloc := [];
  av_audio_fifo_size := fun q => zlen q;
  av_audio_fifo_write := fun d q => (zlen d, q ++ d);
  av_audio_fifo_read := fun n q => (n, take (Z.to_nat n) q, drop (Z.to_nat n) q)
}.

Definition start : @ff_world demo Z := mkFf (mkDemo [] [] []) [] false.

(** Two chunks of stereo samples. *)
Definition hca : hca_stream := mkHca 48000 2 [[11; 0; 12; 0; 13; 0]; []; [14; 0; 15; 0; 16; 0]] None.
Definition open_hca (_ : bytes) : result hca_stream string := Ok hca.

Definition wav : path := components "/in.wav".
Definition out : path := components "/out.flac".
Definition mp4 : path := components "/out.mp4".
End Demo.

Module Examples.
Import Demo.

(** The packets of a conversion of two frames of three samples: a frame of four and one of two. *)
Example wav_to_flac_result : exists w, run_ffi_op open_hca 20 (FfiWavToFlac wav out) start = Some (Ok tt, w)
  /\ omap (fun e => match e with Called (SendFrame _ (Some f)) _ => Some (f_data f, f_pts f) | _ => None end) (ff_log w) = [([1; 2; 3; 4], 0); ([5; 6], 4)].
Proof. vm_compute. by eexists. Qed.

Lemma memory_input_refines_cursor_witness :
  run_memory_ops run_memory_op [ReadOp 2; SeekOp (-1) SeekCur; ReadOp 8; ReadOp 1; SeekOp 4 SeekSet] (mkMemoryInput [Byte.x01; Byte.x02; Byte.x03] 0)
  = ([(2, [Byte.x01; Byte.x02]); (1, []); (2, [Byte.x02; Byte.x03]); (AVERROR_EOF, []); (-1, [])], mkMemoryInput [Byte.x01; Byte.x02; Byte.x03] 3)
  /\ (run_memory_ops run_memory_op [ReadOp 2; SeekOp (-1) SeekCur; ReadOp 8; ReadOp 1; SeekOp 4 SeekSet] (mkMemoryInput [Byte.x01; Byte.x02; Byte.x03] 0)).1
     = (run_memory_ops cursor_op [ReadOp 2; SeekOp (-1) SeekCur; ReadOp 8; ReadOp 1; SeekOp 4 SeekSet] ([], [Byte.x01; Byte.x02; Byte.x03])).1.
Proof.
  split; [reflexivity|].
  apply (memory_input_refines_cursor [ReadOp 2; SeekOp (-1) SeekCur; ReadOp 8; ReadOp 1; SeekOp 4 SeekSet]
           (mkMemoryInput [Byte.x01; Byte.x02; Byte.x03] 0) ([], [Byte.x01; Byte.x02; Byte.x03])); [by split | by vm_compute | by repeat constructor].
Defined.
End Examples.
