(* ===== verification/FfmpegEffects.v ===== *)
(** * What a conversion with FFmpeg does

    A logic for the conversions of [Ffmpeg.v]: the events that every run of a step adds to the
    log, with rules for the resources it owns and for its loops.  Its instances show in which
    order the output is written and that every resource is released, [io_opened] included. *)

From S2P Require Import Prelude RustStr Errors Paths Media Ffmpeg.

Local Open Scope string_scope.
Local Open Scope list_scope.
Local Open Scope Z_scope.
Local Open Scope rust_scope.

(** ** What a conversion does *)

Section Effects.
Context {F Q X : Type} `{FFmpeg F Q X}.
Abbreviation FM := (@FM F X).
Abbreviation E := ExportPipelineError.
(** A relation between [io_opened] before, the result, the events and [io_opened] after. *)
Abbreviation effect := (forall T : Type, bool -> result T E -> list (event X) -> bool -> Prop).
#[local] Notation "'let!' x := m 'in' k" := (fbind m (fun x => k)) (at level 10, x pattern, m at level 100, k at level 200).

(** Every run of [m] that returns is related by [R]. *)
Definition adds {T} (m : FM T) (R : bool -> result T E -> list (event X) -> bool -> Prop) : Prop :=
  forall w r w', m w = Some (r, w') -> exists evs, ff_log w' = ff_log w ++ evs /\ R (io_opened w) r evs (io_opened w').

Lemma adds_impl {T} (m : FM T) (R R' : bool -> result T E -> list (event X) -> bool -> Prop) :
  adds m R -> (forall b r evs b', R b r evs b' -> R' b r evs b') -> adds m R'.
Proof. intros Hm Hi w r w' Em. destruct (Hm w r w' Em) as (evs & El & HR). eauto. Qed.

Lemma adds_fres {T} (r : result T E) (R : bool -> result T E -> list (event X) -> bool -> Prop) : (forall b, R b r [] b) -> adds (fres r) R.
Proof. intros HR w r' w' [= <- <-]. exists []. by rewrite app_nil_r. Qed.

Lemma adds_bind {A B} (m : FM A) (k : A -> FM B) R1 R2 (R : bool -> result B E -> list (event X) -> bool -> Prop) :
  adds m R1 -> (forall x, adds (k x) (R2 x)) ->
  (forall x r e1 e2 b b1 b2, R1 b (Ok x) e1 b1 -> R2 x b1 r e2 b2 -> R b r (e1 ++ e2) b2) ->
  (forall e evs b b', R1 b (Err e) evs b' -> R b (Err e) evs b') -> adds (fbind m k) R.
Proof.
  intros Hm Hk Hok Herr w r w'. unfold fbind. destruct (m w) as [[[x|e] w1]|] eqn:Em; [..|done].
  - intros Ek. destruct (Hm _ _ _ Em) as (e1 & E1 & HR1), (Hk x _ _ _ Ek) as (e2 & E2 & HR2).
    exists (e1 ++ e2). rewrite E2, E1, app_assoc. eauto.
  - intros [= <- <-]. destruct (Hm _ _ _ Em) as (e1 & E1 & HR1). eauto.
Qed.

Lemma adds_asking {T} (k : F -> FM T) R : (forall st, adds (k st) R) -> adds (asking k) R.
Proof. intros Hk w r w' Em. by apply (Hk (ff_state w)). Qed.

Lemma adds_stepping {Y} (f : F -> Y * F) : adds (stepping f) (fun b r evs b' => b' = b /\ evs = [] /\ is_ok r = true).
Proof. intros w r w'. unfold stepping. destruct (f (ff_state w)) as [y st]. intros [= <- <-]. by exists []. Qed.

Lemma adds_note (e : event X) : adds (note e) (fun b r evs b' => b' = b /\ evs = [e] /\ r = Ok tt).
Proof. intros w r w' [= <- <-]. by exists [e]. Qed.

Lemma adds_check code operation :
  adds (check code operation) (fun b r evs b' => b' = b /\ evs = [] /\ ((r = Ok tt /\ 0 <= code) \/ (is_ok r = false /\ code < 0))).
Proof. unfold check. apply adds_fres. intros b. destruct (Z.leb_spec 0 code); auto. Qed.

Lemma adds_checked (c : ff_call X) operation :
  adds (checked c operation)
    (fun b r evs b' => b' = b /\ exists code, evs = [Called c code] /\ ((r = Ok tt /\ 0 <= code) \/ (is_ok r = false /\ code < 0))).
Proof.
  intros w r w'. unfold checked, call, check, fbind, stepping, note, fret. destruct (ff_code c (ff_state w)) as [code st].
  intros [= <- <-]. exists [Called c code]. cbn. rewrite app_nil_r. split; [done|]. split; [done|]. exists code. split; [done|].
  destruct (Z.leb_spec 0 code); auto.
Qed.

Lemma adds_allocate r0 message :
  adds (allocate r0 message) (fun b r evs b' => b' = b /\ ((r = Ok tt /\ evs = [Alloc r0]) \/ (is_ok r = false /\ evs = []))).
Proof.
  intros w r w'. unfold allocate, fbind, stepping, note. destruct (ff_alloc r0 (ff_state w)) as [[] st]; intros [= <- <-].
  - exists [Alloc r0]. cbn. rewrite app_nil_r. auto.
  - exists []. cbn. auto.
Qed.

Lemma adds_finally {T} r0 (m : FM T) R :
  adds m R -> adds (finally r0 m) (fun b r evs b' => exists evs', R b r evs' b' /\ evs = evs' ++ [Free r0]).
Proof.
  intros Hm w r w'. unfold finally. destruct (m w) as [[r1 w1]|] eqn:Em; [|done]. intros [= <- <-].
  destruct (Hm _ _ _ Em) as (evs & El & HR). exists (evs ++ [Free r0]). cbn. rewrite El, app_assoc. split; [done|]. eauto.
Qed.

(** *** Effects that compose *)

(** What may be lost: the buffer of the callbacks always, the rest when a conversion fails. *)
Definition leaky (ok : bool) (r : resource) : Prop := r = RAvioBuffer \/ (ok = false /\ (r = RInput \/ r = RSwr \/ r = RFifo)).

(** [P] may follow [Pq] and may be wrapped in the resources of the code. *)
Class Follows (Pq P : effect) : Prop := {
  follows_app : forall A B (x : A) (r : result B E) e1 e2 b b1 b2, Pq A b (Ok x) e1 b1 -> P B b1 r e2 b2 -> P B b r (e1 ++ e2) b2;
  follows_err : forall A B (e e' : E) evs b b', Pq A b (Err e) evs b' -> P B b (Err e') evs b';
  follows_wrap : forall A rs rs' lost (r : result A E) evs b b', Permutation rs (rs' ++ lost) -> ROutputFile ∉ rs ->
    Forall (leaky (is_ok r)) lost -> P A b r evs b' -> P A b r (map Alloc rs ++ evs ++ map Free rs') b'
}.

(** The calls that matter to none of the properties below. *)
Definition plain_call (c : ff_call X) : bool :=
  match c with WriteFrame _ _ | WriteHeader | WriteTrailer | SendFrame _ (Some _) => false | _ => true end.

(** Small steps satisfy [P]. *)
Class Quiet (P : effect) : Prop := {
  quiet_follows :: Follows P P;
  quiet_nil : forall A (r : result A E) b, P A b r [] b;
  quiet_ok : forall A B (x : A) (y : B) evs b b', P A b (Ok x) evs b' -> P B b (Ok y) evs b';
  quiet_call : forall c code (r : result unit E) b, plain_call c = true -> (r = Ok tt /\ 0 <= code) \/ (is_ok r = false /\ code < 0) ->
    P unit b r [Called c code] b
}.

(** What [P] becomes when the output is closed. *)
Class Closes (P P' : effect) : Prop := {
  closes : forall A (r : result A E) evs b b', P A false r evs b' ->
    P' A b r (Alloc ROutput :: evs ++ (if b' then [Free ROutputFile] else []) ++ [Free ROutput]) b
}.

Section Brackets.
Context {Pq P : effect} `{!Quiet Pq} `{!Follows Pq P}.

Lemma follows_own A rs rs' (r : result A E) evs b b' :
  Permutation rs rs' -> ROutputFile ∉ rs -> P A b r evs b' -> P A b r (map Alloc rs ++ evs ++ map Free rs') b'.
Proof. intros Hp Ho HP. eapply (follows_wrap _ _ _ []); [by rewrite app_nil_r | done | constructor | done]. Qed.

Lemma follows_leak A r0 (r : result A E) evs b b' :
  leaky (is_ok r) r0 -> r0 <> ROutputFile -> P A b r evs b' -> P A b r (Alloc r0 :: evs) b'.
Proof.
  intros Hl Ho HP. rewrite <- (app_nil_r evs). apply (follows_wrap _ [r0] [] [r0] r evs); [done | set_solver | by constructor | done].
Qed.

Lemma follows_bind {A B} (m : FM A) (k : A -> FM B) : adds m (Pq A) -> (forall x, adds (k x) (P B)) -> adds (fbind m k) (P B).
Proof.
  intros Hm Hk. eapply adds_bind; [exact Hm | exact Hk | |].
  - intros. by eapply follows_app.
  - intros. by eapply follows_err.
Qed.

Lemma quiet_fret {A} (x : A) : adds (fret x) (Pq A).
Proof. apply adds_fres. intros b. apply quiet_nil. Qed.

Lemma follows_error {A} message : adds (media_error message) (P A).
Proof. apply adds_fres. intros b. eapply follows_err, (quiet_nil A (Err (ExportMedia EmptyString))). Qed.

Lemma quiet_checked c operation : plain_call c = true -> adds (checked c operation) (Pq unit).
Proof.
  intros Hc. eapply adds_impl; [apply adds_checked|]. intros b r evs b' (-> & code & -> & Hr). by apply quiet_call.
Qed.

Lemma follows_owning {A} r0 message (m : FM A) : r0 <> ROutputFile -> adds m (P A) -> adds (owning r0 message m) (P A).
Proof.
  intros Hr0 Hm. eapply adds_bind; [apply adds_allocate | intros x; apply adds_finally; exact Hm | |].
  - intros x r e1 e2 b b1 b2 (-> & [[_ ->]|[Hx _]]) (evs' & HP & ->); [|done].
    apply (follows_own _ [r0] [r0]); [done | set_solver | done].
  - intros e evs b b' (-> & [[He _]|[_ ->]]); [done|]. eapply follows_err, (quiet_nil A (Err (ExportMedia EmptyString))).
Qed.

Lemma quiet_stepping {Y} (f : F -> Y * F) : adds (stepping f) (Pq Y).
Proof. eapply adds_impl; [apply adds_stepping|]. intros b r evs b' (-> & -> & _). apply quiet_nil. Qed.

Lemma quiet_check code operation : adds (check code operation) (Pq unit).
Proof. eapply adds_impl; [apply adds_check|]. intros b r evs b' (-> & -> & _). apply quiet_nil. Qed.

Lemma quiet_default_or_copy l : adds (default_or_copy l) (Pq ChannelLayout).
Proof.
  destruct l; [apply quiet_fret|]. eapply adds_bind; [by apply (quiet_checked (LayoutCopy _)) | intros x; apply quiet_fret | |].
  - intros. by eapply follows_app.
  - intros. by eapply follows_err.
Qed.
End Brackets.

Section Bracketed.
Context {Pq P : effect} `{!Quiet Pq} `{!Follows Pq P}.
#[local] Hint Resolve quiet_fret quiet_default_or_copy : core.

Lemma quiet_cstring p : adds (path_cstring p) (Pq string).
Proof. unfold path_cstring. destruct (nul_position _); [apply (follows_error (Pq := Pq)) | auto]. Qed.

Lemma quiet_format f : adds (input_format_ptr f) (Pq unit).
Proof. unfold input_format_ptr. repeat case_match; auto; apply (follows_error (Pq := Pq)). Qed.

Lemma follows_decoder {A} s tag (body : FM A) : adds body (P A) -> adds (with_decoder s tag body) (P A).
Proof.
  intros Hb. apply adds_asking. intros st. destruct (negb _); [apply follows_error|]. apply follows_owning; [done|].
  apply follows_bind; [by apply quiet_checked | intros _]. apply follows_bind; [by apply quiet_checked | done].
Qed.

Lemma follows_encoder {A} s codec settings n1 n2 tag (body : FM A) : adds body (P A) -> adds (with_encoder s codec settings n1 n2 tag body) (P A).
Proof.
  intros Hb. unfold with_encoder. destruct (negb _); [apply follows_error|]. apply follows_owning; [done|]. apply adds_asking. intros st.
  apply follows_bind; [by apply quiet_checked | intros _]. apply follows_bind; [apply quiet_stepping | intros ok].
  destruct ok; [|apply follows_error]. apply follows_bind; [by apply quiet_checked | done].
Qed.

Lemma follows_fifo {A} s (body : option AudioFifo -> FM A) : (forall q, adds (body q) (P A)) -> adds (with_fifo s body) (P A).
Proof.
  intros Hb. apply adds_asking. intros st. cbv zeta.
  destruct (_ || _); [apply Hb|]. apply follows_bind; [apply quiet_default_or_copy | intros layout].
  eapply adds_bind; [apply adds_allocate | | |].
  - intros x0. eapply adds_bind with (R := fun b r evs b' => match r with Ok _ => exists evs', P A b r evs' b' /\ evs = Alloc RFrame :: evs' ++ [Free RFifo; Free RFrame]
                                               | Err e => P A b (Err e) (Alloc RFifo :: evs) b' end);
      [apply adds_allocate | intros x; apply adds_finally, adds_finally, Hb | |].
    + intros x r e1 e2 b b1 b2 (-> & [[_ ->]|[Hx _]]) (e3 & (e4 & HP & ->) & ->); [|done]. rewrite <- app_assoc. destruct r as [y|e].
      * eauto.
      * apply (follows_own _ [RFifo; RFrame] [RFifo; RFrame]); [done | set_solver | done].
    + intros e evs b b' (-> & [[He _]|[_ ->]]); [done|]. apply follows_leak; [by right; split; [|right; right] | done |]. eapply follows_err, (quiet_nil A (Err (ExportMedia EmptyString))).
  - intros x r e1 e2 b b1 b2 (-> & [[_ ->]|[Hx _]]) HR; [|done]. destruct r as [y|e]; [|exact HR]. destruct HR as (evs' & HP & ->).
    apply (follows_own _ [RFifo; RFrame] [RFifo; RFrame]); [done | set_solver | done].
  - intros e evs b b' (-> & [[He _]|[_ ->]]); [done|]. eapply follows_err, (quiet_nil A (Err (ExportMedia EmptyString))).
Qed.

Lemma follows_file {A} url format (body : FM A) : adds body (P A) -> adds (with_input_file url format body) (P A).
Proof.
  intros Hb. unfold with_input_file. apply follows_bind; [apply quiet_format | intros _]. apply follows_bind; [by apply quiet_checked | intros _].
  eapply adds_bind; [apply adds_note | intros x; apply adds_finally, Hb | |].
  - intros x r e1 e2 b b1 b2 (-> & -> & _) (evs' & HP & ->). apply (follows_own _ [RInput] [RInput]); [done | set_solver | done].
  - by intros e evs b b' (_ & _ & ?).
Qed.

Lemma adds_avio :
  adds custom_avio (fun b r evs b' => b' = b /\ ((r = Ok tt /\ evs = [Alloc RAvioBuffer; Alloc RAvio])
                                              \/ (is_ok r = false /\ (evs = [] \/ evs = [Alloc RAvioBuffer; Free RAvioBuffer])))).
Proof.
  intros w r w'. unfold custom_avio. unfold fbind at 1.
  destruct (allocate RAvioBuffer _ w) as [[[[]|e] w1]|] eqn:E1; [..|done];
    destruct (adds_allocate _ _ _ _ _ E1) as (e1 & El1 & Hb1 & [[Hr1 ->]|[Hr1 ->]]); try done.
  - destruct (allocate RAvio _ w1) as [[[[]|e] w2]|] eqn:E2; [..|done];
      destruct (adds_allocate _ _ _ _ _ E2) as (e2 & El2 & Hb2 & [[Hr2 ->]|[Hr2 ->]]); try done; intros [= <- <-].
    + exists [Alloc RAvioBuffer; Alloc RAvio]. rewrite El2, El1, <- app_assoc. split; [done|]. split; [congruence|]. by left.
    + exists [Alloc RAvioBuffer; Free RAvioBuffer]. cbn. rewrite El2, El1, app_nil_r, <- app_assoc. split; [done|]. split; [congruence|].
      right. split; [done|]. by right.
  - intros [= <- <-]. exists []. split; [done|]. split; [done|]. right. split; [done|]. by left.
Qed.

Lemma call_finally {A} c operation r0 (body : FM A) w :
  (let! code := call c in finally r0 (let! _ := check code operation in body)) w = finally r0 (let! _ := checked c operation in body) w.
Proof.
  unfold checked, call, finally, fbind, stepping, note, fret. destruct (ff_code c (ff_state w)) as [code st].
  unfold check, fres. by destruct (0 <=? code).
Qed.

Lemma adds_ext {A} (m m' : FM A) R : (forall w, m w = m' w) -> adds m' R -> adds m R.
Proof. intros Hm H' w r w' Em. rewrite Hm in Em. by apply H'. Qed.

(** The part of [with_input_memory] that owns the context of the callbacks. *)
Definition open_memory_input {A} (data : bytes) (format : option string) (body : FM A) : FM A :=
  let! _ := input_format_ptr format in
  finally RInput (let! _ := checked (OpenInput (FromMemory data) format) "avformat_open_input memory" in body).

Lemma adds_open_memory {A} data format (body : FM A) : adds body (P A) ->
  adds (open_memory_input data format body)
    (fun b r evs b' => (exists e, r = Err e /\ P A b (Err e) evs b') \/ exists evs', P A b r evs' b' /\ evs = evs' ++ [Free RInput]).
Proof.
  intros Hb. eapply adds_bind; [apply quiet_format | intros x; apply (adds_finally RInput (fbind _ _) (P A)) | |].
  - apply follows_bind; [by apply (quiet_checked (OpenInput _ _)) | intros _; exact Hb].
  - intros x r e1 e2 b b1 b2 H1 (evs' & HP & ->). right. exists (e1 ++ evs'). rewrite app_assoc. split; [by eapply follows_app | done].
  - intros e evs b b' H1. left. exists e. split; [done|]. by eapply follows_err.
Qed.

Lemma follows_memory {A} data format (body : FM A) : adds body (P A) -> adds (with_input_memory data format body) (P A).
Proof.
  intros Hb. eapply adds_ext with (m' := let! _ := allocate RInput "avformat_alloc_context failed" in
                                         let! _ := custom_avio in finally RAvio (open_memory_input data format body)).
  { intros w. unfold with_input_memory, open_memory_input, fbind, finally.
    destruct (allocate _ _ w) as [[[] w1]|]; [|done..]. destruct (custom_avio w1) as [[[] w2]|]; [|done..].
    destruct (input_format_ptr format w2) as [[[] w3]|]; [|done..]. f_equal. apply (call_finally (OpenInput _ _)). }
  eapply adds_bind; [apply adds_allocate | | |].
  - intros x. eapply adds_bind with (R := fun b r evs b' => P A b r (Alloc RInput :: evs) b');
      [apply adds_avio | intros y; apply adds_finally, adds_open_memory, Hb | |].
    + intros y r e1 e2 b b1 b2 (-> & [[_ ->]|[Hy _]]) (evs & HR & ->); [|done]. destruct HR as [(e & -> & HP)|(evs' & HP & ->)].
      * apply (follows_wrap _ [RInput; RAvioBuffer; RAvio] [RAvio] [RInput; RAvioBuffer]); [symmetry; apply (Permutation_cons_append [RInput; RAvioBuffer]) | set_solver | | done].
        constructor; [by right; split; [|left] | by constructor; [left|constructor]].
      * rewrite <- app_assoc. apply (follows_wrap _ [RInput; RAvioBuffer; RAvio] [RInput; RAvio] [RAvioBuffer]); [| set_solver | | done].
        { constructor. apply perm_swap. }
        { by constructor; [left|constructor]. }
    + intros e evs b b' (-> & [[He _]|[_ He]]); [done|]. apply follows_leak; [by right; split; [|left] | done |]. destruct He as [->| ->].
      * eapply follows_err, (quiet_nil A (Err (ExportMedia EmptyString))).
      * apply (follows_own _ [RAvioBuffer] [RAvioBuffer] _ []); [done | set_solver |]. eapply follows_err, (quiet_nil A (Err (ExportMedia EmptyString))).
  - intros x r e1 e2 b b1 b2 (-> & [[_ ->]|[Hx _]]) HR; done.
  - intros e evs b b' (-> & [[He _]|[_ ->]]); [done|]. eapply follows_err, (quiet_nil A (Err (ExportMedia EmptyString))).
Qed.

Lemma closes_output {P' : effect} `{!Follows Pq P'} `{!Closes P P'} {A} url (body : FM A) : adds body (P A) -> adds (with_output url body) (P' A).
Proof.
  intros Hb. unfold with_output. apply (follows_bind (P := P')); [by apply (quiet_checked (AllocOutput url)) | intros x].
  eapply adds_bind with (R2 := fun _ b r evs b' => b' = b /\ exists evs' b1, P A false r evs' b1
    /\ evs = evs' ++ (if b1 then [Free ROutputFile] else []) ++ [Free ROutput]); [apply adds_allocate | intros y w r w' | |].
  - destruct (body _) as [[r1 w1]|] eqn:Em; [|done]. intros [= <- <-]. destruct (Hb _ _ _ Em) as (evs & El & HP).
    exists (evs ++ (if io_opened w1 then [Free ROutputFile] else []) ++ [Free ROutput]). split; [|split; [done|]; eauto].
    cbn in El |- *. destruct (io_opened w1); cbn; by rewrite El, <- !app_assoc.
  - intros y r e1 e2 b b1 b2 (-> & [[_ ->]|[Hy _]]) (-> & evs & b3 & HP & ->); [|done]. by apply closes.
  - intros e evs b b' (-> & [[He _]|[_ ->]]); [done|]. eapply follows_err, (quiet_nil A (Err (ExportMedia EmptyString))).
Qed.
End Bracketed.

(** *** The loops *)

(** What the loops add to the small steps: packets moved, frames sent and frames decoded. *)
Class Drains (P : effect) : Prop := {
  drains_quiet :: Quiet P;
  drains_packet : forall s p code (r : result unit E) b, (r = Ok tt /\ 0 <= code) \/ (is_ok r = false /\ code < 0) ->
    P unit b r [Received s p; Called (WriteFrame s p) code] b
}.

Class Loops (P : effect) : Prop := {
  loops_drains :: Drains P;
  loops_send : forall s f code (r : result unit E) b, (r = Ok tt /\ 0 <= code) \/ (is_ok r = false /\ code < 0) ->
    P unit b r [Called (SendFrame s (Some f)) code] b;
  loops_decoded : forall A (x : A) s f b, P A b (Ok x) [Decoded s f] b
}.

Section Draining.
Context {P : effect} `{!Drains P}.

Lemma loops_bind {A B} (m : FM A) (k : A -> FM B) : adds m (P A) -> (forall x, adds (k x) (P B)) -> adds (fbind m k) (P B).
Proof. apply follows_bind. Qed.

Lemma loops_error {A} message : adds (media_error message) (P A).
Proof. apply (follows_error (Pq := P)). Qed.

Lemma loops_owning {A} r0 message (m : FM A) : r0 <> ROutputFile -> adds m (P A) -> adds (owning r0 message m) (P A).
Proof. apply (follows_owning (Pq := P)). Qed.

Lemma loops_none {A} : adds (fun _ => None) (P A).
Proof. by intros w r w'. Qed.

Lemma loops_packet_written s p operation : adds (let! _ := note (Received s p) in checked (WriteFrame s p) operation) (P unit).
Proof.
  eapply adds_bind; [apply adds_note | intros x; apply adds_checked | |].
  - intros x r e1 e2 b b1 b2 (-> & -> & _) (-> & code & -> & Hr). by apply drains_packet.
  - by intros e evs b b' (_ & _ & ?).
Qed.

Lemma fbind_assoc {A B C} (m : FM A) (k : A -> FM B) (l : B -> FM C) w :
  (let! x := m in let! y := k x in l y) w = (let! y := (let! x := m in k x) in l y) w.
Proof. unfold fbind. by destruct (m w) as [[[] ?]|]. Qed.

Lemma loops_drain fuel s : adds (drain_encoder fuel s) (P unit).
Proof.
  apply loops_owning; [discriminate|]. induction fuel as [|fuel IH]; [apply loops_none|]. cbn [drain_loop].
  apply loops_bind; [apply quiet_stepping | intros [ret p]]. destruct (_ || _); [apply quiet_fret|].
  apply loops_bind; [apply quiet_check | intros _]. eapply adds_ext; [apply fbind_assoc|].
  apply loops_bind; [apply loops_packet_written | intros _; exact IH].
Qed.

End Draining.

Section Inner.
Context {P : effect} `{!Loops P}.

Lemma loops_send_frame s f operation : adds (checked (SendFrame s (Some f)) operation) (P unit).
Proof. eapply adds_impl; [apply adds_checked|]. intros b r evs b' (-> & code & -> & Hr). by apply loops_send. Qed.

Lemma loops_note_decoded s f : adds (note (Decoded s f)) (P unit).
Proof. eapply adds_impl; [apply adds_note|]. intros b r evs b' (-> & -> & ->). apply loops_decoded. Qed.

Ltac effects_with known :=
  repeat first
    [ known | assumption | apply loops_none | apply quiet_fret | apply quiet_stepping | apply quiet_check | apply loops_error
    | apply loops_send_frame | apply loops_note_decoded | apply quiet_default_or_copy
    | apply loops_drain | apply quiet_checked; reflexivity | apply loops_owning; [discriminate|] | apply adds_asking; intros ?
    | match goal with
      | |- adds (match ?x with _ => _ end) _ => destruct x
      | |- adds (let '(_, _) := ?x in _) _ => destruct x
      end
    | apply loops_bind; [|intros ?] | progress cbv zeta | done ].
Ltac effects := effects_with fail.

Lemma loops_push f q : adds (fifo_push f q) (P AudioFifo).
Proof. unfold fifo_push. effects. Qed.

Lemma loops_encode fuel fuel' s flush q index : adds (encode_available fuel fuel' s flush q index) (P (AudioFifo * Z)%type).
Proof.
  revert q index. induction fuel as [|fuel IH]; intros q index; [apply loops_none|]. cbn [encode_available]. effects.
Qed.

(** A conversion context that is lost when it cannot be initialized. *)
Lemma loops_swr {A} (m : FM A) : adds m (P A) -> adds (let! _ := swr_new in finally RSwr m) (P A).
Proof.
  intros Hm. assert (Hinit : adds (let! _ := checked SwrInit "swr_init" in finally RSwr m)
    (fun b r evs b' => (exists evs', P A b r evs' b' /\ evs = evs' ++ [Free RSwr]) \/ exists e, r = Err e /\ P A b (Err e) evs b')).
  { eapply adds_bind; [apply (quiet_checked (Pq := P) SwrInit); done | intros y; apply adds_finally, Hm | |].
    - intros y r e1 e2 b b1 b2 H1 (evs & HP & ->). left. exists (e1 ++ evs). rewrite app_assoc. split; [by eapply follows_app | done].
    - intros e evs b b' H1. right. exists e. split; [done|]. by eapply follows_err. }
  eapply adds_ext with (m' := let! _ := checked SwrAlloc "swr_alloc_set_opts2" in
    let! _ := allocate RSwr "swr_alloc_set_opts2 returned null" in let! _ := checked SwrInit "swr_init" in finally RSwr m).
  { intros w. unfold swr_new, fbind. destruct (checked SwrAlloc _ w) as [[[] ?]|]; [|done..]. by destruct (allocate _ _ _) as [[[] ?]|]. }
  apply loops_bind; [by apply (quiet_checked SwrAlloc) | intros _]. eapply adds_bind; [apply adds_allocate | intros x; exact Hinit | |].
  - intros x r e1 e2 b b1 b2 (-> & [[_ ->]|[Hx _]]) [(evs & HP & ->)|(e & -> & HP)]; [| |done|done].
    + apply (follows_own (Pq := P) _ [RSwr] [RSwr]); [done | set_solver | done].
    + apply (follows_leak (Pq := P)); [by right; split; [|right; left] | done | done].
  - intros e evs b b' (-> & [[He _]|[_ ->]]); [done|]. apply quiet_nil.
Qed.

Lemma loops_resample e f : adds (resample_audio_frame e f) (P (AVFrame X)).
Proof. unfold resample_audio_frame. do 3 (apply loops_bind; [effects | intros ?]). apply loops_swr. effects. Qed.

Lemma loops_prepare e f index : adds (prepare_frame_for_encoder e f index) (P (AVFrame X * Z)%type).
Proof. unfold prepare_frame_for_encoder, scale_video_frame. effects_with ltac:(apply loops_resample). Qed.

Lemma loops_submit fuel s audio operation f st : adds (submit fuel s audio operation f st) (P stream_state).
Proof. unfold submit. effects_with ltac:(first [apply loops_push | apply loops_encode]). Qed.

Lemma loops_decode fuel fuel' s st : adds (drain_decoder_to_encoder fuel fuel' s st) (P stream_state).
Proof.
  revert st. induction fuel as [|fuel IH]; intros st; [apply loops_none|]. cbn [drain_decoder_to_encoder].
  effects_with ltac:(first [apply loops_prepare | apply loops_submit | apply IH]).
Qed.

Lemma loops_send_packet fuel s p st : adds (send_packet_and_encode fuel s p st) (P stream_state).
Proof. unfold send_packet_and_encode. effects_with ltac:(apply loops_decode). Qed.

Lemma loops_finish fuel s tag st : adds (finish_encoder fuel s tag st) (P unit).
Proof. unfold finish_encoder. effects_with ltac:(apply loops_encode). Qed.

Lemma loops_flush fuel s tag st : adds (flush_stream fuel s tag st) (P unit).
Proof. unfold flush_stream. apply loops_bind; [effects | intros _]. apply loops_bind; [apply loops_decode | intros st'; apply loops_finish]. Qed.

Lemma loops_read fuel fuel' s st : adds (read_loop fuel fuel' s st) (P stream_state).
Proof.
  revert st. induction fuel as [|fuel IH]; intros st; [apply loops_none|]. cbn [read_loop]. effects_with ltac:(first [apply loops_send_packet | apply IH]).
Qed.

Lemma loops_usm fuel fuel' v a video audio : adds (usm_loop fuel fuel' v a video audio) (P (stream_state * stream_state)%type).
Proof.
  revert video audio. induction fuel as [|fuel IH]; intros video audio; [apply loops_none|]. cbn [usm_loop].
  effects_with ltac:(first [apply loops_send_packet | apply IH]).
Qed.

Lemma loops_samples fuel s rate channels layout samples st : adds (encode_samples fuel s rate channels layout samples st) (P stream_state).
Proof. unfold encode_samples. effects_with ltac:(first [apply loops_resample | apply loops_submit]). Qed.

Lemma loops_produce fuel hca rate channels layout st : adds (produce_hca fuel hca rate channels layout st) (P stream_state).
Proof.
  intros w r w'. unfold produce_hca. destruct (feed _ _ _ _ _ _ w) as [[[err st'] w1]|] eqn:Ef; [|done]. intros [= <- <-].
  assert (Hf : forall cs st0 w0, feed fuel rate channels layout cs st0 w0 = Some (err, st', w1) ->
    exists evs, ff_log w1 = ff_log w0 ++ evs
      /\ P stream_state (io_opened w0) (match err with Some e => Err e | None => Ok st' end) evs (io_opened w1)).
  { induction cs as [|c cs IH]; intros st0 w0; cbn [feed].
    - intros [= <- <- <-]. exists []. rewrite app_nil_r. split; [done | apply quiet_nil].
    - destruct (encode_samples _ _ _ _ _ _ _ w0) as [[[st1|e] w2]|] eqn:Es; [..|done];
        destruct (loops_samples _ _ _ _ _ _ _ _ _ _ Es) as (e1 & E1 & H1).
      + intros (e2 & E2 & H2)%IH. exists (e1 ++ e2). rewrite E2, E1, app_assoc. split; [done | by eapply follows_app].
      + intros [= <- <- <-]. eauto. }
  destruct (Hf _ _ _ Ef) as (evs & El & HP). exists evs. split; [done|].
  destruct (hca_error hca) as [he|], err as [e|]; try done.
  - by eapply follows_err.
  - rewrite <- (app_nil_r evs). eapply follows_app; [exact HP | apply quiet_nil].
Qed.
End Inner.

(** *** From the opening of the output to its trailer *)

(** What [open_io] does when it succeeds. *)
Definition opened (b : bool) (evs : list (event X)) (b' : bool) : Prop :=
  (evs = [] /\ b' = b) \/ (exists url code, 0 <= code /\ evs = [Called (AvioOpen url) code; Alloc ROutputFile] /\ b' = true).

Lemma adds_open_io url :
  adds (open_io url) (fun b r evs b' => match r with
                                        | Ok _ => opened b evs b'
                                        | Err _ => b' = b /\ exists code, code < 0 /\ evs = [Called (AvioOpen url) code]
                                        end).
Proof.
  apply adds_asking. intros st. destruct (_ =? 0); [|apply adds_fres; by left].
  eapply adds_bind with (R2 := fun _ b r evs b' => r = Ok tt /\ evs = [Alloc ROutputFile] /\ b' = true); [apply adds_checked | | |].
  - intros x w r w' [= <- <-]. by exists [Alloc ROutputFile].
  - intros x r e1 e2 b b1 b2 (-> & code & -> & [[_ Hc]|[Hx _]]) (-> & -> & ->); [|done]. right. eauto.
  - intros e evs b b' (-> & code & -> & [[He _]|[_ Hc]]); [done|]. eauto.
Qed.

(** [PL] for the loops, [PT] up to the trailer and [P] for the whole body. *)
Class Body (PL PT P : effect) : Prop := {
  body_loops :: Loops PL;
  body_follows :: Follows PL PT;
  body_trailer : forall code (r : result unit E) b, (r = Ok tt /\ 0 <= code) \/ (is_ok r = false /\ code < 0) ->
    PT unit b r [Called WriteTrailer code] b;
  body_header : forall (r : result unit E) e1 e2 code b b1 b2, opened b e1 b1 -> 0 <= code -> PT unit b1 r e2 b2 ->
    P unit b r (e1 ++ Called WriteHeader code :: e2) b2;
  body_no_header : forall (e : E) e1 code b b1, opened b e1 b1 -> code < 0 -> P unit b (Err e) (e1 ++ [Called WriteHeader code]) b1;
  body_no_io : forall (e : E) url code b, code < 0 -> P unit b (Err e) [Called (AvioOpen url) code] b
}.

Section Bodies.
Context {PL PT P : effect} `{!Body PL PT P}.

Lemma body_write url operation (m : FM unit) :
  adds m (PT unit) -> adds (let! _ := open_io url in let! _ := checked WriteHeader operation in m) (P unit).
Proof.
  intros Hm. eapply adds_bind with (R2 := fun _ b r evs b' => exists code, (0 <= code /\ exists evs', PT unit b r evs' b' /\ evs = Called WriteHeader code :: evs')
      \/ (code < 0 /\ is_ok r = false /\ b' = b /\ evs = [Called WriteHeader code])); [apply adds_open_io | intros x | |].
  - eapply adds_bind; [apply adds_checked | intros y; exact Hm | |].
    + intros y r e1 e2 b b1 b2 (-> & code & -> & [[_ Hc]|[Hy _]]) HP; [|done]. exists code. left. eauto.
    + intros e evs b b' (-> & code & -> & [[He _]|[_ Hc]]); [done|]. exists code. by right.
  - intros x r e1 e2 b b1 b2 Ho (code & [(Hc & evs & HP & ->)|(Hc & Hr & -> & ->)]); [exact (body_header _ _ _ _ _ _ _ Ho Hc HP)|].
    destruct r as [|e]; [done|]. exact (body_no_header e _ _ _ _ Ho Hc).
  - intros e evs b b' (-> & code & Hc & ->). exact (body_no_io e _ _ _ Hc).
Qed.

Lemma body_end operation : adds (checked WriteTrailer operation) (PT unit).
Proof. eapply adds_impl; [apply adds_checked|]. intros b r evs b' (-> & code & -> & Hr). by apply body_trailer. Qed.

Lemma body_finish {A} (m : FM A) operation : adds m (PL A) -> adds (let! _ := m in checked WriteTrailer operation) (PT unit).
Proof. intros Hm. apply (follows_bind (Pq := PL)); [done | intros _; apply body_end]. Qed.

Lemma body_transcode fuel url s : adds (transcode_body fuel url s) (P unit).
Proof.
  apply body_write. do 3 (apply (follows_owning (Pq := PL)); [discriminate|]). apply (follows_fifo (Pq := PL)). intros q.
  apply body_finish, (loops_bind (P := PL)); [apply loops_read | intros st; apply loops_flush].
Qed.

Lemma body_usm fuel url v a video audio : adds (usm_body fuel url v a video audio) (P unit).
Proof.
  apply body_write. apply (follows_owning (Pq := PL)); [discriminate|]. apply body_finish.
  apply (loops_bind (P := PL)); [apply loops_usm | intros [video' audio']]. apply (loops_bind (P := PL)); [apply loops_flush | intros _].
  destruct a; [apply loops_flush | apply quiet_fret].
Qed.

Lemma body_pcm16 fuel url hca rate channels : adds (pcm16_body fuel url channels (produce_hca fuel hca rate channels)) (P unit).
Proof.
  apply body_write. do 2 (apply (follows_owning (Pq := PL)); [discriminate|]). apply (follows_fifo (Pq := PL)). intros q. apply body_finish.
  apply (loops_bind (P := PL)).
  { unfold default_for_channels. destruct (_ <=? _); [apply loops_error | apply quiet_fret]. }
  intros layout. apply (loops_bind (P := PL)); [apply loops_produce | intros st; apply loops_finish].
Qed.
End Bodies.

(** *** The conversions *)

Section Whole.
Context {Pq PL PT P P' : effect} `{!Quiet Pq} `{!Follows Pq P} `{!Follows Pq P'} `{!Closes P P'} `{!Body PL PT P}.
Variable hca_open : bytes -> result hca_stream string.
Variable fuel : nat.

Lemma quiet_best_stream type : adds (find_best_stream type) (Pq Z).
Proof. apply adds_asking. intros st. cbv zeta. destruct (_ <? _); [apply (follows_error (Pq := Pq)) | apply quiet_fret]. Qed.

Lemma whole_transcode output codec rate : adds (transcode_open_input_to_file fuel output codec rate) (P' unit).
Proof.
  unfold transcode_open_input_to_file. apply (follows_bind (P := P')); [by apply (quiet_checked FindStreamInfo) | intros _].
  apply (follows_bind (P := P')); [apply quiet_best_stream | intros s]. apply (follows_decoder (Pq := Pq)).
  apply (follows_bind (P := P')); [apply quiet_cstring | intros url].
  apply (closes_output (Pq := Pq) (P := P)), (follows_encoder (Pq := Pq)), body_transcode.
Qed.

Lemma whole_stream s codec (body : stream_state -> FM unit) : (forall st, adds (body st) (P unit)) -> adds (with_stream s codec body) (P unit).
Proof.
  intros Hb. apply (follows_decoder (Pq := Pq)), (follows_encoder (Pq := Pq)).
  apply (follows_owning (Pq := Pq)); [done|]. apply (follows_owning (Pq := Pq)); [done|]. apply (follows_fifo (Pq := Pq)). intros q. apply Hb.
Qed.

Lemma whole_usm input output : adds (transcode_usm_file_to_mp4 fuel input output) (P' unit).
Proof.
  unfold transcode_usm_file_to_mp4. apply (follows_bind (P := P')); [apply quiet_cstring | intros input_url]. apply (follows_file (Pq := Pq)).
  apply (follows_bind (P := P')); [by apply (quiet_checked FindStreamInfo) | intros _].
  apply (follows_bind (P := P')); [apply quiet_best_stream | intros v].
  apply (follows_bind (P := P')); [apply adds_asking; intros st; apply quiet_fret | intros a].
  apply (follows_bind (P := P')); [apply quiet_cstring | intros url].
  apply (closes_output (Pq := Pq) (P := P)), whole_stream. intros video. destruct a as [a|]; [apply whole_stream; intros audio|]; apply body_usm.
Qed.

Lemma quiet_loaded : adds ensure_ffmpeg_loaded (Pq unit).
Proof.
  apply adds_asking. intros st. destruct (ff_versions st). destruct (_ || _); [apply (follows_error (Pq := Pq)) | apply quiet_fret].
Qed.

Lemma whole_hca data output codec : adds (convert_hca_bytes_to_audio hca_open fuel data output codec) (P' unit).
Proof.
  unfold convert_hca_bytes_to_audio. apply (follows_bind (P := P')); [apply quiet_loaded | intros _].
  destruct (hca_open data) as [hca|err]; [|apply (follows_error (Pq := Pq))]. unfold encode_pcm16_to_file.
  apply (follows_bind (P := P')); [apply quiet_cstring | intros url].
  apply (closes_output (Pq := Pq) (P := P)), (follows_encoder (Pq := Pq)), body_pcm16.
Qed.

Lemma whole_file input format output codec rate : adds (transcode_file_to_file fuel input format output codec rate) (P' unit).
Proof.
  apply (follows_bind (P := P')); [apply quiet_cstring | intros url]. apply (follows_file (Pq := Pq)), whole_transcode.
Qed.

Lemma whole_memory data format output codec rate : adds (transcode_memory_to_file fuel data format output codec rate) (P' unit).
Proof. apply (follows_memory (Pq := Pq)), whole_transcode. Qed.

Lemma whole_op op : adds (run_ffi_op hca_open fuel op) (P' unit).
Proof.
  destruct op; cbn [run_ffi_op]; first [apply whole_hca | apply (follows_bind (P := P')); [apply quiet_loaded | intros _]];
    first [apply whole_usm | apply whole_file | apply whole_memory].
Qed.
End Whole.
End Effects.
