(* ===== verification/FfmpegOutput.v ===== *)
(** * The output of a conversion, and what it holds

    Two instances of the logic of [FfmpegEffects.v], for every conversion of the module: the
    order in which header, packets and trailer are written, and the release of what the
    libraries allocated.  The module [Demo] runs the conversions with libraries in which every
    function works. *)

From S2P Require Import Prelude RustStr Errors Paths Media Ffmpeg FfmpegEffects.

Local Open Scope string_scope.
Local Open Scope list_scope.
Local Open Scope Z_scope.
Local Open Scope rust_scope.

(** ** What reaches the output *)

Section Muxing.
Context {F Q X : Type} `{FFmpeg F Q X}.

Inductive mux_event : Type :=
| MuxHeader (ok : bool)
| MuxReceived (s : Z) (p : AVPacket)
| MuxWritten (s : Z) (p : AVPacket) (ok : bool)
| MuxTrailer (ok : bool).

Definition mux_of (e : event X) : option mux_event :=
  match e with
  | Called WriteHeader code => Some (MuxHeader (0 <=? code))
  | Called WriteTrailer code => Some (MuxTrailer (0 <=? code))
  | Called (WriteFrame s p) code => Some (MuxWritten s p (0 <=? code))
  | Received s p => Some (MuxReceived s p)
  | _ => None
  end.
Definition mux (evs : list (event X)) : list mux_event := omap mux_of evs.

(** Packets written as they are received. *)
Definition packets (ps : list (Z * AVPacket)) : list mux_event := flat_map (fun sp => [MuxReceived sp.1 sp.2; MuxWritten sp.1 sp.2 true]) ps.

(** The same, perhaps cut at a packet that could not be written. *)
Definition cut_packets (l : list mux_event) : Prop :=
  exists ps, l = packets ps \/ exists s p, l = packets ps ++ [MuxReceived s p; MuxWritten s p false].

(** A whole output, and one that was given up. *)
Definition whole_output (l : list mux_event) : Prop := exists ps, l = MuxHeader true :: packets ps ++ [MuxTrailer true].
Definition cut_output (l : list mux_event) : Prop :=
  l = [] \/ l = [MuxHeader false] \/ (exists l', cut_packets l' /\ l = MuxHeader true :: l')
  \/ exists ps, l = MuxHeader true :: packets ps ++ [MuxTrailer false].

Definition mux_quiet (T : Type) (b : bool) (r : result T ExportPipelineError) (evs : list (event X)) (b' : bool) : Prop := mux evs = [].
Definition mux_loop (T : Type) (b : bool) (r : result T ExportPipelineError) (evs : list (event X)) (b' : bool) : Prop :=
  match r with Ok _ => exists ps, mux evs = packets ps | Err _ => cut_packets (mux evs) end.
Definition mux_tail (T : Type) (b : bool) (r : result T ExportPipelineError) (evs : list (event X)) (b' : bool) : Prop :=
  match r with
  | Ok _ => exists ps, mux evs = packets ps ++ [MuxTrailer true]
  | Err _ => cut_packets (mux evs) \/ exists ps, mux evs = packets ps ++ [MuxTrailer false]
  end.
Definition mux_whole (T : Type) (b : bool) (r : result T ExportPipelineError) (evs : list (event X)) (b' : bool) : Prop :=
  match r with Ok _ => whole_output (mux evs) | Err _ => cut_output (mux evs) end.

Lemma mux_app e1 e2 : mux (e1 ++ e2) = mux e1 ++ mux e2.
Proof. apply omap_app. Qed.

Lemma mux_wrap rs rs' evs : mux (map Alloc rs ++ evs ++ map Free rs') = mux evs.
Proof.
  rewrite !mux_app. assert (mux (map Alloc rs) = []) as -> by (induction rs as [|r rs IH]; [done | exact IH]).
  assert (mux (map Free rs') = []) as -> by (induction rs' as [|r rs' IH]; [done | exact IH]). apply app_nil_r.
Qed.

Lemma packets_app ps ps' : packets (ps ++ ps') = packets ps ++ packets ps'.
Proof. apply flat_map_app. Qed.

Lemma cut_packets_app ps l : cut_packets l -> cut_packets (packets ps ++ l).
Proof.
  intros (ps' & [->|(s & p & ->)]); exists (ps ++ ps'); rewrite packets_app; [by left|]. right. exists s, p. by rewrite <- app_assoc.
Qed.

Lemma whole_packets ps : cut_packets (packets ps).
Proof. exists ps. by left. Qed.

Lemma cut_nil : cut_packets [].
Proof. apply (whole_packets []). Qed.

#[local] Instance mux_quiet_quiet : Quiet mux_quiet.
Proof.
  unfold mux_quiet. split; [split| | |]; try done.
  - intros A B x r e1 e2 b b1 b2 H1 H2. by rewrite mux_app, H1, H2.
  - intros A rs rs' lost r evs b b' _ _ _ HP. by rewrite mux_wrap.
  - intros c code r b Hc _. by destruct c as [| | | | | | | | | | |? []| | | | | |].
Qed.

#[local] Instance mux_quiet_whole : Follows mux_quiet mux_whole.
Proof.
  split.
  - unfold mux_quiet, mux_whole. intros A B x r e1 e2 b b1 b2 H1 H2. by rewrite mux_app, H1.
  - intros A B e e' evs b b' HP. by left.
  - unfold mux_whole. intros A rs rs' lost r evs b b' _ _ _ HP. by rewrite mux_wrap.
Qed.

#[local] Instance mux_whole_closes : Closes mux_whole mux_whole.
Proof.
  split. unfold mux_whole. intros A r evs b b' HP. cbn. rewrite !mux_app. by destruct b'; cbn; rewrite app_nil_r.
Qed.

#[local] Instance mux_loop_follows : Follows mux_loop mux_loop.
Proof.
  unfold mux_loop. split.
  - intros A B x r e1 e2 b b1 b2 [ps Hps] H2. rewrite mux_app, Hps. destruct r as [y|e]; [|by apply cut_packets_app].
    destruct H2 as [ps' ->]. exists (ps ++ ps'). by rewrite packets_app.
  - done.
  - intros A rs rs' lost r evs b b' _ _ _ HP. by rewrite mux_wrap.
Qed.

#[local] Instance mux_loop_loops : Loops mux_loop.
Proof.
  split; [split; [split; [exact _| | |]|] | |]; unfold mux_loop.
  - intros A r b. destruct r; [by exists [] | apply cut_nil].
  - done.
  - intros c code r b Hc Hr. assert (mux [Called c code] = []) as -> by by destruct c as [| | | | | | | | | | |? []| | | | | |].
    destruct r; [by exists [] | apply cut_nil].
  - intros s p code r b [[-> Hc]|[Hr Hc]].
    + exists [(s, p)]. cbn. by replace (0 <=? code) with true by lia.
    + destruct r as [|e]; [done|]. exists []. right. exists s, p. cbn. by replace (0 <=? code) with false by lia.
  - intros s f code r b _. destruct r; [by exists [] | apply cut_nil].
  - intros A x s f b. by exists [].
Qed.

#[local] Instance mux_loop_tail : Follows mux_loop mux_tail.
Proof.
  unfold mux_loop, mux_tail. split.
  - intros A B x r e1 e2 b b1 b2 [ps Hps] H2. rewrite mux_app, Hps. destruct r as [y|e].
    + destruct H2 as [ps' ->]. exists (ps ++ ps'). by rewrite packets_app, app_assoc.
    + destruct H2 as [H2|[ps' ->]]; [left; by apply cut_packets_app|]. right. exists (ps ++ ps'). by rewrite packets_app, app_assoc.
  - intros A B e e' evs b b' HP. by left.
  - intros A rs rs' lost r evs b b' _ _ _ HP. by rewrite mux_wrap.
Qed.

#[local] Instance mux_body : Body mux_loop mux_tail mux_whole.
Proof.
  assert (Ho : forall b evs b', opened b evs b' -> mux evs = []) by (intros b evs b' [[-> _]|(url & code & _ & -> & _)]; done).
  split; try exact _; unfold mux_tail, mux_whole.
  - intros code r b [[-> Hc]|[Hr Hc]].
    + exists []. cbn. by replace (0 <=? code) with true by lia.
    + destruct r as [|e]; [done|]. right. exists []. cbn. by replace (0 <=? code) with false by lia.
  - intros r e1 e2 code b b1 b2 H1 Hc HP. rewrite mux_app, (Ho _ _ _ H1). cbn. replace (0 <=? code) with true by lia. destruct r as [x|e].
    + destruct HP as [ps HP]. exists ps. by f_equal.
    + right. right. destruct HP as [HP|[ps HP]]; [left; eauto|]. right. exists ps. by f_equal.
  - intros e e1 code b b1 H1 Hc. rewrite mux_app, (Ho _ _ _ H1). right. left. cbn. by replace (0 <=? code) with false by lia.
  - intros e url code b Hc. by left.
Qed.

(** C11: A conversion that succeeds has written the header of its output, then every packet
    that any of its encoders gave out, each directly after it was received and in that order,
    and the trailer last.  One that fails has written a prefix of such an output: it stopped
    before the header, at it, between packets, at the packet that could not be written, or at
    the trailer; it never wrote a trailer. *)
Theorem conversion_writes_output hca_open fuel op w r w' :
  run_ffi_op hca_open fuel op w = Some (r, w') ->
  exists evs, ff_log w' = ff_log w ++ evs /\ match r with Ok _ => whole_output (mux evs) | Err _ => cut_output (mux evs) end.
Proof. apply (whole_op (P' := mux_whole)). Qed.
End Muxing.

(** ** What is held *)

Section Holding.
Context {F Q X : Type} `{FFmpeg F Q X}.
Abbreviation event := (event X).

(** How many of [x] the events leave allocated. *)
Fixpoint held (x : resource) (evs : list event) : Z :=
  match evs with
  | [] => 0
  | Alloc y :: evs => Z.b2z (bool_decide (x = y)) + held x evs
  | Free y :: evs => held x evs - Z.b2z (bool_decide (x = y))
  | _ :: evs => held x evs
  end.

(** Starting with [n] of them, none is freed that is not allocated. *)
Definition sound (n : Z) (x : resource) (evs : list event) : Prop := forall k, 0 <= n + held x (take k evs).

Lemma held_app x e1 e2 : held x (e1 ++ e2) = held x e1 + held x e2.
Proof. induction e1 as [|[] e1 IH]; cbn; lia. Qed.

Lemma sound_app n x e1 e2 : sound n x e1 -> sound (n + held x e1) x e2 -> sound n x (e1 ++ e2).
Proof.
  intros H1 H2 k. rewrite take_app, held_app. destruct (decide (k <= length e1)%nat) as [Hk|Hk].
  - replace (k - length e1)%nat with O by lia. rewrite take_0. cbn [held]. specialize (H1 k). lia.
  - rewrite take_ge by lia. specialize (H2 (k - length e1)%nat). lia.
Qed.

Lemma sound_held n x evs : sound n x evs -> 0 <= n + held x evs.
Proof. intros Hs. specialize (Hs (length evs)). by rewrite firstn_all in Hs. Qed.

Lemma sound_mono n m x evs : n <= m -> sound n x evs -> sound m x evs.
Proof. intros Hn Hs k. specialize (Hs k). lia. Qed.

Lemma sound_quiet n x evs : 0 <= n -> (forall e, In e evs -> forall y, e <> Alloc y /\ e <> Free y) -> held x evs = 0 /\ sound n x evs.
Proof.
  intros Hn He. assert (Hz : forall k, held x (take k evs) = 0).
  { induction evs as [|e evs IH]; intros [|k]; cbn; [done..|]. specialize (IH (fun e' He' => He e' (or_intror He')) k).
    destruct (He e (or_introl eq_refl) x) as [_ _]. destruct e as [| | |y|y]; try done; by destruct (He _ (or_introl eq_refl) y). }
  split; [by rewrite <- (firstn_all evs), Hz | intros k; rewrite Hz; lia].
Qed.

(** How many of [x] are in a list. *)
Definition number (x : resource) (rs : list resource) : Z := held x (map Alloc rs).

Lemma number_cons x y rs : number x (y :: rs) = Z.b2z (bool_decide (x = y)) + number x rs.
Proof. done. Qed.

Lemma number_nonneg x rs : 0 <= number x rs.
Proof. induction rs as [|y rs IH]; [done|]. rewrite number_cons. destruct (bool_decide _); cbn; lia. Qed.

Lemma number_perm x rs rs' : Permutation rs rs' -> number x rs = number x rs'.
Proof. induction 1; rewrite ?number_cons in *; lia. Qed.

Lemma number_app x rs rs' : number x (rs ++ rs') = number x rs + number x rs'.
Proof. unfold number. by rewrite map_app, held_app. Qed.

Lemma number_absent x rs : x ∉ rs -> number x rs = 0.
Proof. induction rs as [|y rs IH]; [done|]. intros Hx. rewrite number_cons, bool_decide_eq_false_2, IH by set_solver. done. Qed.

Lemma number_lost ok x lost : Forall (leaky ok) lost -> number x lost = 0 \/ leaky ok x.
Proof.
  induction 1 as [|y lost Hy _ IH]; [by left|]. rewrite number_cons. case_bool_decide as Hx; [subst; by right|]. cbn.
  destruct IH; [left; lia | by right].
Qed.

Lemma held_frees x rs : held x (map Free rs) = - number x rs.
Proof. induction rs as [|y rs IH]; [done|]. rewrite number_cons. cbn. rewrite IH. lia. Qed.

Lemma sound_allocs n x rs : 0 <= n -> sound n x (map Alloc rs).
Proof. intros Hn k. rewrite firstn_map. pose proof (number_nonneg x (take k rs)). unfold number in *. lia. Qed.

Lemma sound_frees n x rs : number x rs <= n -> sound n x (map Free rs).
Proof.
  intros Hn k. rewrite firstn_map, held_frees. pose proof (number_app x (take k rs) (drop k rs)) as Ha. rewrite take_drop in Ha.
  pose proof (number_nonneg x (drop k rs)). lia.
Qed.

(** Of [x] nothing is left but [extra], or what may be lost. *)
Definition settled (ok : bool) (extra : Z) (x : resource) (evs : list event) : Prop :=
  sound 0 x evs /\ extra <= held x evs /\ (held x evs = extra \/ leaky ok x).

Lemma settled_app ok extra x e1 e2 : settled true 0 x e1 -> settled ok extra x e2 -> settled ok extra x (e1 ++ e2).
Proof.
  intros (S1 & L1 & H1) (S2 & L2 & H2). unfold settled. rewrite held_app. repeat split; [|lia|].
  - apply sound_app; [done|]. eapply sound_mono; [|exact S2]. lia.
  - destruct H1 as [H1|[->|[? _]]]; [|by right; left | done]. destruct H2 as [H2|H2]; [left; lia | by right].
Qed.

Lemma settled_wrap ok extra x rs rs' lost evs :
  Permutation rs (rs' ++ lost) -> Forall (leaky ok) lost -> settled ok extra x evs -> settled ok extra x (map Alloc rs ++ evs ++ map Free rs').
Proof.
  intros Hp Hl (S1 & L1 & H1). pose proof (number_perm x _ _ Hp) as Hn. rewrite number_app in Hn. pose proof (number_nonneg x lost).
  pose proof (number_nonneg x rs'). pose proof (sound_held _ _ _ S1). unfold settled. rewrite !held_app, held_frees. fold (number x rs). repeat split.
  - apply sound_app; [by apply sound_allocs|]. fold (number x rs). apply sound_app; [eapply sound_mono; [|exact S1]; lia|]. apply sound_frees. lia.
  - lia.
  - destruct (number_lost ok x lost Hl) as [Hz|]; [|by right]. destruct H1 as [H1|]; [left; lia | by right].
Qed.

Lemma settled_quiet ok x (evs : list event) : (forall e, In e evs -> forall y, e <> Alloc y /\ e <> Free y) -> settled ok 0 x evs.
Proof. intros He. destruct (sound_quiet 0 x evs ltac:(done) He) as [Hh Hs]. repeat split; [done | lia | by left]. Qed.

Definition file_held (x : resource) (b : bool) : Z := Z.b2z (b && bool_decide (x = ROutputFile)).

Definition hold_quiet (T : Type) (b : bool) (r : result T ExportPipelineError) (evs : list event) (b' : bool) : Prop :=
  b' = b /\ forall x, settled (is_ok r) 0 x evs.

(** With the file of the output, if it is open. *)
Definition hold_open (T : Type) (b : bool) (r : result T ExportPipelineError) (evs : list event) (b' : bool) : Prop :=
  b = false -> forall x, settled (is_ok r) (file_held x b') x evs.

Lemma leaky_err ok x : leaky ok x -> leaky false x.
Proof. unfold leaky. tauto. Qed.

Lemma settled_err ok extra x evs : settled ok extra x evs -> settled false extra x evs.
Proof. intros (? & ? & [?|?%leaky_err]); repeat split; auto. Qed.

#[local] Instance hold_quiet_follows : Follows hold_quiet hold_quiet.
Proof.
  split.
  - intros A B x r e1 e2 b b1 b2 [-> H1] [-> H2]. split; [done|]. intros y. by apply settled_app.
  - intros A B e e' evs b b' HP. exact HP.
  - intros A rs rs' lost r evs b b' Hp _ Hl [-> HP]. split; [done|]. intros x. by eapply settled_wrap.
Qed.

#[local] Instance hold_quiet_loops : Loops hold_quiet.
Proof.
  split; [split; [split; [exact _| | |]|] | |].
  - intros A r b. split; [done|]. intros x. by apply settled_quiet.
  - intros A B x y evs b b' HP. exact HP.
  - intros c code r b _ _. split; [done|]. intros x. apply settled_quiet. by intros e [<-|[]].
  - intros s p code r b _. split; [done|]. intros x. apply settled_quiet. by intros e [<-|[<-|[]]].
  - intros s f code r b _. split; [done|]. intros x. apply settled_quiet. by intros e [<-|[]].
  - intros A y s f b. split; [done|]. intros x. apply settled_quiet. by intros e [<-|[]].
Qed.

#[local] Instance hold_quiet_open : Follows hold_quiet hold_open.
Proof.
  split.
  - intros A B x r e1 e2 b b1 b2 [-> H1] H2 Hb y. apply settled_app; [apply H1 | by apply H2].
  - intros A B e e' evs b b' [-> HP] -> x. apply HP.
  - intros A rs rs' lost r evs b b' Hp Ho Hl HP Hb x. eapply settled_wrap; [done..|]. by apply HP.
Qed.

Lemma settled_close ok x (b : bool) evs : settled ok (file_held x b) x evs -> settled ok 0 x (evs ++ (if b then [Free ROutputFile] else [])).
Proof.
  destruct b; [|by rewrite app_nil_r]. unfold file_held. cbn [andb]. intros (Hs & Hl & Hh). unfold settled. rewrite held_app. cbn [held].
  repeat split; [|lia | destruct Hh; [left; lia | by right]]. apply sound_app; [done|]. apply (sound_frees _ _ [ROutputFile]).
  unfold number. cbn [map held]. lia.
Qed.

Lemma settled_call ok extra x c code evs : settled ok extra x evs -> settled ok extra x (Called c code :: evs).
Proof. apply (settled_app _ _ _ [Called c code]), settled_quiet. by intros e [<-|[]]. Qed.

Lemma settled_opened ok x e1 b1 evs : opened false e1 b1 -> settled ok 0 x evs -> settled ok (file_held x b1) x (e1 ++ evs).
Proof.
  intros [[-> ->]|(url & code & _ & -> & ->)] Hev; [done|]. apply settled_call. destruct Hev as (Hs & Hl & Hh).
  unfold settled, file_held. cbn [app held andb]. repeat split; [|lia | destruct Hh; [left; lia | by right]].
  apply (sound_app 0 x [Alloc ROutputFile]); [by apply (sound_allocs 0 x [ROutputFile])|]. eapply sound_mono; [|exact Hs].
  cbn [held]. destruct (bool_decide _); cbn; lia.
Qed.

#[local] Instance hold_open_closes : Closes hold_open hold_quiet.
Proof.
  split. intros A r evs b b' HP. split; [done|]. intros x. pose proof (settled_close _ _ _ _ (HP eq_refl x)) as Hc. rewrite app_assoc.
  apply (settled_wrap _ _ _ [ROutput] [ROutput] []); [by rewrite app_nil_r | constructor | done].
Qed.

#[local] Instance hold_body : Body hold_quiet hold_quiet hold_open.
Proof.
  split; try exact _.
  - intros code r b _. split; [done|]. intros x. by apply settled_call, settled_quiet.
  - intros r e1 e2 code b b1 b2 Ho _ [-> HP] -> x. by apply settled_opened, settled_call.
  - intros e e1 code b b1 Ho _ -> x. by apply settled_opened, settled_call, settled_quiet.
  - intros e url code b _ -> x. by apply settled_call, settled_quiet.
Qed.

(** C12: A conversion frees nothing that it did not allocate, and when it ends the output file
    is closed if it was opened and nothing that FFmpeg allocated is left, with these
    exceptions: the buffer of an input from memory, always; the context of an input, of a
    resampler, or a sample queue, when the conversion fails. *)
Theorem conversion_releases hca_open fuel op w r w' :
  run_ffi_op hca_open fuel op w = Some (r, w') ->
  exists evs, ff_log w' = ff_log w ++ evs /\ io_opened w' = io_opened w
    /\ forall x, sound 0 x evs /\ (held x evs = 0 \/ leaky (is_ok r) x).
Proof.
  intros Er. destruct (whole_op (P' := hold_quiet) hca_open fuel op w r w' Er) as (evs & El & Hb & Hh). exists evs.
  split; [done|]. split; [done|]. intros x. destruct (Hh x) as (Hs & _ & Hl). by split.
Qed.
End Holding.

Module Demo.
Import Ffmpeg.Demo.

(** A USM file with both streams. *)
Lemma conversion_writes_output_witness : exists w', run_ffi_op open_hca 20 (FfiUsmToMp4 wav mp4) start = Some (Ok tt, w')
  /\ exists evs, ff_log w' = ff_log start ++ evs /\ whole_output (mux evs) /\ length (mux evs) = 8%nat.
Proof.
  destruct (run_ffi_op open_hca 20 (FfiUsmToMp4 wav mp4) start) as [[r w']|] eqn:E; [|vm_compute in E; discriminate].
  assert (Er : r = Ok tt) by (vm_compute in E; congruence). subst r. exists w'. split; [done|].
  destruct (conversion_writes_output open_hca 20 (FfiUsmToMp4 wav mp4) start (Ok tt) w' E) as (evs & El & Hm). exists evs.
  split; [done|]. split; [exact Hm|]. cbn in El. rewrite <- El. vm_compute in E. by injection E as <-.
Defined.

(** A conversion of an input from memory: the buffer of the callbacks stays. *)
Lemma conversion_releases_witness : exists w', run_ffi_op open_hca 20 (FfiWavBytesToFlac [] out) start = Some (Ok tt, w')
  /\ exists evs, ff_log w' = ff_log start ++ evs /\ held ROutputFile evs = 0 /\ held RAvio evs = 0 /\ held RAvioBuffer evs = 1.
Proof.
  destruct (run_ffi_op open_hca 20 (FfiWavBytesToFlac [] out) start) as [[r w']|] eqn:E; [|vm_compute in E; discriminate].
  assert (Er : r = Ok tt) by (vm_compute in E; congruence). subst r. exists w'. split; [done|].
  destruct (conversion_releases open_hca 20 (FfiWavBytesToFlac [] out) start (Ok tt) w' E) as (evs & El & _ & Hh). exists evs. split; [done|].
  split; [destruct (Hh ROutputFile) as [_ [|[|[? _]]]]; done|]. split; [destruct (Hh RAvio) as [_ [|[|[? _]]]]; done|].
  cbn in El. rewrite <- El. vm_compute in E. by injection E as <-.
Defined.

(** The buffer that an input from memory allocates is never freed. *)
Example memory_input_loses_buffer :
  (fun x => held RAvioBuffer (ff_log x.2)) <$> run_ffi_op open_hca 20 (FfiWavBytesToFlac [] out) start = Some 1.
Proof. by vm_compute. Qed.

(** Libraries in which one resource cannot be allocated, or one call fails. *)
Definition without (r0 : resource) : FFmpeg demo (list Z) Z := {|
  ff_versions := @ff_versions _ _ _ demo_ffmpeg; ff_code := demo_code;
  ff_alloc := fun r d => (negb (bool_decide (r = r0)), d); ff_free := fun _ d => d; av_strerror := @av_strerror _ _ _ demo_ffmpeg;
  av_find_input_format := fun _ => true; av_find_best_stream := @av_find_best_stream _ _ _ demo_ffmpeg;
  avcodec_find_decoder := fun _ _ => true; avcodec_find_encoder := fun _ => true; pix_fmts := @pix_fmts _ _ _ demo_ffmpeg;
  sample_fmts := @sample_fmts _ _ _ demo_ffmpeg; decoder_info := @decoder_info _ _ _ demo_ffmpeg; encoder_info := fun s _ => demo_encoder s;
  oformat_flags := fun _ => Some 0; avformat_new_stream := fun d => (true, d); av_read_frame := @av_read_frame _ _ _ demo_ffmpeg;
  avcodec_receive_frame := @avcodec_receive_frame _ _ _ demo_ffmpeg; avcodec_receive_packet := @avcodec_receive_packet _ _ _ demo_ffmpeg;
  swr_convert_frame := @swr_convert_frame _ _ _ demo_ffmpeg; sws_scale := @sws_scale _ _ _ demo_ffmpeg;
  av_channel_layout_default := @av_channel_layout_default _ _ _ demo_ffmpeg; silence := 0; pcm16 := @pcm16 _ _ _ demo_ffmpeg;
  av_audio_fifo_alloc := []; av_audio_fifo_size := @av_audio_fifo_size _ _ _ demo_ffmpeg; av_audio_fifo_write := @av_audio_fifo_write _ _ _ demo_ffmpeg;
  av_audio_fifo_read := @av_audio_fifo_read _ _ _ demo_ffmpeg
|}.

(** When the callbacks cannot be set up, the context of the input stays allocated. *)
Example memory_input_loses_context :
  (fun x => (is_ok x.1, held RInput (ff_log x.2)))
    <$> @run_ffi_op demo (list Z) Z (without RAvio) open_hca 20 (FfiWavBytesToFlac [] out) start = Some (false, 1).
Proof. by vm_compute. Qed.
End Demo.
