(* ===== verification/FfmpegFrames.v ===== *)
(** * The frames an encoder is given, and the end of the loops

    [returns]: a conversion with enough fuel comes back.  What is assumed of FFmpeg is the
    class [FFmpegLaws]: every successful read, decode and receive uses up something finite, an
    [AVAudioFifo] is a queue, and the formats of an opened encoder stay what they are.  Shown
    for every conversion: it comes back, and when it succeeds the encoders were given exactly
    the frames that were decoded, converted, regrouped to the encoder's frame size, and
    numbered without gaps. *)

From S2P Require Import Prelude RustStr Errors Paths Media Ffmpeg.

Local Open Scope string_scope.
Local Open Scope list_scope.
Local Open Scope Z_scope.
Local Open Scope rust_scope.

(** ** Pieces of a list *)

Lemma chunks_aux_fuel {A} fuel fuel' n (l : list A) :
  (0 < n)%nat -> (length l <= fuel)%nat -> (length l <= fuel')%nat -> chunks_aux fuel n l = chunks_aux fuel' n l.
Proof.
  intros Hn. revert fuel' l. induction fuel as [|fuel IH]; intros [|fuel'] [|x l] H1 H2; cbn in *; try done; try lia.
  f_equal. apply IH; rewrite length_drop; cbn; lia.
Qed.

Lemma chunks_step {A} n (l : list A) : (0 < n)%nat -> l <> [] -> chunks n l = take n l :: chunks n (drop n l).
Proof.
  intros Hn Hl. unfold chunks. destruct l as [|x l]; [done|]. cbn [length chunks_aux]. f_equal.
  apply chunks_aux_fuel; [done | rewrite length_drop; cbn; lia | done].
Qed.

Lemma chunks_full {A} n (S : list (list A)) rest :
  (0 < n)%nat -> Forall (fun c => length c = n) S -> chunks n (concat S ++ rest) = S ++ chunks n rest.
Proof.
  intros Hn. induction 1 as [|c S Hc _ IH]; [done|]. cbn [concat app]. rewrite <- app_assoc, chunks_step by (destruct c; cbn in *; [lia|done]).
  rewrite take_app_length', drop_app_length' by done. by rewrite IH.
Qed.

(** ** What FFmpeg promises *)

Section Laws.
Context {F Q X : Type} `{FFmpeg F Q X}.

(** The calls made between reading a packet and writing one. *)
Definition inner_call (c : ff_call X) : bool :=
  match c with
  | SendFrame _ _ | WriteFrame _ _ | LayoutCopy _ | FrameBuffer _ | SetSilence _ _ | SwrAlloc | SwrInit => true
  | _ => false
  end.

Class FFmpegLaws := {
  (** What is left to read, to decode and to take from an encoder. *)
  unread : F -> nat;
  undecoded : Z -> F -> nat;
  backlog : Z -> F -> nat;
  steady (f f' : F) : Prop := (unread f' <= unread f)%nat /\ forall s, (undecoded s f' <= undecoded s f)%nat;
  call_steady : forall c f, inner_call c = true -> steady f (ff_code c f).2;
  alloc_steady : forall r f, steady f (ff_alloc r f).2;
  free_steady : forall r f, steady f (ff_free r f);
  convert_steady : forall c d f, steady f (swr_convert_frame c d f).2;
  send_unread : forall s p f, (unread (ff_code (SendPacket s p) f).2 <= unread f)%nat;
  write_backlog : forall s p f, (backlog s (ff_code (WriteFrame s p) f).2 <= backlog s f)%nat;
  read_unread : forall f code p f', av_read_frame f = (code, p, f') -> 0 <= code -> (unread f' < unread f)%nat;
  receive_undecoded : forall s f code d f', avcodec_receive_frame s f = (code, d, f') ->
    steady f f' /\ (0 <= code -> (undecoded s f' < undecoded s f)%nat);
  receive_backlog : forall s f code p f', avcodec_receive_packet s f = (code, p, f') ->
    steady f f' /\ (0 <= code -> (backlog s f' < backlog s f)%nat);
  (** The formats of the encoders; what a conversion makes of a frame; streams. *)
  enc : Z -> EncoderInfo;
  encoder_info_enc : forall s f, encoder_info s f = enc s;
  resampled : AVFrame X -> AVFrame X -> list X;
  convert_resampled : forall c d f, 0 <= (swr_convert_frame c d f).1.1 -> (swr_convert_frame c d f).1.2 = resampled c d;
  scaled : AVFrame X -> AVFrame X -> list X;
  scale_scaled : forall c d f, sws_scale c d f = scaled c d;
  best_streams : forall f, 0 <= av_find_best_stream MediaVideo f -> av_find_best_stream MediaVideo f <> av_find_best_stream MediaAudio f;
  (** [AVAudioFifo]. *)
  queued : Q -> list X;
  fifo_alloc : queued av_audio_fifo_alloc = [];
  fifo_size : forall q, av_audio_fifo_size q = zlen (queued q);
  fifo_write : forall d q, (av_audio_fifo_write d q).1 = zlen d -> queued (av_audio_fifo_write d q).2 = queued q ++ d;
  fifo_read : forall n q, 0 <= n <= zlen (queued q) -> (av_audio_fifo_read n q).1.1 = n ->
    (av_audio_fifo_read n q).1.2 = take (Z.to_nat n) (queued q) /\ queued (av_audio_fifo_read n q).2 = drop (Z.to_nat n) (queued q)
}.
End Laws.
Arguments FFmpegLaws F Q X {_}.

(** ** The frames that are expected *)

Section Expected.
Context {F Q X : Type} `{FFmpegLaws F Q X}.

(** Frames given to the encoder of stream [s], and frames that its decoder gave. *)
Definition sent_of (s : Z) (e : event X) : option (AVFrame X) :=
  match e with Called (SendFrame s' (Some f)) code => if (s' =? s) && (0 <=? code) then Some f else None | _ => None end.
Definition decoded_of (s : Z) (e : event X) : option (AVFrame X) :=
  match e with Decoded s' f => if s' =? s then Some f else None | _ => None end.
Definition sent (s : Z) (evs : list (event X)) : list (AVFrame X) := omap (sent_of s) evs.
Definition decoded (s : Z) (evs : list (event X)) : list (AVFrame X) := omap (decoded_of s) evs.

(** A frame in the format of the encoder. *)
Definition in_format (e : EncoderInfo) (f : AVFrame X) : bool :=
  match enc_type e with
  | MediaVideo => (f_format f =? enc_pix_fmt e) && (f_width f =? enc_width e) && (f_height f =? enc_height e)
  | _ => (f_format f =? enc_sample_fmt e) && (f_sample_rate f =? enc_sample_rate e) && bool_decide (f_layout f = enc_layout e)
  end.
Definition blank_image (e : EncoderInfo) : AVFrame X := mkFrame [] 0 (enc_pix_fmt e) 0 (LayoutUnspec 0) (enc_width e) (enc_height e).
Definition blank_audio (e : EncoderInfo) (n : nat) : AVFrame X :=
  mkFrame (replicate n silence) 0 (enc_sample_fmt e) (enc_sample_rate e) (enc_layout e) 0 0.

Definition converted (e : EncoderInfo) (f : AVFrame X) : AVFrame X :=
  if in_format e f then f
  else
    match enc_type e with
    | MediaVideo => with_data (scaled (blank_image e) f) (blank_image e)
    | _ => let c := blank_audio e (length (f_data f)) in with_data (resampled c (with_layout (specified (f_layout f)) f)) c
    end.

(** A queue is used; its frames. *)
Definition buffered (e : EncoderInfo) : bool := bool_decide (enc_type e = MediaAudio) && (0 <? enc_frame_size e).
Definition pads (e : EncoderInfo) : bool := enc_codec_id e =? codec_id CodecMp3.
Definition chunk_frame (e : EncoderInfo) (start : Z) (i : nat) (c : list X) : AVFrame X :=
  mkFrame (c ++ (if pads e then replicate (Z.to_nat (enc_frame_size e) - length c) silence else [])) (start + Z.of_nat i * enc_frame_size e)
    (enc_sample_fmt e) (enc_sample_rate e) (specified (enc_layout e)) 0 0.

(** Audio frames one after the other, from the sample [t]. *)
Fixpoint timed (t : Z) (fs : list (AVFrame X)) : list (AVFrame X) :=
  match fs with [] => [] | f :: fs => with_pts t f :: timed (t + nb_samples f) fs end.

(** What the encoder is given for the frames [fs]. *)
Definition expected (e : EncoderInfo) (fs : list (AVFrame X)) : list (AVFrame X) :=
  if buffered e then imap (chunk_frame e 0) (chunks (Z.to_nat (enc_frame_size e)) (concat (map f_data fs)))
  else match enc_type e with
       | MediaAudio => timed 0 fs
       | _ => imap (fun i f => with_pts (Z.of_nat i) f) fs
       end.

Lemma frames_sent_app s e1 e2 : sent s (e1 ++ e2) = sent s e1 ++ sent s e2.
Proof. apply omap_app. Qed.

Lemma decoded_app s e1 e2 : decoded s (e1 ++ e2) = decoded s e1 ++ decoded s e2.
Proof. apply omap_app. Qed.

Lemma timed_app t fs fs' : timed t (fs ++ fs') = timed t fs ++ timed (t + zlen (concat (map f_data fs))) fs'.
Proof.
  revert t. induction fs as [|f fs IH]; intros t; cbn; [by rewrite Z.add_0_r|]. rewrite IH. unfold nb_samples. by rewrite zlen_app, Z.add_assoc.
Qed.
End Expected.

(** ** Steps that come back *)

Section Steps.
Context {F Q X : Type} `{FFmpegLaws F Q X}.
Abbreviation FM := (@FM F X).
Abbreviation E := ExportPipelineError.
Abbreviation world := (@ff_world F X).
#[local] Notation "'let!' x := m 'in' k" := (fbind m (fun x => k)) (at level 10, x pattern, m at level 100, k at level 200).

#[local] Instance steady_refl : Reflexive steady.
Proof. done. Qed.
#[local] Instance steady_trans : Transitive steady.
Proof. intros f1 f2 f3 [U1 D1] [U2 D2]. split; [lia|]. intros s. specialize (D1 s). specialize (D2 s). lia. Qed.

(** With enough fuel for its loop and for those inside, [m] comes back in a way that [Post]
    accepts. *)
Definition returns {T} (m : nat -> nat -> FM T) (w : world) (Post : result T E -> world -> Prop) : Prop :=
  exists n r w', (forall fuel fuel', (n <= fuel)%nat -> (n <= fuel')%nat -> m fuel fuel' w = Some (r, w')) /\ Post r w'.

Lemma returns_impl {T} (m : nat -> nat -> FM T) w (P P' : result T E -> world -> Prop) :
  returns m w P -> (forall r w', P r w' -> P' r w') -> returns m w P'.
Proof. intros (n & r & w' & Hm & HP) Hi. exists n, r, w'. eauto. Qed.

Lemma returns_bind {A B} (m : nat -> nat -> FM A) (k : nat -> nat -> A -> FM B) w (P : result A E -> world -> Prop) P' :
  returns m w P -> (forall x w', P (Ok x) w' -> returns (fun n n' => k n n' x) w' P') -> (forall e w', P (Err e) w' -> P' (Err e) w') ->
  returns (fun n n' => fbind (m n n') (k n n')) w P'.
Proof.
  intros (n1 & [x|e] & w1 & E1 & H1) Hk He.
  - destruct (Hk x w1 H1) as (n2 & r & w2 & E2 & H2). exists (Nat.max n1 n2), r, w2. split; [|done]. intros fuel fuel' Hf Hf'.
    unfold fbind. rewrite E1 by lia. apply E2; lia.
  - exists n1, (Err e), w1. split; [|auto]. intros fuel fuel' Hf Hf'. unfold fbind. by rewrite E1.
Qed.

Lemma returns_now {T} (m : FM T) w r w' (P : result T E -> world -> Prop) : m w = Some (r, w') -> P r w' -> returns (fun _ _ => m) w P.
Proof. intros Em HP. exists O, r, w'. by split. Qed.

(** The loop of a function that takes one fuel, inside another. *)
Lemma returns_inner {T} (m : nat -> FM T) w P : returns (fun n _ => m n) w P -> returns (fun _ n => m n) w P.
Proof. intros (n & r & w' & Hm & HP). exists n, r, w'. split; [|done]. intros fuel fuel' Hf Hf'. by apply (Hm fuel' fuel'). Qed.

Lemma returns_same {T} (m : nat -> nat -> FM T) w P : returns m w P -> returns (fun n _ => m n n) w P.
Proof. intros (n & r & w' & Hm & HP). exists n, r, w'. split; [|done]. intros fuel fuel' Hf Hf'. by apply Hm. Qed.

Lemma returns_step {T} (m : nat -> nat -> FM T) w P : returns (fun n n' => m (S n) n') w P -> returns m w P.
Proof.
  intros (n & r & w' & Hm & HP). exists (S n), r, w'. split; [|done]. intros [|fuel] fuel' Hf Hf'; [lia|]. apply Hm; lia.
Qed.

(** A step that gives the encoder of [s] the frames [fs] and takes [ds] from its decoder. *)
Definition stage (s : Z) (w w' : world) (fs ds : list (AVFrame X)) : Prop :=
  exists evs, ff_log w' = ff_log w ++ evs /\ sent s evs = fs /\ decoded s evs = ds /\ forall s', s' <> s -> sent s' evs = [] /\ decoded s' evs = [].

Definition hush (evs : list (event X)) : Prop := forall s, sent s evs = [] /\ decoded s evs = [].
Definition quiet (w w' : world) : Prop := exists evs, ff_log w' = ff_log w ++ evs /\ hush evs.
Definition calm (w w' : world) : Prop := quiet w w' /\ steady (ff_state w) (ff_state w').

Lemma hush_app e1 e2 : hush e1 -> hush e2 -> hush (e1 ++ e2).
Proof. intros H1 H2 s. rewrite frames_sent_app, decoded_app. destruct (H1 s) as [-> ->]. apply H2. Qed.

Lemma hush_one (e : event X) :
  match e with Called (SendFrame _ (Some _)) _ => False | Decoded _ _ => False | _ => True end -> hush [e].
Proof. intros He s. destruct e as [[| | | | | | | | | | |? []| | | | | |] code| | | |]; done. Qed.

#[local] Instance quiet_refl : Reflexive quiet.
Proof. intros w. exists []. split; [by rewrite app_nil_r | done]. Qed.
#[local] Instance quiet_trans : Transitive quiet.
Proof.
  intros w1 w2 w3 (e1 & E1 & H1) (e2 & E2 & H2). exists (e1 ++ e2). rewrite E2, E1, app_assoc. split; [done | by apply hush_app].
Qed.
#[local] Instance calm_refl : Reflexive calm.
Proof. by split. Qed.
#[local] Instance calm_trans : Transitive calm.
Proof. intros w1 w2 w3 [Q1 S1] [Q2 S2]. split; by etransitivity. Qed.

Lemma stage_app s w1 w2 w3 f1 f2 d1 d2 : stage s w1 w2 f1 d1 -> stage s w2 w3 f2 d2 -> stage s w1 w3 (f1 ++ f2) (d1 ++ d2).
Proof.
  intros (e1 & E1 & <- & <- & O1) (e2 & E2 & <- & <- & O2). exists (e1 ++ e2). rewrite E2, E1, app_assoc, frames_sent_app, decoded_app.
  repeat (split; [done|]). intros s' Hs'. rewrite frames_sent_app, decoded_app. destruct (O1 s' Hs') as [-> ->]. by apply O2.
Qed.

Lemma quiet_stage s w w' : quiet w w' -> stage s w w' [] [].
Proof. intros (evs & El & He). exists evs. destruct (He s) as [-> ->]. repeat (split; [done|]). intros s' _. apply He. Qed.

(** Steps without fuel. *)
Definition calmly {T} (m : FM T) (post : T -> Prop) : Prop :=
  forall w, exists r w', m w = Some (r, w') /\ calm w w' /\ match r with Ok x => post x | Err _ => True end.

Lemma calmly_fret {T} (x : T) (post : T -> Prop) : post x -> calmly (fret x) post.
Proof. intros Hx w. by exists (Ok x), w. Qed.

Lemma calmly_error {T} message (post : T -> Prop) : calmly (media_error message) post.
Proof. intros w. by eexists _, w. Qed.

Lemma calmly_bind {A B} (m : FM A) (k : A -> FM B) p1 p2 : calmly m p1 -> (forall x, p1 x -> calmly (k x) p2) -> calmly (fbind m k) p2.
Proof.
  intros Hm Hk w. unfold fbind. destruct (Hm w) as ([x|e] & w1 & -> & C1 & H1).
  - destruct (Hk x H1 w1) as (r & w2 & -> & C2 & H2). exists r, w2. split; [done|]. split; [by etransitivity | done].
  - by exists (Err e), w1.
Qed.

Lemma calmly_asking {T} (k : F -> FM T) post : (forall st, calmly (k st) post) -> calmly (asking k) post.
Proof. intros Hk w. apply (Hk (ff_state w)). Qed.

Lemma calmly_note (e : event X) :
  match e with Called (SendFrame _ (Some _)) _ => False | Decoded _ _ => False | _ => True end -> calmly (note e) (fun _ => True).
Proof. intros He w. eexists _, _. split; [done|]. split; [|done]. split; [|done]. exists [e]. split; [done | by apply hush_one]. Qed.

Lemma calmly_stepping {Y} (f : F -> Y * F) post :
  (forall st, steady st (f st).2 /\ post (f st).1) -> calmly (stepping f) post.
Proof.
  intros Hf w. unfold stepping. destruct (Hf (ff_state w)) as [Hs Hp]. destruct (f (ff_state w)) as [y st]. eexists _, _. split; [done|].
  split; [|done]. split; [|done]. by exists [].
Qed.

Lemma calmly_check code operation : calmly (check code operation) (fun _ => 0 <= code).
Proof. intros w. eexists _, w. split; [done|]. split; [done|]. destruct (Z.leb_spec 0 code); done. Qed.

Lemma calmly_checked c operation :
  inner_call c = true -> (forall s f, c <> SendFrame s (Some f)) -> calmly (checked c operation) (fun _ => True).
Proof.
  intros Hc Hs. apply (calmly_bind _ _ (fun _ => True)).
  - apply (calmly_bind _ _ (fun _ => True)); [apply calmly_stepping; split; [by apply call_steady | done]|]. intros code _.
    apply (calmly_bind _ _ (fun _ => True)); [apply calmly_note | intros; by apply calmly_fret].
    destruct c as [| | | | | | | | | | |? []| | | | | |]; try done. by eapply Hs.
  - intros code _ w. destruct (calmly_check code operation w) as (r & w' & Er & Hc' & _). exists r, w'. by destruct r.
Qed.

Lemma calmly_allocate r0 message : calmly (allocate r0 message) (fun _ => True).
Proof.
  apply (calmly_bind _ _ (fun _ => True)); [apply calmly_stepping; split; [apply alloc_steady | done]|].
  intros [] _; [by apply calmly_note | apply calmly_error].
Qed.

Lemma calm_release r0 w : calm w (release r0 w).
Proof. split; [exists [Free r0]; by split | apply free_steady]. Qed.

Lemma calmly_finally {T} r0 (m : FM T) post : calmly m post -> calmly (finally r0 m) post.
Proof.
  intros Hm w. destruct (Hm w) as (r & w' & Em & Hc & Hr). unfold finally. rewrite Em. eexists _, _. split; [done|]. split; [|done].
  etransitivity; [exact Hc | apply calm_release].
Qed.

Lemma calmly_owning {T} r0 message (m : FM T) post : calmly m post -> calmly (owning r0 message m) post.
Proof. intros Hm. apply (calmly_bind _ _ (fun _ => True)); [apply calmly_allocate | intros _ _; by apply calmly_finally]. Qed.

Lemma returns_calm {T} (m : FM T) post w :
  calmly m post -> returns (fun _ _ => m) w (fun r w' => calm w w' /\ match r with Ok x => post x | Err _ => True end).
Proof. intros Hm. destruct (Hm w) as (r & w' & Em & HP). by eapply returns_now. Qed.

(** A calm step, and then another. *)
Lemma returns_after {A B} (m : FM A) (k : nat -> nat -> A -> FM B) post w (P : result B E -> world -> Prop) :
  calmly m post -> (forall x w', calm w w' -> post x -> returns (fun n n' => k n n' x) w' P) -> (forall e w', calm w w' -> P (Err e) w') ->
  returns (fun n n' => fbind m (k n n')) w P.
Proof.
  intros Hm Hk He. eapply (returns_bind (fun _ _ => m)); [by apply returns_calm | |].
  - intros x w' [Hc Hx]. by apply Hk.
  - intros e w' [Hc _]. by apply He.
Qed.

Lemma returns_finally {T} r0 (m : nat -> nat -> FM T) w (P : result T E -> world -> Prop) :
  returns m w (fun r w' => P r (release r0 w')) -> returns (fun n n' => finally r0 (m n n')) w P.
Proof.
  intros (n & r & w' & Em & HP). exists n, r, (release r0 w'). split; [|done]. intros fuel fuel' Hf Hf'. unfold finally. by rewrite Em.
Qed.

Definition moves (s : Z) (w w' : world) (fs ds : list (AVFrame X)) : Prop := stage s w w' fs ds /\ steady (ff_state w) (ff_state w').

Lemma moves_app s w1 w2 w3 f1 f2 d1 d2 : moves s w1 w2 f1 d1 -> moves s w2 w3 f2 d2 -> moves s w1 w3 (f1 ++ f2) (d1 ++ d2).
Proof. intros [A1 S1] [A2 S2]. split; [by eapply stage_app | by etransitivity]. Qed.

Lemma calm_moves s w w' : calm w w' -> moves s w w' [] [].
Proof. intros [Hq Hs]. split; [by apply quiet_stage | done]. Qed.

Lemma calm_then s w w1 w' fs ds : calm w w1 -> moves s w1 w' fs ds -> moves s w w' fs ds.
Proof. intros Hc%(calm_moves s). by apply (moves_app _ _ _ _ [] fs [] ds). Qed.

Lemma then_calm s w w1 w' fs ds : moves s w w1 fs ds -> calm w1 w' -> moves s w w' fs ds.
Proof. intros Hm Hc%(calm_moves s). rewrite <- (app_nil_r fs), <- (app_nil_r ds). by eapply moves_app. Qed.

(** *** Encoding *)

Lemma checked_run (c : ff_call X) operation (w : world) :
  checked c operation w
  = Some (if 0 <=? (ff_code c (ff_state w)).1 then Ok tt else Err (ExportMedia (operation +:+ " failed: " +:+ ffmpeg_error (ff_code c (ff_state w)).1)),
          logged (ff_code c (ff_state w)).2 [Called c (ff_code c (ff_state w)).1] w).
Proof.
  unfold checked, call, fbind, stepping, note, check, fret, fres, logged. destruct (ff_code c (ff_state w)) as [code st]. cbn.
  by rewrite app_nil_r.
Qed.

(** A checked call, and then another step. *)
Lemma returns_checked {T} c operation (k : nat -> nat -> FM T) w (P : result T E -> world -> Prop) :
  let w' := logged (ff_code c (ff_state w)).2 [Called c (ff_code c (ff_state w)).1] w in
  (0 <= (ff_code c (ff_state w)).1 -> returns k w' P) -> ((ff_code c (ff_state w)).1 < 0 -> forall e, P (Err e) w') ->
  returns (fun n n' => let! _ := checked c operation in k n n') w P.
Proof.
  intros w' Hk He. eapply (returns_bind (fun _ _ => checked c operation)
    (fun n n' _ => k n n') _ (fun r w1 => w1 = w' /\ (is_ok r = true <-> 0 <= (ff_code c (ff_state w)).1))).
  - eapply returns_now; [apply checked_run|]. split; [done|]. by destruct (Z.leb_spec 0 (ff_code c (ff_state w)).1); cbn; split; [lia|lia| |lia].
  - intros x w1 [-> Hx]. apply Hk. by apply Hx.
  - intros e w1 [-> Hx]. apply He. destruct (Z.lt_ge_cases (ff_code c (ff_state w)).1 0) as [|Hge]; [done|]. by apply Hx in Hge.
Qed.

Lemma returns_write {T} s p operation (k : nat -> nat -> FM T) w (P : result T E -> world -> Prop) :
  (forall w', calm w w' -> (backlog s (ff_state w') <= backlog s (ff_state w))%nat -> returns k w' P) ->
  (forall e w', calm w w' -> P (Err e) w') ->
  returns (fun n n' => let! _ := note (Received s p) in let! _ := checked (WriteFrame s p) operation in k n n') w P.
Proof.
  intros Hk He. set (w1 := logged (ff_state w) [Received s p] w).
  assert (Hc : calm w (logged (ff_code (WriteFrame s p) (ff_state w)).2 [Called (WriteFrame s p) (ff_code (WriteFrame s p) (ff_state w)).1] w1)).
  { split; [|by apply call_steady]. exists [Received s p; Called (WriteFrame s p) (ff_code (WriteFrame s p) (ff_state w)).1].
    split; [by cbn; rewrite <- app_assoc|]. by apply (hush_app [_] [_]); apply hush_one. }
  eapply (returns_bind (fun _ _ => note (Received s p)) (fun n n' _ => _) _ (fun r w' => r = Ok tt /\ w' = w1)).
  - by eapply returns_now.
  - intros x w' [_ ->]. apply returns_checked.
    + intros _. apply Hk; [exact Hc | apply write_backlog].
    + intros _ e. by apply He.
  - by intros e w' [? _].
Qed.

Lemma returns_stepping {Y T} (f : F -> Y * F) (k : nat -> nat -> Y -> FM T) w (P : result T E -> world -> Prop) :
  returns (fun n n' => k n n' (f (ff_state w)).1) (logged (f (ff_state w)).2 [] w) P -> returns (fun n n' => fbind (stepping f) (k n n')) w P.
Proof.
  intros (n & r & w' & Ek & HP). exists n, r, w'. split; [|done]. intros fuel fuel' Hf Hf'. rewrite <- (Ek fuel fuel') by done.
  unfold fbind, stepping. by destruct (f (ff_state w)).
Qed.

Lemma logged_calm w st : steady (ff_state w) st -> calm w (logged st [] w).
Proof. intros Hs. split; [|done]. by exists []. Qed.

Lemma returns_check {T} code operation (k : nat -> nat -> FM T) w (P : result T E -> world -> Prop) :
  (0 <= code -> returns k w P) -> (forall e, P (Err e) w) -> returns (fun n n' => let! _ := check code operation in k n n') w P.
Proof.
  intros Hk He. unfold check. destruct (Z.leb_spec 0 code) as [Hc|Hc]; [exact (Hk Hc)|]. by eapply (returns_now (fun w => Some (Err _, w))).
Qed.

Lemma returns_drain s w : returns (fun n _ => drain_encoder n s) w (fun _ w' => calm w w').
Proof.
  unfold drain_encoder. eapply (returns_after _ (fun n _ _ => finally RPacket (drain_loop n s)));
    [apply calmly_allocate | intros _ w1 Hc _; apply returns_finally | done].
  apply (returns_impl _ _ (fun _ w' => calm w1 w')).
  2: { intros r w' Hc'. etransitivity; [exact Hc|]. etransitivity; [exact Hc' | apply calm_release]. }
  clear w Hc. remember (backlog s (ff_state w1)) as n eqn:En. revert w1 En. induction n as [n IH] using lt_wf_ind. intros w ->.
  apply (returns_step (fun n _ => drain_loop n s)). cbn [drain_loop]. apply returns_stepping.
  destruct (avcodec_receive_packet s (ff_state w)) as [[ret p] st] eqn:Er. destruct (receive_backlog _ _ _ _ _ Er) as [Hs Hb].
  pose proof (logged_calm w st Hs) as Hc. cbn [fst snd]. destruct (_ || _); [by eapply returns_now|].
  apply returns_check; [intros Hret; apply returns_write | done].
  - intros w' Hc' Hle. eapply returns_impl; [eapply IH; [|done]; specialize (Hb Hret); cbn in Hle; lia|].
    intros r w2 Hc2. do 2 (etransitivity; [eassumption|]). done.
  - intros e w' Hc'. by etransitivity.
Qed.

(** A frame is sent. *)
Lemma returns_send {T} s f operation (k : nat -> nat -> FM T) w (P : result T E -> world -> Prop) :
  (forall w', moves s w w' [f] [] -> returns k w' P) -> (forall e w', moves s w w' [] [] -> P (Err e) w') ->
  returns (fun n n' => let! _ := checked (SendFrame s (Some f)) operation in k n n') w P.
Proof.
  intros Hk He. set (code := (ff_code (SendFrame s (Some f)) (ff_state w)).1).
  assert (Hm : forall fs, (if 0 <=? code then [f] else []) = fs ->
    moves s w (logged (ff_code (SendFrame s (Some f)) (ff_state w)).2 [Called (SendFrame s (Some f)) code] w) fs []).
  { intros fs <-. split; [|by apply call_steady]. eexists. split; [done|]. cbn. rewrite Z.eqb_refl. cbn [andb].
    split; [by destruct (0 <=? code)|]. split; [done|]. intros s' Hs'. by replace (s =? s') with false by lia. }
  apply returns_checked; [intros Hc; apply Hk, Hm | intros Hc e; apply He, Hm]; fold code in Hc.
  - by replace (0 <=? code) with true by lia.
  - by replace (0 <=? code) with false by lia.
Qed.

(** The queue of an encoder. *)
Definition good_fifo (e : EncoderInfo) (q : @AudioFifo Q) : Prop :=
  frame_size q = enc_frame_size e /\ pad_final_frame q = pads e /\ fifo_sample_fmt q = enc_sample_fmt e
  /\ fifo_sample_rate q = enc_sample_rate e /\ fifo_layout q = specified (enc_layout e).
Abbreviation size e := (Z.to_nat (enc_frame_size e)).

Lemma good_with_queue e q q' : good_fifo e q -> good_fifo e (with_queue q' q).
Proof. done. Qed.

(** What [encode_available] makes of the queue. *)
Definition encoded (e : EncoderInfo) (flush : bool) (index : Z) (q q' : @AudioFifo Q) (index' : Z) (fs : list (AVFrame X)) : Prop :=
  good_fifo e q' /\ exists S, queued (queue q) = concat S ++ queued (queue q') /\ fs = imap (chunk_frame e index) S
    /\ if flush then S = chunks (size e) (queued (queue q))
       else Forall (fun c => length c = size e) S /\ zlen (queued (queue q')) < enc_frame_size e /\ index' = index + zlen S * enc_frame_size e.

Lemma imap_chunk_frame e index c S :
  imap (chunk_frame e index) (c :: S) = chunk_frame e index 0 c :: imap (chunk_frame e (index + enc_frame_size e)) S.
Proof. rewrite imap_cons. f_equal. apply imap_ext. intros i d _. unfold chunk_frame. cbn. f_equal. lia. Qed.

Lemma encoded_nil e flush index q :
  good_fifo e q -> 0 < enc_frame_size e ->
  (zlen (queued (queue q)) <= 0) \/ (flush = false /\ zlen (queued (queue q)) < enc_frame_size e) -> encoded e flush index q q index [].
Proof.
  intros Hq Hn Hz. split; [done|]. exists []. split; [done|]. split; [done|]. destruct flush.
  - destruct Hz as [Hz|[? _]]; [|done]. by destruct (queued (queue q)); [|rewrite zlen_cons in Hz; pose proof (zlen_nonneg l); lia].
  - split; [done|]. split; [|change (zlen (@nil (list X))) with 0; lia]. destruct Hz as [Hz|[_ Hz]]; lia.
Qed.

Lemma encoded_cons e flush index samples q q1 q' index' fs :
  0 < enc_frame_size e -> queued (queue q) <> [] -> queued (queue q1) = drop (size e) (queued (queue q)) ->
  (flush = false -> enc_frame_size e <= zlen (queued (queue q))) -> (samples = enc_frame_size e \/ queued (queue q1) = []) ->
  (flush = false -> samples = enc_frame_size e) ->
  encoded e flush (index + samples) q1 q' index' fs ->
  encoded e flush index q q' index' (chunk_frame e index 0 (take (size e) (queued (queue q))) :: fs).
Proof.
  intros Hn Hne Hq1 Hful Hs Hs' (Hq' & S & HS & -> & Hfl). split; [done|]. exists (take (size e) (queued (queue q)) :: S).
  split; [|split]; [| |destruct flush].
  - cbn [concat]. by rewrite <- app_assoc, <- HS, Hq1, take_drop.
  - rewrite imap_chunk_frame. f_equal. destruct Hs as [->|Hs]; [done|]. rewrite Hs in HS. symmetry in HS. apply app_eq_nil in HS as [HS _].
    destruct flush; [by rewrite Hfl, Hs | by rewrite Hs' by done].
  - rewrite Hfl, Hq1. symmetry. apply chunks_step; [lia | done].
  - destruct Hfl as (Hall & Hlt & ->). repeat split; [constructor; [|done] | done | rewrite zlen_cons, Hs' by done; lia].
    rewrite length_take. specialize (Hful eq_refl). unfold zlen in Hful. lia.
Qed.

(** The samples of one frame. *)
Lemma chunk_samples e flush index q samples :
  let available := zlen (queued (queue q)) in
  good_fifo e q -> 0 < enc_frame_size e -> 0 < available -> (flush = false -> enc_frame_size e <= available) ->
  samples = (if flush && pad_final_frame q && (available <? frame_size q) then frame_size q
             else if flush then Z.min available (frame_size q) else frame_size q) ->
  with_pts index (with_data (take (Z.to_nat (Z.min available samples)) (queued (queue q))
                             ++ replicate (Z.to_nat (samples - Z.min available samples)) silence)
                   (mkFrame (replicate (Z.to_nat samples) silence) 0 (fifo_sample_fmt q) (fifo_sample_rate q) (fifo_layout q) 0 0))
  = chunk_frame e index 0 (take (size e) (queued (queue q)))
  /\ drop (Z.to_nat (Z.min available samples)) (queued (queue q)) = drop (size e) (queued (queue q))
  /\ (samples = enc_frame_size e \/ drop (size e) (queued (queue q)) = []) /\ (flush = false -> samples = enc_frame_size e) /\ 0 < samples.
Proof.
  intros available (Hsz & Hpad & Hf & Hr & Hl) Hn Ha Hful Hs. rewrite Hsz, Hpad in Hs.
  assert (Hlen : available = Z.of_nat (length (queued (queue q)))) by done.
  assert (Htake : Z.min available samples = Z.min available (enc_frame_size e)).
  { revert Hs. destruct flush; cbn; [|lia]. destruct (pads e); cbn; [|lia]. destruct (Z.ltb_spec available (enc_frame_size e)); lia. }
  assert (Hpieces : take (Z.to_nat (Z.min available samples)) (queued (queue q)) = take (size e) (queued (queue q))
    /\ drop (Z.to_nat (Z.min available samples)) (queued (queue q)) = drop (size e) (queued (queue q))).
  { rewrite Htake. destruct (Z.le_ge_cases available (enc_frame_size e)).
    - rewrite Z.min_l by done. split; [rewrite !take_ge by lia; done | rewrite !drop_ge by lia; done].
    - by rewrite Z.min_r by done. }
  destruct Hpieces as [Ht Hd]. split; [|split; [done|split; [|split]]].
  - unfold with_pts, with_data, chunk_frame. cbn. rewrite Ht, Hf, Hr, Hl, Z.add_0_r. f_equal. f_equal. rewrite length_take.
    destruct (pads e) eqn:Ep.
    + f_equal. revert Hs Hlen. destruct flush; cbn; [destruct (Z.ltb_spec available (enc_frame_size e)); lia|]. specialize (Hful eq_refl). lia.
    + replace (samples - Z.min available samples) with 0; [done|]. revert Hs. destruct flush; cbn; [lia|]. specialize (Hful eq_refl). lia.
  - destruct (Z.lt_ge_cases available (enc_frame_size e)); [right; apply drop_ge; lia|]. left. revert Hs. destruct flush; cbn; [|lia].
    replace (available <? enc_frame_size e) with false by lia. rewrite andb_false_r. lia.
  - intros ->. done.
  - revert Hs. destruct flush; cbn; [|lia]. destruct (pads e); cbn; [destruct (Z.ltb_spec available (enc_frame_size e)); lia | lia].
Qed.

Lemma returns_encode e s flush q index w :
  good_fifo e q -> 0 < enc_frame_size e ->
  returns (fun n n' => encode_available n n' s flush q index) w
    (fun r w' => exists fs, moves s w w' fs [] /\ match r with Ok (q', index') => encoded e flush index q q' index' fs | Err _ => True end).
Proof.
  intros Hq Hn. remember (length (queued (queue q))) as n eqn:En. revert q index w Hq En. induction n as [n IH] using lt_wf_ind.
  intros q index w Hq ->. apply (returns_step (fun n n' => encode_available n n' s flush q index)). cbn [encode_available].
  rewrite fifo_size. pose proof Hq as (Hsz & _). destruct (_ || _) eqn:Estop.
  { eapply returns_now; [done|]. exists []. split; [by apply calm_moves|]. apply encoded_nil; [done..|]. rewrite Hsz in Estop. destruct flush; lia. }
  apply orb_false_iff in Estop as [Ha%Z.leb_gt Hful]. rewrite Hsz in Hful. cbv zeta.
  match goal with |- context [checked (FrameBuffer (mkFrame (replicate (Z.to_nat ?smp) _) _ _ _ _ _ _))] => remember smp as samples eqn:Es end.
  assert (Hful' : flush = false -> enc_frame_size e <= zlen (queued (queue q))) by (intros ->; cbn in Hful; lia).
  destruct (chunk_samples e flush index q samples Hq Hn Ha Hful' Es) as (Eframe & Edrop & Hs & Hs' & Hpos).
  set (expd := Z.min (zlen (queued (queue q))) samples) in *.
  destruct (av_audio_fifo_read expd (queue q)) as [[read data] queue'] eqn:Er.
  assert (Hexp : 0 <= expd <= zlen (queued (queue q))) by (clear -Ha Hpos; unfold expd; lia).
  pose proof (fifo_read expd (queue q) Hexp) as Hread. rewrite Er in Hread. cbn [fst snd] in Hread.
  eapply returns_after; [by apply calmly_checked | | intros e' w' Hc; exists []; split; [by apply calm_moves | done]]. intros _ w1 C1 _.
  eapply returns_after; [by apply calmly_checked | | intros e' w' Hc; exists []; split; [apply calm_moves; by etransitivity | done]].
  intros _ w2 C2 _. assert (C : calm w w2) by by etransitivity. clear w1 C1 C2.
  destruct (negb (read =? expd)) eqn:Ed.
  { destruct (read <? 0); (eapply returns_now; [done|]); exists []; (split; [by apply calm_moves | done]). }
  apply negb_false_iff, Z.eqb_eq in Ed. subst read. destruct (Hread eq_refl) as [-> Hrest]. rewrite Edrop in Hrest.
  eapply returns_after with (post := fun _ => True).
  { destruct (expd <? samples); [by apply calmly_checked | by apply calmly_fret]. }
  2: { intros e' w' Hc. exists []. split; [apply calm_moves; by etransitivity | done]. }
  intros _ w3 C3 _. rewrite Eframe. apply returns_send.
  2: { intros e' w' Hm. exists []. split; [|done]. eapply calm_then; [by etransitivity | done]. }
  intros w4 Hm. apply (calm_then s w) in Hm; [|by etransitivity].
  eapply (returns_bind (fun _ n' => drain_encoder n' s) (fun n n' _ => _)); [apply returns_inner, returns_drain | |].
  2: { intros e' w' Hc. eexists. split; [by eapply then_calm | done]. }
  intros x w5 C5. cbn in C5. clear x. apply (then_calm _ _ _ w5) in Hm; [|done].
  eapply returns_impl; [eapply (IH (length (queued queue'))); [|by apply good_with_queue | done]|].
  - rewrite Hrest, length_drop. unfold zlen in Ha. lia.
  - intros r w' (fs & Hm' & Hr). eexists. split; [by eapply (moves_app s w w5 w' [_] fs [] [])|]. destruct r as [[q' index']|]; [|done].
    apply (encoded_cons e flush index samples q (with_queue queue' q)); [done | | done | done | cbn; by rewrite Hrest | done | exact Hr]. intros Hnil. rewrite Hnil in Ha. done.
Qed.

(** *** Converting a frame *)

Ltac calmly :=
  repeat first
    [ assumption | apply calmly_error | apply calmly_allocate | by apply calmly_checked | apply calmly_owning | apply calmly_asking; intros ?
    | apply calmly_check | by apply calmly_fret ].

Lemma calmly_default_or_copy l : calmly (default_or_copy l) (fun l' => l' = specified l).
Proof. destruct l; [by apply calmly_fret|]. eapply calmly_bind; [by apply calmly_checked | intros _ _; by apply calmly_fret]. Qed.

Lemma calmly_resample e f :
  enc_type e = MediaAudio -> in_format e f = false -> calmly (resample_audio_frame e f) (fun f' => f' = converted e f).
Proof.
  intros He Hf. unfold resample_audio_frame. eapply calmly_bind; [calmly | intros _ _]. eapply calmly_bind; [calmly | intros _ _].
  eapply calmly_bind; [apply calmly_default_or_copy | intros l _]. eapply calmly_bind with (p1 := fun _ => True).
  - unfold swr_new. eapply calmly_bind; [calmly | intros _ _]. eapply calmly_bind; calmly. intros _ _. calmly.
  - intros _ _. apply calmly_finally.
    eapply calmly_bind with (p1 := fun x => 0 <= x.1 -> x.2 = resampled (blank_audio e (length (f_data f))) (with_layout (specified (f_layout f)) f)).
    + apply calmly_stepping. intros st. split; [apply convert_steady|]. intros Hc. by apply convert_resampled.
    + intros [ret data] Hd. eapply calmly_bind; [apply calmly_check | intros [] Hret]. apply calmly_fret. cbn in Hd. rewrite Hd by done.
      unfold converted. by rewrite Hf, He.
Qed.

Lemma calmly_scale e f : enc_type e = MediaVideo -> in_format e f = false -> calmly (scale_video_frame e f) (fun f' => f' = converted e f).
Proof.
  intros He Hf. unfold scale_video_frame. eapply calmly_bind; [calmly | intros _ _]. apply calmly_owning, calmly_asking. intros st.
  apply calmly_fret. rewrite scale_scaled. unfold converted. by rewrite Hf, He.
Qed.

Lemma calmly_prepare e f index :
  calmly (prepare_frame_for_encoder e f index)
    (fun x => match enc_type e with
              | MediaVideo => x = (with_pts index (converted e f), index + 1)
              | MediaAudio => x = (converted e f, index)
              | MediaOther _ => False
              end).
Proof.
  unfold prepare_frame_for_encoder. destruct (enc_type e) eqn:He; [..|apply calmly_error].
  - eapply calmly_bind with (p1 := fun f' => f' = converted e f); [|intros ? ->; by apply calmly_fret].
    rewrite <- !negb_andb. replace (_ && _ && _) with (in_format e f) by (unfold in_format; by rewrite He).
    destruct (in_format e f) eqn:Hf; [apply calmly_fret; unfold converted; by rewrite Hf | by apply calmly_scale].
  - eapply calmly_bind with (p1 := fun f' => f' = converted e f); [|intros ? ->; by apply calmly_fret].
    rewrite <- !negb_andb. replace (_ && _ && _) with (in_format e f) by (unfold in_format; by rewrite He).
    destruct (in_format e f) eqn:Hf; [apply calmly_fret; unfold converted; by rewrite Hf | by apply calmly_resample].
Qed.

Lemma calmly_push f (q : @AudioFifo Q) :
  calmly (fifo_push f q) (fun q' => exists queue', q' = with_queue queue' q /\ queued queue' = queued (queue q) ++ f_data f).
Proof.
  unfold fifo_push. pose proof (fifo_write (f_data f) (queue q)) as Hw. destruct (av_audio_fifo_write _ _) as [written queue'].
  cbn in Hw. destruct (Z.eqb_spec written (nb_samples f)); [|destruct (_ <? _); apply calmly_error].
  apply calmly_fret. exists queue'. split; [done|]. by apply Hw.
Qed.

(** *** The state of a stream *)

(** The stream was fed [fs] and its encoder given [sf]. *)
Definition tracks (e : EncoderInfo) (fs sf : list (AVFrame X)) (st : @stream_state Q) : Prop :=
  if buffered e
  then exists q S, audio_fifo st = Some q /\ good_fifo e q /\ concat (map f_data fs) = concat S ++ queued (queue q)
         /\ Forall (fun c => length c = size e) S /\ zlen (queued (queue q)) < enc_frame_size e
         /\ frame_index st = zlen S * enc_frame_size e /\ sf = imap (chunk_frame e 0) S
  else audio_fifo st = None /\ sf = expected e fs
       /\ frame_index st = (match enc_type e with MediaAudio => zlen (concat (map f_data fs)) | _ => zlen fs end).

Lemma buffered_size e : buffered e = true -> enc_type e = MediaAudio /\ 0 < enc_frame_size e.
Proof. unfold buffered. intros [Ht%bool_decide_eq_true Hs]%andb_true_iff. split; [done | lia]. Qed.

Lemma imap_chunks_app e (S S' : list (list X)) :
  imap (chunk_frame e 0) (S ++ S') = imap (chunk_frame e 0) S ++ imap (chunk_frame e (zlen S * enc_frame_size e)) S'.
Proof. rewrite imap_app. f_equal. apply imap_ext. intros i c _. unfold chunk_frame, zlen. f_equal. lia. Qed.

Lemma expected_snoc e fs f :
  buffered e = false -> expected e (fs ++ [f]) =
  expected e fs ++ [with_pts (match enc_type e with MediaAudio => zlen (concat (map f_data fs)) | _ => zlen fs end) f].
Proof.
  intros Hb. unfold expected. rewrite Hb. destruct (enc_type e); rewrite ?imap_app, ?timed_app; cbn; unfold zlen; rewrite ?Nat.add_0_r; done.
Qed.

Lemma returns_submit e s f operation fs sf st w :
  tracks e fs sf st -> enc_type e = MediaAudio \/ enc_type e = MediaVideo ->
  let audio := bool_decide (enc_type e = MediaAudio) in
  returns (fun n _ => submit n s audio operation (if audio then f else with_pts (frame_index st) f)
                        (if audio then st else mkStreamState (audio_fifo st) (frame_index st + 1))) w
    (fun r w' => exists new, moves s w w' new [] /\ match r with Ok st' => tracks e (fs ++ [f]) (sf ++ new) st' | Err _ => True end).
Proof.
  intros Ht He audio. unfold tracks in Ht. destruct (buffered e) eqn:Hb.
  - destruct (buffered_size e Hb) as [Ha Hn]. unfold audio. rewrite bool_decide_eq_true_2 by done.
    destruct Ht as (q & S & Eq & Hq & HD & Hall & Hlt & Hi & ->). unfold submit. rewrite Eq.
    eapply returns_after; [apply calmly_push | | intros e' w' Hc; exists []; split; [by apply calm_moves | done]].
    intros q1 w1 C1 (queue1 & -> & Hq1).
    eapply (returns_bind (fun n _ => encode_available n n s false _ _) (fun _ _ x => let '(q, index) := x in fret (mkStreamState (Some q) index)));
      [apply (returns_same (fun n n' => encode_available n n' s false _ _)), (returns_encode e); [by apply good_with_queue | done] | |].
    + intros [q' index'] w2 (new & Hm & Hq' & S' & HS & -> & Hall' & Hlt' & ->). eapply returns_now; [done|].
      eexists. split; [by eapply calm_then|]. unfold tracks. rewrite Hb. exists q', (S ++ S'). split; [done|]. split; [done|].
      cbn in HS. rewrite Hq1 in HS. split; [rewrite map_app, concat_app; cbn; rewrite app_nil_r, HD, concat_app, <- !app_assoc, <- HS; done|].
      split; [by apply Forall_app|]. split; [done|]. split; [cbn; rewrite zlen_app, Hi; lia|]. by rewrite imap_chunks_app, Hi.
    + intros e' w' (new & Hm & _). exists new. split; [by eapply calm_then | done].
  - destruct Ht as (Eq & -> & Hi). unfold submit.
    replace (audio_fifo (if audio then st else _)) with (@None (@AudioFifo Q)) by (by destruct audio). cbv zeta.
    set (f' := with_pts (frame_index st) f).
    replace (if audio then with_pts _ _ else _) with f' by (by destruct audio).
    apply returns_send; [|intros e' w' Hm; exists []; by split]. intros w1 Hm.
    eapply (returns_bind (fun n _ => drain_encoder n s) (fun _ _ _ => _)); [apply returns_drain | |].
    + intros x w2 C2. cbn in C2. eapply returns_now; [done|]. exists [f']. split; [by eapply then_calm|]. unfold tracks. rewrite Hb.
      split; [done|]. split; [rewrite expected_snoc by done; unfold f'; by rewrite Hi|]. unfold audio. cbn.
      destruct He as [He|He]; rewrite He in *.
      * rewrite bool_decide_eq_true_2 by done. rewrite map_app, concat_app, zlen_app, Hi. cbn. by rewrite app_nil_r.
      * rewrite bool_decide_eq_false_2 by done. cbn. by rewrite zlen_app, Hi.
    + intros e' w2 C2. cbn in C2. exists [f']. split; [by eapply then_calm | done].
Qed.

(** *** The loops *)

Lemma returns_asking {T} (k : nat -> nat -> F -> FM T) w (P : result T E -> world -> Prop) :
  returns (fun n n' => k n n' (ff_state w)) w P -> returns (fun n n' => asking (k n n')) w P.
Proof. done. Qed.

(** What a step of the stream [s] leaves, from what it was fed and given before. *)
Definition advances (s : Z) (fs sf : list (AVFrame X)) (new ds : list (AVFrame X)) (r : result (@stream_state Q) E) : Prop :=
  match r with Ok st' => tracks (enc s) (fs ++ map (converted (enc s)) ds) (sf ++ new) st' | Err _ => True end.

Lemma moves_decoded s w st d : steady (ff_state w) st -> moves s w (logged st [Decoded s d] (logged st [] w)) [] [d].
Proof.
  intros Hs. split; [|done]. exists [Decoded s d]. split; [by cbn; rewrite app_nil_r|]. cbn. rewrite Z.eqb_refl. split; [done|]. split; [done|].
  intros s' Hs'. by replace (s =? s') with false by lia.
Qed.

Lemma returns_decode s st fs sf w :
  tracks (enc s) fs sf st ->
  returns (fun n n' => drain_decoder_to_encoder n n' s st) w (fun r w' => exists new ds, moves s w w' new ds /\ advances s fs sf new ds r).
Proof.
  remember (undecoded s (ff_state w)) as n eqn:En. revert st fs sf w En. induction n as [n IH] using lt_wf_ind. intros st fs sf w -> Ht.
  apply (returns_step (fun n n' => drain_decoder_to_encoder n n' s st)). cbn [drain_decoder_to_encoder]. apply returns_stepping.
  destruct (avcodec_receive_frame s (ff_state w)) as [[ret d] ff] eqn:Er. destruct (receive_undecoded _ _ _ _ _ Er) as [Hs Hu]. cbn [fst snd].
  pose proof (logged_calm w ff Hs) as Hc. destruct (_ || _).
  { eapply returns_now; [done|]. exists [], []. split; [by apply calm_moves|]. cbn. by rewrite !app_nil_r. }
  apply returns_check; [intros Hret | intros e; exists [], []; split; [by apply calm_moves | done]]. specialize (Hu Hret).
  pose proof (moves_decoded s w ff d Hs) as Hm.
  eapply (returns_bind (fun _ _ => note (Decoded s d)) (fun n n' _ => _) _ (fun r w' => r = Ok tt /\ w' = logged ff [Decoded s d] (logged ff [] w)));
    [by eapply returns_now | | by intros e w' [? _]].
  intros x w1 [_ ->]. apply returns_asking. rewrite encoder_info_enc.
  eapply returns_after; [apply calmly_prepare | | intros e w' C'; exists [], [d]; split; [by eapply then_calm | done]].
  intros [f index] w2 C2 Hp. pose proof (then_calm _ _ _ _ _ _ Hm C2) as Hm2.
  assert (He : enc_type (enc s) = MediaAudio \/ enc_type (enc s) = MediaVideo) by (destruct (enc_type (enc s)); auto; done).
  pose proof (returns_submit (enc s) s (converted (enc s) d) "avcodec_send_frame" fs sf st w2 Ht He) as Hsub. cbv zeta in Hsub.
  eapply (returns_bind (fun _ n' => submit n' s _ _ f _) (fun n n' st => drain_decoder_to_encoder n n' s st)).
  { apply returns_inner. eapply returns_impl; [|intros r w' HP; exact HP].
    destruct He as [He|He]; rewrite He in Hp, Hsub |- *; injection Hp as -> ->; destruct st; exact Hsub. }
  - intros st' w3 (new & Hm3 & Ht'). pose proof (moves_app _ _ _ _ _ _ _ _ Hm2 Hm3) as Hm4.
    eapply returns_impl; [eapply (IH (undecoded s (ff_state w3)) ltac:(destruct Hm3 as [_ [_ H3]], C2 as [_ [_ H2]]; specialize (H3 s); specialize (H2 s); cbn in *; lia));
      [done | exact Ht']|].
    intros r w' (new' & ds & Hm5 & Ha). eexists _, _. split; [by eapply moves_app|]. unfold advances in *. destruct r; [|done].
    rewrite <- !app_assoc in Ha. by rewrite map_app.
  - intros e w3 (new & Hm3 & _). eexists _, _. split; [by eapply moves_app | done].
Qed.

Lemma returns_finish s tag st fs sf w :
  tracks (enc s) fs sf st ->
  returns (fun n _ => finish_encoder n s tag st) w
    (fun r w' => exists new, moves s w w' new [] /\ match r with Ok _ => sf ++ new = expected (enc s) fs | Err _ => True end).
Proof.
  intros Ht. unfold finish_encoder.
  eapply (returns_bind (fun n _ => match audio_fifo st with Some q => let! _ := encode_available n n s true q (frame_index st) in fret tt | None => fret tt end)
    (fun n _ _ => let! _ := checked (SendFrame s None) _ in drain_encoder n s) _
    (fun r w' => exists new, moves s w w' new [] /\ match r with Ok _ => sf ++ new = expected (enc s) fs | Err _ => True end)).
  - unfold tracks in Ht. destruct (buffered (enc s)) eqn:Hb.
    + destruct (buffered_size _ Hb) as [_ Hn]. destruct Ht as (q & S & Eq & Hq & HD & Hall & Hlt & Hi & ->). rewrite Eq.
      eapply (returns_bind (fun n _ => encode_available n n s true q _) (fun _ _ _ => fret tt));
        [apply (returns_same (fun n n' => encode_available n n' s true q _)), (returns_encode (enc s)); done | |].
      * intros [q' index'] w1 (new & Hm & _ & S' & _ & -> & ->). eapply returns_now; [done|]. eexists. split; [done|].
        unfold expected. rewrite Hb, HD, chunks_full by (done || lia). by rewrite imap_chunks_app, Hi.
      * intros e w1 (new & Hm & _). by exists new.
    + destruct Ht as (-> & -> & _). eapply returns_now; [done|]. exists []. split; [by apply calm_moves | apply app_nil_r].
  - intros x w1 (new & Hm & Hx). eapply returns_after; [by apply calmly_checked | | intros e w2 C2; exists new; split; [by eapply then_calm | done]].
    intros _ w2 C2 _. eapply returns_impl; [apply returns_drain|]. intros r w3 C3. cbn in C3. exists new.
    split; [eapply then_calm; [exact Hm | by etransitivity] | by destruct r].
  - intros e w1 (new & Hm & _). by exists new.
Qed.

(** Steps around a packet: what is left to read does not grow. *)
Definition passes (s : Z) (w w' : world) (new ds : list (AVFrame X)) : Prop :=
  stage s w w' new ds /\ (unread (ff_state w') <= unread (ff_state w))%nat.

Lemma moves_passes s w w' new ds : moves s w w' new ds -> passes s w w' new ds.
Proof. intros [Hs [Hu _]]. by split. Qed.

Lemma passes_app s w1 w2 w3 f1 f2 d1 d2 : passes s w1 w2 f1 d1 -> passes s w2 w3 f2 d2 -> passes s w1 w3 (f1 ++ f2) (d1 ++ d2).
Proof. intros [A1 U1] [A2 U2]. split; [by eapply stage_app | lia]. Qed.

Lemma passes_packet s p w : 
  passes s w (logged (ff_code (SendPacket s p) (ff_state w)).2 [Called (SendPacket s p) (ff_code (SendPacket s p) (ff_state w)).1] w) [] [].
Proof. split; [|apply send_unread]. apply quiet_stage. eexists. split; [done | by apply hush_one]. Qed.

Lemma returns_packet s p st fs sf w :
  tracks (enc s) fs sf st ->
  returns (fun n _ => send_packet_and_encode n s p st) w (fun r w' => exists new ds, passes s w w' new ds /\ advances s fs sf new ds r).
Proof.
  intros Ht. apply returns_checked; intros Hc; [|intros e; exists [], []; split; [apply passes_packet | done]].
  eapply returns_impl; [apply (returns_same (fun n n' => drain_decoder_to_encoder n n' s st)), returns_decode, Ht|].
  intros r w' (new & ds & Hm%moves_passes & Ha). exists new, ds. split; [|done]. exact (passes_app _ _ _ _ [] new [] ds (passes_packet _ _ _) Hm).
Qed.

Lemma returns_flush s tag st fs sf w :
  tracks (enc s) fs sf st ->
  returns (fun n _ => flush_stream n s tag st) w
    (fun r w' => exists new ds, stage s w w' new ds
       /\ match r with Ok _ => sf ++ new = expected (enc s) (fs ++ map (converted (enc s)) ds) | Err _ => True end).
Proof.
  intros Ht. unfold flush_stream. apply returns_checked; intros Hc; [|intros e; exists [], []; split; [apply passes_packet | done]].
  destruct (passes_packet s None w) as [Hp _].
  eapply (returns_bind (fun n _ => drain_decoder_to_encoder n n s st) (fun n _ st => finish_encoder n s tag st));
    [apply (returns_same (fun n n' => drain_decoder_to_encoder n n' s st)), returns_decode, Ht | |].
  - intros st' w2 (new & ds & [Hm _] & Ht'). eapply returns_impl; [apply returns_finish, Ht'|].
    intros r w3 (new' & [Hm' _] & Hr). exists (new ++ new'), ds. pose proof (stage_app _ _ _ _ _ _ _ _ Hp (stage_app _ _ _ _ _ _ _ _ Hm Hm')) as Hm2.
    cbn in Hm2. rewrite app_nil_r in Hm2. split; [done|]. by rewrite app_assoc.
  - intros e w2 (new & ds & [Hm _] & _). exists new, ds. split; [|done]. exact (stage_app _ _ _ _ [] new [] ds Hp Hm).
Qed.

Lemma returns_read s st fs sf w :
  tracks (enc s) fs sf st ->
  returns (fun n n' => read_loop n n' s st) w (fun r w' => exists new ds, stage s w w' new ds /\ advances s fs sf new ds r).
Proof.
  remember (unread (ff_state w)) as n eqn:En. revert st fs sf w En. induction n as [n IH] using lt_wf_ind. intros st fs sf w -> Ht.
  apply (returns_step (fun n n' => read_loop n n' s st)). cbn [read_loop]. apply returns_stepping.
  destruct (av_read_frame (ff_state w)) as [[ret p] ff] eqn:Er. pose proof (read_unread _ _ _ _ Er) as Hu. cbn [fst snd].
  assert (Hq : stage s w (logged ff [] w) [] []) by (apply quiet_stage; by exists []).
  destruct (ret =? AVERROR_EOF).
  { eapply returns_now; [done|]. exists [], []. split; [done|]. cbn. by rewrite !app_nil_r. }
  apply returns_check; [intros Hret; specialize (Hu Hret) | intros e; by exists [], []].
  eapply (returns_bind (fun _ n' => if p_stream p =? s then send_packet_and_encode n' s p st else fret st) (fun n n' st => read_loop n n' s st) _
    (fun r w' => exists new ds, passes s (logged ff [] w) w' new ds /\ advances s fs sf new ds r)).
  - destruct (p_stream p =? s); [by apply returns_inner, returns_packet|]. eapply returns_now; [done|]. exists [], [].
    split; [by apply moves_passes, calm_moves|]. cbn. by rewrite !app_nil_r.
  - intros st' w2 (new & ds & [Hm Hle] & Ht'). eapply returns_impl; [eapply (IH (unread (ff_state w2)) ltac:(cbn in *; lia)); [done | exact Ht']|].
    intros r w3 (new' & ds' & Hm' & Ha). exists (new ++ new'), (ds ++ ds').
    split; [exact (stage_app _ _ _ _ [] _ [] _ Hq (stage_app _ _ _ _ _ _ _ _ Hm Hm'))|].
    unfold advances in *. destruct r; [|done]. by rewrite map_app, !app_assoc.
  - intros e w2 (new & ds & [Hm _] & _). exists new, ds. split; [exact (stage_app _ _ _ _ [] _ [] _ Hq Hm) | done].
Qed.

(** *** Two streams *)

(** After the events [evs], from what was fed and given before. *)
Definition tracked (s : Z) (fs sf : list (AVFrame X)) (evs : list (event X)) (st : @stream_state Q) : Prop :=
  tracks (enc s) (fs ++ map (converted (enc s)) (decoded s evs)) (sf ++ sent s evs) st.

Lemma tracked_app s fs sf e1 e2 st :
  tracked s (fs ++ map (converted (enc s)) (decoded s e1)) (sf ++ sent s e1) e2 st -> tracked s fs sf (e1 ++ e2) st.
Proof. unfold tracked. by rewrite frames_sent_app, decoded_app, map_app, !app_assoc. Qed.

Lemma tracked_quiet s fs sf evs st : sent s evs = [] /\ decoded s evs = [] -> tracks (enc s) fs sf st -> tracked s fs sf evs st.
Proof. unfold tracked. intros [-> ->]. by rewrite !app_nil_r. Qed.

Definition only (v : Z) (a : option Z) (evs : list (event X)) : Prop := forall s, s <> v -> a <> Some s -> sent s evs = [] /\ decoded s evs = [].

Lemma only_app v a e1 e2 : only v a e1 -> only v a e2 -> only v a (e1 ++ e2).
Proof. intros H1 H2 s Hv Ha. rewrite frames_sent_app, decoded_app. destruct (H1 s Hv Ha) as [-> ->]. by apply H2. Qed.

(** The state of both streams of a USM file. *)
Definition both (v : Z) (a : option Z) (fd sd : Z -> list (AVFrame X)) (evs : list (event X)) (video audio : @stream_state Q) : Prop :=
  tracked v (fd v) (sd v) evs video /\ forall s, a = Some s -> tracked s (fd s) (sd s) evs audio.

Definition usm_step (p : AVPacket) (v : Z) (a : option Z) (video audio : @stream_state Q) (n : nat) : FM (stream_state * stream_state) :=
  if p_stream p =? v then let! video := send_packet_and_encode n v p video in fret (video, audio)
  else if bool_decide (a = Some (p_stream p)) then let! audio := send_packet_and_encode n (p_stream p) p audio in fret (video, audio)
  else fret (video, audio).

Lemma returns_usm_step p v a video audio fd sd w :
  a <> Some v -> tracks (enc v) (fd v) (sd v) video -> (forall s, a = Some s -> tracks (enc s) (fd s) (sd s) audio) ->
  returns (fun n _ => usm_step p v a video audio n) w
    (fun r w' => (unread (ff_state w') <= unread (ff_state w))%nat /\ exists evs, ff_log w' = ff_log w ++ evs /\ only v a evs
       /\ match r with Ok (video', audio') => both v a fd sd evs video' audio' | Err _ => True end).
Proof.
  intros Hva Hv Ha. unfold usm_step. destruct (p_stream p =? v); [|destruct (bool_decide_reflect (a = Some (p_stream p))) as [Ea|_]].
  - eapply (returns_bind (fun n _ => send_packet_and_encode n v p video) (fun _ _ x => fret (x, audio))); [by apply returns_packet | |].
    + intros st' w' (new & ds & [(evs & El & <- & <- & Ho) Hu] & Hadv). eapply returns_now; [done|]. split; [done|]. exists evs.
      split; [done|]. split; [intros s Hs _; by apply Ho|]. split; [done|]. intros s Es. apply tracked_quiet; [apply Ho; congruence | by apply Ha].
    + intros e w' (new & ds & [(evs & El & _ & _ & Ho) Hu] & _). split; [done|]. exists evs. split; [done|]. split; [|done]. intros s Hs _. by apply Ho.
  - subst a. eapply (returns_bind (fun n _ => send_packet_and_encode n _ p audio) (fun _ _ x => fret (video, x))); [by apply returns_packet, Ha | |].
    + intros st' w' (new & ds & [(evs & El & <- & <- & Ho) Hu] & Hadv). eapply returns_now; [done|]. split; [done|]. exists evs.
      split; [done|]. split; [intros s _ Hs; apply Ho; congruence|]. split; [apply tracked_quiet; [apply Ho; congruence | done]|].
      by intros s [= <-].
    + intros e w' (new & ds & [(evs & El & _ & _ & Ho) Hu] & _). split; [done|]. exists evs. split; [done|]. split; [|done].
      intros s _ Hs. apply Ho. congruence.
  - eapply returns_now; [done|]. split; [done|]. exists []. split; [by rewrite app_nil_r|]. split; [done|]. split; [by apply tracked_quiet|].
    intros s Es. by apply tracked_quiet, Ha.
Qed.

Lemma returns_usm v a video audio fd sd w :
  a <> Some v -> tracks (enc v) (fd v) (sd v) video -> (forall s, a = Some s -> tracks (enc s) (fd s) (sd s) audio) ->
  returns (fun n n' => usm_loop n n' v a video audio) w
    (fun r w' => exists evs, ff_log w' = ff_log w ++ evs /\ only v a evs
       /\ match r with Ok (video', audio') => both v a fd sd evs video' audio' | Err _ => True end).
Proof.
  intros Hva. remember (unread (ff_state w)) as n eqn:En. revert video audio fd sd w En.
  induction n as [n IH] using lt_wf_ind. intros video audio fd sd w -> Hv Ha.
  apply (returns_step (fun n n' => usm_loop n n' v a video audio)). cbn [usm_loop]. apply returns_stepping.
  destruct (av_read_frame (ff_state w)) as [[ret p] ff] eqn:Er. pose proof (read_unread _ _ _ _ Er) as Hu. cbn [fst snd].
  destruct (ret =? AVERROR_EOF).
  { eapply returns_now; [done|]. exists []. split; [done|]. split; [done|]. split; [by apply tracked_quiet|]. intros s Es. by apply tracked_quiet, Ha. }
  apply returns_check; [intros Hret; specialize (Hu Hret) | intros e; by exists []].
  eapply (returns_bind (fun _ n' => usm_step p v a video audio n') (fun n n' x => let '(video, audio) := x in usm_loop n n' v a video audio));
    [by apply returns_inner, (returns_usm_step p v a video audio fd sd) | |].
  - intros [video' audio'] w2 (Hle & e1 & E1 & Ho1 & Hv' & Ha').
    eapply returns_impl; [eapply (IH (unread (ff_state w2)) ltac:(cbn in *; lia) video' audio'
      (fun s => fd s ++ map (converted (enc s)) (decoded s e1)) (fun s => sd s ++ sent s e1)); done|].
    intros r w3 (e2 & E2 & Ho2 & Hr). exists (e1 ++ e2). split; [rewrite E2, E1; cbn; by rewrite app_nil_r, app_assoc|].
    split; [by apply only_app|]. destruct r as [[video2 audio2]|]; [|done]. destruct Hr as [Hv2 Ha2]. split; [by apply tracked_app|].
    intros s Es. by apply tracked_app, Ha2.
  - intros e w2 (_ & e1 & E1 & Ho1 & _). exists e1. split; [rewrite E1; cbn; by rewrite app_nil_r | done].
Qed.

(** *** PCM audio *)

Definition pcm_frame (rate channels : Z) (layout : ChannelLayout) (c : list Z) : AVFrame X :=
  mkFrame (map pcm16 (chunks (Z.to_nat channels) c)) 0 AV_SAMPLE_FMT_S16 rate layout 0 0.

(** The frames of the chunks that are not empty. *)
Definition pcm_frames (rate channels : Z) (layout : ChannelLayout) (cs : list (list Z)) : list (AVFrame X) :=
  map (pcm_frame rate channels layout) (filter (fun c => c <> []) cs).

Lemma needs_resample e rate channels layout c :
  enc_type e = MediaAudio ->
  negb (enc_sample_fmt e =? AV_SAMPLE_FMT_S16) || negb (enc_sample_rate e =? rate) || negb (bool_decide (enc_layout e = layout))
  = negb (in_format e (pcm_frame rate channels layout c)).
Proof.
  intros He. unfold in_format. rewrite He, !negb_andb. cbn [pcm_frame f_format f_sample_rate f_layout]. rewrite (Z.eqb_sym AV_SAMPLE_FMT_S16), (Z.eqb_sym rate). f_equal. f_equal.
  apply bool_decide_ext. split; congruence.
Qed.

Lemma returns_samples s rate channels layout c st fs sf w :
  enc_type (enc s) = MediaAudio -> tracks (enc s) fs sf st ->
  returns (fun n _ => encode_samples n s rate channels layout c st) w
    (fun r w' => exists new, moves s w w' new []
       /\ match r with Ok st' => tracks (enc s) (fs ++ map (converted (enc s)) (pcm_frames rate channels layout [c])) (sf ++ new) st' | Err _ => True end).
Proof.
  intros He Ht. unfold encode_samples, pcm_frames. destruct (bool_decide_reflect (c = [])) as [->|Hc].
  { eapply returns_now; [done|]. exists []. split; [by apply calm_moves|]. by rewrite filter_cons_False, !app_nil_r by auto. }
  rewrite filter_cons_True by done. cbn [filter map]. fold (pcm_frame rate channels layout c).
  destruct (_ || _). { eapply returns_now; [done|]. exists []. split; [by apply calm_moves | done]. }
  eapply returns_after; [by apply calmly_checked | | intros e' w' Hc'; exists []; split; [by apply calm_moves | done]]. intros _ w1 C1 _.
  eapply returns_after; [by apply calmly_checked | | intros e' w' Hc'; exists []; split; [apply calm_moves; by etransitivity | done]]. intros _ w2 C2 _.
  apply returns_asking. rewrite encoder_info_enc. cbv zeta. rewrite (needs_resample _ _ channels _ c He).
  eapply returns_after with (post := fun f => f = converted (enc s) (pcm_frame rate channels layout c)).
  { destruct (in_format _ _) eqn:Hf; cbn [negb]; [apply calmly_fret; unfold converted; by rewrite Hf | by apply calmly_resample]. }
  2: { intros e' w' C3. exists []. split; [|done]. apply calm_moves. do 2 (etransitivity; [eassumption|]). done. }
  intros f w3 C3 ->. assert (C : calm w w3) by (do 2 (etransitivity; [eassumption|]); done).
  pose proof (returns_submit (enc s) s (converted (enc s) (pcm_frame rate channels layout c)) "avcodec_send_frame pcm" fs sf st w3 Ht (or_introl He)) as Hs.
  cbv zeta in Hs. rewrite bool_decide_eq_true_2 in Hs by done.
  eapply returns_impl; [exact Hs|]. intros r w' (new & Hm & Hr). exists new. split; [by eapply calm_then | done].
Qed.

Lemma returns_feed rate channels layout cs st fs sf w :
  enc_type (enc 0) = MediaAudio -> tracks (enc 0) fs sf st ->
  exists n err st' w', (forall fuel, (n <= fuel)%nat -> feed fuel rate channels layout cs st w = Some (err, st', w'))
    /\ exists new, moves 0 w w' new []
    /\ (err = None -> tracks (enc 0) (fs ++ map (converted (enc 0)) (pcm_frames rate channels layout cs)) (sf ++ new) st').
Proof.
  intros He. revert st fs sf w. induction cs as [|c cs IH]; intros st fs sf w Ht.
  { exists O, None, st, w. split; [done|]. exists []. split; [by apply calm_moves|]. intros _. cbn. by rewrite !app_nil_r. }
  destruct (returns_samples 0 rate channels layout c st fs sf w He Ht) as (n1 & [st1|e] & w1 & E1 & new & Hm & Hr).
  - destruct (IH st1 _ _ w1 Hr) as (n2 & err & st' & w' & E2 & new' & Hm' & Ht'). exists (Nat.max n1 n2), err, st', w'. split.
    + intros fuel Hf. cbn [feed]. rewrite (E1 fuel fuel) by lia. apply E2. lia.
    + exists (new ++ new'). split; [exact (moves_app _ _ _ _ _ _ [] [] Hm Hm')|]. intros Hn. specialize (Ht' Hn).
      rewrite <- !app_assoc in Ht'. rewrite <- map_app in Ht'. unfold pcm_frames in *. by rewrite <- map_app, <- filter_app in Ht'.
  - exists n1, (Some e), st, w1. split; [|exists new; by split]. intros fuel Hf. cbn [feed]. by rewrite (E1 fuel fuel) by lia.
Qed.

Lemma returns_produce hca rate channels layout st w :
  enc_type (enc 0) = MediaAudio -> tracks (enc 0) [] [] st ->
  returns (fun n _ => produce_hca n hca rate channels layout st) w
    (fun r w' => exists new, moves 0 w w' new []
       /\ match r with Ok st' => tracks (enc 0) (map (converted (enc 0)) (pcm_frames rate channels layout (hca_chunks hca))) new st' | Err _ => True end).
Proof.
  intros He Ht. destruct (returns_feed rate channels layout (hca_chunks hca) st [] [] w He Ht) as (n & err & st' & w' & En & new & Hm & Hr).
  exists n, (match hca_error hca, err with
             | Some err, _ => Err (ExportMedia ("HCA decode failed: " +:+ err)) | None, Some e => Err e | None, None => Ok st' end), w'.
  split; [intros fuel fuel' Hf _; unfold produce_hca; by rewrite En|]. exists new. split; [done|].
  destruct (hca_error hca), err; try done. by apply Hr.
Qed.

(** *** Around the loops *)

Definition quietly {T} (m : FM T) (post : T -> Prop) : Prop :=
  forall w, exists r w', m w = Some (r, w') /\ quiet w w' /\ match r with Ok x => post x | Err _ => True end.

Lemma calmly_quietly {T} (m : FM T) post : calmly m post -> quietly m post.
Proof. intros Hm w. destruct (Hm w) as (r & w' & Em & [Hq _] & Hr). by exists r, w'. Qed.

Lemma quietly_fret {T} (x : T) (post : T -> Prop) : post x -> quietly (fret x) post.
Proof. intros. by apply calmly_quietly, calmly_fret. Qed.

Lemma quietly_error {T} message (post : T -> Prop) : quietly (media_error message) post.
Proof. apply calmly_quietly, calmly_error. Qed.

Lemma quietly_asking {T} (k : F -> FM T) post : (forall st, quietly (k st) post) -> quietly (asking k) post.
Proof. intros Hk w. apply (Hk (ff_state w)). Qed.

Lemma quietly_bind {A B} (m : FM A) (k : A -> FM B) p1 p2 : quietly m p1 -> (forall x, p1 x -> quietly (k x) p2) -> quietly (fbind m k) p2.
Proof.
  intros Hm Hk w. unfold fbind. destruct (Hm w) as ([x|e] & w1 & -> & C1 & H1).
  - destruct (Hk x H1 w1) as (r & w2 & -> & C2 & H2). exists r, w2. split; [done|]. split; [by etransitivity | done].
  - by exists (Err e), w1.
Qed.

Lemma quietly_checked (c : ff_call X) operation : (forall s f, c <> SendFrame s (Some f)) -> quietly (checked c operation) (fun _ => True).
Proof.
  intros Hs w. rewrite checked_run. eexists _, _. split; [done|]. split; [|by destruct (0 <=? _)]. eexists. split; [done|]. apply hush_one.
  destruct c as [| | | | | | | | | | |? []| | | | | |]; try done. by eapply Hs.
Qed.

(** Whatever the state, [m] comes back, and when it succeeds its events are as [Spec] says. *)
Definition finishes {T} (m : nat -> nat -> FM T) (Spec : list (event X) -> Prop) : Prop :=
  forall w, returns m w (fun r w' => exists evs, ff_log w' = ff_log w ++ evs /\ match r with Ok _ => Spec evs | Err _ => True end).

Section Spec.
Context {Spec : list (event X) -> Prop}.
(** Only frames matter. *)
Hypothesis spec_hush : forall e1 evs e2, hush e1 -> hush e2 -> Spec evs -> Spec (e1 ++ evs ++ e2).

Lemma finishes_error {T} message : finishes (fun _ _ => @media_error F X T message) Spec.
Proof. intros w. eapply returns_now; [done|]. exists []. split; [by rewrite app_nil_r | done]. Qed.

Lemma finishes_after {A B} (m : FM A) (k : nat -> nat -> A -> FM B) post :
  quietly m post -> (forall x, post x -> finishes (fun n n' => k n n' x) Spec) -> finishes (fun n n' => fbind m (k n n')) Spec.
Proof.
  intros Hm Hk w. destruct (Hm w) as (r & w1 & Em & (e1 & E1 & He1) & Hr).
  eapply (returns_bind (fun _ _ => m) k _ (fun r' w' => r' = r /\ w' = w1)); [by eapply returns_now | |].
  - intros x w' [<- ->]. eapply returns_impl; [by apply Hk|]. intros r' w' (e2 & E2 & HS). exists (e1 ++ e2).
    split; [by rewrite E2, E1, app_assoc|]. destruct r' as [y|]; [|done].
    rewrite <- (app_nil_r e2). apply spec_hush; done.
  - intros e w' [_ ->]. by exists e1.
Qed.

Lemma finishes_finally {T} r0 (m : nat -> nat -> FM T) : finishes m Spec -> finishes (fun n n' => finally r0 (m n n')) Spec.
Proof.
  intros Hm w. apply returns_finally. eapply returns_impl; [apply Hm|]. intros r w' (evs & El & HS). exists (evs ++ [Free r0]).
  split; [cbn; by rewrite El, app_assoc|]. destruct r; [|done]. apply (spec_hush []); [done | by apply hush_one | done].
Qed.

Lemma finishes_owning {T} r0 message (m : nat -> nat -> FM T) : finishes m Spec -> finishes (fun n n' => owning r0 message (m n n')) Spec.
Proof.
  intros Hm. apply (finishes_after _ (fun n n' _ => finally r0 (m n n')) (fun _ => True)); [apply calmly_quietly, calmly_allocate|].
  intros _ _. by apply finishes_finally.
Qed.

Lemma finishes_asking {T} (k : nat -> nat -> F -> FM T) :
  (forall st, finishes (fun n n' => k n n' st) Spec) -> finishes (fun n n' => asking (k n n')) Spec.
Proof. intros Hk w. apply returns_asking, Hk. Qed.

Lemma finishes_checked {T} c operation (m : nat -> nat -> FM T) :
  (forall s f, c <> SendFrame s (Some f)) -> finishes m Spec -> finishes (fun n n' => let! _ := checked c operation in m n n') Spec.
Proof. intros Hc Hm. by eapply (finishes_after _ (fun n n' _ => m n n')); [apply quietly_checked | intros _ _]. Qed.

Lemma finishes_stepping {Y T} (f : F -> Y * F) (k : nat -> nat -> Y -> FM T) :
  (forall y, finishes (fun n n' => k n n' y) Spec) -> finishes (fun n n' => fbind (stepping f) (k n n')) Spec.
Proof.
  intros Hk. apply (finishes_after _ _ (fun _ => True)); [|intros y _; apply Hk]. intros w. unfold stepping. destruct (f (ff_state w)) as [y st].
  eexists _, _. split; [done|]. split; [by exists [] | done].
Qed.

Lemma finishes_decoder {T} s tag (m : nat -> nat -> FM T) : finishes m Spec -> finishes (fun n n' => with_decoder s tag (m n n')) Spec.
Proof.
  intros Hm. apply finishes_asking. intros st. destruct (negb _); [apply finishes_error|]. apply finishes_owning.
  do 2 (apply finishes_checked; [done|]). exact Hm.
Qed.

Lemma finishes_encoder {T} s codec settings n1 n2 tag (m : nat -> nat -> FM T) :
  finishes m Spec -> finishes (fun n n' => with_encoder s codec settings n1 n2 tag (m n n')) Spec.
Proof.
  intros Hm. unfold with_encoder. destruct (negb _); [apply finishes_error|]. apply finishes_owning, finishes_asking. intros st.
  apply finishes_checked; [done|]. apply finishes_stepping. intros []; [|apply finishes_error]. by apply finishes_checked.
Qed.

(** The queue of an encoder is there when the encoder wants frames of a fixed size. *)
Lemma finishes_fifo {T} s (body : nat -> nat -> option AudioFifo -> FM T) :
  (forall q, tracks (enc s) [] [] (mkStreamState q 0) -> finishes (fun n n' => body n n' q) Spec) ->
  finishes (fun n n' => with_fifo s (body n n')) Spec.
Proof.
  intros Hb. apply finishes_asking. intros st. rewrite encoder_info_enc. cbv zeta.
  assert (Hbuf : (negb (bool_decide (enc_type (enc s) = MediaAudio)) || (enc_frame_size (enc s) <=? 0)) = negb (buffered (enc s))).
  { unfold buffered. destruct (bool_decide _); cbn; lia. }
  rewrite Hbuf. destruct (buffered (enc s)) eqn:Eb; cbn [negb].
  - eapply finishes_after; [apply calmly_quietly, calmly_default_or_copy | intros layout ->].
    eapply (finishes_after _ (fun n n' _ => _)); [apply calmly_quietly, calmly_allocate | intros _ _].
    eapply (finishes_after _ (fun n n' _ => _)); [apply calmly_quietly, calmly_allocate | intros _ _].
    do 2 apply finishes_finally. apply Hb. unfold tracks. rewrite Eb. destruct (buffered_size _ Eb) as [_ Hn].
    eexists _, []. split; [done|]. split; [done|]. cbn. rewrite fifo_alloc. repeat split; [constructor | done].
  - apply Hb. unfold tracks. rewrite Eb. repeat split; [|by destruct (enc_type (enc s))]. unfold expected. rewrite Eb. by destruct (enc_type (enc s)).
Qed.

Lemma quietly_cstring p : quietly (path_cstring p) (fun _ => True).
Proof. unfold path_cstring. destruct (nul_position _); [apply quietly_error | by apply quietly_fret]. Qed.

Lemma quietly_format f : quietly (input_format_ptr f) (fun _ => True).
Proof. unfold input_format_ptr. repeat case_match; try (by apply quietly_fret); apply quietly_error. Qed.

Lemma finishes_file {T} url format (m : nat -> nat -> FM T) : finishes m Spec -> finishes (fun n n' => with_input_file url format (m n n')) Spec.
Proof.
  intros Hm. eapply (finishes_after _ (fun n n' _ => _)); [apply quietly_format | intros _ _]. apply finishes_checked; [done|].
  eapply (finishes_after _ (fun n n' _ => _)); [by apply calmly_quietly, calmly_note | intros _ _]. by apply finishes_finally.
Qed.

Lemma quietly_avio : quietly custom_avio (fun _ => True).
Proof.
  eapply quietly_bind; [apply calmly_quietly, calmly_allocate | intros _ _ w].
  destruct (calmly_allocate RAvio "avio_alloc_context failed" w) as ([x|e] & w' & -> & [Hq _] & _); [by exists (Ok x), w'|].
  eexists _, _. split; [done|]. split; [|done]. etransitivity; [exact Hq | apply calm_release].
Qed.

Lemma finishes_memory {T} data format (m : nat -> nat -> FM T) : finishes m Spec -> finishes (fun n n' => with_input_memory data format (m n n')) Spec.
Proof.
  intros Hm. eapply (finishes_after _ (fun n n' _ => _)); [apply calmly_quietly, calmly_allocate | intros _ _].
  eapply (finishes_after _ (fun n n' _ => _)); [apply quietly_avio | intros _ _]. apply finishes_finally.
  eapply (finishes_after _ (fun n n' _ => _)); [apply quietly_format | intros _ _].
  eapply (finishes_after (call (OpenInput (FromMemory data) format))
    (fun n n' code => finally RInput (let! _ := check code "avformat_open_input memory" in m n n')) (fun _ => True)).
  - eapply quietly_bind with (p1 := fun _ => True).
    + intros w. unfold stepping. destruct (ff_code _ _) as [code st]. eexists _, _. split; [done|]. split; [by exists [] | done].
    + intros code _. eapply quietly_bind; [by apply calmly_quietly, calmly_note | intros _ _; by apply quietly_fret].
  - intros code _. apply finishes_finally. eapply (finishes_after _ (fun n n' _ => m n n')); [apply calmly_quietly, calmly_check | done].
Qed.

Lemma finishes_output {T} url (m : nat -> nat -> FM T) : finishes m Spec -> finishes (fun n n' => with_output url (m n n')) Spec.
Proof.
  intros Hm. apply finishes_checked; [done|]. eapply (finishes_after _ (fun n n' _ => _)); [apply calmly_quietly, calmly_allocate | intros _ _ w].
  destruct (Hm (mkFf (ff_state w) (ff_log w) false)) as (n & r & w' & En & evs & El & HS).
  set (w2 := release ROutput (if io_opened w' then release ROutputFile w' else w')).
  exists n, r, (mkFf (ff_state w2) (ff_log w2) (io_opened w)). split; [intros fuel fuel' Hf Hf'; by rewrite En|].
  exists (evs ++ (if io_opened w' then [Free ROutputFile] else []) ++ [Free ROutput]).
  split; [unfold w2; cbn in El |- *; by destruct (io_opened w'); cbn; rewrite El, <- !app_assoc|]. destruct r; [|done].
  apply (spec_hush []); [done | | done].
  apply hush_app; [|by apply hush_one]. destruct (io_opened w'); [by apply hush_one | done].
Qed.

Lemma quietly_open_io url : quietly (open_io url) (fun _ => True).
Proof.
  apply quietly_asking. intros st. destruct (_ =? 0); [|by apply quietly_fret]. eapply quietly_bind; [by apply quietly_checked | intros _ _ w].
  eexists _, _. split; [done|]. split; [|done]. exists [Alloc ROutputFile]. split; [done | by apply hush_one].
Qed.

Lemma finishes_body {T} url operation (m : nat -> nat -> FM T) :
  finishes m Spec -> finishes (fun n n' => let! _ := open_io url in let! _ := checked WriteHeader operation in m n n') Spec.
Proof. intros Hm. eapply (finishes_after _ (fun n n' _ => _)); [apply quietly_open_io | intros _ _]. by apply finishes_checked. Qed.

Lemma finishes_trailer {T} (m : nat -> nat -> FM T) operation :
  finishes m Spec -> finishes (fun n n' => let! _ := m n n' in checked WriteTrailer operation) Spec.
Proof.
  intros Hm w. eapply (returns_bind m (fun _ _ _ => _)); [apply Hm | |].
  - intros x w' (evs & El & HS). destruct (quietly_checked WriteTrailer operation ltac:(done) w') as (r & w2 & Er & (e2 & E2 & He2) & _).
    eapply returns_now; [exact Er|]. exists (evs ++ e2). split; [by rewrite E2, El, app_assoc|]. destruct r; [|done]. by apply (spec_hush []).
  - intros e w' (evs & El & _). by exists evs.
Qed.
End Spec.

(** ** The conversions *)

Lemma expected_nil e : expected e [] = [] :> list (AVFrame X).
Proof. unfold expected. destruct (buffered e); [done|]. by destruct (enc_type e). Qed.

(** The encoders were given what is expected for the frames of [fed]. *)
Definition feeds (fed : list (event X) -> Z -> list (AVFrame X)) (evs : list (event X)) : Prop :=
  forall s, sent s evs = expected (enc s) (map (converted (enc s)) (fed evs s)).
Abbreviation decoder_frames := (fun evs s => decoded s evs).

Lemma feeds_hush_around e1 evs e2 : hush e1 -> hush e2 -> feeds decoder_frames evs -> feeds decoder_frames (e1 ++ evs ++ e2).
Proof.
  intros H1 H2 Hf s. rewrite !frames_sent_app, !decoded_app. destruct (H1 s) as [-> ->], (H2 s) as [-> ->]. rewrite !app_nil_r. apply Hf.
Qed.

Lemma feeds_const_around g e1 evs e2 : hush e1 -> hush e2 -> feeds (fun _ => g) evs -> feeds (fun _ => g) (e1 ++ evs ++ e2).
Proof. intros H1 H2 Hf s. rewrite !frames_sent_app. destruct (H1 s) as [-> _], (H2 s) as [-> _]. rewrite !app_nil_r. apply Hf. Qed.

Lemma stage_feeds s w w' new ds :
  stage s w w' new ds -> new = expected (enc s) (map (converted (enc s)) ds) -> exists evs, ff_log w' = ff_log w ++ evs /\ feeds decoder_frames evs.
Proof.
  intros (evs & El & <- & <- & Ho) Hn. exists evs. split; [done|]. intros s'. destruct (Z.eq_dec s' s) as [->|Hs]; [done|].
  destruct (Ho s' Hs) as [-> ->]. by rewrite expected_nil.
Qed.

Lemma finishes_stream s q :
  tracks (enc s) [] [] (mkStreamState q 0) ->
  finishes (fun n _ => let! st := read_loop n n s (mkStreamState q 0) in flush_stream n s "flush" st) (feeds decoder_frames).
Proof.
  intros Ht w. eapply (returns_bind (fun n _ => read_loop n n s _) (fun n _ st => flush_stream n s "flush" st));
    [apply (returns_same (fun n n' => read_loop n n' s _)), returns_read, Ht | |].
  - intros st w1 (new & ds & Hs & Ht'). eapply returns_impl; [apply returns_flush, Ht'|]. intros r w2 (new' & ds' & Hs' & Hr).
    pose proof (stage_app _ _ _ _ _ _ _ _ Hs Hs') as Hs2. destruct r as [x|]; [|destruct Hs2 as (evs & El & _); by exists evs].
    eapply stage_feeds; [exact Hs2|]. by rewrite map_app.
  - intros e w1 (new & ds & (evs & El & _) & _). by exists evs.
Qed.

Lemma finishes_transcode output codec rate : finishes (fun n _ => transcode_open_input_to_file n output codec rate) (feeds decoder_frames).
Proof.
  unfold transcode_open_input_to_file. apply (finishes_checked feeds_hush_around); [done|].
  eapply (finishes_after feeds_hush_around (find_best_stream _) (fun n n' s => _) (fun _ => True)).
  { apply quietly_asking. intros st. cbv zeta. destruct (_ <? _); [apply quietly_error | by apply quietly_fret]. }
  intros s _. apply (finishes_decoder feeds_hush_around). eapply (finishes_after feeds_hush_around _ (fun n n' url => _)); [apply quietly_cstring | intros url _].
  apply (finishes_output feeds_hush_around), (finishes_encoder feeds_hush_around), (finishes_body feeds_hush_around).
  do 3 apply (finishes_owning feeds_hush_around). apply (finishes_fifo feeds_hush_around). intros q Hq.
  apply (finishes_trailer feeds_hush_around), finishes_stream, Hq.
Qed.

Lemma finishes_with_stream s codec (body : nat -> nat -> stream_state -> FM unit) :
  (forall st, tracks (enc s) [] [] st -> finishes (fun n n' => body n n' st) (feeds decoder_frames)) ->
  finishes (fun n n' => with_stream s codec (body n n')) (feeds decoder_frames).
Proof.
  intros Hb. apply (finishes_decoder feeds_hush_around), (finishes_encoder feeds_hush_around). do 2 apply (finishes_owning feeds_hush_around).
  apply (finishes_fifo feeds_hush_around). intros q Hq. by apply Hb.
Qed.

Lemma finishes_usm_body url v a video audio :
  a <> Some v -> tracks (enc v) [] [] video -> (forall s, a = Some s -> tracks (enc s) [] [] audio) ->
  finishes (fun n _ => usm_body n url v a video audio) (feeds decoder_frames).
Proof.
  intros Hva Hv Ha. apply (finishes_body feeds_hush_around), (finishes_owning feeds_hush_around), (finishes_trailer feeds_hush_around). intros w.
  eapply (returns_bind (fun n _ => usm_loop n n v a video audio)
    (fun n _ x => let '(video, audio) := x in let! _ := flush_stream n v "flush usm" video in
                  match a with Some a => flush_stream n a "flush usm" audio | None => fret tt end));
    [by apply (returns_same (fun n n' => usm_loop n n' v a video audio)), (returns_usm v a video audio (fun _ => []) (fun _ => [])) | |].
  2: { intros e w1 (evs & El & _). by exists evs. }
  intros [video' audio'] w1 (e1 & E1 & Ho & Hv' & Ha'). eapply (returns_bind (fun n _ => flush_stream n v "flush usm" video') (fun n _ _ => _));
    [apply returns_flush, Hv' | |].
  2: { intros e w2 (new & ds & (evs & El & _) & _). exists (e1 ++ evs). by rewrite El, E1, app_assoc. }
  intros x w2 (new & ds & (e2 & E2 & <- & <- & Ho2) & Hr2). cbn [app] in Hr2. rewrite <- frames_sent_app, <- map_app, <- decoded_app in Hr2.
  assert (E12 : ff_log w2 = ff_log w ++ (e1 ++ e2)) by (by rewrite E2, E1, app_assoc). destruct a as [a|].
  - eapply returns_impl; [apply returns_flush, (Ha' a eq_refl)|]. intros r w3 (new & ds & (e3 & E3 & <- & <- & Ho3) & Hr3).
    exists ((e1 ++ e2) ++ e3). split; [rewrite E3, E12; symmetry; apply app_assoc|]. destruct r as [y|]; [|done]. cbn [app] in Hr3.
    destruct (Ho2 a ltac:(congruence)) as [Sa Da], (Ho3 v ltac:(congruence)) as [Sv Dv]. intros s.
    cbn beta. rewrite !frames_sent_app, !decoded_app in *. destruct (Z.eq_dec s v) as [->|Hsv]; [rewrite Sv, Dv, !app_nil_r; exact Hr2|].
    destruct (Z.eq_dec s a) as [->|Hsa]; [rewrite Sa, Da, !app_nil_r, Hr3, <- map_app; done|].
    destruct (Ho s Hsv ltac:(congruence)) as [-> ->], (Ho2 s Hsv) as [-> ->], (Ho3 s Hsa) as [-> ->]. cbn. by rewrite expected_nil.
  - eapply returns_now; [done|]. exists (e1 ++ e2). split; [done|]. intros s. destruct (Z.eq_dec s v) as [->|Hsv]; [done|].
    rewrite frames_sent_app, decoded_app. destruct (Ho s Hsv ltac:(done)) as [-> ->], (Ho2 s Hsv) as [-> ->]. cbn. by rewrite expected_nil.
Qed.

Lemma finishes_usm input output : finishes (fun n _ => transcode_usm_file_to_mp4 n input output) (feeds decoder_frames).
Proof.
  unfold transcode_usm_file_to_mp4. eapply (finishes_after feeds_hush_around _ (fun n n' url => _)); [apply quietly_cstring | intros input_url _].
  apply (finishes_file feeds_hush_around), (finishes_checked feeds_hush_around); [done|]. intros w.
  set (st := ff_state w). pose proof (best_streams st) as Hne.
  assert (Hrest : forall v a, a <> Some v ->
    finishes (fun n _ => let! url := path_cstring output in with_output url (with_stream v CodecH264 (fun video =>
          match a with
          | Some a' => with_stream a' CodecAac (fun audio => usm_body n url v a video audio)
          | None => usm_body n url v a video (mkStreamState None 0)
          end))) (feeds decoder_frames)).
  { intros v a Hva. eapply (finishes_after feeds_hush_around _ (fun n n' url => _)); [apply quietly_cstring | intros url _].
    apply (finishes_output feeds_hush_around), (finishes_with_stream v CodecH264 (fun n n' video => _)). intros video Hv. destruct a as [a|].
    - apply (finishes_with_stream a CodecAac (fun n n' audio => _)). intros audio Ha. apply finishes_usm_body; [done | done | by intros s [= <-]].
    - apply finishes_usm_body; done. }
  set (v := av_find_best_stream MediaVideo st) in *. set (i := av_find_best_stream MediaAudio st) in *. destruct (Z.ltb_spec v 0) as [Hv|Hv].
  - exists O, (Err (ExportMedia ("could not find FFmpeg stream type " +:+ pretty (media_number MediaVideo)))), w.
    split; [|exists []; split; [by rewrite app_nil_r | done]]. intros fuel fuel' _ _. unfold fbind at 1, find_best_stream, asking. fold st v.
    by replace (v <? 0) with true by lia.
  - destruct (Hrest v (if 0 <=? i then Some i else None) ltac:(specialize (Hne Hv); destruct (0 <=? i); congruence) w) as (n & r & w' & En & HP).
    exists n, r, w'. split; [|done]. intros fuel fuel' Hf Hf'. rewrite <- (En fuel fuel' Hf Hf').
    unfold fbind at 1 2, find_best_stream, find_optional_best_stream, asking. fold st v. replace (v <? 0) with false by lia. cbn. fold st. done.
Qed.

Section Whole.
Variable hca_open : bytes -> result hca_stream string.

(** The frames that an HCA stream gives the encoder of its only stream. *)
Definition hca_fed (hca : hca_stream) (s : Z) : list (AVFrame X) :=
  let rate := as_i32 (hca_rate hca) in
  let channels := as_i32 (hca_channels hca) in
  if s =? 0 then pcm_frames rate channels (av_channel_layout_default channels) (hca_chunks hca) else [].

Definition fed (op : ffi_op) (evs : list (event X)) (s : Z) : list (AVFrame X) :=
  match op with
  | FfiHcaBytesToMp3 data _ | FfiHcaBytesToFlac data _ => match hca_open data with Ok hca => hca_fed hca s | Err _ => [] end
  | _ => decoded s evs
  end.

Definition hca_op (op : ffi_op) : bool := match op with FfiHcaBytesToMp3 _ _ | FfiHcaBytesToFlac _ _ => true | _ => false end.

Lemma finishes_pcm16 url hca : enc_type (enc 0) = MediaAudio ->
  let rate := as_i32 (hca_rate hca) in
  let channels := as_i32 (hca_channels hca) in
  finishes (fun n _ => pcm16_body n url channels (produce_hca n hca rate channels)) (feeds (fun _ => hca_fed hca)).
Proof.
  intros He rate channels. pose proof (feeds_const_around (hca_fed hca)) as Hh. apply (finishes_body Hh).
  do 2 apply (finishes_owning Hh). apply (finishes_fifo Hh). intros q Hq. apply (finishes_trailer Hh).
  eapply (finishes_after Hh (default_for_channels channels) (fun n n' layout => _) (fun l => l = av_channel_layout_default channels)).
  { unfold default_for_channels. destruct (_ <=? _); [apply quietly_error | by apply quietly_fret]. }
  intros layout -> w. eapply (returns_bind (fun n _ => produce_hca n hca rate channels _ _) (fun n _ st => finish_encoder n 0 "pcm flush" st));
    [by apply returns_produce | |].
  - intros st w1 (new & [H1 _] & Ht). eapply returns_impl; [apply returns_finish, Ht|]. intros r w2 (new' & [H2 _] & Hr).
    destruct (stage_app _ _ _ _ _ _ _ _ H1 H2) as (evs & El & Hs & _ & Ho). exists evs. split; [done|]. destruct r as [x|]; [|done].
    intros s. unfold hca_fed. destruct (Z.eqb_spec s 0) as [->|Hs0]; [by rewrite Hs, Hr|]. destruct (Ho s Hs0) as [-> _]. by rewrite expected_nil.
  - intros e w1 (new & [(evs & El & _) _] & _). by exists evs.
Qed.

Lemma quietly_loaded : quietly ensure_ffmpeg_loaded (fun _ => True).
Proof. apply quietly_asking. intros st. destruct (ff_versions st). destruct (_ || _); [apply quietly_error | by apply quietly_fret]. Qed.

Lemma finishes_hca data output codec : enc_type (enc 0) = MediaAudio ->
  finishes (fun n _ => convert_hca_bytes_to_audio hca_open n data output codec)
    (feeds (fun _ s => match hca_open data with Ok hca => hca_fed hca s | Err _ => [] end)).
Proof.
  intros He. pose proof (feeds_const_around (fun s => match hca_open data with Ok hca => hca_fed hca s | Err _ => [] end)) as Hh.
  eapply (finishes_after Hh _ (fun n n' _ => _)); [apply quietly_loaded | intros _ _].
  destruct (hca_open data) as [hca|err]; [|apply finishes_error].
  eapply (finishes_after Hh _ (fun n n' url => _)); [apply quietly_cstring | intros url _].
  apply (finishes_output Hh), (finishes_encoder Hh). by apply finishes_pcm16.
Qed.

Lemma finishes_op op : (hca_op op = true -> enc_type (enc 0) = MediaAudio) -> finishes (fun n _ => run_ffi_op hca_open n op) (feeds (fed op)).
Proof.
  intros He. destruct op; cbn [run_ffi_op fed]; first [by apply finishes_hca, He
    | eapply (finishes_after feeds_hush_around _ (fun n n' _ => _)); [apply quietly_loaded | intros _ _]];
  first [apply finishes_usm
    | eapply (finishes_after feeds_hush_around _ (fun n n' url => _)); [apply quietly_cstring | intros ? _];
      apply (finishes_file feeds_hush_around), finishes_transcode
    | apply (finishes_memory feeds_hush_around), finishes_transcode].
Qed.

(** C10: Every conversion comes back: with the progress that FFmpeg promises there is an amount
    of fuel from which the result no longer depends on it.  When it succeeds, every encoder
    was given exactly the frames that its decoder produced (or, for an HCA stream, the chunks
    of samples), in order, each converted to the encoder's format, and numbered without gaps:
    video frames one by one; audio regrouped into frames of exactly the encoder's frame size,
    the last one shorter, or for MP3 filled up with silence. *)
Theorem conversion_feeds_encoders op w :
  (hca_op op = true -> enc_type (enc 0) = MediaAudio) ->
  exists n r w', (forall fuel, (n <= fuel)%nat -> run_ffi_op hca_open fuel op w = Some (r, w'))
    /\ exists evs, ff_log w' = ff_log w ++ evs
    /\ match r with Ok _ => forall s, sent s evs = expected (enc s) (map (converted (enc s)) (fed op evs s)) | Err _ => True end.
Proof.
  intros He. destruct (finishes_op op He w) as (n & r & w' & En & HP). exists n, r, w'. split; [|exact HP].
  intros fuel Hf. by apply (En fuel fuel).
Qed.
End Whole.
End Steps.

Module Demo.
Import Ffmpeg.Demo.

Lemma pop_length {A} s (l : list (Z * A)) x l' : pop s l = Some (x, l') -> length l = S (length l').
Proof.
  revert l'. induction l as [|[s' y] l IH]; intros l' Hp; cbn in Hp; [done|]. destruct (s' =? s); [by simplify_eq|].
  destruct (pop s l) as [[z l2]|]; [|done]. cbn in Hp. simplify_eq. cbn. f_equal. by apply IH.
Qed.

#[local] Program Instance demo_laws : FFmpegLaws demo (list Z) Z := {
  unread := fun d => length (d_input d);
  undecoded := fun _ d => length (d_frames d);
  backlog := fun _ d => length (d_packets d);
  enc := demo_encoder;
  resampled := fun _ f => f_data f;
  scaled := fun _ f => f_data f;
  queued := fun q => q
}.
Next Obligation. intros c d Hc. destruct c as [| | | | | | | | | | |? []| | | | | |]; done. Qed.
Next Obligation. done. Qed.
Next Obligation. done. Qed.
Next Obligation. done. Qed.
Next Obligation. intros s [p|] d; done. Qed.
Next Obligation. done. Qed.
Next Obligation. intros d code p d' Er Hc. cbn in Er. destruct (d_input d) eqn:Ei; simplify_eq; cbn; [done | rewrite Ei; cbn; lia]. Qed.
Next Obligation.
  intros s d code f d' Er. cbn in Er. destruct (pop s (d_frames d)) as [[f' l]|] eqn:Ep; simplify_eq; [|by split].
  pose proof (pop_length _ _ _ _ Ep) as El. split; [split; [done | intros s'; cbn; lia] | cbn; lia].
Qed.
Next Obligation.
  intros s d code p d' Er. cbn in Er. destruct (pop s (d_packets d)) as [[p' l]|] eqn:Ep; simplify_eq; [|by split].
  pose proof (pop_length _ _ _ _ Ep) as El. split; [done | cbn; lia].
Qed.
Next Obligation. done. Qed.
Next Obligation. done. Qed.
Next Obligation. done. Qed.
Next Obligation. done. Qed.
Next Obligation. done. Qed.
Next Obligation. done. Qed.
Next Obligation. done. Qed.
Next Obligation. done. Qed.

(** Three and three samples of an HCA stream become frames of four and two. *)
Lemma conversion_feeds_encoders_witness :
  (hca_op (FfiHcaBytesToFlac [] out) = true -> enc_type (enc 0) = MediaAudio)
  /\ (exists n r w', (forall fuel, (n <= fuel)%nat -> run_ffi_op open_hca fuel (FfiHcaBytesToFlac [] out) start = Some (r, w'))
      /\ exists evs, ff_log w' = ff_log start ++ evs
      /\ match r with Ok _ => sent 0 evs = expected (enc 0) (map (converted (enc 0)) (fed open_hca (FfiHcaBytesToFlac [] out) evs 0)) | Err _ => True end)
  /\ map (fun f => (f_data f, f_pts f)) (expected (enc 0) (map (converted (enc 0)) (fed open_hca (FfiHcaBytesToFlac [] out) [] 0)))
     = [([11; 12; 13; 14], 0); ([15; 16], 4)].
Proof.
  assert (He : hca_op (FfiHcaBytesToFlac [] out) = true -> enc_type (enc 0) = MediaAudio) by reflexivity.
  split; [exact He|]. split; [|reflexivity]. destruct (conversion_feeds_encoders open_hca (FfiHcaBytesToFlac [] out) start He) as (n & r & w' & En & evs & El & Hr).
  exists n, r, w'. split; [exact En|]. exists evs. split; [exact El|]. destruct r; [apply Hr | done].
Defined.
End Demo.
