(* ===== verification/Telemetry.v ===== *)
(** * Memory telemetry

    [service/memory_telemetry.rs]: which processes are measured, what is read of them, and the
    report.  [/proc] is a list of entries with the text of their files, if it can be read. *)

From stdpp Require Import relations gmap fin_sets.
From Stdlib Require Import Ascii Sorted.
From S2P Require Import Prelude RustStr Errors CpuLimits.

Local Open Scope string_scope.
Local Open Scope list_scope.
Local Open Scope Z_scope.
Local Open Scope rust_scope.

(** ** Reading [/proc] *)

(** [str::lines]: the end of a line may be preceded by a carriage return, the last line need
    not have one. *)
Fixpoint line_list (l : list string) : list string :=
  match l with
  | [] => []
  | [last] => if is_empty last then [] else [last]
  | line :: l => default line (strip_suffix (String "013" "") line) :: line_list l
  end.
Definition lines (s : string) : list string := line_list (split_on "010" s).

Record ProcessMemorySample : Type := mkSample { pid : Z; ppid : Z; name : string; rss_kb : Z; rss_anon_kb : Z; pss_kb : option Z }.

Definition parse_first_u64 (value : string) : Z := default 0 (head (split_whitespace value) ≫= parse_unsigned 64).

Definition DEFAULT_INTERVAL_SECONDS : Z := 60.

(** [telemetry_interval] from the value of the variable, in seconds; zero turns the telemetry
    off. *)
Definition telemetry_interval (value : option string) : Z := default DEFAULT_INTERVAL_SECONDS (value ≫= fun v => parse_unsigned 64 (trim v)).
Definition telemetry_enabled (value : option string) : bool := negb (telemetry_interval value =? 0).

(** One line of [status]. *)
Definition status_line (s : ProcessMemorySample) (line : string) : ProcessMemorySample :=
  match strip_prefix "Name:" line, strip_prefix "PPid:" line, strip_prefix "VmRSS:" line, strip_prefix "RssAnon:" line with
  | Some value, _, _, _ => mkSample (pid s) (ppid s) (trim value) (rss_kb s) (rss_anon_kb s) (pss_kb s)
  | None, Some value, _, _ => mkSample (pid s) (truncate 32 (parse_first_u64 value)) (name s) (rss_kb s) (rss_anon_kb s) (pss_kb s)
  | None, None, Some value, _ => mkSample (pid s) (ppid s) (name s) (parse_first_u64 value) (rss_anon_kb s) (pss_kb s)
  | None, None, None, Some value => mkSample (pid s) (ppid s) (name s) (rss_kb s) (parse_first_u64 value) (pss_kb s)
  | None, None, None, None => s
  end.

Definition read_smaps_rollup_pss (rollup : option string) : option Z :=
  rollup ≫= fun text => head (omap (fun line => parse_first_u64 <$> strip_prefix "Pss:" line) (lines text)).

Definition read_process_sample (p : Z) (status rollup : option string) : option ProcessMemorySample :=
  (fun text => foldl status_line (mkSample p 0 "" 0 0 (read_smaps_rollup_pss rollup)) (lines text)) <$> status.

(** An entry: its name, [status] and [smaps_rollup]. *)
Record proc_entry : Type := mkEntry { entry_name : string; entry_status : option string; entry_rollup : option string }.

(** ** The processes below the root *)

(** [by_parent.get(&parent)]. *)
Definition children_of (ps : list ProcessMemorySample) (parent : Z) : list Z := map pid (List.filter (fun s => ppid s =? parent) ps).

(** The inner loop: what is new is kept and queued. *)
Fixpoint enqueue (cs : list Z) (out : gset Z) (queue : list Z) : gset Z * list Z :=
  match cs with
  | [] => (out, queue)
  | c :: cs => if bool_decide (c ∈ out) then enqueue cs out queue else enqueue cs ({[c]} ∪ out) (queue ++ [c])
  end.

Fixpoint descend (fuel : nat) (ps : list ProcessMemorySample) (out : gset Z) (queue : list Z) : option (gset Z) :=
  match fuel with
  | O => None
  | S fuel =>
      match queue with
      | [] => Some out
      | parent :: queue => let '(out, queue) := enqueue (children_of ps parent) out queue in descend fuel ps out queue
      end
  end.

(** A process is queued at most once, so this fuel is enough. *)
Definition descendants (root_pid : Z) (ps : list ProcessMemorySample) : option (gset Z) := descend (length ps + 2) ps ∅ [root_pid].

(** All samples of [/proc]; an entry that cannot be listed ends the sampling. *)
Fixpoint all_samples (entries : list (result proc_entry string)) : result (list ProcessMemorySample) string :=
  match entries with
  | [] => Ok []
  | Err e :: _ => Err e
  | Ok e :: entries =>
      let sample := parse_unsigned 32 (entry_name e) ≫= fun p => read_process_sample p (entry_status e) (entry_rollup e) in
      let? rest := all_samples entries in
      Ok (match sample with Some s => s :: rest | None => rest end)
  end.

Definition sample_process_tree (root_pid : Z) (proc : result (list (result proc_entry string)) string)
  : option (result (list ProcessMemorySample) string) :=
  match proc with
  | Err e => Some (Err e)
  | Ok entries =>
      match all_samples entries with
      | Err e => Some (Err e)
      | Ok all => (fun below => Ok (List.filter (fun s => (pid s =? root_pid) || bool_decide (pid s ∈ below)) all)) <$> descendants root_pid all
      end
  end.

(** ** The report *)

Definition bytes_to_mb (b : Z) : Z := b / 1024 / 1024.
Definition kb_to_mb (kb : Z) : Z := bytes_to_mb (saturating_mul 64 kb 1024).

Definition is_assetstudio_worker (name : string) : bool := contains "assetstudio_ffi_worker" name || contains "assetstudio" name.

(** [sort_by_key] with [Reverse]: stable, largest first. *)
Fixpoint insert_desc (s : ProcessMemorySample) (l : list ProcessMemorySample) : list ProcessMemorySample :=
  match l with
  | [] => [s]
  | t :: l => if rss_kb t <=? rss_kb s then s :: t :: l else t :: insert_desc s l
  end.
Definition sort_desc (l : list ProcessMemorySample) : list ProcessMemorySample := foldr insert_desc [] l.

Definition format_process (s : ProcessMemorySample) : string :=
  pretty (pid s) +:+ ":" +:+ name s +:+ ":" +:+ pretty (kb_to_mb (rss_kb s)) +:+ "MiB anon=" +:+ pretty (kb_to_mb (rss_anon_kb s))
  +:+ "MiB pss=" +:+ pretty (default 0 (kb_to_mb <$> pss_kb s)) +:+ "MiB".

Definition format_top_processes (ps : list ProcessMemorySample) (limit : nat) : string :=
  join_with "," (map format_process (take limit (sort_desc ps))).

Record CgroupMemory : Type := mkCgroup { current_bytes : option Z; limit_bytes : option Z }.

Definition read_u64_file (text : option string) : option Z := text ≫= fun t => parse_unsigned 64 (trim t).
Definition read_cgroup_limit (text : option string) : option Z :=
  text ≫= fun t => if String.eqb (trim t) "max" then None else parse_unsigned 64 (trim t).
Definition or_else {A} (a b : option A) : option A := match a with Some _ => a | None => b end.

(** From the four files, of the second and of the first version of cgroups. *)
Definition read_cgroup_memory (current usage max limit : option string) : CgroupMemory :=
  mkCgroup (or_else (read_u64_file current) (read_u64_file usage)) (or_else (read_cgroup_limit max) (read_cgroup_limit limit)).

Record memory_report : Type := mkReport {
  process_count : Z; worker_count : Z; total_rss_mb : Z; total_pss_mb : Z; total_anon_mb : Z; main_rss_mb : Z; child_rss_mb : Z;
  worker_rss_mb : Z; cgroup_current_mb : Z; cgroup_limit_mb : Z; top_processes : string
}.

(** [Iterator::sum] of a release build wraps around. *)
Definition sum_u64 (l : list Z) : Z := truncate 64 (sumZ l).

Definition log_sample (root_pid : Z) (cgroup : CgroupMemory) (ps : list ProcessMemorySample) : option memory_report :=
  if bool_decide (ps = []) then None
  else
    let main_rss_kb := default 0 (rss_kb <$> List.find (fun s => pid s =? root_pid) ps) in
    let total_rss_kb := sum_u64 (map rss_kb ps) in
    let workers := List.filter (fun s => is_assetstudio_worker (name s)) ps in
    Some (mkReport (zlen ps) (zlen workers) (kb_to_mb total_rss_kb) (kb_to_mb (sum_u64 (map (fun s => default 0 (pss_kb s)) ps)))
            (kb_to_mb (sum_u64 (map rss_anon_kb ps))) (kb_to_mb main_rss_kb) (kb_to_mb (saturating_sub total_rss_kb main_rss_kb))
            (kb_to_mb (sum_u64 (map rss_kb workers))) (default 0 (bytes_to_mb <$> current_bytes cgroup))
            (default 0 (bytes_to_mb <$> limit_bytes cgroup)) (format_top_processes ps 6)).

Example sample_of_status :
  read_process_sample 7 (Some ("Name:" +:+ String "009" "worker" +:+ String "010" "PPid: 3" +:+ String "013" (String "010" "VmRSS:  2048 kB"))) None
  = Some (mkSample 7 3 "worker" 2048 0 None).
Proof. by vm_compute. Qed.

(** ** The sample is the process tree *)

Section Tree.
Variable ps : list ProcessMemorySample.
Variable root : Z.

Definition parent_of (p q : Z) : Prop := exists s, s ∈ ps /\ ppid s = p /\ pid s = q.
Definition pids : gset Z := list_to_set (map pid ps).

Lemma elem_of_children_of p q : q ∈ children_of ps p <-> parent_of p q.
Proof.
  unfold children_of, parent_of. rewrite list_elem_of_fmap. split.
  - intros (s & -> & Hs). apply list_elem_of_In, filter_In in Hs as [Hs Hp]. exists s. split; [by apply list_elem_of_In|]. split; [lia | done].
  - intros (s & Hs & Hp & <-). exists s. split; [done|]. apply list_elem_of_In, filter_In. split; [by apply list_elem_of_In | lia].
Qed.

Lemma children_pids p : Forall (fun c => c ∈ pids) (children_of ps p).
Proof.
  apply Forall_forall. intros c (s & Hs & _ & <-)%elem_of_children_of. unfold pids. apply elem_of_list_to_set, list_elem_of_fmap. eauto.
Qed.

Lemma enqueue_spec cs out queue :
  exists new, (enqueue cs out queue).2 = queue ++ new /\ (forall x, x ∈ new <-> x ∈ cs /\ x ∉ out)
    /\ (forall x, x ∈ (enqueue cs out queue).1 <-> x ∈ out \/ x ∈ cs).
Proof.
  revert out queue. induction cs as [|c cs IH]; intros out queue; cbn [enqueue].
  { exists []. rewrite app_nil_r. repeat split; set_solver. }
  case_bool_decide as Hc.
  - destruct (IH out queue) as (new & -> & Hn & Ho). exists new. split; [done|]. split; intros x; [rewrite Hn | rewrite Ho]; set_solver.
  - destruct (IH ({[c]} ∪ out) (queue ++ [c])) as (new & -> & Hn & Ho). exists (c :: new). split; [by rewrite <- app_assoc|].
    split; intros x; [rewrite elem_of_cons, Hn | rewrite Ho]; destruct (decide (x = c)); set_solver.
Qed.

(** What is queued or not yet found. *)
Definition left (out : gset Z) (queue : list Z) : nat := (length queue + size (pids ∖ out))%nat.

Lemma enqueue_left cs out queue : Forall (fun c => c ∈ pids) cs -> left (enqueue cs out queue).1 (enqueue cs out queue).2 = left out queue.
Proof.
  intros Hcs. revert out queue. induction Hcs as [|c cs Hc _ IH]; intros out queue; cbn [enqueue]; [done|].
  case_bool_decide as Hco; [apply IH|]. rewrite IH. unfold left. rewrite length_app. cbn.
  assert (Hp : pids ∖ out = {[c]} ∪ pids ∖ ({[c]} ∪ out)) by (apply set_eq; intros x; destruct (decide (x = c)); set_solver).
  assert (Hd : {[c]} ## pids ∖ ({[c]} ∪ out)) by set_solver. rewrite Hp, (size_union _ _ Hd), size_singleton. lia.
Qed.

Definition found (out : gset Z) (queue : list Z) : Prop :=
  (forall x, x ∈ out -> tc parent_of root x) /\ (forall x, x ∈ queue -> x = root \/ x ∈ out)
  /\ forall x y, x = root \/ x ∈ out -> x ∉ queue -> parent_of x y -> y ∈ out.

Lemma found_step p out queue :
  found out (p :: queue) -> found (enqueue (children_of ps p) out queue).1 (enqueue (children_of ps p) out queue).2.
Proof.
  intros (Hout & Hq & Hcl). destruct (enqueue_spec (children_of ps p) out queue) as (new & -> & Hn & Ho). split; [|split].
  - intros x [Hx|Hx%elem_of_children_of]%Ho; [by apply Hout|].
    destruct (Hq p ltac:(set_solver)) as [->|Hp]; [by apply tc_once | eapply tc_r; [by apply Hout | done]].
  - intros x [Hx|Hx]%elem_of_app; [destruct (Hq x ltac:(set_solver)) as [|]; [by left | right; apply Ho; by left]|].
    right. apply Hn in Hx as [Hx _]. apply Ho. by right.
  - intros x y Hx Hnq Hxy. rewrite not_elem_of_app in Hnq. destruct Hnq as [Hnq Hnn]. apply Ho.
    destruct (decide (x = p)) as [->|Hne]; [right; by apply elem_of_children_of|]. left. apply (Hcl x); [|set_solver | done].
    destruct Hx as [->|[Hx|Hx]%Ho]; [by left | by right|]. destruct (decide (x ∈ out)); [by right|]. exfalso. apply Hnn, Hn. done.
Qed.

Lemma descend_finds fuel out queue :
  found out queue -> (left out queue < fuel)%nat -> exists out', descend fuel ps out queue = Some out' /\ found out' [].
Proof.
  revert out queue. induction fuel as [|fuel IH]; intros out queue Hf Hlt; [lia|]. cbn [descend]. destruct queue as [|p queue]; [eauto|].
  pose proof (found_step p out queue Hf) as Hf'. pose proof (enqueue_left _ out queue (children_pids p)) as Hl.
  destruct (enqueue (children_of ps p) out queue) as [out' queue']. cbn in *. apply IH; [done|]. unfold left in *. cbn in Hlt. lia.
Qed.

Lemma descendants_spec : exists out, descendants root ps = Some out /\ forall x, x ∈ out <-> tc parent_of root x.
Proof.
  destruct (descend_finds (length ps + 2) ∅ [root]) as (out & Eo & Hout & _ & Hcl).
  - split; [set_solver|]. split; [set_solver|]. intros x y [->|?] Hx; set_solver.
  - unfold left, pids. rewrite difference_empty_L. cbn. rewrite <- (length_map pid ps). generalize (map pid ps) as l. intros l. cut (size (list_to_set l : gset Z) <= length l)%nat; [lia|].
    induction l as [|x l IH]; cbn; [by rewrite size_empty|]. rewrite size_union_alt, size_singleton.
    pose proof (subseteq_size (list_to_set l ∖ {[x]} : gset Z) (list_to_set l)) as Hs. specialize (Hs ltac:(set_solver)). lia.
  - exists out. split; [done|]. intros x. split; [apply Hout|]. intros Hx.
    assert (Hgo : forall y z, tc parent_of y z -> y = root \/ y ∈ out -> z ∈ out).
    { intros y z Hyz. induction Hyz as [y z Hyz|y z u Hyz _ IH]; intros Hy; [apply (Hcl y); [done | set_solver | done]|].
      apply IH. right. apply (Hcl y); [done | set_solver | done]. }
    apply (Hgo root x Hx). by left.
Qed.
End Tree.

(** The telemetry measures exactly the process and its descendants.  Whatever the entries of
    [/proc] (processes that vanish, parents that are not listed, cycles), the sampling ends,
    and of the processes that can be read it keeps those that are the root or are reached
    from it by parent and child, in the order of the listing. *)
Theorem telemetry_samples_tree root entries all :
  all_samples entries = Ok all ->
  exists kept, sample_process_tree root (Ok entries) = Some (Ok kept) /\ sublist kept all
    /\ forall s, s ∈ kept <-> s ∈ all /\ rtc (parent_of all) root (pid s).
Proof.
  intros Ha. destruct (descendants_spec all root) as (out & Eo & Ho). unfold sample_process_tree. rewrite Ha, Eo. cbn. eexists.
  split; [done|]. split.
  - clear. induction all as [|s all IH]; cbn; [constructor|]. destruct (_ || _); by constructor.
  - intros s. rewrite list_elem_of_In, filter_In, <- list_elem_of_In, orb_true_iff, bool_decide_eq_true, Ho.
    split; intros [Hs Hp]; (split; [done|]).
    + destruct Hp as [Hp|Hp]; [apply Z.eqb_eq in Hp as ->; constructor | by apply tc_rtc].
    + apply rtc_tc in Hp as [Hp|Hp]; [left; lia | by right].
Qed.

(** ** The report names the largest processes *)

Lemma insert_desc_perm s l : insert_desc s l ≡ₚ s :: l.
Proof. induction l as [|t l IH]; cbn; [done|]. destruct (_ <=? _); [done|]. rewrite IH. apply perm_swap. Qed.

Lemma insert_desc_sorted s l :
  StronglySorted (fun s t => rss_kb t <= rss_kb s) l -> StronglySorted (fun s t => rss_kb t <= rss_kb s) (insert_desc s l).
Proof.
  induction 1 as [|t l Hs IH Ht]; cbn; [repeat constructor|]. destruct (Z.leb_spec (rss_kb t) (rss_kb s)).
  - constructor; [by constructor|]. constructor; [done|]. eapply Forall_impl; [exact Ht|]. cbn. intros. lia.
  - constructor; [done|]. rewrite insert_desc_perm. constructor; [lia | done].
Qed.

Lemma sort_desc_perm l : sort_desc l ≡ₚ l.
Proof. induction l as [|s l IH]; [done|]. cbn. by rewrite insert_desc_perm, IH. Qed.

Lemma sort_desc_sorted l : StronglySorted (fun s t => rss_kb t <= rss_kb s) (sort_desc l).
Proof. induction l; cbn; [constructor | by apply insert_desc_sorted]. Qed.

(** No process that is left out of the report is larger than one that is in it. *)
Theorem top_processes_largest ps limit s t :
  s ∈ take limit (sort_desc ps) -> t ∈ drop limit (sort_desc ps) -> rss_kb t <= rss_kb s.
Proof.
  pose proof (sort_desc_sorted ps) as Hs. rewrite <- (take_drop limit (sort_desc ps)) in Hs at 1. revert Hs.
  generalize (take limit (sort_desc ps)) as l1, (drop limit (sort_desc ps)) as l2. intros l1 l2.
  induction l1 as [|x l1 IH]; cbn; intros Hs Hin Ht; [set_solver|]. apply StronglySorted_inv in Hs as [Hs Hx].
  apply elem_of_cons in Hin as [->|Hin]; [|by apply IH]. rewrite Forall_forall in Hx. apply Hx. set_solver.
Qed.

Module TelemetryDemo.
Definition status (parent : string) : option string := Some ("Name: a" +:+ String "010" ("PPid: " +:+ parent +:+ String "010" "VmRSS: 10 kB")).
(** A child, a grandchild, a process that vanished and an unrelated one. *)
Definition proc : list (result proc_entry string) :=
  [Ok (mkEntry "10" (status "1") None); Ok (mkEntry "self" None None); Ok (mkEntry "11" (status "10") None);
   Ok (mkEntry "12" (status "11") None); Ok (mkEntry "13" None None); Ok (mkEntry "14" (status "1") None)].

Lemma telemetry_samples_tree_witness : exists kept, sample_process_tree 10 (Ok proc) = Some (Ok kept) /\ map pid kept = [10; 11; 12].
Proof.
  destruct (all_samples proc) as [all|e] eqn:Ea; [|vm_compute in Ea; discriminate].
  destruct (telemetry_samples_tree 10 proc all Ea) as (kept & Ek & _). exists kept. split; [exact Ek|].
  vm_compute in Ek. by injection Ek as <-.
Defined.
End TelemetryDemo.
