(* ===== verification/Logging.v ===== *)
(** * Log lines

    [service/logging.rs]: the level filter, where the lines go, the access log and the
    formatter of the service's own lines.  The time of a line and the text of a latency are
    arguments; the subscriber that calls the formatter is the library's. *)

From Stdlib Require Import Ascii.
From S2P Require Import Prelude RustStr Errors Config Paths.

Local Open Scope string_scope.
Local Open Scope list_scope.
Local Open Scope Z_scope.
Local Open Scope rust_scope.

(** ** Filter and targets *)

Definition env_filter_directive (level : string) : string :=
  let trimmed := trim level in
  if is_empty trimmed then "info"
  else if has_char "=" trimmed || has_char "," trimmed then trimmed
  else
    let lowered := to_ascii_lowercase trimmed in
    if existsb (String.eqb lowered) ["trace"; "debug"; "info"; "warn"; "warning"; "error"; "off"]
    then (if String.eqb lowered "warning" then "warn" else lowered)
    else trimmed.

(** A file that lines are appended to, with the directory that is created first. *)
Record log_file : Type := mkLogFile { file_path : path; created_dir : option path }.

Definition configured_file (file : option string) : option string :=
  match trim <$> file with Some p => if is_empty p then None else Some p | None => None end.

(** [main_log_file_writer]: the name falls back when the path ends in none. *)
Definition main_log_file (file : option string) : option log_file :=
  (fun p => let p := components p in
            mkLogFile (path_join (default (components ".") (path_parent p)) [Normal (default "service.log" (file_name p))]) (path_parent p))
    <$> configured_file file.

(** [write_access_log]: to the file, or to standard output. *)
Definition access_log_target (file : option string) : option log_file :=
  (fun p => mkLogFile (components p) (path_parent (components p))) <$> configured_file file.

(** [init_logging]: the layers, each with its target and whether it is coloured. *)
Definition log_layers (file : option string) : list (option log_file * bool) :=
  (None, true) :: match main_log_file file with Some f => [(Some f, false)] | None => [] end.

(** ** The access log *)

Definition end_line (line : string) : string :=
  match strip_suffix (String "010" "") line with Some _ => line | None => line +:+ String "010" "" end.

Definition format_access_line (template time status method path latency : string) : string :=
  end_line (replace "${latency}" latency (replace "${path}" path (replace "${method}" method (replace "${status}" status (replace "${time}" time template))))).

(** [access_log_middleware]: the line that is written for a request, if any. *)
Definition access_log_line (enabled : bool) (template time : string) (status : Z) (method path latency : string) : option string :=
  if enabled then Some (format_access_line template time (pretty status) method path latency) else None.

(** ** The service's own lines *)

Inductive Level : Type := TRACE | DEBUG | INFO | WARN | ERROR.

Definition esc (code : string) : string := String "027" ("[" +:+ code +:+ "m").
Definition COLOR_GREEN : string := esc "32".
Definition COLOR_BLUE : string := esc "34".
Definition COLOR_MAGENTA : string := esc "35".
Definition COLOR_YELLOW : string := esc "33".
Definition COLOR_RED : string := esc "31".
Definition COLOR_CYAN : string := esc "36".
Definition COLOR_WHITE : string := esc "37".
Definition COLOR_DARK_ORANGE : string := esc "38;5;208".
Definition COLOR_CYAN1 : string := esc "38;5;51".
Definition COLOR_DARK_SLATE_GRAY1 : string := esc "38;5;123".
Definition COLOR_BRIGHT_BLUE : string := esc "94".
Definition COLOR_BRIGHT_MAGENTA : string := esc "95".
Definition COLOR_BRIGHT_CYAN : string := esc "96".
Definition COLOR_RESET : string := esc "0".

Definition level_name (l : Level) : string :=
  match l with TRACE => "TRACE" | DEBUG => "DEBUG" | INFO => "INFO" | WARN => "WARNING" | ERROR => "ERROR" end.
Definition level_color (l : Level) : string :=
  match l with TRACE => COLOR_MAGENTA | DEBUG => COLOR_BLUE | INFO => COLOR_GREEN | WARN => COLOR_DARK_ORANGE | ERROR => COLOR_RED end.

(** The next piece of [split("::")]. *)
Definition next_part (rest : option string) : option (string * option string) :=
  match rest with
  | None => None
  | Some s => match split_once "::" s with Some (a, b) => Some (a, Some b) | None => Some (s, None) end
  end.
Definition part_or (rest : option string) (fallback : string) : string := match next_part rest with Some (p, _) => p | None => fallback end.

Definition component_name (target : string) : string :=
  match next_part (Some target) with
  | None => "main"
  | Some (first, rest) =>
      if String.eqb first "haruki_sekai_asset_updater" then
        match next_part rest with
        | None => "main"
        | Some (second, rest) =>
            if existsb (String.eqb second) ["core"; "service"; "bin"] then part_or rest second else second
        end
      else if String.eqb first "haruki_sekai_asset_updater_bin" then "main"
      else first
  end.

Definition component_color (component : string) : string :=
  let is_any := existsb (String.eqb component) in
  if is_any ["main"] then COLOR_BRIGHT_CYAN
  else if is_any ["core"; "config"] then COLOR_BRIGHT_MAGENTA
  else if is_any ["service"; "http"] then COLOR_GREEN
  else if is_any ["updater"; "asset"; "assets"] then COLOR_MAGENTA
  else if is_any ["storage"; "database"; "db"] then COLOR_BLUE
  else if is_any ["bin"] then COLOR_YELLOW
  else if is_any ["job"; "worker"] then COLOR_BRIGHT_BLUE
  else if is_any ["access"] then COLOR_CYAN
  else COLOR_BRIGHT_CYAN.

Definition ascii_upper (a : ascii) : ascii :=
  if (nat_of_ascii "a" <=? nat_of_ascii a)%nat && (nat_of_ascii a <=? nat_of_ascii "z")%nat then ascii_of_nat (nat_of_ascii a - 32) else a.
Fixpoint to_ascii_uppercase (s : string) : string :=
  match s with EmptyString => EmptyString | String a s => String (ascii_upper a) (to_ascii_uppercase s) end.

Definition trim_debug_quotes (value : string) : string := trim_matches "034" (trim value).
Definition normalize_region (value : string) : string :=
  let region := trim_debug_quotes value in
  let is_any := existsb (String.eqb region) in
  if is_any ["Jp"; "jp"] then "JP"
  else if is_any ["En"; "en"] then "EN"
  else if is_any ["Tw"; "tw"] then "TW"
  else if is_any ["Kr"; "kr"] then "KR"
  else if is_any ["Cn"; "cn"] then "CN"
  else to_ascii_uppercase region.

Record EventVisitor : Type := mkVisitor { message : option string; region : option string; job_id : option string; fields : list string }.
Definition no_fields : EventVisitor := mkVisitor None None None [].

(** [record_value]: a name with a guard that fails is an ordinary field. *)
Definition record_value (v : EventVisitor) (field : string * string) : EventVisitor :=
  let '(name, value) := field in
  let other shown := mkVisitor (message v) (region v) (job_id v) (fields v ++ [shown +:+ "=" +:+ value]) in
  if String.eqb name "message" then mkVisitor (Some value) (region v) (job_id v) (fields v)
  else if existsb (String.eqb name) ["region"; "server"; "server_region"] && negb (blank value)
  then mkVisitor (message v) (Some (normalize_region value)) (job_id v) (fields v)
  else if String.eqb name "job_id" && negb (blank value)
  then mkVisitor (message v) (region v) (Some (trim_debug_quotes value)) (fields v)
  else if String.eqb name "log_message" then other "message"
  else other name.

Definition painted (ansi : bool) (color text : string) : string := if ansi then color +:+ text +:+ COLOR_RESET else text.

Definition identity_tags (v : EventVisitor) (ansi : bool) : string :=
  match region v with Some r => "[" +:+ painted ansi COLOR_BLUE r +:+ "]" | None => "" end
  +:+ match job_id v with Some j => "[" +:+ painted ansi COLOR_CYAN1 ("Job-" +:+ j) +:+ "]" | None => "" end.

Definition format_event (ansi : bool) (now : string) (l : Level) (target : string) (record : list (string * string)) : string :=
  let component := component_name target in
  let v := foldl record_value no_fields record in
  let tags := identity_tags v ansi in
  let after_component := if is_empty tags then " " else "" in
  let after_identity := if is_empty tags then "" else " " in
  let extra := match fields v with [] => "" | fs => " " +:+ join_with " " fs end in
  let text := painted ansi COLOR_WHITE (default "" (message v) +:+ extra) in
  (if ansi then COLOR_DARK_SLATE_GRAY1 +:+ "[" +:+ now +:+ "]" +:+ COLOR_RESET else "[" +:+ now +:+ "]")
  +:+ "[" +:+ painted ansi (level_color l) (level_name l) +:+ "]"
  +:+ "[" +:+ painted ansi (component_color component) component +:+ "]"
  +:+ after_component +:+ tags +:+ after_identity +:+ text +:+ String "010" "".

(** ** Colours only add colour *)

(** A line without its escape sequences. *)
Fixpoint strip_ansi (inside : bool) (s : string) : string :=
  match s with
  | EmptyString => EmptyString
  | String a s =>
      if inside then strip_ansi (negb (Ascii.eqb a "m")) s
      else if Ascii.eqb a "027" then strip_ansi true s
      else String a (strip_ansi false s)
  end.

Lemma strip_plain t b : has_char "027" t = false -> strip_ansi false (t +:+ b) = t +:+ strip_ansi false b.
Proof.
  induction t as [|a t IH]; [done|]. cbn [has_char]. intros [Ha Ht]%orb_false_iff.
  change (String a t +:+ b) with (String a (t +:+ b)). cbn [strip_ansi]. rewrite Ha. by rewrite IH.
Qed.

Lemma strip_esc code b : has_char "m" code = false -> strip_ansi false (esc code +:+ b) = strip_ansi false b.
Proof.
  intros Hc. change (esc code +:+ b) with (String "027" (("[" +:+ code +:+ "m") +:+ b)). cbn [strip_ansi Ascii.eqb]. cbn.
  change (strip_ansi true ((code +:+ "m") +:+ b) = strip_ansi false b). induction code as [|a code IH]; [done|]. cbn [has_char] in Hc.
  apply orb_false_iff in Hc as [Ha Hc]. change ((String a code +:+ "m") +:+ b) with (String a ((code +:+ "m") +:+ b)). cbn [strip_ansi]. rewrite Ha.
  by apply IH.
Qed.

Lemma strip_painted code t b :
  has_char "m" code = false -> has_char "027" t = false -> strip_ansi false (painted true (esc code) t +:+ b) = t +:+ strip_ansi false b.
Proof.
  intros Hc Ht. unfold painted. rewrite !string_app_assoc, strip_esc, strip_plain by done. done.
Qed.

Lemma level_color_esc l : exists code, level_color l = esc code /\ has_char "m" code = false.
Proof. destruct l; by eexists. Qed.

Lemma component_color_esc c : exists code, component_color c = esc code /\ has_char "m" code = false.
Proof. unfold component_color. cbv zeta. repeat (destruct (existsb _ _); [by eexists|]). by eexists. Qed.

(** Pieces of a text without escapes have none. *)
Ltac plain_pieces H :=
  rewrite ?has_char_app in H; repeat match goal with H' : _ || _ = false |- _ => apply orb_false_iff in H' as [? ?] end.
Ltac plain := rewrite ?has_char_app; repeat (apply orb_false_iff; split); (assumption || reflexivity).
Ltac strip_pieces := rewrite ?string_app_assoc; repeat first [rewrite strip_painted by plain | rewrite strip_plain by plain | rewrite strip_esc by plain].

Lemma strip_tags v b :
  has_char "027" (identity_tags v false) = false ->
  strip_ansi false (identity_tags v true +:+ b) = identity_tags v false +:+ strip_ansi false b.
Proof.
  unfold identity_tags. intros Hp. destruct (region v) as [r|], (job_id v) as [j|]; cbn [painted] in Hp; plain_pieces Hp;
    change COLOR_BLUE with (esc "34"); change COLOR_CYAN1 with (esc "38;5;51"); strip_pieces; cbn [painted]; rewrite ?string_app_assoc; try done.
Qed.

Lemma tags_empty v : is_empty (identity_tags v true) = is_empty (identity_tags v false).
Proof. unfold identity_tags. by destruct (region v), (job_id v). Qed.

(** The coloured line is the plain one with escape sequences in it: whatever is logged, if the
    plain line has no escape character of its own, taking the escape sequences out of the
    coloured line gives the plain line. *)
Theorem colours_only_add_colour now l target record :
  has_char "027" (format_event false now l target record) = false ->
  strip_ansi false (format_event true now l target record) = format_event false now l target record.
Proof.
  unfold format_event. cbv zeta. rewrite tags_empty. set (v := foldl record_value no_fields record).
  set (c := component_name target). destruct (level_color_esc l) as (lc & -> & Hl). destruct (component_color_esc c) as (cc & -> & Hc).
  change COLOR_WHITE with (esc "37"). change COLOR_DARK_SLATE_GRAY1 with (esc "38;5;123").
  cbn [painted]. intros Hp. plain_pieces Hp. change COLOR_RESET with (esc "0"). strip_pieces. rewrite strip_tags by plain. strip_pieces. done.
Qed.

Module LoggingDemo.
Lemma colours_only_add_colour_witness :
  format_event false "12:00" WARN "haruki_sekai_asset_updater::service::poller" [("message", "tick"); ("region", "jp"); ("n", "3")]
  = "[12:00][WARNING][poller][JP] tick n=3" +:+ String "010" ""
  /\ strip_ansi false (format_event true "12:00" WARN "haruki_sekai_asset_updater::service::poller" [("message", "tick"); ("region", "jp"); ("n", "3")])
     = format_event false "12:00" WARN "haruki_sekai_asset_updater::service::poller" [("message", "tick"); ("region", "jp"); ("n", "3")].
Proof. split; [by vm_compute|]. apply (colours_only_add_colour "12:00" WARN); by vm_compute. Defined.

(** The values of an access line are searched for the tokens that come after them: a request
    can put its latency into the path that is logged. *)
Example path_is_filled_in : format_access_line "${path}" "now" "200" "GET" "/a?${latency}" "1.00ms" = "/a?1.00ms" +:+ String "010" "".
Proof. by vm_compute. Qed.
End LoggingDemo.
