(* ===== verification/CpuThrottle.v ===== *)
(** * The CPU throttle

    [core/export_pipeline/implementation/limits.rs]: the settings and the samples that all
    threads share, the percentage computed from the ticks of the process tree or from [ps],
    and the loop that waits while the tree is above its target.  Percentages are IEEE double
    precision numbers; times are nanoseconds. *)

From Stdlib Require Import Ascii SpecFloat.
From S2P Require Import Prelude RustStr Errors CpuLimits Telemetry.

Local Open Scope string_scope.
Local Open Scope list_scope.
Local Open Scope Z_scope.
Local Open Scope rust_scope.

(** ** Double precision *)

Definition f64 : Type := spec_float.
Definition f64_of (z : Z) : f64 := binary_normalize 53 1024 z 0 false.
Definition f64_add : f64 -> f64 -> f64 := SFadd 53 1024.
Definition f64_mul : f64 -> f64 -> f64 := SFmul 53 1024.
Definition f64_div : f64 -> f64 -> f64 := SFdiv 53 1024.
Definition f64_lt : f64 -> f64 -> bool := SFltb.
Definition f64_max (a b : f64) : f64 :=
  match a, b with
  | S754_nan, _ => b
  | _, S754_nan => a
  | _, _ => if f64_lt a b then b else a
  end.
Definition f64_thousandth : f64 := S754_finite false 4611686018427388 (-62).

(** [Duration::as_secs_f64]. *)
Definition as_secs_f64 (ns : Z) : f64 := f64_add (f64_of (ns / 10 ^ 9)) (f64_div (f64_of (ns mod 10 ^ 9)) (f64_of (10 ^ 9))).

(** ** Shared state *)

Record CpuThrottleSettings : Type := mkThrottle { throttle_enabled : bool; target_percent : f64; sample_ms : Z }.
Record CpuThrottleState : Type := mkThrottleState {
  settings : CpuThrottleSettings; last_sample : option Z; last_process_cpu_percent : f64; last_process_cpu_ticks : option Z
}.
Definition default_throttle : CpuThrottleState := mkThrottleState (mkThrottle false (S754_infinity false) 250) None (f64_of 0) None.

(** [configure_cpu_budget_throttle]. *)
Definition configure_cpu_budget_throttle (enabled : bool) (config_sample_ms cpu_budget : Z) (st : CpuThrottleState) : CpuThrottleState :=
  mkThrottleState (mkThrottle enabled (f64_of (truncate 64 (Z.max cpu_budget 1 * 100))) (Z.max config_sample_ms 1))
    (last_sample st) (last_process_cpu_percent st) (last_process_cpu_ticks st).

Definition cpu_budget_hard_cap_enabled (st : CpuThrottleState) : bool := negb (throttle_enabled (settings st)).

Definition linux_clock_ticks_per_second (sysconf : Z) : Z := if 0 <? sysconf then sysconf else 100.

(** ** Percentages from [ps] *)

Record cpu_row : Type := mkCpuRow { cpu_pid : Z; cpu_ppid : Z; cpu_percent : f64 }.

Section Sampling.
(** [str::parse::<f64>]. *)
Variable parse_f64 : string -> option f64.
(** [sysconf(_SC_CLK_TCK)]. *)
Variable clk_tck : Z.

Definition ps_row (line : string) : option cpu_row :=
  let fields := split_whitespace line in
  match fields !! 0%nat ≫= parse_unsigned 32, fields !! 1%nat ≫= parse_unsigned 32, fields !! 2%nat ≫= parse_f64 with
  | Some pid, Some ppid, Some percent => Some (mkCpuRow pid ppid percent)
  | _, _, _ => None
  end.

Fixpoint visit_percent (pid : Z) (rows : list cpu_row) (total : f64) (stack : list Z) : f64 * list Z :=
  match rows with
  | [] => (total, stack)
  | row :: rows =>
      let total := if cpu_pid row =? pid then f64_add total (cpu_percent row) else total in
      let stack := if cpu_ppid row =? pid then cpu_pid row :: stack else stack in
      visit_percent pid rows total stack
  end.

Fixpoint percent_loop (fuel : nat) (rows : list cpu_row) (stack : list Z) (seen : gset Z) (total : f64) : option f64 :=
  match fuel with
  | O => None
  | S fuel =>
      match stack with
      | [] => Some total
      | pid :: stack =>
          if bool_decide (pid ∈ seen) then percent_loop fuel rows stack seen total
          else let '(total, stack) := visit_percent pid rows total stack in percent_loop fuel rows stack ({[pid]} ∪ seen) total
      end
  end.

Definition sum_process_tree_cpu_percent (root_pid : Z) (ps_output : string) : option f64 :=
  let rows := omap ps_row (lines ps_output) in percent_loop (length rows + 2) rows [root_pid] ∅ (f64_of 0).

(** The rows whose parent was not visited yet: each can still be pushed once. *)
Definition unvisited (rows : list cpu_row) (seen : gset Z) : nat := length (List.filter (fun row => negb (bool_decide (cpu_ppid row ∈ seen))) rows).

Lemma visit_percent_pushes pid seen rows total stack :
  pid ∉ seen ->
  (length (visit_percent pid rows total stack).2 + unvisited rows ({[pid]} ∪ seen) = length stack + unvisited rows seen)%nat.
Proof.
  intros Hp. revert total stack. unfold unvisited. induction rows as [|row rows IH]; intros total stack; [done|]. cbn [visit_percent List.filter].
  set (total' := if _ =? _ then f64_add _ _ else total). destruct (Z.eqb_spec (cpu_ppid row) pid) as [->|Hne].
  - specialize (IH total' (cpu_pid row :: stack)). rewrite bool_decide_true by set_solver. rewrite (bool_decide_false (pid ∈ seen)) by done.
    cbn [negb length] in *. lia.
  - specialize (IH total' stack).
    destruct (decide (cpu_ppid row ∈ seen)); [rewrite !bool_decide_true by set_solver|rewrite !bool_decide_false by set_solver];
      cbn [negb length] in *; lia.
Qed.

Lemma percent_loop_total fuel rows stack seen total :
  (length stack + unvisited rows seen < fuel)%nat -> is_Some (percent_loop fuel rows stack seen total).
Proof.
  revert stack seen total. induction fuel as [|fuel IH]; intros stack seen total Hf; [lia|]. cbn [percent_loop].
  destruct stack as [|pid stack]; [by eexists|]. cbn [length] in Hf. case_bool_decide as Hp; [apply IH; lia|].
  pose proof (visit_percent_pushes pid seen rows total stack Hp) as Hv. destruct (visit_percent pid rows total stack) as [total' stack'].
  cbn [snd] in Hv. apply IH. lia.
Qed.

(** The sum always ends, also when [ps] shows a process as its own ancestor. *)
Theorem percent_sum_total root_pid ps_output : is_Some (sum_process_tree_cpu_percent root_pid ps_output).
Proof.
  unfold sum_process_tree_cpu_percent. set (rows := omap ps_row (lines ps_output)). apply percent_loop_total.
  assert (Hle : (unvisited rows ∅ <= length rows)%nat) by apply List.filter_length_le. cbn [length]. lia.
Qed.

(** What running [ps] gives. *)
Inductive ps_result : Type :=
| PsNotStarted (source : io_error)
| PsFailed (status stderr : string)
| PsOutput (stdout : string).

Definition current_process_tree_cpu_percent (root_pid : Z) (ps : ps_result) : option (result f64 ExportPipelineError) :=
  match ps with
  | PsNotStarted source => Some (Err (ExportSpawn "ps" source))
  | PsFailed status stderr => Some (Err (ExportCommandFailed "ps" status (trim stderr)))
  | PsOutput stdout => Ok <$> sum_process_tree_cpu_percent root_pid stdout
  end.

(** ** Sampling *)

(** What a thread finds: the time, the ticks if [/proc] can be read, and [ps]. *)
Record moment : Type := mkMoment { now : Z; ticks : option Z; ps : ps_result }.

Definition ticks_percent (st : CpuThrottleState) (t n : Z) : f64 :=
  match last_sample st, last_process_cpu_ticks st with
  | Some last, Some last_ticks =>
      let elapsed := f64_max (as_secs_f64 (saturating_sub t last)) f64_thousandth in
      let delta_ticks := f64_of (saturating_sub n last_ticks) in
      f64_mul (f64_div (f64_div delta_ticks (f64_of (linux_clock_ticks_per_second clk_tck))) elapsed) (f64_of 100)
  | _, _ => f64_of 0
  end.

Definition sample_is_recent (s : CpuThrottleSettings) (st : CpuThrottleState) (t : Z) : bool :=
  match last_sample st with Some last => saturating_sub t last <? Z.max (sample_ms s) 1 * 10 ^ 6 | None => false end.

Definition sample_process_tree_cpu_percent (root_pid : Z) (s : CpuThrottleSettings) (m : moment) (st : CpuThrottleState)
  : option (result f64 ExportPipelineError * CpuThrottleState) :=
  if sample_is_recent s st (now m) then Some (Ok (last_process_cpu_percent st), st)
  else
    match ticks m with
    | Some n =>
        let sampled := ticks_percent st (now m) n in
        Some (Ok sampled, mkThrottleState (settings st) (Some (now m)) sampled (Some n))
    | None =>
        match current_process_tree_cpu_percent root_pid (ps m) with
        | None => None
        | Some (Err e) => Some (Err e, st)
        | Some (Ok sampled) => Some (Ok sampled, mkThrottleState (settings st) (Some (now m)) sampled (last_process_cpu_ticks st))
        end
    end.

Definition throttle_target (s : CpuThrottleSettings) : f64 := f64_max (target_percent s) (f64_of 1).

(** [wait_for_process_cpu_throttle]: one moment for every turn of the loop, with what other
    threads did to the state before it; no result after them is to be still waiting. *)
Inductive throttle_outcome : Type := Through | ThrottleFailed (e : ExportPipelineError) | Waiting.

Fixpoint wait_for_process_cpu_throttle (root_pid : Z) (turns : list ((CpuThrottleState -> CpuThrottleState) * moment)) (st : CpuThrottleState)
  : option (throttle_outcome * CpuThrottleState) :=
  match turns with
  | [] => Some (Waiting, st)
  | (others, m) :: turns =>
      let st := others st in
      if negb (throttle_enabled (settings st)) then Some (Through, st)
      else
        match sample_process_tree_cpu_percent root_pid (settings st) m st with
        | None => None
        | Some (Err e, st) => Some (ThrottleFailed e, st)
        | Some (Ok percent, st') =>
            if f64_lt percent (throttle_target (settings st)) then Some (Through, st') else wait_for_process_cpu_throttle root_pid turns st'
        end
  end.
End Sampling.

(** ** What the wait guarantees *)

Section Waiting.
Variable parse_f64 : string -> option f64.
Variable clk_tck : Z.
Variable root_pid : Z.
Abbreviation sample := (sample_process_tree_cpu_percent parse_f64 clk_tck root_pid).
Abbreviation wait := (wait_for_process_cpu_throttle parse_f64 clk_tck root_pid).

(** A sample is at most one interval old. *)
Definition fresh (s : CpuThrottleSettings) (t : Z) (st : CpuThrottleState) : Prop :=
  exists last, last_sample st = Some last /\ (last = t \/ saturating_sub t last < Z.max (sample_ms s) 1 * 10 ^ 6).

Lemma sample_fresh s m st percent st' :
  sample s m st = Some (Ok percent, st') -> settings st' = settings st /\ last_process_cpu_percent st' = percent /\ fresh s (now m) st'.
Proof.
  unfold sample_process_tree_cpu_percent, sample_is_recent, fresh. destruct (last_sample st) as [last|] eqn:El.
  - destruct (Z.ltb_spec (saturating_sub (now m) last) (Z.max (sample_ms s) 1 * 10 ^ 6)).
    + intros [= <- <-]. repeat split. exists last. auto.
    + destruct (ticks m); [|destruct (current_process_tree_cpu_percent _ _ _) as [[]|]]; intros [= <- <-]; cbn; repeat split; eauto.
  - destruct (ticks m); [|destruct (current_process_tree_cpu_percent _ _ _) as [[]|]]; intros [= <- <-]; cbn; repeat split; eauto.
Qed.

(** A thread passes the throttle only when it is off, or when a sample of the process tree not
    older than the sampling interval was below the target (and the target is at least one
    percent). *)
Theorem throttle_admits turns st st' :
  wait turns st = Some (Through, st') ->
  cpu_budget_hard_cap_enabled st' = true
  \/ (f64_lt (last_process_cpu_percent st') (throttle_target (settings st')) = true
      /\ exists others m, (others, m) ∈ turns /\ fresh (settings st') (now m) st').
Proof.
  revert st. induction turns as [|[others m] turns IH]; intros st; cbn [wait_for_process_cpu_throttle]; [done|].
  destruct (negb _) eqn:Ee; [intros [= <-]; by left|].
  destruct (sample _ m (others st)) as [[[percent|e] st1]|] eqn:Es; [..|done]; [|done]. destruct (sample_fresh _ _ _ _ _ Es) as (E1 & E2 & Hf).
  destruct (f64_lt percent _) eqn:El.
  - intros [= <-]. right. rewrite E1, E2. split; [done|]. exists others, m. split; [by left | done].
  - intros [Hw|(Hp & o & m' & Hm & Hf')]%IH; [by left|]. right. split; [done|]. exists o, m'. split; [by right | done].
Qed.

(** Numbers above zero. *)
Definition positive (x : f64) : bool := match x with S754_finite false _ _ | S754_infinity false => true | _ => false end.

Lemma f64_max_positive a b : positive b = true -> positive (f64_max a b) = true.
Proof.
  intros Hb. destruct a as [sa|[]| |[] ma ea], b as [sb|[]| |[] mb eb]; try done; cbn; repeat case_match; done.
Qed.

Lemma zero_lt_positive x : positive x = true -> f64_lt (S754_zero false) x = true.
Proof. destruct x as [|[]| |[] m e]; done. Qed.

Lemma zero_div_positive x : positive x = true -> f64_div (S754_zero false) x = S754_zero false.
Proof. destruct x as [|[]| |[] m e]; done. Qed.

(** A process tree that used no CPU time since the last sample passes at the next one, whatever
    the earlier percentage was. *)
Theorem throttle_releases_idle others m turns st last n0 n :
  positive (f64_of (linux_clock_ticks_per_second clk_tck)) = true ->
  last_sample (others st) = Some last -> last_process_cpu_ticks (others st) = Some n0 ->
  Z.max (sample_ms (settings (others st))) 1 * 10 ^ 6 <= saturating_sub (now m) last -> ticks m = Some n -> n <= n0 ->
  exists st', wait ((others, m) :: turns) st = Some (Through, st').
Proof.
  intros Hz El En Hd Et Hn. cbn [wait_for_process_cpu_throttle]. destruct (negb _); [eauto|].
  unfold sample_process_tree_cpu_percent, sample_is_recent. rewrite El, Et. replace (_ <? _) with false by lia. cbv zeta.
  assert (Hp : ticks_percent clk_tck (others st) (now m) n = S754_zero false).
  { unfold ticks_percent. rewrite El, En. cbv zeta. replace (saturating_sub n n0) with 0 by (unfold saturating_sub; lia).
    change (f64_of 0) with (S754_zero false). rewrite zero_div_positive by done. rewrite zero_div_positive by (by apply f64_max_positive). done. }
  rewrite Hp, zero_lt_positive by (by apply f64_max_positive). eauto.
Qed.
End Waiting.

Module ThrottleDemo.
Definition busy : CpuThrottleState := mkThrottleState (mkThrottle true (f64_of 200) 250) (Some 0) (f64_of 350) (Some 90).
Definition same (st : CpuThrottleState) : CpuThrottleState := st.
(** Within the interval the old sample counts; after it two seconds' worth of ticks in one
    second, and then none. *)
Definition turns : list ((CpuThrottleState -> CpuThrottleState) * moment) :=
  [(same, mkMoment (10 ^ 8) (Some 95) (PsOutput "")); (same, mkMoment (10 ^ 9) (Some 290) (PsOutput "")); (same, mkMoment (2 * 10 ^ 9) (Some 290) (PsOutput ""))].

Example waits_then_passes :
  (fun x => x.1) <$> wait_for_process_cpu_throttle (fun _ => None) 100 1 turns busy = Some Through
  /\ (fun x => x.1) <$> wait_for_process_cpu_throttle (fun _ => None) 100 1 (take 2 turns) busy = Some Waiting.
Proof. by vm_compute. Qed.

Lemma throttle_releases_idle_witness : exists st', wait_for_process_cpu_throttle (fun _ => None) 100 1
  [(same, mkMoment (10 ^ 9) (Some 90) (PsOutput ""))] busy = Some (Through, st').
Proof. apply (throttle_releases_idle (fun _ => None) 100 1 same (mkMoment (10 ^ 9) (Some 90) (PsOutput "")) [] busy 0 90 90); by vm_compute. Defined.

Lemma throttle_admits_witness : exists st', wait_for_process_cpu_throttle (fun _ => None) 100 1 turns busy = Some (Through, st')
  /\ f64_lt (last_process_cpu_percent st') (throttle_target (settings st')) = true.
Proof.
  destruct (wait_for_process_cpu_throttle (fun _ => None) 100 1 turns busy) as [[o st']|] eqn:E; [|vm_compute in E; discriminate].
  assert (Eo : o = Through) by (vm_compute in E; congruence). subst o. exists st'. split; [done|].
  destruct (throttle_admits (fun _ => None) 100 1 turns busy st' E) as [Hc|[Hp _]]; [|exact Hp]. vm_compute in E. by injection E as <-.
Defined.
End ThrottleDemo.
