(* ===== verification/WorkerProcess.v ===== *)
(** * The worker process

    The parts of [assetstudio_ffi_worker.rs] around the loop of [WorkerProtocol.Server.serve]:
    the start of the process and its exit codes, the redirection of standard output around a
    call of the library, and the trace.  The descriptors of the process are a table; the
    operating system chooses new descriptors and may refuse any call. *)

From stdpp Require Import gmap.
From Stdlib Require Import Ascii.
From S2P Require Import Prelude RustStr Errors Paths.

Local Open Scope string_scope.
Local Open Scope list_scope.
Local Open Scope Z_scope.
Local Open Scope rust_scope.

(** ** Start *)

Inductive server_end : Type := ServerReturned (code : Z) | ServerPanicked | ServerNotSpawned.

(** [run_server_on_large_stack] and [main]. *)
Definition run_server_on_large_stack (e : server_end) : Z := match e with ServerReturned code => code | _ => 101 end.
Definition worker_main (server : bool) (e : server_end) : Z := if server then run_server_on_large_stack e else 2.

(** The end of [run_server]: loading fails, the input ends, or a step of the loop fails. *)
Inductive run_end : Type := LoadFailed | InputClosed | StepFailed.
Definition run_server_code (e : run_end) : Z := match e with LoadFailed => 101 | InputClosed => 0 | StepFailed => 2 end.

(** ** Standard output during a call *)

(** Descriptors with the file each refers to. *)
Notation descriptors := (gmap Z Z).
Definition STDOUT : Z := 1.
Definition dev_null : Z := -1.

(** What the operating system does with the calls of one redirection. *)
Record redirect_faults : Type := mkFaults { open_ok : bool; dup_ok : bool; dup2_ok : bool; restore_ok : bool }.

Section Redirect.
(** A new descriptor. *)
Variable new_fd : descriptors -> Z.

Definition dup (t : descriptors) (fd : Z) : option (Z * descriptors) := (fun file => (new_fd t, <[new_fd t := file]> t)) <$> t !! fd.
Definition dup2 (t : descriptors) (from to : Z) : descriptors := match t !! from with Some file => <[to := file]> t | None => t end.

(** [StdoutRedirectGuard::to_null]: the saved descriptor and the table; the descriptor of the
    sink is closed when the function returns. *)
Definition to_null (f : redirect_faults) (t : descriptors) : option Z * descriptors :=
  if negb (open_ok f) then (None, t)
  else
    let sink := new_fd t in
    let t1 := <[sink := dev_null]> t in
    match (if dup_ok f then dup t1 STDOUT else None) with
    | None => (None, delete sink t1)
    | Some (saved, t2) =>
        if negb (dup2_ok f) then (None, delete sink (delete saved t2)) else (Some saved, delete sink (dup2 t2 sink STDOUT))
    end.

(** [Drop]. *)
Definition restore (f : redirect_faults) (saved : Z) (t : descriptors) : descriptors :=
  delete saved (if restore_ok f then dup2 t saved STDOUT else t).

(** [call_native_with_stdout_suppressed]: where the library's output goes, and the table
    after the call. *)
Definition call_suppressed (f : redirect_faults) (t : descriptors) : option Z * descriptors :=
  let '(guard, t1) := to_null f t in
  (t1 !! STDOUT, match guard with Some saved => restore f saved t1 | None => t1 end).

Hypothesis new_fd_unused : forall t, t !! new_fd t = None.

Lemma new_ne t fd : is_Some (t !! fd) -> new_fd t <> fd.
Proof. intros [x Hx] E. subst fd. rewrite new_fd_unused in Hx. done. Qed.

Lemma to_null_cases f t pipe :
  t !! STDOUT = Some pipe ->
  let sink := new_fd t in
  let saved := new_fd (<[sink := dev_null]> t) in
  if open_ok f && dup_ok f && dup2_ok f
  then to_null f t = (Some saved, <[STDOUT := dev_null]> (<[saved := pipe]> t)) /\ saved <> STDOUT /\ t !! saved = None
  else to_null f t = (None, t).
Proof.
  intros Hp sink saved. assert (Hs : sink <> STDOUT) by (apply new_ne; eauto).
  assert (Hsink : t !! sink = None) by apply new_fd_unused. assert (Hsv : <[sink := dev_null]> t !! saved = None) by apply new_fd_unused.
  apply lookup_insert_None in Hsv as [Hsv Hss]. assert (Hs1 : saved <> STDOUT) by (intros E; assert (t !! saved = t !! STDOUT) by (f_equal; exact E); congruence).
  unfold to_null. fold sink. destruct (open_ok f); cbn [negb andb]; [|done]. destruct (dup_ok f); cbn [andb].
  - unfold dup. fold saved. rewrite lookup_insert_ne, Hp by done. cbn. destruct (dup2_ok f); cbn [negb].
    + split; [|done]. f_equal. unfold dup2. rewrite lookup_insert_ne, lookup_insert_eq by done. apply map_eq. intros fd.
      destruct (decide (fd = sink)) as [->|?]; [rewrite lookup_delete_eq, !lookup_insert_ne by done; done|].
      rewrite lookup_delete_ne by done. destruct (decide (fd = STDOUT)) as [->|?]; [by rewrite !lookup_insert_eq|].
      rewrite !(lookup_insert_ne _ STDOUT) by done. destruct (decide (fd = saved)) as [->|?]; [by rewrite !lookup_insert_eq|].
      by rewrite !lookup_insert_ne by done.
    + f_equal. rewrite delete_insert_id by (by rewrite lookup_insert_ne). by rewrite delete_insert_id.
  - f_equal. by rewrite delete_insert_id.
Qed.

(** A call of the library leaves the descriptors of the worker as they were: whatever the
    operating system refuses, short of the call that restores standard output, the table is
    the same after the call.  During the call standard output is [/dev/null] if the
    redirection succeeded, and the pipe to the parent otherwise.  When it cannot be restored,
    only standard output differs: it stays [/dev/null]. *)
Theorem descriptors_restored f t pipe :
  t !! STDOUT = Some pipe ->
  let redirected := open_ok f && dup_ok f && dup2_ok f in
  call_suppressed f t
  = (Some (if redirected then dev_null else pipe), if redirected && negb (restore_ok f) then <[STDOUT := dev_null]> t else t).
Proof.
  intros Hp redirected. pose proof (to_null_cases f t pipe Hp) as Hc. unfold call_suppressed. cbv zeta in Hc. fold redirected in Hc.
  destruct redirected; [|rewrite Hc, Hp; by destruct (restore_ok f)].
  destruct Hc as (-> & Hs & Hn). rewrite lookup_insert_eq. f_equal. unfold restore, dup2.
  set (saved := new_fd _) in *. destruct (restore_ok f); cbn [negb andb].
  - rewrite lookup_insert_ne, lookup_insert_eq by done. rewrite insert_insert_eq, delete_insert_ne, delete_insert_id by done. by rewrite insert_id.
  - by rewrite delete_insert_ne, delete_insert_id by done.
Qed.
End Redirect.

(** ** The trace *)

Section Trace.
Context `{UnicodeCase}.
Variable env : string -> option string.

Definition env_enabled (name : string) : bool :=
  match env name with
  | None => false
  | Some value => existsb (String.eqb (str_to_lowercase (trim value))) ["1"; "true"; "yes"; "debug"; "trace"]
  end.

Definition trace_enabled : bool :=
  env_enabled "HARUKI_ASSET_STUDIO_FFI_TRACE" || env_enabled "HARUKI_ASSET_STUDIO_FFI_DIAGNOSTICS" || env_enabled "HARUKI_ASSET_STUDIO_FFI_WORKER_TRACE".

(** [trace_dir] without its creation. *)
Definition trace_dir (temp_dir : path) : path :=
  match env "HARUKI_ASSET_STUDIO_FFI_LOG_DIR" with
  | Some value => if blank value then path_join temp_dir [Normal "haruki-assetstudio-ffi"] else components value
  | None => path_join temp_dir [Normal "haruki-assetstudio-ffi"]
  end.

(** An attempted write: its file, its text and whether it is appended. *)
Record trace_write : Type := mkTrace { trace_file : path; trace_text : string; trace_append : bool }.

Definition append_trace_line (temp_dir : path) (created : bool) (file_name line : string) : list trace_write :=
  if trace_enabled && created then [mkTrace (path_join (trace_dir temp_dir) [Normal file_name]) (line +:+ String "010" "") true] else [].
Definition write_trace_file (temp_dir : path) (created : bool) (file_name contents : string) : list trace_write :=
  if trace_enabled && created then [mkTrace (path_join (trace_dir temp_dir) [Normal file_name]) contents false] else [].

Definition write_process_trace (temp_dir : path) (created : bool) (now_ms pid : Z) (stage detail : string) : list trace_write :=
  append_trace_line temp_dir created "worker.log" (pretty now_ms +:+ " pid=" +:+ pretty pid +:+ " stage=" +:+ stage +:+ " " +:+ detail).

(** The clock is read and the directory created once for each of the two writes; the request
    is its JSON text or the error of the serializer. *)
Definition write_worker_trace (temp_dir : path) (created_file created_log : bool) (now_file now_line pid : Z) (operation stage : string)
  (request : option (string + string)) (detail : option string) : list trace_write :=
  match request with
  | Some text =>
      write_trace_file temp_dir created_file ("worker-" +:+ pretty pid +:+ "-" +:+ operation +:+ "-" +:+ pretty now_file +:+ ".request.json")
        (match text with inl json => json | inr error => "serialize_error=" +:+ error end)
  | None => []
  end
  ++ append_trace_line temp_dir created_log "worker.log"
       (pretty now_line +:+ " pid=" +:+ pretty pid +:+ " operation=" +:+ operation +:+ " stage=" +:+ stage
        +:+ match detail with Some d => " " +:+ d | None => "" end).

(** Without one of the variables nothing is written. *)
Lemma trace_off temp_dir created_file created_log now_file now_line pid operation stage request detail :
  trace_enabled = false ->
  write_worker_trace temp_dir created_file created_log now_file now_line pid operation stage request detail = [].
Proof. intros Ht. unfold write_worker_trace, write_trace_file, append_trace_line. rewrite Ht. by destruct request. Qed.
End Trace.

Module ProcessDemo.
Definition table : descriptors := {[0 := 10; 1 := 11; 2 := 12]}.
(** One above the largest. *)
Definition next_fd (t : descriptors) : Z := foldr Z.max 0 (map fst (map_to_list t)) + 1.

Lemma next_fd_unused t : t !! next_fd t = None.
Proof.
  destruct (t !! next_fd t) as [x|] eqn:E; [|done]. apply elem_of_map_to_list in E. exfalso. unfold next_fd in E. revert E.
  assert (Hle : forall l (p : Z * Z), p ∈ l -> p.1 <= foldr Z.max 0 (map fst l)).
  { intros l p. induction l as [|q l IH]; [set_solver|]. intros [->|Hp]%elem_of_cons; cbn; [lia|]. specialize (IH Hp). lia. }
  intros E%Hle. cbn in E. lia.
Qed.

Lemma descriptors_restored_witness : call_suppressed next_fd (mkFaults true true true true) table = (Some dev_null, table).
Proof. rewrite (descriptors_restored next_fd next_fd_unused (mkFaults true true true true) table 11 eq_refl). reflexivity. Defined.
End ProcessDemo.
