(* ===== verification/Progress.v ===== *)
(** * Progress reports of an attempt

    [ProgressReporter] of [src/service/poller.rs]: it observes the events of the executor and
    logs the counts when a phase changes, when a bundle fails, when the next five percent are
    done, or after fifteen seconds.  The clock and the counter shared with the filter are read
    at each event. *)

From S2P Require Import Prelude Models AssetInfo.

Local Open Scope string_scope.
Local Open Scope list_scope.
Local Open Scope Z_scope.

(** [{phase:?}]. *)
Definition phase_name (p : JobPhase) : string :=
  match p with
  | Accepted => "Accepted" | Planning => "Planning" | FetchingAssetInfo => "FetchingAssetInfo"
  | PlanningDownloads => "PlanningDownloads" | DownloadingBundles => "DownloadingBundles"
  | PersistingState => "PersistingState" | SyncingChartHashes => "SyncingChartHashes"
  | CancelledPhase => "Cancelled" | CompletedPhase => "Completed" | FailedPhase => "Failed"
  end.

(** The counts a report states. *)
Record Counts : Type := mkCounts {
  planned : Z; started : Z; downloaded : Z; exported : Z; artefacts_ready : Z; completed : Z; failed : Z
}.
Definition no_counts : Counts := mkCounts 0 0 0 0 0 0 0.

(** [struct ProgressReporter]; times in milliseconds. *)
Record ProgressReporter : Type := mkReporter {
  phase : string; counts : Counts; layer1_skipped : Z; last_logged_at : Z; last_logged_percent_bucket : Z
}.
(** The fields of the log line. *)
Record Report : Type := mkReport {
  report_phase : string; report_counts : Counts; percent_x10 : Z; skipped_layer1 : Z; skipped_hip : Z
}.
(** What the reporter reads at an event: the clock, twice, and the shared counter. *)
Record Reading : Type := mkReading { elapsed_at : Z; logged_at : Z; hip_skipped : Z }.

Definition LOG_INTERVAL : Z := 15000.
Definition PERCENT_BUCKET : Z := 5.

(** [ProgressReporter::new]. *)
Definition new_reporter (layer1_skipped now : Z) : ProgressReporter := mkReporter "starting" no_counts layer1_skipped (now - LOG_INTERVAL) 0.

Definition inc (n : Z) : Z := wrapping_add 64 n 1.
Definition processed (c : Counts) : Z := wrapping_add 64 (completed c) (failed c).
Definition is_finished (c : Counts) : bool := (0 <? planned c) && (planned c <=? processed c).
Definition percent_bucket (c : Counts) : Z :=
  if planned c =? 0 then 0 else truncate 64 (processed c * 100) / planned c / PERCENT_BUCKET.

(** [checked_div(..).unwrap_or_default()]. *)
Definition tenths (c : Counts) : Z := if planned c =? 0 then 0 else saturating_mul 64 (processed c) 1000 / planned c.

Definition maybe_log (force : bool) (now : Reading) (r : ProgressReporter) : option Report * ProgressReporter :=
  let bucket := percent_bucket (counts r) in
  let bucket_changed := last_logged_percent_bucket r <? bucket in
  let interval_elapsed := LOG_INTERVAL <=? saturating_sub (elapsed_at now) (last_logged_at r) in
  if negb force && negb bucket_changed && negb interval_elapsed then (None, r)
  else
    (Some (mkReport (phase r) (counts r) (tenths (counts r)) (layer1_skipped r) (hip_skipped now)),
     mkReporter (phase r) (counts r) (layer1_skipped r) (logged_at now) bucket).

Definition count_event (e : ExecutionProgressUpdate) (c : Counts) : Counts :=
  match e with
  | DownloadsPlanned total => mkCounts (Z.of_nat total) (started c) (downloaded c) (exported c) (artefacts_ready c) (completed c) (failed c)
  | BundleStarted _ => mkCounts (planned c) (inc (started c)) (downloaded c) (exported c) (artefacts_ready c) (completed c) (failed c)
  | BundleDownloaded _ _ => mkCounts (planned c) (started c) (inc (downloaded c)) (exported c) (artefacts_ready c) (completed c) (failed c)
  | BundleExported _ => mkCounts (planned c) (started c) (downloaded c) (inc (exported c)) (artefacts_ready c) (completed c) (failed c)
  | BundleArtefactsProduced _ _ _ _ =>
      mkCounts (planned c) (started c) (downloaded c) (exported c) (inc (artefacts_ready c)) (completed c) (failed c)
  | BundleCompleted _ => mkCounts (planned c) (started c) (downloaded c) (exported c) (artefacts_ready c) (inc (completed c)) (failed c)
  | BundleFailed _ _ => mkCounts (planned c) (started c) (downloaded c) (exported c) (artefacts_ready c) (completed c) (inc (failed c))
  | _ => c
  end.

(** The events that are always reported; a completed bundle when it was the last. *)
Definition forces (e : ExecutionProgressUpdate) (c : Counts) : bool :=
  match e with
  | Phase _ _ | DownloadsPlanned _ | BundleFailed _ _ | RecordSaved _ | ChartHashSyncFinished _ => true
  | BundleCompleted _ => is_finished c
  | _ => false
  end.

Definition observe (e : ExecutionProgressUpdate) (now : Reading) (r : ProgressReporter) : option Report * ProgressReporter :=
  let c := count_event e (counts r) in
  let p := match e with Phase p _ => phase_name p | _ => phase r end in
  maybe_log (forces e c) now (mkReporter p c (layer1_skipped r) (last_logged_at r) (last_logged_percent_bucket r)).

Definition finish (now : Reading) (r : ProgressReporter) : option Report * ProgressReporter := maybe_log true now r.

(** The reporter over the events of an execution. *)
Fixpoint observe_all (events : list (ExecutionProgressUpdate * Reading)) (r : ProgressReporter) : list Report * ProgressReporter :=
  match events with
  | [] => ([], r)
  | (e, now) :: events =>
      let '(report, r1) := observe e now r in
      let '(reports, r2) := observe_all events r1 in
      (match report with Some x => [x] | None => [] end ++ reports, r2)
  end.

(** ** What a reader of the log can rely on *)

Definition is_completed (e : ExecutionProgressUpdate) : bool := match e with BundleCompleted _ => true | _ => false end.
Definition is_failed (e : ExecutionProgressUpdate) : bool := match e with BundleFailed _ _ => true | _ => false end.
Definition number (f : ExecutionProgressUpdate -> bool) (events : list (ExecutionProgressUpdate * Reading)) : Z :=
  zlen (List.filter (fun x => f x.1) events).

(** Counts without overflow, of at most [n] events. *)
Definition small (n : Z) (c : Counts) : Prop :=
  0 <= planned c /\ 0 <= completed c /\ 0 <= failed c /\ completed c + failed c <= n.

Lemma wrap_small a b : 0 <= a + b < 2 ^ 64 -> wrapping_add 64 a b = a + b.
Proof. intros. by apply truncate_small. Qed.

Lemma count_event_small n e c :
  small n c -> n + 1 < 2 ^ 64 ->
  small (n + 1) (count_event e c)
  /\ completed (count_event e c) = completed c + (if is_completed e then 1 else 0)
  /\ failed (count_event e c) = failed c + (if is_failed e then 1 else 0).
Proof. unfold small. intros Hs Hn. destruct e; cbn; unfold inc; try (rewrite wrap_small by lia); lia. Qed.

Lemma bucket_small n c :
  small n c -> n * 100 < 2 ^ 64 -> percent_bucket c = if planned c =? 0 then 0 else (completed c + failed c) * 100 / planned c / PERCENT_BUCKET.
Proof.
  intros Hs Hn. unfold small in Hs. unfold percent_bucket, processed. rewrite wrap_small by lia. rewrite truncate_small; [done|]. unfold in_width. lia.
Qed.

(** An event that is not reported whatever happens keeps the plan and lowers nothing. *)
Lemma bucket_grows n e c :
  small n c -> (n + 1) * 100 < 2 ^ 64 -> forces e (count_event e c) = false -> percent_bucket c <= percent_bucket (count_event e c).
Proof.
  intros Hs Hn Hf. destruct (count_event_small n e c Hs ltac:(lia)) as (Hs' & Hc & Hx).
  rewrite (bucket_small n c Hs ltac:(lia)), (bucket_small (n + 1) _ Hs' ltac:(lia)).
  assert (Hp : planned (count_event e c) = planned c) by (destruct e; done). rewrite Hp, Hc, Hx.
  destruct (Z.eqb_spec (planned c) 0) as [|Hnz]; [lia|]. unfold small in Hs. unfold PERCENT_BUCKET.
  apply Z.div_le_mono; [lia|]. apply Z.div_le_mono; [lia|]. destruct (is_completed e), (is_failed e); lia.
Qed.

(** The last report names the current five percent. *)
Definition up_to_date (last : option Report) (r : ProgressReporter) : Prop :=
  last_logged_percent_bucket r = percent_bucket (counts r)
  /\ percent_bucket (match last with Some x => report_counts x | None => no_counts end) = percent_bucket (counts r).

Lemma maybe_log_up_to_date force now r last :
  (force = false -> last_logged_percent_bucket r <= percent_bucket (counts r)) ->
  (force = false -> percent_bucket (match last with Some x => report_counts x | None => no_counts end) = last_logged_percent_bucket r) ->
  let '(report, r') := maybe_log force now r in
  counts r' = counts r /\ up_to_date (match report with Some x => Some x | None => last end) r' /\ (force = true -> is_Some report).
Proof.
  intros Hle Hlast. unfold maybe_log. destruct force; cbn [negb andb]; [done|]. specialize (Hle eq_refl). specialize (Hlast eq_refl).
  destruct (Z.ltb_spec (last_logged_percent_bucket r) (percent_bucket (counts r))); cbn [negb andb]; [done|].
  destruct (LOG_INTERVAL <=? _); cbn [negb]; [done|]. unfold up_to_date. rewrite Hlast. repeat split; auto; lia.
Qed.

Lemma observe_up_to_date n e now r last :
  small n (counts r) -> (n + 1) * 100 < 2 ^ 64 -> up_to_date last r ->
  let '(report, r') := observe e now r in
  counts r' = count_event e (counts r) /\ up_to_date (match report with Some x => Some x | None => last end) r'
  /\ (forces e (counts r') = true -> is_Some report).
Proof.
  intros Hs Hn [Hu1 Hu2]. unfold observe.
  pose proof (maybe_log_up_to_date (forces e (count_event e (counts r))) now
    (mkReporter (match e with Phase p _ => phase_name p | _ => phase r end) (count_event e (counts r)) (layer1_skipped r) (last_logged_at r)
       (last_logged_percent_bucket r)) last) as Hm. cbn [counts last_logged_percent_bucket] in Hm.
  destruct (maybe_log _ _ _) as [report r'].
  destruct Hm as (Hc & Hu & Hf); [|by intros; rewrite Hu1|by rewrite Hc].
  intros Hf. rewrite Hu1. by apply (bucket_grows n).
Qed.

(** The log keeps up with the execution: whatever the clock does, after any events the last
    report is of the same five percent as the true state, and the counts of completed and
    failed bundles are the numbers of those events.  (An execution of fewer than 2^57 events.) *)
Theorem log_keeps_up created layer1 events :
  100 * (zlen events + 1) < 2 ^ 64 ->
  let '(reports, r) := observe_all events (new_reporter layer1 created) in
  percent_bucket (match last reports with Some x => report_counts x | None => no_counts end) = percent_bucket (counts r)
  /\ completed (counts r) = number is_completed events /\ failed (counts r) = number is_failed events.
Proof.
  intros Hn.
  assert (Hgen : forall events r n old, small n (counts r) -> 0 <= n -> 100 * (n + zlen events + 1) < 2 ^ 64 -> up_to_date old r ->
    let '(reports, r') := observe_all events r in
    up_to_date (match last reports with Some x => Some x | None => old end) r'
    /\ completed (counts r') = completed (counts r) + number is_completed events /\ failed (counts r') = failed (counts r) + number is_failed events).
  { clear. induction events as [|[e now] events IH]; intros r n old Hs H0 Hn Hu; cbn [observe_all]; [split; [done|unfold number, zlen; cbn [List.filter length]; lia]|].
    rewrite zlen_cons in Hn. pose proof (zlen_nonneg events) as Hz. pose proof (observe_up_to_date n e now r old Hs ltac:(lia) Hu) as Ho.
    destruct (count_event_small n e (counts r) Hs ltac:(lia)) as (Hs' & Hc & Hf).
    destruct (observe e now r) as [report r1]. destruct Ho as (Hc1 & Hu1 & _). rewrite <- Hc1 in Hs', Hc, Hf.
    specialize (IH r1 (n + 1) _ Hs' ltac:(lia) ltac:(lia) Hu1). destruct (observe_all events r1) as [reports r2].
    destruct IH as (IHu & IHc & IHf). split.
    - destruct report as [x|]; cbn [app]; [|done]. destruct reports as [|y reports]; [done|]. rewrite last_cons_cons. destruct (last (y :: reports)) eqn:E; [done|]. by apply last_None in E.
    - unfold number in *. cbn [List.filter fst]. destruct (is_completed e), (is_failed e); rewrite ?zlen_cons; lia. }
  specialize (Hgen events (new_reporter layer1 created) 0 None ltac:(unfold small; cbn; lia) ltac:(lia) ltac:(lia) ltac:(done)).
  destruct (observe_all events _) as [reports r]. destruct Hgen as ([_ Hu] & Hc & Hf). cbn [counts new_reporter no_counts completed failed] in Hc, Hf.
  split; [|lia]. by destruct (last reports).
Qed.

Module ProgressDemo.
Definition at_ms (t : Z) : Reading := mkReading t t 4.
Definition events : list (ExecutionProgressUpdate * Reading) :=
  [(DownloadsPlanned 40, at_ms 1); (BundleCompleted "a", at_ms 2); (BundleCompleted "b", at_ms 3); (BundleFailed "c" "timeout", at_ms 4);
   (BundleCompleted "d", at_ms 5)].

Lemma log_keeps_up_witness : let '(reports, r) := observe_all events (new_reporter 7 0) in length reports = 4%nat /\ completed (counts r) = 3.
Proof.
  pose proof (log_keeps_up 0 7 events ltac:(vm_compute; reflexivity)) as Hk. destruct (observe_all events (new_reporter 7 0)) as [reports r] eqn:E.
  destruct Hk as (_ & Hc & _). split; [|exact Hc]. vm_compute in E. injection E as <- _. reflexivity.
Defined.
End ProgressDemo.
