(* ===== verification/HipConnect.v ===== *)
(** * Connecting to the gateway

    [connect_hip] and [connect_hip_with] of [src/service/poller.rs], which build the settings of
    a session from the configuration, and [HipClient::connect] of [src/core/hip/client.rs]: the
    TCP stream, TLS with its trusted certificates, and the handshake of [HipSession.start] over
    the channel.  The network and the certificate stores are parameters. *)

From S2P Require Import Prelude RustStr Errors Config AssetInfo HipCodec Frame HipSession.
Import Frame.Hip.

Local Open Scope string_scope.
Local Open Scope list_scope.
Local Open Scope Z_scope.
Local Open Scope rust_scope.

(** ** The settings of a session *)

Definition client_config (hip : HipConfig) (pkg_version : string) : HipClientConfig :=
  mkHipClientConfig (hip_endpoint hip) (unwrap_or_default (hip_bearer_token hip)) (hip_tls_enabled (hip_tls hip)) (hip_tls_ca_file (hip_tls hip))
    (handshake_timeout_ms hip) (request_timeout_ms hip) (hip_max_frame_bytes hip) (Z.max (hip_chunk_size_bytes hip) (64 * 1024))
    (Z.max (heartbeat_interval_seconds hip) 1 * 1000) pkg_version.

Definition hello_params (region_name : string) (current : CurrentVersionInfo) (run_id : string) : HelloParams :=
  mkHelloParams region_name (app_version_or_default current) (asset_version_or_default current) (asset_hash_or_default current) run_id.

(** [build_reusable_client]: the proxy of the client, its timeouts in seconds. *)
Record reusable_client : Type := mkClient { connect_timeout : Z; total_timeout : Z; client_proxy : option string }.
Definition build_reusable_client (proxy_all : string -> result unit string) (build : reusable_client -> result unit string) (proxy : option string)
  : result reusable_client PollError :=
  let proxy := match proxy with Some p => if String.eqb p "" then None else Some p | None => None end in
  let? _ := match proxy with
            | Some p => result_map_err (fun err => PollConfig ("invalid proxy `" +:+ p +:+ "`: " +:+ err)) (proxy_all p)
            | None => Ok tt
            end in
  let client := mkClient 10 30 proxy in
  let? _ := result_map_err PollConfig (build client) in
  Ok client.

(** ** The channel *)

Section Connect.
Context {cert : Type}.

(** The network, the name check and the certificates of this host. *)
Record Network : Type := mkNetwork {
  tcp_connect : string -> option io_error;
  set_nodelay : option io_error;
  server_name : string -> result string string;
  read_ca_file : string -> result (list (result cert string)) string;
  add_root : cert -> result unit string;
  native_certs : list cert;
  tls_handshake : string -> list cert -> option string
}.
Inductive channel : Type := Plain | Secure (host : string) (roots : list cert).

(** Every certificate of the file must be read and accepted. *)
Fixpoint file_roots (net : Network) (ca : string) (certs : list (result cert string)) : result (list cert) HipError :=
  match certs with
  | [] => Ok []
  | c :: certs =>
      let? c := result_map_err (fun err => Tls ("read ca_file " +:+ ca +:+ ": " +:+ err)) c in
      let? _ := result_map_err (fun err => Tls ("add ca cert: " +:+ err)) (add_root net c) in
      let? roots := file_roots net ca certs in
      Ok (c :: roots)
  end.
Definition accepted (net : Network) (c : cert) : bool := is_ok (add_root net c).

Definition build_client_tls_config (net : Network) (ca_file : option string) : result (list cert) HipError :=
  match (match ca_file with Some ca => if blank ca then None else Some ca | None => None end) with
  | Some ca =>
      let? certs := result_map_err (fun err => Tls ("open ca_file " +:+ ca +:+ ": " +:+ err)) (read_ca_file net ca) in
      file_roots net ca certs
  | None => Ok (List.filter (accepted net) (native_certs net))
  end.

(** [HipClient::connect] until the handshake. *)
Definition open_channel (net : Network) (config : HipClientConfig) : result channel HipError :=
  let? _ := match tcp_connect net (endpoint config) with Some e => Err (HipIo e) | None => Ok tt end in
  let? _ := match set_nodelay net with Some e => Err (HipIo e) | None => Ok tt end in
  if client_tls_enabled config then
    let? host_port := split_host_port (endpoint config) in
    let host := host_port.1 in
    let? name := result_map_err (fun err => Tls ("invalid dns name `" +:+ host +:+ "`: " +:+ err)) (server_name net host) in
    let? roots := build_client_tls_config net (client_tls_ca_file config) in
    match tls_handshake net name roots with
    | Some err => Err (Tls err)
    | None => Ok (Secure name roots)
    end
  else Ok Plain.

Section Session.
Context `{MsgPack HipCodec.Hello, MsgPack HipCodec.HelloAck, MsgPack HipErrorPayload}.
(** What the gateway sends over a channel. *)
Variable incoming : channel -> bytes.

(** [HipClient::connect]: the channel the handshake ran over, and its result. *)
Definition connect (net : Network) (config : HipClientConfig) (hello : HelloParams) : option channel * result (session * bytes) HipError :=
  match open_channel net config with
  | Err e => (None, Err e)
  | Ok ch => (Some ch, start config hello (incoming ch))
  end.

Definition connect_hip_with (show : HipError -> string) (net : Network) (hip : HipConfig) (pkg_version region_name : string)
  (current : CurrentVersionInfo) (run_id : string) : option channel * result (session * bytes) PollError :=
  let '(ch, r) := connect net (client_config hip pkg_version) (hello_params region_name current run_id) in
  (ch, result_map_err (fun e => PollHip (show e)) r).

(** ** What a connection guarantees *)

(** The certificates a secure channel may trust. *)
Definition trusted (net : Network) (ca_file : option string) (roots : list cert) : Prop :=
  match ca_file with
  | Some ca =>
      if blank ca then roots = List.filter (accepted net) (native_certs net)
      else read_ca_file net ca = Ok (map Ok roots) /\ Forall (fun c => accepted net c = true) roots
  | None => roots = List.filter (accepted net) (native_certs net)
  end.

Lemma file_roots_exact net ca certs roots :
  file_roots net ca certs = Ok roots -> certs = map Ok roots /\ Forall (fun c => accepted net c = true) roots.
Proof.
  revert roots. induction certs as [|c certs IH]; intros roots; cbn [file_roots]; [intros [= <-]; by split|].
  destruct c as [c|err]; [|done]. cbn [result_map_err result_bind]. destruct (add_root net c) as [u|err] eqn:Ea; [|done].
  cbn [result_map_err result_bind]. destruct (file_roots net ca certs) as [rs|e]; [|done]. cbn [result_bind]. intros [= <-].
  destruct (IH rs eq_refl) as [-> Hf]. split; [done|]. constructor; [|done]. unfold accepted. by rewrite Ea.
Qed.

Lemma tls_roots_trusted net ca_file roots : build_client_tls_config net ca_file = Ok roots -> trusted net ca_file roots.
Proof.
  unfold build_client_tls_config, trusted. destruct ca_file as [ca|]; [|by intros [= <-]]. destruct (blank ca); [by intros [= <-]|].
  destruct (read_ca_file net ca) as [certs|err]; [|done]. cbn [result_map_err result_bind]. intros Hr%file_roots_exact.
  destruct Hr as [-> Hf]. done.
Qed.

Lemma open_channel_kind net config ch :
  open_channel net config = Ok ch ->
  match ch with
  | Plain => client_tls_enabled config = false
  | Secure name roots =>
      client_tls_enabled config = true /\ trusted net (client_tls_ca_file config) roots /\ tls_handshake net name roots = None
      /\ exists host port, split_host_port (endpoint config) = Ok (host, port) /\ server_name net host = Ok name
  end.
Proof.
  unfold open_channel. destruct (tcp_connect _ _); [done|]. destruct (set_nodelay net); [done|]. cbn [result_bind].
  destruct (client_tls_enabled config); [|by intros [= <-]]. destruct (split_host_port _) as [[host port]|e]; [|done]. cbn [result_bind fst]. cbv zeta.
  destruct (server_name net host) as [name|e] eqn:En; [|done]. cbn [result_map_err result_bind].
  destruct (build_client_tls_config _ _) as [roots|e] eqn:Er; [|done]. cbn [result_bind]. destruct (tls_handshake net name roots) eqn:Eh; [done|].
  intros [= <-]. apply tls_roots_trusted in Er. eauto 10.
Qed.

(** The HELLO is all a handshake writes. *)
Lemma start_wire config p inc s rest :
  start config p inc = Ok (s, rest) ->
  exists payload, encode_msg (hello_of config p) = Ok payload
    /\ write_frame [] (mkFrame Frame.Hip.Hello payload) (max_frame_bytes config) = Ok (s_wire s)
    /\ chunk_size_bytes (s_config s) = chunk_size_bytes config /\ heartbeat_interval (s_config s) = heartbeat_interval config
    /\ max_frame_bytes (s_config s) <= max_frame_bytes config.
Proof.
  unfold start. destruct (encode_msg (hello_of config p)) as [payload|]; [|done]. cbn [result_bind].
  destruct (write_frame [] _ _) as [wire|] eqn:Ew; [|done]. cbn [result_bind]. destruct (read_frame _ _) as [r tail].
  destruct r as [f|]; [|done]. cbn [result_bind]. intros (ack & _ & Hs)%result_bind_Ok. injection Hs as <- _.
  exists payload. cbn. repeat split; try done. lia.
Qed.

(** With TLS configured the token never leaves over a plain channel: whatever the handshake
    returns, it runs over a channel to the host of the endpoint whose trusted certificates are
    exactly those of the configured file, all of them accepted, or without a file the accepted
    ones of the host; if the channel cannot be opened nothing is sent.  A session that was
    opened has sent one frame, the HELLO with the token, the region, its versions and the run. *)
Theorem token_sent_only_over_tls show net hip pkg_version region_name current run_id :
  hip_tls_enabled (hip_tls hip) = true ->
  let config := client_config hip pkg_version in
  let '(ch, r) := connect_hip_with show net hip pkg_version region_name current run_id in
  match ch with
  | None => is_ok r = false
  | Some Plain => False
  | Some (Secure name roots) =>
      trusted net (hip_tls_ca_file (hip_tls hip)) roots /\ tls_handshake net name roots = None
      /\ exists host port, split_host_port (hip_endpoint hip) = Ok (host, port) /\ server_name net host = Ok name
  end
  /\ forall s rest, r = Ok (s, rest) ->
       64 * 1024 <= chunk_size_bytes (s_config s) /\ 1000 <= heartbeat_interval (s_config s)
       /\ max_frame_bytes (s_config s) <= hip_max_frame_bytes hip
       /\ exists payload, encode_msg (hello_of config (hello_params region_name current run_id)) = Ok payload
            /\ write_frame [] (mkFrame Frame.Hip.Hello payload) (hip_max_frame_bytes hip) = Ok (s_wire s).
Proof.
  intros Htls config. unfold connect_hip_with, connect. fold config. destruct (open_channel net config) as [ch|e] eqn:Eo; [|done].
  apply open_channel_kind in Eo. split.
  - destruct ch as [|name roots]; [cbn in Eo; congruence|]. destruct Eo as (_ & Hr & Hh & Hn). done.
  - intros s rest Hs. destruct (start _ _ _) as [[s' rest']|] eqn:Es; [|done]. injection Hs as -> ->.
    apply start_wire in Es as (payload & He & Hw & Hc & Hb & Hm). cbn in Hc, Hb, Hm, Hw. rewrite Hc, Hb. repeat split; [lia..|done|]. eauto.
Qed.
End Session.
End Connect.

Module ConnectDemo.
Import HipCodec.ConcreteMsg ConcreteSession.

Definition host_net : @Network Z :=
  mkNetwork (fun _ => None) None (fun host => Ok host) (fun _ => Ok [Ok 1; Ok 2]) (fun _ => Ok tt) [9] (fun _ _ => None).
Definition hip : HipConfig := mkHipConfig true "gw:7420" (Some "secret") (mkHipTlsConfig true (Some "/ca.pem")) 5000 30000 65536 1 8 512 0 500 1.
Definition current : CurrentVersionInfo := mkCurrentVersionInfo (Some "1") None (Some "2") (Some "h").
Definition result_of := connect_hip_with (fun _ => incoming) (fun _ => "") host_net hip "1" "jp" current "run".

Lemma token_sent_only_over_tls_witness :
  result_of.1 = Some (Secure "gw" [1; 2])
  /\ exists s rest, result_of.2 = Ok (s, rest) /\ 64 * 1024 <= chunk_size_bytes (s_config s) /\ 1000 <= heartbeat_interval (s_config s).
Proof.
  pose proof (token_sent_only_over_tls (fun _ => incoming) (fun _ => "") host_net hip "1" "jp" current "run" eq_refl) as Ht.
  change (connect_hip_with _ _ _ _ _ _ _ _) with result_of in Ht. cbv zeta in Ht.
  assert (E1 : result_of.1 = Some (Secure "gw" [1; 2])) by (vm_compute; reflexivity). assert (E2 : is_ok result_of.2 = true) by (vm_compute; reflexivity).
  destruct result_of as [ch r]. cbn [fst snd] in *. split; [exact E1|]. destruct r as [[s rest]|]; [|discriminate].
  exists s, rest. destruct Ht as [_ Ht]. destruct (Ht s rest eq_refl) as (Hc & Hb & _). split; [reflexivity|]. split; assumption.
Defined.
End ConnectDemo.
