(* ===== verification/Metrics.v ===== *)
(** * The figures of an export

    The maps [phase_ms] that [implementation.rs], [implementation/assetstudio.rs] and
    [implementation/media_postprocess.rs] fill: times, counts and peaks under names, in
    [HashMap<String, u64>].  A map that is merged is traversed in an order the code does not
    choose, so the sources are lists; the theorems show that the order cannot be seen. *)

From Stdlib Require Import Permutation.
From S2P Require Import Prelude.

Local Open Scope string_scope.
Local Open Scope list_scope.
Local Open Scope Z_scope.

(** [HashMap<String, u64>], and a map in the order of its traversal. *)
Abbreviation figures := (gmap string Z).
Abbreviation traversal := (list (string * Z)).

Definition figure (m : figures) (phase : string) : Z := default 0 (m !! phase).

(** ** Operations *)

(** [*entry.or_default() += value]. *)
Definition add_phase_ms (phase : string) (value : Z) (m : figures) : figures := <[phase := wrapping_add 64 (figure m phase) value]> m.
Definition record_max_phase_ms (phase : string) (value : Z) (m : figures) : figures := <[phase := Z.max (figure m phase) value]> m.
Definition merge_optional_max_phase_ms (phase : string) (value : option Z) (m : figures) : figures :=
  match value with Some v => record_max_phase_ms phase v m | None => m end.

(** [elapsed().as_millis().min(u64::MAX) as u64]. *)
Definition elapsed_ms (ms : Z) : Z := Z.min ms u64_max.
Definition record_phase_ms (phase : string) (ms : Z) (m : figures) : figures := <[phase := elapsed_ms ms]> m.
Definition add_elapsed_phase_ms (phase : string) (ms : Z) (m : figures) : figures := add_phase_ms phase (elapsed_ms ms) m.

(** The merges: a name for every key, and an addition. *)
Definition merge_named (name : string -> string) (source : traversal) (m : figures) : figures :=
  foldl (fun m kv => add_phase_ms (name kv.1) kv.2 m) m source.
Definition merge_raw_phase_ms (source : traversal) (m : figures) : figures := merge_named (fun key => key) source m.
Definition merge_phase_ms (source : traversal) (m : figures) : figures := merge_named (fun key => "read_object." +:+ key) source m.
Definition merge_prefixed_phase_ms (prefix : string) (source : traversal) (m : figures) : figures :=
  merge_named (fun key => prefix +:+ "." +:+ key) source m.
Definition merge_prefixed_usize_counts (prefix : string) (source : traversal) (m : figures) : figures :=
  merge_named (fun key => prefix +:+ "." +:+ key) source m.
Definition merge_prefixed_u64_counts (prefix : string) (source : traversal) (m : figures) : figures :=
  merge_named (fun key => prefix +:+ "." +:+ key) source m.

(** [struct MediaEncodeAcquire], its figures. *)
Record EncodeFigures : Type := mkEncode { wait_ms : Z; active : Z; cpu_budget_wait_ms : Z }.

Definition record_hca_media_encode_acquire (e : EncodeFigures) (m : figures) : figures :=
  let m := add_phase_ms "post_process.hca.audio_pool_wait" (wait_ms e) m in
  let m := add_phase_ms "media_scheduler.audio_encode_wait" (wait_ms e) m in
  let m := record_max_phase_ms "media_scheduler.audio_encode_active_peak" (active e) m in
  let m := add_phase_ms "media_scheduler.media_encode_wait" (wait_ms e) m in
  let m := record_max_phase_ms "media_scheduler.media_encode_active_peak" (active e) m in
  let m := add_phase_ms "media_scheduler.cpu_budget_wait" (cpu_budget_wait_ms e) m in
  add_phase_ms "cpu_budget.wait" (cpu_budget_wait_ms e) m.

Definition record_usm_video_encode_acquire (e : EncodeFigures) (m : figures) : figures :=
  let m := add_phase_ms "post_process.usm.video_pool_wait" (wait_ms e) m in
  let m := add_phase_ms "media_scheduler.video_encode_wait" (wait_ms e) m in
  let m := record_max_phase_ms "media_scheduler.video_encode_active_peak" (active e) m in
  let m := add_phase_ms "media_scheduler.cpu_budget_wait" (cpu_budget_wait_ms e) m in
  add_phase_ms "cpu_budget.wait" (cpu_budget_wait_ms e) m.

(** [struct WorkerPoolStatsSnapshot] and [struct WorkerLeaseStats]. *)
Record WorkerPoolStatsSnapshot : Type := mkPoolStats {
  spawned : Z; recycled : Z; killed : Z; idle_reaped : Z; protocol_errors : Z; completed_calls : Z; max_call_ms : Z
}.
Record WorkerLeaseStats : Type := mkLeaseStats { worker_id : Z; worker_completed_calls : Z; pool : WorkerPoolStatsSnapshot }.

Definition record_worker_lease_stats (wait budget_wait : Z) (stats : WorkerLeaseStats) (m : figures) : figures :=
  foldl (fun m kv => <[kv.1 := kv.2]> m) m
    [("worker_pool.wait", wait); ("worker_pool.cpu_budget_wait", budget_wait); ("cpu_budget.wait", budget_wait);
     ("worker_pool.worker_id", worker_id stats); ("worker_pool.worker_completed_calls", worker_completed_calls stats);
     ("worker_pool.spawned", spawned (pool stats)); ("worker_pool.recycled", recycled (pool stats)); ("worker_pool.killed", killed (pool stats));
     ("worker_pool.idle_reaped", idle_reaped (pool stats)); ("worker_pool.protocol_errors", protocol_errors (pool stats));
     ("worker_pool.completed_calls", completed_calls (pool stats)); ("worker_pool.max_call_ms", max_call_ms (pool stats))].

(** [struct NativeBatchPhaseStats] and the figures of [struct NativeObjectReadBatchParseOutput]. *)
Record NativeBatchPhaseStats : Type := mkStats { p50_ms : Z; p95_ms : Z }.
Record BatchFigures : Type := mkBatch {
  payload_bundle_version : Z; payload_bundle_entry_count : Z; payload_data_bytes : Z;
  phase_ms : traversal; asset_type_counts : traversal; payload_kind_counts : traversal; payload_bytes_by_kind : traversal;
  phase_stats : list (string * NativeBatchPhaseStats)
}.

Definition record_stats (m : figures) (entry : string * NativeBatchPhaseStats) : figures :=
  record_max_phase_ms ("read_batch." +:+ entry.1 +:+ ".p95") (p95_ms entry.2)
    (record_max_phase_ms ("read_batch." +:+ entry.1 +:+ ".p50") (p50_ms entry.2) m).

(** [record_native_object_read_batch_diagnostics], its part on [phase_ms]. *)
Definition record_batch_figures (b : BatchFigures) (m : figures) : figures :=
  let m := record_max_phase_ms "read_batch.payload_bundle_version" (payload_bundle_version b) m in
  let m := add_phase_ms "read_batch.payload_bundle_entry_count" (payload_bundle_entry_count b) m in
  let m := add_phase_ms "read_batch.payload_data_bytes" (payload_data_bytes b) m in
  let m := merge_prefixed_phase_ms "read_batch.phase" (phase_ms b) m in
  let m := merge_prefixed_usize_counts "read_batch.asset_type_count" (asset_type_counts b) m in
  let m := merge_prefixed_usize_counts "read_batch.payload_kind_count" (payload_kind_counts b) m in
  let m := merge_prefixed_u64_counts "read_batch.payload_bytes_by_kind" (payload_bytes_by_kind b) m in
  foldl record_stats m (phase_stats b).

(** The figures of a response, with what stands in for a missing one. *)
Definition response_object_count (object_count fallback : Z) : Z := if 0 <? object_count then object_count else fallback.
Definition object_read_batch_payload_bundle_bytes (bundle_bytes payload_len fallback : Z) : Z :=
  if 0 <? bundle_bytes then bundle_bytes else if 0 <? payload_len then payload_len else fallback.
Definition object_read_batch_payload_data_bytes (data_bytes : Z) (by_kind : traversal) : Z :=
  if 0 <? data_bytes then data_bytes else truncate 64 (sumZ (map snd by_kind)).

(** ** The order of a traversal *)

Lemma figure_insert m p q v : figure (<[p := v]> m) q = if decide (p = q) then v else figure m q.
Proof. unfold figure. case_decide as E; [subst; by rewrite lookup_insert_eq|by rewrite lookup_insert_ne]. Qed.

Lemma wrap_comm a b c : wrapping_add 64 (wrapping_add 64 a b) c = wrapping_add 64 (wrapping_add 64 a c) b.
Proof. unfold wrapping_add, truncate. rewrite !Zplus_mod_idemp_l. f_equal. lia. Qed.

(** An update [f] of one entry commutes with another of the same kind. *)
Lemma update_comm (f : Z -> Z -> Z) (f_comm : forall a b c, f (f a b) c = f (f a c) b) p q v w (m : figures) :
  <[p := f (figure (<[q := f (figure m q) w]> m) p) v]> (<[q := f (figure m q) w]> m)
  = <[q := f (figure (<[p := f (figure m p) v]> m) q) w]> (<[p := f (figure m p) v]> m).
Proof.
  rewrite !figure_insert. destruct (decide (p = q)) as [->|Hne].
  - rewrite !decide_True by done. rewrite !insert_insert_eq. by rewrite f_comm.
  - rewrite !decide_False by congruence. by apply insert_insert_ne.
Qed.

Lemma add_comm p q v w m : add_phase_ms p v (add_phase_ms q w m) = add_phase_ms q w (add_phase_ms p v m).
Proof. apply (update_comm (wrapping_add 64)), wrap_comm. Qed.
Lemma max_comm p q v w m : record_max_phase_ms p v (record_max_phase_ms q w m) = record_max_phase_ms q w (record_max_phase_ms p v m).
Proof. apply (update_comm Z.max). lia. Qed.

Lemma foldl_perm {A} (f : figures -> A -> figures) (f_comm : forall m a b, f (f m a) b = f (f m b) a) l l' m :
  Permutation l l' -> foldl f m l = foldl f m l'.
Proof. intros Hp. revert m. induction Hp; intros m; cbn; [done|auto|by rewrite f_comm|by rewrite IHHp1]. Qed.

#[export] Instance merge_named_Proper name : Proper (Permutation ==> eq ==> eq) (merge_named name).
Proof. intros l l' Hp m _ <-. apply foldl_perm; [|done]. intros. apply add_comm. Qed.

Lemma record_stats_comm m a b : record_stats (record_stats m a) b = record_stats (record_stats m b) a.
Proof.
  unfold record_stats. set (pa := p95_ms a.2). rewrite (max_comm _ ("read_batch." +:+ a.1 +:+ ".p95")).
  rewrite (max_comm ("read_batch." +:+ b.1 +:+ ".p95") ("read_batch." +:+ a.1 +:+ ".p95")). f_equal.
  rewrite (max_comm ("read_batch." +:+ b.1 +:+ ".p50")). by rewrite (max_comm ("read_batch." +:+ b.1 +:+ ".p95")).
Qed.

(** Two traversals of the same response. *)
Record same_batch (b b' : BatchFigures) : Prop := mkSame {
  same_version : payload_bundle_version b = payload_bundle_version b';
  same_entries : payload_bundle_entry_count b = payload_bundle_entry_count b';
  same_bytes : payload_data_bytes b = payload_data_bytes b';
  same_phases : Permutation (phase_ms b) (phase_ms b');
  same_types : Permutation (asset_type_counts b) (asset_type_counts b');
  same_kinds : Permutation (payload_kind_counts b) (payload_kind_counts b');
  same_kind_bytes : Permutation (payload_bytes_by_kind b) (payload_bytes_by_kind b');
  same_stats : Permutation (phase_stats b) (phase_stats b')
}.

(** The figures of a batch do not depend on the order in which the maps of the response are
    traversed, even where names coincide. *)
Theorem batch_figures_deterministic b b' m : same_batch b b' -> record_batch_figures b m = record_batch_figures b' m.
Proof.
  intros [Hv He Hb Hp Ht Hk Hkb Hs]. unfold record_batch_figures, merge_prefixed_phase_ms, merge_prefixed_usize_counts, merge_prefixed_u64_counts.
  rewrite Hv, He, Hb, Hp, Ht, Hk, Hkb. apply foldl_perm; [apply record_stats_comm|done].
Qed.

(** ** What a merge adds *)

Lemma app_inj_l (p s t : string) : p +:+ s = p +:+ t -> s = t.
Proof. induction p as [|a p IH]; cbn; [done|]. intros [= E]. auto. Qed.

(** Every key of the source is added to the figure under its name, and nothing else changes:
    a traversal names each key once, and different keys have different names. *)
Theorem merge_adds prefix (source : gmap string Z) m phase :
  let merged := merge_prefixed_phase_ms prefix (map_to_list source) m in
  (forall key value, source !! key = Some value ->
     figure merged (prefix +:+ "." +:+ key) = wrapping_add 64 (figure m (prefix +:+ "." +:+ key)) value)
  /\ ((forall key value, source !! key = Some value -> phase <> prefix +:+ "." +:+ key) -> merged !! phase = m !! phase).
Proof.
  set (name := fun key => prefix +:+ "." +:+ key). cbv zeta. unfold merge_prefixed_phase_ms. fold name.
  assert (Hinj : forall a b, name a = name b -> a = b) by (intros a b E%app_inj_l; by injection E).
  assert (Hother : forall l m phase, (forall kv, kv ∈ l -> phase <> name kv.1) -> merge_named name l m !! phase = m !! phase).
  { clear. unfold merge_named. induction l as [|kv l IH]; intros m phase Hp; [done|]. cbn. rewrite IH by (intros; apply Hp; by right).
    unfold add_phase_ms. apply lookup_insert_ne. intros E. by apply (Hp kv); [left|]. }
  split.
  - intros key value Hkey%elem_of_map_to_list. pose proof (NoDup_fst_map_to_list source) as Hnd. change (prefix +:+ "." +:+ key) with (name key).
    apply list_elem_of_split in Hkey as (l1 & l2 & E). rewrite E in *. rewrite fmap_app, fmap_cons in Hnd.
    apply NoDup_app in Hnd as (_ & Hd & Hnd). apply NoDup_cons in Hnd as [Hn _]. cbn [fst] in Hn.
    assert (H1 : forall m, merge_named name l1 m !! name key = m !! name key).
    { intros m0. apply Hother. intros kv Hkv ->%Hinj. apply (Hd kv.1); [by apply list_elem_of_fmap_2|by left]. }
    assert (H2 : forall m, merge_named name l2 m !! name key = m !! name key).
    { intros m0. apply Hother. intros kv Hkv ->%Hinj. apply Hn. by apply list_elem_of_fmap_2. }
    unfold merge_named in *. rewrite foldl_app. cbn [foldl fst snd]. unfold figure at 1. rewrite H2. unfold add_phase_ms. rewrite lookup_insert_eq.
    cbn [default]. unfold figure. by rewrite H1.
  - intros Hp. apply Hother. intros [k v] Hkv%elem_of_map_to_list. by apply (Hp k v).
Qed.

Module MetricsDemo.
Definition batch (phases : traversal) : BatchFigures := mkBatch 2 3 100 phases [] [] [] [("decode", mkStats 4 9)].

Lemma batch_figures_deterministic_witness :
  record_batch_figures (batch [("a", 1); ("b", 2)]) ∅ = record_batch_figures (batch [("b", 2); ("a", 1)]) ∅.
Proof. apply batch_figures_deterministic. constructor; try reflexivity. cbn. apply perm_swap. Defined.
End MetricsDemo.
