(* ===== verification/RgbaImages.v ===== *)
(** * Writing images

    The writers of [implementation/images.rs] down to the samples the encoders receive, and
    [write_native_image_payload_final_files_with_backend] of [implementation/payload.rs], which
    writes a raw RGBA payload without decoding it.  The encoders of the [image] crate and its
    reader of other formats are parameters. *)

From S2P Require Import Prelude RustStr Errors Config Paths ExportPaths ExportPayload PayloadBundle.
From S2P Require Import UsmInputs AcbStreaming Media MediaPostProcess PostProcess.

Local Open Scope list_scope.
Local Open Scope Z_scope.
Local Open Scope rust_scope.

(** ** Images *)

(** A buffer of samples with its size; [other] stands for the decoded images that are not
    RGBA, with the conversions of the crate. *)
Record raster : Type := mkRaster { raster_width : Z; raster_height : Z; as_raw : bytes }.

(** [chunks_exact(4)] with [&rgba[..3]]. *)
Fixpoint drop_alpha (px : bytes) : bytes :=
  match px with
  | r :: g :: b :: _ :: rest => r :: g :: b :: drop_alpha rest
  | _ => []
  end.

Definition raster_of (w h : Z) (px : bytes) : option raster := if w * h * 4 <=? zlen px then Some (mkRaster w h px) else None.
Lemma raster_of_spec w h px : is_Some (raster_of w h px) <-> w * h * 4 <= zlen px.
Proof. unfold raster_of. destruct (Z.leb_spec (w * h * 4) (zlen px)); split; [done|by eexists|by intros []|lia]. Qed.
#[export] Instance raster_from_raw : RgbaImage raster := {| from_raw := raster_of; from_raw_spec := raster_of_spec |}.

Inductive CompressionType : Type := CompressFast | CompressDefault | CompressBest.
Definition png_compression_type (c : ImagePngCompression) : CompressionType :=
  match c with PngFast => CompressFast | PngDefault => CompressDefault | PngBest => CompressBest end.

(** The encoders on samples with their size: PNG and WebP take four channels, JPEG three. *)
Class SampleEncoders := {
  other : Type;
  other_to_rgba8 : other -> raster;
  other_to_rgb8 : other -> raster;
  read_other : bytes -> path -> result other ExportPipelineError;
  png_encoder : CompressionType -> raster -> result bytes string;
  jpeg_encoder : Z -> raster -> result bytes string;
  webp_encoder : raster -> result bytes string;
  left_behind : path -> bytes
}.

Section Writers.
Context `{SampleEncoders} `{MediaEnv}.

Inductive dynamic_image : Type := ImageRgba8 (i : raster) | OtherImage (x : other).
Definition to_rgba8 (i : dynamic_image) : raster := match i with ImageRgba8 i => i | OtherImage x => other_to_rgba8 x end.
Definition to_rgb8 (i : dynamic_image) : raster :=
  match i with ImageRgba8 i => mkRaster (raster_width i) (raster_height i) (drop_alpha (as_raw i)) | OtherImage x => other_to_rgb8 x end.

Definition decode_image_payload_bytes (payload : bytes) (target : path) : result dynamic_image ExportPipelineError :=
  if bytes_start_with NATIVE_AOT_RGBA_IR_MAGIC payload then
    let? i := decode_native_rgba_ir_payload payload in Ok (ImageRgba8 i)
  else let? x := read_other payload target in Ok (OtherImage x).

(** The writers of decoded images provide what [PostProcess] asks of them. *)
#[export] Instance sample_images : ImageEnv := {
  image := dynamic_image;
  decode_image := decode_image_payload_bytes;
  encode_png := fun c i => png_encoder (png_compression_type c) (to_rgba8 i);
  encode_jpeg := fun q i => jpeg_encoder q (to_rgb8 i);
  encode_webp := fun i => webp_encoder (to_rgba8 i);
  partial_image := left_behind
}.

(** ** The writers of raw images *)

Variable o : image_options.

Definition raw_raster (raw : NativeRgbaIr) : raster := mkRaster (rgba_width raw) (rgba_height raw) (native_rgba_ir_contiguous_pixels raw).

Definition write_native_rgba_ir_to_png_file (raw : NativeRgbaIr) (p : path) (c : ImagePngCompression) (d : disk) : media_result unit :=
  write_encoded p (png_encoder (png_compression_type c) (raw_raster raw)) d.
Definition write_native_rgba_ir_to_webp_file (raw : NativeRgbaIr) (p : path) (d : disk) : media_result unit :=
  write_encoded p (webp_encoder (raw_raster raw)) d.
Definition write_native_rgba_ir_to_jpeg_file (raw : NativeRgbaIr) (p : path) (quality : Z) (d : disk) : media_result unit :=
  let rgb := drop_alpha (native_rgba_ir_contiguous_pixels raw) in
  write_encoded p (jpeg_encoder quality (mkRaster (rgba_width raw) (rgba_height raw) rgb)) d.

Definition write_native_rgba_ir_to_image_file (raw : NativeRgbaIr) (p : path) (f : ImageOutputFormat) (d : disk) : media_result unit :=
  match f with
  | Png => write_native_rgba_ir_to_png_file raw p (png_compression (image_config o)) d
  | Jpg => write_native_rgba_ir_to_jpeg_file raw p (jpeg_quality (image_config o)) d
  | Webp => write_native_rgba_ir_to_webp_file raw p d
  end.

(** The loop over the formats: an image that is not raw is decoded for the first of them. *)
Fixpoint write_formats (target : path) (payload : bytes) (raw : option NativeRgbaIr) (img : option dynamic_image) (formats : list ImageOutputFormat)
  (d : disk) : media_result (list path) :=
  match formats with
  | [] => (d, Ok [])
  | f :: formats =>
      let output := image_output_file_for_format target f in
      let continue img d := and_continue (write_formats target payload raw img formats d) (fun more d => (d, Ok (output :: more))) in
      match raw with
      | Some raw => and_continue (write_native_rgba_ir_to_image_file raw output f d) (fun _ d => continue img d)
      | None =>
          match (match img with Some i => Ok i | None => decode_image_payload_bytes payload target end) with
          | Err e => (d, Err e)
          | Ok i => and_continue (write_dynamic_image_to_image_file o i output f d) (fun _ d => continue (Some i) d)
          end
      end
  end.

Definition write_native_image_payload_final_files_with_backend (target : path) (payload : bytes) (d : disk) : media_result (list path) :=
  match (if bytes_start_with NATIVE_AOT_RGBA_IR_MAGIC payload then (let? raw := parse_native_rgba_ir_payload payload in Ok (Some raw)) else Ok None) with
  | Err e => (d, Err e)
  | Ok raw => write_formats target payload raw None (image_formats o) d
  end.

(** The reference: decode the payload, then write every format from the image. *)
Definition decode_then_write (target : path) (payload : bytes) (d : disk) : media_result (list path) :=
  match decode_image_payload_bytes payload target with
  | Err e => (d, Err e)
  | Ok i => write_secondary o target i (image_formats o) d
  end.

(** ** The short cut *)

Lemma decode_raw payload raw target :
  parse_native_rgba_ir_payload payload = Ok raw -> bytes_start_with NATIVE_AOT_RGBA_IR_MAGIC payload = true ->
  decode_image_payload_bytes payload target = Ok (ImageRgba8 (raw_raster raw)).
Proof.
  intros Hp Hm. unfold decode_image_payload_bytes. rewrite Hm. unfold decode_native_rgba_ir_payload. rewrite Hp. cbn [result_bind from_raw raster_from_raw]. unfold raster_of.
  rewrite (zlen_contiguous payload raw) by (by apply parse_rgba_ok). by rewrite Z.leb_refl.
Qed.

Lemma write_raw raw p f d : write_native_rgba_ir_to_image_file raw p f d = write_dynamic_image_to_image_file o (ImageRgba8 (raw_raster raw)) p f d.
Proof. by destruct f. Qed.

Lemma and_continue_ext {A B} (r : media_result A) (f g : A -> disk -> media_result B) :
  (forall a d, f a d = g a d) -> and_continue r f = and_continue r g.
Proof. intros E. unfold and_continue. destruct r as [d [a|e]]; [apply E|done]. Qed.

Lemma formats_raw target payload raw img formats d :
  write_formats target payload (Some raw) img formats d = write_secondary o target (ImageRgba8 (raw_raster raw)) formats d.
Proof.
  revert d. induction formats as [|f formats IH]; intros d; [done|]. cbn [write_formats write_secondary]. rewrite write_raw.
  apply and_continue_ext. intros _ d'. by rewrite IH.
Qed.

Lemma formats_decoded target payload i formats d : write_formats target payload None (Some i) formats d = write_secondary o target i formats d.
Proof.
  revert d. induction formats as [|f formats IH]; intros d; [done|]. cbn [write_formats write_secondary].
  apply and_continue_ext. intros _ d'. by rewrite IH.
Qed.

(** Writing a raw image without decoding it is equivalent to decoding it first: the same
    files with the same contents and the same error, for every payload (also one that is not
    raw, or cannot be parsed) and every list of formats that is not empty. *)
Theorem raw_writer_equivalent target payload d :
  image_formats o <> [] -> write_native_image_payload_final_files_with_backend target payload d = decode_then_write target payload d.
Proof.
  intros Hne. unfold write_native_image_payload_final_files_with_backend, decode_then_write.
  destruct (bytes_start_with NATIVE_AOT_RGBA_IR_MAGIC payload) eqn:Em.
  - destruct (parse_native_rgba_ir_payload payload) as [raw|e] eqn:Ep; cbn [result_bind].
    + rewrite (decode_raw payload raw target Ep Em). apply formats_raw.
    + unfold decode_image_payload_bytes. rewrite Em. unfold decode_native_rgba_ir_payload. by rewrite Ep.
  - destruct (image_formats o) as [|f formats]; [done|]. cbn [write_formats write_secondary].
    destruct (decode_image_payload_bytes payload target) as [i|e]; [|done].
    apply and_continue_ext. intros _ d'. by rewrite formats_decoded.
Qed.

(** ** The samples *)

Lemma drop_alpha_channel px n x c : zlen px = 4 * Z.of_nat n -> 0 <= x < Z.of_nat n -> 0 <= c < 3 ->
  drop_alpha px !! Z.to_nat (3 * x + c) = px !! Z.to_nat (4 * x + c).
Proof.
  revert px x. induction n as [|n IH]; intros px x Hl Hx Hc; [lia|].
  destruct px as [|r [|g [|b [|a rest]]]]; rewrite ?zlen_cons in Hl; try (unfold zlen in Hl; cbn in Hl; lia).
  destruct (decide (x = 0)) as [->|Hx0].
  - assert (Hc' : c = 0 \/ c = 1 \/ c = 2) by lia. by destruct Hc' as [->|[->| ->]].
  - cbn [drop_alpha]. replace (Z.to_nat (3 * x + c)) with (S (S (S (Z.to_nat (3 * (x - 1) + c))))) by lia.
    replace (Z.to_nat (4 * x + c)) with (S (S (S (S (Z.to_nat (4 * (x - 1) + c)))))) by lia. cbn [lookup list_lookup]. apply IH; lia.
Qed.

Lemma zlen_drop_alpha px n : zlen px = 4 * Z.of_nat n -> zlen (drop_alpha px) = 3 * Z.of_nat n.
Proof.
  revert px. induction n as [|n IH]; intros px Hl; [destruct px; [done|]; rewrite zlen_cons in Hl; pose proof (zlen_nonneg px); lia|].
  destruct px as [|r [|g [|b [|a rest]]]]; rewrite ?zlen_cons in Hl; try (unfold zlen in Hl; cbn in Hl; lia).
  cbn [drop_alpha]. rewrite !zlen_cons, (IH rest) by lia. lia.
Qed.

(** The JPEG encoder receives exactly [width * height * 3] samples of a payload that parses,
    and the colour [c] of pixel (x, y) is its byte of the payload. *)
Theorem jpeg_samples_exact payload raw :
  parse_native_rgba_ir_payload payload = Ok raw ->
  let rgb := drop_alpha (native_rgba_ir_contiguous_pixels raw) in
  zlen rgb = rgba_width raw * rgba_height raw * 3 /\
  forall x y c, 0 <= x < rgba_width raw -> 0 <= y < rgba_height raw -> 0 <= c < 3 ->
    rgb !! Z.to_nat (3 * (y * rgba_width raw + x) + c)
    = native_rgba_ir_contiguous_pixels raw !! Z.to_nat (4 * (y * rgba_width raw + x) + c).
Proof.
  intros Hok%parse_rgba_ok rgb. pose proof (zlen_contiguous payload raw Hok) as Hl. destruct Hok as (Hw & Hh & _).
  assert (Hn : exists n, rgba_width raw * rgba_height raw = Z.of_nat n) by (exists (Z.to_nat (rgba_width raw * rgba_height raw)); nia).
  destruct Hn as [n Hn]. assert (Hl4 : zlen (native_rgba_ir_contiguous_pixels raw) = 4 * Z.of_nat n) by lia. split.
  - unfold rgb. rewrite (zlen_drop_alpha _ n Hl4). lia.
  - intros x y c Hx Hy Hc. apply (drop_alpha_channel _ n _ _ Hl4); [nia|done].
Qed.
End Writers.

Module RgbaDemo.
Lemma jpeg_samples_exact_witness :
  exists raw, parse_native_rgba_ir_payload padded_image = Ok raw
  /\ drop_alpha (native_rgba_ir_contiguous_pixels raw) = map byte_of_Z [1; 2; 3; 5; 6; 7]
  /\ zlen (drop_alpha (native_rgba_ir_contiguous_pixels raw)) = rgba_width raw * rgba_height raw * 3.
Proof.
  eexists. split; [vm_compute; reflexivity|]. split; [vm_compute; reflexivity|]. apply (jpeg_samples_exact padded_image). vm_compute. reflexivity.
Defined.

(** Encoders that tag the samples. *)
#[local] Instance tags : SampleEncoders := {|
  other := bytes;
  other_to_rgba8 := mkRaster 1 1;
  other_to_rgb8 := mkRaster 1 1;
  read_other := fun b _ => Ok b;
  png_encoder := fun _ i => Ok (Byte.x50 :: as_raw i);
  jpeg_encoder := fun _ i => Ok (Byte.x4a :: as_raw i);
  webp_encoder := fun i => Ok (Byte.x57 :: as_raw i);
  left_behind := fun _ => []
|}.
#[local] Instance media : MediaEnv := PostProcess.ConcretePost.one_track.
Definition options : image_options := mkImageOptions [Png; Jpg] ImageBackendConfig_default.
Definition d0 : disk := mkDisk ∅ (list_to_set (map components ["/"; "/o"]%string)).
Definition target : path := components "/o/card.png".

Lemma raw_writer_equivalent_witness :
  write_native_image_payload_final_files_with_backend options target padded_image d0 = decode_then_write options target padded_image d0
  /\ d_files (decode_then_write options target padded_image d0).1 !! components "/o/card.jpg" = Some (Byte.x4a :: map byte_of_Z [1; 2; 3; 5; 6; 7]).
Proof.
  split; [|vm_compute; reflexivity]. apply raw_writer_equivalent. discriminate.
Defined.
End RgbaDemo.
