(* ===== verification/RemoteRecord.v ===== *)
(** * The download record in an object store

    [load_download_record_from_storage] and [save_download_record_to_storage] of
    [src/core/download_records.rs], over the interface [RemoteStore] of [Storage] and a read
    that may fail. *)

From S2P Require Import Prelude Errors AssetInfo AssetTasks Storage.

Local Open Scope string_scope.

(** What [Operator::read] answers. *)
Inductive read_error : Type := ReadNotFound | ReadFailed (source : string).

Section RemoteRecord.
Context `{RecordCodec}.
Context {Op Remote : Type} (op_write : Op -> string -> bytes -> string -> Remote -> result unit string * Remote).
Context (op_read : Op -> string -> Remote -> result bytes read_error).

Definition parse_download_record (path : string) (bs : bytes) : result DownloadRecord DownloadRecordError :=
  result_map_err (RecordParse path) (record_from_json bs).
Definition serialize_download_record (path : string) (record : DownloadRecord) : result bytes DownloadRecordError :=
  result_map_err (RecordSerialize path) (record_to_json record).

Definition load_download_record_from_storage (provider : string) (operator : Op) (path : string) (st : Remote)
    : result DownloadRecord DownloadRecordError :=
  match op_read operator path st with
  | Ok bs => parse_download_record path bs
  | Err ReadNotFound => Ok ∅
  | Err (ReadFailed source) => Err (RecordStorageRead provider path source)
  end.

Definition save_download_record_to_storage (provider : string) (operator : Op) (path : string) (record : DownloadRecord) (st : Remote)
    : result unit DownloadRecordError * Remote :=
  match serialize_download_record path record with
  | Err e => (Err e, st)
  | Ok data =>
      let '(r, st') := op_write operator path data "application/json" st in
      (result_map_err (RecordStorageWrite provider path) r, st')
  end.

Context `{!RemoteStore op_write}.
(** A read that succeeds returns the object; an object that is there is not reported missing. *)
Context (read_found : forall op k st bs, op_read op k st = Ok bs -> remote_get st op k = Some bs)
        (read_missing : forall op k st, op_read op k st = Err ReadNotFound -> remote_get st op k = None).

(** A record that was saved is the one a later load returns, unless the store fails to answer,
    and a save that fails leaves the stored record as it was: a load finds what it would have
    found before, and is never mistaken for a missing record. *)
Theorem remote_record_round_trip provider operator path record st r st' :
  save_download_record_to_storage provider operator path record st = (r, st') ->
  match r with
  | Ok _ => load_download_record_from_storage provider operator path st' = Ok record
            \/ exists source, load_download_record_from_storage provider operator path st' = Err (RecordStorageRead provider path source)
  | Err _ => remote_get st' operator path = remote_get st operator path
  end.
Proof.
  unfold save_download_record_to_storage, serialize_download_record. destruct (record_to_json record) as [data|e] eqn:Ej; cbn [result_map_err];
    [|by intros [= <- <-]].
  destruct (op_write _ _ _ _ st) as [[[]|e] st1] eqn:Ew; cbn [result_map_err]; intros [= <- <-]; [|by eapply write_err].
  apply write_ok in Ew. unfold load_download_record_from_storage, parse_download_record. destruct (op_read operator path st1) as [bs|[|source]] eqn:Er; [left|exfalso|eauto].
  - apply read_found in Er. assert (bs = data) as -> by congruence. by rewrite (record_from_to _ _ Ej).
  - apply read_missing in Er. congruence.
Qed.
End RemoteRecord.

Module RemoteRecordDemo.
Import ConcreteStore ConcreteTasks.
Definition op_read (op key : string) (st : remote) : result bytes read_error := ok_or (st !! (op, key)) ReadNotFound.

Lemma op_read_found op k st bs : op_read op k st = Ok bs -> remote_get st op k = Some bs.
Proof. unfold op_read. change (remote_get st op k) with (st !! (op, k)). destruct (st !! (op, k)); [by intros [= ->]|done]. Qed.
Lemma op_read_missing op k st : op_read op k st = Err ReadNotFound -> remote_get st op k = None.
Proof. unfold op_read. change (remote_get st op k) with (st !! (op, k)). by destruct (st !! (op, k)). Qed.

Lemma remote_record_round_trip_witness :
  let saved := save_download_record_to_storage op_write "main" "s3" "jp.json" record ∅ in
  saved.1 = Ok tt /\ load_download_record_from_storage op_read "main" "s3" "jp.json" saved.2 = Ok record.
Proof.
  cbv zeta. split; [reflexivity|].
  destruct (save_download_record_to_storage op_write "main" "s3" "jp.json" record ∅) as [r st'] eqn:E.
  assert (Hr : r = Ok tt) by (injection E as <- _; reflexivity).
  pose proof (remote_record_round_trip op_write op_read op_read_found op_read_missing
    "main" "s3" "jp.json" record ∅ r st' E) as Hth.
  subst r. destruct Hth as [Hok|[source Hf]]; [exact Hok|]. exfalso. unfold load_download_record_from_storage, op_read in Hf.
  destruct (st' !! ("s3", "jp.json")) as [bs|]; cbn in Hf; [|discriminate]. unfold parse_download_record in Hf. destruct (record_from_json bs); discriminate.
Defined.
End RemoteRecordDemo.
