(* ===== verification/Execution.v ===== *)
(** * An execution from start to end

    [execute_with_filter] of [src/core/asset_execution.rs] around the loop of [Scheduler]: the
    record is loaded, the index fetched, the downloads are planned and filtered, the loop
    runs, the record is saved and the chart hashes are synchronised.  The loop is the step
    relation of [Scheduler], so an execution is a relation between its inputs and its events,
    result and record file.  The second part composes it with the planning of the next
    execution ([AssetTasks]) and with the reports of [Progress]. *)

From stdpp Require Import relations.
From S2P Require Import Prelude Errors Config Models AssetInfo AssetTasks Scheduler.
From S2P Require Progress.

Local Open Scope string_scope.
Local Open Scope list_scope.

#[export] Instance ExecutionProgressUpdate_eq_dec : EqDecision ExecutionProgressUpdate.
Proof. solve_decision. Defined.

Abbreviation exec_result := (result ExecutionSummary AssetExecutionError).

(** What an execution finds: the cancel flag at its checks, the record file, the answers of
    the provider, the filter of the caller, and the ends of the last two steps. *)
Record ExecInput : Type := mkExec {
  x_cancelled_at_start : bool;
  x_record_file : option string;
  x_record_read : result bytes io_error;
  x_cookies : result unit AssetExecutionError;
  x_cancelled_before_index : bool;
  x_index : result AssetBundleInfo AssetExecutionError;
  x_filter : option (list DownloadTask -> result (list DownloadTask) AssetExecutionError);
  x_save : result unit AssetExecutionError;
  x_sync : DownloadRecord -> result bool AssetExecutionError
}.

Section Execution.
Context `{RecordCodec}.
Context (regex_new : string -> option (string -> bool)) (region_name : string) (region : RegionConfig) (lim : limits).

(** Up to the first download: the end of an execution that does not get there, or the
    record, the number of bundles and the tasks. *)
Inductive prepared : Type :=
| Stopped (r : exec_result)
| Planned (record : DownloadRecord) (info : AssetBundleInfo) (tasks : list DownloadTask).

Definition plan_tasks (x : ExecInput) (record : DownloadRecord) (info : AssetBundleInfo) : result (list DownloadTask) AssetExecutionError :=
  let tasks := build_download_tasks regex_new region info record in
  match x_filter x with Some filter => filter tasks | None => Ok tasks end.

Definition prepare (x : ExecInput) : list ExecutionProgressUpdate * prepared :=
  if x_cancelled_at_start x then ([], Stopped (Err Cancelled))
  else
    match x_record_file x with
    | None => ([], Stopped (Err (MissingAssetSaveDir region_name)))
    | Some file =>
        match load_download_record (x_record_read x) file with
        | Err e => ([], Stopped (Err (AxDownloadRecord e)))
        | Ok record =>
            let fetching := [Phase FetchingAssetInfo "fetching asset bundle info"] in
            match x_cookies x with
            | Err e => (fetching, Stopped (Err e))
            | Ok _ =>
                if x_cancelled_before_index x then (fetching, Stopped (Err Cancelled))
                else
                  match x_index x with
                  | Err e => (fetching, Stopped (Err e))
                  | Ok info =>
                      let planning := fetching ++ [Phase PlanningDownloads "building download task list"] in
                      match plan_tasks x record info with
                      | Err e => (planning, Stopped (Err e))
                      | Ok tasks =>
                          let planned := planning ++ [DownloadsPlanned (length tasks)] in
                          match tasks with
                          | [] => (planned, Stopped (Ok (mkExecutionSummary (size (bundles info)) 0 0 0 0 false)))
                          | _ => (planned ++ [Phase DownloadingBundles "downloading bundles"], Planned record info tasks)
                          end
                      end
                  end
            end
        end
    end.

(** After the loop: events, result and the record file. *)
Definition conclude (x : ExecInput) (info : AssetBundleInfo) (tasks : list DownloadTask) (s : sched)
    : list ExecutionProgressUpdate * exec_result * option DownloadRecord :=
  let persisting := [Phase PersistingState "saving downloaded asset record"] in
  if cancel s then (persisting, Err Cancelled, on_disk s)
  else
    match x_save x with
    | Err e => (persisting, Err e, on_disk s)
    | Ok _ =>
        let saved := persisting ++ [RecordSaved (size (downloaded s)); Phase SyncingChartHashes "syncing chart hashes"] in
        match x_sync x (downloaded s) with
        | Err e => (saved, Err e, Some (downloaded s))
        | Ok performed =>
            (saved ++ [ChartHashSyncFinished performed],
             Ok (mkExecutionSummary (size (bundles info)) (length tasks) (completed s) (failed s) (size (downloaded s)) performed),
             Some (downloaded s))
        end
    end.

(** [execute_with_filter]: the events, the result, and the record file where it was written. *)
Inductive executes (x : ExecInput) : list ExecutionProgressUpdate -> exec_result -> option DownloadRecord -> Prop :=
| exec_stopped es r : prepare x = (es, Stopped r) -> executes x es r None
| exec_cancelled es record info tasks s e :
    prepare x = (es, Planned record info tasks) -> sched_reachable lim tasks record s -> returned s = Some e ->
    executes x (es ++ events s) (Err e) (on_disk s)
| exec_finished es record info tasks s es' r disk :
    prepare x = (es, Planned record info tasks) -> sched_reachable lim tasks record s -> returned s = None -> loop_done s = true ->
    conclude x info tasks s = (es', r, disk) ->
    executes x (es ++ events s ++ es') r disk.

(** ** What the events count *)

Definition number (f : ExecutionProgressUpdate -> bool) (es : list ExecutionProgressUpdate) : nat := length (List.filter f es).
Definition plans (e : ExecutionProgressUpdate) : bool := match e with DownloadsPlanned _ => true | _ => false end.

Lemma count_app f a b : number f (a ++ b) = (number f a + number f b)%nat.
Proof. unfold number. by rewrite List.filter_app, length_app. Qed.

Lemma count_cons f e es : number f (e :: es) = ((if f e then 1 else 0) + number f es)%nat.
Proof. unfold number. cbn. by destruct (f e). Qed.
Lemma count_nil f : number f [] = 0%nat.
Proof. done. Qed.

(** The events of the loop are those it counts, and it plans nothing. *)
Record counted (s : sched) : Prop := mkCounted {
  c_completed : number Progress.is_completed (events s) = completed s;
  c_failed : number Progress.is_failed (events s) = failed s;
  c_plans : List.filter plans (events s) = []
}.

Lemma counted_same s s' : events s' = events s -> completed s' = completed s -> failed s' = failed s -> counted s -> counted s'.
Proof. intros E1 E2 E3 []. split; rewrite ?E1, ?E2, ?E3; done. Qed.

Lemma counted_spawn s : counted s -> counted (spawn_next s).
Proof. unfold spawn_next. destruct (jobs s !! next s) as [[t p]|]; [|done]. by apply counted_same. Qed.

Lemma counted_failure t s : counted s -> counted (count_failure t s).
Proof. intros []. split; cbn [events completed failed count_failure]; rewrite ?count_app, ?count_cons, ?count_nil, ?List.filter_app; cbn; rewrite ?app_nil_r; lia || done. Qed.

Lemma counted_completed save t s : counted s -> counted (record_completed_bundle lim save t s).
Proof.
  intros []. unfold record_completed_bundle. destruct (_ && _); [destruct save|]; split; cbn [events completed failed];
    rewrite ?count_app, ?count_cons, ?count_nil, ?List.filter_app; cbn; rewrite ?app_nil_r; lia || done.
Qed.

Lemma counted_events s es : number Progress.is_completed es = 0%nat -> number Progress.is_failed es = 0%nat -> List.filter plans es = [] ->
  counted s -> counted (with_events s es).
Proof. intros E1 E2 E3 []. split; cbn [events completed failed with_events]; rewrite ?count_app, ?List.filter_app, ?E1, ?E2, ?E3, ?app_nil_r; lia || done. Qed.

Lemma counted_step s s' : sched_step lim s s' -> counted s -> counted s'.
Proof.
  intros Hs Hc. destruct Hs; try (by apply (counted_same s)).
  - by apply counted_events; [..|apply (counted_same s)].
  - unfold join_download. destruct r as [u|e]; [apply counted_spawn, counted_events; [done..|by apply (counted_same s)]|].
    destruct (is_cancelled e); [by apply (counted_same s)|]. by apply counted_spawn, counted_failure, (counted_same s).
  - unfold join_post. destruct r as [u|e]; [by apply counted_completed, (counted_same s)|].
    destruct (is_cancelled e); [by apply (counted_same s)|]. by apply counted_failure, (counted_same s).
Qed.

Lemma counted_reachable tasks record s : sched_reachable lim tasks record s -> counted s.
Proof.
  intros [flag Hr]. assert (H0 : counted (sched_init lim tasks record flag)).
  { unfold sched_init. induction (download_concurrency lim) as [|n IH]; [by split|]. cbn. by apply counted_spawn. }
  induction Hr as [|a b c Hab _ IH]; [done|]. eauto using counted_step.
Qed.

(** ** The summary *)

(** The record that was loaded and the index that was fetched. *)
Definition starts_from (x : ExecInput) (record : DownloadRecord) (info : AssetBundleInfo) : Prop :=
  (exists file, x_record_file x = Some file /\ load_download_record (x_record_read x) file = Ok record) /\ x_index x = Ok info.

Lemma prepare_planned x es record info tasks :
  prepare x = (es, Planned record info tasks) ->
  plan_tasks x record info = Ok tasks /\ tasks <> [] /\ starts_from x record info
  /\ es = [Phase FetchingAssetInfo "fetching asset bundle info"; Phase PlanningDownloads "building download task list";
           DownloadsPlanned (length tasks); Phase DownloadingBundles "downloading bundles"].
Proof.
  unfold prepare. destruct (x_cancelled_at_start x); [done|]. destruct (x_record_file x) as [file|] eqn:Ef; [|done].
  destruct (load_download_record _ _) eqn:El; [|done]. destruct (x_cookies x); [|done]. destruct (x_cancelled_before_index x); [done|].
  destruct (x_index x) as [i|] eqn:Ei; [|done]. destruct (plan_tasks x _ i) as [ts|] eqn:Ep; [|done]. destruct ts as [|t ts]; [done|].
  intros [= <- <- <- <-]. split_and!; try done. split; [by exists file|done].
Qed.

(** The parts of an execution that got to the loop and succeeded. *)
Record success (x : ExecInput) (es : list ExecutionProgressUpdate) (summary : ExecutionSummary) (disk : option DownloadRecord)
    (record : DownloadRecord) (info : AssetBundleInfo) (tasks : list DownloadTask) (s : sched) : Prop := mkSuccess {
  su_planned : plan_tasks x record info = Ok tasks;
  su_nonempty : tasks <> [];
  su_start : starts_from x record info;
  su_reachable : sched_reachable lim tasks record s;
  su_done : loop_done s = true;
  su_disk : disk = Some (downloaded s);
  su_events : exists performed, es =
    [Phase FetchingAssetInfo "fetching asset bundle info"; Phase PlanningDownloads "building download task list";
     DownloadsPlanned (length tasks); Phase DownloadingBundles "downloading bundles"] ++ events s
    ++ [Phase PersistingState "saving downloaded asset record"; RecordSaved (size (downloaded s));
        Phase SyncingChartHashes "syncing chart hashes"; ChartHashSyncFinished performed];
  su_summary : queued_downloads summary = length tasks /\ completed_downloads summary = completed s /\ failed_downloads summary = failed s
               /\ updated_record_entries summary = size (downloaded s)
}.

Lemma executes_ok x es summary disk :
  executes x es (Ok summary) disk ->
  (queued_downloads summary = 0%nat /\ completed_downloads summary = 0%nat /\ failed_downloads summary = 0%nat /\ disk = None
   /\ prepare x = (es, Stopped (Ok summary)))
  \/ exists record info tasks s, success x es summary disk record info tasks s.
Proof.
  intros He. inversion He as [es0 r Hp| |es0 record info tasks s es' r disk' Hp Hr Hret Hd Hc]; subst.
  - left. pose proof Hp as Hp'. revert Hp'. unfold prepare. destruct (x_cancelled_at_start x); [done|]. destruct (x_record_file x); [|done].
    destruct (load_download_record _ _); [|done]. destruct (x_cookies x); [|done]. destruct (x_cancelled_before_index x); [done|].
    destruct (x_index x) as [i|]; [|done]. destruct (plan_tasks x _ i) as [ts|]; [|done]. destruct ts; [|done]. intros [= <- <-]. done.
  - right. exists record, info, tasks, s. apply prepare_planned in Hp as (Hp & Hne & Hst & ->). unfold conclude in Hc.
    destruct (cancel s); [done|]. destruct (x_save x); [|done]. destruct (x_sync x _) as [performed|]; [|done]. injection Hc as <- <- <-.
    split; try done. by exists performed.
Qed.

(** The summary of an execution is exact: every queued bundle is counted once, as completed
    or as failed; the counts are the numbers of those events, [DownloadsPlanned] announced
    their sum exactly once, and what was queued is what the filter left of the plan. *)
Theorem execution_summary_exact x es summary disk :
  limits_wf lim -> executes x es (Ok summary) disk ->
  (completed_downloads summary + failed_downloads summary = queued_downloads summary)%nat
  /\ number Progress.is_completed es = completed_downloads summary /\ number Progress.is_failed es = failed_downloads summary
  /\ List.filter plans es = [DownloadsPlanned (queued_downloads summary)].
Proof.
  intros Hwf [(Hq & Hc & Hf & _ & Hp)|(record & info & tasks & s & [Hp _ _ Hr Hd _ [performed ->] (-> & -> & -> & _)])]%executes_ok.
  - rewrite Hq, Hc, Hf. split; [done|]. revert Hp. unfold prepare. destruct (x_cancelled_at_start x); [done|]. destruct (x_record_file x); [|done].
    destruct (load_download_record _ _); [|done]. destruct (x_cookies x); [|done]. destruct (x_cancelled_before_index x); [done|].
    destruct (x_index x) as [i|]; [|done]. destruct (plan_tasks x _ i) as [ts|]; [|done]. destruct ts; [|done]. intros [= <- _]. done.
  - destruct (counted_reachable _ _ _ Hr) as [H1 H2 H3]. split; [by eapply done_all_finished, Hd; [|by eapply reachable_sinv]|].
    rewrite !count_app, !count_cons, !count_nil, !List.filter_app, H1, H2, H3. cbn. rewrite ?app_nil_r. split_and!; [lia|lia|done].
Qed.

(** ** The next execution *)

(** The record holds the hash of every bundle whose completion was announced, and is the
    loaded one elsewhere. *)
Definition recorded (tasks : list DownloadTask) (record : DownloadRecord) (s : sched) : Prop :=
  forall name,
    (BundleCompleted name ∈ events s -> exists t, t ∈ tasks /\ bundle_path t = name /\ downloaded s !! name = Some (bundle_hash t))
    /\ (BundleCompleted name ∉ events s -> downloaded s !! name = record !! name).

Lemma recorded_same tasks record s s' :
  (forall name, BundleCompleted name ∈ events s' <-> BundleCompleted name ∈ events s) -> downloaded s' = downloaded s ->
  recorded tasks record s -> recorded tasks record s'.
Proof. intros He Ed Hr name. rewrite Ed, He. apply Hr. Qed.

Lemma recorded_spawn tasks record s : recorded tasks record s -> recorded tasks record (spawn_next s).
Proof. unfold spawn_next. by destruct (jobs s !! next s) as [[t p]|]. Qed.

Lemma recorded_failure tasks record t s : recorded tasks record s -> recorded tasks record (count_failure t s).
Proof. apply recorded_same; [|done]. intros name. cbn. rewrite elem_of_app, list_elem_of_singleton. naive_solver. Qed.

Lemma recorded_completed tasks record save t s :
  t ∈ tasks -> NoDup (map bundle_path tasks) -> recorded tasks record s -> recorded tasks record (record_completed_bundle lim save t s).
Proof.
  intros Ht Hnd Hr name.
  assert (He : BundleCompleted name ∈ events (record_completed_bundle lim save t s) <-> BundleCompleted name ∈ events s \/ name = bundle_path t).
  { unfold record_completed_bundle. destruct (_ && _); [destruct save|]; cbn [events]; rewrite ?elem_of_app, ?list_elem_of_singleton; naive_solver. }
  destruct (record_completed_fields lim save t s) as (_ & _ & _ & _ & -> & _). rewrite He. destruct (Hr name) as [H1 H2].
  destruct (decide (name = bundle_path t)) as [->|Hne].
  - rewrite lookup_insert_eq. split; [intros _; by exists t|tauto].
  - rewrite lookup_insert_ne by done. split; [intros [Hc|]; [auto|done]|tauto].
Qed.

Lemma recorded_step tasks record s s' :
  NoDup (map bundle_path tasks) -> sinv lim tasks 0 s -> sched_step lim s s' -> recorded tasks record s -> recorded tasks record s'.
Proof.
  intros Hnd Hs Hstep Hr.
  assert (Hin : forall i t p, jobs s !! i = Some (t, p) -> t ∈ tasks).
  { intros i t p Hi. rewrite <- (i_tasks _ _ _ _ Hs). apply list_elem_of_fmap. exists (t, p). split; [done|]. by eapply list_elem_of_lookup_2. }
  assert (Hset : forall i t p, recorded tasks record (set_phase s i t p)) by done.
  destruct Hstep as [s Hret Hc|s i t Hret Hi Ha|s i t Hret Hi Ha|s i t Hret Hi Ha|s i t r Hret Hi|s i t r Hret Hi
    |s i t Hret Hi Ha|s i t r Hret Hi|s i t r save Hret Hi]; try done.
  - apply (recorded_same _ _ (set_phase s i t Running)); [|done|done]. intros name. cbn. rewrite elem_of_app, list_elem_of_singleton. naive_solver.
  - unfold join_download. destruct r as [u|e].
    + apply recorded_spawn, (recorded_same _ _ (set_phase s i t PostWait)); [|done|done].
      intros name. cbn. rewrite elem_of_app, list_elem_of_singleton. naive_solver.
    + destruct (is_cancelled e); [done|]. by apply recorded_spawn, recorded_failure.
  - unfold join_post. destruct r as [u|e]; [apply recorded_completed; eauto|].
    destruct (is_cancelled e); [done|]. by apply recorded_failure.
Qed.

Lemma recorded_reachable tasks record s :
  limits_wf lim -> NoDup (map bundle_path tasks) -> sched_reachable lim tasks record s -> recorded tasks record s.
Proof.
  intros Hwf Hnd [flag Hr]. pose proof (init_inv lim tasks record flag) as Hs.
  assert (H0 : recorded tasks record (sched_init lim tasks record flag)).
  { unfold sched_init. induction (download_concurrency lim) as [|n IH]; [|by apply recorded_spawn].
    intros name. cbn. split; [intros []%elem_of_nil|done]. }
  induction Hr as [|a b c Hab _ IH]; [done|]. apply IH; [by eapply step_inv|by eapply recorded_step].
Qed.

Lemma sublist_map {A B} (f : A -> B) l l' : sublist l l' -> sublist (map f l) (map f l').
Proof. induction 1; cbn; [constructor|by apply sublist_skip|by apply sublist_cons]. Qed.

(** A filter that only leaves tasks out. *)
Definition only_removes (x : ExecInput) : Prop :=
  match x_filter x with Some filter => forall ts ts', filter ts = Ok ts' -> sublist ts' ts | None => True end.

Lemma planned_sublist x record info tasks :
  only_removes x -> plan_tasks x record info = Ok tasks -> sublist tasks (build_download_tasks regex_new region info record).
Proof. unfold only_removes, plan_tasks. destruct (x_filter x); [auto|by intros _ [= <-]]. Qed.

(** C7: failed bundles are retried and nothing else is: after an execution that succeeded and
    had something to do, the plan over the same index and the record it saved consists of
    exactly the bundles of its own plan whose completion it did not announce (those that
    failed, and those the filter left out). *)
Theorem next_execution_retries x es summary record' :
  limits_wf lim -> only_removes x -> executes x es (Ok summary) (Some record') ->
  exists record info,
    starts_from x record info /\
    forall t, t ∈ build_download_tasks regex_new region info record'
              <-> t ∈ build_download_tasks regex_new region info record /\ BundleCompleted (bundle_path t) ∉ es.
Proof.
  intros Hwf Hf [(_ & _ & _ & ? & _)|(record & info & tasks & s & [Hp _ Hst Hr _ Hd [performed ->] _])]%executes_ok; [done|].
  injection Hd as ->. exists record, info. split; [done|]. apply planned_sublist in Hp; [|done].
  assert (Hnd : NoDup (map bundle_path tasks)).
  { destruct (download_tasks_exact regex_new region info record (mkDownloadTask "" "" "" StartApp 0 0)) as [_ Hnd].
    eapply sublist_NoDup; [exact Hnd|]. by apply sublist_map. }
  pose proof (recorded_reachable tasks record s Hwf Hnd Hr) as Hrec. intros t.
  assert (He : BundleCompleted (bundle_path t) ∈ [Phase FetchingAssetInfo "fetching asset bundle info"; Phase PlanningDownloads "building download task list";
     DownloadsPlanned (length tasks); Phase DownloadingBundles "downloading bundles"] ++ events s
    ++ [Phase PersistingState "saving downloaded asset record"; RecordSaved (size (downloaded s));
        Phase SyncingChartHashes "syncing chart hashes"; ChartHashSyncFinished performed] <-> BundleCompleted (bundle_path t) ∈ events s)
    by (rewrite !elem_of_app, !elem_of_cons, !elem_of_nil; naive_solver).
  rewrite He. destruct (Hrec (bundle_path t)) as [H1 H2].
  rewrite (proj1 (download_tasks_exact regex_new region info (downloaded s) t)), (proj1 (download_tasks_exact regex_new region info record t)).
  destruct (decide (BundleCompleted (bundle_path t) ∈ events s)) as [Hc|Hc].
  - destruct (H1 Hc) as (u & Hu & Hn & Hl). split; [|by intros []]. intros (d & Hd & _ & _ & Hne & _). exfalso. apply Hne. rewrite Hl. f_equal.
    apply (elem_of_sublist _ _ _ Hu) in Hp as Hu'. apply (proj1 (download_tasks_exact regex_new region info record u)) in Hu' as (d' & Hd' & _ & _ & _ & Eu).
    rewrite Hn in Hd'. assert (d' = d) as -> by congruence. by rewrite Eu.
  - rewrite (H2 Hc). split; [by split|by intros []].
Qed.
End Execution.

(** ** What the log says of it *)

(** The reporter sees the events of the execution among others that it only passes on. *)
Definition decisive (e : ExecutionProgressUpdate) : bool := plans e || Progress.is_completed e || Progress.is_failed e.

Lemma filter_implied {A} (f g : A -> bool) l : (forall a, f a = true -> g a = true) -> List.filter f (List.filter g l) = List.filter f l.
Proof.
  intros Hfg. induction l as [|a l IH]; [done|]. cbn. destruct (g a) eqn:Eg; cbn; [by rewrite IH|].
  destruct (f a) eqn:Ef; [apply Hfg in Ef; congruence|done].
Qed.

Lemma decisive_same f es es' :
  (forall e, f e = true -> decisive e = true) -> List.filter decisive es = List.filter decisive es' -> List.filter f es = List.filter f es'.
Proof. intros Hf He. rewrite <- (filter_implied f decisive es Hf), He. by apply filter_implied. Qed.

Lemma length_filter_fst (f : ExecutionProgressUpdate -> bool) seen :
  Progress.number f seen = Z.of_nat (number f (map fst seen)).
Proof.
  unfold Progress.number, number, zlen. f_equal. induction seen as [|[e now] seen IH]; [done|]. cbn. destruct (f e); cbn; by rewrite IH.
Qed.

Lemma maybe_log_counts force now r : Progress.counts (Progress.maybe_log force now r).2 = Progress.counts r.
Proof. unfold Progress.maybe_log. by destruct (_ && _). Qed.

(** The plan the reporter holds is the last one announced. *)
Lemma planned_announced seen r :
  Progress.planned (Progress.counts (Progress.observe_all seen r).2)
  = match last (List.filter plans (map fst seen)) with
    | Some (DownloadsPlanned n) => Z.of_nat n
    | _ => Progress.planned (Progress.counts r)
    end.
Proof.
  revert r. induction seen as [|[e now] seen IH]; intros r; [done|]. cbn [Progress.observe_all map fst List.filter].
  pose proof (maybe_log_counts (Progress.forces e (Progress.count_event e (Progress.counts r))) now
    (Progress.mkReporter (match e with Phase p _ => Progress.phase_name p | _ => Progress.phase r end) (Progress.count_event e (Progress.counts r))
       (Progress.layer1_skipped r) (Progress.last_logged_at r) (Progress.last_logged_percent_bucket r))) as Hc.
  change (Progress.maybe_log _ _ _) with (Progress.observe e now r) in Hc. destruct (Progress.observe e now r) as [report r1]. cbn [snd Progress.counts] in Hc.
  specialize (IH r1). destruct (Progress.observe_all seen r1) as [reports r2]. cbn [snd] in *. rewrite IH, Hc.
  assert (Hl : forall n l, last (DownloadsPlanned n :: List.filter plans l) = match last (List.filter plans l) with Some y => Some y | None => Some (DownloadsPlanned n) end).
  { intros n l. destruct (List.filter plans l) as [|y l']; [done|]. rewrite last_cons_cons. destruct (last (y :: l')) eqn:E; [done|]. by apply last_None in E. }
  assert (Hp : forall y l, last (List.filter plans l) = Some y -> plans y = true).
  { intros y l E. apply last_Some_elem_of in E. apply list_elem_of_In, List.filter_In in E. by destruct E. }
  destruct e; cbn [plans]; try done. rewrite Hl. destruct (last (List.filter plans (map fst seen))) as [y|] eqn:E; [|done].
  apply Hp in E. by destruct y.
Qed.

(** The last report of an execution that succeeded is complete: whatever other events come
    in between and whatever the clock does, [finish] reports as many bundles planned,
    completed and failed as the summary counts, and that all of them are done: 100.0%. *)
Theorem finished_execution_reported `{RecordCodec} regex_new region_name region lim x es summary disk seen created layer1 now :
  limits_wf lim -> executes regex_new region_name region lim x es (Ok summary) disk -> (0 < queued_downloads summary)%nat ->
  List.filter decisive (map fst seen) = List.filter decisive es -> (100 * (zlen seen + 1) < 2 ^ 64)%Z ->
  (1000 * Z.of_nat (queued_downloads summary) < 2 ^ 64)%Z ->
  exists report,
    (Progress.finish now (Progress.observe_all seen (Progress.new_reporter layer1 created)).2).1 = Some report
    /\ Progress.planned (Progress.report_counts report) = Z.of_nat (queued_downloads summary)
    /\ Progress.completed (Progress.report_counts report) = Z.of_nat (completed_downloads summary)
    /\ Progress.failed (Progress.report_counts report) = Z.of_nat (failed_downloads summary)
    /\ Progress.is_finished (Progress.report_counts report) = true /\ Progress.percent_x10 report = 1000%Z.
Proof.
  intros Hwf He Hq Hseen Hn Hm. destruct (execution_summary_exact _ _ _ _ _ _ _ _ Hwf He) as (Hsum & Hc & Hf & Hp).
  pose proof (Progress.log_keeps_up created layer1 seen Hn) as Hk. pose proof (planned_announced seen (Progress.new_reporter layer1 created)) as Hpl.
  rewrite (decisive_same plans _ es) in Hpl by (done || (intros []; done)). rewrite Hp in Hpl. cbn [last] in Hpl.
  destruct (Progress.observe_all seen _) as [reports r]. cbn [snd] in *. destruct Hk as (_ & Hkc & Hkf).
  rewrite length_filter_fst in Hkc, Hkf. unfold number in *.
  rewrite (decisive_same Progress.is_completed _ es), Hc in Hkc by (done || (intros []; done)).
  rewrite (decisive_same Progress.is_failed _ es), Hf in Hkf by (done || (intros []; done)).
  unfold Progress.finish, Progress.maybe_log. cbn [negb andb fst]. eexists. split; [done|]. cbn [Progress.report_counts Progress.percent_x10].
  assert (Hpr : Progress.processed (Progress.counts r) = Z.of_nat (queued_downloads summary)).
  { unfold Progress.processed. rewrite Progress.wrap_small by lia. lia. }
  split_and!; [done..| |].
  - unfold Progress.is_finished. rewrite Hpr, Hpl. apply andb_true_iff. lia.
  - unfold Progress.tenths, saturating_mul, u_max. rewrite Hpr, Hpl. destruct (Z.eqb_spec (Z.of_nat (queued_downloads summary)) 0); [lia|].
    rewrite Z.min_l by lia. by rewrite Z.mul_comm, Z.div_mul by lia.
Qed.

(** ** An execution of two bundles: the first fails to download, the second completes *)
Module ConcreteExecution.
Import ConcreteTasks.
#[local] Instance codec : RecordCodec := countable_record_codec.

Definition lim : limits := ConcreteRun.lim.
Definition read : result bytes io_error := match record_to_json record with Ok data => Ok data | Err _ => Err NotFound end.
Definition x : ExecInput :=
  mkExec false (Some "rec.json") read (Ok tt) false (Ok info) (Some (fun ts => Ok ts)) (Ok tt) (fun _ => Ok false).
Definition tasks : list DownloadTask := build_download_tasks regex_new region info record.
Definition fetch (t : DownloadTask) : outcome := if String.eqb (bundle_path t) "ab" then Err (AxHttp "reset") else Ok tt.
Definition s0 : sched := sched_init lim tasks record false.
Definition path : list nat := [0; 0; 0; 0; 0; 1; 1; 1; 1; 1; 1; 1; 1]%nat.
Definition s_end : sched := default s0 (run_path lim fetch (fun _ => Ok tt) s0 path).
Definition summary : ExecutionSummary := mkExecutionSummary 4 2 1 1 2 false.
Definition es : list ExecutionProgressUpdate := (prepare regex_new "jp" region x).1 ++ events s_end ++ (conclude x info tasks s_end).1.1.

Lemma run_end : sched_reachable lim tasks record s_end.
Proof.
  exists false. eapply rtc_nsteps_2, (run_path_steps lim fetch (fun _ => Ok tt) s0 path). vm_compute. reflexivity.
Qed.

Lemma run_ok : executes regex_new "jp" region lim x es (Ok summary) (Some (downloaded s_end)).
Proof.
  unfold es. eapply (exec_finished _ _ _ _ _ _ record info tasks s_end); [vm_compute; reflexivity|apply run_end|vm_compute; reflexivity..].
Qed.

Lemma execution_summary_exact_witness : (1 + 1 = 2)%nat /\ number Progress.is_completed es = 1%nat.
Proof.
  destruct (execution_summary_exact regex_new "jp" region lim x es summary _ ConcreteRun.lim_wf run_ok) as (Hs & Hc & _). split; [exact Hs|exact Hc].
Defined.

(** The failed bundle is the whole next plan. *)
Lemma next_execution_retries_witness :
  map bundle_path (build_download_tasks regex_new region info (downloaded s_end)) = ["ab"]
  /\ exists record0 info0, starts_from x record0 info0
     /\ forall t, t ∈ build_download_tasks regex_new region info0 (downloaded s_end)
                  <-> t ∈ build_download_tasks regex_new region info0 record0 /\ BundleCompleted (bundle_path t) ∉ es.
Proof.
  split; [vm_compute; reflexivity|].
  apply (next_execution_retries regex_new "jp" region lim x es summary (downloaded s_end) ConcreteRun.lim_wf); [|apply run_ok].
  intros ts ts' E. injection E as <-. reflexivity.
Defined.

Definition seen : list (ExecutionProgressUpdate * Progress.Reading) := map (fun e => (e, Progress.mkReading 5 5 0)) es.

Lemma finished_execution_reported_witness :
  exists report, (Progress.finish (Progress.mkReading 9 9 0) (Progress.observe_all seen (Progress.new_reporter 0 0)).2).1 = Some report
    /\ Progress.planned (Progress.report_counts report) = 2%Z /\ Progress.percent_x10 report = 1000%Z.
Proof.
  destruct (finished_execution_reported regex_new "jp" region lim x es summary _ seen 0 0 (Progress.mkReading 9 9 0) ConcreteRun.lim_wf run_ok)
    as (report & E & Hp & _ & _ & _ & Ht); [cbn; lia|vm_compute; reflexivity|vm_compute; reflexivity|vm_compute; reflexivity|].
  exists report. split; [exact E|]. split; [exact Hp|exact Ht].
Defined.
End ConcreteExecution.
